(* ===== verification/_CoqProject ===== *)
-Q . S2P
Prelude.v
Fabric.v
Hex.v
Wire.v
Ristretto.v
ToyGroup.v
CdsVerify.v
CredVerify.v
SelectionVerify.v
SigVerify.v
Contract.v
BoardSpec.v
HandlerFacts.v
Ledger.v
Positions.v
HonestVoter.v
Receipts.v
Client.v
ClientFacts.v
GoText.v
Config.v
Ballots.v
Scenarios.v
Attacks.v
Board.v
Journal.v
JournalFacts.v
Ceremony.v
CeremonyFacts.v
CeremonyLedger.v
Auth.v
AuthFacts.v
AuthServer.v
ToyLedger.v
ToyElection.v
Bench.v
Resume.v
ResumeFacts.v
Verdict.v
LedgerDump.v
LedgerDumpFacts.v
ToyClient.v
ReceiptFile.v
ReceiptFileFacts.v
Partials.v
Timeline.v
TimelineFacts.v
Phases.v
PhasesFacts.v
Jobs.v
Csv.v
RunStore.v
Perf.v
Gates.v
Exclusion.v
ExclusionFacts.v
Canvass.v
CanvassFacts.v
Server.v
ServerFacts.v
Hub.v
DataCheck.v
BoardPage.v
Derived.v
Repeat.v
RepeatFacts.v
Views.v
Preflight.v
Campaign.v
CampaignFacts.v
AuditPhase.v
ResumePhase.v
ResumePhaseFacts.v
Mount.v
Bundle.v
ToyRuns.v
ToyPhases.v
ToyResumed.v
ToyConsole.v
ToyCampaigns.v
