(* ===== verification/Prelude.v ===== *)
(** * Saksi: a verification development for the bulletin-board chaincode and
    the research election console

    The program is a verifiable election system. Voters' clients prepare
    encrypted ballots with zero-knowledge proofs; a Hyperledger Fabric chaincode
    (the bulletin board) admits them and keeps them; trustees who shared the
    decryption key publish partial decryptions and a signed tally; a research
    console drives whole elections, attacks them, and measures them. This
    library models the Go side of it. All paths below are under [src/packages/]:
    CC is [saksi-bulletin/chaincode], SDK is [saksi-bulletin/client-sdk], CAM is
    [saksi-campaign].

    ** How the parts interact

    A transaction runs one handler of [Contract] against a snapshot of the world
    state ([Fabric]), and is committed if what it read is still current
    ([Ledger]). The handler's gates call the proof verifiers ([CdsVerify],
    [SelectionVerify], [CredVerify], [SigVerify]). [Client] wraps the gateway's
    transactions for the console; [Bench] sends ballots in parallel through it
    and [Receipts] checks the chain of blocks. The console keeps a folder per run
    ([RunStore]), a journal in it ([Journal]), the ballots and receipts
    ([Ballots], [ReceiptFile]); [Phases] runs the lifecycle of an election on the
    board, pausing for attacks ([Timeline], [Scenarios], [Mount]); a killed
    window is planned again from the chain and the journal ([Resume]) and driven
    to its end ([ResumePhase]); [Ceremony] gathers the trustees' shares;
    [LedgerDump] reads the run back and [AuditPhase] audits it; [Verdict] and
    [Board] say how it ended, [Perf] keeps its figures, [Derived] writes its
    tables, and [BoardPage] is what the public sees of it. [Server] decides
    which of these a request may start, behind [Auth], [Gates] and the locks of
    [Exclusion] and [Jobs]; [DataCheck] recounts generated data; [Hub] carries
    their progress to the pages. [Repeat] drives a console through its own requests,
    many runs to one summary; [Campaign] starts it from the console, after
    [Preflight], and keeps the record of its runs. [Canvass] runs precincts and
    audits their signed returns against a national count.

    ** Which file models what

    Shared: [Prelude] (bytes, machine integers, results and errors with their
    notation, list lemmas), [GoText] (Go's [strings], [strconv],
    [fmt] formats as data; Module [TextFacts] their lemmas), [Hex] (encoding/hex), [Wire] (the protobuf messages
    as records, the codec a class with its round trip), [Ristretto] (the group
    and Merlin transcripts as classes with their laws), [Fabric] (the chaincode
    stub: composite keys, state reads and writes, as a state-and-error monad).

    The chaincode: [CdsVerify] (CC/cdsverify), [SelectionVerify]
    (CC/selectionverify), [CredVerify] (CC/credverify), [SigVerify] (CC/sigverify
    and CC/electionpk.go), [Contract] (CC/contract.go, every transaction).
    [BoardSpec] is its abstract specification: a board of elections, ballots,
    spent nullifiers, partial decryptions and tallies with one relation per
    transaction. [HandlerFacts] (with Modules [BallotFacts] and [LifecycleFacts]) runs the
    handlers' gates one at a time; [Ledger] has histories, endorsement and
    commit; [Positions] and [HonestVoter] the contests a ballot covers and what an
    honest client computes.

    The Go client: [Client], [ClientFacts] (SDK/bulletin.go, errtext.go), [Receipts]
    (SDK/ledger.go), [Bench] (SDK/bench).

    The console: [Config] (CAM/config.go), [Scenarios], [Attacks] (the catalogue,
    the live submission and the verdicts of CAM/scenarios.go), [Mount] (its
    simulated attacks: copy, control, mutation, audit, results; and the live
    mounts of a pause), [Ballots] (CAM/ballots.go), [Board] (the ranking of
    CAM/board.go), [Journal], [JournalFacts] (CAM/journal.go), [Ceremony],
    [CeremonyFacts], [CeremonyLedger] (CAM/ceremony.go), [Auth], [AuthFacts],
    [AuthServer] (CAM/auth.go and the guard of internal.go), [Resume],
    [ResumeFacts] (the resume's plan and checkpoint), [ResumePhase],
    [ResumePhaseFacts] (the submission, resume, generation and chain-only
    verification phases), [Verdict] and [AuditPhase] (the verdict and the Verify
    phase), [Partials] ([submitPartials]), [Phases], [PhasesFacts] (the
    lifecycles), all of CAM/executor.go and precinct.go; [LedgerDump],
    [LedgerDumpFacts] (CAM/ledger_dump.go), [ReceiptFile], [ReceiptFileFacts]
    (CAM/receipts.go), [Timeline], [TimelineFacts] (CAM/timeline.go), [Jobs]
    (CAM/jobs.go), [RunStore] (CAM/runstore.go), [Csv] (the CSV text of
    CAM/perf.go and its readers), [Perf] (perf.csv), [Derived] (CAM/csvexport.go
    and the tables of a run), [Gates] (the ladder, disk and
    memory gates of CAM/server.go and a campaign's disk projection),
    [Exclusion], [ExclusionFacts] (the locks of CAM/server.go, reset.go and
    fault.go), [Server], [ServerFacts] (the handlers of CAM/server.go, fault.go,
    reset.go and jobs.go that start work), [Hub] (CAM/sse.go, the page and
    cancel handlers), [DataCheck] (CAM/check.go, and the format of the tables it
    reads, from saksi-auditor/src/ground_truth.rs), [BoardPage] (the rest of
    CAM/board.go and the tally of trail.go), [Views] (the rest of CAM/trail.go,
    the runs list and the exports of server.go), [Bundle] (CAM/export_bundle.go),
    [Repeat], [RepeatFacts] (CAM/repeat.go), [Preflight] (CAM/preflight.go),
    [Campaign], [CampaignFacts] (CAM/campaign.go), [Canvass], [CanvassFacts]
    (CAM/canvass).

    The [Toy...] files instantiate the library interfaces with concrete functions
    (a group of seven elements, a ledger in memory) and run whole scenarios: they
    hold the witnesses, and the concrete runs that show a divergence.

    ** What the theorems show

    - The chaincode refines the abstract board; over any committed history,
      endorsed concurrently or not, no credential votes twice, the ledger holds
      exactly the ballots cast, records verify, nothing is overwritten, a closed
      election is frozen, and honest ballots and transactions are accepted.
    - The verifiers are sound: two accepting transcripts with one commitment
      give the witness; the derived keys are those of the shares.
    - The client's counts are the ledger's; chain verification terminates and is
      tamper-evident; the benchmark accounts for every ballot.
    - A lifecycle that reports success has left the election closed on the
      ledger with every ballot recorded or accounted for; partial decryptions
      are each sent once and the submission always ends; a resume submits only
      what the chain lacks; a pause carries out what the operator decided and
      a split window accounts for its ballots as one does.
    - A resume ends with the election closed and recorded, or leaves the run
      resumable. Attacks mounted at a pause pass or are skipped with a reason
      and never touch the election's own files; a catalogue verdict has its
      evidence: a control that passed and the gate it names.
    - Verifying a run audits both records, whatever the chain does; the verdict
      of a window is the right one; perf.csv keeps the latest row of each run.
    - The journal keeps its order and never blocks or loses a call; the receipts
      before a crash are read after it; the ledger dump is exact.
    - The console: accounts, sessions and roles; bounded password guesses; a
      ceremony published only past its threshold; run ids and folders never
      reused; gates exact below the width of their integers; phases, jobs and
      resets kept apart on every interleaving, and a fault from all of them but
      the phase of another run; no work started without what it needs; each
      page gets its run's events, in order, whatever other pages do.
    - Campaigns: the preflight blocks exactly what the gates would refuse; a
      campaign that starts has runs the console admits; it returns, its runs are
      driven in order and its summary is of what the console served for the
      measured ones; the ladder pins only a build whose four tiers the console
      answered had passed; its records stay well formed through failed
      saves and restarts, settled rows for good, with the driver's verdicts.
    - The data-validation gate passes exactly the valid populations, of tables
      in the generator's format.
    - The trail is sealed until a tally is on the ledger; the runs list and a
      campaign's bundle are complete and say what is missing.
    - The public board keeps a result sealed until it is published (but for two
      digests and the figures of a contest that failed its audit), then serves
      a fixed list of files, headers without their private values; a tracking
      code finds its ballot and no other.
    - A canvass without attacks audits each precinct's return byte for byte as
      it was signed, and its exit code says what happened.

    ** Conventions

    Go's [int], [int64] and [uint64] are [Z], with [wrap64] or a
    modulus written where the code's arithmetic can wrap; [float64] is the
    standard library's [spec_float] at 53 bits. Strings and byte slices are
    sequences of bytes. Errors are values ([goerr]) that keep the format and its
    arguments, so that a statement can say which refusal it is. Handlers return
    [result]; a handler with effects is a function of its state. Goroutines are
    steps: a critical section that touches only what its lock guards is one step,
    and a scheduler that chooses who goes next is an inductive relation, whose
    invariants are proved by induction on it.

    Fuel: the loops of the code that are not structural carry fuel, and a theorem
    of the same file says that the fuel given is enough: [Client]'s paging loop
    (one page per thousand nullifiers), [Receipts]' walk (one step per block),
    [LedgerDump]'s pages and [Ballots]' scan. Loops over a channel are step
    relations with a measure that decreases. [Repeat] polls a run's status at
    most [polls] times; its theorems have as hypothesis that a phase ends within
    them ([RepeatFacts.phases_end]), and then it returns.

    Parameters: the ristretto255 group and Merlin transcript, SHA-256, the
    protobuf codec, the Fabric stub and gateway, bcrypt, time formatting, the
    file system's answers. Each is a class or a section variable, with its
    documented laws as hypotheses where a theorem needs them, and has a concrete
    instance among the [Toy...] files.

    ** Not modelled

    The Rust crates (the voters' cryptography and the auditor, but for the format
    of the generator's two tables), generated
    protobuf code, web pages, flag parsing and the wiring of main.go: other
    languages, or no logic of their own. The processes the console starts,
    docker and the gateway's network connection: their answers are parameters.
    The measurement of the host (CAM/env.go, sampler.go, the probes behind
    perf.go and preflight.go and its shared sample cache): operating-system
    queries, whose answers are arguments of what uses them. The script a network
    reset runs (CAM/reset.go), the trustee console's view (CAM/ceremonyview.go),
    and the transport of CAM/internal.go that joins [Repeat] to the console it
    runs in ([Repeat] asks an arbitrary console, [Campaign]'s steps are what the
    transport calls). Of a modelled handler, the text of progress messages; of
    the pause loop, its journal stamps. *)
From Stdlib Require Export ZArith Lia.
From Stdlib Require Export Strings.Byte.
From Stdlib Require Import SpecFloat.
From Stdlib Require Import String.
From stdpp Require Export base gmap strings list fin_maps list_numbers.
#[global] Open Scope string_scope.
#[global] Open Scope list_scope.
#[global] Open Scope Z_scope.

(** ** Bytes and strings

    A Go [string] is a [String.string] (a sequence of 8-bit characters, which
    is what Go's strings are); a Go [[]byte] is a [list byte]. *)
Abbreviation byte := Byte.byte.
Abbreviation bytes := (list Byte.byte).

#[global] Instance byte_eq_dec : EqDecision byte := Byte.byte_eq_dec.

(** [[]byte(s)] and [string(b)]: conversions that copy the bytes. *)
Definition bytes_of_string (s : string) : bytes := list_byte_of_string s.

Definition string_of_bytes (b : bytes) : string := string_of_list_byte b.

(** [bytes.Equal]. *)
Definition bytes_equal (a b : bytes) : bool := bool_decide (a = b).

(** Lengths are Go [int]s; a length never exceeds 2^63 - 1, so the embedding
    into [Z] is exact. *)
Definition blen (b : bytes) : Z := Z.of_nat (length b).

Definition slen (s : string) : Z := Z.of_nat (String.length s).

(** ** Machine integers *)
Definition max_uint32 : Z := 2 ^ 32.

Definition max_uint64 : Z := 2 ^ 64.

(** Two's-complement wrap-around of a 64-bit [int]. *)
Definition wrap64 (z : Z) : Z := (z + 2 ^ 63) `mod` 2 ^ 64 - 2 ^ 63.

(** [byte(v)] for an unsigned [v]: the low eight bits. *)
Definition byte_of_Z (z : Z) : byte :=
  match Byte.of_N (Z.to_N (z `mod` 256)) with Some b => b | None => x00 end.

Definition Z_of_byte (b : byte) : Z := Z.of_N (Byte.to_N b).

(** Little-endian encoding of [v] on [n] bytes, the loop of
    [binary.LittleEndian.PutUint64] / [AppendUint32]. *)
Fixpoint le_bytes (n : nat) (v : Z) : bytes :=
  match n with
  | O => []
  | S n => byte_of_Z v :: le_bytes n (Z.shiftr v 8)
  end.

Fixpoint le_value (b : bytes) : Z :=
  match b with
  | [] => 0
  | x :: b => Z_of_byte x + 256 * le_value b
  end.

(** ** Errors

    A Go [error] built by [fmt.Errorf(format, args...)] is its format with its
    arguments; the rendering of the arguments is [fmt]'s business and is not
    modelled, the structure (which return statement, wrapping which error) is.
    [Foreign] is an error made by code outside the repository. *)
Inductive goerr : Set :=
| Errorf (format : string) (args : list goarg)
| Foreign (text : string)
with goarg : Set :=
| AStr (s : string)
| AInt (z : Z)
| AFloat (f : spec_float)
| AStrs (l : list string)
| AErr (e : goerr).

(** Results of fallible code: Go's [(T, error)] pairs, where the value is used
    only when the error is nil. *)
Inductive result (A : Type) : Type :=
| Ok (a : A)
| Err (e : goerr).
Arguments Ok {A} a.
Arguments Err {A} e.

Definition rbind {A B} (r : result A) (k : A → result B) : result B :=
  match r with Ok a => k a | Err e => Err e end.

(** [if err != nil { return fmt.Errorf(format, ..., err) }]. *)
Definition wrap_err {A} (f : goerr → goerr) (r : result A) : result A :=
  match r with Ok a => Ok a | Err e => Err (f e) end.

Definition is_ok {A} (r : result A) : bool :=
  match r with Ok _ => true | Err _ => false end.

Declare Scope saksi_scope.
Delimit Scope saksi_scope with saksi.
Notation "'let?' x ':=' r 'in' k" := (rbind r (fun x => k))
  (at level 10, x binder, r at level 100, k at level 200) : saksi_scope.
Notation "'guard?' b 'else' e ';' k" := (if b then k else Err e)
  (at level 10, b at level 100, e at level 100, k at level 200) : saksi_scope.
#[global] Open Scope saksi_scope.

(** Left-to-right traversal stopping at the first error (a Go [for] loop whose
    body may return). *)
Fixpoint rmapM {A B} (f : A → result B) (l : list A) : result (list B) :=
  match l with
  | [] => Ok []
  | x :: l => let? y := f x in let? ys := rmapM f l in Ok (y :: ys)
  end.

Fixpoint rfoldM {A S} (f : S → A → result S) (s : S) (l : list A) : result S :=
  match l with
  | [] => Ok s
  | x :: l => let? s' := f s x in rfoldM f s' l
  end.

Fixpoint riter {A} (f : A → result unit) (l : list A) : result unit :=
  match l with
  | [] => Ok tt
  | x :: l => let? _ := f x in riter f l
  end.

(** [strings.HasPrefix] and [strings.Contains]. *)
Fixpoint has_prefix (s prefix : string) : bool :=
  match prefix, s with
  | EmptyString, _ => true
  | String p prefix, String c s => bool_decide (p = c) && has_prefix s prefix
  | String _ _, EmptyString => false
  end.

Fixpoint str_contains (s sub : string) : bool :=
  has_prefix s sub ||
  match s with EmptyString => false | String _ s => str_contains s sub end.

(** ** Lemmas: results *)
Lemma rbind_ok {A B} (r : result A) (k : A → result B) b :
  rbind r k = Ok b ↔ ∃ a, r = Ok a ∧ k a = Ok b.
Proof. destruct r; naive_solver. Qed.

Lemma wrap_err_ok {A} f (r : result A) a : wrap_err f r = Ok a ↔ r = Ok a.
Proof. destruct r; naive_solver. Qed.

Lemma guard_ok {A} (b : bool) e (k : result A) a :
  (if b then k else Err e) = Ok a ↔ b = true ∧ k = Ok a.
Proof. destruct b; naive_solver. Qed.

Lemma nguard_ok {A} (b : bool) e (k : result A) a :
  (if b then Err e else k) = Ok a ↔ b = false ∧ k = Ok a.
Proof. destruct b; naive_solver. Qed.

Lemma rmapM_ok {A B} (f : A → result B) l l' :
  rmapM f l = Ok l' ↔ Forall2 (λ x y, f x = Ok y) l l'.
Proof.
  revert l'. induction l as [|x l IH]; intros l'; simpl.
  - split; [intros [= <-]; constructor | by inversion 1].
  - rewrite rbind_ok. setoid_rewrite rbind_ok. setoid_rewrite IH. split.
    + intros (y & Hy & ys & Hys & [= <-]). by constructor.
    + inversion 1; subst; eauto.
Qed.

Lemma riter_ok {A} (f : A → result unit) l :
  riter f l = Ok tt ↔ Forall (λ x, f x = Ok tt) l.
Proof.
  induction l as [|x l IH]; cbn; [split; [constructor | done]|].
  rewrite rbind_ok, Forall_cons, <- IH. split; [intros ([] & -> & ->); done|].
  intros [-> ->]. by exists tt.
Qed.

(** ** Lemmas: bytes, strings and integers *)
Lemma bytes_equal_true a b : bytes_equal a b = true ↔ a = b.
Proof. apply bool_decide_eq_true. Qed.

Lemma string_of_bytes_of_string s : string_of_bytes (bytes_of_string s) = s.
Proof. apply string_of_list_byte_of_string. Qed.

Lemma bytes_of_string_of_bytes b : bytes_of_string (string_of_bytes b) = b.
Proof. apply list_byte_of_string_of_list_byte. Qed.

Lemma bytes_of_string_inj s t : bytes_of_string s = bytes_of_string t → s = t.
Proof.
  intros H. rewrite <- (string_of_bytes_of_string s), H.
  apply string_of_bytes_of_string.
Qed.

Lemma blen_bytes_of_string s : blen (bytes_of_string s) = slen s.
Proof.
  unfold blen, slen, bytes_of_string, list_byte_of_string.
  rewrite length_map. f_equal. induction s as [|c s IH]; cbn; [done | by rewrite IH].
Qed.

Lemma Z_of_byte_range b : 0 ≤ Z_of_byte b < 256.
Proof. unfold Z_of_byte. pose proof (Byte.to_N_bounded b). lia. Qed.

Lemma Z_of_byte_of_Z z : Z_of_byte (byte_of_Z z) = z `mod` 256.
Proof.
  unfold Z_of_byte, byte_of_Z.
  assert (0 ≤ z `mod` 256 < 256) as Hr by (apply Z.mod_pos_bound; lia).
  destruct (Byte.of_N (Z.to_N (z `mod` 256))) eqn:E.
  - apply Byte.to_of_N in E. rewrite E. lia.
  - apply Byte.of_N_None_iff in E. lia.
Qed.

Lemma length_le_bytes n v : length (le_bytes n v) = n.
Proof. revert v; induction n; intros; simpl; auto. Qed.

Lemma le_value_le_bytes n v : le_value (le_bytes n v) = v `mod` 2 ^ (8 * Z.of_nat n).
Proof.
  revert v. induction n as [|n IH]; intros v; cbn [le_bytes le_value].
  { by rewrite Z.mod_1_r. }
  rewrite IH, Z_of_byte_of_Z, Z.shiftr_div_pow2 by lia.
  replace (8 * Z.of_nat (S n)) with (8 + 8 * Z.of_nat n) by lia.
  rewrite Z.pow_add_r by lia. change (2 ^ 8) with 256.
  rewrite Z.rem_mul_r by lia. lia.
Qed.

Lemma le_bytes_inj n u v :
  0 ≤ u < 2 ^ (8 * Z.of_nat n) → 0 ≤ v < 2 ^ (8 * Z.of_nat n) →
  le_bytes n u = le_bytes n v → u = v.
Proof.
  intros Hu Hv E. apply (f_equal le_value) in E.
  rewrite !le_value_le_bytes, !Z.mod_small in E; lia.
Qed.

(** Two equal concatenations whose first parts have equal length split. *)
Lemma app_inj_len {A} (a b c d : list A) :
  length a = length c → a ++ b = c ++ d → a = c ∧ b = d.
Proof. apply app_inj_1. Qed.

(** A list with exactly one element satisfying [P] has a unique index for it. *)
Lemma filter_nil_lookup {A} (P : A → Prop) `{∀ x, Decision (P x)} (l : list A) j x :
  length (filter P l) = 0%nat → l !! j = Some x → ¬ P x.
Proof.
  intros Hl Hj Hx. apply nil_length_inv in Hl.
  assert (x ∈ filter P l) as Hin.
  { apply list_elem_of_filter. split; [done|]. by eapply list_elem_of_lookup_2. }
  rewrite Hl in Hin. by apply not_elem_of_nil in Hin.
Qed.

Lemma one_filter_unique (l : list bool) :
  length (filter (λ b, b = true) l) = 1%nat →
  ∃ i, l !! i = Some true ∧ ∀ j, l !! j = Some true → j = i.
Proof.
  induction l as [|b l IH]; [done|]. rewrite filter_cons. case_decide as Hb.
  - subst b. cbn [length]. intros [= Hl]. exists 0%nat. split; [done|].
    intros [|j] Hj; [done|]. cbn in Hj. by destruct (filter_nil_lookup _ _ _ _ Hl Hj).
  - intros Hl. destruct (IH Hl) as (i & Hi & Hu). exists (S i). split; [done|].
    intros [|j] Hj; [by injection Hj|]. f_equal. by apply Hu.
Qed.

Lemma filter_all {A} (P : A → Prop) `{∀ x, Decision (P x)} l : Forall P l → filter P l = l.
Proof. induction 1; [done|]. rewrite filter_cons_True by done. by f_equal. Qed.

Lemma filter_none {A} (P : A → Prop) `{∀ x, Decision (P x)} l :
  Forall (λ x, ¬ P x) l → filter P l = [].
Proof. induction 1; [done|]. by rewrite filter_cons_False. Qed.

(** Two positions that satisfy [P] make at least two such elements. *)
Lemma filter_two {A} (P : A → Prop) `{∀ x, Decision (P x)} l i j x y :
  (i < j)%nat → l !! i = Some x → l !! j = Some y → P x → P y →
  (2 ≤ length (filter P l))%nat.
Proof.
  intros Hij Hi Hj Hx Hy. rewrite <- (take_drop j l), filter_app, length_app.
  assert (x ∈ filter P (take j l)) as H1.
  { apply list_elem_of_filter. split; [done|]. apply (list_elem_of_lookup_2 _ i).
    by rewrite lookup_take_lt. }
  assert (y ∈ filter P (drop j l)) as H2.
  { apply list_elem_of_filter. split; [done|]. apply (list_elem_of_lookup_2 _ 0).
    by rewrite lookup_drop, Nat.add_0_r. }
  apply list_elem_of_split in H1 as (? & ? & ->), H2 as (? & ? & ->).
  rewrite !length_app. cbn. lia.
Qed.

(** ** Automation *)
Create Rewrite HintDb saksi.
Create Rewrite HintDb saksi_bool.
#[export] Hint Rewrite @rbind_ok @wrap_err_ok @guard_ok @nguard_ok @rmapM_ok : saksi.
#[export] Hint Rewrite @bytes_equal_true @bool_decide_eq_true @negb_true_iff
  @negb_false_iff @andb_true_iff @orb_false_iff @bool_decide_eq_false : saksi_bool.


(** Two successful outcomes of one computation are the same. *)
Ltac ok_inj :=
  repeat match goal with
  | H1 : ?x = Ok ?a, H2 : ?x = Ok ?b |- _ =>
      rewrite H1 in H2; injection H2; clear H2; intros; subst
  end.
