(* ===== verification/Fabric.v ===== *)
(** * The chaincode's view of Hyperledger Fabric

    A transaction handler is a computation in the monad [M]: it reads the
    committed world state, buffers its writes and may fail.  As Fabric
    documents, [GetState] never sees the transaction's own pending writes, the
    buffered writes are applied only when the handler returns without error,
    and the peer records every key read so that the committer can refuse a
    transaction whose reads are stale.

    The shim's own code is not in this repository: composite keys and the
    paginated range query are the class [FabricShim], with the documented
    behaviour the contract relies on in [FabricShimLaws].  Ledger failures of
    [GetState]/[PutState] are oracles in the [stub], so every error branch of
    the handlers exists in the model. *)
From S2P Require Import Prelude.

Abbreviation worldstate := (gmap string bytes).

Record stub := Stub {
  world : worldstate;
  get_fault : string → option goerr;
  put_fault : string → option goerr
}.

Record txlog := TxLog { reads : list string; writes : list (string * bytes) }.

Definition tx_start : txlog := TxLog [] [].

Definition M (A : Type) : Type := stub → txlog → result (A * txlog).

Definition mret {A} (a : A) : M A := λ _ t, Ok (a, t).

Definition mfail {A} (e : goerr) : M A := λ _ _, Err e.

Definition mbind {A B} (m : M A) (k : A → M B) : M B :=
  λ s t, match m s t with Ok (a, t') => k a s t' | Err e => Err e end.

(** A fallible computation that does not touch the ledger. *)
Definition mlift {A} (r : result A) : M A :=
  λ _ t, match r with Ok a => Ok (a, t) | Err e => Err e end.

(** [if err != nil { return f(err) }] around a call. *)
Definition mwrap {A} (f : goerr → goerr) (m : M A) : M A :=
  λ s t, match m s t with Ok r => Ok r | Err e => Err (f e) end.

Definition GetState (key : string) : M (option bytes) :=
  λ s t, match get_fault s key with
         | Some e => Err e
         | None => Ok (world s !! key, TxLog (key :: reads t) (writes t))
         end.

Definition PutState (key : string) (value : bytes) : M unit :=
  λ s t, match put_fault s key with
         | Some e => Err e
         | None => Ok (tt, TxLog (reads t) (writes t ++ [(key, value)]))
         end.

Notation "'let!' x ':=' m 'in' k" := (mbind m (fun x => k))
  (at level 10, x binder, m at level 100, k at level 200) : saksi_scope.
Notation "m ;; k" := (mbind m (fun _ => k))
  (at level 100, k at level 200, right associativity) : saksi_scope.

(** [fmt.Errorf(format, err)] for a format whose only verb is [%w]. *)
Definition errw (format : string) (e : goerr) : goerr := Errorf format [AErr e].

(** A Go loop over a slice whose body may return an error. *)
Fixpoint miter {A} (f : A → M unit) (l : list A) : M unit :=
  match l with [] => mret tt | x :: l => f x ;; miter f l end.

Fixpoint mmapM {A B} (f : A → M B) (l : list A) : M (list B) :=
  match l with
  | [] => mret []
  | x :: l => let! y := f x in let! ys := mmapM f l in mret (y :: ys)
  end.

Definition apply_writes (ws : list (string * bytes)) (w : worldstate) : worldstate :=
  foldl (λ w kv, <[kv.1 := kv.2]> w) w ws.

(** [SubmitTransaction] on a quiescent ledger: the writes of a handler that
    returned nil are committed, a failed handler leaves the state unchanged. *)
Definition submit {A} (m : M A) (s : stub) : worldstate * result A :=
  match m s tx_start with
  | Ok (a, t) => (apply_writes (writes t) (world s), Ok a)
  | Err e => (world s, Err e)
  end.

(** [EvaluateTransaction]: the result only. *)
Definition evaluate {A} (m : M A) (s : stub) : result A :=
  match m s tx_start with Ok (a, _) => Ok a | Err e => Err e end.

(** A stub over [w] on which no ledger access fails. *)
Definition healthy (w : worldstate) : stub := Stub w (λ _, None) (λ _, None).

(** The shim operations the contract calls. *)
Class FabricShim := {
  CreateCompositeKey : string → list string → result string;
  SplitCompositeKey : string → result (string * list string);
  (** [GetStateByPartialCompositeKeyWithPagination ty attrs pageSize bookmark]:
      what the iterator's [Next] yields, in order, and the response metadata's
      bookmark when metadata is present. *)
  QueryPage : worldstate → string → list string → Z → string →
    result (list (result string) * option string)
}.

(** The keys of [w] that extend the composite prefix [(ty, attrs)]. *)
Definition in_range `{FabricShim} (w : worldstate) (ty : string)
    (attrs : list string) (k : string) : Prop :=
  is_Some (w !! k) ∧ ∃ rest, SplitCompositeKey k = Ok (ty, attrs ++ rest).

Class FabricShimLaws `{FabricShim} := {
  create_inj : ∀ ty ty' attrs attrs' k,
    CreateCompositeKey ty attrs = Ok k → CreateCompositeKey ty' attrs' = Ok k →
    ty = ty' ∧ attrs = attrs';
  split_create : ∀ ty attrs k,
    CreateCompositeKey ty attrs = Ok k → SplitCompositeKey k = Ok (ty, attrs);
  create_nonempty : ∀ ty attrs k, CreateCompositeKey ty attrs = Ok k → k ≠ "";
  (** The documented paging contract: the range is one fixed key sequence, an
      empty bookmark starts at its head, a returned bookmark names the next
      key, and it is empty when nothing is left. *)
  query_page : ∀ w ty attrs, ∃ ks : list string,
    NoDup ks ∧ (∀ k, k ∈ ks ↔ in_range w ty attrs k) ∧
    ∀ (i n : nat) bookmark, (0 < n)%nat →
      (i = 0%nat ∧ bookmark = "" ∨ ks !! i = Some bookmark) →
      QueryPage w ty attrs (Z.of_nat n) bookmark =
        Ok (Ok <$> take n (drop i ks), Some (default "" (ks !! (i + n)%nat)))
}.

(** A computation whose outcome depends on the ledger only through the keys it
    recorded as read: a successful run is repeated, on a healthy stub, by every
    state that agrees on those keys. *)
Class Replayable {A} (m : M A) : Prop := {
  replay_reads : ∀ s t a t', m s t = Ok (a, t') → ∃ ks, reads t' = ks ++ reads t;
  replay_same : ∀ s t a t' w', m s t = Ok (a, t') →
    (∀ k, k ∈ reads t' → w' !! k = world s !! k) →
    m (healthy w') t = Ok (a, t')
}.

(** ** Inversion lemmas: what a successful run tells *)
Create Rewrite HintDb cc.

Lemma mret_ok {A} (a : A) s t r : mret a s t = Ok r ↔ r = (a, t).
Proof. unfold mret. naive_solver. Qed.

Lemma mfail_ok {A} e s t (r : A * txlog) : mfail e s t = Ok r ↔ False.
Proof. done. Qed.

Lemma mbind_ok {A B} (m : M A) (k : A → M B) s t r :
  mbind m k s t = Ok r ↔ ∃ a t', m s t = Ok (a, t') ∧ k a s t' = Ok r.
Proof. unfold mbind. destruct (m s t) as [[a t']|]; naive_solver. Qed.

Lemma mlift_ok {A} (x : result A) s t r :
  mlift x s t = Ok r ↔ ∃ a, x = Ok a ∧ r = (a, t).
Proof. unfold mlift. destruct x; naive_solver. Qed.

Lemma mwrap_ok {A} f (m : M A) s t r : mwrap f m s t = Ok r ↔ m s t = Ok r.
Proof. unfold mwrap. destruct (m s t) as [[]|]; naive_solver. Qed.

Lemma GetState_ok k s t r :
  GetState k s t = Ok r ↔
  get_fault s k = None ∧ r = (world s !! k, TxLog (k :: reads t) (writes t)).
Proof. unfold GetState. destruct (get_fault s k); naive_solver. Qed.

Lemma PutState_ok k v s t r :
  PutState k v s t = Ok r ↔
  put_fault s k = None ∧ r = (tt, TxLog (reads t) (writes t ++ [(k, v)])).
Proof. unfold PutState. destruct (put_fault s k); naive_solver. Qed.

Lemma mguard_ok {A} (b : bool) e (k : M A) s t r :
  (if b then mfail e else k) s t = Ok r ↔ b = false ∧ k s t = Ok r.
Proof. destruct b; unfold mfail; naive_solver. Qed.

#[export] Hint Rewrite @mret_ok @mfail_ok @mbind_ok @mlift_ok @mwrap_ok
  @GetState_ok @PutState_ok @mguard_ok : cc.

(** [run_inv H] decomposes a successful handler run [H : m s t = Ok r] one
    construct at a time, naming nothing and substituting what it can. *)
Ltac run_inv_step H :=
  lazymatch type of H with
  | mret _ _ _ = Ok _ => apply mret_ok in H
  | mfail _ _ _ = Ok _ => exfalso; exact (proj1 (mfail_ok _ _ _ _) H)
  | mbind _ _ _ _ = Ok _ =>
      let a := fresh "a" in let t := fresh "t" in let H1 := fresh "Hrun" in
      apply mbind_ok in H; destruct H as (a & t & H1 & H); run_inv H1
  | mlift _ _ _ = Ok _ =>
      let a := fresh "a" in let H1 := fresh "Hlift" in
      apply mlift_ok in H; destruct H as (a & H1 & H)
  | mwrap _ _ _ _ = Ok _ => apply mwrap_ok in H
  | GetState _ _ _ = Ok _ =>
      let H1 := fresh "Hnofault" in
      apply GetState_ok in H; destruct H as [H1 H]
  | PutState _ _ _ _ = Ok _ =>
      let H1 := fresh "Hnofault" in
      apply PutState_ok in H; destruct H as [H1 H]
  | (if ?b then mfail _ else _) _ _ = Ok _ =>
      let H1 := fresh "Hguard" in
      apply mguard_ok in H; destruct H as [H1 H]
  | (_, _) = (_, _) => injection H; clear H; intros; subst
  | ?x = (_, _) => subst x
  | (_, _) = ?x => subst x
  end
with run_inv H := repeat (run_inv_step H; cbn [reads writes] in * ).

(** ** Running a handler forwards *)
Lemma mbind_run {A B} (m : M A) (k : A → M B) s t a t' :
  m s t = Ok (a, t') → mbind m k s t = k a s t'.
Proof. unfold mbind. by intros ->. Qed.

Lemma mlift_run {A} (r : result A) s t a : r = Ok a → mlift r s t = Ok (a, t).
Proof. by intros ->. Qed.

(** ** Committed state *)
Lemma apply_writes_other ws w k :
  k ∉ ws.*1 → apply_writes ws w !! k = w !! k.
Proof.
  revert w. induction ws as [|[k' v] ws IH]; intros w Hk; [done|].
  cbn in Hk. change (apply_writes ws (<[k' := v]> w) !! k = w !! k).
  rewrite IH by set_solver. rewrite lookup_insert_ne by set_solver. done.
Qed.

Lemma apply_writes_app ws ws' w :
  apply_writes (ws ++ ws') w = apply_writes ws' (apply_writes ws w).
Proof. apply foldl_app. Qed.

Lemma submit_ok {A} (m : M A) s w' a :
  submit m s = (w', Ok a) ↔
  ∃ t, m s tx_start = Ok (a, t) ∧ w' = apply_writes (writes t) (world s).
Proof. unfold submit. destruct (m s tx_start) as [[]|]; naive_solver. Qed.

Lemma submit_err {A} (m : M A) s w' e :
  submit m s = (w', Err e) → w' = world s ∧ m s tx_start = Err e.
Proof. unfold submit. destruct (m s tx_start) as [[]|]; naive_solver. Qed.

(** ** Replayability is compositional *)
#[export] Instance replay_mret {A} (a : A) : Replayable (mret a).
Proof. split; unfold mret; intros; simplify_eq; [by exists [] | done]. Qed.

#[export] Instance replay_mfail {A} e : Replayable (@mfail A e).
Proof. split; intros * [=]. Qed.

#[export] Instance replay_mlift {A} (r : result A) : Replayable (mlift r).
Proof.
  split; unfold mlift; destruct r; intros; simplify_eq; [by exists [] | done].
Qed.

#[export] Instance replay_GetState k : Replayable (GetState k).
Proof.
  split; intros *; rewrite !GetState_ok; intros [Hf [= -> ->]].
  - by exists [k].
  - intros Hw. split; [done|]. f_equal. symmetry. apply Hw. cbn. set_solver.
Qed.

#[export] Instance replay_PutState k v : Replayable (PutState k v).
Proof.
  split; intros *; rewrite !PutState_ok; intros [Hf [= -> ->]].
  - by exists [].
  - done.
Qed.

#[export] Instance replay_mwrap {A} f (m : M A) :
  Replayable m → Replayable (mwrap f m).
Proof.
  intros [Hr Hs]. split; intros *; rewrite !mwrap_ok; [apply Hr | apply Hs].
Qed.

#[export] Instance replay_mbind {A B} (m : M A) (k : A → M B) :
  Replayable m → (∀ a, Replayable (k a)) → Replayable (mbind m k).
Proof.
  intros [Hr Hs] Hk. split.
  - intros s t b t' (a & t1 & H1 & H2)%mbind_ok.
    destruct (Hr _ _ _ _ H1) as [ks E1].
    destruct (replay_reads _ _ _ _ H2) as [ks' E2].
    exists (ks' ++ ks). by rewrite E2, E1, (assoc (++)).
  - intros s t b t' w' (a & t1 & H1 & H2)%mbind_ok Hw.
    destruct (replay_reads _ _ _ _ H2) as [ks' E2].
    apply mbind_ok. exists a, t1. split.
    + eapply Hs; [done|]. intros x Hx. apply Hw. rewrite E2. set_solver.
    + by eapply replay_same.
Qed.

#[export] Instance replay_if {A} (b : bool) (m1 m2 : M A) :
  Replayable m1 → Replayable m2 → Replayable (if b then m1 else m2).
Proof. by destruct b. Qed.

#[export] Instance replay_option {A B} (o : option A) (m1 : A → M B) (m2 : M B) :
  (∀ a, Replayable (m1 a)) → Replayable m2 →
  Replayable (match o with Some a => m1 a | None => m2 end).
Proof. destruct o; auto. Qed.

#[export] Instance replay_miter {A} (f : A → M unit) l :
  (∀ x, Replayable (f x)) → Replayable (miter f l).
Proof. intros Hf. induction l; simpl; apply _. Qed.

#[export] Instance replay_mmapM {A B} (f : A → M B) l :
  (∀ x, Replayable (f x)) → Replayable (mmapM f l).
Proof. intros Hf. induction l; simpl; apply _. Qed.
