(* ===== verification/Hex.v ===== *)
(** * encoding/hex, as the repository uses it

    [hex.EncodeToString] and [hex.DecodeString] of Go's standard library: every
    payload crosses the chaincode boundary in this form.  [DecodeString]
    accepts both letter cases and reports an invalid character before an odd
    length, as Go does. *)
From S2P Require Import Prelude.
From Stdlib Require Import Strings.Byte.

Definition hex_digit (n : Z) : byte :=
  default x30 (bytes_of_string "0123456789abcdef" !! Z.to_nat n).

(** Go's reverse table: the value of a hex digit, in either case. *)
Definition hex_value (c : byte) : option Z :=
  let v := Z_of_byte c in
  if (48 <=? v) && (v <=? 57) then Some (v - 48)
  else if (97 <=? v) && (v <=? 102) then Some (v - 87)
  else if (65 <=? v) && (v <=? 70) then Some (v - 55)
  else None.

Fixpoint hex_encode (b : bytes) : bytes :=
  match b with
  | [] => []
  | x :: b =>
      hex_digit (Z.shiftr (Z_of_byte x) 4) :: hex_digit (Z.land (Z_of_byte x) 15)
        :: hex_encode b
  end.

Definition InvalidByteError (c : byte) : goerr :=
  Errorf "encoding/hex: invalid byte: %#U" [AInt (Z_of_byte c)].

Definition ErrLength : goerr := Errorf "encoding/hex: odd length hex string" [].

Fixpoint hex_decode (src : bytes) : result bytes :=
  match src with
  | [] => Ok []
  | [p] => match hex_value p with
           | None => Err (InvalidByteError p)
           | Some _ => Err ErrLength
           end
  | p :: q :: src =>
      match hex_value p with
      | None => Err (InvalidByteError p)
      | Some a =>
          match hex_value q with
          | None => Err (InvalidByteError q)
          | Some b =>
              let? out := hex_decode src in
              Ok (byte_of_Z (Z.lor (Z.shiftl a 4) b) :: out)
          end
      end
  end.

Definition EncodeToString (b : bytes) : string := string_of_bytes (hex_encode b).

Definition DecodeString (s : string) : result bytes := hex_decode (bytes_of_string s).

(** A lower-case hex digit. *)
Definition is_hex_char (c : byte) : bool :=
  let v := Z_of_byte c in
  ((48 <=? v) && (v <=? 57)) || ((97 <=? v) && (v <=? 102)).

(** ** Lemmas *)
Lemma hex_pair_decode (x : byte) :
  hex_value (hex_digit (Z.shiftr (Z_of_byte x) 4)) = Some (Z.shiftr (Z_of_byte x) 4) ∧
  hex_value (hex_digit (Z.land (Z_of_byte x) 15)) = Some (Z.land (Z_of_byte x) 15) ∧
  byte_of_Z (Z.lor (Z.shiftl (Z.shiftr (Z_of_byte x) 4) 4) (Z.land (Z_of_byte x) 15)) = x.
Proof. destruct x; vm_compute; auto. Qed.

Lemma hex_decode_encode b : hex_decode (hex_encode b) = Ok b.
Proof.
  induction b as [|x b IH]; [done|]. cbn [hex_encode hex_decode].
  destruct (hex_pair_decode x) as (-> & -> & E). by rewrite IH, <-E at 1.
Qed.

Lemma DecodeString_EncodeToString b : DecodeString (EncodeToString b) = Ok b.
Proof.
  unfold DecodeString, EncodeToString.
  by rewrite bytes_of_string_of_bytes, hex_decode_encode.
Qed.

Lemma EncodeToString_inj b b' : EncodeToString b = EncodeToString b' → b = b'.
Proof.
  intros H. pose proof (DecodeString_EncodeToString b) as E.
  rewrite H, DecodeString_EncodeToString in E. by injection E.
Qed.

Lemma length_hex_encode b : length (hex_encode b) = (2 * length b)%nat.
Proof. induction b; simpl; lia. Qed.

Lemma hex_encode_chars b : Forall (λ c, is_hex_char c = true) (hex_encode b).
Proof.
  induction b as [|x b IH]; simpl; [constructor|].
  repeat constructor; [by destruct x | by destruct x | done].
Qed.

Lemma hex_encode_nil b : hex_encode b = [] ↔ b = [].
Proof. by destruct b. Qed.

Lemma hex_decode_even src b : hex_decode src = Ok b → length src = (2 * length b)%nat.
Proof.
  revert b. induction src as [src IH] using (induction_ltof1 _ length).
  destruct src as [|p [|q src]]; simpl; intros b H.
  - by simplify_eq.
  - by destruct (hex_value p).
  - destruct (hex_value p); [|done]. destruct (hex_value q); [|done].
    apply rbind_ok in H as (out & H & [= <-]).
    apply IH in H; [simpl; lia | unfold ltof; simpl; lia].
Qed.
