(* ===== verification/Wire.v ===== *)
(** * Wire messages (saksi.protocol.v1)

    The Go structs protoc generates for [wire.proto], one module per message
    with the fields the code reads, and the [google.golang.org/protobuf]
    decoder as the class [Proto]: the theorems hold for every decoder, so no
    property depends on how a message is laid out in bytes.  A field of message
    type is an [option] (a nil pointer); the generated getters return the zero
    value on a nil receiver, which the accessors below reproduce. *)
From S2P Require Import Prelude.

Definition WireVersion : Z := 1.

Module Ciphertext.
Record t := Make { Version : Z; Pad : bytes; Data : bytes }.
End Ciphertext.

Module ChaumPedersenProof.
Record t := Make {
  Version : Z; CommitmentA : bytes; CommitmentB : bytes;
  Challenge : bytes; Response : bytes
}.
End ChaumPedersenProof.

Module CDSProofBranch.
Record t := Make {
  CommitmentA : bytes; CommitmentB : bytes; Challenge : bytes; Response : bytes
}.
End CDSProofBranch.

Module CDSProof.
Record t := Make { Version : Z; Branches : list CDSProofBranch.t }.
End CDSProof.

Module Nullifier.
Record t := Make { Version : Z; Value : bytes }.
End Nullifier.

Module CredentialPresentation.
Record t := Make {
  Version : Z; CredentialCommitment : bytes; IssuerPublicKey : bytes;
  PresentationProof : bytes; Nullifier : option Nullifier.t
}.
End CredentialPresentation.

Module Ballot.
Record t := Make {
  Version : Z; ElectionId : string; VoterCredentialCommitment : bytes;
  Ciphertexts : list Ciphertext.t; WellFormednessProofs : list CDSProof.t;
  CredentialPresentation : option CredentialPresentation.t;
  PositionId : string; SelectionProof : option ChaumPedersenProof.t
}.
End Ballot.

Module TrusteeCommitment.
Record t := Make { TrusteeId : string; CoefficientCommitments : list bytes }.
End TrusteeCommitment.

Module DKGComplaint.
Record t := Make { ComplainantId : string; AccusedId : string; Reason : string }.
End DKGComplaint.

Module DKGTranscript.
Record t := Make {
  Version : Z; ElectionId : string; Threshold : Z;
  TrusteeCommitments : list TrusteeCommitment.t; Complaints : list DKGComplaint.t
}.
End DKGTranscript.

Module PartialDecryption.
Record t := Make {
  Version : Z; TrusteeId : string; Share : bytes;
  Proof : option ChaumPedersenProof.t; ContestId : string
}.
End PartialDecryption.

Module TrusteeSignature.
Record t := Make { TrusteeId : string; Signature : bytes }.
End TrusteeSignature.

Module TallyResult.
Record t := Make {
  Version : Z; ElectionId : string; Totals : list Z;
  PartialDecryptions : list PartialDecryption.t;
  Signatures : list TrusteeSignature.t
}.
End TallyResult.

Module ElectionParameters.
Record t := Make {
  Version : Z; ElectionId : string; ContestIds : list string;
  TrusteeIds : list string; Threshold : Z; IssuerPublicKey : bytes
}.
End ElectionParameters.

(** Messages compare field by field. *)
#[global] Instance ciphertext_eq_dec : EqDecision Ciphertext.t.
Proof. solve_decision. Defined.

#[global] Instance cp_proof_eq_dec : EqDecision ChaumPedersenProof.t.
Proof. solve_decision. Defined.

#[global] Instance cds_branch_eq_dec : EqDecision CDSProofBranch.t.
Proof. solve_decision. Defined.

#[global] Instance cds_proof_eq_dec : EqDecision CDSProof.t.
Proof. solve_decision. Defined.

#[global] Instance nullifier_eq_dec : EqDecision Nullifier.t.
Proof. solve_decision. Defined.

#[global] Instance presentation_eq_dec : EqDecision CredentialPresentation.t.
Proof. solve_decision. Defined.

#[global] Instance ballot_eq_dec : EqDecision Ballot.t.
Proof. solve_decision. Defined.

#[global] Instance partial_eq_dec : EqDecision PartialDecryption.t.
Proof. solve_decision. Defined.

#[global] Instance signature_eq_dec : EqDecision TrusteeSignature.t.
Proof. solve_decision. Defined.

#[global] Instance tally_eq_dec : EqDecision TallyResult.t.
Proof. solve_decision. Defined.

(** [proto.Unmarshal] and [proto.Marshal] at the message types the code uses. *)
Class Proto := {
  UnmarshalBallot : bytes → result Ballot.t;
  UnmarshalElectionParameters : bytes → result ElectionParameters.t;
  UnmarshalDKGTranscript : bytes → result DKGTranscript.t;
  UnmarshalPartialDecryption : bytes → result PartialDecryption.t;
  UnmarshalTallyResult : bytes → result TallyResult.t;
  MarshalTallyResult : TallyResult.t → result bytes
}.

(** Nil-safe getters. *)
Definition NullifierValue (p : option CredentialPresentation.t) : bytes :=
  match p with
  | Some p => match CredentialPresentation.Nullifier p with
              | Some n => Nullifier.Value n
              | None => []
              end
  | None => []
  end.

Definition ParamsIssuerPublicKey (p : option ElectionParameters.t) : bytes :=
  match p with Some p => ElectionParameters.IssuerPublicKey p | None => [] end.
