(* ===== verification/Ristretto.v ===== *)
(** * The group and transcript libraries: gtank/ristretto255 and gtank/merlin

    Neither library is part of this repository, so both are parameters: the
    operations the verifiers call are the classes [Ristretto] and [Merlin], and
    [RistrettoLaws] states the documented behaviour the proofs rely on (a
    prime-order group with canonical 32-byte encodings whose scalars form a
    field).  [ScalarMult] etc. are pure here: the Go receivers they overwrite
    are always freshly allocated by the callers. *)
From S2P Require Import Prelude.
From Stdlib Require Import Field.

Class Ristretto := {
  Element : Type;
  Scalar : Type;
  NewIdentityElement : Element;
  NewGeneratorElement : Element;
  ElementAdd : Element → Element → Element;
  ElementSubtract : Element → Element → Element;
  ScalarMult : Scalar → Element → Element;
  ScalarBaseMult : Scalar → Element;
  ElementEqual : Element → Element → bool;
  ElementBytes : Element → bytes;
  ElementSetCanonicalBytes : bytes → result Element;
  NewScalar : Scalar;
  ScalarAdd : Scalar → Scalar → Scalar;
  ScalarEqual : Scalar → Scalar → bool;
  ScalarBytes : Scalar → bytes;
  ScalarSetCanonicalBytes : bytes → result Scalar;
  ScalarSetUniformBytes : bytes → result Scalar
}.

(** A Merlin transcript is its label and the messages appended so far;
    extracting challenge bytes is a deterministic function of both. *)
Class Merlin := {
  ExtractBytes : string → list (string * bytes) → string → nat → bytes
}.

Class MerlinLaws `{Merlin} := {
  length_ExtractBytes : ∀ label msgs ch n, length (ExtractBytes label msgs ch n) = n
}.

(** Specification-level scalar operations and the laws. *)
Class RistrettoLaws `{Ristretto} := {
  sone : Scalar;
  smul : Scalar → Scalar → Scalar;
  ssub : Scalar → Scalar → Scalar;
  sopp : Scalar → Scalar;
  sdiv : Scalar → Scalar → Scalar;
  sinv : Scalar → Scalar;
  scalar_field : field_theory NewScalar sone ScalarAdd smul ssub sopp sdiv sinv eq;
  order : Z;
  scalar_of_Z : Z → Scalar;
  scalar_of_Z_add : ∀ a b, scalar_of_Z (a + b) = ScalarAdd (scalar_of_Z a) (scalar_of_Z b);
  scalar_of_Z_1 : scalar_of_Z 1 = sone;
  scalar_of_Z_inj : ∀ a b, 0 ≤ a < order → 0 ≤ b < order →
    scalar_of_Z a = scalar_of_Z b → a = b;
  order_gt_1 : 1 < order;
  eadd_comm : ∀ P Q, ElementAdd P Q = ElementAdd Q P;
  eadd_assoc : ∀ P Q R, ElementAdd P (ElementAdd Q R) = ElementAdd (ElementAdd P Q) R;
  eadd_id : ∀ P, ElementAdd P NewIdentityElement = P;
  esub_add : ∀ P Q, ElementAdd (ElementSubtract P Q) Q = P;
  smult_add_l : ∀ a b P,
    ScalarMult (ScalarAdd a b) P = ElementAdd (ScalarMult a P) (ScalarMult b P);
  smult_add_r : ∀ a P Q,
    ScalarMult a (ElementAdd P Q) = ElementAdd (ScalarMult a P) (ScalarMult a Q);
  smult_mul : ∀ a b P, ScalarMult a (ScalarMult b P) = ScalarMult (smul a b) P;
  smult_1 : ∀ P, ScalarMult sone P = P;
  base_mult : ∀ a, ScalarBaseMult a = ScalarMult a NewGeneratorElement;
  generator_free : ∀ a, ScalarMult a NewGeneratorElement = NewIdentityElement → a = NewScalar;
  ElementEqual_spec : ∀ P Q, ElementEqual P Q = true ↔ P = Q;
  ScalarEqual_spec : ∀ a b, ScalarEqual a b = true ↔ a = b;
  element_decode_encode : ∀ P, ElementSetCanonicalBytes (ElementBytes P) = Ok P;
  element_canonical : ∀ b P, ElementSetCanonicalBytes b = Ok P → b = ElementBytes P;
  element_length : ∀ P, length (ElementBytes P) = 32%nat;
  scalar_decode_encode : ∀ a, ScalarSetCanonicalBytes (ScalarBytes a) = Ok a;
  scalar_canonical : ∀ b a, ScalarSetCanonicalBytes b = Ok a → b = ScalarBytes a;
  scalar_length : ∀ a, length (ScalarBytes a) = 32%nat;
  scalar_little_endian : ∀ v, 0 ≤ v < order → ScalarBytes (scalar_of_Z v) = le_bytes 32 v;
  uniform_64 : ∀ b, length b = 64%nat → ∃ a, ScalarSetUniformBytes b = Ok a
}.

Declare Scope group_scope.
Delimit Scope group_scope with G.
Infix "⊕" := ElementAdd (at level 50, left associativity) : group_scope.
Infix "⊖" := ElementSubtract (at level 50, left associativity) : group_scope.
Infix "⊙" := ScalarMult (at level 40, left associativity) : group_scope.
#[global] Open Scope group_scope.

(** Sums of a list of points and of scalars, accumulated from the left as the
    verifiers' loops do. *)
Definition element_sum `{Ristretto} (l : list Element) : Element :=
  foldl ElementAdd NewIdentityElement l.

Definition scalar_sum `{Ristretto} (l : list Scalar) : Scalar :=
  foldl ScalarAdd NewScalar l.

#[global] Arguments element_sum : simpl never.
#[global] Arguments scalar_sum : simpl never.

(** [decodePoint] / [decodeScalar] of cdsverify and selectionverify. *)
Definition decodePoint `{Ristretto} (b : bytes) (what : string) : result Element :=
  wrap_err (λ e, Errorf "%s is not a valid canonical ristretto255 point: %w" [AStr what; AErr e])
    (ElementSetCanonicalBytes b).

Definition decodeScalar `{Ristretto} (b : bytes) (what : string) : result Scalar :=
  wrap_err (λ e, Errorf "%s is not a canonical scalar: %w" [AStr what; AErr e])
    (ScalarSetCanonicalBytes b).

Lemma decodePoint_ok `{Ristretto} b what P :
  decodePoint b what = Ok P ↔ ElementSetCanonicalBytes b = Ok P.
Proof. apply wrap_err_ok. Qed.

Lemma decodeScalar_ok `{Ristretto} b what a :
  decodeScalar b what = Ok a ↔ ScalarSetCanonicalBytes b = Ok a.
Proof. apply wrap_err_ok. Qed.

#[export] Hint Rewrite @decodePoint_ok @decodeScalar_ok : saksi.

(** ** Derived group laws *)
Section group.
Context `{RistrettoLaws}.

Add Field scalar_fld : scalar_field.

#[global] Instance scalar_eq_dec : EqDecision Scalar.
Proof.
  intros a b. destruct (ScalarEqual a b) eqn:E.
  - left. by apply ScalarEqual_spec.
  - right. intros Hab%ScalarEqual_spec. congruence.
Defined.

#[global] Instance element_eq_dec : EqDecision Element.
Proof.
  intros P Q. destruct (ElementEqual P Q) eqn:E.
  - left. by apply ElementEqual_spec.
  - right. intros HPQ%ElementEqual_spec. congruence.
Defined.

Lemma eadd_id_l P : NewIdentityElement ⊕ P = P.
Proof. rewrite eadd_comm. apply eadd_id. Qed.

Lemma eadd_cancel_r P Q R : P ⊕ R = Q ⊕ R → P = Q.
Proof.
  intros E.
  assert (∀ X, (X ⊕ R) ⊕ (NewIdentityElement ⊖ R) = X) as Hinv.
  { intros X. by rewrite <- eadd_assoc, (eadd_comm R), esub_add, eadd_id. }
  by rewrite <- (Hinv P), E, Hinv.
Qed.

Lemma eadd_sub P Q : (P ⊕ Q) ⊖ Q = P.
Proof. apply (eadd_cancel_r _ _ Q). by rewrite esub_add. Qed.

Lemma esub_diag P : P ⊖ P = NewIdentityElement.
Proof. apply (eadd_cancel_r _ _ P). by rewrite esub_add, eadd_id_l. Qed.

Lemma esub_eq P Q R : P ⊖ Q = R ↔ P = R ⊕ Q.
Proof.
  split; [intros <-; by rewrite esub_add | intros ->; apply eadd_sub].
Qed.

Lemma smult_0 P : NewScalar ⊙ P = NewIdentityElement.
Proof.
  apply (eadd_cancel_r _ _ (NewScalar ⊙ P)).
  rewrite <- smult_add_l, eadd_id_l. f_equal. ring.
Qed.

Lemma smult_id a : a ⊙ NewIdentityElement = NewIdentityElement.
Proof.
  apply (eadd_cancel_r _ _ (a ⊙ NewIdentityElement)).
  by rewrite <- smult_add_r, !eadd_id_l.
Qed.

Lemma smult_sub_l a b P : ssub a b ⊙ P = a ⊙ P ⊖ b ⊙ P.
Proof.
  symmetry. apply esub_eq. rewrite <- smult_add_l. f_equal. ring.
Qed.

Lemma smult_sub_r a P Q : a ⊙ (P ⊖ Q) = a ⊙ P ⊖ a ⊙ Q.
Proof. symmetry. apply esub_eq. by rewrite <- smult_add_r, esub_add. Qed.

Lemma generator_inj a b :
  a ⊙ NewGeneratorElement = b ⊙ NewGeneratorElement → a = b.
Proof.
  intros E. assert (ssub a b = NewScalar) as E2.
  { apply generator_free. by rewrite smult_sub_l, E, esub_diag. }
  transitivity (ScalarAdd (ssub a b) b); [ring | rewrite E2; ring].
Qed.

Lemma eadd_swap P Q R S : (P ⊕ Q) ⊕ (R ⊕ S) = (P ⊕ R) ⊕ (Q ⊕ S).
Proof. by rewrite !eadd_assoc, <- (eadd_assoc P Q R), (eadd_comm Q R), eadd_assoc. Qed.

(** Two accepting conversations over one commitment determine the witness. *)
Lemma extract_witness base stmt com c c' s s' :
  s ⊙ base = c ⊙ stmt ⊕ com → s' ⊙ base = c' ⊙ stmt ⊕ com → c ≠ c' →
  stmt = smul (sinv (ssub c c')) (ssub s s') ⊙ base.
Proof.
  intros E1 E2 Hne.
  assert (ssub s s' ⊙ base = ssub c c' ⊙ stmt) as E.
  { rewrite !smult_sub_l, E1, E2. apply esub_eq.
    by rewrite eadd_assoc, esub_add. }
  rewrite <- smult_mul, E, smult_mul.
  assert (ssub c c' ≠ NewScalar) as Hc.
  { intros E0. apply Hne. transitivity (ScalarAdd (ssub c c') c'); [ring|].
    rewrite E0. ring. }
  replace (smul (sinv (ssub c c')) (ssub c c')) with sone by (field; exact Hc).
  by rewrite smult_1.
Qed.

(** A Schnorr/Chaum-Pedersen response answers any challenge. *)
Lemma response_verifies base k c x :
  ScalarAdd k (smul c x) ⊙ base = c ⊙ (x ⊙ base) ⊕ k ⊙ base.
Proof. rewrite smult_mul, eadd_comm. apply smult_add_l. Qed.

(** A simulated conversation verifies by construction. *)
Lemma simulated_verifies base stmt c s :
  s ⊙ base = c ⊙ stmt ⊕ (s ⊙ base ⊖ c ⊙ stmt).
Proof. by rewrite eadd_comm, esub_add. Qed.

(** Sums *)
Lemma element_sum_nil : element_sum [] = NewIdentityElement.
Proof. done. Qed.

Lemma scalar_sum_nil : scalar_sum [] = NewScalar.
Proof. done. Qed.

Lemma element_sum_acc P l : foldl ElementAdd P l = P ⊕ element_sum l.
Proof.
  unfold element_sum. revert P. induction l as [|Q l IH]; intros P; cbn.
  - by rewrite eadd_id.
  - by rewrite IH, (IH (_ ⊕ Q)), eadd_id_l, eadd_assoc.
Qed.

Lemma element_sum_cons P l : element_sum (P :: l) = P ⊕ element_sum l.
Proof. unfold element_sum at 1. cbn. by rewrite element_sum_acc, eadd_id_l. Qed.

Lemma scalar_sum_acc a l : foldl ScalarAdd a l = ScalarAdd a (scalar_sum l).
Proof.
  unfold scalar_sum. revert a. induction l as [|b l IH]; intros a; cbn.
  - ring.
  - rewrite IH, (IH (ScalarAdd _ b)). ring.
Qed.

Lemma scalar_sum_cons a l : scalar_sum (a :: l) = ScalarAdd a (scalar_sum l).
Proof. unfold scalar_sum at 1. cbn. rewrite scalar_sum_acc. ring. Qed.

Lemma element_sum_smult l P : element_sum ((λ a, a ⊙ P) <$> l) = scalar_sum l ⊙ P.
Proof.
  induction l as [|a l IH]; [by rewrite scalar_sum_nil, smult_0|].
  by rewrite fmap_cons, element_sum_cons, scalar_sum_cons, smult_add_l, IH.
Qed.

Lemma scalar_of_Z_0 : scalar_of_Z 0 = NewScalar.
Proof.
  pose proof (scalar_of_Z_add 0 0) as E. change (0 + 0) with 0 in E.
  transitivity (ssub (ScalarAdd (scalar_of_Z 0) (scalar_of_Z 0)) (scalar_of_Z 0));
    [ring | rewrite <- E; ring].
Qed.

Lemma sone_neq_zero : sone ≠ NewScalar.
Proof.
  rewrite <- scalar_of_Z_1, <- scalar_of_Z_0. intros E.
  pose proof order_gt_1. apply scalar_of_Z_inj in E; lia.
Qed.

Lemma element_bytes_inj P Q : ElementBytes P = ElementBytes Q → P = Q.
Proof.
  intros E. pose proof (element_decode_encode P) as HP.
  rewrite E, element_decode_encode in HP. by injection HP.
Qed.

#[global] Instance ElementBytes_inj : Inj (=) (=) ElementBytes.
Proof. intros P Q. apply element_bytes_inj. Qed.

#[global] Instance ScalarBytes_inj : Inj (=) (=) ScalarBytes.
Proof.
  intros a b E. pose proof (scalar_decode_encode a) as Ha.
  rewrite E, scalar_decode_encode in Ha. by injection Ha.
Qed.

Lemma uniform_extract `{MerlinLaws} label msgs ch :
  ∃ a, ScalarSetUniformBytes (ExtractBytes label msgs ch 64) = Ok a.
Proof. apply uniform_64, length_ExtractBytes. Qed.
End group.
