(* ===== verification/ToyGroup.v ===== *)
(** * A concrete model of the library interfaces

    The field with seven elements acting on itself, with 32-byte little-endian
    encodings, and two transcript hashes.  It exists to show that
    [RistrettoLaws] and [MerlinLaws] are satisfiable and to evaluate the
    verifiers on concrete inputs in the witnesses; nothing about it is claimed
    of ristretto255 beyond the laws. *)
From S2P Require Import Prelude Ristretto.
From Stdlib Require Import Field.

Inductive F7 := f0 | f1 | f2 | f3 | f4 | f5 | f6.

#[global] Instance F7_eq_dec : EqDecision F7.
Proof. solve_decision. Defined.

Definition F7_to_Z (a : F7) : Z :=
  match a with f0 => 0 | f1 => 1 | f2 => 2 | f3 => 3 | f4 => 4 | f5 => 5 | f6 => 6 end.

Definition F7_of_Z (z : Z) : F7 :=
  match z `mod` 7 with
  | 0 => f0 | 1 => f1 | 2 => f2 | 3 => f3 | 4 => f4 | 5 => f5 | _ => f6
  end.

Definition F7_add a b := F7_of_Z (F7_to_Z a + F7_to_Z b).

Definition F7_mul a b := F7_of_Z (F7_to_Z a * F7_to_Z b).

Definition F7_opp a := F7_of_Z (- F7_to_Z a).

Definition F7_sub a b := F7_of_Z (F7_to_Z a - F7_to_Z b).

Definition F7_inv (a : F7) : F7 :=
  match a with f0 => f0 | f1 => f1 | f2 => f4 | f3 => f5 | f4 => f2 | f5 => f3 | f6 => f6 end.

Definition F7_div a b := F7_mul a (F7_inv b).

Definition F7_bytes (a : F7) : bytes := le_bytes 32 (F7_to_Z a).

Definition F7_decode (b : bytes) : result F7 :=
  match find (λ a, bytes_equal (F7_bytes a) b) [f0; f1; f2; f3; f4; f5; f6] with
  | Some a => Ok a
  | None => Err (Foreign "not canonical")
  end.

Definition F7_uniform (b : bytes) : result F7 :=
  if (length b =? 64)%nat then Ok (F7_of_Z (le_value b))
  else Err (Foreign "uniform bytes must be 64 bytes").

#[global] Instance toy_group : Ristretto := {|
  Element := F7; Scalar := F7;
  NewIdentityElement := f0; NewGeneratorElement := f1;
  ElementAdd := F7_add; ElementSubtract := F7_sub;
  ScalarMult := F7_mul; ScalarBaseMult a := F7_mul a f1;
  ElementEqual a b := bool_decide (a = b);
  ElementBytes := F7_bytes; ElementSetCanonicalBytes := F7_decode;
  NewScalar := f0; ScalarAdd := F7_add;
  ScalarEqual a b := bool_decide (a = b);
  ScalarBytes := F7_bytes; ScalarSetCanonicalBytes := F7_decode;
  ScalarSetUniformBytes := F7_uniform
|}.

(** A transcript hash: the sum of all message bytes plus [salt]. *)
Definition toy_digest (salt : Z) (msgs : list (string * bytes)) (n : nat) : bytes :=
  le_bytes n (salt + foldr (λ m acc, foldr (λ b s, Z_of_byte b + s) acc m.2) 0 msgs).

Definition toy_merlin (salt : Z) : Merlin :=
  {| ExtractBytes _ msgs _ n := toy_digest salt msgs n |}.

Lemma F7_field : field_theory f0 f1 F7_add F7_mul F7_sub F7_opp F7_div F7_inv eq.
Proof.
  split; [split|..]; try done; intros.
  all: try (by destruct x). all: try (by destruct x, y). all: try (by destruct x, y, z).
  by destruct p.
Qed.

Lemma F7_of_Z_mod z : F7_to_Z (F7_of_Z z) = z `mod` 7.
Proof.
  unfold F7_of_Z. assert (0 ≤ z `mod` 7 < 7) by (apply Z.mod_pos_bound; lia).
  destruct (z `mod` 7) as [|p|p]; [done| |lia].
  do 3 (destruct p as [p|p|]; try lia; try done).
Qed.

Lemma F7_to_Z_inj a b : F7_to_Z a = F7_to_Z b → a = b.
Proof. by destruct a, b. Qed.

Lemma F7_decode_bytes a : F7_decode (F7_bytes a) = Ok a.
Proof. by destruct a; vm_compute. Qed.

Lemma F7_decode_canonical b a : F7_decode b = Ok a → b = F7_bytes a.
Proof.
  unfold F7_decode. destruct (find _ _) as [x|] eqn:E; intros [= <-].
  apply find_some in E as [_ E]. by apply bytes_equal_true in E.
Qed.

#[global] Program Instance toy_laws : RistrettoLaws := {|
  sone := f1; smul := F7_mul; ssub := F7_sub; sopp := F7_opp; sdiv := F7_div;
  sinv := F7_inv; scalar_field := F7_field; order := 7; scalar_of_Z := F7_of_Z;
  element_decode_encode := F7_decode_bytes; element_canonical := F7_decode_canonical;
  scalar_decode_encode := F7_decode_bytes; scalar_canonical := F7_decode_canonical
|}.
Next Obligation.
  intros a b. cbn. apply F7_to_Z_inj. unfold F7_add. rewrite !F7_of_Z_mod.
  by rewrite <- Zplus_mod.
Qed.
Next Obligation. done. Qed.
Next Obligation.
  intros a b Ha Hb E. apply (f_equal F7_to_Z) in E. rewrite !F7_of_Z_mod in E.
  rewrite !Z.mod_small in E; lia.
Qed.
Next Obligation. lia. Qed.
Next Obligation. intros P Q. by destruct P, Q. Qed.
Next Obligation. intros P Q R. by destruct P, Q, R. Qed.
Next Obligation. intros P. by destruct P. Qed.
Next Obligation. intros P Q. by destruct P, Q. Qed.
Next Obligation. intros a b P. by destruct a, b, P. Qed.
Next Obligation. intros a P Q. by destruct a, P, Q. Qed.
Next Obligation. intros a b P. by destruct a, b, P. Qed.
Next Obligation. intros P. by destruct P. Qed.
Next Obligation. done. Qed.
Next Obligation. intros a. by destruct a. Qed.
Next Obligation. intros. apply bool_decide_eq_true. Qed.
Next Obligation. intros. apply bool_decide_eq_true. Qed.
Next Obligation. intros. apply length_le_bytes. Qed.
Next Obligation. intros. apply length_le_bytes. Qed.
Next Obligation.
  intros v Hv. cbn. unfold F7_bytes. by rewrite F7_of_Z_mod, Z.mod_small.
Qed.
Next Obligation.
  intros b Hb. eexists. cbn. unfold F7_uniform. by rewrite Hb.
Qed.

#[global] Program Instance toy_merlin_laws salt : @MerlinLaws (toy_merlin salt).
Next Obligation. intros. apply length_le_bytes. Qed.
