(* ===== verification/CdsVerify.v ===== *)
(** * cdsverify: the on-chain ballot well-formedness proof

    Package [chaincode/cdsverify]: the Fiat-Shamir context binding, the CDS
    OR-proof verifier for the choice set {0, 1}, and the honest prover of
    [saksi-crypto/src/nizk/cds.rs] it mirrors.  The theorems: the binding is
    injective, an honest proof verifies, and a prover that answers two
    different challenges over the same commitments knows an opening of the
    ciphertext to 0 or 1. *)
From S2P Require Import Prelude Ristretto ToyGroup.
From Stdlib Require Import Field.

Module CdsVerify.

Definition transcriptLabel : string := "saksi.nizk.cds.v1".

(** Wire form of one branch. *)
Record Branch := MkBranch {
  CommitmentA : bytes; CommitmentB : bytes; Challenge : bytes; Response : bytes
}.

Definition putU64BE (v : Z) : bytes :=
  (λ k, byte_of_Z (Z.shiftr v k)) <$> [56; 48; 40; 32; 24; 16; 8; 0].

(** Length-prefixed [election_id || contest_id || nullifier]. *)
Definition BindingContext (electionID contestID : string) (nullifier : bytes) : bytes :=
  mjoin ((λ p, putU64BE (blen p) ++ p) <$>
    [bytes_of_string electionID; bytes_of_string contestID; nullifier]).

Definition scalarOneBytes : bytes := byte_of_Z 1 :: replicate 31 (byte_of_Z 0).

Section verify.
Context `{Ristretto, Merlin}.

Record decodedBranch := DecodedBranch {
  commitmentG : Element; commitmentH : Element; challenge : Scalar; response : Scalar
}.

Definition decodeBranch (b : Branch) : result decodedBranch :=
  let? cg := decodePoint (CommitmentA b) "branch commitment_g" in
  let? ch := decodePoint (CommitmentB b) "branch commitment_h" in
  let? c := decodeScalar (Challenge b) "branch challenge" in
  let? s := decodeScalar (Response b) "branch response" in
  Ok (DecodedBranch cg ch c s).

(** The transcript messages in the order they are appended. *)
Definition cds_messages (pk bigR bigS : Element) (choiceSet : list Scalar)
    (ctx : bytes) (branches : list decodedBranch) : list (string * bytes) :=
  [("public_key", ElementBytes pk); ("ciphertext_pad", ElementBytes bigR);
   ("ciphertext_data", ElementBytes bigS);
   ("choice_set_len", putU64BE (Z.of_nat (length choiceSet)))] ++
  ((λ c, ("choice", ScalarBytes c)) <$> choiceSet) ++
  [("context", ctx)] ++
  mjoin ((λ b, [("branch_commitment_g", ElementBytes (commitmentG b));
                ("branch_commitment_h", ElementBytes (commitmentH b))]) <$> branches).

(** The code panics when the reduction fails; the panic is an error value here
    and [challenge_never_panics] shows it does not occur. *)
Definition fiatShamirTotalChallenge (pk bigR bigS : Element) (choiceSet : list Scalar)
    (ctx : bytes) (branches : list decodedBranch) : result Scalar :=
  wrap_err (λ e, Errorf "panic: challenge reduction: %v" [AErr e])
    (ScalarSetUniformBytes
      (ExtractBytes transcriptLabel
        (cds_messages pk bigR bigS choiceSet ctx branches) "total_challenge" 64)).

(** The two verification equations of branch [br] for the choice [m]. *)
Definition branch_equations (pk bigR bigS g : Element) (br : decodedBranch)
    (m : Scalar) : bool :=
  let miG := ScalarBaseMult m in
  let yi := bigS ⊖ miG in
  let lhsG := response br ⊙ g in
  let rhsG := (challenge br ⊙ bigR) ⊕ commitmentG br in
  let lhsH := response br ⊙ pk in
  let rhsH := (challenge br ⊙ yi) ⊕ commitmentH br in
  ElementEqual lhsG rhsG && ElementEqual lhsH rhsH.

Fixpoint check_branches (i : Z) (pk bigR bigS g : Element)
    (decoded : list decodedBranch) (choices : list Scalar) : result unit :=
  match decoded, choices with
  | br :: decoded, m :: choices =>
      guard? branch_equations pk bigR bigS g br m
        else Errorf "CDS branch %d verification equation failed" [AInt i];
      check_branches (i + 1) pk bigR bigS g decoded choices
  | _, _ => Ok tt
  end.

Definition VerifyBinaryCDS (electionID contestID : string)
    (nullifier electionPK pad data : bytes) (branches : list Branch) : result unit :=
  guard? Z.of_nat (length branches) =? 2
    else Errorf "binary CDS proof must have exactly 2 branches, got %d"
           [AInt (Z.of_nat (length branches))];
  let? pk := decodePoint electionPK "election public key" in
  let? bigR := decodePoint pad "ciphertext pad" in
  let? bigS := decodePoint data "ciphertext data" in
  let? decoded := rmapM decodeBranch branches in
  let zeroScalar := NewScalar in
  let? oneScalar := wrap_err (λ e, Errorf "internal: scalar one is not canonical: %w" [AErr e])
                      (ScalarSetCanonicalBytes scalarOneBytes) in
  let choiceScalars := [zeroScalar; oneScalar] in
  let ctx := BindingContext electionID contestID nullifier in
  let? recomputed := fiatShamirTotalChallenge pk bigR bigS choiceScalars ctx decoded in
  let cSum := foldl (λ acc b, ScalarAdd acc (challenge b)) NewScalar decoded in
  guard? ScalarEqual cSum recomputed
    else Errorf "CDS challenge sum does not match Fiat-Shamir total" [];
  let g := ScalarBaseMult oneScalar in
  check_branches 0 pk bigR bigS g decoded choiceScalars.

(** The honest prover ([CDSProof::prove] in cds.rs) for the binary choice set:
    [bit] is the true index, [nonce] the honest branch's blinding, [(c', s')]
    the sampled simulated challenge and response. *)
Definition simulated_branch (pk bigR bigS : Element) (m c' s' : Scalar) : decodedBranch :=
  let yi := bigS ⊖ (m ⊙ NewGeneratorElement) in
  DecodedBranch (s' ⊙ NewGeneratorElement ⊖ c' ⊙ bigR) (s' ⊙ pk ⊖ c' ⊙ yi) c' s'.

Definition honest_branch (pk : Element) (nonce c s : Scalar) : decodedBranch :=
  DecodedBranch (nonce ⊙ NewGeneratorElement) (nonce ⊙ pk) c s.

Context `{RL : !RistrettoLaws}.

Definition choice (bit : bool) : Scalar := if bit then sone else NewScalar.

Definition order_branches (bit : bool) (honest simulated : decodedBranch) :
    list decodedBranch :=
  if bit then [simulated; honest] else [honest; simulated].

Definition prove (pk bigR bigS : Element) (bit : bool) (randomness nonce c' s' : Scalar)
    (ctx : bytes) : result (list decodedBranch) :=
  let sim := simulated_branch pk bigR bigS (choice (negb bit)) c' s' in
  let placeholder := honest_branch pk nonce NewScalar NewScalar in
  let? total := fiatShamirTotalChallenge pk bigR bigS [NewScalar; sone] ctx
                  (order_branches bit placeholder sim) in
  let c_j := ssub total c' in
  let s_j := ScalarAdd nonce (smul c_j randomness) in
  Ok (order_branches bit (honest_branch pk nonce c_j s_j) sim).

Definition to_wire (b : decodedBranch) : Branch :=
  MkBranch (ElementBytes (commitmentG b)) (ElementBytes (commitmentH b))
    (ScalarBytes (challenge b)) (ScalarBytes (response b)).

(** ElGamal encryption of [bit] under [pk]. *)
Definition encrypt_bit (pk : Element) (bit : bool) (r : Scalar) : Element * Element :=
  (r ⊙ NewGeneratorElement, (choice bit ⊙ NewGeneratorElement) ⊕ (r ⊙ pk)).
(** What an accepting run of the verifier establishes. *)
Definition cds_accepts (pk bigR bigS : Element) (ctx : bytes)
    (b0 b1 : decodedBranch) : Prop :=
  fiatShamirTotalChallenge pk bigR bigS [NewScalar; sone] ctx [b0; b1] =
    Ok (ScalarAdd (challenge b0) (challenge b1)) ∧
  branch_equations pk bigR bigS NewGeneratorElement b0 NewScalar = true ∧
  branch_equations pk bigR bigS NewGeneratorElement b1 sone = true.
End verify.

#[global] Arguments fiatShamirTotalChallenge : simpl never.
#[global] Arguments BindingContext : simpl never.
#[global] Arguments branch_equations : simpl never.

(** ** Context binding *)
Lemma putU64BE_le v : putU64BE v = rev (le_bytes 8 v).
Proof. unfold putU64BE. cbn. rewrite !Z.shiftr_shiftr by lia. by rewrite Z.shiftr_0_r. Qed.

Lemma putU64BE_inj u v :
  0 ≤ u < max_uint64 → 0 ≤ v < max_uint64 → putU64BE u = putU64BE v → u = v.
Proof.
  rewrite !putU64BE_le. intros Hu Hv E.
  apply (f_equal (@rev _)) in E. rewrite !rev_involutive in E.
  by apply (le_bytes_inj 8).
Qed.

Lemma length_putU64BE v : length (putU64BE v) = 8%nat.
Proof. done. Qed.

(** One length-prefixed field can be peeled off unambiguously. *)
Lemma prefixed_inj (a b x y : bytes) :
  blen a < max_uint64 → blen b < max_uint64 →
  (putU64BE (blen a) ++ a) ++ x = (putU64BE (blen b) ++ b) ++ y → a = b ∧ x = y.
Proof.
  intros Ha Hb E. rewrite <- !(assoc (++)) in E.
  apply app_inj_len in E as [E1 E2]; [|done].
  apply putU64BE_inj in E1; [|unfold blen in *; lia..].
  apply app_inj_len in E2; [done|]. unfold blen in E1. lia.
Qed.

(** ** The verifier *)
Section theorems.
Context `{RistrettoLaws}.

Add Field cds_fld : scalar_field.

Lemma scalarOneBytes_one : ScalarSetCanonicalBytes scalarOneBytes = Ok sone.
Proof.
  replace scalarOneBytes with (ScalarBytes sone); [apply scalar_decode_encode|].
  pose proof order_gt_1. rewrite <- scalar_of_Z_1, scalar_little_endian by lia.
  reflexivity.
Qed.

Lemma branch_equations_ok pk bigR bigS br m :
  branch_equations pk bigR bigS NewGeneratorElement br m = true ↔
  response br ⊙ NewGeneratorElement = challenge br ⊙ bigR ⊕ commitmentG br ∧
  response br ⊙ pk =
    challenge br ⊙ (bigS ⊖ m ⊙ NewGeneratorElement) ⊕ commitmentH br.
Proof.
  unfold branch_equations. by rewrite andb_true_iff, !ElementEqual_spec, base_mult.
Qed.

Lemma decodeBranch_to_wire b : decodeBranch (to_wire b) = Ok b.
Proof.
  unfold decodeBranch, to_wire, decodePoint, decodeScalar; cbn.
  rewrite !element_decode_encode, !scalar_decode_encode. by destruct b.
Qed.

Lemma decodeBranch_ok b d : decodeBranch b = Ok d → b = to_wire d.
Proof.
  unfold decodeBranch. autorewrite with saksi.
  intros (cg & Hcg & E). autorewrite with saksi in Hcg, E.
  destruct E as (ch & Hch & E). autorewrite with saksi in Hch, E.
  destruct E as (c & Hc & E). autorewrite with saksi in Hc, E.
  destruct E as (s & Hs & E). autorewrite with saksi in Hs. injection E as <-.
  destruct b; unfold to_wire; cbn in *. f_equal.
  - by apply element_canonical.
  - by apply element_canonical.
  - by apply scalar_canonical.
  - by apply scalar_canonical.
Qed.

Lemma rmapM_decode_to_wire l : rmapM decodeBranch (to_wire <$> l) = Ok l.
Proof. apply rmapM_ok. induction l; constructor; [apply decodeBranch_to_wire | done]. Qed.

(** The Fiat-Shamir challenge depends on the branches' commitments only. *)
Lemma cds_messages_commitments pk bigR bigS cs ctx l l' :
  (λ b, (commitmentG b, commitmentH b)) <$> l = (λ b, (commitmentG b, commitmentH b)) <$> l' →
  cds_messages pk bigR bigS cs ctx l = cds_messages pk bigR bigS cs ctx l'.
Proof.
  intros E. unfold cds_messages. do 3 f_equal. f_equal. revert l' E.
  induction l as [|b l IH]; destruct l' as [|b' l']; try done.
  cbn. intros [= E1 E2 E3]. rewrite E1, E2. f_equal. by apply IH.
Qed.

Lemma VerifyBinaryCDS_iff (m : Merlin) eid cid nf epk pad data branches :
  VerifyBinaryCDS eid cid nf epk pad data branches = Ok tt ↔
  ∃ pk bigR bigS b0 b1,
    epk = ElementBytes pk ∧ pad = ElementBytes bigR ∧ data = ElementBytes bigS ∧
    branches = [to_wire b0; to_wire b1] ∧
    cds_accepts pk bigR bigS (BindingContext eid cid nf) b0 b1.
Proof.
  unfold VerifyBinaryCDS. rewrite scalarOneBytes_one. cbn [wrap_err rbind].
  rewrite base_mult, smult_1. split.
  - intros [Hlen H1]%guard_ok. apply rbind_ok in H1 as (pk & Hpk & H1).
    apply rbind_ok in H1 as (bigR & HR & H1). apply rbind_ok in H1 as (bigS & HS & H1).
    apply rbind_ok in H1 as (dec & Hdec & H1). apply rbind_ok in H1 as (tot & Htot & H1).
    apply guard_ok in H1 as [Hsum H1].
    apply Z.eqb_eq in Hlen.
    destruct branches as [|w0 [|w1 [|]]]; cbn [length] in Hlen; try lia.
    apply rmapM_ok in Hdec. apply Forall2_cons_inv_l in Hdec as (b0 & ? & Hd0 & Hdec & ->).
    apply Forall2_cons_inv_l in Hdec as (b1 & ? & Hd1 & Hdec & ->).
    apply Forall2_nil_inv_l in Hdec as ->.
    autorewrite with saksi in Hpk, HR, HS.
    apply element_canonical in Hpk, HR, HS. apply decodeBranch_ok in Hd0, Hd1. subst.
    exists pk, bigR, bigS, b0, b1. repeat (split; [done|]).
    cbn in H1. apply guard_ok in H1 as [Hb0 H1]. apply guard_ok in H1 as [Hb1 _].
    split; [|done]. rewrite Htot. apply ScalarEqual_spec in Hsum. cbn in Hsum.
    rewrite <- Hsum. f_equal. ring.
  - intros (pk & bigR & bigS & b0 & b1 & -> & -> & -> & -> & Htot & Hb0 & Hb1).
    cbn [length Z.of_nat]. cbn. unfold decodePoint. rewrite !element_decode_encode. cbn.
    rewrite !decodeBranch_to_wire. cbn. rewrite Htot. cbn.
    replace (ScalarEqual _ _) with true; [|symmetry; apply ScalarEqual_spec; ring].
    by rewrite Hb0, Hb1.
Qed.

Lemma fiatShamir_same_commitments (m : Merlin) pk bigR bigS cs ctx b0 b1 c0 c1 :
  commitmentG b0 = commitmentG c0 → commitmentH b0 = commitmentH c0 →
  commitmentG b1 = commitmentG c1 → commitmentH b1 = commitmentH c1 →
  fiatShamirTotalChallenge pk bigR bigS cs ctx [b0; b1] =
  fiatShamirTotalChallenge pk bigR bigS cs ctx [c0; c1].
Proof.
  intros E1 E2 E3 E4. unfold fiatShamirTotalChallenge.
  rewrite (cds_messages_commitments _ _ _ _ _ [b0; b1] [c0; c1]); [done|].
  cbn. by rewrite E1, E2, E3, E4.
Qed.

Lemma simulated_branch_ok pk bigR bigS m c' s' :
  branch_equations pk bigR bigS NewGeneratorElement
    (simulated_branch pk bigR bigS m c' s') m = true.
Proof. apply branch_equations_ok. cbn. split; apply simulated_verifies. Qed.

Lemma honest_branch_ok pk bit r nonce c :
  branch_equations pk (encrypt_bit pk bit r).1 (encrypt_bit pk bit r).2 NewGeneratorElement
    (honest_branch pk nonce c (ScalarAdd nonce (smul c r))) (choice bit) = true.
Proof.
  apply branch_equations_ok. cbn. split; [apply response_verifies|].
  rewrite (eadd_comm (choice bit ⊙ _)), eadd_sub. apply response_verifies.
Qed.

(** From two accepting branches with distinct challenges: the opening. *)
Lemma branch_extract pk bigR bigS b b' m :
  commitmentG b = commitmentG b' → commitmentH b = commitmentH b' →
  challenge b ≠ challenge b' →
  branch_equations pk bigR bigS NewGeneratorElement b m = true →
  branch_equations pk bigR bigS NewGeneratorElement b' m = true →
  ∃ r, bigR = r ⊙ NewGeneratorElement ∧ bigS = m ⊙ NewGeneratorElement ⊕ r ⊙ pk.
Proof.
  intros EG EH Hne [G1 H1]%branch_equations_ok [G2 H2]%branch_equations_ok.
  rewrite <- EG in G2. rewrite <- EH in H2.
  eexists. split; [by apply (extract_witness _ _ _ _ _ _ _ G1 G2)|].
  rewrite eadd_comm. apply esub_eq. by apply (extract_witness _ _ _ _ _ _ _ H1 H2).
Qed.

(** The reduction of 64 extracted bytes never fails: the panic is dead code. *)
Lemma challenge_never_panics `{MerlinLaws} pk bigR bigS cs ctx bs :
  ∃ c, fiatShamirTotalChallenge pk bigR bigS cs ctx bs = Ok c.
Proof.
  unfold fiatShamirTotalChallenge.
  destruct (uniform_extract transcriptLabel (cds_messages pk bigR bigS cs ctx bs)
    "total_challenge") as [c Hc].
  exists c. by rewrite Hc.
Qed.

Lemma prove_verifies `{MerlinLaws} eid cid nf pk bit r nonce c' s' :
  let ct := encrypt_bit pk bit r in
  ∃ proof,
    prove pk ct.1 ct.2 bit r nonce c' s' (BindingContext eid cid nf) = Ok proof ∧
    VerifyBinaryCDS eid cid nf (ElementBytes pk) (ElementBytes ct.1) (ElementBytes ct.2)
      (to_wire <$> proof) = Ok tt.
Proof.
  intros ct. set (ctx := BindingContext eid cid nf). unfold prove.
  set (sim := simulated_branch _ _ _ _ _ _).
  destruct (challenge_never_panics pk ct.1 ct.2 [NewScalar; sone] ctx
    (order_branches bit (honest_branch pk nonce NewScalar NewScalar) sim)) as [tot Htot].
  rewrite Htot. cbn [rbind]. eexists. split; [done|].
  set (hon := honest_branch pk nonce _ _).
  assert (branch_equations pk ct.1 ct.2 NewGeneratorElement hon (choice bit) = true) as Hh
    by apply honest_branch_ok.
  assert (branch_equations pk ct.1 ct.2 NewGeneratorElement sim (choice (negb bit)) = true) as Hs
    by apply simulated_branch_ok.
  apply VerifyBinaryCDS_iff. fold ctx. exists pk, ct.1, ct.2.
  destruct bit; cbn [order_branches fmap list_fmap negb choice] in *.
  - exists sim, hon. repeat (split; [done|]). split; [|done].
    rewrite (fiatShamir_same_commitments _ _ _ _ _ _ sim hon sim
      (honest_branch pk nonce NewScalar NewScalar)), Htot by done.
    cbn. f_equal. ring.
  - exists hon, sim. repeat (split; [done|]). split; [|done].
    rewrite (fiatShamir_same_commitments _ _ _ _ _ _ hon sim
      (honest_branch pk nonce NewScalar NewScalar) sim), Htot by done.
    cbn. f_equal. ring.
Qed.
End theorems.

(** the context binding is injective: two (election, contest, nullifier)
    triples whose fields are shorter than 2^64 bytes give the same Fiat-Shamir
    context only when they are equal, so a proof made for one contest of one
    ballot cannot be transplanted to another. *)
Theorem BindingContext_injective e c n e' c' n' :
  slen e < max_uint64 → slen c < max_uint64 → blen n < max_uint64 →
  slen e' < max_uint64 → slen c' < max_uint64 → blen n' < max_uint64 →
  BindingContext e c n = BindingContext e' c' n' → e = e' ∧ c = c' ∧ n = n'.
Proof.
  rewrite <- !blen_bytes_of_string. intros. unfold BindingContext in *. cbn in *.
  match goal with E : _ = _ |- _ => apply prefixed_inj in E as [E1 E]; [|done..] end.
  match goal with E : _ = _ |- _ => apply prefixed_inj in E as [E2 E]; [|done..] end.
  match goal with E : _ = _ |- _ => apply prefixed_inj in E as [E3 _]; [|done..] end.
  eauto using bytes_of_string_inj.
Qed.

Lemma BindingContext_injective_witness :
  BindingContext "e" "president/0" [x01] = BindingContext "e" "president/0" [x01] ∧
  "president/0" = "president/0".
Proof.
  split; [done|].
  by apply (BindingContext_injective "e" "president/0" [x01] "e" "president/0" [x01]).
Defined.

(** completeness: for every election key, every bit and every choice of
    the prover's randomness, the honest proof for an encryption of that bit is
    accepted, whatever the transcript hash. *)
Theorem VerifyBinaryCDS_complete `{RistrettoLaws, MerlinLaws} eid cid nf pk bit r nonce c' s' :
  let ct := encrypt_bit pk bit r in
  ∃ proof,
    prove pk ct.1 ct.2 bit r nonce c' s' (BindingContext eid cid nf) = Ok proof ∧
    VerifyBinaryCDS eid cid nf (ElementBytes pk) (ElementBytes ct.1) (ElementBytes ct.2)
      (to_wire <$> proof) = Ok tt.
Proof. apply prove_verifies. Qed.

Lemma VerifyBinaryCDS_complete_witness :
  let ct := encrypt_bit f3 true f2 in
  ∃ proof,
    prove (H0 := toy_merlin 5) f3 ct.1 ct.2 true f2 f4 f1 f6 (BindingContext "e" "c" [x01]) = Ok proof ∧
    VerifyBinaryCDS (H0 := toy_merlin 5) "e" "c" [x01] (ElementBytes f3) (ElementBytes ct.1)
      (ElementBytes ct.2) (to_wire <$> proof) = Ok tt.
Proof.
  exact (VerifyBinaryCDS_complete (H1 := toy_merlin 5) "e" "c" [x01] f3 true f2 f4 f1 f6).
Defined.

(** C19: special soundness: if, for the same statement and the same first
    moves, a prover gets accepted under two transcript hashes that yield
    different challenges, then the ciphertext really encrypts 0 or 1: pad and
    data are [r*G] and [m*G + r*pk] for some [m] in {0, 1} and some [r]. *)
Theorem VerifyBinaryCDS_special_soundness `{RistrettoLaws} (m1 m2 : Merlin)
    eid cid nf epk pad data br1 br2 :
  VerifyBinaryCDS (H0 := m1) eid cid nf epk pad data br1 = Ok tt →
  VerifyBinaryCDS (H0 := m2) eid cid nf epk pad data br2 = Ok tt →
  CommitmentA <$> br1 = CommitmentA <$> br2 →
  CommitmentB <$> br1 = CommitmentB <$> br2 →
  Challenge <$> br1 ≠ Challenge <$> br2 →
  ∃ pk bit r, epk = ElementBytes pk ∧
    pad = ElementBytes (encrypt_bit pk bit r).1 ∧
    data = ElementBytes (encrypt_bit pk bit r).2.
Proof.
  intros V1 V2 EA EB Hne.
  apply VerifyBinaryCDS_iff in V1 as (pk & bigR & bigS & b0 & b1 & -> & -> & -> & -> & A1).
  apply VerifyBinaryCDS_iff in V2 as (pk2 & R2 & S2 & c0 & c1 & E1 & E2 & E3 & -> & A2).
  apply element_bytes_inj in E1, E2, E3. subst pk2 R2 S2.
  cbn in EA, EB, Hne. injection EA as EA0 EA1. injection EB as EB0 EB1.
  apply element_bytes_inj in EA0, EA1, EB0, EB1.
  destruct A1 as (_ & X0 & X1), A2 as (_ & Y0 & Y1).
  destruct (decide (challenge b0 = challenge c0)) as [E0|D0].
  - destruct (decide (challenge b1 = challenge c1)) as [E1'|D1].
    { destruct Hne. by rewrite E0, E1'. }
    destruct (branch_extract _ _ _ _ _ _ EA1 EB1 D1 X1 Y1) as (r & -> & ->).
    by exists pk, true, r.
  - destruct (branch_extract _ _ _ _ _ _ EA0 EB0 D0 X0 Y0) as (r & -> & ->).
    by exists pk, false, r.
Qed.

(** The rewinding pair of [VerifyBinaryCDS_special_soundness_witness]: an
    encryption of 1 under the key 3*G, proved against two transcript hashes. *)
Definition wit_proof (salt : Z) : list Branch :=
  match prove (H0 := toy_merlin salt) f3 f2 (F7_add f1 (F7_mul f2 f3)) true f2 f5 f4 f6
          (BindingContext "e" "c" [x01]) with
  | Ok l => to_wire <$> l
  | Err _ => []
  end.

Lemma VerifyBinaryCDS_special_soundness_witness :
  VerifyBinaryCDS (H0 := toy_merlin 0) "e" "c" [x01] (F7_bytes f3) (F7_bytes f2)
    (F7_bytes (F7_add f1 (F7_mul f2 f3))) (wit_proof 0) = Ok tt ∧
  ∃ pk bit r, F7_bytes f3 = ElementBytes pk ∧
    F7_bytes f2 = ElementBytes (encrypt_bit pk bit r).1 ∧
    F7_bytes (F7_add f1 (F7_mul f2 f3)) = ElementBytes (encrypt_bit pk bit r).2.
Proof.
  split; [vm_compute; reflexivity|].
  apply (VerifyBinaryCDS_special_soundness (toy_merlin 0) (toy_merlin 1) "e" "c" [x01]
    (F7_bytes f3) (F7_bytes f2) (F7_bytes (F7_add f1 (F7_mul f2 f3))) (wit_proof 0) (wit_proof 1));
    vm_compute; first [reflexivity | discriminate].
Defined.

End CdsVerify.
