(* ===== verification/CredVerify.v ===== *)
(** * credverify: the issuer's Schnorr signature on a credential

    Package [chaincode/credverify]: the issuance challenge and the check
    [s*G == R' + e*Pk_i].  A signature by the key's owner verifies, and two
    accepted signatures over one nonce commitment under different challenges
    reveal the issuer's secret key (so only its owner can sign). *)
From S2P Require Import Prelude Ristretto ToyGroup.
From Stdlib Require Import Field.

Module CredVerify.

Definition transcriptLabel : string := "saksi.credentials.issuance.v1".

Section verify.
Context `{Ristretto, Merlin}.

Definition issuanceChallenge (pk c r : Element) : result Scalar :=
  wrap_err (λ e, Errorf "panic: challenge reduction: %v" [AErr e])
    (ScalarSetUniformBytes
      (ExtractBytes transcriptLabel
        [("issuer-pk", ElementBytes pk); ("commitment", ElementBytes c);
         ("r-prime", ElementBytes r)] "challenge" 64)).

Definition VerifyIssuerSignature (issuerPK commitment rPrime s : bytes) : result unit :=
  let? pk := wrap_err (λ e, Errorf "issuer public key is not a valid ristretto255 point: %w" [AErr e])
               (ElementSetCanonicalBytes issuerPK) in
  let? c := wrap_err (λ e, Errorf "credential commitment is not a valid ristretto255 point: %w" [AErr e])
              (ElementSetCanonicalBytes commitment) in
  let? r := wrap_err (λ e, Errorf "signature R' is not a valid ristretto255 point: %w" [AErr e])
              (ElementSetCanonicalBytes rPrime) in
  let? sc := wrap_err (λ e, Errorf "signature scalar is not canonical: %w" [AErr e])
               (ScalarSetCanonicalBytes s) in
  let? e := issuanceChallenge pk c r in
  let lhs := ScalarBaseMult sc in
  let rhs := (e ⊙ pk) ⊕ r in
  guard? ElementEqual lhs rhs else Errorf "credential signature does not verify" [];
  Ok tt.

(** The issuer's signature: nonce [k], key [sk]. *)
Definition sign `{!RistrettoLaws} (sk k : Scalar) (c : Element) : result (bytes * bytes) :=
  let pk := sk ⊙ NewGeneratorElement in
  let r := k ⊙ NewGeneratorElement in
  let? e := issuanceChallenge pk c r in
  Ok (ElementBytes r, ScalarBytes (ScalarAdd k (smul e sk))).
End verify.

#[global] Arguments issuanceChallenge : simpl never.

Section theorems.
Context `{RistrettoLaws}.

Lemma VerifyIssuerSignature_iff (m : Merlin) ipk com rp s :
  VerifyIssuerSignature ipk com rp s = Ok tt ↔
  ∃ pk c r sc e, ipk = ElementBytes pk ∧ com = ElementBytes c ∧ rp = ElementBytes r ∧
    s = ScalarBytes sc ∧ issuanceChallenge pk c r = Ok e ∧
    sc ⊙ NewGeneratorElement = e ⊙ pk ⊕ r.
Proof.
  unfold VerifyIssuerSignature. split.
  - intros (pk & Hpk & H1)%rbind_ok. apply rbind_ok in H1 as (c & Hc & H1).
    apply rbind_ok in H1 as (r & Hr & H1). apply rbind_ok in H1 as (sc & Hs & H1).
    apply rbind_ok in H1 as (e & He & H1). apply guard_ok in H1 as [Heq _].
    autorewrite with saksi in *. rewrite base_mult in Heq. apply ElementEqual_spec in Heq.
    apply element_canonical in Hpk, Hc, Hr. apply scalar_canonical in Hs. eauto 20.
  - intros (pk & c & r & sc & e & -> & -> & -> & -> & He & Heq).
    rewrite !element_decode_encode, scalar_decode_encode. cbn. rewrite He. cbn.
    rewrite base_mult, Heq. by rewrite (proj2 (ElementEqual_spec _ _) eq_refl).
Qed.

Lemma issuanceChallenge_total `{MerlinLaws} pk c r : ∃ e, issuanceChallenge pk c r = Ok e.
Proof.
  destruct (uniform_extract transcriptLabel
    [("issuer-pk", ElementBytes pk); ("commitment", ElementBytes c);
     ("r-prime", ElementBytes r)] "challenge") as [e He].
  exists e. unfold issuanceChallenge. by rewrite He.
Qed.

Lemma sign_verifies `{MerlinLaws} sk k c :
  ∃ r sc, sign sk k c = Ok (ElementBytes r, ScalarBytes sc) ∧
    VerifyIssuerSignature (ElementBytes (sk ⊙ NewGeneratorElement)) (ElementBytes c)
      (ElementBytes r) (ScalarBytes sc) = Ok tt.
Proof.
  unfold sign.
  destruct (issuanceChallenge_total (sk ⊙ NewGeneratorElement) c (k ⊙ NewGeneratorElement))
    as [e He].
  rewrite He. cbn. do 2 eexists. split; [done|].
  apply VerifyIssuerSignature_iff. do 5 eexists. repeat (split; [done|]).
  apply response_verifies.
Qed.
End theorems.

(** The credential gate: a signature made with the issuer's secret key is
    accepted; and accepting the same nonce commitment under two different
    challenges exhibits the discrete logarithm of the issuer key, so an
    accepted signature cannot be produced without it. *)
Theorem VerifyIssuerSignature_correct `{RistrettoLaws} (m1 m2 : Merlin) :
  (∀ (L : @MerlinLaws m1) sk k c, ∃ rp s, sign (H0 := m1) sk k c = Ok (rp, s) ∧
     VerifyIssuerSignature (H0 := m1) (ElementBytes (sk ⊙ NewGeneratorElement))
       (ElementBytes c) rp s = Ok tt) ∧
  (∀ pk c r s1 s2,
     VerifyIssuerSignature (H0 := m1) (ElementBytes pk) (ElementBytes c) r s1 = Ok tt →
     VerifyIssuerSignature (H0 := m2) (ElementBytes pk) (ElementBytes c) r s2 = Ok tt →
     (∀ r', ElementBytes r' = r →
        issuanceChallenge (H0 := m1) pk c r' ≠ issuanceChallenge (H0 := m2) pk c r') →
     ∃ sk, pk = sk ⊙ NewGeneratorElement).
Proof.
  split.
  - intros L sk k c. destruct (sign_verifies sk k c) as (r & sc & Hs & Hv). eauto.
  - intros pk c r s1 s2 V1 V2 Hne.
    apply VerifyIssuerSignature_iff in V1 as (pk1 & c1 & r1 & a1 & e1 & E1 & E2 & -> & -> & He1 & Q1).
    apply VerifyIssuerSignature_iff in V2 as (pk2 & c2 & r2 & a2 & e2 & E3 & E4 & E5 & -> & He2 & Q2).
    apply element_bytes_inj in E1, E2, E3, E4, E5. subst.
    specialize (Hne _ eq_refl). rewrite He1, He2 in Hne.
    eexists. apply (extract_witness _ _ _ _ _ _ _ Q1 Q2). congruence.
Qed.

Lemma VerifyIssuerSignature_correct_witness :
  ∃ rp s, sign (H0 := toy_merlin 3) f2 f4 f5 = Ok (rp, s) ∧
    VerifyIssuerSignature (H0 := toy_merlin 3) (F7_bytes f2) (F7_bytes f5) rp s = Ok tt.
Proof.
  exact (proj1 (VerifyIssuerSignature_correct (toy_merlin 3) (toy_merlin 4))
    (toy_merlin_laws 3) f2 f4 f5).
Defined.

End CredVerify.
