(* ===== verification/SelectionVerify.v ===== *)
(** * selectionverify: the sum-to-one proof of a ballot record

    Package [chaincode/selectionverify]: a Chaum-Pedersen proof that the sum of
    the record's ciphertexts, less one generator, encrypts zero.  Besides
    completeness and special soundness, the two ballot proofs are put together:
    ciphertexts that each open to 0 or 1 and whose sum opens to 1 carry exactly
    one selection. *)
From S2P Require Import Prelude Ristretto ToyGroup CdsVerify.
From Stdlib Require Import Field.

Module SelectionVerify.

Definition transcriptLabel : string := "saksi.nizk.chaum-pedersen.v1".

Definition contextLabel : string := "saksi.ballot.selection.v1".

Record Proof := MkProof {
  CommitmentA : bytes; CommitmentB : bytes; Challenge : bytes; Response : bytes
}.

Definition Context (electionID positionID : string) (nullifier : bytes) : bytes :=
  bytes_of_string contextLabel ++ CdsVerify.BindingContext electionID positionID nullifier.

Section verify.
Context `{Ristretto, Merlin}.

(** The loop of [Verify] over the ciphertexts: decode and accumulate. *)
Definition accumulate (acc : Element * Element) (ct : bytes * bytes) :
    result (Element * Element) :=
  let? pad := decodePoint ct.1 "ciphertext pad" in
  let? data := decodePoint ct.2 "ciphertext data" in
  Ok (acc.1 ⊕ pad, acc.2 ⊕ data).

Definition cp_messages (g y a b : Element) (ctx : bytes) (tg th : Element) :
    list (string * bytes) :=
  [("g", ElementBytes g); ("h", ElementBytes y); ("a", ElementBytes a);
   ("b", ElementBytes b); ("context", ctx);
   ("commitment_g", ElementBytes tg); ("commitment_h", ElementBytes th)].

Definition Verify (electionID positionID : string) (nullifier electionPK : bytes)
    (pads datas : list bytes) (proof : Proof) : result unit :=
  guard? negb ((Z.of_nat (length pads) =? 0) ||
               negb (Z.of_nat (length pads) =? Z.of_nat (length datas)))
    else Errorf "selection proof needs matching non-empty ciphertexts, got %d pads / %d datas"
           [AInt (Z.of_nat (length pads)); AInt (Z.of_nat (length datas))];
  let? y := decodePoint electionPK "election public key" in
  let? ab := rfoldM accumulate (NewIdentityElement, NewIdentityElement) (zip pads datas) in
  let a := ab.1 in
  let g := NewGeneratorElement in
  let b := ab.2 ⊖ g in
  let? tg := decodePoint (CommitmentA proof) "commitment_a" in
  let? th := decodePoint (CommitmentB proof) "commitment_b" in
  let? c := decodeScalar (Challenge proof) "challenge" in
  let? s := decodeScalar (Response proof) "response" in
  let? recomputed := wrap_err (λ e, Errorf "internal: challenge reduction: %w" [AErr e])
    (ScalarSetUniformBytes (ExtractBytes transcriptLabel
      (cp_messages g y a b (Context electionID positionID nullifier) tg th) "challenge" 64)) in
  guard? ScalarEqual recomputed c
    else Errorf "selection proof challenge does not match Fiat-Shamir transcript" [];
  let lhsG := ScalarBaseMult s in
  let rhsG := (c ⊙ a) ⊕ tg in
  let lhsH := s ⊙ y in
  let rhsH := (c ⊙ b) ⊕ th in
  guard? ElementEqual lhsG rhsG && ElementEqual lhsH rhsH
    else Errorf "selection proof verification equation failed" [];
  Ok tt.

(** What a ballot record claims: key, pads and data of its ciphertexts. *)
Definition challenge_of (eid pid : string) (nf : bytes) (y : Element)
    (ps ds : list Element) (tg th : Element) : result Scalar :=
  ScalarSetUniformBytes (ExtractBytes transcriptLabel
    (cp_messages NewGeneratorElement y (element_sum ps) (element_sum ds ⊖ NewGeneratorElement)
       (Context eid pid nf) tg th) "challenge" 64).

(** [prove_selection] of selection.rs: [rsum] is the sum of the encryption
    randomness, [k] the blinding nonce. *)
Definition prove_selection `{!RistrettoLaws} (eid pid : string) (nf : bytes) (y : Element)
    (ps ds : list Element) (rsum k : Scalar) : result Proof :=
  let tg := k ⊙ NewGeneratorElement in
  let th := k ⊙ y in
  let? c := challenge_of eid pid nf y ps ds tg th in
  Ok (MkProof (ElementBytes tg) (ElementBytes th) (ScalarBytes c)
        (ScalarBytes (ScalarAdd k (smul c rsum)))).

(** A record with the given bits and randomness, encrypted under [y]. *)
Definition encrypt_record `{!RistrettoLaws} (y : Element) (bits : list (bool * Scalar)) :
    list (Element * Element) :=
  (λ br, CdsVerify.encrypt_bit y br.1 br.2) <$> bits.
End verify.

#[global] Arguments cp_messages : simpl never.
#[global] Arguments Context : simpl never.
#[global] Arguments challenge_of : simpl never.

Section theorems.
Context `{RistrettoLaws}.

Add Field sel_fld : scalar_field.

Lemma rfoldM_accumulate acc (cts : list (bytes * bytes)) r :
  rfoldM accumulate acc cts = Ok r ↔
  ∃ l : list (Element * Element),
    cts = (λ p, (ElementBytes p.1, ElementBytes p.2)) <$> l ∧
    r = (acc.1 ⊕ element_sum l.*1, acc.2 ⊕ element_sum l.*2).
Proof.
  revert acc. induction cts as [|[p d] cts IH]; intros acc; cbn [rfoldM].
  - split.
    + intros [= <-]. exists []. cbn. rewrite !element_sum_nil, !eadd_id. by destruct acc.
    + intros ([|] & [=] & ->). cbn. rewrite !element_sum_nil, !eadd_id. by destruct acc.
  - rewrite rbind_ok. split.
    + intros (acc' & Hacc & (l & -> & ->)%IH). unfold accumulate in Hacc; cbn in Hacc.
      apply rbind_ok in Hacc as (P & HP & Hacc). apply rbind_ok in Hacc as (D & HD & [= <-]).
      autorewrite with saksi in HP, HD. apply element_canonical in HP, HD. subst.
      exists ((P, D) :: l). cbn. by rewrite !element_sum_cons, !eadd_assoc.
    + intros ([|[P D] l] & Hl & ->); [done|]. cbn in Hl. injection Hl as -> -> ->.
      exists (acc.1 ⊕ P, acc.2 ⊕ D). split.
      * unfold accumulate, decodePoint; cbn. by rewrite !element_decode_encode.
      * apply IH. exists l. cbn. by rewrite !element_sum_cons, !eadd_assoc.
Qed.

Lemma zip_bytes_inv (pads datas : list bytes) (l : list (Element * Element)) :
  length pads = length datas →
  zip pads datas = (λ p, (ElementBytes p.1, ElementBytes p.2)) <$> l →
  pads = ElementBytes <$> l.*1 ∧ datas = ElementBytes <$> l.*2.
Proof.
  intros Hlen E. split.
  - rewrite <- (fst_zip pads datas), E, <- !list_fmap_compose by lia. done.
  - rewrite <- (snd_zip pads datas), E, <- !list_fmap_compose by lia. done.
Qed.

(** An accepting run, unfolded. *)
Lemma Verify_iff (m : Merlin) eid pid nf epk pads datas pr :
  Verify eid pid nf epk pads datas pr = Ok tt ↔
  ∃ y l tg th c s, epk = ElementBytes y ∧ l ≠ [] ∧
    pads = ElementBytes <$> l.*1 ∧ datas = ElementBytes <$> l.*2 ∧
    pr = MkProof (ElementBytes tg) (ElementBytes th) (ScalarBytes c) (ScalarBytes s) ∧
    challenge_of eid pid nf y l.*1 l.*2 tg th = Ok c ∧
    s ⊙ NewGeneratorElement = c ⊙ element_sum l.*1 ⊕ tg ∧
    s ⊙ y = c ⊙ (element_sum l.*2 ⊖ NewGeneratorElement) ⊕ th.
Proof.
  unfold Verify. split.
  - intros [Hlen H1]%guard_ok. apply negb_true_iff, orb_false_iff in Hlen as [Hn0 Hlen].
    apply negb_false_iff, Z.eqb_eq, Nat2Z.inj in Hlen. apply Z.eqb_neq in Hn0.
    apply rbind_ok in H1 as (y & Hy & H1). apply rbind_ok in H1 as (ab & Hab & H1).
    apply rfoldM_accumulate in Hab as (l & Hl & ->). cbn in H1. rewrite !eadd_id_l in H1.
    apply zip_bytes_inv in Hl as [-> ->]; [|done].
    apply rbind_ok in H1 as (tg & Htg & H1). apply rbind_ok in H1 as (th & Hth & H1).
    apply rbind_ok in H1 as (c & Hc & H1). apply rbind_ok in H1 as (s & Hs & H1).
    apply rbind_ok in H1 as (c' & Hc' & H1).
    apply guard_ok in H1 as [Hcc H1]. apply guard_ok in H1 as [Heq _].
    apply ScalarEqual_spec in Hcc as ->. rewrite base_mult in Heq.
    apply andb_true_iff in Heq as [EG EH]. apply ElementEqual_spec in EG, EH.
    autorewrite with saksi in *. apply element_canonical in Hy, Htg, Hth.
    apply scalar_canonical in Hc, Hs.
    exists y, l, tg, th, c, s. repeat (split; [done|]).
    split; [by destruct l|]. repeat (split; [done|]).
    split; [destruct pr; cbn in *; congruence|]. done.
  - intros (y & l & tg & th & c & s & -> & Hne & -> & -> & -> & Hc & EG & EH).
    rewrite !length_fmap, Z.eqb_refl. destruct (Z.eqb_spec (Z.of_nat (length l)) 0).
    { destruct l; [done | cbn in *; lia]. }
    cbn [orb negb Challenge Response CommitmentA CommitmentB].
    unfold decodePoint, decodeScalar. rewrite element_decode_encode. cbn.
    assert (rfoldM accumulate (NewIdentityElement, NewIdentityElement)
      (zip (ElementBytes <$> l.*1) (ElementBytes <$> l.*2)) =
      Ok (element_sum l.*1, element_sum l.*2)) as ->.
    { apply rfoldM_accumulate. exists l. cbn. rewrite !eadd_id_l. split; [|done].
      clear. induction l as [|[] l IH]; cbn; [done | by rewrite IH]. }
    cbn. rewrite !element_decode_encode, !scalar_decode_encode. cbn.
    unfold challenge_of in Hc. rewrite Hc. cbn.
    rewrite base_mult, EG, EH, (proj2 (ScalarEqual_spec c c) eq_refl).
    by rewrite !(proj2 (ElementEqual_spec _ _) eq_refl).
Qed.

(** Scalars of the bits of a record. *)
Lemma encrypt_record_sums y bits :
  element_sum (encrypt_record y bits).*1 = scalar_sum bits.*2 ⊙ NewGeneratorElement ∧
  element_sum (encrypt_record y bits).*2 =
    scalar_sum (CdsVerify.choice <$> bits.*1) ⊙ NewGeneratorElement ⊕ scalar_sum bits.*2 ⊙ y.
Proof.
  unfold encrypt_record. induction bits as [|[b r] bits [IH1 IH2]]; cbn.
  - by rewrite element_sum_nil, !scalar_sum_nil, !smult_0, eadd_id.
  - rewrite !element_sum_cons, !scalar_sum_cons, IH1, IH2, !smult_add_l. split; [done|].
    apply eadd_swap.
Qed.

Lemma scalar_sum_bits (bits : list bool) :
  scalar_sum (CdsVerify.choice <$> bits) =
    scalar_of_Z (Z.of_nat (length (filter (λ b, b = true) bits))).
Proof.
  induction bits as [|b bits IH]; [by rewrite scalar_of_Z_0|].
  rewrite fmap_cons, scalar_sum_cons, IH, filter_cons. destruct b; cbn [CdsVerify.choice].
  - rewrite decide_True by done. cbn [length].
    rewrite Nat2Z.inj_succ, <- Z.add_1_l, scalar_of_Z_add, scalar_of_Z_1. done.
  - rewrite decide_False by done. ring.
Qed.
Lemma prove_selection_verifies `{MerlinLaws} eid pid nf y bits k :
  length (filter (λ b, b = true) bits.*1) = 1%nat →
  let cts := encrypt_record y bits in
  ∃ pr, prove_selection eid pid nf y cts.*1 cts.*2 (scalar_sum bits.*2) k = Ok pr ∧
    Verify eid pid nf (ElementBytes y) (ElementBytes <$> cts.*1) (ElementBytes <$> cts.*2) pr = Ok tt.
Proof.
  intros Hone cts. unfold prove_selection.
  destruct (encrypt_record_sums y bits) as [S1 S2]. fold cts in S1, S2.
  rewrite scalar_sum_bits, Hone, scalar_of_Z_1, smult_1 in S2.
  destruct (uniform_extract transcriptLabel
    (cp_messages NewGeneratorElement y (element_sum cts.*1)
      (element_sum cts.*2 ⊖ NewGeneratorElement) (Context eid pid nf)
      (k ⊙ NewGeneratorElement) (k ⊙ y)) "challenge") as [c Hc].
  unfold challenge_of at 1. rewrite Hc. cbn. eexists. split; [done|].
  apply Verify_iff. exists y, cts, (k ⊙ NewGeneratorElement), (k ⊙ y), c,
    (ScalarAdd k (smul c (scalar_sum bits.*2))).
  repeat (split; [done|]). split.
  { intros E. unfold cts, encrypt_record in E. destruct bits; [|done]. cbn in Hone. lia. }
  repeat (split; [done|]). split.
  - rewrite S1. apply response_verifies.
  - rewrite S2, (eadd_comm NewGeneratorElement), eadd_sub. apply response_verifies.
Qed.
End theorems.

(** completeness of the selection proof: for a record whose bits contain
    exactly one [true], the honest proof made from the summed randomness is
    accepted. *)
Theorem Verify_complete `{RistrettoLaws, MerlinLaws} eid pid nf y bits k :
  length (filter (λ b, b = true) bits.*1) = 1%nat →
  let cts := encrypt_record y bits in
  ∃ pr, prove_selection eid pid nf y cts.*1 cts.*2 (scalar_sum bits.*2) k = Ok pr ∧
    Verify eid pid nf (ElementBytes y) (ElementBytes <$> cts.*1) (ElementBytes <$> cts.*2) pr = Ok tt.
Proof. apply prove_selection_verifies. Qed.

Lemma Verify_complete_witness :
  let cts := encrypt_record f3 [(false, f2); (true, f5)] in
  ∃ pr, prove_selection (H0 := toy_merlin 1) "e" "p" [x01] f3 cts.*1 cts.*2 f0 f4 = Ok pr ∧
    Verify (H0 := toy_merlin 1) "e" "p" [x01] (F7_bytes f3) (F7_bytes <$> cts.*1)
      (F7_bytes <$> cts.*2) pr = Ok tt.
Proof.
  exact (Verify_complete (H1 := toy_merlin 1) "e" "p" [x01] f3 [(false, f2); (true, f5)] f4 eq_refl).
Defined.

(** C20: special soundness of the selection proof: accepted for one statement
    and one first move under two different challenges, the record's ciphertext
    sum is an encryption of exactly one generator: [sum pads = r*G] and
    [sum datas = G + r*Y] for some [r]. *)
Theorem Verify_special_soundness `{RistrettoLaws} (m1 m2 : Merlin)
    eid pid nf epk pads datas pr1 pr2 :
  Verify (H0 := m1) eid pid nf epk pads datas pr1 = Ok tt →
  Verify (H0 := m2) eid pid nf epk pads datas pr2 = Ok tt →
  CommitmentA pr1 = CommitmentA pr2 → CommitmentB pr1 = CommitmentB pr2 →
  Challenge pr1 ≠ Challenge pr2 →
  ∃ y l r, epk = ElementBytes y ∧ pads = ElementBytes <$> l.*1 ∧
    datas = ElementBytes <$> l.*2 ∧
    element_sum l.*1 = r ⊙ NewGeneratorElement ∧
    element_sum l.*2 = NewGeneratorElement ⊕ r ⊙ y.
Proof.
  intros V1 V2 EA EB Hne.
  apply Verify_iff in V1 as (y & l & tg & th & c & s & -> & _ & -> & -> & -> & _ & G1 & H1).
  apply Verify_iff in V2 as (y2 & l2 & tg2 & th2 & c2 & s2 & Ey & _ & Ep & Ed & -> & _ & G2 & H2).
  cbn in EA, EB, Hne. apply element_bytes_inj in Ey, EA, EB. subst.
  apply (inj _) in Ep, Ed. rewrite <- Ep in G2. rewrite <- Ed in H2.
  assert (c ≠ c2) as Hc by congruence.
  exists y2, l. eexists. repeat (split; [done|]).
  split; [apply (extract_witness _ _ _ _ _ _ _ G1 G2 Hc)|].
  rewrite eadd_comm. apply esub_eq. apply (extract_witness _ _ _ _ _ _ _ H1 H2 Hc).
Qed.

(** A rewinding pair over a two-ciphertext record. *)
Definition wit_cts : list (F7 * F7) := encrypt_record f3 [(false, f2); (true, f5)].

Definition wit_proof (salt : Z) : Proof :=
  match prove_selection (H0 := toy_merlin salt) "e" "p" [x01] f3 wit_cts.*1 wit_cts.*2 f0 f4 with
  | Ok pr => pr
  | Err _ => MkProof [] [] [] []
  end.

Lemma Verify_special_soundness_witness :
  Verify (H0 := toy_merlin 1) "e" "p" [x01] (F7_bytes f3) (F7_bytes <$> wit_cts.*1)
    (F7_bytes <$> wit_cts.*2) (wit_proof 1) = Ok tt ∧
  ∃ y l r, F7_bytes f3 = ElementBytes y ∧ F7_bytes <$> wit_cts.*1 = ElementBytes <$> l.*1 ∧
    F7_bytes <$> wit_cts.*2 = ElementBytes <$> l.*2 ∧
    element_sum l.*1 = r ⊙ NewGeneratorElement ∧
    element_sum l.*2 = NewGeneratorElement ⊕ r ⊙ y.
Proof.
  split; [vm_compute; reflexivity|].
  apply (Verify_special_soundness (toy_merlin 1) (toy_merlin 2) "e" "p" [x01] (F7_bytes f3)
    (F7_bytes <$> wit_cts.*1) (F7_bytes <$> wit_cts.*2) (wit_proof 1) (wit_proof 2));
    vm_compute; first [reflexivity | discriminate].
Defined.

(** One-hot ballots: when every ciphertext of a record opens to a bit
    (what the CDS proofs show) and the record's sum opens to one generator
    (what the selection proof shows), exactly one of the bits is set, provided
    the record has fewer ciphertexts than the group order. *)
Theorem one_hot_record `{RistrettoLaws} y bits r :
  Z.of_nat (length bits) < order →
  let cts := encrypt_record y bits in
  element_sum cts.*1 = r ⊙ NewGeneratorElement →
  element_sum cts.*2 = NewGeneratorElement ⊕ r ⊙ y →
  ∃ i, bits.*1 !! i = Some true ∧ ∀ j, bits.*1 !! j = Some true → j = i.
Proof.
  intros Hlen cts E1 E2. destruct (encrypt_record_sums y bits) as [S1 S2].
  fold cts in S1, S2. rewrite S1 in E1. apply generator_inj in E1.
  rewrite S2, E1 in E2. apply eadd_cancel_r in E2.
  rewrite scalar_sum_bits in E2.
  rewrite <- (smult_1 NewGeneratorElement) in E2 at 2. apply generator_inj in E2.
  rewrite <- scalar_of_Z_1 in E2. pose proof order_gt_1.
  pose proof (length_filter (λ b, b = true) bits.*1) as Hle. rewrite length_fmap in Hle.
  apply scalar_of_Z_inj in E2; [|lia..].
  apply one_filter_unique. lia.
Qed.

Lemma one_hot_record_witness :
  ∃ i, [(false, f2); (true, f5)].*1 !! i = Some true ∧
    ∀ j, [(false, f2); (true, f5)].*1 !! j = Some true → j = i.
Proof.
  apply (one_hot_record (H := toy_group) f3 [(false, f2); (true, f5)] f0); vm_compute; reflexivity.
Defined.

End SelectionVerify.
