(* ===== verification/SigVerify.v ===== *)
(** * sigverify and electionpk: keys derived from the DKG transcript, and the
    Schnorr signatures checked under them

    Package [chaincode/sigverify] (tally signatures, precinct-return messages)
    and [deriveElectionPublicKey] of [chaincode/electionpk.go].  The
    specification side is the dealers' polynomials of [saksi-crypto/src/dkg.rs]:
    the derived verification key of trustee [i] is its share times the
    generator, and the election key is the joint secret times the generator. *)
From S2P Require Import Prelude Ristretto ToyGroup Wire.
From Stdlib Require Import Field.

Module SigVerify.

Definition transcriptLabel : string := "saksi.nizk.schnorr.v1".

Definition tallySigDomain : string := "saksi.tally.sig.v1".

Definition signatureLength : Z := 64.

(** Domain, election id, then every total as eight little-endian bytes. *)
Definition TallySigContext (electionID : string) (totals : list Z) : bytes :=
  bytes_of_string tallySigDomain ++ bytes_of_string electionID ++
  mjoin (le_bytes 8 <$> totals).

(** Position of [id] in [ids], counted from [i]. *)
Fixpoint index_from (i : Z) (ids : list string) (id : string) : option Z :=
  match ids with
  | [] => None
  | x :: ids => if bool_decide (x = id) then Some i else index_from (i + 1) ids id
  end.

Definition returnSigDomain : string := "saksi.er.sig.v1".

Record ReturnContest := MkReturnContest {
  ContestID : string; SumC1 : bytes; SumC2 : bytes
}.

(** [lp]: a length-prefixed field; the length is truncated to a uint32. *)
Definition lp (b : bytes) : bytes := le_bytes 4 (blen b `mod` max_uint32) ++ b.

(** The loop over the contests: each is checked, then appended. *)
Fixpoint append_contests (i : Z) (out : bytes) (contests : list ReturnContest) : result bytes :=
  match contests with
  | [] => Ok out
  | c :: contests =>
      guard? (blen (SumC1 c) =? 32) && (blen (SumC2 c) =? 32)
        else Errorf "contest %d (%q): aggregate points must be 32 bytes" [AInt i; AStr (ContestID c)];
      append_contests (i + 1)
        (out ++ lp (bytes_of_string (ContestID c)) ++ SumC1 c ++ SumC2 c) contests
  end.

Definition ReturnSigMessage (electionID precinctID : string) (closeBlock : Z)
    (tipHash : bytes) (recordCount : Z) (ledgerDigest : bytes)
    (contests : list ReturnContest) : result bytes :=
  guard? (blen tipHash =? 32) && (blen ledgerDigest =? 32)
    else Errorf "tip hash and ledger digest must be 32 bytes, got %d and %d"
           [AInt (blen tipHash); AInt (blen ledgerDigest)];
  append_contests 0
    (bytes_of_string returnSigDomain ++ lp (bytes_of_string electionID) ++
     lp (bytes_of_string precinctID) ++ le_bytes 8 closeBlock ++ tipHash ++
     le_bytes 8 recordCount ++ ledgerDigest ++
     le_bytes 4 (Z.of_nat (length contests) `mod` max_uint32)) contests.

Section verify.
Context `{Ristretto, Merlin}.

Definition scalarFromUint64 (v : Z) : result Scalar :=
  wrap_err (λ e, Errorf "internal: scalar %d is not canonical: %w" [AInt v; AErr e])
    (ScalarSetCanonicalBytes (le_bytes 8 v ++ replicate 24 (byte_of_Z 0))).

(** One Horner step over a dealer's commitments, highest coefficient first. *)
Definition horner_step (x : Scalar) (j : Z) (acc : Element) (kc : nat * bytes) : result Element :=
  let? point := wrap_err (λ e, Errorf
      "trustee commitment %d coefficient_commitments[%d] is not a canonical ristretto255 point: %w"
      [AInt j; AInt (Z.of_nat kc.1); AErr e]) (ElementSetCanonicalBytes kc.2) in
  Ok ((x ⊙ acc) ⊕ point).

Definition dealer_step (x : Scalar) (sum : Element) (jd : nat * TrusteeCommitment.t) :
    result Element :=
  let coeffs := TrusteeCommitment.CoefficientCommitments jd.2 in
  guard? negb (Z.of_nat (length coeffs) =? 0)
    else Errorf "trustee commitment %d has no coefficient commitments" [AInt (Z.of_nat jd.1)];
  let? acc := rfoldM (horner_step x (Z.of_nat jd.1)) NewIdentityElement
                (reverse (imap pair coeffs)) in
  Ok (sum ⊕ acc).

Definition DeriveVerificationKey (transcript : DKGTranscript.t)
    (trusteeIDs : list string) (trusteeID : string) : result bytes :=
  match index_from 1 trusteeIDs trusteeID with
  | None => Err (Errorf "trustee %q is not in the election's trustee set" [AStr trusteeID])
  | Some index =>
      let dealers := DKGTranscript.TrusteeCommitments transcript in
      guard? negb (Z.of_nat (length dealers) =? 0)
        else Errorf "DKG transcript has no trustee commitments" [];
      let? x := scalarFromUint64 index in
      let? sum := rfoldM (dealer_step x) NewIdentityElement (imap pair dealers) in
      Ok (ElementBytes sum)
  end.

(** electionpk.go: the joint key is the sum of the constant terms. *)
Definition constant_term_step (sum : Element) (ic : nat * TrusteeCommitment.t) : result Element :=
  match TrusteeCommitment.CoefficientCommitments ic.2 with
  | [] => Err (Errorf "trustee commitment %d has no coefficient commitments"
                 [AInt (Z.of_nat ic.1)])
  | c0 :: _ =>
      let? point := wrap_err (λ e, Errorf
          "trustee commitment %d constant term is not a canonical ristretto255 point: %w"
          [AInt (Z.of_nat ic.1); AErr e]) (ElementSetCanonicalBytes c0) in
      Ok (sum ⊕ point)
  end.

Definition deriveElectionPublicKey (transcript : DKGTranscript.t) : result bytes :=
  let commitments := DKGTranscript.TrusteeCommitments transcript in
  guard? negb (Z.of_nat (length commitments) =? 0)
    else Errorf "DKG transcript has no trustee commitments" [];
  let? sum := rfoldM constant_term_step NewIdentityElement (imap pair commitments) in
  Ok (ElementBytes sum).

Definition schnorrChallenge (base statement : Element) (context : bytes)
    (commitment : Element) : result Scalar :=
  wrap_err (λ e, Errorf "challenge reduction: %w" [AErr e])
    (ScalarSetUniformBytes (ExtractBytes transcriptLabel
      [("base", ElementBytes base); ("statement", ElementBytes statement);
       ("context", context); ("commitment", ElementBytes commitment)] "challenge" 64)).

Definition VerifySchnorr (verificationKey context signature : bytes) : result unit :=
  guard? blen signature =? signatureLength
    else Errorf "tally signature is %d bytes, want %d" [AInt (blen signature); AInt signatureLength];
  let? statement := wrap_err (λ e, Errorf
      "verification key is not a canonical ristretto255 point: %w" [AErr e])
    (ElementSetCanonicalBytes verificationKey) in
  let? commitment := wrap_err (λ e, Errorf
      "signature commitment is not a canonical ristretto255 point: %w" [AErr e])
    (ElementSetCanonicalBytes (take 32 signature)) in
  let? response := wrap_err (λ e, Errorf "signature response is not a canonical scalar: %w" [AErr e])
    (ScalarSetCanonicalBytes (drop 32 signature)) in
  let? one := scalarFromUint64 1 in
  let base := ScalarBaseMult one in
  let? challenge := schnorrChallenge base statement context commitment in
  let lhs := response ⊙ base in
  let rhs := (challenge ⊙ statement) ⊕ commitment in
  guard? ElementEqual lhs rhs else Errorf "tally signature does not verify" [];
  Ok tt.

Definition VerifyReturnSig (msg sig pubkey : bytes) : result unit :=
  VerifySchnorr pubkey msg sig.

(** ** The DKG side (dkg.rs) *)
Context `{RL : !RistrettoLaws}.

(** [evaluate_polynomial]. *)
Definition evaluate_polynomial (coefficients : list Scalar) (x : Scalar) : Scalar :=
  foldl (λ acc c, ScalarAdd (smul acc x) c) NewScalar (reverse coefficients).

(** [Dealer::commitments], on the wire. *)
Definition dealer_commitments (id : string) (coefficients : list Scalar) : TrusteeCommitment.t :=
  TrusteeCommitment.Make id ((λ a, ElementBytes (a ⊙ NewGeneratorElement)) <$> coefficients).

(** The share the DKG hands to the trustee at 1-based position [i]. *)
Definition trustee_share (dealers : list (list Scalar)) (i : Z) : Scalar :=
  scalar_sum ((λ f, evaluate_polynomial f (scalar_of_Z i)) <$> dealers).

(** [SchnorrProof::prove] with the basepoint, in wire form. *)
Definition schnorr_sign (x k : Scalar) (context : bytes) : result bytes :=
  let statement := x ⊙ NewGeneratorElement in
  let commitment := k ⊙ NewGeneratorElement in
  let? c := schnorrChallenge NewGeneratorElement statement context commitment in
  Ok (ElementBytes commitment ++ ScalarBytes (ScalarAdd k (smul c x))).
End verify.

#[global] Arguments schnorrChallenge : simpl never.

(** ** Encodings *)
Lemma lp_inj a b x y :
  blen a < max_uint32 → blen b < max_uint32 → lp a ++ x = lp b ++ y → a = b ∧ x = y.
Proof.
  unfold lp. intros Ha Hb E. rewrite <- !(assoc (++)) in E.
  apply app_inj_len in E as [E1 E2]; [|by rewrite !length_le_bytes].
  rewrite !Z.mod_small in E1 by (unfold blen in *; lia).
  apply le_bytes_inj in E1; [|unfold blen, max_uint32 in *; change (8 * Z.of_nat 4) with 32; lia..].
  apply app_inj_len in E2; [done|]. unfold blen in E1. lia.
Qed.

Lemma le_bytes_app_inj n u v x y :
  0 ≤ u < 2 ^ (8 * Z.of_nat n) → 0 ≤ v < 2 ^ (8 * Z.of_nat n) →
  le_bytes n u ++ x = le_bytes n v ++ y → u = v ∧ x = y.
Proof.
  intros Hu Hv E. apply app_inj_len in E as [E ->]; [|by rewrite !length_le_bytes].
  by apply le_bytes_inj in E.
Qed.

Lemma totals_inj ts ts' :
  Forall (λ t, 0 ≤ t < max_uint64) ts → Forall (λ t, 0 ≤ t < max_uint64) ts' →
  mjoin (le_bytes 8 <$> ts) = mjoin (le_bytes 8 <$> ts') → ts = ts'.
Proof.
  intros H. revert ts'. induction H as [|t ts Ht H IH]; intros ts' H' E.
  - destruct ts'; [done | by discriminate E].
  - destruct H' as [|t' ts' Ht' H']; [by discriminate E|].
    cbn [mjoin fmap list_fmap list_join] in E.
    apply (le_bytes_app_inj 8) in E as [-> E]; [|done..]. f_equal. by apply IH.
Qed.

Definition contest_bytes (c : ReturnContest) : bytes :=
  lp (bytes_of_string (ContestID c)) ++ SumC1 c ++ SumC2 c.

Definition contest_ok (c : ReturnContest) : Prop :=
  length (SumC1 c) = 32%nat ∧ length (SumC2 c) = 32%nat.

Lemma append_contests_ok i out cs r :
  append_contests i out cs = Ok r ↔
  Forall contest_ok cs ∧ r = out ++ mjoin (contest_bytes <$> cs).
Proof.
  revert i out. induction cs as [|c cs IH]; intros i out; cbn [append_contests].
  - cbn. rewrite app_nil_r. split; [intros [= <-]; by repeat constructor | by intros [_ ->]].
  - rewrite guard_ok, IH, Forall_cons, andb_true_iff, !Z.eqb_eq.
    unfold contest_ok, blen. cbn. rewrite <- (assoc (++) out). fold (contest_bytes c).
    split; intros; destruct_and!; repeat split; try done; lia.
Qed.

Lemma contests_inj cs cs' :
  Forall contest_ok cs → Forall contest_ok cs' →
  Forall (λ c, slen (ContestID c) < max_uint32) cs →
  Forall (λ c, slen (ContestID c) < max_uint32) cs' →
  length cs = length cs' →
  mjoin (contest_bytes <$> cs) = mjoin (contest_bytes <$> cs') → cs = cs'.
Proof.
  revert cs'. induction cs as [|c cs IH]; intros [|c' cs']; try done.
  rewrite !Forall_cons. intros [[L1 L2] F] [[L1' L2'] F'] [B G] [B' G'] [= Hlen] E.
  cbn [mjoin fmap list_fmap list_join] in E. unfold contest_bytes at 1 3 in E. rewrite <- !(assoc (++)) in E.
  apply lp_inj in E as [E1 E]; [|rewrite blen_bytes_of_string; done..].
  apply app_inj_len in E as [E2 E]; [|congruence].
  apply app_inj_len in E as [E3 E]; [|congruence].
  apply bytes_of_string_inj in E1. f_equal; [destruct c, c'; cbn in *; congruence|].
  by apply IH.
Qed.

(** ** Verification *)
Section theorems.
Context `{RistrettoLaws}.

Add Field sig_fld : scalar_field.

Lemma le_bytes_zero n : le_bytes n 0 = replicate n (byte_of_Z 0).
Proof. induction n as [|n IH]; cbn; [done | by rewrite Z.shiftr_0_l, IH]. Qed.

Lemma le_bytes_split n m v :
  le_bytes (n + m) v = le_bytes n v ++ le_bytes m (Z.shiftr v (8 * Z.of_nat n)).
Proof.
  revert v. induction n as [|n IH]; intros v; cbn [Nat.add le_bytes].
  - by rewrite Z.shiftr_0_r.
  - rewrite IH, Z.shiftr_shiftr by lia. cbn [app]. do 4 f_equal. lia.
Qed.

Lemma scalarFromUint64_ok v :
  0 ≤ v < order → v < max_uint64 → scalarFromUint64 v = Ok (scalar_of_Z v).
Proof.
  intros Hv Hm. unfold scalarFromUint64.
  replace (le_bytes 8 v ++ _) with (ScalarBytes (scalar_of_Z v)).
  { by rewrite scalar_decode_encode. }
  rewrite scalar_little_endian by done. change 32%nat with (8 + 24)%nat.
  rewrite le_bytes_split. f_equal. change (8 * Z.of_nat 8) with 64. unfold max_uint64 in *.
  rewrite Z.shiftr_div_pow2, Z.div_small by lia.
  apply le_bytes_zero.
Qed.

Lemma VerifySchnorr_iff (m : Merlin) vk ctx sig :
  VerifySchnorr vk ctx sig = Ok tt ↔
  ∃ P R s c, vk = ElementBytes P ∧ sig = ElementBytes R ++ ScalarBytes s ∧
    schnorrChallenge NewGeneratorElement P ctx R = Ok c ∧
    s ⊙ NewGeneratorElement = c ⊙ P ⊕ R.
Proof.
  unfold VerifySchnorr. pose proof order_gt_1 as Hord. unfold max_uint64 in *.
  rewrite scalarFromUint64_ok, scalar_of_Z_1 by (unfold max_uint64; lia).
  cbn [wrap_err rbind]. rewrite base_mult, smult_1. split.
  - intros [Hlen H1]%guard_ok. apply Z.eqb_eq in Hlen. unfold blen, signatureLength in Hlen.
    apply rbind_ok in H1 as (P & HP & H1). apply rbind_ok in H1 as (R & HR & H1).
    apply rbind_ok in H1 as (s & Hs & H1). apply rbind_ok in H1 as (c & Hc & H1).
    apply guard_ok in H1 as [Heq _]. apply ElementEqual_spec in Heq.
    autorewrite with saksi in HP, HR, Hs. apply element_canonical in HP, HR.
    apply scalar_canonical in Hs. exists P, R, s, c. repeat (split; [done|]).
    split; [|done]. by rewrite <- HR, <- Hs, take_drop.
  - intros (P & R & s & c & -> & -> & Hc & Heq).
    rewrite take_app_length' by (symmetry; apply element_length).
    rewrite drop_app_length' by (symmetry; apply element_length).
    unfold blen. rewrite length_app, element_length, scalar_length. cbn.
    rewrite !element_decode_encode, scalar_decode_encode. cbn. rewrite Hc. cbn.
    by rewrite Heq, (proj2 (ElementEqual_spec _ _) eq_refl).
Qed.

Lemma schnorr_sign_verifies `{MerlinLaws} x k ctx :
  ∃ sig, schnorr_sign x k ctx = Ok sig ∧
    VerifySchnorr (ElementBytes (x ⊙ NewGeneratorElement)) ctx sig = Ok tt.
Proof.
  unfold schnorr_sign, schnorrChallenge.
  destruct (uniform_extract transcriptLabel
    [("base", ElementBytes NewGeneratorElement);
     ("statement", ElementBytes (x ⊙ NewGeneratorElement)); ("context", ctx);
     ("commitment", ElementBytes (k ⊙ NewGeneratorElement))] "challenge") as [c Hc].
  rewrite Hc. cbn. eexists. split; [done|]. apply VerifySchnorr_iff. do 4 eexists.
  repeat (split; [done|]). split; [unfold schnorrChallenge; by rewrite Hc|].
  apply response_verifies.
Qed.

(** Horner over commitments evaluates the polynomial in the exponent. *)
Lemma horner_run x j acc (l : list (nat * Scalar)) :
  rfoldM (horner_step x j) (acc ⊙ NewGeneratorElement)
    ((λ ka, (ka.1, ElementBytes (ka.2 ⊙ NewGeneratorElement))) <$> l) =
  Ok (foldl (λ acc c, ScalarAdd (smul acc x) c) acc l.*2 ⊙ NewGeneratorElement).
Proof.
  revert acc. induction l as [|[k a] l IH]; intros acc; cbn; [done|].
  unfold horner_step at 1. cbn. rewrite element_decode_encode. cbn.
  rewrite smult_mul, <- smult_add_l, IH. do 4 f_equal. ring.
Qed.

Lemma imap_fst_snd {A} (l : list A) : (imap pair l).*2 = l.
Proof. rewrite fmap_imap. etrans; [apply (imap_const id) | apply list_fmap_id]. Qed.

Lemma imap_pair_fmap {A B} (f : A → B) (l : list A) :
  imap pair (f <$> l) = (λ ka, (ka.1, f ka.2)) <$> imap pair l.
Proof. rewrite imap_fmap, fmap_imap. by apply imap_ext. Qed.

Lemma dealer_step_ok x sum j id coeffs :
  coeffs ≠ [] →
  dealer_step x sum (j, dealer_commitments id coeffs) =
  Ok (sum ⊕ evaluate_polynomial coeffs x ⊙ NewGeneratorElement).
Proof.
  intros Hne. unfold dealer_step, dealer_commitments; cbn [TrusteeCommitment.CoefficientCommitments snd fst].
  rewrite length_fmap. destruct (Z.eqb_spec (Z.of_nat (length coeffs)) 0).
  { destruct coeffs; [done|]. cbn in *; lia. }
  cbn [negb]. rewrite imap_pair_fmap, <- fmap_reverse, <- (smult_0 NewGeneratorElement), horner_run.
  cbn. unfold evaluate_polynomial. rewrite fmap_reverse, imap_fst_snd. done.
Qed.

Lemma dealers_run x acc (l : list (nat * (string * list Scalar))) :
  Forall (λ d, d.2.2 ≠ []) l →
  rfoldM (dealer_step x) acc ((λ d, (d.1, dealer_commitments d.2.1 d.2.2)) <$> l) =
  Ok (acc ⊕ scalar_sum ((λ d, evaluate_polynomial d.2.2 x) <$> l) ⊙ NewGeneratorElement).
Proof.
  intros Hl. revert acc. induction Hl as [|[j [id f]] l Hf Hl IH]; intros acc; cbn [rfoldM fmap list_fmap].
  - by rewrite scalar_sum_nil, smult_0, eadd_id.
  - cbn [fst snd] in *. rewrite dealer_step_ok by done. cbn [rbind].
    by rewrite IH, scalar_sum_cons, smult_add_l, eadd_assoc.
Qed.

Lemma index_from_lookup i ids id k :
  index_from i ids id = Some k → ∃ n : nat, k = i + Z.of_nat n ∧ ids !! n = Some id.
Proof.
  revert i. induction ids as [|x ids IH]; intros i; cbn [index_from]; [done|].
  case_bool_decide as E.
  - intros [= <-]. exists 0%nat. subst. split; [lia | done].
  - intros (n & -> & Hn)%IH. exists (S n). split; [lia | done].
Qed.

Lemma index_from_NoDup i ids id n :
  NoDup ids → ids !! n = Some id → index_from i ids id = Some (i + Z.of_nat n).
Proof.
  intros Hnd. revert i n. induction Hnd as [|x ids Hx Hnd IH]; intros i n Hn; [done|].
  cbn [index_from]. destruct n as [|n].
  - injection Hn as ->. rewrite bool_decide_true by done. f_equal. lia.
  - case_bool_decide as E.
    + subst. destruct Hx. by eapply list_elem_of_lookup_2.
    + rewrite (IH _ n) by done. f_equal. lia.
Qed.

Lemma constant_terms_run acc (l : list (nat * (string * list Scalar))) :
  Forall (λ d, d.2.2 ≠ []) l →
  rfoldM constant_term_step acc ((λ d, (d.1, dealer_commitments d.2.1 d.2.2)) <$> l) =
  Ok (acc ⊕ scalar_sum ((λ d, default NewScalar (head d.2.2)) <$> l) ⊙ NewGeneratorElement).
Proof.
  intros Hl. revert acc. induction Hl as [|[j [id f]] l Hf Hl IH]; intros acc; cbn [rfoldM fmap list_fmap].
  - by rewrite scalar_sum_nil, smult_0, eadd_id.
  - cbn [fst snd] in *. destruct f as [|a f]; [done|].
    unfold constant_term_step at 1; cbn. rewrite element_decode_encode. cbn.
    by rewrite IH, scalar_sum_cons, smult_add_l, eadd_assoc.
Qed.

Lemma evaluate_polynomial_at_0 f :
  evaluate_polynomial f NewScalar = default NewScalar (head f).
Proof.
  unfold evaluate_polynomial. destruct f as [|a f]; [done|].
  rewrite reverse_cons, foldl_app. cbn. ring.
Qed.
End theorems.

(** for a fixed election id the signed tally bytes determine the totals:
    two lists of uint64 totals with the same [TallySigContext] are equal. *)
Theorem TallySigContext_injective eid ts ts' :
  Forall (λ t, 0 ≤ t < max_uint64) ts → Forall (λ t, 0 ≤ t < max_uint64) ts' →
  TallySigContext eid ts = TallySigContext eid ts' → ts = ts'.
Proof.
  intros H H' E. unfold TallySigContext in E.
  apply app_inv_head, app_inv_head in E. by apply totals_inj.
Qed.

Lemma TallySigContext_injective_witness :
  [3; 5] = [3; 5].
Proof.
  apply (TallySigContext_injective "e" [3; 5] [3; 5]);
    [repeat constructor; done..|reflexivity].
Defined.

(** The precinct-return message is injective: when ids are shorter than
    2^32 bytes, there are fewer than 2^32 contests and the counters fit 64
    bits, equal messages mean equal returns, so a signature covers one return
    only. *)
Theorem ReturnSigMessage_injective e p b th n d cs e' p' b' th' n' d' cs' m :
  slen e < max_uint32 → slen p < max_uint32 → slen e' < max_uint32 → slen p' < max_uint32 →
  0 ≤ b < max_uint64 → 0 ≤ b' < max_uint64 → 0 ≤ n < max_uint64 → 0 ≤ n' < max_uint64 →
  Z.of_nat (length cs) < max_uint32 → Z.of_nat (length cs') < max_uint32 →
  Forall (λ c, slen (ContestID c) < max_uint32) cs →
  Forall (λ c, slen (ContestID c) < max_uint32) cs' →
  ReturnSigMessage e p b th n d cs = Ok m → ReturnSigMessage e' p' b' th' n' d' cs' = Ok m →
  (e, p, b, th, n, d, cs) = (e', p', b', th', n', d', cs').
Proof.
  rewrite <- !blen_bytes_of_string.
  intros He Hp He' Hp' Hb Hb' Hn Hn' Hl Hl' Hi Hi' M1 M2. unfold ReturnSigMessage in *.
  apply guard_ok in M1 as [[L1 L2]%andb_true_iff M1], M2 as [[L1' L2']%andb_true_iff M2].
  apply Z.eqb_eq in L1, L2, L1', L2'. unfold blen in L1, L2, L1', L2'.
  apply append_contests_ok in M1 as [F1 ->], M2 as [F2 E]. rewrite <- !(assoc (++)) in E.
  apply app_inv_head in E. apply lp_inj in E as [E1 E]; [|done..].
  apply lp_inj in E as [E2 E]; [|done..].
  apply (le_bytes_app_inj 8) in E as [E3 E]; [|done..].
  apply app_inj_len in E as [E4 E]; [|lia].
  apply (le_bytes_app_inj 8) in E as [E5 E]; [|done..].
  apply app_inj_len in E as [E6 E]; [|lia].
  rewrite !Z.mod_small in E by lia.
  apply (le_bytes_app_inj 4) in E as [E7 E]; [|change (2 ^ _) with max_uint32; lia..].
  apply bytes_of_string_inj in E1, E2. apply contests_inj in E; [|done..|lia].
  congruence.
Qed.

(** A one-contest return and the bytes its authority signs. *)
Definition wit_digest : bytes := replicate 32 x07.

Definition wit_contests : list ReturnContest :=
  [MkReturnContest "president/0" wit_digest wit_digest].

Definition wit_message : bytes :=
  match ReturnSigMessage "e" "p01" 9 wit_digest 2 wit_digest wit_contests with
  | Ok m => m
  | Err _ => []
  end.

Lemma ReturnSigMessage_injective_witness :
  ReturnSigMessage "e" "p01" 9 wit_digest 2 wit_digest wit_contests = Ok wit_message ∧
  ("e", "p01", 9, wit_digest, 2, wit_digest, wit_contests) =
  ("e", "p01", 9, wit_digest, 2, wit_digest, wit_contests).
Proof.
  split; [vm_compute; reflexivity|].
  apply (ReturnSigMessage_injective "e" "p01" 9 wit_digest 2 wit_digest wit_contests
    "e" "p01" 9 wit_digest 2 wit_digest wit_contests wit_message);
    [reflexivity..| | | | | | | | | |]; try (unfold max_uint64; lia);
    try reflexivity; try (constructor; [reflexivity | constructor]);
    vm_compute; reflexivity.
Defined.

(** the derived keys are the shares in the exponent: on the transcript of
    dealers with polynomials [fs], the election key is [(sum_j f_j(0))*G], and
    the verification key of the trustee at position [i] of the trustee list is
    [(sum_j f_j(i+1))*G], the key of exactly the share the DKG gives it. *)
Theorem derived_keys_correct `{RistrettoLaws} eid t ids (fs : list (string * list Scalar)) i id :
  fs ≠ [] → Forall (λ f, f.2 ≠ []) fs → NoDup ids → ids !! i = Some id →
  Z.of_nat (length ids) < order → Z.of_nat (length ids) < max_uint64 →
  let transcript := DKGTranscript.Make WireVersion eid t
    ((λ f, dealer_commitments f.1 f.2) <$> fs) [] in
  deriveElectionPublicKey transcript =
    Ok (ElementBytes (trustee_share fs.*2 0 ⊙ NewGeneratorElement)) ∧
  DeriveVerificationKey transcript ids id =
    Ok (ElementBytes (trustee_share fs.*2 (Z.of_nat i + 1) ⊙ NewGeneratorElement)).
Proof.
  intros Hne Hfs Hnd Hi Hord Hmax transcript.
  assert (Forall (λ d : nat * (string * list Scalar), d.2.2 ≠ []) (imap pair fs)) as Hl.
  { apply Forall_forall. intros [k f] Hin. rewrite Forall_forall in Hfs. apply Hfs.
    rewrite <- (imap_fst_snd fs). by apply (list_elem_of_fmap_2 snd) in Hin. }
  assert (negb (Z.of_nat (length (DKGTranscript.TrusteeCommitments transcript)) =? 0) = true) as Hg.
  { by destruct fs. }
  assert (∀ g : list Scalar → Scalar,
    (λ d : nat * (string * list Scalar), g d.2.2) <$> imap pair fs = g <$> fs.*2) as Hmap.
  { intros g. rewrite <- (imap_fst_snd fs) at 2. by rewrite <- !list_fmap_compose. }
  split.
  - unfold deriveElectionPublicKey. rewrite Hg. cbn [DKGTranscript.TrusteeCommitments transcript].
    rewrite imap_pair_fmap, constant_terms_run by done. cbn [rbind]. rewrite eadd_id_l.
    rewrite (Hmap (λ f, default NewScalar (head f))).
    unfold trustee_share. do 4 f_equal. apply list_fmap_ext. intros _ f _.
    by rewrite scalar_of_Z_0, evaluate_polynomial_at_0.
  - unfold DeriveVerificationKey. pose proof (lookup_lt_Some _ _ _ Hi).
    rewrite (index_from_NoDup _ _ _ i), Hg by done. cbn [DKGTranscript.TrusteeCommitments transcript].
    rewrite scalarFromUint64_ok by lia. cbn [rbind].
    rewrite imap_pair_fmap, dealers_run by done. cbn [rbind]. rewrite eadd_id_l.
    rewrite (Hmap (λ f, evaluate_polynomial f (scalar_of_Z (1 + Z.of_nat i)))).
    by rewrite (Z.add_comm 1).
Qed.

Lemma derived_keys_correct_witness :
  let fs := [("1", [f2; f3]); ("2", [f1; f5])] in
  let transcript := DKGTranscript.Make WireVersion "e" 2
    ((λ f, dealer_commitments f.1 f.2) <$> fs) [] in
  deriveElectionPublicKey transcript = Ok (ElementBytes (trustee_share fs.*2 0 ⊙ f1)) ∧
  DeriveVerificationKey transcript ["b"; "a"] "a" =
    Ok (ElementBytes (trustee_share fs.*2 (Z.of_nat 1 + 1) ⊙ f1)).
Proof.
  apply (derived_keys_correct (H := toy_group) "e" 2 ["b"; "a"] [("1", [f2; f3]); ("2", [f1; f5])] 1 "a");
    [discriminate | repeat constructor; discriminate | by apply (bool_decide_unpack _)
    | reflexivity | reflexivity | reflexivity].
Defined.

(** tally signatures: the signature a trustee makes with its share over a
    context verifies under the key derived for it, and accepting one nonce
    commitment under two different challenges reveals the signer's share. *)
Theorem VerifySchnorr_correct `{RistrettoLaws} (m1 m2 : Merlin) :
  (∀ (L : @MerlinLaws m1) x k ctx, ∃ sig, schnorr_sign (H0 := m1) x k ctx = Ok sig ∧
     VerifySchnorr (H0 := m1) (ElementBytes (x ⊙ NewGeneratorElement)) ctx sig = Ok tt) ∧
  (∀ P ctx1 ctx2 sig1 sig2,
     VerifySchnorr (H0 := m1) (ElementBytes P) ctx1 sig1 = Ok tt →
     VerifySchnorr (H0 := m2) (ElementBytes P) ctx2 sig2 = Ok tt →
     take 32 sig1 = take 32 sig2 →
     (∀ R, ElementBytes R = take 32 sig1 →
       schnorrChallenge (H0 := m1) NewGeneratorElement P ctx1 R ≠
       schnorrChallenge (H0 := m2) NewGeneratorElement P ctx2 R) →
     ∃ x, P = x ⊙ NewGeneratorElement).
Proof.
  split; [intros L x k ctx; apply schnorr_sign_verifies|].
  intros P ctx1 ctx2 sig1 sig2 V1 V2 Et Hne.
  apply VerifySchnorr_iff in V1 as (P1 & R1 & s1 & c1 & E1 & -> & Hc1 & Q1).
  apply VerifySchnorr_iff in V2 as (P2 & R2 & s2 & c2 & E2 & -> & Hc2 & Q2).
  rewrite !take_app_length' in Et by (symmetry; apply element_length).
  rewrite take_app_length' in Hne by (symmetry; apply element_length).
  apply element_bytes_inj in E1, E2, Et. subst. specialize (Hne _ eq_refl).
  eexists. apply (extract_witness _ _ _ _ _ _ _ Q1 Q2). congruence.
Qed.

Lemma VerifySchnorr_correct_witness :
  ∃ sig, schnorr_sign (H0 := toy_merlin 2) f3 f5 [x01] = Ok sig ∧
    VerifySchnorr (H0 := toy_merlin 2) (F7_bytes f3) [x01] sig = Ok tt.
Proof.
  exact (proj1 (VerifySchnorr_correct (toy_merlin 2) (toy_merlin 3)) (toy_merlin_laws 2) f3 f5 [x01]).
Defined.

End SigVerify.
