(* ===== verification/Contract.v ===== *)
(** * The bulletin-board chaincode

    [chaincode/contract.go]: every transaction of [SmartContract] as a
    computation of the transaction monad [M], with its gates in the order the
    code applies them.  An error returned by [rejectAt] carries its gate id in
    the format prefix, as in the source. *)
From S2P Require Import Prelude Fabric Hex Wire Ristretto.
From S2P Require Import CdsVerify CredVerify SelectionVerify SigVerify.

(** [encoding/json], where results are returned as JSON text. *)
Record NullifierPage := MkNullifierPage { Nullifiers : list string; NextBookmark : string }.

Class Json := {
  MarshalNullifierPage : NullifierPage → result string;
  UnmarshalNullifierPage : string → result NullifierPage;
  MarshalStrings : list string → result string;
  UnmarshalStrings : string → result (list string)
}.

Module Contract.

Definition electionIndex : string := "election".

Definition dkgIndex : string := "dkg".

Definition statusIndex : string := "status".

Definition ballotIndex : string := "ballot".

Definition nullifierIndex : string := "nullifier".

Definition partialDecIndex : string := "partialdec".

Definition tallyIndex : string := "tally".

Definition ciphertextLen : nat := 32.

Definition signaturePrefixLen : nat := 64.

Definition electionStatusOpen : string := "open".

Definition electionStatusClosed : string := "closed".

Definition maxNullifierPageSize : Z := 10000.

Definition maxBallotBatchSize : Z := 500.

(** The indices of the contests a ballot in [positionID] covers; an empty
    position covers all of them (legacy whole ballot). *)
Definition contestIndicesForPosition (contestIDs : list string) (positionID : string) :
    list nat :=
  if bool_decide (positionID = "") then seq 0 (length contestIDs)
  else
    let prefix := positionID +:+ "/" in
    (filter (λ ic : nat * string, has_prefix ic.2 prefix = true) (imap pair contestIDs)).*1.

Definition positionedContests (contestIDs : list string) : bool :=
  existsb (λ c, str_contains c "/") contestIDs.

Definition rejectAt (gate format : string) (args : list goarg) : goerr :=
  Errorf ("gate=" +:+ gate +:+ ": " +:+ format) args.

Definition contains (haystack : list string) (needle : string) : bool :=
  existsb (λ s, bool_decide (s = needle)) haystack.

Section contract.
Context `{FabricShim, Proto, Ristretto, Merlin, Json}.

(** ** Small helpers *)
Definition build_key (what : string) (ty : string) (attrs : list string) : M string :=
  mwrap (errw what) (mlift (CreateCompositeKey ty attrs)).

Definition read_key (what key : string) : M (option bytes) :=
  mwrap (errw what) (GetState key).

Definition write_key (what key : string) (v : bytes) : M unit :=
  mwrap (errw what) (PutState key v).

(** [findElection]: (nil, nil) for a missing election. *)
Definition findElection (electionID : string) : M (option ElectionParameters.t) :=
  let! key := build_key "build election key: %w" electionIndex [electionID] in
  let! raw := read_key "read election state: %w" key in
  match raw with
  | None => mret None
  | Some raw =>
      let! params := mwrap (errw "decode stored election parameters: %w")
                       (mlift (UnmarshalElectionParameters raw)) in
      mret (Some params)
  end.

Definition loadElection (electionID : string) : M ElectionParameters.t :=
  let! params := findElection electionID in
  match params with
  | None => mfail (Errorf "no election found with id %q" [AStr electionID])
  | Some params => mret params
  end.

(** ** SubmitBallot *)
Fixpoint check_ciphertexts (i : Z) (cts : list Ciphertext.t) : result unit :=
  match cts with
  | [] => Ok tt
  | ct :: cts =>
      if negb (length (Ciphertext.Pad ct) =? ciphertextLen)%nat
         || negb (length (Ciphertext.Data ct) =? ciphertextLen)%nat
      then Err (rejectAt "shape" "ciphertext %d is malformed: pad=%d data=%d bytes, want %d each"
             [AInt i; AInt (blen (Ciphertext.Pad ct)); AInt (blen (Ciphertext.Data ct));
              AInt (Z.of_nat ciphertextLen)])
      else check_ciphertexts (i + 1) cts
  end.

(** The checks that need no ledger: version, election id, ciphertext shapes,
    a presentation with a nullifier, and the signature prefix. *)
Definition check_ballot_shape (ballot : Ballot.t) : result CredentialPresentation.t :=
  if negb (Ballot.Version ballot =? WireVersion)
  then Err (rejectAt "shape" "unsupported ballot version %d, want %d"
         [AInt (Ballot.Version ballot); AInt WireVersion])
  else if bool_decide (Ballot.ElectionId ballot = "")
  then Err (rejectAt "shape" "ballot is missing an election id" [])
  else if (length (Ballot.Ciphertexts ballot) =? 0)%nat
  then Err (rejectAt "shape" "ballot has no ciphertexts" [])
  else
  let? _ := check_ciphertexts 0 (Ballot.Ciphertexts ballot) in
  match Ballot.CredentialPresentation ballot with
  | None => Err (rejectAt "shape" "ballot is missing a credential-presentation nullifier" [])
  | Some presentation =>
      if (length (NullifierValue (Some presentation)) =? 0)%nat
      then Err (rejectAt "shape" "ballot is missing a credential-presentation nullifier" [])
      else
      if (length (CredentialPresentation.PresentationProof presentation) <? signaturePrefixLen)%nat
      then Err (rejectAt "shape"
             "ballot credential presentation_proof is %d bytes, shorter than the %d-byte signature prefix"
             [AInt (blen (CredentialPresentation.PresentationProof presentation));
              AInt (Z.of_nat signaturePrefixLen)])
      else Ok presentation
  end.

(** The issuer binding and the issuer's signature on the credential. *)
Definition check_credential (electionID : string) (params : option ElectionParameters.t)
    (presentation : CredentialPresentation.t) : result unit :=
  let want := ParamsIssuerPublicKey params in
  let proof := CredentialPresentation.PresentationProof presentation in
  if (0 <? blen want) && negb (bytes_equal want (CredentialPresentation.IssuerPublicKey presentation))
  then Err (rejectAt "issuer" "credential issuer key is not the issuer bound to election %q"
         [AStr electionID])
  else
  wrap_err (λ e, rejectAt "credential" "credential signature verification failed: %w" [AErr e])
    (CredVerify.VerifyIssuerSignature
       (CredentialPresentation.IssuerPublicKey presentation)
       (CredentialPresentation.CredentialCommitment presentation)
       (take ciphertextLen proof)
       (take (signaturePrefixLen - ciphertextLen) (drop ciphertextLen proof))).

(** The contests of the ballot's position, and the counts it must carry. *)
Definition check_position (ballot : Ballot.t) (params : ElectionParameters.t) :
    result (list nat) :=
  let contestIDs := ElectionParameters.ContestIds params in
  if bool_decide (Ballot.PositionId ballot = "")
     && (0 <? blen (ElectionParameters.IssuerPublicKey params))
     && positionedContests contestIDs
  then Err (rejectAt "shape" "ballot names no position, but election %q's contests are per position"
         [AStr (Ballot.ElectionId ballot)])
  else
  let contestIdxs := contestIndicesForPosition contestIDs (Ballot.PositionId ballot) in
  if (length contestIdxs =? 0)%nat
  then Err (rejectAt "shape" "ballot position %q matches no contest in election %q"
         [AStr (Ballot.PositionId ballot); AStr (Ballot.ElectionId ballot)])
  else
  if negb (length (Ballot.Ciphertexts ballot) =? length contestIdxs)%nat
     || negb (length (Ballot.WellFormednessProofs ballot) =? length contestIdxs)%nat
  then Err (rejectAt "shape"
         "ballot (position %q) has %d ciphertexts / %d well-formedness proofs, expected %d for that position in election %q"
         [AStr (Ballot.PositionId ballot);
          AInt (Z.of_nat (length (Ballot.Ciphertexts ballot)));
          AInt (Z.of_nat (length (Ballot.WellFormednessProofs ballot)));
          AInt (Z.of_nat (length contestIdxs)); AStr (Ballot.ElectionId ballot)])
  else Ok contestIdxs.

Definition wire_branch (b : CDSProofBranch.t) : CdsVerify.Branch :=
  CdsVerify.MkBranch (CDSProofBranch.CommitmentA b) (CDSProofBranch.CommitmentB b)
    (CDSProofBranch.Challenge b) (CDSProofBranch.Response b).

(** One turn of the contest loop: [local] indexes the ballot's ciphertexts and
    proofs, [globalIdx] the election's contests.  An index out of range panics
    in Go. *)
Definition verify_contest (ballot : Ballot.t) (contestIDs : list string)
    (electionPK : bytes) (lg : nat * nat) : result unit :=
  match contestIDs !! lg.2, Ballot.Ciphertexts ballot !! lg.1,
        Ballot.WellFormednessProofs ballot !! lg.1 with
  | Some contestID, Some ciphertext, Some proofMsg =>
      if negb (CDSProof.Version proofMsg =? WireVersion)
      then Err (rejectAt "shape" "contest %q: unsupported CDS proof version %d, want %d"
             [AStr contestID; AInt (CDSProof.Version proofMsg); AInt WireVersion])
      else
      wrap_err (λ e, rejectAt "cds" "contest %q CDS well-formedness proof failed: %w"
                       [AStr contestID; AErr e])
        (CdsVerify.VerifyBinaryCDS (Ballot.ElectionId ballot) contestID
           (NullifierValue (Ballot.CredentialPresentation ballot)) electionPK
           (Ciphertext.Pad ciphertext) (Ciphertext.Data ciphertext)
           (wire_branch <$> CDSProof.Branches proofMsg))
  | _, _, _ => Err (Errorf "panic: index out of range" [])
  end.

Definition verifySelection (ballot : Ballot.t) (electionPK : bytes) : result unit :=
  match Ballot.SelectionProof ballot with
  | None => Err (Errorf "ballot carries no selection proof" [])
  | Some proofMsg =>
      if negb (ChaumPedersenProof.Version proofMsg =? WireVersion)
      then Err (Errorf "unsupported selection proof version %d, want %d"
             [AInt (ChaumPedersenProof.Version proofMsg); AInt WireVersion])
      else
      SelectionVerify.Verify (Ballot.ElectionId ballot) (Ballot.PositionId ballot)
        (NullifierValue (Ballot.CredentialPresentation ballot)) electionPK
        (Ciphertext.Pad <$> Ballot.Ciphertexts ballot)
        (Ciphertext.Data <$> Ballot.Ciphertexts ballot)
        (SelectionVerify.MkProof (ChaumPedersenProof.CommitmentA proofMsg)
           (ChaumPedersenProof.CommitmentB proofMsg)
           (ChaumPedersenProof.Challenge proofMsg) (ChaumPedersenProof.Response proofMsg))
  end.

(** The cryptographic gates on the ballot's ciphertexts. *)
Definition verify_ciphertexts (ballot : Ballot.t) (params : ElectionParameters.t)
    (contestIdxs : list nat) (electionPK : bytes) : result unit :=
  let? _ := riter (verify_contest ballot (ElectionParameters.ContestIds params) electionPK)
              (imap pair contestIdxs) in
  if 0 <? blen (ElectionParameters.IssuerPublicKey params)
  then wrap_err (λ e, rejectAt "selection" "position %q selection proof failed: %w"
                        [AStr (Ballot.PositionId ballot); AErr e])
         (verifySelection ballot electionPK)
  else Ok tt.

Definition SubmitBallot (ballotHex : string) : M unit :=
  let! raw := mlift (wrap_err (λ e, rejectAt "decode" "ballot is not valid hex: %w" [AErr e])
                       (DecodeString ballotHex)) in
  let! ballot := mlift (wrap_err (λ e, rejectAt "decode" "decode ballot: %w" [AErr e])
                          (UnmarshalBallot raw)) in
  let! presentation := mlift (check_ballot_shape ballot) in
  let electionID := Ballot.ElectionId ballot in
  let nullifier := EncodeToString (NullifierValue (Some presentation)) in
  let! params := findElection electionID in
  mlift (check_credential electionID params presentation) ;;
  let! statusKey := build_key "build status key: %w" statusIndex [electionID] in
  let! status := read_key "read election status: %w" statusKey in
  match status with
  | None => mfail (rejectAt "election-exists" "election %q does not exist" [AStr electionID])
  | Some status =>
  if negb (bool_decide (string_of_bytes status = electionStatusOpen))
  then mfail (rejectAt "election-open" "election %q is not open for ballots" [AStr electionID])
  else
  let! nullifierKey := build_key "build nullifier key: %w" nullifierIndex [electionID; nullifier] in
  let! spent := read_key "read nullifier state: %w" nullifierKey in
  if bool_decide (is_Some spent)
  then mfail (rejectAt "nullifier" "nullifier already spent in election %q (double vote)"
                [AStr electionID])
  else
  match params with
  | None => mfail (Errorf "election %q has a status but no stored parameters" [AStr electionID])
  | Some params =>
  let! contestIdxs := mlift (check_position ballot params) in
  let! dkgKey := build_key "build DKG key: %w" dkgIndex [electionID] in
  let! dkgRaw := read_key "read DKG transcript state: %w" dkgKey in
  match dkgRaw with
  | None => mfail (rejectAt "dkg-missing"
      "election %q has no published DKG transcript; ballot well-formedness cannot be verified"
      [AStr electionID])
  | Some dkgRaw =>
  let! transcript := mlift (wrap_err (errw "decode stored DKG transcript: %w")
                              (UnmarshalDKGTranscript dkgRaw)) in
  let! electionPK := mlift (wrap_err (errw "derive election public key: %w")
                              (SigVerify.deriveElectionPublicKey transcript)) in
  mlift (verify_ciphertexts ballot params contestIdxs electionPK) ;;
  let! ballotKey := build_key "build ballot key: %w" ballotIndex [electionID; nullifier] in
  write_key "store ballot: %w" ballotKey raw ;;
  write_key "mark nullifier spent: %w" nullifierKey [byte_of_Z 1]
  end end end.

(** ** Reads *)
Definition GetStateByPartialCompositeKeyWithPagination (ty : string) (attrs : list string)
    (pageSize : Z) (bookmark : string) : M (list (result string) * option string) :=
  λ s t, match QueryPage (world s) ty attrs pageSize bookmark with
         | Ok r => Ok (r, t)
         | Err e => Err e
         end.

(** One record of the page: [Next], then [SplitCompositeKey]. *)
Definition page_entry (kv : result string) : result string :=
  let? key := wrap_err (errw "read nullifier record: %w") kv in
  let? ta := wrap_err (errw "split nullifier key: %w") (SplitCompositeKey key) in
  match ta.2 with
  | [_; nullifier] => Ok nullifier
  | attrs => Err (Errorf "nullifier key has %d attributes, want 2 (electionID, nullifier)"
                    [AInt (Z.of_nat (length attrs))])
  end.

Definition ListNullifiers (electionID : string) (pageSize : Z) (bookmark : string) : M string :=
  if pageSize <=? 0
  then mfail (Errorf "pageSize must be positive, got %d" [AInt pageSize])
  else if maxNullifierPageSize <? pageSize
  then mfail (Errorf "pageSize %d exceeds the %d cap (peer totalQueryLimit)"
                [AInt pageSize; AInt maxNullifierPageSize])
  else
  let! r := mwrap (λ e, Errorf "query nullifiers for election %q: %w" [AStr electionID; AErr e])
              (GetStateByPartialCompositeKeyWithPagination nullifierIndex [electionID]
                 pageSize bookmark) in
  let! nullifiers := mlift (rmapM page_entry r.1) in
  mlift (wrap_err (errw "encode nullifier page: %w")
    (MarshalNullifierPage (MkNullifierPage nullifiers (default "" r.2)))).

(** The shared shape of the single-record getters. *)
Definition get_record (what_key what_state ty : string) (attrs : list string) (missing : goerr) :
    M string :=
  let! key := build_key what_key ty attrs in
  let! raw := read_key what_state key in
  match raw with
  | None => mfail missing
  | Some raw => mret (EncodeToString raw)
  end.

Definition GetBallot (electionID nullifier : string) : M string :=
  get_record "build ballot key: %w" "read ballot state: %w" ballotIndex [electionID; nullifier]
    (Errorf "no ballot found for election %q nullifier %q" [AStr electionID; AStr nullifier]).

(** One turn of the [GetBallots] loop; the hex of a missing ballot is empty. *)
Definition read_ballot (electionID nullifier : string) : M string :=
  let! ballotKey := build_key "build ballot key: %w" ballotIndex [electionID; nullifier] in
  let! raw := read_key "read ballot state: %w" ballotKey in
  mret (EncodeToString (default [] raw)).

Definition GetBallots (electionID nullifiersJSON : string) : M string :=
  let! nullifiers := mlift (wrap_err (errw "decode nullifier list: %w")
                              (UnmarshalStrings nullifiersJSON)) in
  if maxBallotBatchSize <? Z.of_nat (length nullifiers)
  then mfail (Errorf "nullifier count %d exceeds the %d cap per GetBallots page"
                [AInt (Z.of_nat (length nullifiers)); AInt maxBallotBatchSize])
  else
  let! ballots := mmapM (read_ballot electionID) nullifiers in
  mlift (wrap_err (errw "encode ballot page: %w") (MarshalStrings ballots)).

Definition GetElection (electionID : string) : M string :=
  get_record "build election key: %w" "read election state: %w" electionIndex [electionID]
    (Errorf "no election found with id %q" [AStr electionID]).

Definition GetDKGTranscript (electionID : string) : M string :=
  get_record "build DKG key: %w" "read DKG state: %w" dkgIndex [electionID]
    (Errorf "no DKG transcript found for election %q" [AStr electionID]).

Definition GetPartialDecryption (electionID contestID trusteeID : string) : M string :=
  get_record "build partial decryption key: %w" "read partial decryption state: %w"
    partialDecIndex [electionID; contestID; trusteeID]
    (Errorf "no partial decryption found for election %q contest %q trustee %q"
       [AStr electionID; AStr contestID; AStr trusteeID]).

Definition GetTally (electionID : string) : M string :=
  get_record "build tally key: %w" "read tally state: %w" tallyIndex [electionID]
    (Errorf "no tally found for election %q" [AStr electionID]).

Definition GetElectionStatus (electionID : string) : M string :=
  let! statusKey := build_key "build status key: %w" statusIndex [electionID] in
  let! status := read_key "read election status: %w" statusKey in
  match status with
  | None => mfail (Errorf "no election found with id %q" [AStr electionID])
  | Some status => mret (string_of_bytes status)
  end.

(** ** Election lifecycle *)
Definition check_params (params : ElectionParameters.t) : result unit :=
  if negb (ElectionParameters.Version params =? WireVersion)
  then Err (Errorf "unsupported election parameters version %d, want %d"
         [AInt (ElectionParameters.Version params); AInt WireVersion])
  else if bool_decide (ElectionParameters.ElectionId params = "")
  then Err (Errorf "election parameters are missing an election id" [])
  else if (length (ElectionParameters.ContestIds params) =? 0)%nat
  then Err (Errorf "election has no contests" [])
  else
  let trustees := Z.of_nat (length (ElectionParameters.TrusteeIds params)) in
  if trustees =? 0
  then Err (Errorf "election has no trustees" [])
  else
  let threshold := ElectionParameters.Threshold params in
  if (threshold <? 1) || (trustees <? threshold)
  then Err (Errorf "election threshold %d is out of range 1..%d" [AInt threshold; AInt trustees])
  else
  let k := ElectionParameters.IssuerPublicKey params in
  if 0 <? blen k then
    let? _ := wrap_err (λ e, Errorf
        "election issuer_public_key is not a canonical 32-byte ristretto255 point: %w" [AErr e])
      (ElementSetCanonicalBytes k) in
    Ok tt
  else Ok tt.

Definition CreateElection (paramsHex : string) : M unit :=
  let! raw := mlift (wrap_err (errw "election parameters are not valid hex: %w")
                       (DecodeString paramsHex)) in
  let! params := mlift (wrap_err (errw "decode election parameters: %w")
                          (UnmarshalElectionParameters raw)) in
  mlift (check_params params) ;;
  let electionID := ElectionParameters.ElectionId params in
  let! key := build_key "build election key: %w" electionIndex [electionID] in
  let! existing := read_key "read election state: %w" key in
  if bool_decide (is_Some existing)
  then mfail (Errorf "election %q already exists" [AStr electionID])
  else
  write_key "store election: %w" key raw ;;
  let! statusKey := build_key "build status key: %w" statusIndex [electionID] in
  write_key "set election status: %w" statusKey (bytes_of_string electionStatusOpen).

Definition check_transcript (transcript : DKGTranscript.t) : result unit :=
  if negb (DKGTranscript.Version transcript =? WireVersion)
  then Err (rejectAt "shape" "unsupported DKG transcript version %d, want %d"
         [AInt (DKGTranscript.Version transcript); AInt WireVersion])
  else if bool_decide (DKGTranscript.ElectionId transcript = "")
  then Err (rejectAt "shape" "DKG transcript is missing an election id" [])
  else if (length (DKGTranscript.TrusteeCommitments transcript) =? 0)%nat
  then Err (rejectAt "shape" "DKG transcript has no trustee commitments" [])
  else Ok tt.

Definition check_consistency (transcript : DKGTranscript.t) (params : ElectionParameters.t) :
    result unit :=
  if negb (DKGTranscript.Threshold transcript =? ElectionParameters.Threshold params)
  then Err (rejectAt "dkg-consistency"
         "DKG transcript threshold %d does not match election threshold %d"
         [AInt (DKGTranscript.Threshold transcript); AInt (ElectionParameters.Threshold params)])
  else
  let got := length (DKGTranscript.TrusteeCommitments transcript) in
  let want := length (ElectionParameters.TrusteeIds params) in
  if negb (got =? want)%nat
  then Err (rejectAt "dkg-consistency"
         "DKG transcript has %d trustee commitments, election has %d trustees"
         [AInt (Z.of_nat got); AInt (Z.of_nat want)])
  else Ok tt.

Definition PublishDKGTranscript (transcriptHex : string) : M unit :=
  let! raw := mlift (wrap_err (λ e, rejectAt "decode" "DKG transcript is not valid hex: %w" [AErr e])
                       (DecodeString transcriptHex)) in
  let! transcript := mlift (wrap_err (λ e, rejectAt "decode" "decode DKG transcript: %w" [AErr e])
                              (UnmarshalDKGTranscript raw)) in
  mlift (check_transcript transcript) ;;
  let electionID := DKGTranscript.ElectionId transcript in
  let! electionKey := build_key "build election key: %w" electionIndex [electionID] in
  let! electionRaw := read_key "read election state: %w" electionKey in
  match electionRaw with
  | None => mfail (rejectAt "election-exists" "no election found with id %q" [AStr electionID])
  | Some electionRaw =>
  let! params := mlift (wrap_err (errw "decode stored election parameters: %w")
                          (UnmarshalElectionParameters electionRaw)) in
  mlift (check_consistency transcript params) ;;
  let! dkgKey := build_key "build DKG key: %w" dkgIndex [electionID] in
  let! existing := read_key "read DKG state: %w" dkgKey in
  if bool_decide (is_Some existing)
  then mfail (rejectAt "dkg-duplicate" "a DKG transcript is already published for election %q"
                [AStr electionID])
  else write_key "store DKG transcript: %w" dkgKey raw
  end.

Definition CloseElection (electionID : string) : M unit :=
  let! statusKey := build_key "build status key: %w" statusIndex [electionID] in
  let! status := read_key "read election status: %w" statusKey in
  match status with
  | None => mfail (Errorf "no election found with id %q" [AStr electionID])
  | Some status =>
  if bool_decide (string_of_bytes status = electionStatusClosed)
  then mfail (Errorf "election %q is already closed" [AStr electionID])
  else write_key "close election: %w" statusKey (bytes_of_string electionStatusClosed)
  end.

(** ** Partial decryptions *)
Definition check_partial_shape (partial : PartialDecryption.t) : result unit :=
  if negb (PartialDecryption.Version partial =? WireVersion)
  then Err (rejectAt "shape" "unsupported partial decryption version %d, want %d"
         [AInt (PartialDecryption.Version partial); AInt WireVersion])
  else if bool_decide (PartialDecryption.TrusteeId partial = "")
  then Err (rejectAt "shape" "partial decryption is missing a trustee id" [])
  else if bool_decide (PartialDecryption.ContestId partial = "")
  then Err (rejectAt "shape" "partial decryption is missing a contest id" [])
  else if negb (length (PartialDecryption.Share partial) =? ciphertextLen)%nat
  then Err (rejectAt "shape" "partial decryption share is %d bytes, want %d"
         [AInt (blen (PartialDecryption.Share partial)); AInt (Z.of_nat ciphertextLen)])
  else match PartialDecryption.Proof partial with
       | None => Err (rejectAt "cp-presence" "partial decryption is missing a Chaum-Pedersen proof" [])
       | Some _ => Ok tt
       end.

Definition check_membership (electionID : string) (params : ElectionParameters.t)
    (partial : PartialDecryption.t) : result unit :=
  if negb (contains (ElectionParameters.ContestIds params) (PartialDecryption.ContestId partial))
  then Err (rejectAt "membership" "contest %q is not part of election %q"
         [AStr (PartialDecryption.ContestId partial); AStr electionID])
  else if negb (contains (ElectionParameters.TrusteeIds params) (PartialDecryption.TrusteeId partial))
  then Err (rejectAt "membership" "trustee %q is not part of election %q"
         [AStr (PartialDecryption.TrusteeId partial); AStr electionID])
  else Ok tt.

Definition SubmitPartialDecryption (electionID partialHex : string) : M unit :=
  if bool_decide (electionID = "")
  then mfail (rejectAt "shape" "missing election id" [])
  else
  let! raw := mlift (wrap_err (λ e, rejectAt "decode" "partial decryption is not valid hex: %w" [AErr e])
                       (DecodeString partialHex)) in
  let! partial := mlift (wrap_err (λ e, rejectAt "decode" "decode partial decryption: %w" [AErr e])
                           (UnmarshalPartialDecryption raw)) in
  mlift (check_partial_shape partial) ;;
  let! statusKey := build_key "build status key: %w" statusIndex [electionID] in
  let! status := read_key "read election status: %w" statusKey in
  match status with
  | None => mfail (rejectAt "election-exists" "election %q does not exist" [AStr electionID])
  | Some status =>
  if negb (bool_decide (string_of_bytes status = electionStatusClosed))
  then mfail (rejectAt "election-closed"
                "election %q is not closed; partial decryption is not yet allowed" [AStr electionID])
  else
  let! params := loadElection electionID in
  mlift (check_membership electionID params partial) ;;
  let! partialKey := build_key "build partial decryption key: %w" partialDecIndex
    [electionID; PartialDecryption.ContestId partial; PartialDecryption.TrusteeId partial] in
  let! existing := read_key "read partial decryption state: %w" partialKey in
  if bool_decide (is_Some existing)
  then mfail (rejectAt "partial-duplicate"
    "trustee %q already submitted a partial decryption for contest %q in election %q"
    [AStr (PartialDecryption.TrusteeId partial); AStr (PartialDecryption.ContestId partial);
     AStr electionID])
  else write_key "store partial decryption: %w" partialKey raw
  end.

(** ** The tally and its threshold gate *)
(** One turn of the signature loop; the state is the set [seen] and the count
    [valid]. *)
Definition check_signature (electionID : string) (transcript : DKGTranscript.t)
    (trusteeIDs : list string) (sigContext : bytes)
    (st : gset string * Z) (sig : TrusteeSignature.t) : result (gset string * Z) :=
  let id := TrusteeSignature.TrusteeId sig in
  if negb (contains trusteeIDs id)
  then Err (Errorf "tally is signed by %q, which is not a trustee of election %q"
         [AStr id; AStr electionID])
  else if bool_decide (id ∈ st.1)
  then Err (Errorf "tally carries more than one signature from trustee %q" [AStr id])
  else
  let? key := wrap_err (λ e, Errorf "derive verification key for trustee %q: %w" [AStr id; AErr e])
                (SigVerify.DeriveVerificationKey transcript trusteeIDs id) in
  let? _ := wrap_err (λ e, Errorf "tally signature from trustee %q does not verify: %w" [AStr id; AErr e])
              (SigVerify.VerifySchnorr key sigContext (TrusteeSignature.Signature sig)) in
  Ok ({[id]} ∪ st.1, st.2 + 1).

Definition verifyTallySignatures (params : ElectionParameters.t) (tally : TallyResult.t) : M unit :=
  let electionID := ElectionParameters.ElectionId params in
  let signatures := TallyResult.Signatures tally in
  if (length signatures =? 0)%nat
  then mfail (Errorf "tally for election %q carries no trustee signatures" [AStr electionID])
  else
  let! dkgKey := build_key "build DKG key: %w" dkgIndex [electionID] in
  let! dkgRaw := read_key "read DKG transcript state: %w" dkgKey in
  match dkgRaw with
  | None => mfail (Errorf
      "election %q has no published DKG transcript; tally signatures cannot be verified"
      [AStr electionID])
  | Some dkgRaw =>
  let! transcript := mlift (wrap_err (errw "decode stored DKG transcript: %w")
                              (UnmarshalDKGTranscript dkgRaw)) in
  let sigContext := SigVerify.TallySigContext electionID (TallyResult.Totals tally) in
  let trusteeIDs := ElectionParameters.TrusteeIds params in
  let! st := mlift (rfoldM (check_signature electionID transcript trusteeIDs sigContext)
                      (∅, 0) signatures) in
  if st.2 <? ElectionParameters.Threshold params
  then mfail (Errorf "tally has %d valid trustee signatures, threshold is %d"
                [AInt st.2; AInt (ElectionParameters.Threshold params)])
  else mret tt
  end.

Definition PublishTally (tallyHex : string) : M unit :=
  let! raw := mlift (wrap_err (errw "tally is not valid hex: %w") (DecodeString tallyHex)) in
  let! tally := mlift (wrap_err (errw "decode tally: %w") (UnmarshalTallyResult raw)) in
  if negb (TallyResult.Version tally =? WireVersion)
  then mfail (Errorf "unsupported tally version %d, want %d"
                [AInt (TallyResult.Version tally); AInt WireVersion])
  else
  let electionID := TallyResult.ElectionId tally in
  if bool_decide (electionID = "")
  then mfail (Errorf "tally is missing an election id" [])
  else
  let! statusKey := build_key "build status key: %w" statusIndex [electionID] in
  let! status := read_key "read election status: %w" statusKey in
  match status with
  | None => mfail (Errorf "election %q does not exist" [AStr electionID])
  | Some status =>
  if negb (bool_decide (string_of_bytes status = electionStatusClosed))
  then mfail (Errorf "election %q is not closed; a tally cannot be published yet" [AStr electionID])
  else
  let! params := loadElection electionID in
  if negb (length (TallyResult.Totals tally) =? length (ElectionParameters.ContestIds params))%nat
  then mfail (Errorf "tally has %d totals, election has %d contests"
                [AInt (Z.of_nat (length (TallyResult.Totals tally)));
                 AInt (Z.of_nat (length (ElectionParameters.ContestIds params)))])
  else
  let! tallyKey := build_key "build tally key: %w" tallyIndex [electionID] in
  let! existing := read_key "read tally state: %w" tallyKey in
  if bool_decide (is_Some existing)
  then mfail (Errorf "a tally is already published for election %q" [AStr electionID])
  else
  verifyTallySignatures params tally ;;
  write_key "store tally: %w" tallyKey raw
  end.
End contract.
End Contract.
