(* ===== verification/BoardSpec.v ===== *)
(** * What the bulletin board promises

    The abstract specification the chaincode of [Contract] is proved to
    implement: the ledger as a finite map from typed records to bytes, and for
    each transaction the condition under which it is accepted and the one
    change it makes. *)
From S2P Require Import Prelude Fabric Hex Wire Ristretto.
From S2P Require Import CdsVerify CredVerify SelectionVerify SigVerify Contract.
Import Contract.

(** The records the contract keeps, one constructor per composite-key type. *)
Inductive record_key :=
| KElection (electionID : string)
| KStatus (electionID : string)
| KDkg (electionID : string)
| KBallot (electionID nullifier : string)
| KNullifier (electionID nullifier : string)
| KPartial (electionID contestID trusteeID : string)
| KTally (electionID : string).

#[global] Instance record_key_eq_dec : EqDecision record_key.
Proof. solve_decision. Defined.

Definition key_type (k : record_key) : string :=
  match k with
  | KElection _ => electionIndex
  | KStatus _ => statusIndex
  | KDkg _ => dkgIndex
  | KBallot _ _ => ballotIndex
  | KNullifier _ _ => nullifierIndex
  | KPartial _ _ _ => partialDecIndex
  | KTally _ => tallyIndex
  end.

Definition key_attrs (k : record_key) : list string :=
  match k with
  | KElection e | KStatus e | KDkg e | KTally e => [e]
  | KBallot e n | KNullifier e n => [e; n]
  | KPartial e c t => [e; c; t]
  end.

Definition key_of_parts (ty : string) (attrs : list string) : option record_key :=
  match attrs with
  | [e] =>
      if bool_decide (ty = electionIndex) then Some (KElection e)
      else if bool_decide (ty = statusIndex) then Some (KStatus e)
      else if bool_decide (ty = dkgIndex) then Some (KDkg e)
      else if bool_decide (ty = tallyIndex) then Some (KTally e) else None
  | [e; n] =>
      if bool_decide (ty = ballotIndex) then Some (KBallot e n)
      else if bool_decide (ty = nullifierIndex) then Some (KNullifier e n) else None
  | [e; c; t] =>
      if bool_decide (ty = partialDecIndex) then Some (KPartial e c t) else None
  | _ => None
  end.

#[global] Instance record_key_countable : Countable record_key.
Proof.
  refine (inj_countable (λ k, (key_type k, key_attrs k)) (λ p, key_of_parts p.1 p.2) _).
  by intros [].
Defined.

(** The abstract board. *)
Abbreviation board := (gmap record_key bytes).

Definition open_value : bytes := bytes_of_string electionStatusOpen.

Definition closed_value : bytes := bytes_of_string electionStatusClosed.

(** The transactions that change the ledger. *)
Inductive invocation :=
| ISubmitBallot (ballotHex : string)
| ICreateElection (paramsHex : string)
| IPublishDKGTranscript (transcriptHex : string)
| ICloseElection (electionID : string)
| ISubmitPartialDecryption (electionID partialHex : string)
| IPublishTally (tallyHex : string).

Section spec.
Context `{FabricShim, Proto, Ristretto, Merlin, Json}.

Definition composite_key (k : record_key) : result string :=
  CreateCompositeKey (key_type k) (key_attrs k).

(** A world state that holds exactly the records of [B]: each record under its
    composite key, no record without a key and no key that is not a record's. *)
Record represents (w : worldstate) (B : board) : Prop := {
  rep_lookup rk k : composite_key rk = Ok k → w !! k = B !! rk;
  rep_keys k : is_Some (w !! k) → ∃ rk, composite_key rk = Ok k;
  rep_records rk : is_Some (B !! rk) → ∃ k, composite_key rk = Ok k
}.

Definition handler (i : invocation) : M unit :=
  match i with
  | ISubmitBallot hex => SubmitBallot hex
  | ICreateElection hex => CreateElection hex
  | IPublishDKGTranscript hex => PublishDKGTranscript hex
  | ICloseElection eid => CloseElection eid
  | ISubmitPartialDecryption eid hex => SubmitPartialDecryption eid hex
  | IPublishTally hex => PublishTally hex
  end.

(** [B] has [params] on record for [eid]. *)
Definition has_election (B : board) (eid : string) (params : ElectionParameters.t) : Prop :=
  ∃ raw, B !! KElection eid = Some raw ∧ UnmarshalElectionParameters raw = Ok params.

Definition has_transcript (B : board) (eid : string) (tr : DKGTranscript.t) : Prop :=
  ∃ raw, B !! KDkg eid = Some raw ∧ UnmarshalDKGTranscript raw = Ok tr.

Definition ballot_nullifier (b : Ballot.t) : bytes :=
  NullifierValue (Ballot.CredentialPresentation b).

Definition ballot_slot (b : Ballot.t) : string * string :=
  (Ballot.ElectionId b, EncodeToString (ballot_nullifier b)).

Definition ciphertext_wf (ct : Ciphertext.t) : Prop :=
  length (Ciphertext.Pad ct) = 32%nat ∧ length (Ciphertext.Data ct) = 32%nat.

(** The contest proof at position [j] of the ballot is for the [j]-th of the
    election's contests [idxs] that the ballot covers. *)
Definition contest_proved (b : Ballot.t) (params : ElectionParameters.t) (epk : bytes)
    (j g : nat) : Prop :=
  ∃ cid ct pr, ElectionParameters.ContestIds params !! g = Some cid ∧
    Ballot.Ciphertexts b !! j = Some ct ∧
    Ballot.WellFormednessProofs b !! j = Some pr ∧
    CDSProof.Version pr = WireVersion ∧
    CdsVerify.VerifyBinaryCDS (Ballot.ElectionId b) cid (ballot_nullifier b) epk
      (Ciphertext.Pad ct) (Ciphertext.Data ct) (wire_branch <$> CDSProof.Branches pr) = Ok tt.

Definition selection_proved (b : Ballot.t) (epk : bytes) : Prop :=
  ∃ sp, Ballot.SelectionProof b = Some sp ∧ ChaumPedersenProof.Version sp = WireVersion ∧
    SelectionVerify.Verify (Ballot.ElectionId b) (Ballot.PositionId b) (ballot_nullifier b) epk
      (Ciphertext.Pad <$> Ballot.Ciphertexts b) (Ciphertext.Data <$> Ballot.Ciphertexts b)
      (SelectionVerify.MkProof (ChaumPedersenProof.CommitmentA sp)
         (ChaumPedersenProof.CommitmentB sp) (ChaumPedersenProof.Challenge sp)
         (ChaumPedersenProof.Response sp)) = Ok tt.

(** The shape a ballot must have before the ledger is consulted. *)
Record ballot_shape (b : Ballot.t) (p : CredentialPresentation.t) : Prop := {
  bs_version : Ballot.Version b = WireVersion;
  bs_election : Ballot.ElectionId b ≠ "";
  bs_nonempty : Ballot.Ciphertexts b ≠ [];
  bs_ciphertexts : Forall ciphertext_wf (Ballot.Ciphertexts b);
  bs_presentation : Ballot.CredentialPresentation b = Some p;
  bs_nullifier : ballot_nullifier b ≠ [];
  bs_signature : (64 ≤ length (CredentialPresentation.PresentationProof p))%nat
}.

(** A credential signed by its issuer, and by the election's issuer when the
    election binds one. *)
Definition credential_accepted (params : ElectionParameters.t)
    (p : CredentialPresentation.t) : Prop :=
  (ElectionParameters.IssuerPublicKey params = [] ∨
   ElectionParameters.IssuerPublicKey params = CredentialPresentation.IssuerPublicKey p) ∧
  CredVerify.VerifyIssuerSignature (CredentialPresentation.IssuerPublicKey p)
    (CredentialPresentation.CredentialCommitment p)
    (take 32 (CredentialPresentation.PresentationProof p))
    (take 32 (drop 32 (CredentialPresentation.PresentationProof p))) = Ok tt.

(** The ballot carries one ciphertext and one proof for each contest of its
    position, and each is proved. *)
Definition record_proved (b : Ballot.t) (params : ElectionParameters.t) (epk : bytes) : Prop :=
  let idxs := contestIndicesForPosition (ElectionParameters.ContestIds params)
                (Ballot.PositionId b) in
  idxs ≠ [] ∧ length (Ballot.Ciphertexts b) = length idxs ∧
  length (Ballot.WellFormednessProofs b) = length idxs ∧
  (∀ j g, idxs !! j = Some g → contest_proved b params epk j g) ∧
  (ElectionParameters.IssuerPublicKey params ≠ [] →
     selection_proved b epk ∧
     (Ballot.PositionId b ≠ "" ∨ positionedContests (ElectionParameters.ContestIds params) = false)).

Definition ballot_accepted (B : board) (b : Ballot.t) : Prop :=
  ∃ p params tr epk,
    ballot_shape b p ∧
    has_election B (Ballot.ElectionId b) params ∧
    credential_accepted params p ∧
    B !! KStatus (Ballot.ElectionId b) = Some open_value ∧
    B !! KNullifier (ballot_slot b).1 (ballot_slot b).2 = None ∧
    has_transcript B (Ballot.ElectionId b) tr ∧
    SigVerify.deriveElectionPublicKey tr = Ok epk ∧
    record_proved b params epk.

(** The records a submission of [b] reads or writes. *)
Definition ballot_records (b : Ballot.t) : list record_key :=
  let '(e, n) := ballot_slot b in
  [KElection e; KStatus e; KNullifier e n; KDkg e; KBallot e n].

(** The shim can build the keys of these records (their parts are valid). *)
Definition keys_valid (ks : list record_key) : Prop :=
  Forall (λ rk, is_ok (composite_key rk) = true) ks.

(** The records a transaction reads or writes, for the messages it decodes. *)
Definition invocation_records (B : board) (i : invocation) (rks : list record_key) : Prop :=
  match i with
  | ISubmitBallot hex => ∃ raw b, DecodeString hex = Ok raw ∧ UnmarshalBallot raw = Ok b ∧
      rks = ballot_records b
  | ICreateElection hex => ∃ raw p, DecodeString hex = Ok raw ∧
      UnmarshalElectionParameters raw = Ok p ∧
      rks = [KElection (ElectionParameters.ElectionId p); KStatus (ElectionParameters.ElectionId p)]
  | IPublishDKGTranscript hex => ∃ raw tr, DecodeString hex = Ok raw ∧
      UnmarshalDKGTranscript raw = Ok tr ∧
      rks = [KElection (DKGTranscript.ElectionId tr); KDkg (DKGTranscript.ElectionId tr)]
  | ICloseElection eid => rks = [KStatus eid]
  | ISubmitPartialDecryption eid hex => ∃ raw pd, DecodeString hex = Ok raw ∧
      UnmarshalPartialDecryption raw = Ok pd ∧
      rks = [KStatus eid; KElection eid;
             KPartial eid (PartialDecryption.ContestId pd) (PartialDecryption.TrusteeId pd)]
  | IPublishTally hex => ∃ raw tl params, DecodeString hex = Ok raw ∧
      UnmarshalTallyResult raw = Ok tl ∧ has_election B (TallyResult.ElectionId tl) params ∧
      rks = [KStatus (TallyResult.ElectionId tl); KElection (TallyResult.ElectionId tl);
             KTally (TallyResult.ElectionId tl); KDkg (ElectionParameters.ElectionId params)]
  end.

Definition record_ballot (B : board) (b : Ballot.t) (raw : bytes) : board :=
  <[KNullifier (ballot_slot b).1 (ballot_slot b).2 := [x01]]>
    (<[KBallot (ballot_slot b).1 (ballot_slot b).2 := raw]> B).

(** Election parameters a new election may be created with. *)
Record params_accepted (params : ElectionParameters.t) : Prop := {
  pa_version : ElectionParameters.Version params = WireVersion;
  pa_election : ElectionParameters.ElectionId params ≠ "";
  pa_contests : ElectionParameters.ContestIds params ≠ [];
  pa_threshold : 1 ≤ ElectionParameters.Threshold params
                 ≤ Z.of_nat (length (ElectionParameters.TrusteeIds params));
  pa_issuer : ElectionParameters.IssuerPublicKey params = [] ∨
    ∃ x, ElementSetCanonicalBytes (ElectionParameters.IssuerPublicKey params) = Ok x
}.

(** A transcript that matches the election it is published for. *)
Definition transcript_accepted (tr : DKGTranscript.t) (params : ElectionParameters.t) : Prop :=
  DKGTranscript.Version tr = WireVersion ∧ DKGTranscript.ElectionId tr ≠ "" ∧
  DKGTranscript.TrusteeCommitments tr ≠ [] ∧
  DKGTranscript.Threshold tr = ElectionParameters.Threshold params ∧
  length (DKGTranscript.TrusteeCommitments tr) = length (ElectionParameters.TrusteeIds params).

Record partial_accepted (params : ElectionParameters.t) (pd : PartialDecryption.t) : Prop := {
  pd_version : PartialDecryption.Version pd = WireVersion;
  pd_trustee : PartialDecryption.TrusteeId pd ≠ "" ∧
    PartialDecryption.TrusteeId pd ∈ ElectionParameters.TrusteeIds params;
  pd_contest : PartialDecryption.ContestId pd ≠ "" ∧
    PartialDecryption.ContestId pd ∈ ElectionParameters.ContestIds params;
  pd_share : length (PartialDecryption.Share pd) = 32%nat;
  pd_proof : is_Some (PartialDecryption.Proof pd)
}.

(** A trustee's signature under the key the transcript yields for its signer. *)
Definition signature_ok (params : ElectionParameters.t) (tr : DKGTranscript.t) (ctx : bytes)
    (sig : TrusteeSignature.t) : Prop :=
  TrusteeSignature.TrusteeId sig ∈ ElectionParameters.TrusteeIds params ∧
  ∃ key, SigVerify.DeriveVerificationKey tr (ElectionParameters.TrusteeIds params)
           (TrusteeSignature.TrusteeId sig) = Ok key ∧
    SigVerify.VerifySchnorr key ctx (TrusteeSignature.Signature sig) = Ok tt.

(** [sigs] are signatures of pairwise distinct trustees of the election on its
    id and totals, each under the key the transcript yields for its signer. *)
Definition quorum_signed (params : ElectionParameters.t) (tr : DKGTranscript.t)
    (totals : list Z) (sigs : list TrusteeSignature.t) : Prop :=
  NoDup (TrusteeSignature.TrusteeId <$> sigs) ∧
  ElectionParameters.Threshold params ≤ Z.of_nat (length sigs) ∧
  Forall (signature_ok params tr
    (SigVerify.TallySigContext (ElectionParameters.ElectionId params) totals)) sigs.

Definition tally_accepted (B : board) (tally : TallyResult.t) : Prop :=
  let eid := TallyResult.ElectionId tally in
  ∃ params tr,
    TallyResult.Version tally = WireVersion ∧ eid ≠ "" ∧
    B !! KStatus eid = Some closed_value ∧
    has_election B eid params ∧
    length (TallyResult.Totals tally) = length (ElectionParameters.ContestIds params) ∧
    B !! KTally eid = None ∧ TallyResult.Signatures tally ≠ [] ∧
    has_transcript B (ElectionParameters.ElectionId params) tr ∧
    quorum_signed params tr (TallyResult.Totals tally) (TallyResult.Signatures tally).

(** The transactions of the abstract board. *)
Inductive board_step (B : board) : invocation → board → Prop :=
| step_ballot hex raw b :
    DecodeString hex = Ok raw → UnmarshalBallot raw = Ok b → ballot_accepted B b →
    board_step B (ISubmitBallot hex) (record_ballot B b raw)
| step_create hex raw params :
    DecodeString hex = Ok raw → UnmarshalElectionParameters raw = Ok params →
    params_accepted params → B !! KElection (ElectionParameters.ElectionId params) = None →
    board_step B (ICreateElection hex)
      (<[KStatus (ElectionParameters.ElectionId params) := open_value]>
         (<[KElection (ElectionParameters.ElectionId params) := raw]> B))
| step_dkg hex raw tr params :
    DecodeString hex = Ok raw → UnmarshalDKGTranscript raw = Ok tr →
    has_election B (DKGTranscript.ElectionId tr) params → transcript_accepted tr params →
    B !! KDkg (DKGTranscript.ElectionId tr) = None →
    board_step B (IPublishDKGTranscript hex) (<[KDkg (DKGTranscript.ElectionId tr) := raw]> B)
| step_close eid st :
    B !! KStatus eid = Some st → st ≠ closed_value →
    board_step B (ICloseElection eid) (<[KStatus eid := closed_value]> B)
| step_partial eid hex raw pd params :
    eid ≠ "" → DecodeString hex = Ok raw → UnmarshalPartialDecryption raw = Ok pd →
    B !! KStatus eid = Some closed_value → has_election B eid params →
    partial_accepted params pd →
    B !! KPartial eid (PartialDecryption.ContestId pd) (PartialDecryption.TrusteeId pd) = None →
    board_step B (ISubmitPartialDecryption eid hex)
      (<[KPartial eid (PartialDecryption.ContestId pd) (PartialDecryption.TrusteeId pd) := raw]> B)
| step_tally hex raw tally :
    DecodeString hex = Ok raw → UnmarshalTallyResult raw = Ok tally → tally_accepted B tally →
    board_step B (IPublishTally hex) (<[KTally (TallyResult.ElectionId tally) := raw]> B).
End spec.
