(* ===== verification/HandlerFacts.v ===== *)
(** * Running the handlers' helpers

    How [build_key], [read_key], [write_key], [findElection] and
    [loadElection] succeed and what they leave in the transaction log, the
    correspondence between a world state and the abstract board, and the
    tactics that take a successful handler run apart and put one together. *)
From S2P Require Import Prelude Fabric Hex Wire Ristretto.
From S2P Require Import CdsVerify CredVerify SelectionVerify SigVerify Contract BoardSpec.
Import Contract.

Section handlers.
Context `{FabricShimLaws, Proto, Ristretto, Merlin, Json}.

(** ** Running the helpers *)
Lemma build_key_ok what ty attrs s t k t' :
  build_key what ty attrs s t = Ok (k, t') ↔ CreateCompositeKey ty attrs = Ok k ∧ t' = t.
Proof.
  unfold build_key. rewrite mwrap_ok, mlift_ok. naive_solver.
Qed.

Lemma read_key_ok what k s t v t' :
  read_key what k s t = Ok (v, t') ↔
  get_fault s k = None ∧ v = world s !! k ∧ t' = TxLog (k :: reads t) (writes t).
Proof. unfold read_key. rewrite mwrap_ok, GetState_ok. naive_solver. Qed.

Lemma write_key_ok what k v s t u t' :
  write_key what k v s t = Ok (u, t') ↔
  put_fault s k = None ∧ t' = TxLog (reads t) (writes t ++ [(k, v)]).
Proof. unfold write_key. rewrite mwrap_ok, PutState_ok. destruct u. naive_solver. Qed.

Lemma blen_pos (b : bytes) : (0 <? blen b) = true ↔ b ≠ [].
Proof. unfold blen. rewrite Z.ltb_lt. destruct b; cbn; split; (done || lia). Qed.

Lemma is_ok_true {A} (r : result A) : is_ok r = true ↔ ∃ a, r = Ok a.
Proof. destruct r; naive_solver. Qed.

Lemma open_status_ok (st : bytes) :
  string_of_bytes st = electionStatusOpen ↔ st = open_value.
Proof.
  split; [|intros ->; apply string_of_bytes_of_string].
  intros E. unfold open_value. by rewrite <- E, bytes_of_string_of_bytes.
Qed.

Lemma not_is_Some_lookup {A} (o : option A) : bool_decide (is_Some o) = false ↔ o = None.
Proof. rewrite bool_decide_eq_false. split; apply eq_None_not_Some. Qed.

Lemma composite_key_inj rk rk' k :
  composite_key rk = Ok k → composite_key rk' = Ok k → rk = rk'.
Proof.
  unfold composite_key. intros E E'. destruct (create_inj _ _ _ _ _ E E') as [Ht Ha].
  destruct rk, rk'; try discriminate Ht; cbn in Ha; congruence.
Qed.

(** A write to a record's key is the write to the record. *)
Lemma represents_insert w B rk k v :
  composite_key rk = Ok k → represents w B → represents (<[k := v]> w) (<[rk := v]> B).
Proof.
  intros Hk [HB Hkeys Hrecs]. split.
  - intros rk' k' Hk'. destruct (decide (rk = rk')) as [<-|Hne].
    + rewrite Hk in Hk'. injection Hk' as <-. by rewrite !lookup_insert_eq.
    + rewrite !lookup_insert_ne; [by apply HB | done |].
      intros <-. by destruct Hne; eapply composite_key_inj.
  - intros k'. destruct (decide (k = k')) as [<-|Hne]; [eauto|].
    rewrite lookup_insert_ne by done. apply Hkeys.
  - intros rk'. destruct (decide (rk = rk')) as [<-|Hne]; [eauto|].
    rewrite lookup_insert_ne by done. apply Hrecs.
Qed.

Lemma represents_lookup w B rk k v :
  represents w B → composite_key rk = Ok k → w !! k = v → B !! rk = v.
Proof. intros HB Hk <-. symmetry. by apply (rep_lookup _ _ HB). Qed.

Lemma findElection_ok eid s t r t' B :
  represents (world s) B →
  findElection eid s t = Ok (r, t') →
  writes t' = writes t ∧
  match r with Some params => has_election B eid params | None => B !! KElection eid = None end.
Proof.
  intros HB Hrun. unfold findElection in Hrun.
  apply mbind_ok in Hrun as (k & t1 & [Hk ->]%build_key_ok & Hrun).
  apply mbind_ok in Hrun as (v & t1 & (_ & -> & ->)%read_key_ok & Hrun).
  destruct (world s !! k) as [raw|] eqn:E; run_inv Hrun.
  - split; [done|]. exists raw. split; [|done]. by eapply (represents_lookup _ _ (KElection _)).
  - split; [done|]. by eapply (represents_lookup _ _ (KElection _)).
Qed.

Lemma findElection_run eid w t params k raw :
  CreateCompositeKey electionIndex [eid] = Ok k → w !! k = Some raw →
  UnmarshalElectionParameters raw = Ok params →
  findElection eid (healthy w) t = Ok (Some params, TxLog (k :: reads t) (writes t)).
Proof.
  intros Hk Hw Hu. unfold findElection.
  rewrite (mbind_run _ _ _ _ k t) by by apply build_key_ok.
  rewrite (mbind_run _ _ _ _ (Some raw) (TxLog (k :: reads t) (writes t)))
    by by apply read_key_ok.
  rewrite (mbind_run _ _ _ _ params (TxLog (k :: reads t) (writes t)));
    [done | by apply mwrap_ok, mlift_run].
Qed.
End handlers.

(** [handler_inv H] takes a successful run [H : m s t = Ok r] of a handler
    apart along its helpers. *)
Ltac handler_inv_step H :=
  lazymatch type of H with
  | mbind _ _ _ _ = Ok _ =>
      let a := fresh "a" in let t := fresh "t" in let H1 := fresh "Hrun" in
      apply mbind_ok in H; destruct H as (a & t & H1 & H); handler_inv H1
  | build_key _ _ _ _ _ = Ok _ =>
      let H1 := fresh "Hkey" in
      apply build_key_ok in H; destruct H as [H1 H]; subst
  | read_key _ _ _ _ = Ok _ =>
      let H1 := fresh "Hnofault" in
      apply read_key_ok in H; destruct H as (H1 & -> & ->)
  | write_key _ _ _ _ _ = Ok _ =>
      let H1 := fresh "Hnofault" in
      apply write_key_ok in H; destruct H as (H1 & H); subst
  | mlift _ _ _ = Ok _ =>
      let a := fresh "a" in let H1 := fresh "Hlift" in
      apply mlift_ok in H; destruct H as (a & H1 & H); try rewrite wrap_err_ok in H1
  | (if ?b then mfail _ else _) _ _ = Ok _ =>
      let H1 := fresh "Hguard" in
      apply mguard_ok in H; destruct H as [H1 H]
  | (match world ?s !! ?k with _ => _ end) _ _ = Ok _ =>
      let E := fresh "Hworld" in destruct (world s !! k) eqn:E
  | (match ?o with Some _ => _ | None => _ end) _ _ = Ok _ => is_var o; destruct o
  | _ => run_inv_step H
  end
with handler_inv H := repeat (handler_inv_step H; cbn [reads writes] in * ).

(** [handler_step] runs the next helper of a handler on a healthy stub; the
    side condition is what the helper needs. *)
Ltac handler_step :=
  lazymatch goal with
  | |- mbind (mlift (wrap_err _ _)) _ _ _ = _ =>
      erewrite mbind_run; [| apply mlift_run, wrap_err_ok; eassumption]
  | |- mbind (mlift _) _ _ _ = _ =>
      erewrite mbind_run; [| apply mlift_run; eassumption]
  | |- mbind (build_key _ _ _) _ _ _ = _ =>
      erewrite mbind_run; [| apply build_key_ok; split; [eassumption | reflexivity]]
  | |- mbind (read_key _ _) _ _ _ = _ =>
      erewrite mbind_run; [| apply read_key_ok; split_and!; [done | symmetry; eassumption | reflexivity]]
  | |- mbind (write_key _ _ _) _ _ _ = _ =>
      erewrite (mbind_run _ _ _ _ tt); [| apply write_key_ok; split; reflexivity]
  | |- write_key _ _ _ _ _ = _ => apply write_key_ok; split; reflexivity
  end; cbv beta match.
Ltac handler_run := repeat handler_step.

(** ** The gates of SubmitBallot

    For each check of the ballot handler, exactly when it passes, in the terms
    of [BoardSpec]; then the whole handler: what a successful run has checked,
    read and written, and that every acceptable ballot is stored. *)
Section ballot.
Context `{FabricShimLaws, Proto, Ristretto, Merlin, Json}.

(** ** The stateless gates *)
Lemma check_ciphertexts_ok i cts :
  check_ciphertexts i cts = Ok tt ↔ Forall ciphertext_wf cts.
Proof.
  revert i. induction cts as [|ct cts IH]; intros i; cbn [check_ciphertexts].
  { split; [constructor | done]. }
  rewrite nguard_ok, IH, Forall_cons. unfold ciphertext_wf, ciphertextLen.
  rewrite orb_false_iff, !negb_false_iff, !Nat.eqb_eq. done.
Qed.

Lemma check_ballot_shape_ok b p :
  check_ballot_shape b = Ok p ↔ ballot_shape b p.
Proof.
  unfold check_ballot_shape. rewrite !nguard_ok, rbind_ok.
  rewrite negb_false_iff, Z.eqb_eq, bool_decide_eq_false, Nat.eqb_neq.
  split.
  - intros (Hv & He & Hn & [] & Hc%check_ciphertexts_ok & Hp).
    destruct (Ballot.CredentialPresentation b) as [p'|] eqn:Ep; [|done].
    rewrite !nguard_ok, Nat.eqb_neq, Nat.ltb_ge in Hp. destruct Hp as (Hnf & Hs & [= ->]).
    split; try done; [by destruct (Ballot.Ciphertexts b)|].
    unfold ballot_nullifier. rewrite Ep. by destruct (NullifierValue (Some p)).
  - intros [Hv He Hn Hc Ep Hnf Hs]. split_and!; [done | done | by destruct (Ballot.Ciphertexts b) |].
    exists tt. rewrite check_ciphertexts_ok. split; [done|].
    unfold ballot_nullifier in Hnf. rewrite Ep in Hnf |- *.
    rewrite !nguard_ok, Nat.eqb_neq, Nat.ltb_ge. split_and!; [|done..].
    by destruct (NullifierValue (Some p)).
Qed.

Lemma check_credential_ok eid params p :
  check_credential eid (Some params) p = Ok tt ↔ credential_accepted params p.
Proof.
  unfold check_credential, credential_accepted, signaturePrefixLen, ciphertextLen.
  cbn [ParamsIssuerPublicKey]. rewrite nguard_ok, wrap_err_ok.
  apply and_iff_compat_r.
  rewrite andb_false_iff, negb_false_iff, bytes_equal_true, <- not_true_iff_false, blen_pos.
  destruct (ElectionParameters.IssuerPublicKey params); naive_solver.
Qed.

Lemma check_position_ok b params idxs :
  check_position b params = Ok idxs ↔
  idxs = contestIndicesForPosition (ElectionParameters.ContestIds params) (Ballot.PositionId b) ∧
  idxs ≠ [] ∧ length (Ballot.Ciphertexts b) = length idxs ∧
  length (Ballot.WellFormednessProofs b) = length idxs ∧
  (ElectionParameters.IssuerPublicKey params ≠ [] →
   Ballot.PositionId b ≠ "" ∨ positionedContests (ElectionParameters.ContestIds params) = false).
Proof.
  unfold check_position. rewrite !nguard_ok.
  set (idxs' := contestIndicesForPosition _ _).
  rewrite orb_false_iff, !negb_false_iff, !Nat.eqb_eq, Nat.eqb_neq.
  assert (length idxs' ≠ 0%nat ↔ idxs' ≠ []) as -> by (destruct idxs'; cbn; naive_solver).
  rewrite !andb_false_iff, bool_decide_eq_false, <- (not_true_iff_false (0 <? _)), blen_pos.
  split.
  - intros (Hg & Hne & [Hl1 Hl2] & [= <-]). split_and!; try done. naive_solver.
  - intros (-> & Hne & Hl1 & Hl2 & Hg). split_and!; try done.
    destruct (ElectionParameters.IssuerPublicKey params); [naive_solver|].
    destruct Hg; [done | naive_solver | naive_solver].
Qed.

(** ** The cryptographic gates *)
Lemma verify_contest_ok b params epk j g :
  verify_contest b (ElectionParameters.ContestIds params) epk (j, g) = Ok tt ↔
  contest_proved b params epk j g.
Proof.
  unfold verify_contest, contest_proved, ballot_nullifier. cbn [fst snd].
  destruct (_ !! g) as [cid|]; [|naive_solver].
  destruct (Ballot.Ciphertexts b !! j) as [ct|]; [|naive_solver].
  destruct (Ballot.WellFormednessProofs b !! j) as [pr|]; [|naive_solver].
  rewrite nguard_ok, wrap_err_ok, negb_false_iff, Z.eqb_eq. naive_solver.
Qed.

Lemma verifySelection_ok b epk : verifySelection b epk = Ok tt ↔ selection_proved b epk.
Proof.
  unfold verifySelection, selection_proved, ballot_nullifier.
  destruct (Ballot.SelectionProof b) as [sp|]; [|naive_solver].
  rewrite nguard_ok, negb_false_iff, Z.eqb_eq. naive_solver.
Qed.

Lemma Forall_imap_pair {A} (P : nat * A → Prop) (l : list A) :
  Forall P (imap pair l) ↔ ∀ j x, l !! j = Some x → P (j, x).
Proof.
  rewrite Forall_lookup. split.
  - intros HP j x Hj. apply (HP j). by rewrite list_lookup_imap, Hj.
  - intros HP j y. rewrite list_lookup_imap. destruct (l !! j) as [x|] eqn:E; [|done].
    intros [= <-]. by apply HP.
Qed.

Lemma verify_ciphertexts_ok b params idxs epk :
  verify_ciphertexts b params idxs epk = Ok tt ↔
  (∀ j g, idxs !! j = Some g → contest_proved b params epk j g) ∧
  (ElectionParameters.IssuerPublicKey params ≠ [] → selection_proved b epk).
Proof.
  unfold verify_ciphertexts. rewrite rbind_ok. rewrite <- blen_pos.
  assert (∀ P Q : Prop, (∃ a : unit, P ∧ Q) ↔ P ∧ Q) as Hex by naive_solver.
  split.
  - intros ([] & Hr%riter_ok & Hs). rewrite Forall_imap_pair in Hr. split.
    + intros j g Hj. by apply verify_contest_ok, Hr.
    + intros Hi. rewrite Hi, wrap_err_ok in Hs. by apply verifySelection_ok.
  - intros [Hc Hs]. exists tt. split.
    + apply riter_ok, Forall_imap_pair. intros j g Hj. by apply verify_contest_ok, Hc.
    + destruct (0 <? blen _); [|done]. apply wrap_err_ok, verifySelection_ok. auto.
Qed.

(** ** The handler *)
Lemma SubmitBallot_inv s hex t B :
  represents (world s) B → SubmitBallot hex s tx_start = Ok (tt, t) →
  ∃ raw b kb kn, DecodeString hex = Ok raw ∧ UnmarshalBallot raw = Ok b ∧
    ballot_accepted B b ∧
    composite_key (KBallot (ballot_slot b).1 (ballot_slot b).2) = Ok kb ∧
    composite_key (KNullifier (ballot_slot b).1 (ballot_slot b).2) = Ok kn ∧
    writes t = [(kb, raw); (kn, [byte_of_Z 1])].
Proof.
  intros HB Hrun. unfold SubmitBallot in Hrun. handler_inv Hrun.
  repeat match goal with u : unit |- _ => destruct u end.
  apply check_ballot_shape_ok in Hlift1.
  assert (NullifierValue (Some a2) = ballot_nullifier a1) as En.
  { unfold ballot_nullifier. by rewrite (bs_presentation _ _ Hlift1). }
  rewrite En in *.
  destruct (findElection_ok _ _ _ _ _ _ HB Hrun0) as [-> Hel].
  exists a0, a1, a7, a5. split_and!; [done | done | | done | done | done].
  apply check_credential_ok in Hlift2. apply check_position_ok in Hlift3.
  apply verify_ciphertexts_ok in Hlift6.
  apply not_is_Some_lookup in Hguard0.
  apply negb_false_iff, bool_decide_eq_true, open_status_ok in Hguard. subst.
  destruct Hlift3 as (-> & Hne & Hl1 & Hl2 & Hpos), Hlift6 as [Hcds Hsel].
  exists a2, t1, a8, a9. split_and!; try done.
  - by eapply (represents_lookup _ _ (KStatus _)).
  - by eapply (represents_lookup _ _ (KNullifier _ _)).
  - exists l0. split; [|done]. by eapply (represents_lookup _ _ (KDkg _)).
  - unfold record_proved. naive_solver.
Qed.

Lemma SubmitBallot_run w hex raw b B :
  represents w B → DecodeString hex = Ok raw → UnmarshalBallot raw = Ok b →
  ballot_accepted B b → keys_valid (ballot_records b) →
  ∃ t, SubmitBallot hex (healthy w) tx_start = Ok (tt, t).
Proof.
  intros HB Hhex Hraw (p & params & tr & epk & Hsh & (praw & Hp & Hpu) & Hcr & Hst & Hnf &
    (traw & Ht & Htu) & Hepk & (Hne & Hl1 & Hl2 & Hc & Hsel)) Hkeys.
  unfold keys_valid, ballot_records in Hkeys. cbn [ballot_slot] in Hkeys.
  rewrite !Forall_cons, !is_ok_true in Hkeys.
  destruct Hkeys as ([ke Hke] & [ks Hks] & [kn Hkn] & [kd Hkd] & [kb Hkb] & _).
  change ((ballot_slot b).1) with (Ballot.ElectionId b) in Hnf.
  change ((ballot_slot b).2) with (EncodeToString (ballot_nullifier b)) in Hnf.
  rewrite <- (rep_lookup _ _ HB _ _ Hke) in Hp. rewrite <- (rep_lookup _ _ HB _ _ Hks) in Hst.
  rewrite <- (rep_lookup _ _ HB _ _ Hkn) in Hnf. rewrite <- (rep_lookup _ _ HB _ _ Hkd) in Ht.
  assert (NullifierValue (Some p) = ballot_nullifier b) as En.
  { unfold ballot_nullifier. by rewrite (bs_presentation _ _ Hsh). }
  unfold SubmitBallot. eexists.
  assert (check_ballot_shape b = Ok p) by by apply check_ballot_shape_ok.
  assert (check_credential (Ballot.ElectionId b) (Some params) p = Ok tt)
    by by apply check_credential_ok.
  handler_run.
  erewrite mbind_run; [| eapply findElection_run; eassumption].
  handler_run.
  rewrite (proj2 (open_status_ok _)), bool_decide_true by done. cbn [negb].
  rewrite En. handler_run. rewrite bool_decide_false by by intros [? [=]].
  erewrite mbind_run; [| apply mlift_run, check_position_ok; split_and!; try done; naive_solver].
  handler_run.
  erewrite mbind_run; [| apply mlift_run, verify_ciphertexts_ok; naive_solver].
  handler_run.
Qed.
End ballot.

(** ** The gates of the election lifecycle

    [CreateElection], [PublishDKGTranscript], [CloseElection],
    [SubmitPartialDecryption] and [PublishTally]: when each check passes, what
    a successful run has established, and that every acceptable transaction
    succeeds. *)
Section lifecycle.
Context `{FabricShimLaws, Proto, Ristretto, Merlin, Json}.

Lemma check_params_ok p : check_params p = Ok tt ↔ params_accepted p.
Proof.
  unfold check_params. rewrite !nguard_ok, negb_false_iff, Z.eqb_eq, bool_decide_eq_false,
    Nat.eqb_neq, Z.eqb_neq, orb_false_iff, !Z.ltb_ge.
  assert (length (ElectionParameters.ContestIds p) ≠ 0%nat ↔ ElectionParameters.ContestIds p ≠ [])
    as Hnil by (destruct (ElectionParameters.ContestIds p); cbn; naive_solver).
  rewrite Hnil. split.
  - intros (Hv & He & Hc & Hn & [Hlo Hhi] & Hi). split; try done.
    destruct (0 <? blen _) eqn:Eb.
    + apply rbind_ok in Hi as (x & Hx%wrap_err_ok & _). eauto.
    + left. apply not_true_iff_false in Eb. rewrite blen_pos in Eb.
      destruct (ElectionParameters.IssuerPublicKey p); [done | by destruct Eb].
  - intros [Hv He Hc [Hlo Hhi] Hi]. split_and!; try (done || lia).
    destruct Hi as [-> | [x Hx]]; [done|]. rewrite Hx. cbn. by destruct (0 <? _).
Qed.

Lemma check_transcript_ok tr p :
  check_transcript tr = Ok tt ∧ check_consistency tr p = Ok tt ↔ transcript_accepted tr p.
Proof.
  unfold check_transcript, check_consistency, transcript_accepted.
  rewrite !nguard_ok, !negb_false_iff, !Z.eqb_eq, bool_decide_eq_false, Nat.eqb_neq, Nat.eqb_eq.
  destruct (DKGTranscript.TrusteeCommitments tr); cbn [length]; naive_solver.
Qed.

Lemma contains_ok l x : contains l x = true ↔ x ∈ l.
Proof.
  unfold contains. rewrite existsb_exists. setoid_rewrite bool_decide_eq_true.
  setoid_rewrite <- list_elem_of_In. naive_solver.
Qed.

Lemma check_partial_ok eid p pd :
  check_partial_shape pd = Ok tt ∧ check_membership eid p pd = Ok tt ↔ partial_accepted p pd.
Proof.
  unfold check_partial_shape, check_membership, ciphertextLen.
  rewrite !nguard_ok, !negb_false_iff, Z.eqb_eq, !bool_decide_eq_false, Nat.eqb_eq, !contains_ok.
  split.
  - intros ((Hv & Ht & Hc & Hs & Hp) & Hc' & Ht' & _). split; try done.
    by destruct (PartialDecryption.Proof pd).
  - intros [Hv [Ht Ht'] [Hc Hc'] Hs [x Hx]]. by rewrite Hx.
Qed.

Lemma rfoldM_ok_cons {A S} (f : S → A → result S) s x l r :
  (rfoldM f s (x :: l) = Ok r) ↔ ∃ s', f s x = Ok s' ∧ rfoldM f s' l = Ok r.
Proof. cbn. apply rbind_ok. Qed.

Lemma check_signature_ok eid tr params ctx st sig st' :
  check_signature eid tr (ElectionParameters.TrusteeIds params) ctx st sig = Ok st' ↔
  (TrusteeSignature.TrusteeId sig ∉ st.1) ∧ signature_ok params tr ctx sig ∧
  st' = ({[TrusteeSignature.TrusteeId sig]} ∪ st.1, st.2 + 1).
Proof.
  unfold check_signature, signature_ok.
  rewrite !nguard_ok, negb_false_iff, contains_ok, bool_decide_eq_false, rbind_ok.
  setoid_rewrite wrap_err_ok. setoid_rewrite rbind_ok. setoid_rewrite wrap_err_ok. split.
  - intros (Hin & Hnew & key & Hk & [] & Hv & [= <-]). eauto 8.
  - intros (Hnew & (Hin & key & Hk & Hv) & ->). eauto 10.
Qed.

(** The loop accepts exactly the lists of pairwise distinct, valid signers, and
    counts them. *)
Lemma check_signatures_ok eid tr params ctx sigs seen n st :
  (rfoldM (check_signature eid tr (ElectionParameters.TrusteeIds params) ctx) (seen, n) sigs = Ok st) ↔
  NoDup (TrusteeSignature.TrusteeId <$> sigs) ∧
  (∀ sig, sig ∈ sigs → TrusteeSignature.TrusteeId sig ∉ seen) ∧
  Forall (signature_ok params tr ctx) sigs ∧
  st = (list_to_set (TrusteeSignature.TrusteeId <$> sigs) ∪ seen, n + Z.of_nat (length sigs)).
Proof.
  revert seen n st. induction sigs as [|sig sigs IH]; intros seen n st.
  { cbn. rewrite Z.add_0_r, (left_id_L ∅ (∪)). split.
    - intros [= <-]. split_and!; [constructor | set_solver | constructor | done].
    - by intros (_ & _ & _ & ->). }
  rewrite rfoldM_ok_cons. rewrite fmap_cons, NoDup_cons, Forall_cons. split.
  - intros (st' & (Hnew & Hs & ->)%check_signature_ok & (Hnd & Hseen & Hall & ->)%IH).
    cbn [fst snd] in *. split_and!; try done.
    + intros (sig' & E & Hin)%list_elem_of_fmap. specialize (Hseen _ Hin). set_solver.
    + set_solver.
    + f_equal; [cbn; set_solver | cbn; lia].
  - intros ((Hnin & Hnd) & Hseen & [Hs Hall] & ->). eexists. split.
    + apply check_signature_ok. split_and!; [set_solver | done | done].
    + apply IH. cbn [fst snd]. split_and!; try done.
      * intros sig' Hin. specialize (Hseen sig'). rewrite elem_of_union, elem_of_singleton.
        intros [E|E]; [|set_solver]. apply Hnin. rewrite <- E. by apply list_elem_of_fmap_2.
      * f_equal; [cbn; set_solver | cbn; lia].
Qed.
Lemma loadElection_ok eid s t p t' B :
  represents (world s) B → loadElection eid s t = Ok (p, t') →
  writes t' = writes t ∧ has_election B eid p.
Proof.
  intros HB Hrun. unfold loadElection in Hrun. handler_inv Hrun.
  by apply (findElection_ok _ _ _ _ _ _ HB) in Hrun0.
Qed.

Lemma loadElection_run eid w t params k raw :
  CreateCompositeKey electionIndex [eid] = Ok k → w !! k = Some raw →
  UnmarshalElectionParameters raw = Ok params →
  loadElection eid (healthy w) t = Ok (params, TxLog (k :: reads t) (writes t)).
Proof.
  intros Hk Hw Hu. unfold loadElection.
  by rewrite (mbind_run _ _ _ _ _ _ (findElection_run _ _ _ _ _ _ Hk Hw Hu)).
Qed.

Lemma closed_status_ok (st : bytes) :
  string_of_bytes st = electionStatusClosed ↔ st = closed_value.
Proof.
  split; [|intros ->; apply string_of_bytes_of_string].
  intros E. unfold closed_value. by rewrite <- E, bytes_of_string_of_bytes.
Qed.

(** ** The handlers *)
Lemma CreateElection_inv s hex t B :
  represents (world s) B → CreateElection hex s tx_start = Ok (tt, t) →
  ∃ raw p ke ks, DecodeString hex = Ok raw ∧ UnmarshalElectionParameters raw = Ok p ∧
    params_accepted p ∧ B !! KElection (ElectionParameters.ElectionId p) = None ∧
    composite_key (KElection (ElectionParameters.ElectionId p)) = Ok ke ∧
    composite_key (KStatus (ElectionParameters.ElectionId p)) = Ok ks ∧
    writes t = [(ke, raw); (ks, open_value)].
Proof.
  intros HB Hrun. unfold CreateElection in Hrun. handler_inv Hrun.
  repeat match goal with u : unit |- _ => destruct u end.
  apply not_is_Some_lookup in Hguard.
  eexists _, _, _, _. split_and!; try eassumption; try reflexivity; [by apply check_params_ok|].
  by eapply (represents_lookup _ _ (KElection _)).
Qed.

Lemma PublishDKGTranscript_inv s hex t B :
  represents (world s) B → PublishDKGTranscript hex s tx_start = Ok (tt, t) →
  ∃ raw tr p kd, DecodeString hex = Ok raw ∧ UnmarshalDKGTranscript raw = Ok tr ∧
    has_election B (DKGTranscript.ElectionId tr) p ∧ transcript_accepted tr p ∧
    B !! KDkg (DKGTranscript.ElectionId tr) = None ∧
    composite_key (KDkg (DKGTranscript.ElectionId tr)) = Ok kd ∧ writes t = [(kd, raw)].
Proof.
  intros HB Hrun. unfold PublishDKGTranscript in Hrun. handler_inv Hrun.
  repeat match goal with u : unit |- _ => destruct u end.
  apply not_is_Some_lookup in Hguard.
  eexists _, _, _, _. split_and!; try eassumption; try reflexivity.
  - eexists. split; [by eapply (represents_lookup _ _ (KElection _)) | done].
  - by apply check_transcript_ok.
  - by eapply (represents_lookup _ _ (KDkg _)).
Qed.

Lemma CloseElection_inv s eid t B :
  represents (world s) B → CloseElection eid s tx_start = Ok (tt, t) →
  ∃ st ks, B !! KStatus eid = Some st ∧ st ≠ closed_value ∧
    composite_key (KStatus eid) = Ok ks ∧ writes t = [(ks, closed_value)].
Proof.
  intros HB Hrun. unfold CloseElection in Hrun. handler_inv Hrun.
  apply bool_decide_eq_false in Hguard. rewrite closed_status_ok in Hguard.
  eexists _, _. split_and!; try done. by eapply (represents_lookup _ _ (KStatus _)).
Qed.

Lemma SubmitPartialDecryption_inv s eid hex t B :
  represents (world s) B → SubmitPartialDecryption eid hex s tx_start = Ok (tt, t) →
  ∃ raw pd p kp, eid ≠ "" ∧ DecodeString hex = Ok raw ∧ UnmarshalPartialDecryption raw = Ok pd ∧
    B !! KStatus eid = Some closed_value ∧ has_election B eid p ∧ partial_accepted p pd ∧
    B !! KPartial eid (PartialDecryption.ContestId pd) (PartialDecryption.TrusteeId pd) = None ∧
    composite_key (KPartial eid (PartialDecryption.ContestId pd) (PartialDecryption.TrusteeId pd))
      = Ok kp ∧ writes t = [(kp, raw)].
Proof.
  intros HB Hrun. unfold SubmitPartialDecryption in Hrun. handler_inv Hrun.
  repeat match goal with u : unit |- _ => destruct u end.
  destruct (loadElection_ok _ _ _ _ _ B HB Hrun0) as [-> Hel].
  apply negb_false_iff, bool_decide_eq_true, closed_status_ok in Hguard0. subst.
  apply not_is_Some_lookup in Hguard1. apply bool_decide_eq_false in Hguard.
  eexists _, _, _, _. split_and!; try eassumption; try reflexivity.
  - by eapply (represents_lookup _ _ (KStatus _)).
  - by eapply check_partial_ok.
  - by eapply (represents_lookup _ _ (KPartial _ _ _)).
Qed.

Lemma verifyTallySignatures_ok params tl s t t' B :
  represents (world s) B → verifyTallySignatures params tl s t = Ok (tt, t') →
  writes t' = writes t ∧ TallyResult.Signatures tl ≠ [] ∧
  ∃ tr, has_transcript B (ElectionParameters.ElectionId params) tr ∧
    quorum_signed params tr (TallyResult.Totals tl) (TallyResult.Signatures tl).
Proof.
  intros HB Hrun. unfold verifyTallySignatures in Hrun. handler_inv Hrun.
  apply check_signatures_ok in Hlift0 as (Hnd & _ & Hall & ->).
  cbn [snd] in Hguard0. apply Z.ltb_ge in Hguard0. apply Nat.eqb_neq in Hguard.
  split_and!; [done | by intros E; rewrite E in Hguard |].
  eexists. split; [| by split_and!; [done | lia |]].
  eexists. split; [by eapply (represents_lookup _ _ (KDkg _)) | done].
Qed.

Lemma PublishTally_inv s hex t B :
  represents (world s) B → PublishTally hex s tx_start = Ok (tt, t) →
  ∃ raw tl kt, DecodeString hex = Ok raw ∧ UnmarshalTallyResult raw = Ok tl ∧
    tally_accepted B tl ∧ composite_key (KTally (TallyResult.ElectionId tl)) = Ok kt ∧
    writes t = [(kt, raw)].
Proof.
  intros HB Hrun. unfold PublishTally in Hrun. handler_inv Hrun.
  repeat match goal with u : unit |- _ => destruct u end.
  destruct (loadElection_ok _ _ _ _ _ B HB Hrun0) as [Ew Hel].
  destruct (verifyTallySignatures_ok _ _ _ _ _ B HB Hrun1) as (Ew' & Hne & tr & Htr & Hq).
  cbn [writes] in Ew'. rewrite Ew', Ew.
  apply negb_false_iff, bool_decide_eq_true, closed_status_ok in Hguard1. subst.
  apply not_is_Some_lookup in Hguard3. apply bool_decide_eq_false in Hguard0.
  apply negb_false_iff, Z.eqb_eq in Hguard. apply negb_false_iff, Nat.eqb_eq in Hguard2.
  eexists _, _, _. split_and!; try eassumption; try reflexivity.
  eexists _, _. split_and!; try eassumption.
  - by eapply (represents_lookup _ _ (KStatus _)).
  - by eapply (represents_lookup _ _ (KTally _)).
Qed.

(** ** Forwards *)
Lemma keys_valid_cons rk rks :
  keys_valid (rk :: rks) ↔ (∃ k, composite_key rk = Ok k) ∧ keys_valid rks.
Proof. unfold keys_valid. by rewrite Forall_cons, is_ok_true. Qed.

Ltac keys_in Hkeys :=
  rewrite ?keys_valid_cons in Hkeys; destruct_and? Hkeys;
  repeat match goal with Hk : ∃ k, composite_key _ = Ok k |- _ => destruct Hk as [? Hk] end.

(** Restate a board lookup as a lookup of the world state. *)
Ltac at_world HB :=
  repeat match goal with
  | Hk : composite_key ?rk = Ok ?k, Hl : _ !! ?rk = _ |- _ =>
      rewrite <- (rep_lookup _ _ HB rk k Hk) in Hl
  end.

Lemma CreateElection_run w hex raw p B :
  represents w B → DecodeString hex = Ok raw → UnmarshalElectionParameters raw = Ok p →
  params_accepted p → B !! KElection (ElectionParameters.ElectionId p) = None →
  keys_valid [KElection (ElectionParameters.ElectionId p); KStatus (ElectionParameters.ElectionId p)] →
  ∃ t, CreateElection hex (healthy w) tx_start = Ok (tt, t).
Proof.
  intros HB Hhex Hu Hp%check_params_ok Hn Hkeys. keys_in Hkeys. at_world HB.
  eexists. unfold CreateElection. handler_run.
  rewrite bool_decide_false by by intros [? [=]]. handler_run.
Qed.

Lemma PublishDKGTranscript_run w hex raw tr p B :
  represents w B → DecodeString hex = Ok raw → UnmarshalDKGTranscript raw = Ok tr →
  has_election B (DKGTranscript.ElectionId tr) p → transcript_accepted tr p →
  B !! KDkg (DKGTranscript.ElectionId tr) = None →
  keys_valid [KElection (DKGTranscript.ElectionId tr); KDkg (DKGTranscript.ElectionId tr)] →
  ∃ t, PublishDKGTranscript hex (healthy w) tx_start = Ok (tt, t).
Proof.
  intros HB Hhex Hu (praw & Hp & Hpu) [Ht1 Ht2]%check_transcript_ok Hn Hkeys.
  keys_in Hkeys. at_world HB.
  eexists. unfold PublishDKGTranscript. handler_run.
  rewrite bool_decide_false by by intros [? [=]]. handler_run.
Qed.

Lemma CloseElection_run w eid st B :
  represents w B → B !! KStatus eid = Some st → st ≠ closed_value →
  keys_valid [KStatus eid] → ∃ t, CloseElection eid (healthy w) tx_start = Ok (tt, t).
Proof.
  intros HB Hst Hne Hkeys. keys_in Hkeys. at_world HB.
  eexists. unfold CloseElection. handler_run.
  rewrite bool_decide_false by by rewrite closed_status_ok. handler_run.
Qed.

Lemma SubmitPartialDecryption_run w eid hex raw pd p B :
  represents w B → eid ≠ "" → DecodeString hex = Ok raw →
  UnmarshalPartialDecryption raw = Ok pd →
  B !! KStatus eid = Some closed_value → has_election B eid p → partial_accepted p pd →
  B !! KPartial eid (PartialDecryption.ContestId pd) (PartialDecryption.TrusteeId pd) = None →
  keys_valid [KStatus eid; KElection eid;
    KPartial eid (PartialDecryption.ContestId pd) (PartialDecryption.TrusteeId pd)] →
  ∃ t, SubmitPartialDecryption eid hex (healthy w) tx_start = Ok (tt, t).
Proof.
  intros HB Hne Hhex Hu Hst (praw & Hp & Hpu) Hacc Hn Hkeys.
  apply (check_partial_ok eid) in Hacc as [Hacc1 Hacc2]. keys_in Hkeys. at_world HB.
  eexists. unfold SubmitPartialDecryption. rewrite bool_decide_false by done. handler_run.
  rewrite (proj2 (closed_status_ok _)), bool_decide_true by done. cbn [negb].
  erewrite mbind_run; [| eapply loadElection_run; eassumption]. handler_run.
  rewrite bool_decide_false by by intros [? [=]]. handler_run.
Qed.

Lemma PublishTally_run w hex raw tl B params :
  represents w B → DecodeString hex = Ok raw → UnmarshalTallyResult raw = Ok tl →
  tally_accepted B tl → has_election B (TallyResult.ElectionId tl) params →
  keys_valid [KStatus (TallyResult.ElectionId tl); KElection (TallyResult.ElectionId tl);
    KTally (TallyResult.ElectionId tl); KDkg (ElectionParameters.ElectionId params)] →
  ∃ t, PublishTally hex (healthy w) tx_start = Ok (tt, t).
Proof.
  intros HB Hhex Hu (p & tr & Hv & He & Hst & (praw & Hp & Hpu) & Hl & Hn & Hsig &
    (traw & Htr & Htu) & Hnd & Hth & Hall) (praw' & Hp' & Hpu') Hkeys.
  assert (params = p) as -> by congruence. clear Hp' Hpu' praw'.
  keys_in Hkeys. at_world HB.
  eexists. unfold PublishTally. handler_run. rewrite Hv. cbn [negb Z.eqb Pos.eqb WireVersion].
  rewrite bool_decide_false by done. handler_run.
  rewrite (proj2 (closed_status_ok _)), bool_decide_true by done. cbn [negb].
  erewrite mbind_run; [| eapply loadElection_run; eassumption].
  rewrite Hl, Nat.eqb_refl. cbn [negb]. handler_run.
  rewrite bool_decide_false by by intros [? [=]].
  erewrite mbind_run; [handler_run|].
  unfold verifyTallySignatures.
  destruct (TallyResult.Signatures tl) as [|sig sigs] eqn:Es; [done|].
  cbn [length Nat.eqb]. handler_run.
  erewrite mbind_run; [| apply mlift_run, check_signatures_ok; split_and!; try done; set_solver].
  cbn [snd]. rewrite (proj2 (Z.ltb_ge _ _)) by (cbn [length] in *; lia). reflexivity.
Qed.
End lifecycle.
