(* ===== verification/Ledger.v ===== *)
(** * The bulletin board as a ledger

    Histories of committed transactions.  Endorsement and commit are separate
    in Fabric: a transaction runs against whatever state its peer had, and is
    committed later if the committer finds the keys it read unchanged.  The
    committer is the class [Committer]; its documented guarantee is
    [validate_reads]. *)
From S2P Require Import Prelude Fabric Hex Wire Ristretto.
From S2P Require Import CdsVerify CredVerify SelectionVerify SigVerify Contract BoardSpec.
From S2P Require Import HandlerFacts.
Import Contract.

(** [validate we wc t]: whether the transaction [t], endorsed on [we], may be
    committed on [wc]. *)
Class Committer := { validate : worldstate → worldstate → txlog → bool }.

Class CommitterLaws `{Committer} := {
  validate_reads : ∀ we wc t, validate we wc t = true →
    ∀ k, k ∈ reads t → wc !! k = we !! k
}.

Section defs.
Context `{FabricShim, Proto, Ristretto, Merlin, Json, Committer}.

(** [commits w h w']: starting at [w], the transactions [h] were committed in
    this order, each endorsed at some point on some peer, reaching [w']. *)
Inductive commits (w : worldstate) : list invocation → worldstate → Prop :=
| commits_nil : commits w [] w
| commits_snoc h w' i s t :
    commits w h w' → handler i s tx_start = Ok (tt, t) → validate (world s) w' t = true →
    commits w (h ++ [i]) (apply_writes (writes t) w').

(** One transaction at a time, each on the state the previous one left. *)
Fixpoint replay (h : list invocation) (w : worldstate) : option worldstate :=
  match h with
  | [] => Some w
  | i :: h =>
      match submit (handler i) (healthy w) with
      | (w', Ok _) => replay h w'
      | (_, Err _) => None
      end
  end.

(** The abstract counterpart. *)
Inductive board_steps (B : board) : list invocation → board → Prop :=
| steps_nil : board_steps B [] B
| steps_snoc h B' i B'' :
    board_steps B h B' → board_step B' i B'' → board_steps B (h ++ [i]) B''.

(** The ballots of a history: slot and stored bytes, in commit order. *)
Definition cast_ballot (i : invocation) : option ((string * string) * bytes) :=
  match i with
  | ISubmitBallot hex =>
      match DecodeString hex with
      | Ok raw => match UnmarshalBallot raw with
                  | Ok b => Some (ballot_slot b, raw)
                  | Err _ => None
                  end
      | Err _ => None
      end
  | _ => None
  end.

Definition cast (h : list invocation) : list ((string * string) * bytes) :=
  omap cast_ballot h.

(** What holds of each record of a reachable board. *)
Definition record_wf (B : board) (rk : record_key) (raw : bytes) : Prop :=
  match rk with
  | KElection e => is_Some (B !! KStatus e) ∧
      ∃ p, UnmarshalElectionParameters raw = Ok p ∧ params_accepted p ∧
           ElectionParameters.ElectionId p = e
  | KStatus e => (raw = open_value ∨ raw = closed_value) ∧ is_Some (B !! KElection e)
  | KDkg e =>
      ∃ tr p, UnmarshalDKGTranscript raw = Ok tr ∧ DKGTranscript.ElectionId tr = e ∧
        has_election B e p ∧ transcript_accepted tr p
  | KBallot e n => B !! KNullifier e n = Some [x01] ∧
      ∃ b pr p tr epk, UnmarshalBallot raw = Ok b ∧ ballot_slot b = (e, n) ∧
        ballot_shape b pr ∧ has_election B e p ∧ credential_accepted p pr ∧
        has_transcript B e tr ∧ SigVerify.deriveElectionPublicKey tr = Ok epk ∧
        record_proved b p epk
  | KNullifier e n => raw = [x01] ∧ is_Some (B !! KBallot e n)
  | KPartial e c t =>
      ∃ pd p, UnmarshalPartialDecryption raw = Ok pd ∧ PartialDecryption.ContestId pd = c ∧
        PartialDecryption.TrusteeId pd = t ∧ has_election B e p ∧ partial_accepted p pd ∧
        B !! KStatus e = Some closed_value
  | KTally e =>
      ∃ tl p tr, UnmarshalTallyResult raw = Ok tl ∧ TallyResult.ElectionId tl = e ∧
        has_election B e p ∧ has_transcript B e tr ∧
        length (TallyResult.Totals tl) = length (ElectionParameters.ContestIds p) ∧
        quorum_signed p tr (TallyResult.Totals tl) (TallyResult.Signatures tl) ∧
        B !! KStatus e = Some closed_value
  end.

Definition board_wf (B : board) : Prop :=
  ∀ rk raw, B !! rk = Some raw → record_wf B rk raw.

(** [B'] keeps every record of [B]; only a status may change, to closed. *)
Definition board_extends (B B' : board) : Prop :=
  ∀ rk v, B !! rk = Some v →
    B' !! rk = Some v ∨ ∃ e, rk = KStatus e ∧ B' !! rk = Some closed_value.
End defs.

(** ** Every handler is replayable *)
Section replayable.
Context `{FabricShim, Proto, Ristretto, Merlin, Json}.

#[export] Instance replay_findElection eid : Replayable (findElection eid).
Proof. unfold findElection, build_key, read_key. apply _. Qed.

#[export] Instance replay_loadElection eid : Replayable (loadElection eid).
Proof. unfold loadElection. apply _. Qed.

#[export] Instance replay_verifyTally p tl : Replayable (verifyTallySignatures p tl).
Proof. unfold verifyTallySignatures, build_key, read_key. apply _. Qed.

#[export] Instance replay_handler i : Replayable (handler i).
Proof.
  destruct i; cbn [handler];
    unfold SubmitBallot, CreateElection, PublishDKGTranscript, CloseElection,
      SubmitPartialDecryption, PublishTally, build_key, read_key, write_key; apply _.
Qed.
End replayable.

(** ** Endorsed runs and the abstract board *)
Section refinement.
Context `{FabricShimLaws, Proto, Ristretto, Merlin, Json}.

Lemma handler_sound s i t B :
  represents (world s) B → handler i s tx_start = Ok (tt, t) →
  ∃ B', board_step B i B' ∧ represents (apply_writes (writes t) (world s)) B'.
Proof.
  intros HB Hrun. destruct i as [hex|hex|hex|eid|eid hex|hex]; cbn [handler] in Hrun.
  - apply (SubmitBallot_inv _ _ _ B HB) in Hrun
      as (raw & b & kb & kn & Hh & Hu & Hacc & Hkb & Hkn & ->).
    exists (record_ballot B b raw). split; [by econstructor|].
    by apply represents_insert; [|apply represents_insert].
  - apply (CreateElection_inv _ _ _ B HB) in Hrun
      as (raw & p & ke & ks & Hh & Hu & Hacc & Hn & Hke & Hks & ->).
    eexists. split; [by econstructor|]. by apply represents_insert; [|apply represents_insert].
  - apply (PublishDKGTranscript_inv _ _ _ B HB) in Hrun
      as (raw & tr & p & kd & Hh & Hu & Hp & Hacc & Hn & Hkd & ->).
    eexists. split; [by econstructor|]. by apply represents_insert.
  - apply (CloseElection_inv _ _ _ B HB) in Hrun as (st & ks & Hst & Hne & Hks & ->).
    eexists. split; [by econstructor|]. by apply represents_insert.
  - apply (SubmitPartialDecryption_inv _ _ _ _ B HB) in Hrun
      as (raw & pd & p & kp & He & Hh & Hu & Hst & Hp & Hacc & Hn & Hkp & ->).
    eexists. split; [by econstructor|]. by apply represents_insert.
  - apply (PublishTally_inv _ _ _ B HB) in Hrun as (raw & tl & kt & Hh & Hu & Hacc & Hkt & ->).
    eexists. split; [by econstructor|]. by apply represents_insert.
Qed.

Lemma handler_run_ok w i B B' rks :
  represents w B → board_step B i B' → invocation_records B i rks → keys_valid rks →
  ∃ t, handler i (healthy w) tx_start = Ok (tt, t).
Proof.
  intros HB Hstep Hrks Hkeys. destruct Hstep; cbn [handler invocation_records] in *.
  - destruct Hrks as (raw' & b' & ? & ? & ->). ok_inj. by eapply SubmitBallot_run.
  - destruct Hrks as (raw' & b' & ? & ? & ->). ok_inj. by eapply CreateElection_run.
  - destruct Hrks as (raw' & b' & ? & ? & ->). ok_inj. by eapply PublishDKGTranscript_run.
  - subst. by eapply CloseElection_run.
  - destruct Hrks as (raw' & b' & ? & ? & ->). ok_inj. by eapply SubmitPartialDecryption_run.
  - destruct Hrks as (raw' & b' & p & ? & ? & ? & ->). ok_inj. by eapply PublishTally_run.
Qed.

Lemma submit_sound s i w' B :
  represents (world s) B → submit (handler i) s = (w', Ok tt) →
  ∃ B', board_step B i B' ∧ represents w' B'.
Proof. intros HB (t & Hrun & ->)%submit_ok. by apply handler_sound. Qed.

Lemma represents_empty : represents ∅ ∅.
Proof. split; [intros rk k _; by rewrite !lookup_empty | by intros k [? [=]] | by intros rk [? [=]]]. Qed.
End refinement.

(** ** Abstract steps preserve the invariant *)
Section invariant.
Context `{FabricShimLaws, Proto, Ristretto, Merlin, Json}.

#[export] Instance board_extends_preorder : PreOrder board_extends.
Proof.
  split; [by intros B rk v; left|].
  intros B1 B2 B3 H12 H23 rk v E. destruct (H12 _ _ E) as [E2|(e & -> & E2)]; [by apply H23|].
  destruct (H23 _ _ E2) as [E3|(e' & [= <-] & E3)]; eauto.
Qed.

Lemma extends_insert (B : board) rk v : B !! rk = None → board_extends B (<[rk := v]> B).
Proof.
  intros Hn rk' v' E. left. rewrite lookup_insert_ne; [done|]. intros ->. congruence.
Qed.

Lemma extends_has_election B B' e p : board_extends B B' → has_election B e p → has_election B' e p.
Proof.
  intros HB (raw & E & Hu). exists raw. split; [|done].
  by destruct (HB _ _ E) as [?|(? & [=] & _)].
Qed.

Lemma extends_has_transcript B B' e tr :
  board_extends B B' → has_transcript B e tr → has_transcript B' e tr.
Proof.
  intros HB (raw & E & Hu). exists raw. split; [|done].
  by destruct (HB _ _ E) as [?|(? & [=] & _)].
Qed.

Lemma extends_is_Some B B' rk :
  board_extends B B' → is_Some (B !! rk) → is_Some (B' !! rk).
Proof. intros HB [v E]. destruct (HB _ _ E) as [?|(? & ? & ?)]; eauto. Qed.

Lemma extends_nullifier B B' e n v :
  board_extends B B' → B !! KNullifier e n = Some v → B' !! KNullifier e n = Some v.
Proof. intros HB E. by destruct (HB _ _ E) as [?|(? & [=] & _)]. Qed.

Lemma extends_closed B B' e :
  board_extends B B' → B !! KStatus e = Some closed_value → B' !! KStatus e = Some closed_value.
Proof. intros HB E. by destruct (HB _ _ E) as [?|(? & [= ->] & ?)]. Qed.

Lemma record_wf_mono B B' rk raw :
  board_extends B B' → record_wf B rk raw → record_wf B' rk raw.
Proof.
  intros HB. destruct rk; cbn [record_wf].
  - intros (Hs & Hp). eauto using extends_is_Some.
  - intros (Hv & He). eauto using extends_is_Some.
  - intros (tr & p & ? & ? & ? & ?). exists tr, p. eauto using extends_has_election.
  - intros (? & b & pr & p & tr & epk & ? & ? & ? & ? & ? & ? & ? & ?).
    split; [by eapply extends_nullifier|]. exists b, pr, p, tr, epk.
    split_and!; eauto using extends_has_election, extends_has_transcript.
  - intros (? & ?). eauto using extends_is_Some.
  - intros (pd & p & ? & ? & ? & ? & ? & ?). exists pd, p.
    split_and!; eauto using extends_has_election, extends_closed.
  - intros (tl & p & tr & ? & ? & ? & ? & ? & ? & ?). exists tl, p, tr.
    split_and!; eauto using extends_has_election, extends_has_transcript, extends_closed.
Qed.

Lemma wf_extend B B' :
  board_wf B → board_extends B B' →
  (∀ rk raw, B' !! rk = Some raw → B !! rk = Some raw ∨ record_wf B' rk raw) → board_wf B'.
Proof.
  intros Hwf HB Hnew rk raw E. destruct (Hnew _ _ E) as [E'|?]; [|done].
  eapply record_wf_mono; [done|]. by apply Hwf.
Qed.

Lemma wf_no_ballot B e n :
  board_wf B → B !! KNullifier e n = None → B !! KBallot e n = None.
Proof.
  intros Hwf Hn. destruct (B !! KBallot e n) as [raw|] eqn:E; [|done].
  destruct (Hwf _ _ E) as [E' _]. congruence.
Qed.

Lemma wf_no_status B e : board_wf B → B !! KElection e = None → B !! KStatus e = None.
Proof.
  intros Hwf Hn. destruct (B !! KStatus e) as [raw|] eqn:E; [|done].
  destruct (Hwf _ _ E) as [_ [? E']]. congruence.
Qed.

Lemma step_extends B i B' : board_wf B → board_step B i B' → board_extends B B'.
Proof.
  intros Hwf Hstep. destruct Hstep.
  - unfold record_ballot. destruct H7 as (p & params & tr & epk & ? & ? & ? & ? & Hn & _).
    transitivity (<[KBallot (ballot_slot b).1 (ballot_slot b).2 := raw]> B).
    + by apply extends_insert, wf_no_ballot.
    + apply extends_insert. by rewrite lookup_insert_ne.
  - transitivity (<[KElection (ElectionParameters.ElectionId params) := raw]> B).
    + by apply extends_insert.
    + apply extends_insert. rewrite lookup_insert_ne by done. by apply wf_no_status.
  - by apply extends_insert.
  - intros rk v E. destruct (decide (rk = KStatus eid)) as [->|Hne].
    + right. exists eid. by rewrite lookup_insert_eq.
    + left. by rewrite lookup_insert_ne.
  - by apply extends_insert.
  - destruct H7 as (p & tr & _ & _ & _ & _ & _ & Hn & _). by apply extends_insert.
Qed.

Lemma lookup_insert_inv (B : board) rk v rk' v' :
  <[rk := v]> B !! rk' = Some v' → (rk' = rk ∧ v' = v) ∨ B !! rk' = Some v'.
Proof.
  destruct (decide (rk = rk')) as [<-|Hne].
  - rewrite lookup_insert_eq. intros [= <-]. by left.
  - rewrite lookup_insert_ne by done. by right.
Qed.

Lemma insert_status_lookup (B : board) e v rk :
  (∀ e', rk ≠ KStatus e') → <[KStatus e := v]> B !! rk = B !! rk.
Proof. intros Hne. apply lookup_insert_ne. naive_solver. Qed.

Lemma step_wf B i B' : board_wf B → board_step B i B' → board_wf B'.
Proof.
  intros Hwf Hstep. pose proof (step_extends _ _ _ Hwf Hstep) as Hext.
  apply (wf_extend B); [done..|]. intros rk v. destruct Hstep.
  - destruct H7 as (p & params & tr & epk & Hsh & Hp & Hcr & Hst & Hn & Htr & Hepk & Hpr).
    assert (record_ballot B b raw !! KNullifier (ballot_slot b).1 (ballot_slot b).2 = Some [x01])
      as En by apply lookup_insert_eq.
    assert (record_ballot B b raw !! KBallot (ballot_slot b).1 (ballot_slot b).2 = Some raw)
      as Eb by by unfold record_ballot; rewrite lookup_insert_ne, lookup_insert_eq.
    intros [[-> ->]|[[-> ->]|E]%lookup_insert_inv]%lookup_insert_inv; [right; cbn..|by left].
    + eauto.
    + split; [done|]. exists b, p, params, tr, epk.
      split_and!; eauto using extends_has_election, extends_has_transcript.
  - intros [[-> ->]|[[-> ->]|E]%lookup_insert_inv]%lookup_insert_inv; [right; cbn..|by left].
    + split; [by left|]. rewrite lookup_insert_ne, lookup_insert_eq by done. eauto.
    + split; [rewrite lookup_insert_eq; eauto|]. eauto.
  - intros [[-> ->]|E]%lookup_insert_inv; [right; cbn|by left].
    exists tr, params. eauto using extends_has_election.
  - intros [[-> ->]|E]%lookup_insert_inv; [right; cbn|by left]. split; [by right|].
    rewrite lookup_insert_ne by done. by destruct (Hwf _ _ H5) as [_ ?].
  - intros [[-> ->]|E]%lookup_insert_inv; [right; cbn|by left].
    exists pd, params. split_and!; eauto using extends_has_election, extends_closed.
  - destruct H7 as (p & tr & Hv & He & Hst & Hp & Hl & Hn & Hs & Htr & Hq).
    intros [[-> ->]|E]%lookup_insert_inv; [right; cbn|by left].
    assert (ElectionParameters.ElectionId p = TallyResult.ElectionId tally) as Hid.
    { destruct Hp as (praw & E & Hu). destruct (Hwf _ _ E) as (_ & p' & Hu' & _ & <-).
      by ok_inj. }
    rewrite Hid in Htr. exists tally, p, tr.
    split_and!; eauto using extends_has_election, extends_has_transcript, extends_closed.
Qed.

Lemma step_deterministic B i B1 B2 : board_step B i B1 → board_step B i B2 → B1 = B2.
Proof. intros S1 S2. destruct S1; inversion S2; subst; ok_inj; done. Qed.

Lemma steps_wf B h B' : board_wf B → board_steps B h B' → board_wf B' ∧ board_extends B B'.
Proof.
  intros Hwf. induction 1 as [|h B' i B'' _ [IH1 IH2] Hstep]; [done|].
  split; [by eapply step_wf|]. transitivity B'; [done|]. by eapply step_extends.
Qed.

Lemma board_wf_empty : board_wf ∅.
Proof. intros rk v. by rewrite lookup_empty. Qed.
End invariant.

(** ** Histories *)
Section histories.
Context `{FabricShimLaws, Proto, Ristretto, Merlin, Json, CommitterLaws}.

(** A validated transaction would have done the same on the committed state. *)
Lemma commit_reruns w w' i s t :
  handler i s tx_start = Ok (tt, t) → validate (world s) w t = true →
  w' = w → handler i (healthy w') tx_start = Ok (tt, t).
Proof.
  intros Hrun Hval ->. eapply replay_same; [done|].
  intros k Hk. by apply (validate_reads _ _ _ Hval).
Qed.

Lemma replay_app h1 h2 w :
  replay (h1 ++ h2) w = w' ← replay h1 w; replay h2 w'.
Proof.
  revert w. induction h1 as [|i h1 IH]; intros w; [done|]. cbn.
  destruct (submit (handler i) (healthy w)) as [w' [[]|e]]; [apply IH | done].
Qed.

Lemma commits_steps w h w' B :
  represents w B → commits w h w' → ∃ B', board_steps B h B' ∧ represents w' B'.
Proof.
  intros HB. induction 1 as [|h w' i s t Hc (B' & Hs & HB') Hrun Hval]; [eauto using steps_nil|].
  pose proof (commit_reruns _ _ _ _ _ Hrun Hval eq_refl) as Hrun'.
  destruct (handler_sound (healthy w') _ _ B' HB' Hrun') as (B'' & Hstep & HB'').
  exists B''. split; [by econstructor | done].
Qed.

(** What one step does to the ballots. *)
Lemma step_ballots B i B' :
  board_wf B → board_step B i B' →
  match cast_ballot i with
  | Some ((e, n), raw) => B !! KBallot e n = None ∧ B !! KStatus e = Some open_value ∧
      ∀ e' n', B' !! KBallot e' n' =
        if decide ((e', n') = (e, n)) then Some raw else B !! KBallot e' n'
  | None => ∀ e' n', B' !! KBallot e' n' = B !! KBallot e' n'
  end.
Proof.
  intros Hwf Hstep. destruct Hstep as [hex raw b Hh Hu Hacc|hex raw p Hh Hu|hex raw tr p Hh Hu| | |hex raw tl];
    cbn [cast_ballot]; try (intros e' n'; by rewrite ?lookup_insert_ne by done).
  rewrite Hh, Hu. destruct (ballot_slot b) as [e n] eqn:Eslot.
  destruct Hacc as (pr & p & tr & epk & Hsh & Hp & Hcr & Hst & Hn & Htr & Hepk & Hpr).
  unfold record_ballot. rewrite Eslot in *. cbn [fst snd] in *.
  assert (Ballot.ElectionId b = e) as <- by (unfold ballot_slot in Eslot; congruence).
  split; [by apply wf_no_ballot | split; [done|]]. intros e' n'.
  rewrite lookup_insert_ne by done. case_decide as E.
  - injection E as -> ->. apply lookup_insert_eq.
  - rewrite lookup_insert_ne; [done | congruence].
Qed.

Lemma cast_snoc h i : cast (h ++ [i]) = cast h ++ cast [i].
Proof. apply omap_app. Qed.

Lemma steps_ballots B h B' :
  board_wf B → board_steps B h B' →
  NoDup (cast h).*1 ∧
  (∀ slot, slot ∈ (cast h).*1 → B !! KBallot slot.1 slot.2 = None) ∧
  ∀ e n raw, B' !! KBallot e n = Some raw ↔
    B !! KBallot e n = Some raw ∨ ((e, n), raw) ∈ cast h.
Proof.
  intros Hwf. induction 1 as [|h B' i B'' Hsteps (IH1 & IH2 & IH3) Hstep].
  { cbn. split_and!; [constructor | set_solver | set_solver]. }
  destruct (steps_wf _ _ _ Hwf Hsteps) as [Hwf' Hext].
  pose proof (step_ballots _ _ _ Hwf' Hstep) as Hb.
  rewrite cast_snoc. unfold cast at 2 4 6. cbn [omap list_omap].
  destruct (cast_ballot i) as [[[e n] raw]|].
  2: { rewrite app_nil_r. split_and!; [done..|]. intros e n raw. by rewrite Hb. }
  destruct Hb as (Hfresh & _ & Hb).
  assert ((e, n) ∉ (cast h).*1) as Hnin.
  { intros ([slot v] & Es & Hin)%list_elem_of_fmap. cbn in Es. subst slot.
    rewrite (proj2 (IH3 e n v)) in Hfresh by by right. done. }
  rewrite fmap_app. cbn. split_and!.
  - rewrite Permutation_app_comm. cbn. by constructor.
  - intros slot [Hin| ->%list_elem_of_singleton]%elem_of_app; [by apply IH2|]. cbn.
    destruct (B !! KBallot e n) as [v|] eqn:E; [|done].
    rewrite (proj2 (IH3 e n v)) in Hfresh by by left. done.
  - intros e' n' raw'. rewrite Hb, elem_of_app, list_elem_of_singleton. case_decide as E.
    + injection E as -> ->. rewrite IH3 in Hfresh || idtac. split.
      * intros [= <-]. eauto.
      * intros [E|[Hin|[= ->]]]; [| |done].
        -- rewrite (proj2 (IH3 e n raw')) in Hfresh by by left. done.
        -- rewrite (proj2 (IH3 e n raw')) in Hfresh by by right. done.
    + rewrite IH3. naive_solver.
Qed.

(** After the close nothing is cast for the election. *)
Lemma steps_closed B h B' e :
  board_wf B → B !! KStatus e = Some closed_value → board_steps B h B' →
  Forall (λ c : (string * string) * bytes, c.1.1 ≠ e) (cast h).
Proof.
  intros Hwf Hcl. induction 1 as [|h B' i B'' Hsteps IH Hstep]; [constructor|].
  destruct (steps_wf _ _ _ Hwf Hsteps) as [Hwf' Hext].
  pose proof (step_ballots _ _ _ Hwf' Hstep) as Hb.
  rewrite cast_snoc, Forall_app. split; [done|]. unfold cast. cbn [omap list_omap].
  destruct (cast_ballot i) as [[[e' n] raw]|]; [|constructor].
  constructor; [|constructor]. cbn. intros ->.
  destruct Hb as (_ & Hop & _). rewrite (extends_closed _ _ _ Hext Hcl) in Hop. done.
Qed.
End histories.

(** ** The claims *)
Section claims.
Context `{FabricShimLaws, Proto, Ristretto, Merlin, Json, CommitterLaws}.

(** C1: The chaincode implements the abstract bulletin board.  On a ledger that
    holds exactly the records of [B], a transaction that succeeds (whatever
    ledger faults the peer may have) makes exactly the step the specification
    [board_step] allows, and leaves a ledger that holds exactly the new board;
    a transaction that fails leaves the ledger as it was. *)
Theorem handlers_refine_board s i w' r B :
  represents (world s) B → submit (handler i) s = (w', r) →
  match r with
  | Ok _ => ∃ B', board_step B i B' ∧ represents w' B'
  | Err _ => w' = world s
  end.
Proof.
  intros HB Hsub. destruct r as [[]|e].
  - by eapply submit_sound.
  - by destruct (submit_err _ _ _ _ Hsub).
Qed.

(** C16: Every transaction the specification accepts succeeds on a healthy
    peer, if the shim can build the keys of the records it names: the chaincode
    refuses nothing it should accept. *)
Theorem handlers_accept w i B B' rks :
  represents w B → board_step B i B' → invocation_records B i rks → keys_valid rks →
  ∃ w', submit (handler i) (healthy w) = (w', Ok tt) ∧ represents w' B'.
Proof.
  intros HB Hstep Hrks Hkeys. destruct (handler_run_ok _ _ _ _ _ HB Hstep Hrks Hkeys) as [t Ht].
  destruct (handler_sound (healthy w) _ _ _ HB Ht) as (B'' & Hstep' & HB'').
  rewrite <- (step_deterministic _ _ _ _ Hstep Hstep') in HB''.
  eexists. split; [apply submit_ok; eauto | done].
Qed.

(** Concurrency is harmless: whatever peers endorsed the transactions on
    whatever states, if the committer validated what they had read then the
    committed history is the one obtained by executing the same transactions
    one at a time, in commit order, each on the state the previous one left. *)
Theorem committed_history_serializable w h w' : commits w h w' → replay h w = Some w'.
Proof.
  induction 1 as [|h w' i s t Hc IH Hrun Hval]; [done|].
  rewrite replay_app, IH. cbn. unfold submit.
  rewrite (commit_reruns _ _ _ _ _ Hrun Hval eq_refl). done.
Qed.

(** C2: One credential, one recorded vote: in every committed history, however
    its transactions were interleaved, no two ballots have the same election
    and nullifier, and the ballots on the ledger are exactly the ones cast,
    byte for byte: nothing is lost, added or replaced. *)
Theorem ballots_cast_once_and_recorded h w :
  commits ∅ h w →
  NoDup (cast h).*1 ∧
  ∀ e n raw, ((e, n), raw) ∈ cast h ↔
    ∃ k, composite_key (KBallot e n) = Ok k ∧ w !! k = Some raw.
Proof.
  intros Hc. destruct (commits_steps _ _ _ _ represents_empty Hc) as (B & Hsteps & HB).
  destruct (steps_ballots _ _ _ board_wf_empty Hsteps) as (Hnd & _ & Hb).
  split; [done|]. intros e n raw. specialize (Hb e n raw).
  rewrite lookup_empty in Hb. split.
  - intros Hin. destruct (rep_records _ _ HB (KBallot e n)) as [k Hk]; [eexists; naive_solver|].
    exists k. split; [done|]. rewrite (rep_lookup _ _ HB _ _ Hk). naive_solver.
  - intros (k & Hk & E). rewrite (rep_lookup _ _ HB _ _ Hk) in E. naive_solver.
Qed.

(** C18: The board is append-only: once a record is on the ledger, every later
    history leaves it there unchanged; the only exception is an election's
    status, which may only become closed. *)
Theorem board_is_append_only h1 w h2 w' rk k v :
  commits ∅ h1 w → commits w h2 w' → composite_key rk = Ok k → w !! k = Some v →
  w' !! k = Some v ∨ ∃ e, rk = KStatus e ∧ w' !! k = Some closed_value.
Proof.
  intros Hc1 Hc2 Hk Hv.
  destruct (commits_steps _ _ _ _ represents_empty Hc1) as (B & Hs1 & HB).
  destruct (commits_steps _ _ _ _ HB Hc2) as (B' & Hs2 & HB').
  destruct (steps_wf _ _ _ board_wf_empty Hs1) as [Hwf _].
  destruct (steps_wf _ _ _ Hwf Hs2) as [_ Hext].
  rewrite (rep_lookup _ _ HB _ _ Hk) in Hv. rewrite (rep_lookup _ _ HB' _ _ Hk). by apply Hext.
Qed.

(** C17: A closed election stays closed and its ballot set is frozen: no later
    history casts a ballot for it, and the ledger's ballots for it are the same
    after as before. *)
Theorem closed_election_is_frozen h1 w h2 w' e ks :
  commits ∅ h1 w → commits w h2 w' →
  composite_key (KStatus e) = Ok ks → w !! ks = Some closed_value →
  w' !! ks = Some closed_value ∧
  Forall (λ c : (string * string) * bytes, c.1.1 ≠ e) (cast h2) ∧
  ∀ n k, composite_key (KBallot e n) = Ok k → w' !! k = w !! k.
Proof.
  intros Hc1 Hc2 Hk Hst.
  destruct (commits_steps _ _ _ _ represents_empty Hc1) as (B & Hs1 & HB).
  destruct (commits_steps _ _ _ _ HB Hc2) as (B' & Hs2 & HB').
  destruct (steps_wf _ _ _ board_wf_empty Hs1) as [Hwf _].
  destruct (steps_wf _ _ _ Hwf Hs2) as [_ Hext].
  rewrite (rep_lookup _ _ HB _ _ Hk) in Hst. pose proof (steps_closed _ _ _ _ Hwf Hst Hs2) as Hfree.
  split; [|split; [done|]].
  { rewrite (rep_lookup _ _ HB' _ _ Hk). by apply (extends_closed B). }
  intros n k Hkb. rewrite (rep_lookup _ _ HB _ _ Hkb), (rep_lookup _ _ HB' _ _ Hkb).
  destruct (steps_ballots _ _ _ Hwf Hs2) as (_ & _ & Hb).
  apply option_eq. intros raw. rewrite Hb. split; [|by left].
  intros [?|Hin]; [done|]. rewrite Forall_forall in Hfree. by destruct (Hfree _ Hin).
Qed.

(** C14: Universal verifiability: after every committed history, every record on
    the ledger is well formed and verifies against the other records of the same
    ledger.  An election has valid parameters stored under its own id and a
    status that is open or closed; a transcript matches its election; a ballot
    has a spent nullifier, an issuer-signed credential and valid proofs for the
    contests of its position under the key its election's transcript yields; a
    partial decryption names a contest and a trustee of a closed election; a
    tally is signed by a quorum of distinct trustees. *)
Theorem ledger_records_verify h w :
  commits ∅ h w → ∃ B, represents w B ∧ board_wf B.
Proof.
  intros Hc. destruct (commits_steps _ _ _ _ represents_empty Hc) as (B & Hsteps & HB).
  exists B. split; [done|]. by destruct (steps_wf _ _ _ board_wf_empty Hsteps).
Qed.
End claims.
