(* ===== verification/Positions.v ===== *)
(** * Which contests a ballot covers

    [contestIndicesForPosition]: the contests of a position are those whose id
    starts with the position's id and a slash. *)
From S2P Require Import Prelude Fabric Contract.
Import Contract.
From Stdlib Require Import Sorted Ascii.

Definition slash_free (s : string) : bool := negb (str_contains s "/").

Lemma has_prefix_spec s p : has_prefix s p = true ↔ ∃ r, s = p +:+ r.
Proof.
  revert s. induction p as [|c p IH]; intros s.
  { split; [by exists s|]. by destruct s. }
  destruct s as [|d s]; cbn [has_prefix].
  { split; [done | by intros [r [=]]]. }
  rewrite andb_true_iff, bool_decide_eq_true, IH. split.
  - intros [-> [r ->]]. by exists r.
  - intros [r [= -> ->]]. eauto.
Qed.

Lemma str_contains_slash c s :
  str_contains (String c s) "/" = bool_decide ("/"%char = c) || str_contains s "/".
Proof. cbn [str_contains has_prefix]. destruct s; by rewrite andb_true_r. Qed.

Lemma slash_free_cons c s :
  slash_free (String c s) = true ↔ c ≠ "/"%char ∧ slash_free s = true.
Proof.
  unfold slash_free. rewrite !negb_true_iff, str_contains_slash, orb_false_iff,
    bool_decide_eq_false. naive_solver.
Qed.

(** Two slash-free position ids followed by a slash start the same string only
    if they are the same. *)
Lemma append_assoc (a b c : string) : (a +:+ b) +:+ c = a +:+ b +:+ c.
Proof.
  induction a as [|x a IH]; [done|]. change (String x ((a +:+ b) +:+ c) = String x (a +:+ b +:+ c)).
  by rewrite IH.
Qed.

Lemma append_slash_inj p q r r' :
  slash_free p = true → slash_free q = true →
  (p +:+ "/") +:+ r = (q +:+ "/") +:+ r' → p = q.
Proof.
  revert q. induction p as [|c p IH]; intros q Hp Hq E.
  - destruct q as [|d q]; [done|]. apply slash_free_cons in Hq as [Hd _].
    by injection E as <- _.
  - apply slash_free_cons in Hp as [Hc Hp]. destruct q as [|d q].
    + by injection E as -> _.
    + apply slash_free_cons in Hq as [_ Hq]. injection E as -> E. f_equal. by apply IH.
Qed.

Lemma position_prefix_unique p q s :
  slash_free p = true → slash_free q = true →
  has_prefix s (p +:+ "/") = true → has_prefix s (q +:+ "/") = true → p = q.
Proof.
  intros Hp Hq [r ->]%has_prefix_spec [r' E]%has_prefix_spec. by eapply append_slash_inj.
Qed.

Lemma imap_pair_lookup {A} (l : list A) (g : nat) (x : A) :
  (g, x) ∈ imap pair l ↔ l !! g = Some x.
Proof.
  rewrite list_elem_of_lookup. setoid_rewrite list_lookup_imap_Some. naive_solver.
Qed.

Lemma contestIndices_elem cids pid g :
  g ∈ contestIndicesForPosition cids pid ↔
  ∃ cid, cids !! g = Some cid ∧ (pid = "" ∨ has_prefix cid (pid +:+ "/") = true).
Proof.
  unfold contestIndicesForPosition. case_bool_decide as Hp.
  - rewrite list_elem_of_In, in_seq. split.
    + intros [_ Hg]. destruct (lookup_lt_is_Some_2 cids g) as [cid Hc]; [lia|]. eauto.
    + intros (cid & Hc & _). apply lookup_lt_Some in Hc. lia.
  - rewrite list_elem_of_fmap. split.
    + intros ([g' cid] & -> & [Hpre Hin]%list_elem_of_filter). cbn in *.
      apply imap_pair_lookup in Hin. eauto.
    + intros (cid & Hc & [?|Hpre]); [done|]. exists (g, cid). split; [done|].
      by apply list_elem_of_filter, conj; [|apply imap_pair_lookup].
Qed.


Lemma contestIndices_sorted cids pid : StronglySorted lt (contestIndicesForPosition cids pid).
Proof.
  unfold contestIndicesForPosition. case_bool_decide.
  - generalize 0%nat. induction (length cids) as [|n IH]; intros k; cbn; [constructor|].
    constructor; [apply IH|]. apply Forall_forall. intros x.
    rewrite list_elem_of_In, in_seq. lia.
  - assert (∀ (l : list string) k, StronglySorted lt
      (filter (λ ic : nat * string, has_prefix ic.2 (pid +:+ "/") = true)
         (imap (λ i c, ((k + i)%nat, c)) l)).*1 ∧
      Forall (λ g, k ≤ g)%nat (filter (λ ic : nat * string, has_prefix ic.2 (pid +:+ "/") = true)
         (imap (λ i c, ((k + i)%nat, c)) l)).*1) as Hgen; [|apply (Hgen cids 0%nat)].
    induction l as [|c l IH]; intros k; [by split; constructor|].
    cbn [imap]. rewrite filter_cons.
    replace (imap ((λ i c0, ((k + i)%nat, c0)) ∘ S) l) with (imap (λ i c0, ((S k + i)%nat, c0)) l)
      by (apply imap_ext; intros; cbn; f_equal; lia).
    destruct (IH (S k)) as [IH1 IH2].
    assert (Forall (λ g, k ≤ g)%nat (filter (λ ic : nat * string,
      has_prefix ic.2 (pid +:+ "/") = true) (imap (λ i c0, ((S k + i)%nat, c0)) l)).*1) as IH3.
    { eapply Forall_impl; [exact IH2|]. cbn. lia. }
    case_decide; [|done]. cbn [fmap list_fmap]. cbn. rewrite Nat.add_0_r. split.
    + constructor; [done|]. eapply Forall_impl; [exact IH2|]. cbn. lia.
    + by constructor.
Qed.

(** The contests of a position: [contestIndicesForPosition] returns, in
    increasing order and without repetition, exactly the indices of the
    contests whose id is the position's id followed by a slash (all contests
    for the empty position), so every lookup it leads to is in range; and two
    different slash-free positions never share a contest. *)
Theorem contest_positions_partition cids :
  (∀ pid, StronglySorted lt (contestIndicesForPosition cids pid)) ∧
  (∀ pid g, g ∈ contestIndicesForPosition cids pid ↔
     ∃ cid, cids !! g = Some cid ∧ (pid = "" ∨ ∃ c, cid = pid +:+ "/" +:+ c)) ∧
  (∀ p q g, p ≠ "" → q ≠ "" → slash_free p = true → slash_free q = true →
     g ∈ contestIndicesForPosition cids p → g ∈ contestIndicesForPosition cids q → p = q).
Proof.
  split_and!.
  - intros pid. apply contestIndices_sorted.
  - intros pid g. rewrite contestIndices_elem. setoid_rewrite has_prefix_spec.
    by setoid_rewrite append_assoc.
  - intros p q g Hp Hq Sp Sq Gp Gq.
    apply contestIndices_elem in Gp as (cid & Hc & [?|Pp]); [done|].
    apply contestIndices_elem in Gq as (cid' & Hc' & [?|Pq]); [done|].
    rewrite Hc in Hc'. injection Hc' as <-. by apply (position_prefix_unique p q cid).
Qed.
