(* ===== verification/HonestVoter.v ===== *)
(** * An honest voter against the chaincode

    What the voter's client (saksi-credentials and saksi-crypto, in Rust)
    prepares for one position: an issuer-signed credential, an encryption of
    each choice with its proof, and the proof that exactly one choice is
    selected; and that [SubmitBallot] records it. *)
From S2P Require Import Prelude Fabric Hex Wire Ristretto.
From S2P Require Import CdsVerify CredVerify SelectionVerify SigVerify Contract BoardSpec.
From S2P Require Import HandlerFacts Ledger Positions.
Import Contract.

Section voter.
Context `{RistrettoLaws, Merlin}.

(** One contest's choice with the client's randomness for it. *)
Record contest_choice := MkChoice {
  selected : bool; randomness : Scalar; nonce : Scalar;
  simulated_challenge : Scalar; simulated_response : Scalar
}.

Definition choice_ciphertext (pk : Element) (c : contest_choice) : Element * Element :=
  CdsVerify.encrypt_bit pk (selected c) (randomness c).

Definition wire_ciphertext (ct : Element * Element) : Ciphertext.t :=
  Ciphertext.Make WireVersion (ElementBytes ct.1) (ElementBytes ct.2).

Definition wire_proof_branch (b : CdsVerify.decodedBranch) : CDSProofBranch.t :=
  CDSProofBranch.Make (ElementBytes (CdsVerify.commitmentG b))
    (ElementBytes (CdsVerify.commitmentH b)) (ScalarBytes (CdsVerify.challenge b))
    (ScalarBytes (CdsVerify.response b)).

Definition choice_proof (eid : string) (nf : bytes) (pk : Element)
    (cc : string * contest_choice) : result CDSProof.t :=
  let c := cc.2 in
  let ct := choice_ciphertext pk c in
  let? branches := CdsVerify.prove pk ct.1 ct.2 (selected c) (randomness c) (nonce c)
                     (simulated_challenge c) (simulated_response c)
                     (CdsVerify.BindingContext eid cc.1 nf) in
  Ok (CDSProof.Make WireVersion (wire_proof_branch <$> branches)).

(** The credential of the voter: nullifier, the issuer's secret key and nonce,
    and the commitment the issuer signed. *)
Record credential := MkCredential {
  cred_nullifier : bytes; issuer_key : Scalar; issuer_nonce : Scalar; commitment : Element
}.

Definition honest_ballot (eid pid : string) (cids : list string) (pk : Element)
    (cred : credential) (choices : list contest_choice) (sel_nonce : Scalar) :
    result Ballot.t :=
  let nf := cred_nullifier cred in
  let? sig := CredVerify.sign (issuer_key cred) (issuer_nonce cred) (commitment cred) in
  let? proofs := rmapM (choice_proof eid nf pk) (zip cids choices) in
  let cts := choice_ciphertext pk <$> choices in
  let? sel := SelectionVerify.prove_selection eid pid nf pk cts.*1 cts.*2
                (scalar_sum (randomness <$> choices)) sel_nonce in
  Ok (Ballot.Make WireVersion eid (ElementBytes (commitment cred))
        (wire_ciphertext <$> cts) proofs
        (Some (CredentialPresentation.Make WireVersion (ElementBytes (commitment cred))
           (ElementBytes (issuer_key cred ⊙ NewGeneratorElement)) (sig.1 ++ sig.2)
           (Some (Nullifier.Make WireVersion nf))))
        pid
        (Some (ChaumPedersenProof.Make WireVersion (SelectionVerify.CommitmentA sel)
           (SelectionVerify.CommitmentB sel) (SelectionVerify.Challenge sel)
           (SelectionVerify.Response sel)))).

(** The contest ids a position covers. *)
Definition position_contests (contestIDs : list string) (pid : string) : list string :=
  (λ g, default "" (contestIDs !! g)) <$> contestIndicesForPosition contestIDs pid.
End voter.

Lemma position_contests_lookup cids pid j g :
  contestIndicesForPosition cids pid !! j = Some g →
  ∃ cid, cids !! g = Some cid ∧ position_contests cids pid !! j = Some cid.
Proof.
  intros Hj. pose proof (list_elem_of_lookup_2 _ _ _ Hj) as Hg.
  apply contestIndices_elem in Hg as (cid & Hc & _). exists cid. split; [done|].
  unfold position_contests. by rewrite list_lookup_fmap, Hj; cbn; rewrite Hc.
Qed.

Section honest.
Context `{FabricShimLaws, Proto, Json, RistrettoLaws, MerlinLaws}.

Lemma wire_pads (cts : list (Element * Element)) :
  Ciphertext.Pad <$> (wire_ciphertext <$> cts) = ElementBytes <$> cts.*1.
Proof. by rewrite <- !list_fmap_compose. Qed.

Lemma wire_datas (cts : list (Element * Element)) :
  Ciphertext.Data <$> (wire_ciphertext <$> cts) = ElementBytes <$> cts.*2.
Proof. by rewrite <- !list_fmap_compose. Qed.

Lemma wire_proof_branches (bs : list CdsVerify.decodedBranch) :
  wire_branch <$> (wire_proof_branch <$> bs) = CdsVerify.to_wire <$> bs.
Proof. by rewrite <- list_fmap_compose. Qed.

(** The honest prover never fails, and its proof passes the contest's gate. *)
Lemma choice_proof_ok eid nf pk cid c :
  ∃ pr, choice_proof eid nf pk (cid, c) = Ok pr ∧ CDSProof.Version pr = WireVersion ∧
    CdsVerify.VerifyBinaryCDS eid cid nf (ElementBytes pk)
      (Ciphertext.Pad (wire_ciphertext (choice_ciphertext pk c)))
      (Ciphertext.Data (wire_ciphertext (choice_ciphertext pk c)))
      (wire_branch <$> CDSProof.Branches pr) = Ok tt.
Proof.
  unfold choice_proof, choice_ciphertext. cbn [fst snd].
  destruct (CdsVerify.prove_verifies eid cid nf pk (selected c) (randomness c) (nonce c)
    (simulated_challenge c) (simulated_response c)) as (bs & Hp & Hv).
  rewrite Hp. eexists. split; [done|]. split; [done|]. cbn [CDSProof.Branches].
  by rewrite wire_proof_branches.
Qed.

Lemma choice_proofs_ok eid nf pk (l : list (string * contest_choice)) :
  ∃ prs, rmapM (choice_proof eid nf pk) l = Ok prs ∧
    Forall2 (λ cc pr, CDSProof.Version pr = WireVersion ∧
      CdsVerify.VerifyBinaryCDS eid cc.1 nf (ElementBytes pk)
        (Ciphertext.Pad (wire_ciphertext (choice_ciphertext pk cc.2)))
        (Ciphertext.Data (wire_ciphertext (choice_ciphertext pk cc.2)))
        (wire_branch <$> CDSProof.Branches pr) = Ok tt) l prs.
Proof.
  induction l as [|[cid c] l (prs & Hp & Hall)]; [by exists []|].
  destruct (choice_proof_ok eid nf pk cid c) as (pr & Hpr & Hv).
  exists (pr :: prs). cbn. rewrite Hpr, Hp. split; [done|]. by constructor.
Qed.

Lemma selected_choices choices :
  length (filter (λ c, selected c = true) choices) =
  length (filter (λ b, b = true)
    ((λ c, (selected c, randomness c)) <$> choices).*1).
Proof.
  rewrite <- list_fmap_compose. induction choices as [|c choices IH]; [done|].
  cbn [fmap list_fmap]. rewrite !filter_cons. cbn [compose fst].
  by destruct (decide (selected c = true)); cbn [length]; rewrite IH.
Qed.

(** The j-th choice and proof of an honest ballot pass the j-th contest's gate. *)
Lemma honest_contest_proved b params eid pid nf pk choices prs j g :
  let cids := position_contests (ElectionParameters.ContestIds params) pid in
  Ballot.ElectionId b = eid → ballot_nullifier b = nf →
  Ballot.Ciphertexts b = wire_ciphertext <$> (choice_ciphertext pk <$> choices) →
  Ballot.WellFormednessProofs b = prs →
  length choices = length (contestIndicesForPosition (ElectionParameters.ContestIds params) pid) →
  Forall2 (λ cc pr, CDSProof.Version pr = WireVersion ∧
    CdsVerify.VerifyBinaryCDS eid cc.1 nf (ElementBytes pk)
      (Ciphertext.Pad (wire_ciphertext (choice_ciphertext pk cc.2)))
      (Ciphertext.Data (wire_ciphertext (choice_ciphertext pk cc.2)))
      (wire_branch <$> CDSProof.Branches pr) = Ok tt) (zip cids choices) prs →
  contestIndicesForPosition (ElectionParameters.ContestIds params) pid !! j = Some g →
  contest_proved b params (ElementBytes pk) j g.
Proof.
  intros cids He Hn Hcts Hprs Hlen Hall Hj.
  destruct (position_contests_lookup _ _ _ _ Hj) as (cid & Hg & Hcid).
  destruct (lookup_lt_is_Some_2 choices j) as [c Hc].
  { rewrite Hlen. by eapply lookup_lt_Some. }
  assert (zip cids choices !! j = Some (cid, c)) as Hz.
  { rewrite lookup_zip_with. unfold cids. by rewrite Hcid, Hc. }
  destruct (Forall2_lookup_l _ _ _ _ _ Hall Hz) as (pr & Hpr & Hv & Hver).
  exists cid, (wire_ciphertext (choice_ciphertext pk c)), pr.
  rewrite He, Hn, Hcts, Hprs, !list_lookup_fmap, Hc. done.
Qed.

(** The honest client always produces a ballot; it has the shape, the
    credential, the contest proofs and the selection proof the board asks for. *)
Lemma honest_ballot_ok eid pid params pk cred choices k :
  let idxs := contestIndicesForPosition (ElectionParameters.ContestIds params) pid in
  eid ≠ "" → pid ≠ "" → cred_nullifier cred ≠ [] →
  length choices = length idxs → length (filter (λ c, selected c = true) choices) = 1%nat →
  ElectionParameters.IssuerPublicKey params = ElementBytes (issuer_key cred ⊙ NewGeneratorElement) →
  ∃ b p, honest_ballot eid pid (position_contests (ElectionParameters.ContestIds params) pid)
           pk cred choices k = Ok b ∧
    ballot_slot b = (eid, EncodeToString (cred_nullifier cred)) ∧
    ballot_shape b p ∧ credential_accepted params p ∧ record_proved b params (ElementBytes pk).
Proof.
  intros idxs He Hp Hnf Hlen Hone Hissuer.
  set (cids := position_contests (ElectionParameters.ContestIds params) pid).
  assert (length cids = length idxs) as Hcids by apply length_fmap.
  destruct (CredVerify.sign_verifies (issuer_key cred) (issuer_nonce cred) (commitment cred))
    as (r & sc & Hsign & Hver).
  destruct (choice_proofs_ok eid (cred_nullifier cred) pk (zip cids choices)) as (prs & Hprs & Hall).
  set (cts := choice_ciphertext pk <$> choices).
  set (bits := (λ c, (selected c, randomness c)) <$> choices).
  assert (cts = SelectionVerify.encrypt_record pk bits) as Ects
    by by unfold cts, bits, SelectionVerify.encrypt_record; rewrite <- list_fmap_compose.
  assert (bits.*2 = randomness <$> choices) as Erand
    by by unfold bits; rewrite <- list_fmap_compose.
  rewrite selected_choices in Hone. fold bits in Hone.
  destruct (SelectionVerify.prove_selection_verifies eid pid (cred_nullifier cred) pk bits k Hone)
    as (sel & Hsel & Hselv).
  rewrite <- Ects, Erand in *.
  eexists _, _. split; [unfold honest_ballot; rewrite Hsign; cbn [rbind]; rewrite Hprs; cbn [rbind];
    fold cts; rewrite Hsel; cbn [rbind]; reflexivity|].
  assert (length choices ≠ 0%nat) as Hne by (intros E; destruct choices; [cbn in Hone; lia | done]).
  pose proof (Forall2_length _ _ _ Hall) as Hlprs.
  rewrite length_zip_with, Hcids, Hlen, Nat.min_id in Hlprs.
  split; [done|]. split; [|split].
  - split; cbn; try done.
    + unfold cts. by destruct choices.
    + apply Forall_fmap, Forall_forall. intros [P Q] _. split; apply element_length.
    + change (64 ≤ length (ElementBytes r ++ ScalarBytes sc))%nat.
      rewrite length_app, element_length, scalar_length. lia.
  - split; cbn [CredentialPresentation.IssuerPublicKey CredentialPresentation.PresentationProof
      CredentialPresentation.CredentialCommitment fst snd]; [by right|].
    rewrite take_app_length', drop_app_length' by (symmetry; apply element_length).
    by rewrite take_ge by (rewrite scalar_length; lia).
  - unfold record_proved.
    cbn [Ballot.PositionId Ballot.Ciphertexts Ballot.WellFormednessProofs Ballot.ElectionId].
    fold idxs. rewrite length_fmap. unfold cts. rewrite length_fmap.
    split_and!; [intros E; by rewrite E in Hlen | done | done | |].
    + intros j g Hj. by eapply honest_contest_proved.
    + intros _. split; [|by left]. eexists. split; [done|]. split; [done|].
      cbn [Ballot.ElectionId Ballot.PositionId Ballot.Ciphertexts].
      fold cts. rewrite wire_pads, wire_datas. by destruct sel.
Qed.

(** C15: No honest voter is turned away: while the election is open and its key
    is published, the ballot an honest client prepares for a position of the
    election, with exactly one choice selected, is accepted and becomes the
    voter's record on the board. *)
Theorem honest_ballot_recorded B w eid pid params tr pk cred choices k :
  represents w B → eid ≠ "" → pid ≠ "" →
  has_election B eid params → B !! KStatus eid = Some open_value →
  has_transcript B eid tr → SigVerify.deriveElectionPublicKey tr = Ok (ElementBytes pk) →
  ElectionParameters.IssuerPublicKey params = ElementBytes (issuer_key cred ⊙ NewGeneratorElement) →
  cred_nullifier cred ≠ [] →
  B !! KNullifier eid (EncodeToString (cred_nullifier cred)) = None →
  length choices =
    length (contestIndicesForPosition (ElectionParameters.ContestIds params) pid) →
  length (filter (λ c, selected c = true) choices) = 1%nat →
  ∃ b, honest_ballot eid pid (position_contests (ElectionParameters.ContestIds params) pid)
         pk cred choices k = Ok b ∧
    ∀ raw, UnmarshalBallot raw = Ok b → keys_valid (ballot_records b) →
      ∃ w', submit (SubmitBallot (EncodeToString raw)) (healthy w) = (w', Ok tt) ∧
        represents w' (record_ballot B b raw).
Proof.
  intros HB He Hp Hel Hst Htr Hepk Hissuer Hnf Hfresh Hlen Hone.
  destruct (honest_ballot_ok eid pid params pk cred choices k He Hp Hnf Hlen Hone Hissuer)
    as (b & p & Hb & Hslot & Hsh & Hcr & Hpr).
  exists b. split; [done|]. intros raw Hraw Hkeys.
  assert (Ballot.ElectionId b = eid) as Hid by (unfold ballot_slot in Hslot; congruence).
  assert (board_step B (ISubmitBallot (EncodeToString raw)) (record_ballot B b raw)) as Hstep.
  { econstructor; [apply DecodeString_EncodeToString | done |].
    exists p, params, tr, (ElementBytes pk). rewrite Hid, Hslot. done. }
  destruct (handler_run_ok w (ISubmitBallot (EncodeToString raw)) B _ (ballot_records b) HB Hstep)
    as [t Ht]; [| done |].
  { exists raw, b. split_and!; [apply DecodeString_EncodeToString | done | done]. }
  destruct (handler_sound (healthy w) _ _ B HB Ht) as (B' & Hstep' & HB').
  rewrite <- (step_deterministic _ _ _ _ Hstep Hstep') in HB'.
  eexists. split; [apply submit_ok; eauto | done].
Qed.
End honest.
