(* ===== verification/Receipts.v ===== *)
(** * Ledger receipts and chain verification

    [client-sdk/ledger.go]: the hash of a block header (SHA-256 of its DER
    encoding), the receipts read out of a block, and [verifyChain], which walks
    a range of blocks, checks that each links to its predecessor and spot-checks
    receipts.  SHA-256 and the decoding of Fabric's envelope messages are
    parameters. *)
From S2P Require Import Prelude.

Class Sha256 := { Sum256 : bytes → bytes }.

(** Fabric's common messages, as their getters show them. *)
Record BlockHeader := MkHeader { Number : Z; PreviousHash : bytes; DataHash : bytes }.

Record Block := MkBlock { Header : BlockHeader; Data : list bytes }.

Record ChannelHeader := MkChannelHeader { TxId : string; Timestamp : option Z }.

Class FabricProto := {
  UnmarshalEnvelope : bytes → result bytes;
  UnmarshalPayload : bytes → result bytes;
  UnmarshalChannelHeader : bytes → result ChannelHeader
}.

Module Receipts.

(** [Receipt.Timestamp] is a [time.Time], here in nanoseconds; [None] is the
    zero time. *)
Record Receipt := MkReceipt {
  TxID : string; BlockNumber : Z; BlockHash : bytes; RDataHash : bytes;
  RPreviousHash : bytes; RTimestamp : option Z
}.

Record ChainReport := MkReport {
  Blocks : Z; Linked : bool; FirstBreak : option Z;
  ReceiptsChecked : Z; ReceiptMismatches : Z; Status : string
}.

(** ** [asn1.Marshal] of [asn1Header]: SEQUENCE, INTEGER, OCTET STRING *)
Definition big_endian (width : nat) (v : Z) : bytes := rev (le_bytes width v).

Definition der_length (n : Z) : bytes :=
  if n <? 128 then [byte_of_Z n]
  else
    let k := Z.to_nat (Z.log2 n / 8 + 1) in
    byte_of_Z (128 + Z.of_nat k) :: big_endian k n.

Definition tlv (tag : byte) (content : bytes) : bytes :=
  tag :: der_length (blen content) ++ content.

(** The shortest two's-complement form of a non-negative integer. *)
Definition der_integer (n : Z) : bytes := big_endian (Z.to_nat ((Z.log2 n + 1) / 8 + 1)) n.

Definition asn1_header (number : Z) (previousHash dataHash : bytes) : bytes :=
  tlv x30 (tlv x02 (der_integer number) ++ tlv x04 previousHash ++ tlv x04 dataHash).

Section receipts.
Context `{Sha256, FabricProto}.

Definition blockHeaderHash (number : Z) (previousHash dataHash : bytes) : bytes :=
  Sum256 (asn1_header number previousHash dataHash).

Definition header_hash (h : BlockHeader) : bytes :=
  blockHeaderHash (Number h) (PreviousHash h) (DataHash h).

(** The channel header of an envelope; [None] where the loop skips it. *)
Definition channel_header (envBytes : bytes) : option ChannelHeader :=
  match UnmarshalEnvelope envBytes with
  | Err _ => None
  | Ok payload =>
      match UnmarshalPayload payload with
      | Err _ => None
      | Ok chdr =>
          match UnmarshalChannelHeader chdr with
          | Err _ => None
          | Ok h => Some h
          end
      end
  end.

(** [txTimestamp]: the proposal time of the first envelope carrying [txID]. *)
Fixpoint tx_timestamp (envs : list bytes) (txID : string) : option Z :=
  match envs with
  | [] => None
  | env :: envs =>
      match channel_header env with
      | None => tx_timestamp envs txID
      | Some chdr =>
          if negb (bool_decide (TxId chdr = txID)) then tx_timestamp envs txID
          else Timestamp chdr
      end
  end.

Definition txTimestamp (block : Block) (txID : string) : option Z :=
  tx_timestamp (Data block) txID.

Definition receiptFromBlock (txID : string) (block : Block) : Receipt :=
  let h := Header block in
  MkReceipt txID (Number h) (header_hash h) (DataHash h) (PreviousHash h) None.

Definition present (block : Block) : gset string :=
  list_to_set (omap (λ env, TxId <$> channel_header env) (Data block)).

(** The receipt with its timestamp, when the block has one for [txID]. *)
Definition stamped (block : Block) (txID : string) : Receipt :=
  let receipt := receiptFromBlock txID block in
  match txTimestamp block txID with
  | Some ts => MkReceipt (TxID receipt) (BlockNumber receipt) (BlockHash receipt)
                 (RDataHash receipt) (RPreviousHash receipt) (Some ts)
  | None => receipt
  end.

Fixpoint receipts_of (block : Block) (txIDs : list string) : list Receipt :=
  match txIDs with
  | [] => []
  | txID :: txIDs =>
      if negb (bool_decide (txID ∈ present block)) then receipts_of block txIDs
      else stamped block txID :: receipts_of block txIDs
  end.

Definition receiptsFromBlock (block : Block) (txIDs : list string) : list Receipt :=
  receipts_of block txIDs.

(** ** verifyChain *)
Definition not_run : ChainReport := MkReport 0 false None 0 0 "not run".

(** The sampled receipts of block [n], in the order given. *)
Definition sampled (from to : Z) (sample : list Receipt) (n : Z) : list Receipt :=
  filter (λ r, BlockNumber r = n ∧ from ≤ BlockNumber r ∧ BlockNumber r ≤ to) sample.

Definition check_receipt (hash : bytes) (report : ChainReport) (r : Receipt) : ChainReport :=
  MkReport (Blocks report) (Linked report) (FirstBreak report) (ReceiptsChecked report + 1)
    (if bytes_equal (BlockHash r) hash then ReceiptMismatches report
     else ReceiptMismatches report + 1) (Status report).

(** A break is recorded once. *)
Definition mark_break (from n : Z) (h : BlockHeader) (prevHash : bytes)
    (report : ChainReport) : ChainReport :=
  if (from <? n) && negb (bytes_equal (PreviousHash h) prevHash)
     && bool_decide (FirstBreak report = None)
  then MkReport (Blocks report) false (Some n) (ReceiptsChecked report)
         (ReceiptMismatches report) (Status report)
  else report.

(** One turn of the walk. *)
Definition visit_block (from to n : Z) (sample : list Receipt) (block : Block)
    (st : ChainReport * bytes) : ChainReport * bytes :=
  let h := Header block in
  let hash := header_hash h in
  let report := foldl (check_receipt hash) (mark_break from n h st.2 st.1)
                  (sampled from to sample n) in
  (MkReport (Blocks report + 1) (Linked report) (FirstBreak report)
     (ReceiptsChecked report) (ReceiptMismatches report) (Status report), hash).

(** The loop [for n := from; n <= to; n++] on [uint64]: [n++] wraps.  [None]
    means it has not finished within [fuel] turns. *)
Fixpoint walk (fuel : nat) (from to n : Z) (sample : list Receipt)
    (getBlock : Z → result Block) (st : ChainReport * bytes) :
    option (result (ChainReport * bytes)) :=
  match fuel with
  | O => None
  | S fuel =>
      if n <=? to then
        match getBlock n with
        | Err e => Some (Err (Errorf "verify chain: fetch block %d: %w" [AInt n; AErr e]))
        | Ok block =>
            walk fuel from to ((n + 1) `mod` max_uint64) sample getBlock
              (visit_block from to n sample block st)
        end
      else Some (Ok st)
  end.

Definition verdict (report : ChainReport) : ChainReport :=
  MkReport (Blocks report) (Linked report) (FirstBreak report) (ReceiptsChecked report)
    (ReceiptMismatches report)
    (if Linked report && (ReceiptMismatches report =? 0) then "PASS" else "FAIL").

(** The report and the error, as Go returns both. *)
Definition verifyChain (fuel : nat) (from to : Z) (sample : list Receipt)
    (getBlock : Z → result Block) : option (ChainReport * option goerr) :=
  if to <? from
  then Some (not_run, Some (Errorf "verify chain: to (%d) < from (%d)" [AInt to; AInt from]))
  else
    match walk fuel from to from sample getBlock (MkReport 0 true None 0 0 "not run", []) with
    | None => None
    | Some (Err e) => Some (not_run, Some e)
    | Some (Ok (report, _)) => Some (verdict report, None)
    end.
End receipts.
End Receipts.

(** ** Chain verification is tamper-evident

    The block-header encoding determines the header; [verifyChain] terminates
    and passes exactly on linked ranges whose sampled receipts match; and two
    ranges that pass and end in the same block hash are the same range. *)
Module ReceiptsFacts.
Import Receipts.

(** ** DER *)
Lemma big_endian_inj n u v x y :
  0 ≤ u < 2 ^ (8 * Z.of_nat n) → 0 ≤ v < 2 ^ (8 * Z.of_nat n) →
  big_endian n u ++ x = big_endian n v ++ y → u = v ∧ x = y.
Proof.
  intros Hu Hv E. unfold big_endian in E. apply app_inj_len in E as [E ->].
  - split; [|done]. apply (f_equal (@rev _)) in E. rewrite !rev_involutive in E.
    by apply (le_bytes_inj n).
  - by rewrite !length_rev, !length_le_bytes.
Qed.

Lemma log2_bytes v : 0 ≤ v → v < 2 ^ (8 * Z.of_nat (Z.to_nat (Z.log2 v / 8 + 1))).
Proof.
  intros Hv. destruct (decide (v = 0)) as [->|Hne]; [by vm_compute|].
  pose proof (Z.log2_spec v). pose proof (Z.log2_nonneg v).
  pose proof (Z.div_mod (Z.log2 v) 8). pose proof (Z.mod_pos_bound (Z.log2 v) 8).
  pose proof (Z.div_pos (Z.log2 v) 8).
  eapply Z.lt_le_trans; [apply H; lia|]. apply Z.pow_le_mono_r; lia.
Qed.

Lemma log2_small v : 0 ≤ v < 2 ^ 64 → 0 ≤ Z.log2 v < 64.
Proof.
  intros Hv. split; [apply Z.log2_nonneg|]. destruct (decide (v = 0)) as [->|Hne]; [done|].
  apply Z.log2_lt_pow2; lia.
Qed.

(** A length prefix determines the length. *)
Lemma der_length_inj n m x y :
  0 ≤ n < 2 ^ 64 → 0 ≤ m < 2 ^ 64 → der_length n ++ x = der_length m ++ y → n = m ∧ x = y.
Proof.
  intros Hn Hm E. unfold der_length in E.
  pose proof (log2_small _ Hn). pose proof (log2_small _ Hm).
  assert (∀ v, 0 ≤ v < 64 → 0 ≤ v / 8 < 8) as Hdiv.
  { intros v Hv. split; [apply Z.div_pos; lia | apply Z.div_lt_upper_bound; lia]. }
  pose proof (Hdiv _ H) as Dn. pose proof (Hdiv _ H0) as Dm.
  assert (∀ a b, byte_of_Z a = byte_of_Z b → 0 ≤ a < 256 → 0 ≤ b < 256 → a = b) as Hb.
  { intros a b Eb Ha Hb. apply (f_equal Z_of_byte) in Eb. rewrite !Z_of_byte_of_Z in Eb.
    rewrite !Z.mod_small in Eb; lia. }
  destruct (Z.ltb_spec n 128), (Z.ltb_spec m 128); injection E as Eb E; apply Hb in Eb; try lia.
  - done.
  - assert (Z.log2 n / 8 = Z.log2 m / 8) as Hk by lia. rewrite Hk in E.
    apply big_endian_inj in E; [done | |].
    + split; [lia|]. rewrite <- Hk. apply log2_bytes; lia.
    + split; [lia|]. apply log2_bytes; lia.
Qed.

Lemma tlv_inj t c c' x y :
  blen c < 2 ^ 64 → blen c' < 2 ^ 64 → tlv t c ++ x = tlv t c' ++ y → c = c' ∧ x = y.
Proof.
  intros Hc Hc' E. unfold tlv in E. injection E as E. rewrite <- !(assoc (++)) in E.
  apply der_length_inj in E as [El E]; [|unfold blen in *; lia..].
  apply app_inj_len in E; [done|]. unfold blen in El. lia.
Qed.

Lemma der_integer_inj u v : 0 ≤ u < 2 ^ 64 → 0 ≤ v < 2 ^ 64 → der_integer u = der_integer v → u = v.
Proof.
  intros Hu Hv E. unfold der_integer in E.
  pose proof (f_equal length E) as El. unfold big_endian in El.
  rewrite !length_rev, !length_le_bytes in El. rewrite El in E.
  assert (∀ w, 0 ≤ w → w < 2 ^ (8 * Z.of_nat (Z.to_nat ((Z.log2 w + 1) / 8 + 1)))) as Hw.
  { intros w Hw. destruct (decide (w = 0)) as [->|Hne]; [by vm_compute|].
    pose proof (Z.log2_spec w). pose proof (Z.log2_nonneg w).
    pose proof (Z.div_mod (Z.log2 w + 1) 8). pose proof (Z.mod_pos_bound (Z.log2 w + 1) 8).
    pose proof (Z.div_pos (Z.log2 w + 1) 8).
    eapply Z.lt_le_trans; [apply H; lia|]. apply Z.pow_le_mono_r; lia. }
  apply (f_equal (λ l, l ++ [])) in E. apply big_endian_inj in E; [by destruct E | |].
  - split; [lia|]. rewrite <- El. apply Hw. lia.
  - split; [lia|]. apply Hw. lia.
Qed.

Definition header_ok (h : BlockHeader) : Prop :=
  0 ≤ Number h < max_uint64 ∧ blen (PreviousHash h) < 2 ^ 32 ∧ blen (DataHash h) < 2 ^ 32.

Lemma blen_app a b : blen (a ++ b) = blen a + blen b.
Proof. unfold blen. rewrite length_app. lia. Qed.

Lemma blen_tlv t c : 0 ≤ blen c < 2 ^ 33 → blen (tlv t c) ≤ blen c + 32.
Proof.
  intros Hc. unfold tlv. unfold blen at 1. cbn [length]. rewrite length_app, Nat2Z.inj_succ, Nat2Z.inj_add.
  fold (blen c). assert (Z.of_nat (length (der_length (blen c))) ≤ 30); [|lia].
  unfold der_length. destruct (blen c <? 128); [cbn; lia|].
  cbn [length]. unfold big_endian. rewrite length_rev, length_le_bytes.
  assert (0 ≤ Z.log2 (blen c) < 64) by (apply log2_small; lia).
  assert (Z.log2 (blen c) / 8 < 8) by (apply Z.div_lt_upper_bound; lia). lia.
Qed.

Lemma asn1_header_inj h h' :
  header_ok h → header_ok h' →
  asn1_header (Number h) (PreviousHash h) (DataHash h) =
    asn1_header (Number h') (PreviousHash h') (DataHash h') → h = h'.
Proof.
  intros (Hn & Hp & Hd) (Hn' & Hp' & Hd') E.
  assert (∀ w, 0 ≤ w < 2 ^ 64 → blen (der_integer w) ≤ 16) as Hint.
  { intros w Hw. unfold der_integer, big_endian, blen. rewrite length_rev, length_le_bytes.
    pose proof (log2_small _ Hw).
    assert ((Z.log2 w + 1) / 8 < 9) by (apply Z.div_lt_upper_bound; lia). lia. }
  assert (∀ b : bytes, 0 ≤ blen b) as Hpos by (intros; unfold blen; lia).
  assert (∀ w p d, 0 ≤ w < 2 ^ 64 → blen p < 2 ^ 32 → blen d < 2 ^ 32 →
    blen (tlv x02 (der_integer w) ++ tlv x04 p ++ tlv x04 d) < 2 ^ 64) as Hbody.
  { intros w p d Hw Hlp Hld. rewrite !blen_app. specialize (Hint w Hw).
    pose proof (blen_tlv x02 (der_integer w)). pose proof (blen_tlv x04 p).
    pose proof (blen_tlv x04 d). pose proof (Hpos (der_integer w)). pose proof (Hpos p).
    pose proof (Hpos d). lia. }
  unfold asn1_header in E. change (2 ^ 64) with max_uint64 in *.
  apply (f_equal (λ l, l ++ [])) in E.
  apply tlv_inj in E as [E _]; [|by apply Hbody..].
  apply tlv_inj in E as [Ei E]; [|eapply Z.le_lt_trans; [by apply Hint | done]..].
  apply tlv_inj in E as [Ep E]; [|unfold max_uint64; lia..].
  apply (f_equal (λ l, l ++ [])) in E.
  apply tlv_inj in E as [Ed _]; [|unfold max_uint64; lia..].
  apply der_integer_inj in Ei; [|done..].
  destruct h, h'. cbn in *. by subst.
Qed.

(** ** The walk *)
Section walk.
Context `{Sha256, FabricProto}.

Section range.
Variables (from to : Z) (sample : list Receipt) (blk : Z → Block).

(** The block at [m] does not link to its predecessor. *)
Definition broken (m : Z) : Prop :=
  from < m ∧ PreviousHash (Header (blk m)) ≠ header_hash (Header (blk (m - 1))).

#[export] Instance broken_dec m : Decision (broken m).
Proof. unfold broken. apply _. Defined.

Definition in_sample (r : Receipt) : Prop := from ≤ BlockNumber r ∧ BlockNumber r ≤ to.

Definition mismatched (r : Receipt) : Prop :=
  in_sample r ∧ BlockHash r ≠ header_hash (Header (blk (BlockNumber r))).

Definition visit (st : ChainReport * bytes) (m : Z) : ChainReport * bytes :=
  visit_block from to m sample (blk m) st.

Lemma walk_run getBlock fuel n st :
  (∀ m, n ≤ m ≤ to → getBlock m = Ok (blk m)) →
  0 ≤ n → n ≤ to + 1 → to < max_uint64 - 1 → to + 1 - n < Z.of_nat fuel →
  walk fuel from to n sample getBlock st = Some (Ok (foldl visit st (seqZ n (to + 1 - n)))).
Proof.
  revert n st. induction fuel as [|fuel IH]; intros n st Hget Hn Hto Hmax Hf; [lia|].
  cbn [walk]. destruct (Z.leb_spec n to) as [Hle|Hgt].
  - rewrite Hget by lia. rewrite Z.mod_small by lia.
    rewrite IH by (lia || (intros; apply Hget; lia)).
    rewrite (seqZ_cons n) by lia. cbn [foldl]. do 3 f_equal. f_equal; lia.
  - by replace (to + 1 - n) with 0 by lia.
Qed.

Lemma walk_error getBlock fuel n b e st :
  (∀ m, n ≤ m < b → getBlock m = Ok (blk m)) → getBlock b = Err e →
  0 ≤ n ≤ b → b ≤ to → to < max_uint64 - 1 → to + 1 - n < Z.of_nat fuel →
  walk fuel from to n sample getBlock st =
    Some (Err (Errorf "verify chain: fetch block %d: %w" [AInt b; AErr e])).
Proof.
  revert n st. induction fuel as [|fuel IH]; intros n st Hget He Hn Hto Hmax Hf; [lia|].
  cbn [walk]. rewrite (proj2 (Z.leb_le n to)) by lia.
  destruct (decide (n = b)) as [->|Hne]; [by rewrite He|].
  rewrite Hget by lia. rewrite Z.mod_small by lia.
  apply IH; try lia; [intros; apply Hget; lia | done].
Qed.

Lemma foldl_check_receipt hash rs report :
  let r' := foldl (check_receipt hash) report rs in
  Blocks r' = Blocks report ∧ Linked r' = Linked report ∧ FirstBreak r' = FirstBreak report ∧
  ReceiptsChecked r' = ReceiptsChecked report + Z.of_nat (length rs) ∧
  ReceiptMismatches r' = ReceiptMismatches report +
    Z.of_nat (length (filter (λ r, BlockHash r ≠ hash) rs)).
Proof.
  revert report. induction rs as [|r rs IH]; intros report; cbn [foldl].
  { cbn. split_and!; try done; lia. }
  destruct (IH (check_receipt hash report r)) as (-> & -> & -> & -> & ->).
  rewrite filter_cons. unfold check_receipt. cbn [Blocks Linked FirstBreak ReceiptsChecked ReceiptMismatches].
  destruct (bytes_equal (BlockHash r) hash) eqn:E.
  - apply bytes_equal_true in E. rewrite decide_False by naive_solver.
    cbn [length]. split_and!; try done; lia.
  - assert (BlockHash r ≠ hash) by (intros X; apply bytes_equal_true in X; congruence).
    rewrite decide_True by done. cbn [length]. split_and!; try done; lia.
Qed.

(** A link check that finds nothing leaves the report as it is. *)
Lemma mark_break_ok n (b : Block) prev report :
  (from < n → prev = header_hash (Header (blk (n - 1)))) → blk n = b →
  let r' := mark_break from n (Header b) prev report in
  Blocks r' = Blocks report ∧ ReceiptsChecked r' = ReceiptsChecked report ∧
  ReceiptMismatches r' = ReceiptMismatches report ∧
  (FirstBreak report = None → broken n → FirstBreak r' = Some n ∧ Linked r' = false) ∧
  ((FirstBreak report ≠ None ∨ ¬ broken n) → r' = report).
Proof.
  intros Hprev <- r'. subst r'. unfold mark_break.
  destruct (_ && _ && _) eqn:E.
  - rewrite !andb_true_iff, negb_true_iff, bool_decide_eq_true, Z.ltb_lt, <- not_true_iff_false,
      bytes_equal_true in E. destruct E as [[Hlt Hne] Hnone]. cbn. split_and!; try done.
    intros [?|Hnb]; [done|]. destruct Hnb. split; [done|]. by rewrite <- Hprev.
  - split_and!; try done. intros Hnone [Hlt Hne]. rewrite <- not_true_iff_false in E. destruct E.
    rewrite !andb_true_iff, negb_true_iff, bool_decide_eq_true, Z.ltb_lt, <- not_true_iff_false,
      bytes_equal_true. rewrite Hprev by done. done.
Qed.

(** The fields of the report after one block. *)
Lemma visit_fields report prev m :
  (from < m → prev = header_hash (Header (blk (m - 1)))) →
  let st := visit (report, prev) m in
  st.2 = header_hash (Header (blk m)) ∧
  Blocks st.1 = Blocks report + 1 ∧
  ReceiptsChecked st.1 = ReceiptsChecked report +
    Z.of_nat (length (filter (λ r, BlockNumber r = m ∧ in_sample r) sample)) ∧
  ReceiptMismatches st.1 = ReceiptMismatches report +
    Z.of_nat (length (filter (λ r, BlockNumber r = m ∧ mismatched r) sample)) ∧
  (FirstBreak report = None → broken m → FirstBreak st.1 = Some m ∧ Linked st.1 = false) ∧
  (FirstBreak report ≠ None ∨ ¬ broken m →
     FirstBreak st.1 = FirstBreak report ∧ Linked st.1 = Linked report).
Proof.
  intros Hprev. unfold visit, visit_block. cbn [fst snd].
  destruct (mark_break_ok m (blk m) prev report Hprev eq_refl) as (M1 & M2 & M3 & M4 & M5).
  destruct (foldl_check_receipt (header_hash (Header (blk m))) (sampled from to sample m)
    (mark_break from m (Header (blk m)) prev report)) as (E1 & E2 & E3 & E4 & E5).
  assert (filter (λ r, BlockHash r ≠ header_hash (Header (blk m))) (sampled from to sample m) =
          filter (λ r, BlockNumber r = m ∧ mismatched r) sample) as Es.
  { unfold sampled. rewrite list_filter_filter. apply list_filter_iff. intros r.
    unfold mismatched, in_sample. split; [intros (? & <- & ?); done | intros (<- & ? & ?); done]. }
  cbn [Blocks Linked FirstBreak ReceiptsChecked ReceiptMismatches].
  rewrite E1, E2, E3, E4, E5, Es, M1, M2, M3. unfold sampled.
  split_and!; [done | done | done | done | exact M4 |].
  intros Hor. by rewrite (M5 Hor).
Qed.

Definition breaks (n len : Z) : list Z := filter broken (seqZ n len).

Definition numbered (P : Receipt → Prop) `{∀ r, Decision (P r)} (n len : Z) : nat :=
  length (filter (λ r, (n ≤ BlockNumber r ∧ BlockNumber r < n + len) ∧ P r) sample).

Lemma numbered_cons (P : Receipt → Prop) `{∀ r, Decision (P r)} n len :
  0 < len → numbered P n len =
    (length (filter (λ r, BlockNumber r = n ∧ P r) sample) + numbered P (n + 1) (len - 1))%nat.
Proof.
  intros Hlen. unfold numbered. induction sample as [|r l IH]; [done|].
  assert (n ≤ BlockNumber r ∧ BlockNumber r < n + len ↔
    BlockNumber r = n ∨ n + 1 ≤ BlockNumber r ∧ BlockNumber r < n + 1 + (len - 1)) by lia.
  assert (BlockNumber r = n → ¬ n + 1 ≤ BlockNumber r) by lia.
  rewrite !filter_cons. repeat case_decide; cbn [length]; try lia; exfalso; tauto.
Qed.

(** The report of the whole walk. *)
Lemma walk_fields len n report prev :
  0 ≤ len → from ≤ n → (from < n → prev = header_hash (Header (blk (n - 1)))) →
  let r' := (foldl visit (report, prev) (seqZ n len)).1 in
  Blocks r' = Blocks report + len ∧
  ReceiptsChecked r' = ReceiptsChecked report + Z.of_nat (numbered in_sample n len) ∧
  ReceiptMismatches r' = ReceiptMismatches report + Z.of_nat (numbered mismatched n len) ∧
  (FirstBreak report ≠ None → FirstBreak r' = FirstBreak report ∧ Linked r' = Linked report) ∧
  (FirstBreak report = None →
     FirstBreak r' = head (breaks n len) ∧
     Linked r' = match breaks n len with [] => Linked report | _ => false end).
Proof.
  intros Hlen. remember (Z.to_nat len) as k eqn:Hk.
  revert len n report prev Hlen Hk. induction k as [|k IH]; intros len n report prev Hlen Hk Hn Hprev.
  { assert (len = 0) as -> by lia. change (seqZ n 0) with (@nil Z). cbn [foldl fst].
    unfold numbered.
    assert (∀ P `{∀ r, Decision (P r)},
      filter (λ r, (n ≤ BlockNumber r ∧ BlockNumber r < n + 0) ∧ P r) sample = []) as Hnil.
    { intros P HP. induction sample as [|r l IHl]; [done|].
      rewrite filter_cons, decide_False by lia. done. }
    rewrite !Hnil. cbn [length]. split_and!; try done; lia. }
  rewrite (seqZ_cons n) by lia. cbn [foldl].
  destruct (visit_fields report prev n Hprev) as (V1 & V2 & V3 & V4 & V5 & V6).
  destruct (visit (report, prev) n) as [report1 prev1]. cbn [fst snd] in *. subst prev1.
  replace (Z.succ n) with (n + 1) by lia. replace (Z.pred len) with (len - 1) by lia.
  destruct (IH (len - 1) (n + 1) report1 (header_hash (Header (blk n)))) as (W1 & W2 & W3 & W4 & W5);
    [lia | lia | lia | intros _; do 3 f_equal; lia |].
  rewrite W1, W2, W3, V2, V3, V4, !(numbered_cons _ n) by lia.
  split_and!; [lia | lia | lia | |].
  - intros Hb. destruct V6 as [E1 E2]; [by left|]. rewrite <- E1, <- E2. apply W4. by rewrite E1.
  - intros Hb. unfold breaks. rewrite (seqZ_cons n), filter_cons by lia.
    replace (Z.succ n) with (n + 1) by lia. replace (Z.pred len) with (len - 1) by lia.
    case_decide as Hbr.
    + destruct (V5 Hb Hbr) as [E1 E2]. destruct W4 as [-> ->]; [by rewrite E1|]. done.
    + destruct V6 as [E1 E2]; [by right|]. rewrite <- E2. apply W5. by rewrite E1.
Qed.

Lemma numbered_all (P : Receipt → Prop) `{∀ r, Decision (P r)} :
  (∀ r, P r → in_sample r) →
  numbered P from (to + 1 - from) = length (filter P sample).
Proof.
  intros HP. unfold numbered. f_equal. apply list_filter_iff. intros r. split; [by intros [_ ?]|].
  intros Hr. split; [|done]. destruct (HP r Hr). lia.
Qed.

Lemma breaks_nil n len :
  breaks n len = [] ↔ ∀ m, n ≤ m < n + len → ¬ broken m.
Proof.
  unfold breaks. split.
  - intros E m Hm Hb. assert (m ∈ filter broken (seqZ n len)) as Hin.
    { apply list_elem_of_filter. split; [done|]. by apply elem_of_seqZ. }
    rewrite E in Hin. by apply not_elem_of_nil in Hin.
  - intros Hno. destruct (filter broken (seqZ n len)) as [|m l] eqn:E; [done|].
    assert (m ∈ filter broken (seqZ n len)) as Hin by (rewrite E; set_solver).
    apply list_elem_of_filter in Hin as [Hb Hm%elem_of_seqZ]. by destruct (Hno m Hm).
Qed.
End range.

(** What a passing report says of the blocks and of the sample. *)
Definition linked_range (from to : Z) (blk : Z → Block) : Prop :=
  ∀ m, from < m ≤ to → PreviousHash (Header (blk m)) = header_hash (Header (blk (m - 1))).

Definition sample_matches (from to : Z) (sample : list Receipt) (blk : Z → Block) : Prop :=
  ∀ r, r ∈ sample → from ≤ BlockNumber r ≤ to →
    BlockHash r = header_hash (Header (blk (BlockNumber r))).

Lemma breaks_linked from to blk :
  breaks from blk from (to + 1 - from) = [] ↔ linked_range from to blk.
Proof.
  rewrite breaks_nil. unfold linked_range, broken. split.
  - intros Hno m Hm. destruct (decide (PreviousHash (Header (blk m)) =
      header_hash (Header (blk (m - 1))))) as [?|Hne]; [done|].
    exfalso. apply (Hno m); [lia|]. split; [lia | done].
  - intros Hl m Hm [Hlt Hne]. apply Hne, Hl. lia.
Qed.

Lemma mismatched_none from to sample blk :
  length (filter (mismatched from to blk) sample) = 0%nat ↔ sample_matches from to sample blk.
Proof.
  split.
  - intros Hl r Hr Hin. destruct (decide (BlockHash r =
      header_hash (Header (blk (BlockNumber r))))) as [?|Hne]; [done|].
    apply list_elem_of_lookup in Hr as [j Hj].
    destruct (filter_nil_lookup _ _ _ _ Hl Hj). by split.
  - intros Hm. apply length_zero_iff_nil.
    destruct (filter (mismatched from to blk) sample) as [|r l] eqn:E; [done|].
    assert (r ∈ filter (mismatched from to blk) sample) as Hin by (rewrite E; set_solver).
    apply list_elem_of_filter in Hin as [[Hr Hne] Hin]. by destruct Hne; apply Hm.
Qed.

Lemma verifyChain_run from to sample getBlock blk fuel :
  0 ≤ from ≤ to → to < max_uint64 - 1 → to + 1 - from < Z.of_nat fuel →
  (∀ m, from ≤ m ≤ to → getBlock m = Ok (blk m)) →
  ∃ report, verifyChain fuel from to sample getBlock = Some (report, None) ∧
    Blocks report = to - from + 1 ∧
    ReceiptsChecked report = Z.of_nat (length (filter (in_sample from to) sample)) ∧
    ReceiptMismatches report = Z.of_nat (length (filter (mismatched from to blk) sample)) ∧
    FirstBreak report = head (breaks from blk from (to + 1 - from)) ∧
    (Linked report = true ↔ linked_range from to blk) ∧
    (Status report = "PASS" ↔ linked_range from to blk ∧ sample_matches from to sample blk).
Proof.
  intros Hft Hmax Hf. unfold verifyChain. rewrite (proj2 (Z.ltb_ge to from)) by lia.
  intros Hget. rewrite (walk_run from to sample blk) by (done || lia).
    set (init := MkReport 0 true None 0 0 "not run").
    destruct (walk_fields from to sample blk (to + 1 - from) from init [])
      as (W1 & W2 & W3 & _ & W5); [lia.. |].
    destruct (W5 eq_refl) as [W6 W7]. rewrite numbered_all in W2 by done.
    rewrite numbered_all in W3 by by intros r [? _].
    destruct (foldl _ (init, []) _) as [report prev]. cbn [fst] in *.
    eexists. split; [done|]. unfold verdict. cbn [Blocks Linked FirstBreak ReceiptsChecked
      ReceiptMismatches Status]. rewrite W1, W2, W3, W6, W7. cbn [Blocks Linked init
      ReceiptsChecked ReceiptMismatches].
    rewrite <- (mismatched_none from to), <- breaks_linked.
    split_and!; [lia | lia | lia | done | by destruct (breaks _ _ _ _) |].
    rewrite Z.add_0_l.
    destruct (breaks from blk from (to + 1 - from)); cbn [andb]; [|by split; [|intros [[=] _]]].
    destruct (Z.eqb_spec (Z.of_nat (length (filter (mismatched from to blk) sample))) 0);
      split; try done; lia || (intros _; split; [done | lia]) || (intros [_ ?]; lia).
Qed.

(** C21: [verifyChain] terminates and reports the truth: on a range it can fetch
    it visits every block once, counts the sampled receipts of the range and the
    mismatching ones, finds the first break, and says PASS exactly when every
    block links to its predecessor and every sampled receipt of the range
    carries the hash of its block; when a block cannot be fetched it reports
    "not run" with the first error, never PASS. *)
Theorem verifyChain_correct from to sample getBlock blk fuel :
  0 ≤ from ≤ to → to < max_uint64 - 1 → to + 1 - from < Z.of_nat fuel →
  ((∀ m, from ≤ m ≤ to → getBlock m = Ok (blk m)) →
   ∃ report, verifyChain fuel from to sample getBlock = Some (report, None) ∧
     Blocks report = to - from + 1 ∧
     ReceiptsChecked report = Z.of_nat (length (filter (in_sample from to) sample)) ∧
     ReceiptMismatches report = Z.of_nat (length (filter (mismatched from to blk) sample)) ∧
     FirstBreak report = head (breaks from blk from (to + 1 - from)) ∧
     (Linked report = true ↔ linked_range from to blk) ∧
     (Status report = "PASS" ↔ linked_range from to blk ∧ sample_matches from to sample blk)) ∧
  (∀ b e, (∀ m, from ≤ m < b → getBlock m = Ok (blk m)) → from ≤ b ≤ to → getBlock b = Err e →
   verifyChain fuel from to sample getBlock =
     Some (not_run, Some (Errorf "verify chain: fetch block %d: %w" [AInt b; AErr e]))).
Proof.
  intros Hft Hmax Hf. split; [by apply verifyChain_run|].
  intros b e Hget Hb He. unfold verifyChain. rewrite (proj2 (Z.ltb_ge to from)) by lia.
  by rewrite (walk_error from to sample blk getBlock fuel from b e) by (done || lia).
Qed.

Lemma passing_is_linked from to sample blk fuel r :
  0 ≤ from ≤ to → to < max_uint64 - 1 → to + 1 - from < Z.of_nat fuel →
  verifyChain fuel from to sample (λ m, Ok (blk m)) = Some (r, None) → Status r = "PASS" →
  linked_range from to blk ∧ sample_matches from to sample blk.
Proof.
  intros Hft Hmax Hf V HP.
  destruct (verifyChain_run from to sample (λ m, Ok (blk m)) blk fuel Hft Hmax Hf)
    as (r' & E & _ & _ & _ & _ & _ & Hpass); [done|].
  rewrite V in E. injection E as <-. by apply Hpass.
Qed.

(** Tamper evidence: if two walks over the same range pass, two servers or
    the same one at two times, and their last blocks have the same hash, then
    they served the same headers for the whole range, provided SHA-256 does not
    collide on the headers they served. *)
Theorem verified_chains_agree from to sample1 sample2 blk1 blk2 fuel r1 r2 :
  0 ≤ from ≤ to → to < max_uint64 - 1 → to + 1 - from < Z.of_nat fuel →
  (∀ m, from ≤ m ≤ to → header_ok (Header (blk1 m)) ∧ header_ok (Header (blk2 m))) →
  (∀ m m' b b', from ≤ m ≤ to → from ≤ m' ≤ to →
     b = asn1_header (Number (Header (blk1 m))) (PreviousHash (Header (blk1 m))) (DataHash (Header (blk1 m))) →
     b' = asn1_header (Number (Header (blk2 m'))) (PreviousHash (Header (blk2 m'))) (DataHash (Header (blk2 m'))) →
     Sum256 b = Sum256 b' → b = b') →
  verifyChain fuel from to sample1 (λ m, Ok (blk1 m)) = Some (r1, None) → Status r1 = "PASS" →
  verifyChain fuel from to sample2 (λ m, Ok (blk2 m)) = Some (r2, None) → Status r2 = "PASS" →
  header_hash (Header (blk1 to)) = header_hash (Header (blk2 to)) →
  ∀ m, from ≤ m ≤ to → Header (blk1 m) = Header (blk2 m).
Proof.
  intros Hft Hmax Hf Hok Hcoll V1 P1 V2 P2 Hlast.
  destruct (passing_is_linked from to sample1 blk1 fuel r1) as [L1 _]; [done..|].
  destruct (passing_is_linked from to sample2 blk2 fuel r2) as [L2 _]; [done..|].
  assert (∀ k : nat, Z.of_nat k ≤ to - from →
    header_hash (Header (blk1 (to - Z.of_nat k))) = header_hash (Header (blk2 (to - Z.of_nat k))))
    as Hall.
  { induction k as [|k IH]; intros Hk; [by rewrite Z.sub_0_r|].
    assert (Header (blk1 (to - Z.of_nat k)) = Header (blk2 (to - Z.of_nat k))) as E.
    { apply asn1_header_inj; [apply Hok; lia.. |].
      by apply (Hcoll (to - Z.of_nat k) (to - Z.of_nat k)); [lia | lia | | | apply IH; lia]. }
    apply (f_equal PreviousHash) in E. rewrite L1, L2 in E by lia.
    replace (to - Z.of_nat (S k)) with (to - Z.of_nat k - 1) by lia. done. }
  intros m Hm. apply asn1_header_inj; [apply Hok; lia.. |].
  apply (Hcoll m m); try done. specialize (Hall (Z.to_nat (to - m))).
  replace (to - Z.of_nat (Z.to_nat (to - m))) with m in Hall by lia. apply Hall. lia.
Qed.
End walk.

(** [receiptsFromBlock] returns, in the order asked for, one receipt for each
    requested transaction the block carries and none for the others; each has
    the block's number, recomputed hash, data hash and previous hash, and the
    proposal time of the first envelope with that id. *)
Theorem receiptsFromBlock_correct `{FabricProto, Sha256} block txIDs :
  TxID <$> receiptsFromBlock block txIDs = filter (λ t, t ∈ present block) txIDs ∧
  (∀ t, t ∈ present block ↔
     ∃ env chdr, env ∈ Data block ∧ channel_header env = Some chdr ∧ TxId chdr = t) ∧
  Forall (λ r, r = MkReceipt (TxID r) (Number (Header block)) (header_hash (Header block))
    (DataHash (Header block)) (PreviousHash (Header block)) (txTimestamp block (TxID r)))
    (receiptsFromBlock block txIDs).
Proof.
  assert (∀ t, TxID (stamped block t) = t) as Hid.
  { intros t. unfold stamped. by destruct (txTimestamp block t). }
  split_and!.
  - unfold receiptsFromBlock. induction txIDs as [|t l IH]; [done|]. cbn [receipts_of].
    rewrite filter_cons. case_bool_decide; cbn [negb]; [|by rewrite decide_False].
    rewrite decide_True by done. cbn [fmap list_fmap]. by rewrite Hid, IH.
  - intros t. unfold present. rewrite elem_of_list_to_set, list_elem_of_omap. split.
    + intros (env & Henv & E). destruct (channel_header env) as [chdr|] eqn:Ec; [|done].
      injection E as E. eauto.
    + intros (env & chdr & Henv & Ec & <-). exists env. split; [done|]. by rewrite Ec.
  - unfold receiptsFromBlock. induction txIDs as [|t l IH]; [constructor|]. cbn [receipts_of].
    case_bool_decide; cbn [negb]; [|done]. constructor; [|done]. rewrite Hid.
    unfold stamped. by destruct (txTimestamp block t).
Qed.

(** ** Witnesses: the identity in place of SHA-256, a chain of two blocks *)
Definition identity_hash : Sha256 := {| Sum256 b := b |}.

Definition wit_genesis : Block := MkBlock (MkHeader 0 [] [x01]) [].

Definition wit_block (n : Z) : Block :=
  if n =? 0 then wit_genesis
  else MkBlock (MkHeader n (header_hash (H := identity_hash) (Header wit_genesis)) [x02]) [].

Definition wit_sample : list Receipt :=
  [MkReceipt "t" 0 (header_hash (H := identity_hash) (Header wit_genesis)) [] [] None;
   MkReceipt "u" 1 [x00] [] [] None; MkReceipt "v" 7 [] [] [] None].

Lemma verifyChain_correct_witness :
  ∃ report, verifyChain (H := identity_hash) 3 0 1 wit_sample (λ m, Ok (wit_block m)) =
      Some (report, None) ∧ ReceiptsChecked report = 2 ∧ ReceiptMismatches report = 1.
Proof.
  destruct (proj1 (verifyChain_correct (H := identity_hash) 0 1 wit_sample
    (λ m, Ok (wit_block m)) wit_block 3 ltac:(lia) ltac:(unfold max_uint64; lia) ltac:(lia)))
    as (report & E & _ & Hc & Hm & _); [done|].
  exists report. split; [exact E|]. rewrite Hc, Hm. split; vm_compute; reflexivity.
Defined.

(** The same headers over other envelopes: the header hash does not cover the
    data directly. *)
Definition wit_other (n : Z) : Block := MkBlock (Header (wit_block n)) [[x05]].

Lemma verified_chains_agree_witness :
  Header (wit_block 0) = Header (wit_other 0) ∧ wit_block 0 ≠ wit_other 0.
Proof.
  split; [|done].
  apply (verified_chains_agree (H := identity_hash) 0 1 [] [] wit_block wit_other 3
    (MkReport 2 true None 0 0 "PASS") (MkReport 2 true None 0 0 "PASS")).
  - lia.
  - unfold max_uint64. lia.
  - lia.
  - intros m Hm. assert (m = 0 ∨ m = 1) as [-> | ->] by lia;
      split; split_and!; vm_compute; (done || discriminate).
  - intros m m' b b' _ _ _ _. done.
  - vm_compute. reflexivity.
  - vm_compute. reflexivity.
  - reflexivity.
  - reflexivity.
  - reflexivity.
  - lia.
Defined.
End ReceiptsFacts.
