(* ===== verification/Client.v ===== *)
(** * The bulletin client

    [client-sdk/bulletin.go]: the wrappers a Go caller uses, over the gateway's
    contract interface (the class [Gateway]: any implementation, any state, any
    error), and the read path back from the chain: [ListNullifiers] pages,
    [CountCommittedBallots] and [GetBallots] against the chaincode's queries. *)
From S2P Require Import Prelude Fabric Hex Wire Ristretto.
From S2P Require Import CdsVerify CredVerify SelectionVerify SigVerify Contract BoardSpec.
From S2P Require Import HandlerFacts Ledger.
From stdpp Require Import pretty.
#[local] Open Scope Z_scope.

(** The [Contract] interface: a call returns the response bytes or an error and
    may change the state behind the gateway. *)
Class Gateway (Σ : Type) := {
  SubmitTransaction : string → list string → Σ → result string * Σ;
  EvaluateTransaction : string → list string → Σ → result string * Σ
}.

(** Client computations. *)
Definition G (Σ A : Type) : Type := Σ → result A * Σ.

Definition gret {Σ A} (r : result A) : G Σ A := λ s, (r, s).

Definition gbind {Σ A B} (m : G Σ A) (k : A → G Σ B) : G Σ B :=
  λ s, match m s with
       | (Ok a, s') => k a s'
       | (Err e, s') => (Err e, s')
       end.

(** [out, err := call; if err != nil { return fmt.Errorf(what, err) }]. *)
Definition gwrap {Σ A} (f : goerr → goerr) (m : G Σ A) : G Σ A :=
  λ s, let '(r, s') := m s in (wrap_err f r, s').

Notation "'let*' x ':=' m 'in' k" := (gbind m (fun x => k))
  (at level 10, x binder, m at level 100, k at level 200) : saksi_scope.

Module Client.

Definition nullifierPageSize : Z := 10000.

Definition BallotBatchSize : Z := 500.

Section client.
Context {Σ : Type} `{Gateway Σ, Json}.

(** A submit whose response is discarded. *)
Definition submit_op (what name : string) (args : list string) : G Σ unit :=
  let* _ := gwrap (errw what) (SubmitTransaction name args) in gret (Ok tt).

(** A query whose response is returned as a string. *)
Definition evaluate_op (what name : string) (args : list string) : G Σ string :=
  gwrap (errw what) (EvaluateTransaction name args).

Definition require (s what : string) (k : G Σ unit) : G Σ unit :=
  if bool_decide (s = "") then gret (Err (Errorf what [])) else k.

Definition SubmitBallot (ballotHex : string) : G Σ unit :=
  require ballotHex "ballot hex is empty"
    (submit_op "submit ballot: %w" "SubmitBallot" [ballotHex]).

Definition CreateElection (paramsHex : string) : G Σ unit :=
  require paramsHex "election parameters hex is empty"
    (submit_op "create election: %w" "CreateElection" [paramsHex]).

Definition PublishDKGTranscript (transcriptHex : string) : G Σ unit :=
  require transcriptHex "DKG transcript hex is empty"
    (submit_op "publish DKG transcript: %w" "PublishDKGTranscript" [transcriptHex]).

Definition CloseElection (electionID : string) : G Σ unit :=
  submit_op "close election: %w" "CloseElection" [electionID].

Definition SubmitPartialDecryption (electionID partialHex : string) : G Σ unit :=
  require electionID "election id is empty"
    (require partialHex "partial decryption hex is empty"
      (submit_op "submit partial decryption: %w" "SubmitPartialDecryption"
         [electionID; partialHex])).

Definition PublishTally (tallyHex : string) : G Σ unit :=
  require tallyHex "tally hex is empty"
    (submit_op "publish tally: %w" "PublishTally" [tallyHex]).

Definition GetBallot (electionID nullifier : string) : G Σ string :=
  evaluate_op "get ballot: %w" "GetBallot" [electionID; nullifier].

Definition GetElection (electionID : string) : G Σ string :=
  evaluate_op "get election: %w" "GetElection" [electionID].

Definition GetDKGTranscript (electionID : string) : G Σ string :=
  evaluate_op "get DKG transcript: %w" "GetDKGTranscript" [electionID].

Definition GetElectionStatus (electionID : string) : G Σ string :=
  evaluate_op "get election status: %w" "GetElectionStatus" [electionID].

Definition GetPartialDecryption (electionID contestID trusteeID : string) : G Σ string :=
  evaluate_op "get partial decryption: %w" "GetPartialDecryption"
    [electionID; contestID; trusteeID].

Definition GetTally (electionID : string) : G Σ string :=
  evaluate_op "get tally: %w" "GetTally" [electionID].

(** [strconv.Itoa] is decimal notation. *)
Definition ListNullifiers (electionID : string) (pageSize : Z) (bookmark : string) :
    G Σ NullifierPage :=
  let* out := gwrap (errw "list nullifiers: %w")
                (EvaluateTransaction "ListNullifiers" [electionID; pretty pageSize; bookmark]) in
  gret (wrap_err (errw "decode nullifier page: %w") (UnmarshalNullifierPage out)).

(** The loop of [CountCommittedBallots]; [None] means it has not finished
    within [fuel] pages. *)
Fixpoint count_pages (fuel : nat) (electionID : string) (total : Z) (bookmark : string)
    (s : Σ) : option (result Z) * Σ :=
  match fuel with
  | O => (None, s)
  | S fuel =>
      match ListNullifiers electionID nullifierPageSize bookmark s with
      | (Err e, s) => (Some (Err e), s)
      | (Ok page, s) =>
          let total := total + Z.of_nat (length (Nullifiers page)) in
          if bool_decide (NextBookmark page = "") then (Some (Ok total), s)
          else count_pages fuel electionID total (NextBookmark page) s
      end
  end.

Definition CountCommittedBallots (fuel : nat) (electionID : string) : Σ → option (result Z) * Σ :=
  count_pages fuel electionID 0 "".

Definition GetBallots (electionID : string) (nullifiers : list string) : G Σ (list string) :=
  let* arg := gret (wrap_err (errw "encode nullifier list: %w") (MarshalStrings nullifiers)) in
  let* out := gwrap (errw "get ballots: %w")
                (EvaluateTransaction "GetBallots" [electionID; arg]) in
  let* ballots := gret (wrap_err (errw "decode ballot page: %w") (UnmarshalStrings out)) in
  if negb (length ballots =? length nullifiers)%nat
  then gret (Err (Errorf "ballot page holds %d entries for %d nullifiers"
         [AInt (Z.of_nat (length ballots)); AInt (Z.of_nat (length nullifiers))]))
  else gret (Ok ballots).
End client.
End Client.

(** [encoding/json] on strings: text that is valid UTF-8 survives a round trip. *)
Class JsonLaws `{Json} := {
  utf8 : string → Prop;
  page_round_trip : ∀ p j, Forall utf8 (Nullifiers p) → utf8 (NextBookmark p) →
    MarshalNullifierPage p = Ok j → UnmarshalNullifierPage j = Ok p;
  page_marshals : ∀ p, ∃ j, MarshalNullifierPage p = Ok j;
  strings_round_trip : ∀ l j, Forall utf8 l →
    MarshalStrings l = Ok j → UnmarshalStrings j = Ok l;
  strings_marshal : ∀ l, ∃ j, MarshalStrings l = Ok j;
  utf8_empty : utf8 "";
  utf8_hex : ∀ b, utf8 (EncodeToString b)
}.

(** A gateway in front of a quiescent chain: a query evaluates the chaincode
    function of that name on the committed state and leaves it as it is. *)
Definition answers `{Gateway Σ} (name : string) (args : list string) (s : Σ) (r : result string) : Prop :=
  match r with
  | Ok out => EvaluateTransaction name args s = (Ok out, s)
  | Err _ => ∃ err, EvaluateTransaction name args s = (Err err, s)
  end.

(** ... for the pages of nullifiers, *)
Class ChainPages (Σ : Type) `{Gateway Σ, FabricShim, Json} := {
  chain : Σ → worldstate;
  query_list : ∀ s e (n : Z) bm, 0 < n ≤ Contract.maxNullifierPageSize →
    answers "ListNullifiers" [e; pretty n; bm] s
      (evaluate (Contract.ListNullifiers e n bm) (healthy (chain s)))
}.

(** ... and for batches of ballots. *)
Class ChainGateway (Σ : Type) `{ChainPages Σ} := {
  query_ballots : ∀ s e arg,
    answers "GetBallots" [e; arg] s (evaluate (Contract.GetBallots e arg) (healthy (chain s)))
}.
