(* ===== verification/ClientFacts.v ===== *)
(** * Reading the board back

    What the chaincode's queries return on a ledger, and that the client's read
    path recovers it: the committed-ballot count through any number of pages,
    and batches of ballots in the order asked for. *)
From S2P Require Import Prelude Fabric Hex Wire Ristretto.
From S2P Require Import CdsVerify CredVerify SelectionVerify SigVerify Contract BoardSpec.
From S2P Require Import HandlerFacts Ledger Client.
Import Contract.
From stdpp Require Import pretty.
#[local] Open Scope Z_scope.

(** The nullifier a key of the nullifier index names. *)
Definition key_nullifier `{FabricShim} (k : string) : string :=
  match SplitCompositeKey k with Ok (_, [_; n]) => n | _ => "" end.

Section queries.
Context `{FabricShimLaws, Proto, Ristretto, Merlin, Json}.

Lemma page_entry_key e n k :
  composite_key (KNullifier e n) = Ok k → page_entry (Ok k) = Ok (key_nullifier k).
Proof.
  intros Hk%split_create. unfold page_entry, key_nullifier. cbn. by rewrite Hk.
Qed.

Lemma page_entries e (ks : list string) :
  (∀ k, k ∈ ks → ∃ n, composite_key (KNullifier e n) = Ok k) →
  rmapM page_entry (Ok <$> ks) = Ok (key_nullifier <$> ks).
Proof.
  intros Hks. induction ks as [|k ks IH]; [done|]. cbn [fmap list_fmap rmapM].
  destruct (Hks k) as [n Hk]; [set_solver|]. rewrite (page_entry_key _ _ _ Hk). cbn [rbind].
  rewrite IH by set_solver. done.
Qed.

(** The keys of a page query over the nullifiers of [e] on a ledger. *)
Lemma nullifier_range w B e k :
  represents w B →
  in_range w nullifierIndex [e] k ↔
    ∃ n, composite_key (KNullifier e n) = Ok k ∧ is_Some (B !! KNullifier e n).
Proof.
  intros HB. split.
  - intros [Hs [rest Hsplit]]. destruct (rep_keys _ _ HB _ Hs) as [rk Hrk].
    pose proof (split_create _ _ _ Hrk) as Hsplit'. rewrite Hsplit in Hsplit'.
    injection Hsplit' as Hty Hattrs. rewrite (rep_lookup _ _ HB _ _ Hrk) in Hs.
    destruct rk; try discriminate Hty. cbn in Hattrs. injection Hattrs as <- _. eauto.
  - intros (n & Hk & Hs). split; [by rewrite (rep_lookup _ _ HB _ _ Hk)|].
    exists [n]. apply (split_create _ _ _ Hk).
Qed.

Lemma ListNullifiers_page w e (n : nat) bm ks i :
  0 < Z.of_nat n ≤ maxNullifierPageSize →
  (∀ k, k ∈ ks → ∃ x, composite_key (KNullifier e x) = Ok k) →
  QueryPage w nullifierIndex [e] (Z.of_nat n) bm =
    Ok (Ok <$> take n (drop i ks), Some (default "" (ks !! (i + n)%nat))) →
  evaluate (ListNullifiers e (Z.of_nat n) bm) (healthy w) =
    wrap_err (errw "encode nullifier page: %w")
      (MarshalNullifierPage (MkNullifierPage (key_nullifier <$> take n (drop i ks))
        (default "" (ks !! (i + n)%nat)))).
Proof.
  intros Hn Hks Hq. unfold evaluate, ListNullifiers.
  rewrite (proj2 (Z.leb_gt _ _)) by lia. rewrite (proj2 (Z.ltb_ge _ _)) by lia.
  erewrite mbind_run; [| apply mwrap_ok; unfold GetStateByPartialCompositeKeyWithPagination;
    cbn [world healthy]; by rewrite Hq].
  cbn [fst snd]. erewrite mbind_run; [| apply mlift_run, (page_entries e)].
  2: { intros k Hk. apply Hks. apply elem_of_take in Hk as (j & Hj & _).
       rewrite lookup_drop in Hj. by apply list_elem_of_lookup_2 in Hj. }
  unfold mlift. by destruct (wrap_err _ _).
Qed.

(** One record of a [GetBallots] page. *)
Definition ballot_text (B : board) (e n : string) : string :=
  EncodeToString (default [] (B !! KBallot e n)).

Lemma ballot_text_Some B e n raw :
  B !! KBallot e n = Some raw → ballot_text B e n = EncodeToString raw.
Proof. unfold ballot_text. by intros ->. Qed.

Lemma ballot_text_None B e n : B !! KBallot e n = None → ballot_text B e n = "".
Proof. unfold ballot_text. by intros ->. Qed.

Lemma read_ballot_run w B e n k t :
  represents w B → composite_key (KBallot e n) = Ok k →
  read_ballot e n (healthy w) t = Ok (ballot_text B e n, TxLog (k :: reads t) (writes t)).
Proof.
  intros HB Hk. unfold read_ballot, ballot_text.
  erewrite mbind_run; [| apply build_key_ok; split; [exact Hk | reflexivity]].
  erewrite mbind_run; [| apply read_key_ok; done].
  cbn [healthy world]. by rewrite (rep_lookup _ _ HB _ _ Hk).
Qed.

Lemma GetBallots_reads w B e ns t :
  represents w B → (∀ n, n ∈ ns → ∃ k, composite_key (KBallot e n) = Ok k) →
  ∃ t', mmapM (read_ballot e) ns (healthy w) t = Ok (ballot_text B e <$> ns, t').
Proof.
  intros HB. revert t. induction ns as [|n ns IH]; intros t Hns; [by exists t|].
  destruct (Hns n) as [k Hk]; [set_solver|].
  destruct (IH (TxLog (k :: reads t) (writes t))) as [t' Ht']; [intros x Hx; apply Hns; set_solver|].
  exists t'. cbn [mmapM].
  erewrite mbind_run by by apply read_ballot_run.
  by erewrite mbind_run by exact Ht'.
Qed.

Lemma GetBallots_run w B e ns arg :
  represents w B → (∀ n, n ∈ ns → ∃ k, composite_key (KBallot e n) = Ok k) →
  UnmarshalStrings arg = Ok ns → Z.of_nat (length ns) ≤ maxBallotBatchSize →
  evaluate (GetBallots e arg) (healthy w) =
    wrap_err (errw "encode ballot page: %w") (MarshalStrings (ballot_text B e <$> ns)).
Proof.
  intros HB Hns Harg Hlen. destruct (GetBallots_reads w B e ns tx_start HB Hns) as [t Ht].
  unfold evaluate, GetBallots.
  erewrite mbind_run; [| apply mlift_run, wrap_err_ok; exact Harg].
  rewrite (proj2 (Z.ltb_ge _ _)) by lia.
  erewrite mbind_run by exact Ht. unfold mlift. by destruct (wrap_err _ _).
Qed.
End queries.

Section client.
Context `{FabricShimLaws, Proto, Ristretto, Merlin, !Json, !JsonLaws}.
Context {Σ : Type} `{!Gateway Σ, !ChainPages Σ, !ChainGateway Σ}.
(** Composite keys are valid UTF-8, which the shim checks when it builds them. *)
Hypothesis keys_utf8 : ∀ rk k, composite_key rk = Ok k → utf8 k.

(** One page through the client. *)
Lemma client_page (s : Σ) B e (n : nat) bm ks i :
  represents (chain s) B → 0 < Z.of_nat n ≤ maxNullifierPageSize →
  (∀ k, k ∈ ks → ∃ b, composite_key (KNullifier e (EncodeToString b)) = Ok k) →
  QueryPage (chain s) nullifierIndex [e] (Z.of_nat n) bm =
    Ok (Ok <$> take n (drop i ks), Some (default "" (ks !! (i + n)%nat))) →
  Client.ListNullifiers e (Z.of_nat n) bm s =
    (Ok (MkNullifierPage (key_nullifier <$> take n (drop i ks))
           (default "" (ks !! (i + n)%nat))), s).
Proof.
  intros HB Hn Hks Hq.
  assert (∀ k, k ∈ ks → ∃ x, composite_key (KNullifier e x) = Ok k) as Hks' by naive_solver.
  pose proof (query_list s e (Z.of_nat n) bm Hn) as Hev. unfold answers in Hev.
  rewrite (ListNullifiers_page _ _ _ _ _ _ Hn Hks' Hq) in Hev.
  set (page := MkNullifierPage _ _) in *.
  destruct (page_marshals page) as [j Hj]. rewrite Hj in Hev. cbn [wrap_err] in Hev.
  unfold Client.ListNullifiers, gbind, gwrap. rewrite Hev. cbn [wrap_err gret].
  rewrite (page_round_trip page j); [done | | | done].
  - cbn. apply Forall_fmap, Forall_forall. intros k Hk.
    apply elem_of_take in Hk as (j' & Hj' & _). rewrite lookup_drop in Hj'.
    apply list_elem_of_lookup_2 in Hj'. destruct (Hks _ Hj') as [b Hb].
    cbn. unfold key_nullifier. rewrite (split_create _ _ _ Hb). apply utf8_hex.
  - cbn. destruct (ks !! (i + n)%nat) as [k|] eqn:Ek; [|apply utf8_empty].
    apply list_elem_of_lookup_2 in Ek. destruct (Hks _ Ek) as [b Hb]. by eapply keys_utf8.
Qed.

(** A batch of ballots through the client. *)
Lemma client_ballots (s : Σ) B e ns :
  represents (chain s) B → Forall utf8 ns → Z.of_nat (length ns) ≤ maxBallotBatchSize →
  (∀ n, n ∈ ns → ∃ k, composite_key (KBallot e n) = Ok k) →
  Client.GetBallots e ns s = (Ok (ballot_text B e <$> ns), s).
Proof.
  intros HB Hutf8 Hlen Hkeys. destruct (strings_marshal ns) as [arg Harg].
  pose proof (query_ballots s e arg) as Hev. unfold answers in Hev.
  rewrite (GetBallots_run _ B _ ns) in Hev by eauto using strings_round_trip.
  destruct (strings_marshal (ballot_text B e <$> ns)) as [out Hout].
  rewrite Hout in Hev. cbn in Hev.
  unfold Client.GetBallots, gbind, gret, gwrap. rewrite Harg. cbn. rewrite Hev. cbn.
  rewrite (strings_round_trip (ballot_text B e <$> ns)); [| | done].
  - cbn. by rewrite length_fmap, Nat.eqb_refl.
  - apply Forall_fmap, Forall_forall. intros n _. apply utf8_hex.
Qed.

(** The loop over all pages: from the key at [i] it adds the rest. *)
Lemma count_pages_ok (s : Σ) B e ks fuel i total bm :
  represents (chain s) B →
  (∀ k, k ∈ ks → ∃ b, composite_key (KNullifier e (EncodeToString b)) = Ok k) →
  (∀ (i n : nat) bookmark, (0 < n)%nat →
     (i = 0%nat ∧ bookmark = "" ∨ ks !! i = Some bookmark) →
     QueryPage (chain s) nullifierIndex [e] (Z.of_nat n) bookmark =
       Ok (Ok <$> take n (drop i ks), Some (default "" (ks !! (i + n)%nat)))) →
  (i = 0%nat ∧ bm = "" ∨ ks !! i = Some bm) →
  (0 < fuel)%nat → Z.of_nat (length ks) - Z.of_nat i ≤ Client.nullifierPageSize * Z.of_nat fuel →
  Client.count_pages fuel e total bm s =
    (Some (Ok (total + (Z.of_nat (length ks) - Z.of_nat i))), s).
Proof.
  intros HB Hks Hq. revert i total bm. induction fuel as [|fuel IH]; [lia|].
  intros i total bm Hbm _ Hfuel. cbn [Client.count_pages].
  assert (i ≤ length ks)%nat as Hi.
  { destruct Hbm as [[-> _]|Hb]; [lia|]. apply lookup_lt_Some in Hb. lia. }
  unfold Client.nullifierPageSize in *. change 10000 with (Z.of_nat (Z.to_nat 10000)) at 1.
  assert (0 < Z.of_nat (Z.to_nat 10000) ≤ maxNullifierPageSize) as Hsize
    by (unfold maxNullifierPageSize; lia).
  assert (0 < Z.to_nat 10000)%nat as Hpos by lia.
  rewrite (client_page s B e (Z.to_nat 10000) bm ks i HB Hsize Hks (Hq _ _ _ Hpos Hbm)).
  cbn [Nullifiers NextBookmark]. rewrite length_fmap, length_take, length_drop.
  destruct (ks !! (i + Z.to_nat 10000)%nat) as [k|] eqn:Ek; cbn [default from_option id].
  - rewrite bool_decide_false.
    2: { intros ->. apply list_elem_of_lookup_2 in Ek. destruct (Hks _ Ek) as [b Hb].
         by apply (create_nonempty _ _ _ Hb). }
    pose proof (lookup_lt_Some _ _ _ Ek). rewrite (IH (i + Z.to_nat 10000)%nat); [|by right|lia..].
    do 3 f_equal. lia.
  - apply lookup_ge_None in Ek. rewrite bool_decide_true by done. do 3 f_equal. lia.
Qed.
End client.

(** ** The ledger's nullifiers and the ballots cast *)
Section counting.
Context `{FabricShimLaws, Proto, Ristretto, Merlin, Json, CommitterLaws}.

Lemma reachable_board h w :
  commits ∅ h w → ∃ B, represents w B ∧ board_wf B ∧ NoDup (cast h).*1 ∧
    ∀ e n, is_Some (B !! KNullifier e n) ↔ (e, n) ∈ (cast h).*1.
Proof.
  intros Hc. destruct (commits_steps _ _ _ _ represents_empty Hc) as (B & Hsteps & HB).
  destruct (steps_wf _ _ _ board_wf_empty Hsteps) as [Hwf _].
  destruct (steps_ballots _ _ _ board_wf_empty Hsteps) as (Hnd & _ & Hb).
  exists B. split_and!; [done..|]. intros e n. split.
  - intros [v Hv]. destruct (Hwf _ _ Hv) as [_ [raw Hraw]]. apply Hb in Hraw as [[=]|Hin].
    apply list_elem_of_fmap. by exists ((e, n), raw).
  - intros ([slot raw] & E & Hin)%list_elem_of_fmap. cbn in E. subst slot.
    destruct (Hwf (KBallot e n) raw) as [Hs _]; [by apply Hb; right|]. eauto.
Qed.

Lemma wf_nullifier_hex B e n :
  board_wf B → is_Some (B !! KNullifier e n) → ∃ b, n = EncodeToString b.
Proof.
  intros Hwf [v Hv]. destruct (Hwf _ _ Hv) as [_ [raw Hraw]].
  destruct (Hwf _ _ Hraw) as (_ & b & pr & p & tr & epk & _ & Hslot & _).
  unfold ballot_slot in Hslot. injection Hslot as _ <-. eauto.
Qed.

(** The number of ballots of an election in a history. *)
Definition ballots_cast_for (e : string) (h : list invocation) : nat :=
  length (filter (λ slot : string * string, slot.1 = e) (cast h).*1).

(** The keys of an election name exactly the nullifiers of its ballots. *)
Lemma nullifier_keys_elem w B h e (ks : list string) n :
  represents w B → (∀ n, is_Some (B !! KNullifier e n) ↔ (e, n) ∈ (cast h).*1) →
  (∀ k, k ∈ ks ↔ in_range w nullifierIndex [e] k) →
  n ∈ key_nullifier <$> ks ↔ (e, n) ∈ (cast h).*1.
Proof.
  intros HB Hn Hr. rewrite list_elem_of_fmap. split.
  - intros (k & -> & Hk). apply Hr, (nullifier_range _ _ _ _ HB) in Hk as (x & Hk & Hs).
    unfold key_nullifier. rewrite (split_create _ _ _ Hk). by apply Hn.
  - intros Hin. apply Hn in Hin. destruct (rep_records _ _ HB _ Hin) as [k Hk]. exists k. split.
    + unfold key_nullifier. by rewrite (split_create _ _ _ Hk).
    + apply Hr, (nullifier_range _ _ _ _ HB). eauto.
Qed.

(** Any duplicate-free enumeration of the election's nullifier keys names each
    of its ballots' nullifiers once. *)
Lemma nullifier_keys_perm w B h e ks :
  represents w B → NoDup (cast h).*1 →
  (∀ n, is_Some (B !! KNullifier e n) ↔ (e, n) ∈ (cast h).*1) →
  NoDup ks → (∀ k, k ∈ ks ↔ in_range w nullifierIndex [e] k) →
  key_nullifier <$> ks ≡ₚ snd <$> filter (λ slot : string * string, slot.1 = e) (cast h).*1.
Proof.
  intros HB Hnd Hn Hks Hr. apply NoDup_Permutation.
  - apply NoDup_fmap_2_strong; [|done]. intros k k' Hk Hk' E.
    apply Hr, (nullifier_range _ _ _ _ HB) in Hk as (n & Hk & _), Hk' as (n' & Hk' & _).
    unfold key_nullifier in E. rewrite (split_create _ _ _ Hk), (split_create _ _ _ Hk') in E.
    cbn in E. subst n'. rewrite Hk in Hk'. by injection Hk'.
  - apply NoDup_fmap_2_strong; [|by apply NoDup_filter].
    intros [e1 n1] [e2 n2] [E1 _]%list_elem_of_filter [E2 _]%list_elem_of_filter E.
    cbn in *. congruence.
  - intros n. rewrite (nullifier_keys_elem w B h e ks n HB Hn Hr), !list_elem_of_fmap. split.
    + intros ([slot raw] & E & Hin). exists (e, n). split; [done|].
      apply list_elem_of_filter. split; [done|]. apply list_elem_of_fmap. eauto.
    + intros ([e1 n1] & -> & [E Hin]%list_elem_of_filter). cbn in *. subst e1.
      by apply list_elem_of_fmap in Hin.
Qed.

(** ... and so has that many elements. *)
Lemma nullifier_keys_length w B h e ks :
  represents w B → NoDup (cast h).*1 →
  (∀ n, is_Some (B !! KNullifier e n) ↔ (e, n) ∈ (cast h).*1) →
  NoDup ks → (∀ k, k ∈ ks ↔ in_range w nullifierIndex [e] k) →
  length ks = ballots_cast_for e h.
Proof.
  intros HB Hnd Hn Hks Hr. unfold ballots_cast_for.
  pose proof (nullifier_keys_perm _ _ _ _ _ HB Hnd Hn Hks Hr) as Hp.
  apply Permutation_length in Hp. by rewrite !length_fmap in Hp.
Qed.
End counting.

Section claims.
Context `{FabricShimLaws, Proto, Ristretto, Merlin, !Json, !JsonLaws, CommitterLaws}.
Context {Σ : Type} `{!Gateway Σ, !ChainPages Σ, !ChainGateway Σ}.

(** The committed count is the true count: after any committed history,
    [CountCommittedBallots] terminates and returns exactly the number of ballots
    cast for the election, through every page boundary; as many pages as the
    election has blocks of ten thousand ballots (at least one) are enough. *)
Theorem CountCommittedBallots_correct h (s : Σ) e fuel :
  (∀ rk k, composite_key rk = Ok k → utf8 k) →
  commits ∅ h (chain s) → (0 < fuel)%nat →
  Z.of_nat (ballots_cast_for e h) ≤ Client.nullifierPageSize * Z.of_nat fuel →
  Client.CountCommittedBallots fuel e s = (Some (Ok (Z.of_nat (ballots_cast_for e h))), s).
Proof.
  intros Hutf8 Hc Hf Hfuel. destruct (reachable_board _ _ Hc) as (B & HB & Hwf & Hnd & Hn).
  destruct (query_page (chain s) nullifierIndex [e]) as (ks & Hks & Hr & Hq).
  pose proof (nullifier_keys_length _ _ _ _ _ HB Hnd (Hn e) Hks Hr) as Hlen.
  unfold Client.CountCommittedBallots.
  rewrite (count_pages_ok Hutf8 s B e ks fuel 0 0 ""); [| done | | done | by left | done | lia].
  - do 3 f_equal. lia.
  - intros k Hk. apply Hr, (nullifier_range _ _ _ _ HB) in Hk as (n & Hk & Hs).
    destruct (wf_nullifier_hex _ _ _ Hwf Hs) as [b ->]. eauto.
Qed.

(** [GetBallots] returns the chain's ballots in the order asked for: each
    position holds the hex of the record of that nullifier, and the empty string
    exactly where the chain has none. *)
Theorem GetBallots_correct h (s : Σ) e ns :
  commits ∅ h (chain s) → Forall utf8 ns → Z.of_nat (length ns) ≤ maxBallotBatchSize →
  (∀ n, n ∈ ns → ∃ k, composite_key (KBallot e n) = Ok k) →
  ∃ texts, Client.GetBallots e ns s = (Ok texts, s) ∧
    Forall2 (λ n text, (∃ raw, ((e, n), raw) ∈ cast h ∧ text = EncodeToString raw) ∨
                       ((e, n) ∉ (cast h).*1) ∧ text = "") ns texts.
Proof.
  intros Hc Hutf8 Hlen Hkeys.
  destruct (commits_steps _ _ _ _ represents_empty Hc) as (B & Hsteps & HB).
  destruct (steps_ballots _ _ _ board_wf_empty Hsteps) as (_ & _ & Hb).
  exists (ballot_text B e <$> ns). split; [by apply client_ballots|].
  apply Forall2_fmap_r, Forall_Forall2_diag, Forall_forall. intros n _.
  destruct (B !! KBallot e n) as [raw|] eqn:E.
  - left. exists raw. split; [|by apply ballot_text_Some]. apply Hb in E as [[=]|?]. done.
  - right. split; [|by apply ballot_text_None]. intros ([slot raw] & Es & Hin)%list_elem_of_fmap. cbn in Es.
      subst slot. rewrite (proj2 (Hb e n raw)) in E by by right. done.
Qed.
End claims.
