(* ===== verification/GoText.v ===== *)
(** * Text and numbers of the Go standard library

    The functions of [strings], [strconv] and [sort] that the console's code
    calls, on byte strings, and [float64] arithmetic as the standard library's
    IEEE 754 specification ([SpecFloat] at binary64). Shared by the files that
    model [saksi-campaign]. *)
From S2P Require Import Prelude Hex.
From Stdlib Require Export SpecFloat.
From Stdlib Require Import Ascii String.
From stdpp Require Import pretty.
#[local] Open Scope Z_scope.

Module GoText.

Fixpoint str_of (codes : list nat) : string :=
  match codes with
  | [] => EmptyString
  | c :: codes => String (ascii_of_nat c) (str_of codes)
  end.

(** ** strings *)

(** The UTF-8 encodings of the code points [unicode.IsSpace] accepts. *)
Definition space_encodings : list string :=
  map str_of
    [[9]; [10]; [11]; [12]; [13]; [32]; [0xC2; 0x85]; [0xC2; 0xA0]; [0xE1; 0x9A; 0x80];
     [0xE2; 0x80; 0x80]; [0xE2; 0x80; 0x81]; [0xE2; 0x80; 0x82]; [0xE2; 0x80; 0x83];
     [0xE2; 0x80; 0x84]; [0xE2; 0x80; 0x85]; [0xE2; 0x80; 0x86]; [0xE2; 0x80; 0x87];
     [0xE2; 0x80; 0x88]; [0xE2; 0x80; 0x89]; [0xE2; 0x80; 0x8A]; [0xE2; 0x80; 0xA8];
     [0xE2; 0x80; 0xA9]; [0xE2; 0x80; 0xAF]; [0xE2; 0x81; 0x9F]; [0xE3; 0x80; 0x80]]%nat.

Fixpoint str_drop (n : nat) (s : string) : string :=
  match n, s with
  | O, _ => s
  | S _, EmptyString => EmptyString
  | S n, String _ s => str_drop n s
  end.

Fixpoint str_take (n : nat) (s : string) : string :=
  match n, s with
  | S n, String c s => String c (str_take n s)
  | _, _ => EmptyString
  end.

Definition has_suffix (s suffix : string) : bool :=
  (String.length suffix <=? String.length s)%nat &&
  String.eqb (str_drop (String.length s - String.length suffix) s) suffix.

(** One step per code point removed: the string's length is fuel enough. *)
Fixpoint trim_left (fuel : nat) (s : string) : string :=
  match fuel, find (has_prefix s) space_encodings with
  | S fuel, Some e => trim_left fuel (str_drop (String.length e) s)
  | _, _ => s
  end.

Fixpoint trim_right (fuel : nat) (s : string) : string :=
  match fuel, find (has_suffix s) space_encodings with
  | S fuel, Some e => trim_right fuel (str_take (String.length s - String.length e) s)
  | _, _ => s
  end.

Definition TrimSpace (s : string) : string :=
  let s := trim_left (String.length s) s in trim_right (String.length s) s.

Definition TrimPrefix (s prefix : string) : string :=
  if has_prefix s prefix then str_drop (String.length prefix) s else s.

(** [strings.ReplaceAll(s, old, new)] for a one-character [old]. *)
Fixpoint replace_char (old : ascii) (new : string) (s : string) : string :=
  match s with
  | EmptyString => EmptyString
  | String c s =>
      if Ascii.eqb c old then (new +:+ replace_char old new s)
      else String c (replace_char old new s)
  end.

(** [strings.ToLower] and [ToUpper] on ASCII letters. Bytes of a multi-byte
    character are left alone: no caller's result depends on them, because each
    keeps only hexadecimal digits afterwards and no other character maps to one. *)
Definition lower_ascii (c : ascii) : ascii :=
  let n := nat_of_ascii c in
  if (65 <=? n)%nat && (n <=? 90)%nat then ascii_of_nat (n + 32) else c.

Definition upper_ascii (c : ascii) : ascii :=
  let n := nat_of_ascii c in
  if (97 <=? n)%nat && (n <=? 122)%nat then ascii_of_nat (n - 32) else c.

Fixpoint str_map (f : ascii → ascii) (s : string) : string :=
  match s with EmptyString => EmptyString | String c s => String (f c) (str_map f s) end.

Definition ToLower (s : string) : string := str_map lower_ascii s.

Definition ToUpper (s : string) : string := str_map upper_ascii s.

Fixpoint str_forallb (p : ascii → bool) (s : string) : bool :=
  match s with EmptyString => true | String c s => p c && str_forallb p s end.

(** [strings.Cut(s, sep)] for a one-character separator. *)
Fixpoint Cut (s : string) (sep : ascii) : string * string * bool :=
  match s with
  | EmptyString => (EmptyString, EmptyString, false)
  | String c s' =>
      if Ascii.eqb c sep then (EmptyString, s', true)
      else match Cut s' sep with
           | (before, after, true) => (String c before, after, true)
           | (_, _, false) => (s, EmptyString, false)
           end
  end.

(** ** strconv *)

(** [strconv.Quote] on ASCII: quotes, backslashes and control characters are
    escaped. Bytes of multi-byte characters are left as they are. *)
Definition hex_digit (n : nat) : ascii :=
  ascii_of_nat (if (n <? 10)%nat then 48 + n else 87 + n).

Definition quote_char (c : ascii) : string :=
  match nat_of_ascii c with
  | 34%nat => str_of [92; 34]%nat
  | 92%nat => str_of [92; 92]%nat
  | 7%nat => str_of [92; 97]%nat
  | 8%nat => str_of [92; 98]%nat
  | 9%nat => str_of [92; 116]%nat
  | 10%nat => str_of [92; 110]%nat
  | 11%nat => str_of [92; 118]%nat
  | 12%nat => str_of [92; 102]%nat
  | 13%nat => str_of [92; 114]%nat
  | n => if (n <? 32)%nat || (n =? 127)%nat
         then str_of [92; 120]%nat +:+ String (hex_digit (n / 16)) (String (hex_digit (n `mod` 16)) EmptyString)
         else String c EmptyString
  end.

Fixpoint quote_body (s : string) : string :=
  match s with EmptyString => EmptyString | String c s => quote_char c +:+ quote_body s end.

Definition Quote (s : string) : string := str_of [34]%nat +:+ quote_body s +:+ str_of [34]%nat.
Definition is_digit (c : ascii) : bool :=
  (48 <=? nat_of_ascii c)%nat && (nat_of_ascii c <=? 57)%nat.

Fixpoint digits_value (acc : Z) (s : string) : Z :=
  match s with
  | EmptyString => acc
  | String c s => digits_value (10 * acc + (Z.of_nat (nat_of_ascii c) - 48)) s
  end.

Definition all_digits (s : string) : bool :=
  negb (String.eqb s EmptyString) && str_forallb is_digit s.

(** [strconv.Atoi] in base 10: an optional sign and digits, in 64-bit range. *)
Definition Atoi (s : string) : option Z :=
  let '(sign, body) :=
    match s with
    | String "-"%char s' => (-1, s')
    | String "+"%char s' => (1, s')
    | _ => (1, s)
    end in
  if all_digits body then
    let v := sign * digits_value 0 body in
    if (- 2 ^ 63 <=? v) && (v <? 2 ^ 63) then Some v else None
  else None.

(** [strconv.ParseUint(s, 10, 64)] with the error dropped: 0 for a syntax error
    and the largest value for a range error. *)
Definition ParseUint (s : string) : Z :=
  if all_digits s then Z.min (digits_value 0 s) (2 ^ 64 - 1) else 0.

Definition Itoa (z : Z) : string := pretty z.

(** ** sort.Strings: byte-wise order *)
Fixpoint str_leb (s t : string) : bool :=
  match s, t with
  | EmptyString, _ => true
  | String _ _, EmptyString => false
  | String a s, String b t =>
      (nat_of_ascii a <? nat_of_ascii b)%nat ||
      ((nat_of_ascii a =? nat_of_ascii b)%nat && str_leb s t)
  end.

Definition str_le (s t : string) : Prop := str_leb s t = true.

#[global] Instance str_le_dec : RelDecision str_le.
Proof. intros s t. unfold str_le. apply _. Defined.

(** ** float64 *)
Abbreviation float64 := spec_float.

Definition float_of_Z (z : Z) : float64 := binary_normalize 53 1024 z 0 false.

Definition float_mul (a b : float64) : float64 := SFmul 53 1024 a b.

Definition float_div (a b : float64) : float64 := SFdiv 53 1024 a b.

(** [int(f)]: truncation toward zero; [None] where Go leaves the result to the
    implementation (not a number, infinite, or outside 64 bits). *)
Definition float_to_int (f : float64) : option Z :=
  match f with
  | S754_zero _ => Some 0
  | S754_finite s m e =>
      let a := if 0 <=? e then Zpos m * 2 ^ e else Z.shiftr (Zpos m) (- e) in
      let v := if s then - a else a in
      if (- 2 ^ 63 <=? v) && (v <? 2 ^ 63) then Some v else None
  | _ => None
  end.

(** ** Lemmas *)
Lemma str_leb_refl s : str_leb s s = true.
Proof.
  induction s as [|c s IH]; cbn; [done|].
  by rewrite IH, Nat.eqb_refl, andb_true_r, orb_true_r.
Qed.

Lemma nat_of_ascii_inj a b : nat_of_ascii a = nat_of_ascii b → a = b.
Proof. intros E. by rewrite <- (ascii_nat_embedding a), E, ascii_nat_embedding. Qed.

#[global] Instance str_le_total : Total str_le.
Proof.
  unfold str_le. intros s. induction s as [|a s IH]; intros [|b t]; cbn [str_leb]; auto.
  rewrite !orb_true_iff, !andb_true_iff, !Nat.ltb_lt, !Nat.eqb_eq.
  destruct (IH t) as [-> | ->]; lia.
Qed.

#[global] Instance str_le_trans : Transitive str_le.
Proof.
  unfold str_le. intros s. induction s as [|a s IH]; intros [|b t] [|c u]; cbn [str_leb]; try done.
  rewrite !orb_true_iff, !andb_true_iff, !Nat.ltb_lt, !Nat.eqb_eq.
  intros [H|[H H1]] [H'|[H' H1']]; [left; lia..|]. right. split; [lia|]. by eapply IH.
Qed.

#[global] Instance str_le_antisymm : AntiSymm (=) str_le.
Proof.
  unfold str_le. intros s. induction s as [|a s IH]; intros [|b t]; cbn [str_leb]; try done.
  rewrite !orb_true_iff, !andb_true_iff, !Nat.ltb_lt, !Nat.eqb_eq.
  intros [H|[H H1]] [H'|[H' H1']]; try lia. f_equal; [by apply nat_of_ascii_inj|].
  by apply IH.
Qed.

Lemma Itoa_inj a b : Itoa a = Itoa b → a = b.
Proof. unfold Itoa. apply (inj pretty). Qed.

Lemma length_str_take n s :
  (n <= String.length s)%nat → String.length (str_take n s) = n.
Proof. revert s; induction n; intros [|c s]; cbn; try lia. intros. f_equal. apply IHn; lia. Qed.

Lemma length_str_map f s : String.length (str_map f s) = String.length s.
Proof. induction s; cbn; congruence. Qed.

Lemma str_map_map f g s : str_map f (str_map g s) = str_map (λ c, f (g c)) s.
Proof. induction s; cbn; congruence. Qed.

End GoText.

(** ** Facts about text

    Decimal numbers, substrings and lines: what the files that print and parse
    records share. *)
Import GoText.
#[local] Arguments String.append !_ _ / : simpl nomatch.

(** ** Concatenation *)
Lemma string_app_assoc (a b c : string) : (a +:+ b) +:+ c = a +:+ (b +:+ c).
Proof. induction a as [|x a IH]; cbn; [done | by rewrite IH]. Qed.

Lemma string_app_nil (a : string) : a +:+ EmptyString = a.
Proof. induction a as [|x a IH]; cbn; [done | by rewrite IH]. Qed.

Lemma string_length_app (a b : string) : String.length (a +:+ b) = (String.length a + String.length b)%nat.
Proof. induction a as [|x a IH]; cbn; [done | by rewrite IH]. Qed.

Lemma string_app_inj (a b c : string) : a +:+ b = a +:+ c → b = c.
Proof. induction a as [|x a IH]; cbn; [done|]. intros [= H]. by apply IH. Qed.

Lemma str_forallb_app p a b : str_forallb p (a +:+ b) = str_forallb p a && str_forallb p b.
Proof. induction a as [|x a IH]; cbn; [done|]. by rewrite IH, andb_assoc. Qed.

Lemma str_forallb_impl (p q : ascii → bool) s :
  (∀ c, p c = true → q c = true) → str_forallb p s = true → str_forallb q s = true.
Proof.
  intros Hpq. induction s as [|c s IH]; cbn; [done|].
  intros [Hc Hs]%andb_true_iff. by rewrite (Hpq _ Hc), IH.
Qed.

(** [p] is what a write that was cut short left of [s]. *)
Definition str_prefix (p s : string) : Prop := ∃ q, s = p +:+ q.

Lemma str_take_prefix n s : str_prefix (str_take n s) s.
Proof.
  revert s. induction n as [|n IH]; intros [|c s]; cbn; try by eexists.
  destruct (IH s) as [q Hq]. exists q. cbn. by rewrite <-Hq.
Qed.

Lemma str_drop_app a b : str_drop (String.length a) (a +:+ b) = b.
Proof. by induction a. Qed.

Lemma has_suffix_app a b : has_suffix (a +:+ b) b = true.
Proof.
  unfold has_suffix. rewrite string_length_app.
  replace (String.length a + String.length b - String.length b)%nat with (String.length a) by lia.
  rewrite str_drop_app, String.eqb_refl, andb_true_r. apply Nat.leb_le. lia.
Qed.

(** A prefix of a concatenation is cut in its first part or in its second. *)
Lemma str_prefix_app p a b :
  str_prefix p (a +:+ b) →
  (∃ c q, p +:+ String c q = a) ∨ (∃ p', p = a +:+ p' ∧ str_prefix p' b).
Proof.
  revert p. induction a as [|x a IH]; intros [|y p] [q Hq].
  - right. exists EmptyString. split; [done|]. by exists b.
  - right. exists (String y p). split; [done|]. by exists q.
  - left. by exists x, a.
  - injection Hq as -> Hq. destruct (IH p) as [(c&q'&Hc)|(p'&->&Hp)].
    + by exists q.
    + left. exists c, q'. cbn. by rewrite Hc.
    + right. by exists p'.
Qed.

(** ** Decimal numbers *)
Lemma pretty_N_go_digits (x : N) (s : string) :
  digits_value 0 (pretty_N_go x s) = digits_value (Z.of_N x) s ∧
  str_forallb is_digit (pretty_N_go x s) = str_forallb is_digit s.
Proof.
  revert s. induction (N.lt_wf_0 x) as [x _ IH]; intros s.
  destruct (decide (x = 0)%N) as [->|Hx]; [by rewrite pretty_N_go_0|].
  rewrite pretty_N_go_step by lia.
  destruct (IH (x `div` 10)%N) with (s := String (pretty_N_char (x `mod` 10)) s) as [-> ->].
  { apply N.div_lt; lia. }
  cbn [digits_value str_forallb].
  pose proof (N.mod_lt x 10) as Hm. pose proof (N.div_mod x 10) as Hd.
  set (r := (x `mod` 10)%N) in *.
  assert (Hc : Z.of_nat (nat_of_ascii (pretty_N_char r)) - 48 = Z.of_N r ∧
               is_digit (pretty_N_char r) = true).
  { assert (Hr : (r < 10)%N) by lia. clearbody r. clear -Hr.
    assert (Hin : r ∈ [0; 1; 2; 3; 4; 5; 6; 7; 8; 9]%N) by (rewrite !elem_of_cons; lia).
    repeat (apply elem_of_cons in Hin as [->|Hin]; [done|]). by apply not_elem_of_nil in Hin. }
  destruct Hc as [-> ->]. split; [|done]. f_equal. lia.
Qed.

Lemma Itoa_digits z : 0 ≤ z → all_digits (Itoa z) = true ∧ digits_value 0 (Itoa z) = z.
Proof.
  intros Hz. destruct z as [|p|p]; [done| |lia]. unfold Itoa, all_digits.
  change (pretty (Zpos p)) with (pretty (Npos p)). unfold pretty, pretty_N.
  destruct (decide _) as [|_]; [done|].
  destruct (pretty_N_go_digits (Npos p) EmptyString) as [Hv Hd]. rewrite Hd.
  split; [|by rewrite Hv]. rewrite andb_true_r. apply negb_true_iff, String.eqb_neq.
  intros E. rewrite E in Hv. cbn in Hv. lia.
Qed.

Lemma pretty_N_go_length (k : nat) (x : N) (s : string) :
  (x < 10 ^ N.of_nat k)%N → (String.length (pretty_N_go x s) ≤ k + String.length s)%nat.
Proof.
  revert x s. induction k as [|k IH]; intros x s Hx.
  { replace x with 0%N by (cbn in Hx; lia). by rewrite pretty_N_go_0. }
  destruct (decide (x = 0)%N) as [->|Hne]; [rewrite pretty_N_go_0; lia|].
  rewrite pretty_N_go_step by lia. etransitivity; [apply IH|cbn; lia].
  apply N.Div0.div_lt_upper_bound. rewrite Nat2N.inj_succ, N.pow_succ_r' in Hx. lia.
Qed.

(** A number below 10^k is printed with at most k digits. *)
Lemma Itoa_length (k : nat) (z : Z) :
  (0 < k)%nat → 0 ≤ z < 10 ^ Z.of_nat k → (String.length (Itoa z) ≤ k)%nat.
Proof.
  intros Hk [H0 Hz]. destruct z as [|p|p]; [cbn; lia| |lia]. unfold Itoa.
  change (pretty (Zpos p)) with (pretty (Npos p)). unfold pretty, pretty_N.
  destruct (decide _) as [|_]; [done|].
  pose proof (pretty_N_go_length k (Npos p) EmptyString) as H. cbn [String.length] in H.
  rewrite Nat.add_0_r in H. apply H. apply N2Z.inj_lt. rewrite N2Z.inj_pow, nat_N_Z. done.
Qed.

(** What follows the last separator is determined by the whole text. *)
Lemma last_sep_inj (p : ascii → bool) sep (a b d e : string) :
  p sep = false → str_forallb p d = true → str_forallb p e = true →
  a +:+ String sep d = b +:+ String sep e → a = b ∧ d = e.
Proof.
  intros Hp Hd He. revert b.
  assert (Hno : ∀ x y, x +:+ String sep y = d → False).
  { intros x y <-. rewrite str_forallb_app in Hd. cbn in Hd. by rewrite Hp, andb_false_r in Hd. }
  assert (Hno' : ∀ x y, x +:+ String sep y = e → False).
  { intros x y <-. rewrite str_forallb_app in He. cbn in He. by rewrite Hp, andb_false_r in He. }
  induction a as [|x a IH]; intros [|y b]; cbn; intros E; injection E as E1.
  - done.
  - symmetry in H. by apply Hno in H.
  - by apply Hno' in H.
  - destruct (IH b H) as [-> ->]. by subst.
Qed.

(** A hexadecimal string is made of hexadecimal digits. *)
Definition is_hex_digit (c : ascii) : bool :=
  is_digit c || ((97 <=? nat_of_ascii c)%nat && (nat_of_ascii c <=? 102)%nat).

Lemma hex_digits b : str_forallb is_hex_digit (EncodeToString b) = true.
Proof.
  unfold EncodeToString. pose proof (hex_encode_chars b) as H.
  induction H as [|c l Hc _ IH]; [done|].
  change (is_hex_digit (Ascii.ascii_of_byte c) && str_forallb is_hex_digit (string_of_bytes l) = true).
  rewrite IH, andb_true_r. revert Hc. by destruct c.
Qed.
