(* ===== verification/Config.v ===== *)
(** * The run configuration of the research console

    [saksi-campaign/config.go]: the election configuration posted by the web
    UI, its defaults and its validation gate. *)
From S2P Require Import Prelude GoText.
#[local] Open Scope Z_scope.
Import GoText.

Module Config.

Definition MaxTrustees : Z := 15.

Definition OfflineRecordCeiling : Z := 3524078 * 3.

Definition DefaultConcurrency : Z := 8.

Definition SenatePosition : Z := 2.

Definition ModeGroundTruth : string := "groundtruth".

(** Lifecycle stages an attack can be mounted at (scenarios.go). *)
Definition StageDKG : string := "dkg".

Definition StageBallots : string := "ballots".

Definition StageClose : string := "close".

Definition StageCeremony : string := "ceremony".

Definition StageOrder : list string := [StageDKG; StageBallots; StageClose; StageCeremony].

Record Trustee := MkTrustee { TrusteeName : string }.

Record RepTag := MkRepTag { RepIndex : Z; RepKind : string }.

Record AttackPlanT := MkAttackPlan {
  Stages : list string; BallotsAt : float64; TimeoutS : float64
}.

Record FaultPlanT := MkFaultPlan { FaultKind : string; At : float64; DownS : float64 }.

Record ElectionConfig := MkElectionConfig {
  Name : string; Trustees : list Trustee; Threshold : Z; Positions : Z; Candidates : Z;
  Voters : Z; Distribution : string; Mode : string; SenateSeats : Z; Concurrency : Z;
  SendRate : float64; WindowS : float64; Rep : option RepTag; SkipAttacks : bool;
  AttackPlan : option AttackPlanT; FaultPlan : option FaultPlanT
}.

Definition securityRun (c : ElectionConfig) : bool :=
  bool_decide (is_Some (AttackPlan c)) || bool_decide (is_Some (FaultPlan c)).

Definition with_concurrency (n : Z) (c : ElectionConfig) : ElectionConfig :=
  MkElectionConfig (Name c) (Trustees c) (Threshold c) (Positions c) (Candidates c)
    (Voters c) (Distribution c) (Mode c) (SenateSeats c) n (SendRate c) (WindowS c)
    (Rep c) (SkipAttacks c) (AttackPlan c) (FaultPlan c).

Definition applyDefaults (c : ElectionConfig) : ElectionConfig :=
  if Concurrency c =? 0 then with_concurrency DefaultConcurrency c else c.

Definition submitConcurrency (c : ElectionConfig) : Z :=
  if Concurrency c <? 1 then DefaultConcurrency else Concurrency c.

Definition Seats (c : ElectionConfig) (p : Z) : Z :=
  if (p =? SenatePosition) && (1 <? SenateSeats c) then SenateSeats c else 1.

Definition TrusteeNames (c : ElectionConfig) : list string := map TrusteeName (Trustees c).

Definition f_zero : float64 := S754_zero false.

Definition f_one : float64 := float_of_Z 1.

(** The stage loop of [validateAttackPlan], with the [seen] map so far. *)
Fixpoint plan_stages (seen : gset string) (l : list string) : result (gset string) :=
  match l with
  | [] => Ok seen
  | st :: l =>
      if negb (bool_decide (st ∈ StageOrder)) then
        Err (Errorf "attack_plan stage %q is not one of %v" [AStr st; AStrs StageOrder])
      else if bool_decide (st ∈ seen) then
        Err (Errorf "attack_plan lists stage %q twice" [AStr st])
      else plan_stages ({[ st ]} ∪ seen) l
  end.

Definition validateAttackPlan (c : ElectionConfig) : result unit :=
  match AttackPlan c with
  | None => Ok tt
  | Some p =>
      if SkipAttacks c then
        Err (Errorf "attack_plan contradicts skip_attacks: drop one of them" [])
      else if bool_decide (is_Some (Rep c)) then
        Err (Errorf "attack_plan is for a single election: a campaign repetition never runs attacks" [])
      else if String.eqb (Mode c) ModeGroundTruth then
        Err (Errorf "attack_plan needs encrypted ballots; %q mode produces none" [AStr ModeGroundTruth])
      else if (length (Stages p) =? 0)%nat then
        Err (Errorf "attack_plan lists no stages" [])
      else if SFltb (BallotsAt p) f_zero || SFleb f_one (BallotsAt p) then
        Err (Errorf "attack_plan ballots_at must be between 0 and 1, exclusive (got %v)" [AFloat (BallotsAt p)])
      else if SFltb (TimeoutS p) f_zero then
        Err (Errorf "attack_plan timeout_s must be >= 0 (got %v)" [AFloat (TimeoutS p)])
      else
        let? seen := plan_stages ∅ (Stages p) in
        let ballots := wrap64 (Voters c * Positions c) in
        if bool_decide (StageBallots ∈ seen) && (ballots <? 2) then
          Err (Errorf "attack_plan's ballots stage needs at least 2 ballots (got %d)" [AInt ballots])
        else Ok tt
  end.

(** The loop over the trustees' names; [i] is the index. *)
Fixpoint trustee_names_ok (i : Z) (l : list Trustee) : result unit :=
  match l with
  | [] => Ok tt
  | t :: l =>
      if String.eqb (TrimSpace (TrusteeName t)) EmptyString
      then Err (Errorf "trustee %d has an empty name" [AInt (i + 1)])
      else trustee_names_ok (i + 1) l
  end.

Definition Validate (c : ElectionConfig) : result unit :=
  let n := Z.of_nat (length (Trustees c)) in
  if String.eqb (TrimSpace (Name c)) EmptyString then
    Err (Errorf "election name must not be empty" [])
  else if (n <? 1) || (MaxTrustees <? n) then
    Err (Errorf "trustees must be between 1 and %d (got %d)" [AInt MaxTrustees; AInt n])
  else if (Threshold c <? 1) || (n <? Threshold c) then
    Err (Errorf "threshold must be 1..=%d (got %d)" [AInt n; AInt (Threshold c)])
  else
    let? _ := trustee_names_ok 0 (Trustees c) in
    if (Positions c <? 1) || (Candidates c <? 1) || (Voters c <? 1) then
      Err (Errorf "positions, candidates, voters must each be >= 1" [])
    else if negb (bool_decide (Distribution c ∈ ["uniform"; "skewed"; "realistic"])) then
      Err (Errorf "distribution must be 'uniform', 'skewed', or 'realistic' (got %q)" [AStr (Distribution c)])
    else if (SenateSeats c <? 0) || (Candidates c <=? SenateSeats c) then
      Err (Errorf "senate seats must be 0..%d (got %d)" [AInt (Candidates c - 1); AInt (SenateSeats c)])
    else if Concurrency c <? 1 then
      Err (Errorf "concurrency must be >= 1 (got %d)" [AInt (Concurrency c)])
    else if SFltb (SendRate c) f_zero then
      Err (Errorf "send rate must be >= 0 (got %v)" [AFloat (SendRate c)])
    else if SFltb (WindowS c) f_zero then
      Err (Errorf "window must be >= 0 seconds (got %v)" [AFloat (WindowS c)])
    else if negb (bool_decide (Mode c ∈ ["offline"; "onchain"; ModeGroundTruth])) then
      Err (Errorf "mode must be 'offline', 'onchain', or %q (got %q)" [AStr ModeGroundTruth; AStr (Mode c)])
    else if String.eqb (Mode c) "offline" && (Z.quot OfflineRecordCeiling (Positions c) <? Voters c) then
      Err (Errorf "offline mode is bounded at %d ballot records, the largest thesis tier (3,524,078 voters x 3 positions); got %d voters x %d positions"
             [AInt OfflineRecordCeiling; AInt (Voters c); AInt (Positions c)])
    else if bool_decide (is_Some (FaultPlan c)) then
      Err (Errorf "fault_plan cannot come with a config: arm it on the generated run with POST /api/runs/<id>/fault" [])
    else validateAttackPlan c.

(** ** What an accepted configuration satisfies *)
Record valid_plan (c : ElectionConfig) (p : AttackPlanT) : Prop := {
  vp_attacks : SkipAttacks c = false;
  vp_single : Rep c = None;
  vp_encrypted : Mode c ≠ ModeGroundTruth;
  vp_nonempty : Stages p ≠ [];
  vp_at : SFltb (BallotsAt p) f_zero = false ∧ SFleb f_one (BallotsAt p) = false;
  vp_timeout : SFltb (TimeoutS p) f_zero = false;
  vp_stages : Forall (λ st, st ∈ StageOrder) (Stages p);
  vp_once : NoDup (Stages p);
  vp_ballots : StageBallots ∈ Stages p → 2 ≤ Voters c * Positions c
}.

Record valid_config (c : ElectionConfig) : Prop := {
  vc_name : TrimSpace (Name c) ≠ EmptyString;
  vc_trustees : 1 ≤ Z.of_nat (length (Trustees c)) ≤ MaxTrustees;
  vc_threshold : 1 ≤ Threshold c ≤ Z.of_nat (length (Trustees c));
  vc_trustee_names : Forall (λ t, TrimSpace (TrusteeName t) ≠ EmptyString) (Trustees c);
  vc_sizes : 1 ≤ Positions c ∧ 1 ≤ Candidates c ∧ 1 ≤ Voters c;
  vc_distribution : Distribution c ∈ ["uniform"; "skewed"; "realistic"];
  vc_seats : 0 ≤ SenateSeats c < Candidates c;
  vc_concurrency : 1 ≤ Concurrency c;
  vc_rate : SFltb (SendRate c) f_zero = false;
  vc_window : SFltb (WindowS c) f_zero = false;
  vc_mode : Mode c ∈ ["offline"; "onchain"; ModeGroundTruth];
  vc_offline : Mode c = "offline" → Voters c * Positions c ≤ OfflineRecordCeiling;
  vc_nofault : FaultPlan c = None;
  vc_plan : ∀ p, AttackPlan c = Some p → valid_plan c p
}.

(** ** Lemmas *)
Lemma plan_stages_ok l seen seen' :
  plan_stages seen l = Ok seen' ↔
  Forall (λ st, st ∈ StageOrder) l ∧ NoDup l ∧ Forall (λ st, st ∉ seen) l ∧
  seen' = list_to_set l ∪ seen.
Proof.
  revert seen. induction l as [|st l IH]; intros seen; cbn [plan_stages].
  { rewrite !Forall_nil. split; [intros [= <-]|]; [|intros (_ & _ & _ & ->)].
    - split_and!; try done; [constructor|]. set_solver.
    - f_equal. set_solver. }
  rewrite !Forall_cons, NoDup_cons, nguard_ok, nguard_ok, IH.
  rewrite negb_false_iff, bool_decide_eq_true, bool_decide_eq_false.
  assert (Forall (λ x, x ∉ {[ st ]} ∪ seen) l ↔ (st ∉ l) ∧ Forall (λ x, x ∉ seen) l) as ->.
  { rewrite !Forall_forall. split.
    - intros H. split; [intros Hin; specialize (H _ Hin); set_solver|].
      intros x Hx. specialize (H _ Hx). set_solver.
    - intros [H1 H2] x Hx. specialize (H2 _ Hx). set_unfold. naive_solver. }
  replace (list_to_set (st :: l) ∪ seen) with (list_to_set l ∪ ({[ st ]} ∪ seen))
    by (cbn; apply leibniz_equiv; intros x; set_unfold; naive_solver).
  naive_solver.
Qed.

Lemma trustee_names_ok_ok i l :
  trustee_names_ok i l = Ok tt ↔ Forall (λ t, TrimSpace (TrusteeName t) ≠ EmptyString) l.
Proof.
  revert i. induction l as [|t l IH]; intros i; cbn [trustee_names_ok].
  { split; [constructor | done]. }
  by rewrite nguard_ok, IH, Forall_cons, String.eqb_neq.
Qed.

Lemma validateAttackPlan_ok c :
  0 ≤ Voters c * Positions c < 2 ^ 63 →
  validateAttackPlan c = Ok tt ↔ ∀ p, AttackPlan c = Some p → valid_plan c p.
Proof.
  intros Hr. unfold validateAttackPlan. destruct (AttackPlan c) as [p|]; [|naive_solver].
  assert (wrap64 (Voters c * Positions c) = Voters c * Positions c) as ->.
  { unfold wrap64. rewrite Z.mod_small; lia. }
  rewrite !nguard_ok, rbind_ok. setoid_rewrite nguard_ok. setoid_rewrite plan_stages_ok.
  rewrite bool_decide_eq_false, <- eq_None_not_Some, String.eqb_neq, Nat.eqb_neq,
    length_zero_iff_nil, orb_false_iff. split.
  - intros (? & ? & ? & ? & ? & ? & seen & (? & ? & _ & ->) & Hb & _) p' [= <-].
    split; try done. intros Hin. rewrite bool_decide_eq_true_2 in Hb by set_solver.
    cbn in Hb. lia.
  - intros H. destruct (H p eq_refl) as [??? ? [??] ????]. split_and!; try done.
    eexists. split; [split_and!; try done; apply Forall_true; set_solver|].
    split; [|done]. case_bool_decide; [|done]. cbn.
    apply Z.ltb_ge. set_solver.
Qed.

(** The division test of the offline ceiling is the exact product test. *)
Lemma quot_ceiling v p :
  1 ≤ p → (Z.quot OfflineRecordCeiling p <? v) = false ↔ v * p ≤ OfflineRecordCeiling.
Proof.
  intros Hp. rewrite Z.ltb_ge, Z.quot_div_nonneg by (unfold OfflineRecordCeiling; lia).
  split; intros H.
  - pose proof (Z.mul_div_le OfflineRecordCeiling p). nia.
  - apply Z.div_le_lower_bound; lia.
Qed.

Lemma Validate_ok c :
  0 ≤ Voters c * Positions c < 2 ^ 63 → Validate c = Ok tt ↔ valid_config c.
Proof.
  intros Hr. unfold Validate. rewrite !nguard_ok, rbind_ok.
  repeat setoid_rewrite nguard_ok. setoid_rewrite (validateAttackPlan_ok c Hr).
  rewrite !orb_false_iff, !Z.ltb_ge, String.eqb_neq.
  split.
  - intros (? & ? & ? & [] & Hn & ? & Hd & Hs & ? & ? & ? & Hm & Ho & Hf & ?).
    rewrite trustee_names_ok_ok in Hn. rewrite negb_false_iff, bool_decide_eq_true in Hd, Hm.
    rewrite !orb_false_iff, !Z.ltb_ge, ?Z.leb_gt in *.
    rewrite bool_decide_eq_false, <- eq_None_not_Some in Hf.
    split; try done; try lia. intros E. rewrite E in Ho. cbn in Ho.
    by apply quot_ceiling in Ho; [|lia].
  - intros []. split_and!; try lia; try done. exists tt. rewrite trustee_names_ok_ok.
    rewrite !negb_false_iff, !bool_decide_eq_true, !orb_false_iff, !Z.ltb_ge, Z.leb_gt.
    split_and!; try done; try lia.
    + destruct (String.eqb_spec (Mode c) "offline") as [E|]; [|done]. cbn.
      apply quot_ceiling; [lia | by apply vc_offline0].
    + by rewrite vc_nofault0.
Qed.

(** the configuration gate is exact. Where voters x positions fits a 64-bit
    [int], [Validate] accepts a configuration if and only if it satisfies the
    declared invariants: named trustees within the cap and a threshold among
    them, non-empty races, a senate cut with a candidate below it, a known
    distribution and mode, the offline ceiling as a mathematical product (the
    code divides), no fault plan, and an attack plan that names each lifecycle
    stage at most once with a ballot to reuse and one to tamper with. *)
Theorem Validate_exact c :
  0 ≤ Voters c * Positions c < 2 ^ 63 →
  Validate c = Ok tt ↔ valid_config c.
Proof. apply Validate_ok. Qed.

(** ** Concrete configurations *)
Definition demo_config : ElectionConfig :=
  MkElectionConfig "Demo" (map MkTrustee ["A"; "B"; " C"]) 2 3 4 20 "uniform" "offline" 2 8
    f_zero f_zero None false
    (Some (MkAttackPlan [StageBallots; StageCeremony] f_zero f_zero)) None.

Lemma Validate_exact_witness : valid_config demo_config.
Proof. apply (Validate_exact demo_config); [split; vm_compute; congruence | vm_compute; reflexivity]. Defined.

(** Outside that range the ballots-stage check multiplies and wraps: a plan over
    [2^62] voters and two positions is refused as having fewer than two ballots. *)
Definition huge_config : ElectionConfig :=
  MkElectionConfig "Huge" [MkTrustee "A"] 1 2 4 (2 ^ 62) "uniform" "onchain" 0 8 f_zero f_zero
    None false (Some (MkAttackPlan [StageBallots] f_zero f_zero)) None.

Lemma plan_check_overflows :
  Validate huge_config =
  Err (Errorf "attack_plan's ballots stage needs at least 2 ballots (got %d)" [AInt (- 2 ^ 63)]).
Proof. vm_compute. reflexivity. Qed.

End Config.
