(* ===== verification/Ballots.v ===== *)
(** * Streaming access to a run's ballots

    [saksi-campaign/ballots.go]: the scan of [ballots.ndjson], its validation,
    and the reader that serves lines by index to concurrent workers from one
    forward scan. The file is what [bufio.Scanner] makes of it: its lines, and
    the error the scan ends in, if any. *)
From S2P Require Import Prelude Hex GoText.
#[local] Open Scope Z_scope.
Import GoText.

Module Ballots.

Definition BallotsFile : string := "ballots.ndjson".

Record stream := MkStream { lines : list string; scan_err : option goerr }.

Definition errLine (lineNo : nat) (e : goerr) : goerr :=
  Errorf "%s line %d: %w" [AStr BallotsFile; AInt (Z.of_nat lineNo); AErr e].

(** The loop of [scanBallotLines] from line index [i], folding [fn] over an
    accumulator. *)
Fixpoint scan_from {S} (fn : nat → string → S → result S) (i : nat) (ls : list string)
    (err : option goerr) (s : S) : result S :=
  match ls with
  | [] => match err with None => Ok s | Some e => Err (errLine (i + 1) e) end
  | l :: ls => let? s' := fn i (TrimSpace l) s in scan_from fn (i + 1) ls err s'
  end.

Definition scanBallotLines {S} (f : stream) (fn : nat → string → S → result S) (s : S) : result S :=
  scan_from fn 0 (lines f) (scan_err f) s.

Definition is_hex_digit (c : byte) : bool :=
  let v := Z_of_byte c in
  negb (((v <? 48) || (57 <? v)) && ((v <? 97) || (102 <? v)) && ((v <? 65) || (70 <? v))).

Definition isHexLine (s : string) : bool :=
  if (slen s =? 0) || negb (slen s `mod` 2 =? 0) then false
  else forallb is_hex_digit (bytes_of_string s).

Definition errBadBallotLine (lineNo : nat) : goerr :=
  Errorf "%s line %d: truncated or non-hex ballot" [AStr BallotsFile; AInt (Z.of_nat lineNo)].

Definition validateBallots (f : stream) : result nat :=
  scanBallotLines f (λ i line n,
    guard? isHexLine line else errBadBallotLine (i + 1); Ok (S n)) 0%nat.

(** ** The reader *)

(** [rest] is what the scanner has not produced yet, [next] the index of its
    head, [ahead] the parked lines. *)
Record ballotReader := MkReader { rest : list string; next : nat; ahead : gmap nat string }.

Definition openBallotReader (f : stream) : ballotReader := MkReader (lines f) 0 ∅.

Definition EOF : goerr := Foreign "EOF".

(** The scan loop of [At]; [wanted] [None] parks every line. *)
Fixpoint scan_to (wanted : option (nat → bool)) (err : option goerr) (i : nat)
    (ls : list string) (n : nat) (parked : gmap nat string) : ballotReader * result string :=
  match ls with
  | [] => (MkReader [] n parked,
           Err (match err with Some e => errLine (n + 1) e | None => EOF end))
  | l :: ls =>
      let line := TrimSpace l in
      if negb (isHexLine line) then (MkReader ls (n + 1) parked, Err (errBadBallotLine (n + 1)))
      else if (n =? i)%nat then (MkReader ls (n + 1) parked, Ok line)
      else scan_to wanted err i ls (n + 1)
             (if match wanted with None => true | Some w => w n end
              then <[n := line]> parked else parked)
  end.

Definition At (wanted : option (nat → bool)) (f : stream) (i : nat) (r : ballotReader) :
    ballotReader * result string :=
  match ahead r !! i with
  | Some line => (MkReader (rest r) (next r) (delete i (ahead r)), Ok line)
  | None =>
      if (i <? next r)%nat
      then (r, Err (Errorf "%s index %d was already read" [AStr BallotsFile; AInt (Z.of_nat i)]))
      else scan_to wanted (scan_err f) i (rest r) (next r) (ahead r)
  end.

(** ** Lemmas *)
Lemma scan_from_ok {S} fn ls i err (s s' : S) :
  scan_from fn i ls err s = Ok s' → err = None.
Proof.
  revert i s. induction ls as [|l ls IH]; intros i s; cbn; [by destruct err|].
  rewrite rbind_ok. intros (s1 & _ & H). by eapply IH.
Qed.

Lemma validate_from ls i n m :
  scan_from (λ i line n, guard? isHexLine line else errBadBallotLine (i + 1); Ok (S n))
    i ls None n = Ok m ↔
  Forall (λ l, isHexLine (TrimSpace l) = true) ls ∧ m = (n + length ls)%nat.
Proof.
  revert i n. induction ls as [|l ls IH]; intros i n; cbn [scan_from length].
  { split; [intros [= <-]; split; [constructor | lia] | intros [_ ->]; f_equal; lia]. }
  rewrite rbind_ok, Forall_cons. split.
  - intros (s & Hs & Hr). apply guard_ok in Hs as [Hl [= <-]]. apply IH in Hr as [Hr ->].
    split; [done | lia].
  - intros [[Hl Hr] ->]. exists (S n). rewrite guard_ok. split; [done|]. apply IH. split; [done | lia].
Qed.

(** A stream is valid exactly when it was read to its end and every line is
    non-empty hex of even length; its ballots are then its lines. *)
Lemma validateBallots_ok f n :
  validateBallots f = Ok n ↔
  scan_err f = None ∧ Forall (λ l, isHexLine (TrimSpace l) = true) (lines f) ∧
  n = length (lines f).
Proof.
  unfold validateBallots, scanBallotLines. destruct (scan_err f) as [e|].
  - split; [|by intros [? _]]. intros H%scan_from_ok. done.
  - rewrite validate_from. naive_solver.
Qed.

Lemma hex_digit_value c : is_hex_digit c = true ↔ is_Some (hex_value c).
Proof.
  destruct c; vm_compute; split; (done || by intros [? ?] || by eexists).
Qed.

Lemma hex_decode_total b :
  Nat.even (length b) = true → Forall (λ c, is_hex_digit c = true) b →
  ∃ out, hex_decode b = Ok out.
Proof.
  induction b as [b IH] using (induction_ltof1 _ (@length byte)); unfold ltof in IH.
  destruct b as [|p [|q b]]; intros Hev Hf; [by eexists | done|].
  apply Forall_cons in Hf as [Hp Hf]. apply Forall_cons in Hf as [Hq Hf].
  apply hex_digit_value in Hp as [vp Ep], Hq as [vq Eq]. cbn [hex_decode]. rewrite Ep, Eq.
  destruct (IH b) as [out ->]; [cbn; lia | exact Hev | done|]. by eexists.
Qed.

(** A validated line is one the chaincode can decode. *)
Lemma isHexLine_decodes s : isHexLine s = true → ∃ raw, DecodeString s = Ok raw.
Proof.
  unfold isHexLine, DecodeString. destruct (_ || _) eqn:E; [done|].
  apply orb_false_iff in E as [_ E%negb_false_iff]. apply Z.eqb_eq in E.
  intros Hf. apply hex_decode_total.
  - rewrite <- blen_bytes_of_string in E. unfold blen in E.
    apply Nat.even_spec. exists (length (bytes_of_string s) / 2)%nat.
    pose proof (Nat.div_mod_eq (length (bytes_of_string s)) 2) as Hd.
    assert (length (bytes_of_string s) mod 2 = 0)%nat by (apply Nat2Z.inj; by rewrite Nat2Z.inj_mod).
    lia.
  - apply Forall_forall. intros c Hc. rewrite forallb_forall in Hf. apply Hf.
    by apply list_elem_of_In.
Qed.
(** ** The reader serves every index *)

(** Requests served one after another (each is under the reader's lock). *)
Fixpoint read_all (wanted : option (nat → bool)) (f : stream) (reqs : list nat) (r : ballotReader) :
    ballotReader * list (result string) :=
  match reqs with
  | [] => (r, [])
  | i :: reqs =>
      let '(r, x) := At wanted f i r in
      let '(r, xs) := read_all wanted f reqs r in (r, x :: xs)
  end.

Definition is_wanted (wanted : option (nat → bool)) (i : nat) : bool :=
  match wanted with None => true | Some w => w i end.

(** The reference: the line at an index of the whole file. *)
Definition line_at (f : stream) (i : nat) : result string :=
  match lines f !! i with Some l => Ok (TrimSpace l) | None => Err EOF end.

(** The scanner is past the lines before [next]; of those, the ones parked are
    exactly the wanted ones not served yet. *)
Record reader_inv (f : stream) (wanted : option (nat → bool)) (served : list nat)
    (r : ballotReader) : Prop := {
  ri_rest : rest r = drop (next r) (lines f);
  ri_next : (next r ≤ length (lines f))%nat;
  ri_ahead : ∀ j l, ahead r !! j = Some l ↔
    (j < next r)%nat ∧ is_wanted wanted j = true ∧ (j ∉ served) ∧ line_at f j = Ok l;
  ri_served : ∀ j, j ∈ served → (j < next r)%nat ∨ (length (lines f) ≤ j)%nat
}.

Lemma scan_to_spec f wanted served i ls n parked r x :
  Forall (λ l, isHexLine (TrimSpace l) = true) (lines f) → scan_err f = None →
  (n ≤ i)%nat → reader_inv f wanted served (MkReader ls n parked) →
  scan_to wanted (scan_err f) i ls n parked = (r, x) →
  x = line_at f i ∧ reader_inv f wanted (i :: served) r.
Proof.
  intros Hall Herr. rewrite Herr. revert n parked.
  induction ls as [|l ls IH]; intros n parked Hn [Hr Hnx Ha Hs]; cbn in Hr, Hnx, Ha, Hs.
  - cbn. intros [= <- <-].
    assert (length (lines f) ≤ n)%nat as Hlen.
    { apply (f_equal length) in Hr. rewrite length_drop in Hr. cbn in Hr. lia. }
    assert (lines f !! i = None) as Hl by (apply lookup_ge_None; lia).
    split; [unfold line_at; by rewrite Hl|]. split; cbn; [done | done | |].
    + intros j l. rewrite Ha, elem_of_cons. split; [|naive_solver].
      intros (? & ? & ? & ?). split_and!; try done. intros [->|?]; [lia | done].
    + intros j [->|Hj]%elem_of_cons; [right; lia | auto].
  - assert (lines f !! n = Some l) as Hl.
    { rewrite <- (Nat.add_0_r n), <- lookup_drop, <- Hr. done. }
    assert (drop (S n) (lines f) = ls) as Hd by (rewrite (drop_S _ _ _ Hl) in Hr; by injection Hr).
    assert (n < length (lines f))%nat as Hlt by (by eapply lookup_lt_Some).
    assert (isHexLine (TrimSpace l) = true) as Hx by (by apply (Forall_lookup_1 _ _ _ _ Hall Hl)).
    cbn [scan_to]. rewrite Hx, Nat.add_1_r. cbn [negb].
    destruct (Nat.eqb_spec n i) as [<-|Hne].
    + intros [= <- <-]. split; [unfold line_at; by rewrite Hl|].
      split; cbn; [done | lia | |].
      * intros j l'. rewrite Ha, elem_of_cons. split.
        -- intros (? & ? & ? & ?). split_and!; try done; [lia|]. intros [->|?]; [lia | done].
        -- intros (? & ? & Hsv & ?). split_and!; try done; [|tauto].
           destruct (decide (j = n)) as [->|]; [tauto | lia].
      * intros j [->|Hj]%elem_of_cons; [lia|]. destruct (Hs j Hj); lia.
    + apply IH; [lia|]. fold (is_wanted wanted n). split; cbn; [done | lia | |].
      * intros j l'. destruct (decide (j = n)) as [->|Hj].
        -- assert (parked !! n = None) as Hp.
           { destruct (parked !! n) eqn:E; [|done]. apply Ha in E. lia. }
           assert (n ∉ served) as Hns by (intros Hin; destruct (Hs n Hin); lia).
           unfold line_at. rewrite Hl. destruct (is_wanted wanted n) eqn:Ew.
           ++ rewrite lookup_insert_eq. split; [intros [= <-]; split_and!; done || lia | naive_solver].
           ++ rewrite Hp. split; [done | naive_solver].
        -- assert ((if is_wanted wanted n then <[n:=TrimSpace l]> parked else parked) !! j
                   = parked !! j) as ->.
           { destruct (is_wanted wanted n); [by rewrite lookup_insert_ne | done]. }
           rewrite Ha. split; intros (? & ? & ? & ?); split_and!; done || lia.
      * intros j Hj. destruct (Hs j Hj); lia.
Qed.

Lemma At_spec f wanted served i r r' x :
  Forall (λ l, isHexLine (TrimSpace l) = true) (lines f) → scan_err f = None →
  reader_inv f wanted served r → (i ∉ served) → is_wanted wanted i = true →
  At wanted f i r = (r', x) → x = line_at f i ∧ reader_inv f wanted (i :: served) r'.
Proof.
  intros Hall Herr Hi Hns Hw. unfold At. pose proof Hi as [Hr Hnx Ha Hs].
  destruct (ahead r !! i) as [line|] eqn:E.
  - intros [= <- <-]. apply Ha in E as (Hlt & _ & _ & ->). split; [done|].
    split; cbn; [done | done | |].
    + intros j l. rewrite lookup_delete_Some, Ha, elem_of_cons. naive_solver.
    + intros j [->|Hj]%elem_of_cons; [by left | auto].
  - destruct (Nat.ltb_spec i (next r)) as [Hlt|Hge].
    + destruct (lines f !! i) as [l|] eqn:El; [|apply lookup_ge_None in El; lia].
      assert (ahead r !! i = Some (TrimSpace l)) as E'; [|congruence].
      apply Ha. unfold line_at. by rewrite El.
    + apply (scan_to_spec f wanted served); done.
Qed.

Lemma read_all_spec f wanted reqs served r r' xs :
  Forall (λ l, isHexLine (TrimSpace l) = true) (lines f) → scan_err f = None →
  reader_inv f wanted served r → NoDup reqs → (∀ i, i ∈ reqs → (i ∉ served) ∧ is_wanted wanted i = true) →
  read_all wanted f reqs r = (r', xs) →
  xs = line_at f <$> reqs ∧ reader_inv f wanted (reverse reqs ++ served) r'.
Proof.
  intros Hall Herr. revert served r xs.
  induction reqs as [|i reqs IH]; intros served r xs Hi Hnd Hreq; cbn [read_all]; [by intros [= <- <-]|].
  apply NoDup_cons in Hnd as [Hni Hnd].
  destruct (At wanted f i r) as [r1 x] eqn:EA. destruct (read_all wanted f reqs r1) as [r2 xs2] eqn:ER.
  intros [= <- <-]. destruct (Hreq i) as [Hns Hw]; [by left|].
  destruct (At_spec f wanted served i r r1 x Hall Herr Hi Hns Hw EA) as [-> Hi1].
  destruct (IH (i :: served) r1 xs2 Hi1 Hnd) as [-> Hi2]; [| done |].
  { intros j Hj. destruct (Hreq j) as [? ?]; [by right|]. split; [|done].
    intros [->|?]%elem_of_cons; done. }
  split; [done|]. by rewrite reverse_cons, <- (assoc_L (++)).
Qed.

(** The scan stops at the furthest index asked for. *)
Lemma scan_to_next wanted err i ls n parked :
  (n ≤ i)%nat → (next (scan_to wanted err i ls n parked).1 ≤ S i)%nat.
Proof.
  revert n parked. induction ls as [|l ls IH]; intros n parked Hn; cbn; [lia|].
  destruct (negb _); [cbn; lia|]. destruct (Nat.eqb_spec n i); [cbn; lia|]. apply IH. lia.
Qed.

Lemma read_all_next wanted f reqs r :
  (next (read_all wanted f reqs r).1 ≤ foldr Nat.max (next r) (S <$> reqs))%nat.
Proof.
  assert (∀ l a b, (a ≤ b → foldr Nat.max a l ≤ foldr Nat.max b l)%nat) as Hmono.
  { induction l as [|x l IH]; intros a b Hab; cbn; [done|]. specialize (IH a b Hab). lia. }
  assert (∀ l a b, (foldr Nat.max (Nat.max a b) l = Nat.max b (foldr Nat.max a l))%nat) as Hmax.
  { induction l as [|x l IH]; intros a b; cbn; [lia|]. rewrite IH. lia. }
  revert r. induction reqs as [|i reqs IH]; intros r; [done|]. cbn [read_all].
  assert (next (At wanted f i r).1 ≤ Nat.max (next r) (S i))%nat as HA.
  { unfold At. destruct (ahead r !! i); [cbn; lia|]. destruct (Nat.ltb_spec i (next r)); [cbn; lia|].
    pose proof (scan_to_next wanted (scan_err f) i (rest r) (next r) (ahead r)). lia. }
  destruct (At wanted f i r) as [r1 x]. specialize (IH r1).
  destruct (read_all wanted f reqs r1) as [r2 xs]. cbn [fst fmap list_fmap foldr] in *.
  pose proof (Hmono (S <$> reqs) _ _ HA) as Hm. rewrite Hmax in Hm. lia.
Qed.

(** on a stream that validates with [n] ballots, the reader serves
    concurrent workers the line of the index they ask for, in whatever order
    they ask, from one forward scan, and the end of the file past the last; it
    holds in memory exactly the wanted lines it has passed and nobody has asked
    for yet. Every line it serves decodes as hex. *)
Theorem ballot_reader_serves_every_index f n wanted reqs r xs :
  validateBallots f = Ok n → NoDup reqs → (∀ i, i ∈ reqs → is_wanted wanted i = true) →
  read_all wanted f reqs (openBallotReader f) = (r, xs) →
  xs = line_at f <$> reqs ∧
  (∀ i, (i < n)%nat ↔ ∃ line raw, line_at f i = Ok line ∧ DecodeString line = Ok raw) ∧
  (∀ j line, ahead r !! j = Some line ↔
     (j < next r)%nat ∧ is_wanted wanted j = true ∧ (j ∉ reqs) ∧ line_at f j = Ok line) ∧
  (next r ≤ foldr Nat.max 0 (S <$> reqs))%nat.
Proof.
  intros (Herr & Hall & ->)%validateBallots_ok Hnd Hw Hrun.
  assert (reader_inv f wanted [] (openBallotReader f)) as Hi.
  { split; cbn; [done | lia | |by intros j ?%not_elem_of_nil].
    intros j l. rewrite lookup_empty. split; [done | lia]. }
  destruct (read_all_spec f wanted reqs [] (openBallotReader f) r xs) as [-> Hi']; try done.
  { intros i Hin. split; [apply not_elem_of_nil | auto]. }
  rewrite app_nil_r in Hi'. split_and!; [done | | |].
  - intros i. unfold line_at. split.
    + intros [l Hl]%lookup_lt_is_Some. rewrite Hl.
      destruct (isHexLine_decodes (TrimSpace l)) as [raw Hraw]; [|by eauto].
      by apply (Forall_lookup_1 _ _ _ _ Hall Hl).
    + intros (line & raw & Hl & _). destruct (lines f !! i) eqn:E; [|done].
      by eapply lookup_lt_Some.
  - intros j line. rewrite (ri_ahead _ _ _ _ Hi'), elem_of_reverse. done.
  - pose proof (read_all_next wanted f reqs (openBallotReader f)) as Hn. by rewrite Hrun in Hn.
Qed.

(** Three ballots, asked for out of order by two workers. *)
Definition wit_stream : stream := MkStream ["00"; "aB "; "ff01"] None.

Lemma ballot_reader_serves_every_index_witness :
  (read_all None wit_stream [1; 0; 3]%nat (openBallotReader wit_stream)).2 =
    [Ok "aB"; Ok "00"; Err EOF].
Proof.
  destruct (ballot_reader_serves_every_index wit_stream 3 None [1; 0; 3]%nat
    (read_all None wit_stream [1; 0; 3]%nat (openBallotReader wit_stream)).1
    (read_all None wit_stream [1; 0; 3]%nat (openBallotReader wit_stream)).2) as [E _].
  - vm_compute. reflexivity.
  - apply (bool_decide_unpack _). vm_compute. exact I.
  - reflexivity.
  - apply surjective_pairing.
  - rewrite E. vm_compute. reflexivity.
Defined.
End Ballots.
