(* ===== verification/Scenarios.v ===== *)
(** * The attack catalogue and its verdicts

    [saksi-campaign/scenarios.go]: the registered attacks, the ballot mutations,
    how a live submission and a simulated audit are turned into a verdict, and
    how verdicts accumulate in [scenarios.json]. *)
From S2P Require Import Prelude Hex Wire GoText Config.
From Stdlib Require Import Ascii.
#[local] Open Scope Z_scope.
Import GoText Config.

Module Scenarios.

Inductive Layer := LayerOffline | LayerChaincode.

Definition Layer_String (l : Layer) : string :=
  match l with LayerChaincode => "chaincode" | LayerOffline => "offline" end.

(** How a ballot attack changes single ballots: a mutation of the target given a
    committed ballot, a forgery by a saksi-demo subcommand, or neither. *)
Inductive ballot_attack :=
| MutTamperProof | MutReuseNullifier | MutCorruptWire | ForgeSelfIssued | ForgeOvervote.

Record Scenario := MkScenario {
  ID : string; Property : string; SLayer : Layer; Action : string; Expected : string;
  Stage : string; ChainGate : string; AuditGate : string; OnChainNote : string;
  BallotMutation : option ballot_attack
}.

Definition Registry : list Scenario := [
  MkScenario "tamper-ballot-proof" "ballot well-formedness (CDS proof)" LayerOffline
    "flip a byte in a ballot's CDS proof response"
    "rejected by the CDS proof check (chaincode gate cds live, auditor ballot.cds_proof simulated)"
    StageBallots "cds" "ballot.cds_proof" "" (Some MutTamperProof);
  MkScenario "reused-nullifier" "no double voting (per-position nullifier)" LayerOffline
    "copy a cast ballot's nullifier onto another ballot"
    "rejected as a double vote (chaincode gate nullifier live, auditor nullifier.unique simulated)"
    StageBallots "nullifier" "nullifier.unique" "" (Some MutReuseNullifier);
  MkScenario "dropped-ballot" "ballot-box completeness" LayerOffline
    "remove one committed ballot line"
    "auditor rejects: stream.completeness (fewer ballots than the header declares)"
    StageClose "" "stream.completeness"
    "on-chain: not mountable as one submission (a dropped ballot is an absence across the set)" None;
  MkScenario "reordered-ballots" "ledger integrity (ordering)" LayerChaincode
    "swap the first two ballot lines"
    "no gate: ordering is not checked on-chain or by the stateless auditor"
    StageClose "" "" "" None;
  MkScenario "corrupted-ballot-bytes" "wire integrity" LayerOffline
    "corrupt a ballot's first wire byte so the protobuf no longer parses"
    "rejected as undecodable (chaincode gate decode live, auditor ballot.decode simulated)"
    StageBallots "decode" "ballot.decode" "" (Some MutCorruptWire);
  MkScenario "tamper-partial-decryption" "threshold-decryption integrity" LayerOffline
    "flip a byte in a trustee's Chaum-Pedersen proof response"
    "auditor rejects: decryption.cp_proof (the proof does not verify)"
    StageCeremony "" "decryption.cp_proof"
    "on-chain: not checked (shape/presence only, no caller authorization)" None;
  MkScenario "tamper-dkg-transcript" "DKG transcript integrity" LayerOffline
    "flip a byte in a trustee's DKG coefficient commitment"
    "auditor rejects: dkg.decode (the commitment is not a valid point)"
    StageDKG "" "dkg.decode"
    "on-chain: not checked (shape/presence only, no caller authorization)" None;
  MkScenario "self-issued-credential" "eligibility (credential issuer binding)" LayerOffline
    "replace a ballot with one forged under a freshly generated issuer key, every proof genuine"
    "rejected as issued by a key the election never declared (chaincode gate issuer live, auditor ballot.issuer_binding simulated)"
    StageBallots "issuer" "ballot.issuer_binding" "" (Some ForgeSelfIssued);
  MkScenario "overvote" "one selection per position (sum-to-one proof)" LayerOffline
    "re-encrypt two of a ballot's candidate slots to 1 with valid CDS proofs, keeping its old selection proof"
    "rejected as selecting more than one candidate (chaincode gate selection live, auditor ballot.selection_sum simulated)"
    StageBallots "selection" "ballot.selection_sum" "" (Some ForgeOvervote)
].

Definition ScenariosForStage (stage : string) : list Scenario :=
  filter (λ sc, Stage sc = stage) Registry.

Definition selectScenarios (l : list string) : list Scenario :=
  if (length l =? 0)%nat then Registry else filter (λ sc, ID sc ∈ l) Registry.

Definition LiveCapable (s : Scenario) : bool := negb (bool_decide (ChainGate s = "")).

(** ** Verdicts *)
Definition StageUnstaged : string := "unstaged".

Record MountContext := MkMount {
  MountStage : string; ElectionStatus : string;
  BallotsCommitted : option Z; BlockHeight : option Z
}.

Definition no_mount : MountContext := MkMount "" "" None None.

Record ScenarioResult := MkResult {
  RScenario : string; RLayer : string; RAction : string; RExpected : string;
  Actual : string; Verdict : string; RProperty : string; OnChain : bool; RStage : string;
  Mount : MountContext; GateExpected : string; GateObserved : string
}.

Definition newLiveResult (sc : Scenario) : ScenarioResult :=
  MkResult (ID sc) (Layer_String (SLayer sc)) (Action sc) (Expected sc) "" "" (Property sc)
    true (Stage sc) no_mount (ChainGate sc) "".

(** The fields a classification writes. *)
Definition with_outcome (expected observed verdict actual : string) (r : ScenarioResult) :
    ScenarioResult :=
  MkResult (RScenario r) (RLayer r) (RAction r) (RExpected r) actual verdict (RProperty r)
    (OnChain r) (RStage r) (Mount r) expected observed.

Definition truncateErr (s : string) : string :=
  let s := TrimSpace (replace_char (ascii_of_nat 10) " " s) in
  if 400 <? slen s then str_take 400 s +:+ "…" else s.

(** *** The matches of the gate marker: [gate=], a lower-case letter, letters,
    digits and dashes, a colon, then white space *)
Fixpoint take_while (p : ascii → bool) (s : string) : string :=
  match s with
  | EmptyString => EmptyString
  | String c s => if p c then String c (take_while p s) else EmptyString
  end.

Definition is_lower (c : ascii) : bool :=
  (97 <=? nat_of_ascii c)%nat && (nat_of_ascii c <=? 122)%nat.

Definition gate_char (c : ascii) : bool := is_lower c || is_digit c || Ascii.eqb c "-"%char.

(** Go's [\s]: tab, newline, form feed, carriage return, space. *)
Definition regexp_space (c : ascii) : bool :=
  bool_decide (nat_of_ascii c ∈ [9; 10; 12; 13; 32]%nat).

(** A match at the head of [s]: the gate id and the match's length. *)
Definition gate_at (s : string) : option (string * nat) :=
  if has_prefix s "gate=" then
    let r := str_drop 5 s in
    let id := take_while gate_char r in
    match id, str_drop (String.length id) r with
    | String c _, String ":"%char r' =>
        if is_lower c
        then Some (id, 6 + String.length id + String.length (take_while regexp_space r'))%nat
        else None
    | _, _ => None
    end
  else None.

(** All matches, leftmost first and not overlapping: start, id, end. [skip] is
    how many characters of a match are still to be passed over. *)
Fixpoint gate_matches (pos skip : nat) (s : string) : list (nat * string * nat) :=
  match s with
  | EmptyString => []
  | String _ s' =>
      match skip with
      | S skip => gate_matches (S pos) skip s'
      | O =>
          match gate_at s with
          | Some (id, n) => (pos, id, pos + n)%nat :: gate_matches (S pos) (n - 1) s'
          | None => gate_matches (S pos) 0 s'
          end
      end
  end.

Definition FindAllGates (text : string) : list (nat * string * nat) := gate_matches 0 0 text.

(** The ids named, each once, in order of first occurrence. *)
Definition gate_ids (locs : list (nat * string * nat)) : list string :=
  foldl (λ ids loc, if bool_decide (loc.1.2 ∈ ids) then ids else ids ++ [loc.1.2]) [] locs.

(** The index of the first match naming another gate than [gate]. *)
Fixpoint other_gate (gate : string) (locs : list (nat * string * nat)) : option nat :=
  match locs with
  | [] => None
  | loc :: locs =>
      if bool_decide (loc.1.2 = gate) then S <$> other_gate gate locs else Some 0%nat
  end.

(** [r[:strings.LastIndex(r, "; ")]], or [r] when there is none. *)
Fixpoint before_last_sep (r : string) : option string :=
  match r with
  | EmptyString => None
  | String c r' =>
      match before_last_sep r' with
      | Some b => Some (String c b)
      | None => if has_prefix r "; " then Some EmptyString else None
      end
  end.

Definition substring (i j : nat) (s : string) : string := str_take (j - i) (str_drop i s).

Definition reasonAt (text : string) (locs : list (nat * string * nat)) (i : nat) : string :=
  match locs !! i with
  | None => ""
  | Some loc =>
      truncateErr
        match locs !! S i with
        | None => str_drop loc.2 text
        | Some next =>
            let r := substring loc.2 next.1.1 text in default r (before_last_sep r)
        end
  end.

(** [strings.Join(ids, ";")]. *)
Fixpoint Join (sep : string) (l : list string) : string :=
  match l with
  | [] => ""
  | [x] => x
  | x :: l => x +:+ sep +:+ Join sep l
  end.

Definition verdict_id (locs : list (nat * string * nat)) (i : nat) : string :=
  match locs !! i with Some loc => loc.1.2 | None => "" end.

(** [submitErr] is [None] for an accepted submission, else [ErrorText(err)]. *)
Definition classifyLive (res : ScenarioResult) (sc : Scenario) (submitErr : option string) :
    ScenarioResult :=
  match submitErr with
  | None => with_outcome (ChainGate sc) (GateObserved res) "FAIL"
      "NOT rejected — the ledger accepted a tampered artifact" res
  | Some text =>
      let locs := FindAllGates text in
      if (length locs =? 0)%nat then
        with_outcome (ChainGate sc) (GateObserved res) "INCONCLUSIVE"
          ("rejected by an unidentified gate (the error names no gate id — a chaincode deployed before gate ids, or a transport failure): "
           +:+ truncateErr text) res
      else
      let observed := Join ";" (gate_ids locs) in
      let other := other_gate (ChainGate sc) locs in
      if negb (bool_decide (ChainGate sc = "")) && bool_decide (other = None) then
        with_outcome (ChainGate sc) observed "PASS"
          ("rejected by chaincode gate " +:+ ChainGate sc +:+ " (the declared gate): "
           +:+ reasonAt text locs 0) res
      else
        let i := default 0%nat other in
        with_outcome (ChainGate sc) observed "INCONCLUSIVE"
          ("rejected by " +:+ verdict_id locs i +:+ ": " +:+ reasonAt text locs i) res
  end.

(** *** The auditor's account *)
Record FailedCheck := MkFailed { Check : string; CDetail : string }.

Record StreamAudit := MkAudit { Overall : string; FailedChecks : list FailedCheck }.

Definition legacyFinding : string := "parameters.issuer_binding".

Definition withoutLegacyFinding (sa : StreamAudit) : StreamAudit :=
  if negb (bool_decide (Overall sa = "fail")) || (length (FailedChecks sa) =? 0)%nat then sa
  else
    let kept := filter (λ f, Check f ≠ legacyFinding) (FailedChecks sa) in
    MkAudit (if (length kept =? 0)%nat then "pass" else Overall sa) kept.

(** [None]: audit-stream produced no valid result. *)
Definition classifyAudit (res : ScenarioResult) (sc : Scenario) (sa : option StreamAudit) :
    ScenarioResult :=
  match sa with
  | None => with_outcome (AuditGate sc) (GateObserved res) "INCONCLUSIVE"
      "rejected by an unidentified gate: audit-stream produced no valid result (it refused the input before auditing)" res
  | Some sa =>
      if bool_decide (Overall sa = "pass") then
        with_outcome (AuditGate sc) (GateObserved res) "FAIL"
          "NOT rejected — the audit passed a mutated run" res
      else if negb (bool_decide (Overall sa = "fail")) then
        with_outcome (AuditGate sc) (GateObserved res) "INCONCLUSIVE"
          ("rejected by an unidentified gate: audit-stream reported overall=" +:+ Quote (Overall sa)
           +:+ ", neither pass nor fail") res
      else
      let observed := Join ";" (Check <$> FailedChecks sa) in
      match find (λ f, negb (bool_decide (AuditGate sc = "")) && bool_decide (Check f = AuditGate sc))
              (FailedChecks sa) with
      | Some f => with_outcome (AuditGate sc) observed "PASS"
          ("rejected by auditor check " +:+ Check f +:+ " (the declared gate): "
           +:+ truncateErr (CDetail f)) res
      | None =>
          match FailedChecks sa with
          | [] => with_outcome (AuditGate sc) observed "INCONCLUSIVE"
              "rejected by an unidentified gate: the audit failed without naming a check (this saksi-demo predates failed_checks — rebuild it)" res
          | f :: _ => with_outcome (AuditGate sc) observed "INCONCLUSIVE"
              ("rejected by " +:+ Check f +:+ ", not the declared " +:+ AuditGate sc +:+ ": "
               +:+ truncateErr (CDetail f)) res
          end
      end
  end.

(** ** Accumulated verdicts *)
Definition staged (r : ScenarioResult) : bool :=
  negb (bool_decide (MountStage (Mount r) = ""))
  && negb (bool_decide (MountStage (Mount r) = StageUnstaged)).

Definition by_id (l : list ScenarioResult) : gmap string ScenarioResult :=
  foldl (λ m r, <[RScenario r := r]> m) ∅ l.

(** One fresh result: [(byID, held)] after it. *)
Definition upsert (st : gmap string ScenarioResult * list ScenarioResult) (r : ScenarioResult) :
    gmap string ScenarioResult * list ScenarioResult :=
  match st.1 !! RScenario r with
  | Some p => if staged p && negb (staged r) then (st.1, st.2 ++ [r])
              else (<[RScenario r := r]> st.1, st.2)
  | None => (<[RScenario r := r]> st.1, st.2)
  end.

(** [prior] is the state file's list, [merged] the one it is rewritten to. *)
Definition mergeScenarioResults (prior fresh : list ScenarioResult) :
    list ScenarioResult * list ScenarioResult :=
  let '(byID, held) := foldl upsert (by_id prior, []) fresh in
  (omap (λ sc, byID !! ID sc) Registry, held).

(** One scenario's attempts and refusals. *)
Definition rejection (r : ScenarioResult) : Z * Z :=
  if bool_decide (Verdict r = "PASS") then (1, 1)
  else if bool_decide (Verdict r = "FAIL") then (1, 0) else (0, 0).

(** The totals row of negative-tests.csv. *)
Definition rejection_totals (results : list ScenarioResult) : Z * Z :=
  foldl (λ tot r, (tot.1 + (rejection r).1, tot.2 + (rejection r).2)) (0, 0) results.

(** ** Ballot mutations *)
Section mutations.
Context `{Proto} (MarshalBallot : Ballot.t → result bytes).

Definition decode_ballot (hexStr : string) : result Ballot.t :=
  let? raw := wrap_err (λ e, Errorf "not hex: %w" [AErr e]) (DecodeString hexStr) in
  UnmarshalBallot raw.

Definition editBallot (hexLine : string) (fn : Ballot.t → result Ballot.t) : result string :=
  let? b := wrap_err (λ e, Errorf "ballot: %w" [AErr e]) (decode_ballot hexLine) in
  let? b := fn b in
  let? enc := MarshalBallot b in
  Ok (EncodeToString enc).

(** [x[0] ^= 1]. *)
Definition flip_first (b : bytes) : bytes :=
  match b with
  | [] => []
  | x :: b => byte_of_Z (Z.lxor (Z_of_byte x) 1) :: b
  end.

Definition tamper_first_branch (b : Ballot.t) : result Ballot.t :=
  let missing := Err (Errorf "ballot has no CDS proof to tamper" []) in
  match Ballot.WellFormednessProofs b with
  | [] => missing
  | p :: proofs =>
      match CDSProof.Branches p with
      | [] => missing
      | br :: branches =>
          if (length (CDSProofBranch.Response br) =? 0)%nat then missing
          else
          let br' := CDSProofBranch.Make (CDSProofBranch.CommitmentA br)
            (CDSProofBranch.CommitmentB br) (CDSProofBranch.Challenge br)
            (flip_first (CDSProofBranch.Response br)) in
          Ok (Ballot.Make (Ballot.Version b) (Ballot.ElectionId b)
                (Ballot.VoterCredentialCommitment b) (Ballot.Ciphertexts b)
                (CDSProof.Make (CDSProof.Version p) (br' :: branches) :: proofs)
                (Ballot.CredentialPresentation b) (Ballot.PositionId b) (Ballot.SelectionProof b))
      end
  end.

Definition tamperBallotProof (hexLine : string) : result string :=
  editBallot hexLine tamper_first_branch.

Definition set_nullifier (val : bytes) (b : Ballot.t) : result Ballot.t :=
  match Ballot.CredentialPresentation b with
  | Some p =>
      match CredentialPresentation.Nullifier p with
      | Some n =>
          if bool_decide (Nullifier.Value n = val)
          then Err (Errorf "target and committed ballot already share a nullifier" [])
          else
          let p' := CredentialPresentation.Make (CredentialPresentation.Version p)
            (CredentialPresentation.CredentialCommitment p)
            (CredentialPresentation.IssuerPublicKey p)
            (CredentialPresentation.PresentationProof p)
            (Some (Nullifier.Make (Nullifier.Version n) val)) in
          Ok (Ballot.Make (Ballot.Version b) (Ballot.ElectionId b)
                (Ballot.VoterCredentialCommitment b) (Ballot.Ciphertexts b)
                (Ballot.WellFormednessProofs b) (Some p') (Ballot.PositionId b)
                (Ballot.SelectionProof b))
      | None => Err (Errorf "target ballot has no nullifier" [])
      end
  | None => Err (Errorf "target ballot has no nullifier" [])
  end.

Definition reuseNullifier (target committed : string) : result string :=
  let? donor := wrap_err (λ e, Errorf "no committed ballot to take a nullifier from: %w" [AErr e])
                  (decode_ballot committed) in
  let val := NullifierValue (Ballot.CredentialPresentation donor) in
  if (length val =? 0)%nat then Err (Errorf "the committed ballot has no nullifier" [])
  else editBallot target (set_nullifier val).

Definition corruptBallotWire (hexLine : string) : result string :=
  match DecodeString hexLine with
  | Ok (x :: raw) =>
      if Z.land (Z_of_byte x) 7 =? 7
      then Err (Errorf "ballot already starts with a reserved wire type" [])
      else Ok (EncodeToString (byte_of_Z (Z.lor (Z_of_byte x) 7) :: raw))
  | _ => Err (Errorf "ballot is not decodable hex" [])
  end.
End mutations.

(** ** Lemmas: verdicts *)

(** Every gate named in a text is [gate], and one is. *)
Definition names_only (gate text : string) : Prop :=
  FindAllGates text ≠ [] ∧ Forall (λ loc, loc.1.2 = gate) (FindAllGates text).

Lemma other_gate_None gate locs :
  other_gate gate locs = None ↔ Forall (λ loc, loc.1.2 = gate) locs.
Proof.
  induction locs as [|loc locs IH]; cbn; [split; [constructor | done]|].
  rewrite Forall_cons, <- IH. case_bool_decide; [rewrite fmap_None|]; naive_solver.
Qed.

Lemma Verdict_with_outcome e o v a r : Verdict (with_outcome e o v a r) = v.
Proof. done. Qed.

Lemma classifyLive_cases res sc err :
  match err with
  | None => Verdict (classifyLive res sc err) = "FAIL"
  | Some text =>
      (ChainGate sc ≠ "" ∧ names_only (ChainGate sc) text →
       Verdict (classifyLive res sc err) = "PASS") ∧
      (¬ (ChainGate sc ≠ "" ∧ names_only (ChainGate sc) text) →
       Verdict (classifyLive res sc err) = "INCONCLUSIVE")
  end.
Proof.
  destruct err as [text|]; [|done]. cbn [classifyLive]. unfold names_only.
  rewrite <- (other_gate_None (ChainGate sc)).
  case_bool_decide; case_match eqn:E; cbn [negb andb] in *;
    rewrite ?Nat.eqb_eq, ?Nat.eqb_neq, ?length_zero_iff_nil in *;
    repeat case_bool_decide; rewrite ?Verdict_with_outcome; naive_solver.
Qed.

Lemma find_Some_iff {A} (f : A → bool) l x : find f l = Some x → x ∈ l ∧ f x = true.
Proof. intros [Hin Hf]%find_some. split; [by apply list_elem_of_In | done]. Qed.

Lemma classifyAudit_pass res sc sa :
  Verdict (classifyAudit res sc sa) = "PASS" ↔
  ∃ a, sa = Some a ∧ Overall a = "fail" ∧ AuditGate sc ≠ "" ∧
       AuditGate sc ∈ (Check <$> FailedChecks a).
Proof.
  destruct sa as [a|]; [|split; [done | naive_solver]]. cbn [classifyAudit].
  destruct (decide (Overall a = "pass")) as [Hp|Hp].
  { rewrite bool_decide_true by done. rewrite Verdict_with_outcome.
    split; [done|]. intros (? & [= <-] & Hf & _). by rewrite Hp in Hf. }
  rewrite bool_decide_false by done.
  destruct (decide (Overall a = "fail")) as [Hf|Hf];
    [|rewrite bool_decide_false by done; cbn [negb]; rewrite Verdict_with_outcome; naive_solver].
  rewrite bool_decide_true by done. cbn [negb]. destruct (find _ _) as [f|] eqn:E.
  - rewrite Verdict_with_outcome. split; [intros _|done]. apply find_Some_iff in E as [Hin Hc].
    apply andb_true_iff in Hc as [Hg Hc]. apply bool_decide_eq_true in Hc.
    apply negb_true_iff, bool_decide_eq_false in Hg.
    exists a. split_and!; try done. rewrite <- Hc. by apply list_elem_of_fmap_2.
  - split.
    + case_match; rewrite Verdict_with_outcome; done.
    + intros (? & [= <-] & _ & Hne & (f & Hc & Hin)%list_elem_of_fmap).
      apply list_elem_of_In in Hin. pose proof (find_none _ _ E f Hin) as Hn.
      cbn in Hn. by rewrite bool_decide_false, bool_decide_true in Hn.
Qed.

(** A verdict is about the gate it names. A live attack is FAIL exactly when
    the ledger accepted it, and PASS exactly when the refusal names at least one
    gate and every gate it names is the declared one; a simulated attack is PASS
    exactly when the audit failed with the declared check among its failures. *)
Theorem verdicts_name_their_gate res sc :
  (∀ err, Verdict (classifyLive res sc err) = "FAIL" ↔ err = None) ∧
  (∀ err, Verdict (classifyLive res sc err) = "PASS" ↔
     ∃ text, err = Some text ∧ ChainGate sc ≠ "" ∧ names_only (ChainGate sc) text) ∧
  (∀ sa, Verdict (classifyAudit res sc sa) = "PASS" ↔
     ∃ a, sa = Some a ∧ Overall a = "fail" ∧ AuditGate sc ≠ "" ∧
          AuditGate sc ∈ (Check <$> FailedChecks a)).
Proof.
  split_and!; [intros err .. | apply classifyAudit_pass].
  - pose proof (classifyLive_cases res sc err) as Hc. destruct err as [text|]; [|done].
    split; [|done]. intros Hf. destruct Hc as [H1 H2].
    assert (¬ ¬ (ChainGate sc ≠ "" ∧ names_only (ChainGate sc) text)) as Hnn.
    { intros Hn. rewrite H2 in Hf by done. done. }
    destruct Hnn. intros Hn. rewrite H1 in Hf by done. done.
  - pose proof (classifyLive_cases res sc err) as Hc. destruct err as [text|].
    + split; [|naive_solver]. intros Hp. exists text. split; [done|]. destruct Hc as [_ H2].
      destruct (decide (ChainGate sc = "")) as [Hg|Hg]; [rewrite H2 in Hp; [done | naive_solver]|].
      split; [done|]. unfold names_only in *.
      destruct (decide (FindAllGates text = [])) as [Hl|Hl]; [rewrite H2 in Hp; [done | naive_solver]|].
      split; [done|].
      destruct (decide (Forall (λ loc, loc.1.2 = ChainGate sc) (FindAllGates text)));
        [done | rewrite H2 in Hp; [done | naive_solver]].
    + rewrite Hc. naive_solver.
Qed.

(** ** Lemmas: accumulated verdicts *)
Lemma registry_ids_NoDup : NoDup (ID <$> Registry).
Proof. apply (bool_decide_unpack _). vm_compute. reflexivity. Qed.

(** The row one scenario's results leave, one result at a time. *)
Definition keep (id : string) (o : option ScenarioResult) (r : ScenarioResult) :
    option ScenarioResult :=
  if bool_decide (RScenario r = id) then
    match o with
    | Some p => if staged p && negb (staged r) then Some p else Some r
    | None => Some r
    end
  else o.

(** The row the results [rs] of all attacks leave for [id]: the latest one
    mounted at a lifecycle pause if there is any, else the latest. *)
Definition evidence (id : string) (rs : list ScenarioResult) : option ScenarioResult :=
  let mine := filter (λ r, RScenario r = id) rs in
  match last (filter (λ r, staged r = true) mine) with
  | Some r => Some r
  | None => last mine
  end.

(** The state file after a sequence of merges. *)
Definition saved_results (history : list (list ScenarioResult)) : list ScenarioResult :=
  foldl (λ prior fresh, (mergeScenarioResults prior fresh).1) [] history.

Lemma foldl_upsert_lookup fresh m h id :
  (foldl upsert (m, h) fresh).1 !! id = foldl (keep id) (m !! id) fresh.
Proof.
  revert m h. induction fresh as [|r fresh IH]; intros m h; [done|]. cbn [foldl].
  rewrite (surjective_pairing (upsert (m, h) r)), IH. f_equal.
  unfold upsert, keep. cbn [fst snd]. case_bool_decide as Hid; [subst id|].
  - destruct (m !! RScenario r) as [p|] eqn:E; [destruct (staged p && _)|]; cbn [fst];
      rewrite ?lookup_insert_eq; done.
  - destruct (m !! RScenario r) as [p|]; [destruct (staged p && _)|]; cbn [fst];
      [done | by rewrite lookup_insert_ne..].
Qed.

Lemma evidence_snoc id rs r : evidence id (rs ++ [r]) = keep id (evidence id rs) r.
Proof.
  unfold evidence, keep. rewrite filter_app, filter_cons, filter_nil.
  case_bool_decide as Hid; [rewrite decide_True by done | by rewrite decide_False, app_nil_r].
  rewrite filter_app, filter_cons, filter_nil. destruct (staged r) eqn:Es.
  - rewrite decide_True, !last_snoc by done. cbn [negb].
    case_match; [by rewrite andb_false_r | done].
  - rewrite decide_False, app_nil_r, last_snoc by congruence. cbn [negb].
    destruct (last (filter (λ r, staged r = true) _)) as [p|] eqn:E.
    + apply last_Some_elem_of, list_elem_of_filter in E as [-> _]. done.
    + apply last_None in E. destruct (last (filter (λ r, RScenario r = id) rs)) as [q|] eqn:Eq; [|done].
      apply last_Some_elem_of in Eq. destruct (staged q) eqn:Eqs; [|done].
      assert (q ∈ filter (λ r, staged r = true) (filter (λ r, RScenario r = id) rs)) as Hin
        by by apply list_elem_of_filter.
      rewrite E in Hin. by apply not_elem_of_nil in Hin.
Qed.

Lemma evidence_foldl id rs : foldl (keep id) None rs = evidence id rs.
Proof.
  induction rs as [|r rs IH] using rev_ind; [done|].
  by rewrite foldl_app, evidence_snoc, IH.
Qed.

Lemma evidence_app id rs rs' : evidence id (rs ++ rs') = foldl (keep id) (evidence id rs) rs'.
Proof. by rewrite <- !evidence_foldl, foldl_app. Qed.

Lemma evidence_id id rs r : evidence id rs = Some r → RScenario r = id.
Proof.
  unfold evidence. intros E. set (mine := filter _ rs) in E.
  assert (r ∈ mine) as Hin.
  { destruct (last (filter _ mine)) as [p|] eqn:Ep.
    - injection E as ->. apply last_Some_elem_of, list_elem_of_filter in Ep. by destruct Ep.
    - by apply last_Some_elem_of. }
  by apply list_elem_of_filter in Hin as [? _].
Qed.

Lemma by_id_lookup l id : by_id l !! id = foldl (λ o r, if bool_decide (RScenario r = id) then Some r else o) None l.
Proof.
  unfold by_id. induction l as [|r l IH] using rev_ind; [done|].
  rewrite !foldl_app. cbn [foldl]. case_bool_decide as Hid.
  - subst. by rewrite lookup_insert_eq.
  - by rewrite lookup_insert_ne.
Qed.

(** Reading back the rows of a list of scenarios with distinct ids. *)
Lemma by_id_omap (g : Scenario → option ScenarioResult) reg sc :
  (∀ sc r, g sc = Some r → RScenario r = ID sc) → NoDup (ID <$> reg) → sc ∈ reg →
  by_id (omap g reg) !! ID sc = g sc.
Proof.
  intros Hg Hnd Hin. rewrite by_id_lookup.
  assert (∀ o reg', ID sc ∉ ID <$> reg' →
    foldl (λ o r, if bool_decide (RScenario r = ID sc) then Some r else o) o (omap g reg') = o) as Hskip.
  { intros o reg'. revert o. induction reg' as [|s reg' IH]; intros o Hn; [done|].
    cbn in Hn. apply not_elem_of_cons in Hn as [Hne Hn]. cbn.
    destruct (g s) as [r|] eqn:E; [|by apply IH].
    cbn. rewrite bool_decide_false; [by apply IH|]. rewrite (Hg _ _ E). congruence. }
  apply list_elem_of_split in Hin as (l1 & l2 & ->).
  rewrite fmap_app, fmap_cons in Hnd. apply NoDup_app in Hnd as (_ & Hdis & Hnd2).
  apply NoDup_cons in Hnd2 as [Hn2 _].
  rewrite omap_app, foldl_app, (Hskip None l1); [|intros H1; by apply (Hdis _ H1), list_elem_of_here].
  cbn. destruct (g sc) as [r|] eqn:E; [|by apply Hskip].
  cbn. rewrite bool_decide_true by by apply Hg. by apply Hskip.
Qed.

(** the evidence of a lifecycle pause is never displaced. Whatever sequence
    of results is merged into [scenarios.json], the file holds, in catalogue
    order, for each attack the latest result mounted at a pause if there ever
    was one, and otherwise the latest result. *)
Theorem staged_evidence_kept history :
  saved_results history = omap (λ sc, evidence (ID sc) (mjoin history)) Registry.
Proof.
  induction history as [|fresh history IH] using rev_ind; [done|].
  unfold saved_results. rewrite foldl_app. cbn [foldl]. fold (saved_results history).
  unfold mergeScenarioResults.
  rewrite (surjective_pairing (foldl upsert _ _)). cbn [fst].
  assert (∀ l : list Scenario, (∀ sc, sc ∈ l → sc ∈ Registry) →
    omap (λ sc, (foldl upsert (by_id (saved_results history), []) fresh).1 !! ID sc) l =
    omap (λ sc, evidence (ID sc) (mjoin (history ++ [fresh]))) l) as Hl; [|by apply Hl].
  induction l as [|sc l IHl]; intros Hreg; [done|]. cbn.
  rewrite IHl by (intros; apply Hreg; by apply list_elem_of_further).
  rewrite foldl_upsert_lookup, IH, by_id_omap.
  - by rewrite join_app, evidence_app; cbn; rewrite app_nil_r.
  - intros ? ?. apply evidence_id.
  - apply registry_ids_NoDup.
  - apply Hreg, list_elem_of_here.
Qed.

End Scenarios.
