(* ===== verification/Attacks.v ===== *)
(** * The registered ballot attacks against the chaincode's gates

    [saksi-campaign] mounts each ballot attack of its catalogue by mutating a
    ballot the window has not sent yet and submitting it to the running
    election; the verdict is PASS only when the declared gate refuses it. Here
    the three mutations built in Go are run against the model of
    [Contract.SubmitBallot]: on an otherwise acceptable ballot each one reaches,
    and is refused by, exactly the gate its registry entry declares. *)
From S2P Require Import Prelude Fabric Hex Wire Ristretto CdsVerify Contract BoardSpec.
From S2P Require Import HandlerFacts GoText Config Scenarios.
Import Contract Scenarios.

(** [proto.Marshal] on ballots: what it encodes decodes to the same message;
    and no message starts with a tag of the reserved wire type 7. *)
Class ProtoEncode `{Proto} := {
  MarshalBallot : Ballot.t → result bytes;
  UnmarshalBallot_Marshal : ∀ b raw, MarshalBallot b = Ok raw → UnmarshalBallot raw = Ok b;
  UnmarshalBallot_reserved : ∀ x raw, Z.land (Z_of_byte x) 7 = 7 →
    ∃ e, UnmarshalBallot (x :: raw) = Err e
}.

(** The gate a registered attack declares. *)
Definition declared_gate (id : string) : string :=
  match find (λ sc, bool_decide (ID sc = id)) Registry with
  | Some sc => ChainGate sc
  | None => ""
  end.

Lemma flip_first_neq b : b ≠ [] → flip_first b ≠ b.
Proof. destruct b as [|x b]; [done|]. intros _ [= E]. by destruct x. Qed.

Lemma land_reserved x : Z.land (Z_of_byte (byte_of_Z (Z.lor (Z_of_byte x) 7))) 7 = 7.
Proof. by destruct x. Qed.

Lemma result_unit_err (r : result unit) : r ≠ Ok tt → ∃ e, r = Err e.
Proof. destruct r as [[]|e]; [done | eauto]. Qed.

Section attacks.
Context `{FabricShimLaws, Proto, Ristretto, Merlin, Json, !RistrettoLaws, !ProtoEncode}.

Lemma decode_ballot_ok hex b :
  decode_ballot hex = Ok b ↔ ∃ raw, DecodeString hex = Ok raw ∧ UnmarshalBallot raw = Ok b.
Proof. unfold decode_ballot. rewrite rbind_ok. by setoid_rewrite wrap_err_ok. Qed.

Lemma editBallot_ok hex fn h :
  editBallot MarshalBallot hex fn = Ok h →
  ∃ b b' raw, decode_ballot hex = Ok b ∧ fn b = Ok b' ∧
    DecodeString h = Ok raw ∧ UnmarshalBallot raw = Ok b'.
Proof.
  unfold editBallot. intros (b & Hb & Hr)%rbind_ok. apply wrap_err_ok in Hb.
  apply rbind_ok in Hr as (b' & Hf & (raw & Hm & [= <-])%rbind_ok).
  exists b, b', raw. split_and!; [done | done | apply DecodeString_EncodeToString | by apply UnmarshalBallot_Marshal].
Qed.

Lemma mbind_err {A B} (m : M A) (k : A → M B) s t e : m s t = Err e → mbind m k s t = Err e.
Proof. unfold mbind. by intros ->. Qed.

(** ** A flipped response bit fails the first contest's proof *)
Lemma tampered_cds_rejected eid cid nf epk pad data br brs r :
  CDSProofBranch.Response br = r → r ≠ [] →
  CdsVerify.VerifyBinaryCDS eid cid nf epk pad data (wire_branch <$> br :: brs) = Ok tt →
  CdsVerify.VerifyBinaryCDS eid cid nf epk pad data
    (wire_branch <$> CDSProofBranch.Make (CDSProofBranch.CommitmentA br)
       (CDSProofBranch.CommitmentB br) (CDSProofBranch.Challenge br) (flip_first r) :: brs) ≠ Ok tt.
Proof.
  intros Hr Hne (pk & R & S & b0 & b1 & Epk & ER & ES & Eb & Hacc)%CdsVerify.VerifyBinaryCDS_iff
    (pk' & R' & S' & b0' & b1' & Epk' & ER' & ES' & Eb' & Hacc')%CdsVerify.VerifyBinaryCDS_iff.
  rewrite !fmap_cons in Eb, Eb'. unfold wire_branch, CdsVerify.to_wire in Eb, Eb'. cbn in Eb'.
  injection Eb as Ea _ Ec Es _. injection Eb' as Ea' _ Ec' Es' _.
  rewrite Ea in Ea'. rewrite Ec in Ec'. apply element_bytes_inj in Ea'.
  assert (R' = R) as -> by (apply element_bytes_inj; congruence).
  assert (CdsVerify.challenge b0 = CdsVerify.challenge b0') as Hc.
  { pose proof (scalar_decode_encode (CdsVerify.challenge b0)) as D.
    rewrite Ec', scalar_decode_encode in D. by injection D. }
  destruct Hacc as (_ & [HA _]%CdsVerify.branch_equations_ok & _).
  destruct Hacc' as (_ & [HA' _]%CdsVerify.branch_equations_ok & _).
  rewrite <- Hc, <- Ea', <- HA in HA'. apply generator_inj in HA'.
  apply (flip_first_neq r Hne). by rewrite Es', HA', <- Es.
Qed.

(** ** The gates *)
Definition refused_at (gate : string) (w : worldstate) (hex : string) : Prop :=
  ∃ format args, SubmitBallot hex (healthy w) tx_start = Err (rejectAt gate format args).

Lemma corrupt_refused w hex h :
  corruptBallotWire hex = Ok h → refused_at "decode" w h.
Proof.
  unfold corruptBallotWire. destruct (DecodeString hex) as [[|x raw]|]; try done.
  rewrite nguard_ok. intros [_ [= <-]].
  destruct (UnmarshalBallot_reserved _ raw (land_reserved x)) as [e He].
  do 2 eexists. unfold SubmitBallot.
  erewrite mbind_run; [|apply mlift_run, wrap_err_ok, DecodeString_EncodeToString].
  apply mbind_err. unfold mlift. rewrite He. reflexivity.
Qed.

(** The checks before the nullifier's, for a ballot that passes them. *)
Lemma spent_refused w B hex raw b p params :
  represents w B → DecodeString hex = Ok raw → UnmarshalBallot raw = Ok b →
  ballot_shape b p → has_election B (Ballot.ElectionId b) params →
  credential_accepted params p →
  B !! KStatus (Ballot.ElectionId b) = Some open_value →
  is_Some (B !! KNullifier (ballot_slot b).1 (ballot_slot b).2) →
  refused_at "nullifier" w hex.
Proof.
  intros HB Hhex Hraw Hsh (praw & Hp & Hpu) Hcr Hst [v Hnf].
  destruct (rep_records _ _ HB (KElection (Ballot.ElectionId b))) as [ke Hke]; [eauto|].
  destruct (rep_records _ _ HB (KStatus (Ballot.ElectionId b))) as [ks Hks]; [eauto|].
  destruct (rep_records _ _ HB (KNullifier (ballot_slot b).1 (ballot_slot b).2)) as [kn Hkn]; [eauto|].
  rewrite <- (rep_lookup _ _ HB _ _ Hke) in Hp. rewrite <- (rep_lookup _ _ HB _ _ Hks) in Hst.
  rewrite <- (rep_lookup _ _ HB _ _ Hkn) in Hnf.
  assert (NullifierValue (Some p) = ballot_nullifier b) as En.
  { unfold ballot_nullifier. by rewrite (bs_presentation _ _ Hsh). }
  unfold refused_at, SubmitBallot. do 2 eexists.
  assert (check_ballot_shape b = Ok p) by by apply check_ballot_shape_ok.
  assert (check_credential (Ballot.ElectionId b) (Some params) p = Ok tt)
    by by apply check_credential_ok.
  handler_run.
  erewrite mbind_run; [| eapply findElection_run; eassumption].
  handler_run.
  rewrite (proj2 (open_status_ok _)), bool_decide_true by done. cbn [negb].
  rewrite En. handler_run. rewrite bool_decide_true by done. reflexivity.
Qed.

Lemma nullifier_refused w B target committed b donor h :
  represents w B → decode_ballot target = Ok b → ballot_accepted B b →
  decode_ballot committed = Ok donor →
  is_Some (B !! KNullifier (Ballot.ElectionId b) (ballot_slot donor).2) →
  reuseNullifier MarshalBallot target committed = Ok h → refused_at "nullifier" w h.
Proof.
  intros HB Hb (p & params & tr & epk & Hsh & Hel & Hcr & Hst & _) Hd Hspent Hre.
  unfold reuseNullifier in Hre. apply rbind_ok in Hre as (d & Hd'%wrap_err_ok & Hre).
  rewrite Hd in Hd'. injection Hd' as <-. apply nguard_ok in Hre as [Hlen Hre].
  apply editBallot_ok in Hre as (b1 & b' & raw & Hb1 & Hset & Hhex & Hraw).
  rewrite Hb in Hb1. injection Hb1 as <-. unfold set_nullifier in Hset.
  rewrite (bs_presentation _ _ Hsh) in Hset.
  destruct (CredentialPresentation.Nullifier p) as [n|] eqn:En; [|done].
  apply nguard_ok in Hset as [_ [= <-]].
  apply Nat.eqb_neq in Hlen.
  eapply spent_refused; [exact HB | exact Hhex | exact Hraw | | exact Hel | | exact Hst | exact Hspent].
  - destruct Hsh as [Hv He Hne Hct _ _ Hsig]. split; try done. unfold ballot_nullifier. cbn. intros E. by rewrite E in Hlen.
  - exact Hcr.
Qed.

Lemma verify_contest_cds b params epk g pr rest br brs r :
  Ballot.WellFormednessProofs b = pr :: rest → CDSProof.Branches pr = br :: brs →
  CDSProofBranch.Response br = r → r ≠ [] → contest_proved b params epk 0 g →
  ∃ b' format args, tamper_first_branch b = Ok b' ∧
    verify_contest b' (ElectionParameters.ContestIds params) epk (0%nat, g) =
      Err (rejectAt "cds" format args).
Proof.
  intros Hpr Hbr Hr Hne (cid & ct & pr' & Hcid & Hct & Hpr' & Hv & Hcds).
  rewrite Hpr in Hpr'. injection Hpr' as <-. rewrite Hbr in Hcds.
  destruct (result_unit_err _ (tampered_cds_rejected _ _ _ _ _ _ _ _ _ Hr Hne Hcds)) as [e He].
  rewrite fmap_cons in He. unfold ballot_nullifier in He.
  do 3 eexists. unfold tamper_first_branch. rewrite Hpr, Hbr, Hr.
  replace (length r =? 0)%nat with false by (symmetry; by destruct r). split; [reflexivity|].
  unfold verify_contest. cbn [fst snd Ballot.Ciphertexts Ballot.WellFormednessProofs
    Ballot.ElectionId Ballot.CredentialPresentation CDSProof.Version CDSProof.Branches lookup list_lookup].
  rewrite Hcid. destruct (Ballot.Ciphertexts b) as [|c cs]; [done|]. injection Hct as ->.
  cbn. rewrite Hv. cbn.
  rewrite He. reflexivity.
Qed.

Lemma proof_refused w B target b h :
  represents w B → decode_ballot target = Ok b → ballot_accepted B b →
  keys_valid (ballot_records b) →
  tamperBallotProof MarshalBallot target = Ok h → refused_at "cds" w h.
Proof.
  intros HB Hb (p & params & tr & epk & Hsh & (praw & Hp & Hpu) & Hcr & Hst & Hnf &
    (traw & Ht & Htu) & Hepk & (Hne & Hl1 & Hl2 & Hc & Hsel)) Hkeys Hre.
  apply editBallot_ok in Hre as (b1 & b' & raw & Hb1 & Htam & Hhex & Hraw).
  rewrite Hb in Hb1. injection Hb1 as <-.
  unfold keys_valid, ballot_records in Hkeys. cbn [ballot_slot] in Hkeys.
  rewrite !Forall_cons, !is_ok_true in Hkeys.
  destruct Hkeys as ([ke Hke] & [ks Hks] & [kn Hkn] & [kd Hkd] & [kb Hkb] & _).
  change ((ballot_slot b).1) with (Ballot.ElectionId b) in Hnf.
  change ((ballot_slot b).2) with (EncodeToString (ballot_nullifier b)) in Hnf.
  rewrite <- (rep_lookup _ _ HB _ _ Hke) in Hp. rewrite <- (rep_lookup _ _ HB _ _ Hks) in Hst.
  rewrite <- (rep_lookup _ _ HB _ _ Hkn) in Hnf. rewrite <- (rep_lookup _ _ HB _ _ Hkd) in Ht.
  assert (NullifierValue (Some p) = ballot_nullifier b) as En.
  { unfold ballot_nullifier. by rewrite (bs_presentation _ _ Hsh). }
  (* the tampered ballot differs in its first proof only *)
  assert (check_ballot_shape b = Ok p) as Hshape by by apply check_ballot_shape_ok.
  destruct (Ballot.WellFormednessProofs b) as [|pr rest] eqn:Epr;
    [unfold tamper_first_branch in Htam; by rewrite Epr in Htam|].
  destruct (CDSProof.Branches pr) as [|br brs] eqn:Ebr;
    [unfold tamper_first_branch in Htam; by rewrite Epr, Ebr in Htam|].
  set (idxs := contestIndicesForPosition _ _) in *.
  destruct idxs as [|g idxs'] eqn:Eidx; [done|].
  destruct (decide (CDSProofBranch.Response br = [])) as [Er|Er].
  { unfold tamper_first_branch in Htam. by rewrite Epr, Ebr, Er in Htam. }
  destruct (verify_contest_cds b params epk g pr rest br brs _ Epr Ebr eq_refl Er
    (Hc 0%nat g eq_refl)) as (b2 & format & args & Hb2 & Hfail).
  rewrite Htam in Hb2. injection Hb2 as <-.
  unfold refused_at. exists format, args.
  assert (Ballot.Version b' = Ballot.Version b ∧ Ballot.ElectionId b' = Ballot.ElectionId b ∧
    Ballot.Ciphertexts b' = Ballot.Ciphertexts b ∧ Ballot.PositionId b' = Ballot.PositionId b ∧
    Ballot.CredentialPresentation b' = Ballot.CredentialPresentation b ∧
    length (Ballot.WellFormednessProofs b') = S (length rest)) as (Ev & Ee & Ec & Ep & Ecp & El).
  { unfold tamper_first_branch in Htam. rewrite Epr, Ebr in Htam.
    apply nguard_ok in Htam as [_ [= <-]]. done. }
  assert (check_ballot_shape b' = Ok p) by (unfold check_ballot_shape; rewrite Ev, Ee, Ec, Ecp; done).
  assert (check_credential (Ballot.ElectionId b) (Some params) p = Ok tt)
    by by apply check_credential_ok.
  assert (check_position b' params = Ok (g :: idxs')).
  { apply check_position_ok. rewrite Ep, Ec, El. fold idxs. rewrite Eidx. cbn in Hl2.
    split_and!; try done. naive_solver. }
  unfold SubmitBallot. handler_run. rewrite Ee.
  erewrite mbind_run; [| eapply findElection_run; eassumption].
  handler_run.
  rewrite (proj2 (open_status_ok _)), bool_decide_true by done. cbn [negb].
  rewrite En. handler_run. rewrite bool_decide_false by by intros [? [=]].
  handler_run.
  apply mbind_err. unfold mlift, verify_ciphertexts. cbn [imap riter].
  change (imap (pair ∘ S) idxs') with (imap (pair ∘ S) idxs').
  rewrite Hfail. reflexivity.
Qed.

(** C5: each of the three ballot attacks the console builds itself is refused
    by exactly the gate its registry entry declares. (The auditor builds the
    others.) Take a ballot that is not cast yet and that the open election would
    accept: flipping a bit of its first CDS response is refused at gate [cds], copying a
    cast ballot's nullifier onto it at gate [nullifier], and corrupting its first
    wire byte at gate [decode]. No earlier gate refuses it and none lets it
    through, so a PASS verdict can only mean the gate under test did its job. *)
Theorem attacks_meet_their_gate w B target b committed donor :
  represents w B → decode_ballot target = Ok b → ballot_accepted B b →
  keys_valid (ballot_records b) → decode_ballot committed = Ok donor →
  is_Some (B !! KNullifier (Ballot.ElectionId b) (ballot_slot donor).2) →
  (∀ h, tamperBallotProof MarshalBallot target = Ok h →
     refused_at (declared_gate "tamper-ballot-proof") w h) ∧
  (∀ h, reuseNullifier MarshalBallot target committed = Ok h →
     refused_at (declared_gate "reused-nullifier") w h) ∧
  (∀ h, corruptBallotWire target = Ok h →
     refused_at (declared_gate "corrupted-ballot-bytes") w h).
Proof.
  intros HB Hb Hacc Hk Hd Hs. split_and!; intros h Hh.
  - change (declared_gate _) with "cds". apply (proof_refused w B target b h); assumption.
  - change (declared_gate _) with "nullifier". apply (nullifier_refused w B target committed b donor h); assumption.
  - change (declared_gate _) with "decode". by apply (corrupt_refused w target).
Qed.
End attacks.
