(* ===== verification/Board.v ===== *)
(** * The public bulletin board: labels and ranked races

    [saksi-campaign/board.go]: how totals become ranked races, and how ties at
    the cut are reported. The theorems: [rankContest] is competition ranking and
    elects exactly the seats when the cut is decided; [groupContests] loses and
    invents no vote. *)
From S2P Require Import Prelude GoText Config.
From Stdlib Require Import Ascii.
From stdpp Require Import sorting.
#[local] Open Scope Z_scope.
Import GoText Config.

Module Board.

Definition SenatePositionID : string := "senator".

Record BoardCandidate := MkCandidate {
  CandID : string; CandLabel : string; Votes : Z; Rank : Z; Elected : bool; Share : float64
}.

Record BoardContest := MkContest {
  ContestID : string; ContestLabel : string; ContestSeats : Z; TotalVotes : Z;
  Contested : bool; ContestCandidates : list BoardCandidate
}.

Definition add_u64 (a b : Z) : Z := (a + b) `mod` max_uint64.

(** ** Labels *)
Definition positionLabels : list (string * string) :=
  [("president", "President"); ("vice-president", "Vice President"); ("senator", "Senator")].

(** The digits of a [^<prefix>(\d+)$] match. *)
Definition digits_after (prefix s : string) : option string :=
  if has_prefix s prefix then
    let d := str_drop (String.length prefix) s in
    if all_digits d then Some d else None
  else None.

Definition posLabel (id : string) : string :=
  match find (λ p, String.eqb p.1 id) positionLabels with
  | Some p => p.2
  | None =>
      match digits_after "position-" id with
      | Some d => "Position " +:+ d
      | None => replace_char "-"%char " " id
      end
  end.

Definition candLabel (id : string) : string :=
  match digits_after "cand" id with
  | Some d =>
      match Atoi d with
      | Some n => "Candidate " +:+ Itoa (wrap64 (n + 1))
      | None => id
      end
  | None => id
  end.

(** ** Ranking one race *)
Definition seatsFor (c : ElectionConfig) (positionID : string) (candidates : Z) : Z :=
  if negb (String.eqb positionID SenatePositionID) || (SenateSeats c <=? 1) then 1
  else
    let s := SenateSeats c in
    let s := if candidates - 1 <? s then candidates - 1 else s in
    if s <? 1 then 1 else s.

(** The order [sort.Slice] sorts by: more votes first, then the id. *)
Definition before (a b : BoardCandidate) : Prop :=
  Votes b < Votes a ∨ (Votes a = Votes b ∧ str_le (CandID a) (CandID b)).

#[global] Instance before_dec : RelDecision before.
Proof. intros a b. unfold before. apply _. Defined.

Definition unranked (kv : string * Z) : BoardCandidate :=
  MkCandidate kv.1 (candLabel kv.1) kv.2 0 false f_zero.

(** The ranking loop from index [i]; [prev] is the candidate at [i - 1]. *)
Fixpoint rank_loop (contested : bool) (seats total i : Z) (prev : option BoardCandidate)
    (l : list BoardCandidate) : list BoardCandidate :=
  match l with
  | [] => []
  | x :: l =>
      let rank := match prev with
                  | Some p => if Votes x =? Votes p then Rank p else i + 1
                  | None => i + 1
                  end in
      let share := if 0 <? total
                   then float_mul (float_div (float_of_Z (Votes x)) (float_of_Z total)) (float_of_Z 100)
                   else Share x in
      let x' := MkCandidate (CandID x) (CandLabel x) (Votes x) rank
                  (negb contested && (i <? seats)) share in
      x' :: rank_loop contested seats total (i + 1) (Some x') l
  end.

(** [votes] is a Go map: the loop over it runs in any order, and neither the
    sum nor the sorted list depends on it. *)
Definition rankContest (c : ElectionConfig) (positionID : string) (votes : gmap string Z) :
    BoardContest :=
  let entries := map_to_list votes in
  let total := foldl (λ t kv, add_u64 t kv.2) 0 entries in
  let label := posLabel positionID in
  if (length entries =? 0)%nat then MkContest positionID label 1 total false []
  else
  let sorted := merge_sort before (unranked <$> entries) in
  let seats := seatsFor c positionID (Z.of_nat (length sorted)) in
  let cutoff := default 0 (Votes <$> sorted !! Z.to_nat (seats - 1)) in
  let atCut := Z.of_nat (length (filter (λ x, Votes x = cutoff) sorted)) in
  let above := Z.of_nat (length (filter (λ x, cutoff < Votes x) sorted)) in
  let contested := (1 <? atCut) && (above <? seats) in
  MkContest positionID label seats total contested
    (rank_loop contested seats total 0 None sorted).

(** ** Grouping flat totals into races *)
(** [strings.LastIndex(id, "/")]: what is before and after the last slash. *)
Fixpoint cut_last (id : string) : option (string * string) :=
  match id with
  | EmptyString => None
  | String c id' =>
      match cut_last id' with
      | Some (p, q) => Some (String c p, q)
      | None => if Ascii.eqb c "/"%char then Some (EmptyString, id') else None
      end
  end.

Definition splitContestID (contestID : string) : string * string :=
  match cut_last contestID with
  | Some pq => pq
  | None => (contestID, "cand0")
  end.

Definition sortedKeys (m : gmap string Z) : list string :=
  merge_sort str_le (map_to_list m).*1.

(** One turn of the grouping loop: the per-position maps and the positions in
    order of first appearance. *)
Definition group_step (totals : gmap string Z)
    (st : gmap string (gmap string Z) * list string) (contestID : string) :
    gmap string (gmap string Z) * list string :=
  let '(position, candidate) := splitContestID contestID in
  let v := default 0 (totals !! contestID) in
  match st.1 !! position with
  | None => (<[position := {[candidate := v]}]> st.1, st.2 ++ [position])
  | Some m => (<[position := <[candidate := v]> m]> st.1, st.2)
  end.

Definition groups (totals : gmap string Z) : gmap string (gmap string Z) * list string :=
  foldl (group_step totals) (∅, []) (sortedKeys totals).

Definition groupContests (c : ElectionConfig) (totals : gmap string Z) : list BoardContest :=
  let '(byPosition, order) := groups totals in
  (λ p, rankContest c p (default ∅ (byPosition !! p))) <$> order.

(** ** Lemmas: sorting and ranks *)
#[global] Instance before_total : Total before.
Proof.
  intros a b. unfold before. destruct (str_le_total (CandID a) (CandID b)), (Z.lt_trichotomy (Votes a) (Votes b)) as [?|[?|?]];
    naive_solver.
Qed.

#[global] Instance before_trans : Transitive before.
Proof.
  intros a b d [?|[??]] [?|[??]]; unfold before; try lia. right. split; [lia|]. by etrans.
Qed.

(** How many of [l] have more votes than [v]. *)
Definition ahead (v : Z) (l : list BoardCandidate) : Z :=
  Z.of_nat (length (filter (λ x, v < Votes x) l)).

Definition by_votes (l : list BoardCandidate) : Prop :=
  StronglySorted (λ a b, Votes b ≤ Votes a) l.

Lemma sorted_by_votes l : by_votes (merge_sort before l).
Proof.
  assert (StronglySorted before (merge_sort before l)) as H
    by (apply (Sorted_StronglySorted _), (Sorted_merge_sort _)).
  unfold by_votes. induction H as [|x l' _ IH Hx]; constructor; [done|].
  eapply Forall_impl; [exact Hx|]. intros y [?|[??]]; lia.
Qed.

Lemma ahead_app v l l' : ahead v (l ++ l') = ahead v l + ahead v l'.
Proof. unfold ahead. rewrite filter_app, length_app. lia. Qed.

Lemma ahead_none v l : Forall (λ x, Votes x ≤ v) l → ahead v l = 0.
Proof.
  intros Hl. unfold ahead. rewrite filter_none; [done|].
  eapply Forall_impl; [exact Hl|]. cbn. lia.
Qed.

Lemma ahead_all v l : Forall (λ x, v < Votes x) l → ahead v l = Z.of_nat (length l).
Proof. intros Hl. unfold ahead. by rewrite filter_all. Qed.

(** What the loop keeps of a candidate and what it sets. *)
Definition ranked_as (all : list BoardCandidate) (contested : bool) (seats i : Z)
    (x x' : BoardCandidate) : Prop :=
  CandID x' = CandID x ∧ Votes x' = Votes x ∧ Rank x' = 1 + ahead (Votes x) all ∧
  Elected x' = negb contested && (i <? seats).

Lemma by_votes_app_le pre l a b : by_votes (pre ++ l) → a ∈ pre → b ∈ l → Votes b ≤ Votes a.
Proof. intros H Ha Hb. by apply (StronglySorted_app_1_elem_of _ _ _ _ _ H). Qed.

Lemma rank_loop_spec contested seats total l pre prev :
  by_votes (pre ++ l) →
  match prev with
  | None => pre = []
  | Some p => ∃ y, last pre = Some y ∧ Votes p = Votes y ∧
                   Rank p = 1 + ahead (Votes y) (pre ++ l)
  end →
  ∀ j x x', l !! j = Some x →
    rank_loop contested seats total (Z.of_nat (length pre)) prev l !! j = Some x' →
    ranked_as (pre ++ l) contested seats (Z.of_nat (length pre + j)) x x'.
Proof.
  revert pre prev. induction l as [|x l IH]; intros pre prev Hs Hprev j y y' Hj Hj'; [done|].
  cbn [rank_loop] in Hj'. set (x' := MkCandidate _ _ _ _ _ _) in Hj'.
  assert (Rank x' = 1 + ahead (Votes x) (pre ++ x :: l)) as Hrank.
  { assert (ahead (Votes x) (x :: l) = 0) as H0.
    { apply ahead_none. apply StronglySorted_app_1_r in Hs.
      apply StronglySorted_cons in Hs as [Hx _]. by constructor; [lia|]. }
    subst x'. cbn. rewrite ahead_app, H0. destruct prev as [p|].
    - destruct Hprev as (y0 & Hlast & Hv & Hr). destruct (Z.eqb_spec (Votes x) (Votes p)) as [E|Hne].
      + rewrite Hr, E, Hv, ahead_app. rewrite <- Hv, <- E, H0. lia.
      + rewrite ahead_all; [lia|]. apply Forall_forall. intros z Hz.
        assert (Votes x ≤ Votes y0) as Hxy.
        { apply (by_votes_app_le pre (x :: l)); [done | by apply last_Some_elem_of |].
          apply list_elem_of_here. }
        apply last_Some in Hlast as [pre' ->]. apply elem_of_app in Hz as [Hz|Hz].
        * assert (Votes y0 ≤ Votes z); [|lia]. apply StronglySorted_app_1_l in Hs.
          apply (by_votes_app_le pre' [y0]); [done | done | apply list_elem_of_here].
        * apply list_elem_of_singleton in Hz as ->. lia.
    - subst pre. done. }
  destruct j as [|j]; cbn in Hj, Hj'.
  - injection Hj as <-. injection Hj' as <-. rewrite Nat.add_0_r. done.
  - replace (Z.of_nat (length pre) + 1) with (Z.of_nat (length (pre ++ [x]))) in Hj'
      by (rewrite length_app; cbn; lia).
    replace (pre ++ x :: l) with ((pre ++ [x]) ++ l) in * by by rewrite <- app_assoc.
    replace (length pre + S j)%nat with (length (pre ++ [x]) + j)%nat
      by (rewrite length_app; cbn; lia).
    apply (IH _ (Some x')); [done | | done | done].
    exists x. rewrite last_snoc. split_and!; done.
Qed.

Lemma length_rank_loop contested seats total i prev l :
  length (rank_loop contested seats total i prev l) = length l.
Proof. revert i prev. induction l; intros; cbn; [done | by f_equal]. Qed.

Lemma seatsFor_bounds c p n : 1 ≤ n → 1 ≤ seatsFor c p n ≤ n.
Proof.
  intros Hn. unfold seatsFor. destruct (negb _ || _); [lia|].
  repeat match goal with |- context [?a <? ?b] => destruct (Z.ltb_spec a b) end; lia.
Qed.

(** The candidates at the head of a list, selected by their index. *)
Lemma elected_count (l : list BoardCandidate) seats :
  0 ≤ seats ≤ Z.of_nat (length l) →
  (∀ j x, l !! j = Some x → Elected x = (Z.of_nat j <? seats)) →
  Z.of_nat (length (filter (λ x, Elected x = true) l)) = seats.
Proof.
  intros Hs He. rewrite <- (take_drop (Z.to_nat seats) l), filter_app.
  rewrite filter_all, filter_none, app_nil_r, length_take.
  - lia.
  - apply Forall_lookup. intros j x Hx. rewrite lookup_drop in Hx. rewrite (He _ _ Hx).
    rewrite (proj2 (Z.ltb_ge _ _)); [done | lia].
  - apply Forall_lookup. intros j x Hx. apply lookup_take_Some in Hx as [Hx Hlt].
    rewrite (He _ _ Hx). apply Z.ltb_lt. lia.
Qed.

(** ** Lemmas: the cut *)
Section cut.
Context (l : list BoardCandidate) (seats : Z) (x0 : BoardCandidate).
Hypothesis Hsorted : by_votes l.
Hypothesis Hseats : 1 ≤ seats ≤ Z.of_nat (length l).
Hypothesis Hx0 : l !! Z.to_nat (seats - 1) = Some x0.

Lemma lookup_by_votes i j x y :
  (i ≤ j)%nat → l !! i = Some x → l !! j = Some y → Votes y ≤ Votes x.
Proof.
  intros Hij Hi Hj. destruct (decide (i = j)) as [->|]; [assert (x = y) by congruence; subst; lia|].
  rewrite <- (take_drop j l) in Hsorted.
  apply (by_votes_app_le (take j l) (drop j l)); [done | |].
  - apply (list_elem_of_lookup_2 _ i). rewrite lookup_take_lt by lia. done.
  - apply (list_elem_of_lookup_2 _ 0). by rewrite lookup_drop, Nat.add_0_r.
Qed.

(** Fewer than [seats] candidates are ahead of the cut. *)
Lemma ahead_of_cut : ahead (Votes x0) l < seats.
Proof.
  rewrite <- (take_drop (Z.to_nat (seats - 1)) l), ahead_app.
  rewrite (ahead_none _ (drop _ _)).
  - unfold ahead. pose proof (length_filter (λ x, Votes x0 < Votes x) (take (Z.to_nat (seats - 1)) l)) as H.
    rewrite length_take in H. lia.
  - apply Forall_lookup. intros j x Hj. rewrite lookup_drop in Hj.
    eapply lookup_by_votes; [|exact Hx0 | exact Hj]. lia.
Qed.

(** When one candidate alone is at the cut, it separates the two sides. *)
Lemma cut_separates i j x y :
  (length (filter (λ x, Votes x = Votes x0) l) ≤ 1)%nat →
  Z.of_nat i < seats ≤ Z.of_nat j → l !! i = Some x → l !! j = Some y → Votes y < Votes x.
Proof.
  intros Hone [Hi Hj] Hx Hy.
  assert (Votes y ≤ Votes x0) by (eapply lookup_by_votes; [|exact Hx0 | exact Hy]; lia).
  assert (Votes x0 ≤ Votes x) by (eapply lookup_by_votes; [|exact Hx | exact Hx0]; lia).
  destruct (decide (Votes x = Votes y)); [|lia].
  assert (2 ≤ length (filter (λ x, Votes x = Votes x0) l))%nat; [|lia].
  eapply (filter_two _ l (Z.to_nat (seats - 1)) j); [lia | exact Hx0 | exact Hy | lia | lia].
Qed.
End cut.

Lemma rank_loop_lookup l contested seats total j x' :
  by_votes l → rank_loop contested seats total 0 None l !! j = Some x' →
  ∃ x, l !! j = Some x ∧ ranked_as l contested seats (Z.of_nat j) x x'.
Proof.
  intros Hs Hj. destruct (l !! j) as [x|] eqn:E.
  - exists x. split; [done|]. by eapply (rank_loop_spec contested seats total l [] None).
  - apply lookup_ge_None in E. apply lookup_lt_Some in Hj. rewrite length_rank_loop in Hj. lia.
Qed.

Lemma rank_loop_votes l contested seats total :
  by_votes l →
  (λ x, (CandID x, Votes x)) <$> rank_loop contested seats total 0 None l =
  (λ x, (CandID x, Votes x)) <$> l.
Proof.
  intros Hs. apply list_eq. intros j. rewrite !list_lookup_fmap.
  destruct (rank_loop _ _ _ _ _ l !! j) as [x'|] eqn:E.
  - destruct (rank_loop_lookup _ _ _ _ _ _ Hs E) as (x & Hx & H1 & H2 & _).
    rewrite Hx. cbn. by rewrite H1, H2.
  - apply lookup_ge_None in E. rewrite length_rank_loop in E.
    by rewrite (proj2 (lookup_ge_None l j)).
Qed.

Lemma ahead_same_votes v l l' :
  (λ x, (CandID x, Votes x)) <$> l = (λ x, (CandID x, Votes x)) <$> l' → ahead v l = ahead v l'.
Proof.
  unfold ahead. revert l'. induction l as [|x l IH]; intros [|x' l']; try done.
  rewrite !fmap_cons. intros [= _ E E']. specialize (IH _ E'). rewrite !filter_cons, E.
  case_decide; cbn; lia.
Qed.

Lemma tied_same_votes v l l' :
  (λ x, (CandID x, Votes x)) <$> l = (λ x, (CandID x, Votes x)) <$> l' →
  length (filter (λ x, Votes x = v) l) = length (filter (λ x, Votes x = v) l').
Proof.
  revert l'. induction l as [|x l IH]; intros [|x' l']; try done.
  rewrite !fmap_cons. intros [= _ E E']. specialize (IH _ E'). rewrite !filter_cons, E.
  case_decide; cbn; lia.
Qed.

(** The ranked race over a sorted list of candidates. *)
Lemma ranked_race l seats contested total :
  by_votes l → 1 ≤ seats ≤ Z.of_nat (length l) →
  let cutoff := default 0 (Votes <$> l !! Z.to_nat (seats - 1)) in
  contested = (1 <? Z.of_nat (length (filter (λ x, Votes x = cutoff) l)))
              && (Z.of_nat (length (filter (λ x, cutoff < Votes x) l)) <? seats) →
  let cs := rank_loop contested seats total 0 None l in
  (∀ x, x ∈ cs → Rank x = 1 + ahead (Votes x) cs) ∧
  (contested = true ↔
     ∃ x0, cs !! Z.to_nat (seats - 1) = Some x0 ∧
       (2 ≤ length (filter (λ x, Votes x = Votes x0) cs))%nat) ∧
  (contested = true → ∀ x, x ∈ cs → Elected x = false) ∧
  (contested = false →
     Z.of_nat (length (filter (λ x, Elected x = true) cs)) = seats ∧
     ∀ x y, x ∈ cs → y ∈ cs → Elected x = true → Elected y = false → Votes y < Votes x).
Proof.
  intros Hs Hb cutoff Hcon cs.
  pose proof (rank_loop_votes l contested seats total Hs) as Hkeys. fold cs in Hkeys.
  assert (length cs = length l) as Hlen by apply length_rank_loop.
  destruct (lookup_lt_is_Some_2 l (Z.to_nat (seats - 1))) as [x0 Hx0]; [lia|].
  assert (cutoff = Votes x0) as Hcut by (unfold cutoff; by rewrite Hx0).
  rewrite Hcut in Hcon.
  pose proof (ahead_of_cut l seats x0 Hs Hb Hx0) as Habove. unfold ahead in Habove.
  rewrite (proj2 (Z.ltb_lt _ _) Habove), andb_true_r in Hcon.
  assert (∀ x, x ∈ cs → ∃ j y, cs !! j = Some x ∧ l !! j = Some y ∧
            ranked_as l contested seats (Z.of_nat j) y x) as Hin.
  { intros x [j Hj]%list_elem_of_lookup. destruct (rank_loop_lookup _ _ _ _ _ _ Hs Hj) as (y & ? & ?).
    eauto. }
  split_and!.
  - intros x (j & y & _ & _ & _ & Hv & Hr & _)%Hin. rewrite Hr, Hv. f_equal. symmetry.
    by apply ahead_same_votes.
  - destruct (lookup_lt_is_Some_2 cs (Z.to_nat (seats - 1))) as [c0 Hc0]; [lia|].
    destruct (rank_loop_lookup _ _ _ _ _ _ Hs Hc0) as (y & Hy & _ & Hv & _).
    assert (y = x0) as -> by congruence. rewrite Hcon, Z.ltb_lt.
    rewrite <- (tied_same_votes _ _ _ Hkeys), <- Hv. split.
    + intros. exists c0. split; [done | lia].
    + intros (? & Hq & ?). rewrite Hc0 in Hq. injection Hq as <-. lia.
  - intros E x (j & y & _ & _ & _ & _ & _ & He)%Hin. by rewrite He, E.
  - intros E. rewrite E in Hcon. symmetry in Hcon. apply Z.ltb_ge in Hcon. split.
    + apply elected_count; [lia|]. intros j x Hj.
      destruct (rank_loop_lookup _ _ _ _ _ _ Hs Hj) as (y & _ & _ & _ & _ & He). by rewrite He, E.
    + intros x y (i & x1 & _ & Hx1 & _ & Hvx & _ & Hex)%Hin (j & y1 & _ & Hy1 & _ & Hvy & _ & Hey)%Hin Ex Ey.
      rewrite Hex, E in Ex. rewrite Hey, E in Ey. cbn in Ex, Ey. rewrite Hvx, Hvy.
      apply Z.ltb_lt in Ex. apply Z.ltb_ge in Ey.
      apply (cut_separates l seats x0 Hs Hb Hx0 i j); [lia | lia | done | done].
Qed.

Lemma rankContest_entries c p votes :
  votes ≠ ∅ →
  ((λ x, (CandID x, Votes x)) <$> ContestCandidates (rankContest c p votes)) ≡ₚ map_to_list votes.
Proof.
  intros Hne. unfold rankContest.
  assert (length (map_to_list votes) ≠ 0%nat) as Hl.
  { intros E. apply nil_length_inv in E. by apply map_to_list_empty_iff in E. }
  rewrite (proj2 (Nat.eqb_neq _ _) Hl). cbn [ContestCandidates].
  rewrite rank_loop_votes by apply sorted_by_votes.
  rewrite (merge_sort_Permutation before), <- list_fmap_compose.
  rewrite (list_fmap_ext _ id), list_fmap_id; [done|]. by intros ? [].
Qed.

(** The board ranks and elects correctly. For a race with votes on record:
    the published candidates are exactly the recorded ones with their totals,
    each ranked one more than the number of candidates strictly ahead of it (so
    ties share the lower rank); a race is reported contested exactly when a
    second candidate is level with the one at the last elected place, and then
    nobody is elected; otherwise exactly the seats are filled and every elected
    candidate is strictly ahead of every other. *)
Theorem rankContest_correct c p votes :
  votes ≠ ∅ →
  let r := rankContest c p votes in
  let cs := ContestCandidates r in
  ((λ x, (CandID x, Votes x)) <$> cs) ≡ₚ map_to_list votes ∧
  1 ≤ ContestSeats r ≤ Z.of_nat (length cs) ∧
  (∀ x, x ∈ cs → Rank x = 1 + ahead (Votes x) cs) ∧
  (Contested r = true ↔
     ∃ x0, cs !! Z.to_nat (ContestSeats r - 1) = Some x0 ∧
       (2 ≤ length (filter (λ x, Votes x = Votes x0) cs))%nat) ∧
  (Contested r = true → ∀ x, x ∈ cs → Elected x = false) ∧
  (Contested r = false →
     Z.of_nat (length (filter (λ x, Elected x = true) cs)) = ContestSeats r ∧
     ∀ x y, x ∈ cs → y ∈ cs → Elected x = true → Elected y = false → Votes y < Votes x).
Proof.
  intros Hne r cs. split; [by apply rankContest_entries|]. subst r cs. unfold rankContest.
  assert (length (map_to_list votes) ≠ 0%nat) as Hl.
  { intros E. apply nil_length_inv in E. by apply map_to_list_empty_iff in E. }
  rewrite (proj2 (Nat.eqb_neq _ _) Hl). cbn [ContestCandidates ContestSeats Contested].
  set (l := merge_sort before _).
  assert (by_votes l) as Hs by apply sorted_by_votes.
  assert (l ≡ₚ unranked <$> map_to_list votes) as Hperm by apply merge_sort_Permutation.
  assert (length l = length (map_to_list votes)) as Hlen by by rewrite Hperm, length_fmap.
  pose proof (seatsFor_bounds c p (Z.of_nat (length l)) ltac:(lia)) as Hb.
  split_and!.
  - lia.
  - rewrite length_rank_loop. lia.
  - by apply ranked_race.
  - by apply ranked_race.
  - by apply ranked_race.
  - by apply ranked_race.
Qed.

Definition senate_config (seats : Z) : ElectionConfig :=
  MkElectionConfig "E" [MkTrustee "A"] 1 3 4 20 "uniform" "offline" seats 8 f_zero f_zero None
    false None None.

Lemma rankContest_correct_witness :
  let r := rankContest (senate_config 2) "senator" {["cand0" := 5; "cand1" := 3; "cand2" := 4]} in
  Contested r = false ∧ Z.of_nat (length (filter (λ x, Elected x = true) (ContestCandidates r))) = 2.
Proof.
  intros r.
  destruct (rankContest_correct (senate_config 2) "senator"
    {["cand0" := 5; "cand1" := 3; "cand2" := 4]} (insert_non_empty _ _ _)) as (_ & _ & _ & _ & _ & Hdec).
  fold r in Hdec. assert (Contested r = false) as E by (vm_compute; reflexivity).
  split; [done|]. destruct (Hdec E) as [Hn _]. rewrite Hn. vm_compute. reflexivity.
Defined.

(** Two candidates level at the cut are reported contested even when the seats
    left are enough for both: 5, 5 and 3 votes over two seats elects nobody. *)
Lemma exact_fit_is_contested :
  let r := rankContest (senate_config 2) "senator" {["cand0" := 5; "cand1" := 5; "cand2" := 3]} in
  Contested r = true ∧ ContestSeats r = 2 ∧
  (Elected <$> ContestCandidates r) = [false; false; false].
Proof. vm_compute. done. Qed.

(** The races come in byte order of the contest ids, not in ballot order. *)
Lemma senator_before_vice_president :
  (ContestID <$> groupContests (senate_config 2)
     {["president/cand0" := 1; "vice-president/cand0" := 1; "senator/cand0" := 1]}) =
  ["president"; "senator"; "vice-president"].
Proof. vm_compute. done. Qed.

(** ** Lemmas: contest ids and grouping *)
Lemma cut_last_Some s p q : cut_last s = Some (p, q) → s = p +:+ "/" +:+ q.
Proof.
  revert p. induction s as [|c s IH]; intros p; cbn [cut_last]; [done|].
  destruct (cut_last s) as [[p' q']|] eqn:E.
  - intros [= <- <-]. by rewrite (IH p' eq_refl) at 1.
  - destruct (Ascii.eqb_spec c "/"%char) as [->|]; [|done]. by intros [= <- <-].
Qed.

(** An id with a slash is determined by its two halves. *)
Lemma split_inj k k' :
  is_Some (cut_last k) → is_Some (cut_last k') → splitContestID k = splitContestID k' → k = k'.
Proof.
  intros [[p q] E] [[p' q'] E']. unfold splitContestID. rewrite E, E'. intros [= <- <-].
  apply cut_last_Some in E, E'. congruence.
Qed.

Lemma sortedKeys_perm m : sortedKeys m ≡ₚ (map_to_list m).*1.
Proof. apply merge_sort_Permutation. Qed.

Lemma elem_of_sortedKeys m k : k ∈ sortedKeys m ↔ is_Some (m !! k).
Proof.
  rewrite sortedKeys_perm, list_elem_of_fmap. split.
  - intros ([k' v] & -> & H%elem_of_map_to_list). eauto.
  - intros [v Hv]. exists (k, v). by rewrite elem_of_map_to_list.
Qed.

Lemma NoDup_sortedKeys m : NoDup (sortedKeys m).
Proof. rewrite sortedKeys_perm. apply NoDup_fst_map_to_list. Qed.

(** What the grouping loop has built from the ids [ks]. *)
Definition grouped (totals : gmap string Z) (ks : list string)
    (st : gmap string (gmap string Z) * list string) : Prop :=
  NoDup st.2 ∧ (∀ p, p ∈ st.2 ↔ is_Some (st.1 !! p)) ∧
  (∀ p cand v, (default ∅ (st.1 !! p)) !! cand = Some v ↔
     ∃ k, k ∈ ks ∧ splitContestID k = (p, cand) ∧ v = default 0 (totals !! k)) ∧
  (∀ p, p ∈ st.2 → default ∅ (st.1 !! p) ≠ ∅).

Lemma group_step_ok totals ks st k :
  (∀ k, k ∈ ks → is_Some (cut_last k)) → is_Some (cut_last k) → k ∉ ks →
  grouped totals ks st → grouped totals (ks ++ [k]) (group_step totals st k).
Proof.
  intros Hks Hk Hnew (Hnd & Hdom & Hval & Hne). unfold group_step.
  destruct (splitContestID k) as [p c] eqn:E.
  set (v := default 0 (totals !! k)).
  assert (∀ k', k' ∈ ks → splitContestID k' ≠ (p, c)) as Hfresh.
  { intros k' Hin Heq. rewrite <- E in Heq. apply split_inj in Heq; [by subst | by apply Hks | done]. }
  set (m := default ∅ (st.1 !! p)) in *.
  assert (grouped totals (ks ++ [k])
    (<[p := <[c := v]> m]> st.1, if bool_decide (is_Some (st.1 !! p)) then st.2 else st.2 ++ [p])) as Hg.
  { split_and!; cbn [fst snd].
    - case_bool_decide as Hp; [done|]. apply NoDup_app. split_and!; [done | | apply NoDup_singleton].
      intros q Hq ->%list_elem_of_singleton. by apply Hp, Hdom.
    - intros q. destruct (decide (q = p)) as [->|Hqp].
      + rewrite lookup_insert_eq. case_bool_decide as Hp; [|set_solver].
        rewrite Hdom. naive_solver.
      + rewrite lookup_insert_ne by done. pose proof (Hdom q). case_bool_decide; set_solver.
    - intros q c' v'.
      assert (∀ k', k' ∈ ks ++ [k] ↔ k' ∈ ks ∨ k' = k) as Hsnoc by set_solver.
      setoid_rewrite Hsnoc.
      destruct (decide (q = p)) as [->|Hqp].
      + rewrite lookup_insert_eq. change (default ∅ (Some (<[c := v]> m))) with (<[c := v]> m).
        destruct (decide (c' = c)) as [->|Hc].
        * rewrite lookup_insert_eq. split; [intros [= <-]; eauto|].
          intros (k' & [Hin| ->] & Hs & ->); [|done]. by destruct (Hfresh k').
        * rewrite lookup_insert_ne by done. unfold m. rewrite Hval. split; [naive_solver|].
          intros (k' & [Hin| ->] & Hs & ->); [eauto | congruence].
      + rewrite lookup_insert_ne by done. rewrite Hval. split; [naive_solver|].
        intros (k' & [Hin| ->] & Hs & ->); [eauto | congruence].
    - intros q Hq. destruct (decide (q = p)) as [->|Hqp].
      + rewrite lookup_insert_eq. change (default ∅ (Some (<[c := v]> m))) with (<[c := v]> m).
        apply insert_non_empty.
      + rewrite lookup_insert_ne by done. apply Hne. case_bool_decide; set_solver. }
  subst m. destruct (st.1 !! p) as [m|] eqn:Em.
  - rewrite bool_decide_true in Hg by eauto. done.
  - rewrite bool_decide_false in Hg by by intros [? [=]]. done.
Qed.

Lemma groups_ok totals :
  (∀ k, is_Some (totals !! k) → is_Some (cut_last k)) →
  grouped totals (sortedKeys totals) (groups totals).
Proof.
  intros Hsl. unfold groups.
  assert (∀ k, k ∈ sortedKeys totals → is_Some (cut_last k)) as Hk
    by (intros; by apply Hsl, elem_of_sortedKeys).
  pose proof (NoDup_sortedKeys totals) as Hnd. revert Hk Hnd.
  induction (sortedKeys totals) as [|k ks IH] using rev_ind; intros Hk Hnd.
  - split; [constructor|]. cbn. split; [|split].
    + intros p. rewrite lookup_empty. split; [by intros ?%not_elem_of_nil | by intros []].
    + intros p cand v. rewrite lookup_empty. cbn. rewrite lookup_empty. split; [done|].
      by intros (k & ?%not_elem_of_nil & _).
    + by intros p ?%not_elem_of_nil.
  - rewrite foldl_app. cbn [foldl]. apply NoDup_app in Hnd as (Hnd & Hdis & _).
    apply group_step_ok; [| | | apply IH; [|done]]; set_solver.
Qed.

(** the board shows every total once. When every contest id has a slash (as
    every generator id "<position>/cand<N>" has), the races are for pairwise
    different positions, and a candidate line with [v] votes appears in the race
    of position [p] exactly when the totals hold [v] under an id that splits into
    [p] and that candidate. *)
Theorem groupContests_correct c totals :
  (∀ k, is_Some (totals !! k) → is_Some (cut_last k)) →
  NoDup (ContestID <$> groupContests c totals) ∧
  ∀ p cand v,
    (∃ r x, r ∈ groupContests c totals ∧ ContestID r = p ∧ x ∈ ContestCandidates r ∧
            CandID x = cand ∧ Votes x = v) ↔
    ∃ k, totals !! k = Some v ∧ splitContestID k = (p, cand).
Proof.
  intros Hsl. pose proof (groups_ok totals Hsl) as (Hnd & Hdom & Hval & Hne).
  unfold groupContests. destruct (groups totals) as [byPosition order]. cbn [fst snd] in *.
  split.
  { rewrite <- list_fmap_compose. rewrite (list_fmap_ext _ id), list_fmap_id; [done|].
    intros ? q _. cbn. unfold rankContest. by destruct (_ =? 0)%nat. }
  intros p cand v.
  assert ((∃ k, totals !! k = Some v ∧ splitContestID k = (p, cand)) ↔
          default ∅ (byPosition !! p) !! cand = Some v) as ->.
  { rewrite Hval. setoid_rewrite elem_of_sortedKeys. split.
    - intros (k & Hk & Hs). exists k. split_and!; [eauto | done | by rewrite Hk].
    - intros (k & [w Hw] & Hs & ->). exists k. by rewrite Hw. }
  assert (∀ q m, m ≠ ∅ → ContestID (rankContest c q m) = q ∧
    ∀ x : string * Z, x ∈ ((λ x, (CandID x, Votes x)) <$> ContestCandidates (rankContest c q m)) ↔
      m !! x.1 = Some x.2) as Hrank.
  { intros q m Hm. split; [unfold rankContest; by destruct (_ =? 0)%nat|].
    intros [a w]. rewrite (rankContest_entries c q m Hm). by rewrite elem_of_map_to_list. }
  split.
  - intros (r & x & (q & -> & Hq)%list_elem_of_fmap & <- & Hx & <- & <-).
    destruct (Hrank q _ (Hne _ Hq)) as [-> Hl]. apply (Hl (CandID x, Votes x)).
    by apply (list_elem_of_fmap_2 (λ x, (CandID x, Votes x))).
  - intros Hv. assert (p ∈ order) as Hp.
    { apply Hdom. destruct (byPosition !! p); [eauto | by cbn in Hv; rewrite lookup_empty in Hv]. }
    destruct (Hrank p _ (Hne _ Hp)) as [Hid Hl].
    pose proof (proj2 (Hl (cand, v)) Hv) as (x & Ex & Hx)%list_elem_of_fmap.
    injection Ex as -> ->. exists (rankContest c p (default ∅ (byPosition !! p))), x.
    split_and!; try done. by apply (list_elem_of_fmap_2 (λ p, rankContest c p (default ∅ (byPosition !! p)))).
Qed.

Lemma groupContests_correct_witness :
  ∃ r x, r ∈ groupContests (senate_config 2) {["senator/cand1" := 7]} ∧
    ContestID r = "senator" ∧ x ∈ ContestCandidates r ∧ CandID x = "cand1" ∧ Votes x = 7.
Proof.
  apply (groupContests_correct (senate_config 2) {["senator/cand1" := 7]}).
  - intros k [v [<- _]%lookup_singleton_Some]. vm_compute. eauto.
  - exists "senator/cand1". split; [apply lookup_singleton_eq | reflexivity].
Defined.

End Board.
