(* ===== verification/Journal.v ===== *)
(** * The run journal

    [saksi-campaign/journal.go]: the append-only event log with its
    asynchronous progress writer, as the interleaving of the goroutines that
    stamp events, the writer goroutine and the goroutine that closes the
    journal; and the finaliser that decides whether a run failed. *)
From S2P Require Import Prelude GoText Board.
#[local] Open Scope Z_scope.
Import GoText.

Module Journal.

Definition progressEvent : string := "ballots.progress".

Definition progressQueue : nat := 64.

Definition isCheckpoint (event : string) : bool :=
  if String.eqb event "run.start" || String.eqb event "run.end" ||
     String.eqb event "ballots.progress" then true
  else has_prefix event "stage." || has_prefix event "rep." || has_prefix event "segment.".

(** A journal line. [stamp] numbers the calls to [Stamp]: it stands for the
    fields the line was stamped with and keeps two equal lines apart. *)
Record line := MkLine { stamp : nat; name : string; coalesced_total : nat }.

#[global] Instance line_eq_dec : EqDecision line.
Proof. solve_decision. Defined.

Definition is_progress (l : line) : bool := String.eqb (name l) progressEvent.

(** Where a goroutine inside [Stamp] or [Close] is: asking whether the writer
    has retired, reading the count of coalesced lines, sending a progress line,
    making room for it, sending it again; offering a barrier, waiting for it,
    writing its own line; closing. *)
Inductive pc :=
| PCheck (l : line)
| PLoad (l : line)
| PSend (l : line)
| PPop (l : line)
| PResend (l : line)
| SOffer (l : line)
| SWait (l : line)
| SWrite (l : line)
| COffer
| CWait
| CClose.

(** The writer goroutine: at the top of its loop, in the blocking select,
    draining before it releases the barrier of a goroutine, or retired. A line
    it has received and not written yet is in [held]. *)
Inductive wpc := WTop | WBlocked | WDrain (t : nat) (stop : bool) | WDone.

Record journal := MkJournal {
  file : list line; synced : nat; failed : bool;
  queue : list line; coalesced : nat; held : option line; writer : wpc;
  threads : gmap nat pc;
  (* how many calls there were, the progress lines put on the queue, the ones
     coalesced away, and what had been put on the queue when a call began *)
  calls : nat; handed : list line; lost : list line; before : gmap nat (list line)
}.

(** What the disk does with one write. *)
Inductive io := IoOk | WriteFails | SyncFails.

Definition set_threads (f : gmap nat pc → gmap nat pc) (j : journal) : journal :=
  MkJournal (file j) (synced j) (failed j) (queue j) (coalesced j) (held j) (writer j)
    (f (threads j)) (calls j) (handed j) (lost j) (before j).

Definition set_writer (w : wpc) (j : journal) : journal :=
  MkJournal (file j) (synced j) (failed j) (queue j) (coalesced j) (held j) w
    (threads j) (calls j) (handed j) (lost j) (before j).

Definition writeLine (l : line) (checkpoint : bool) (d : io) (j : journal) : journal :=
  let put synced failed :=
    MkJournal (file j ++ [l]) synced failed (queue j) (coalesced j) (held j) (writer j)
      (threads j) (calls j) (handed j) (lost j) (before j) in
  if failed j then j
  else match d with
  | WriteFails =>
      MkJournal (file j) (synced j) true (queue j) (coalesced j) (held j) (writer j)
        (threads j) (calls j) (handed j) (lost j) (before j)
  | SyncFails => if checkpoint then put (synced j) true else put (synced j) false
  | IoOk => put (if checkpoint then S (length (file j)) else synced j) false
  end.

(** The line goes on the queue. *)
Definition enqueue (l : line) (j : journal) : journal :=
  MkJournal (file j) (synced j) (failed j) (queue j ++ [l]) (coalesced j) (held j) (writer j)
    (threads j) (calls j) (handed j ++ [l]) (lost j) (before j).

(** A line is coalesced away: [h] was on the queue, which is now [q]. *)
Definition coalesce (l : line) (q : list line) (j : journal) : journal :=
  MkJournal (file j) (synced j) (failed j) q (S (coalesced j)) (held j) (writer j)
    (threads j) (calls j) (handed j) (lost j ++ [l]) (before j).

Definition receive (h : line) (q : list line) (j : journal) : journal :=
  MkJournal (file j) (synced j) (failed j) q (coalesced j) (Some h) (writer j)
    (threads j) (calls j) (handed j) (lost j) (before j).

Definition put_down (j : journal) : journal :=
  MkJournal (file j) (synced j) (failed j) (queue j) (coalesced j) None (writer j)
    (threads j) (calls j) (handed j) (lost j) (before j).

Definition retired (j : journal) : bool := match writer j with WDone => true | _ => false end.

Definition has_room (j : journal) : bool := (length (queue j) <? progressQueue)%nat.

Definition with_total (n : nat) (l : line) : line := MkLine (stamp l) (name l) n.

(** [Stamp] is called: the line is made. *)
Definition call_stamp (t : nat) (event : string) (j : journal) : journal :=
  let l := MkLine (calls j) event 0 in
  MkJournal (file j) (synced j) (failed j) (queue j) (coalesced j) (held j) (writer j)
    (<[t := if String.eqb event progressEvent then PCheck l else SOffer l]> (threads j))
    (S (calls j)) (handed j) (lost j) (<[calls j := handed j]> (before j)).

(** The next step of a goroutine inside [Stamp] or [Close]; [None] when it is
    blocked. *)
Definition thread_step (t : nat) (p : pc) (d : io) (j : journal) : option journal :=
  let return_ j := set_threads (delete t) j in
  let goto p j := set_threads <[t := p]> j in
  match p with
  | PCheck l => if retired j then Some (return_ j) else Some (goto (PLoad l) j)
  | PLoad l =>
      Some (goto (PSend (if (0 <? coalesced j)%nat then with_total (coalesced j) l else l)) j)
  | PSend l =>
      if has_room j then Some (return_ (enqueue l j)) else Some (goto (PPop l) j)
  | PPop l =>
      match queue j with
      | h :: q => Some (goto (PResend (with_total (S (coalesced j)) l)) (coalesce h q j))
      | [] => Some (goto (PResend l) j)
      end
  | PResend l =>
      if has_room j then Some (return_ (enqueue l j)) else Some (return_ (coalesce l (queue j) j))
  | SOffer l =>
      match writer j, held j with
      | WDone, _ => Some (goto (SWrite l) j)
      | WBlocked, None => Some (goto (SWait l) (set_writer (WDrain t false) j))
      | _, _ => None
      end
  | SWait l => if retired j then Some (goto (SWrite l) j) else None
  | SWrite l => Some (return_ (writeLine l (isCheckpoint (name l)) d j))
  | COffer =>
      match writer j, held j with
      | WDone, _ => Some (goto CClose j)
      | WBlocked, None => Some (goto CWait (set_writer (WDrain t true) j))
      | _, _ => None
      end
  | CWait => if retired j then Some (goto CClose j) else None
  | CClose => Some (return_ j)
  end.

(** The barrier's channel is closed: its goroutine goes on. *)
Definition release (t : nat) (j : journal) : journal :=
  match threads j !! t with
  | Some (SWait l) => set_threads <[t := SWrite l]> j
  | Some CWait => set_threads <[t := CClose]> j
  | _ => j
  end.

(** The next step of the writer goroutine. *)
Definition writer_step (d : io) (j : journal) : option journal :=
  match held j with
  | Some l => Some (put_down (writeLine l true d j))
  | None =>
      match writer j, queue j with
      | WDone, _ => None
      | WTop, h :: q => Some (receive h q j)
      | WTop, [] => Some (set_writer WBlocked j)
      | WBlocked, h :: q => Some (set_writer WTop (receive h q j))
      | WBlocked, [] => None
      | WDrain _ _, h :: q => Some (receive h q j)
      | WDrain t stop, [] =>
          Some (set_writer (if stop then WDone else WTop) (release t j))
      end
  end.

(** Who runs next. *)
Inductive schedule :=
| CallStamp (t : nat) (event : string)
| CallClose (t : nat)
| RunThread (t : nat) (d : io)
| RunWriter (d : io).

Definition journal_step (c : schedule) (j : journal) : option journal :=
  match c with
  | CallStamp t event =>
      match threads j !! t with Some _ => None | None => Some (call_stamp t event j) end
  | CallClose t =>
      match threads j !! t with
      | Some _ => None
      | None => Some (set_threads <[t := COffer]> j)
      end
  | RunThread t d =>
      match threads j !! t with Some p => thread_step t p d j | None => None end
  | RunWriter d => writer_step d j
  end.

(** [OpenJournal]: the environment snapshot is line 1, synced at once. *)
Definition newJournal : journal :=
  MkJournal [MkLine 0 "env" 0] 1 false [] 0 None WTop ∅ 1 [] [] ∅.

Fixpoint run_journal (cs : list schedule) (j : journal) : option journal :=
  match cs with
  | [] => Some j
  | c :: cs => match journal_step c j with Some j => run_journal cs j | None => None end
  end.

(** ** The finaliser *)
Record Segment := MkSegment {
  Index : Z; SCommitted : Z; WindowMs : Z;
  TPS : float64; P50Ms : float64; DriverCeilingTPS : float64
}.

Record FinaliseInput := MkFinalise {
  Voters : Z; Positions : Z; Segments : list Segment; Dropped : Z; ReconcileOK : bool;
  ReconcileErr : option goerr; EByContest : gmap string Z; StageErr : option goerr;
  NothingSubmitted : bool; Interrupted : bool; Bounded : bool; Resumed : bool;
  LedgerAudit : string; LedgerMatchesLocal : option bool; SecurityRun : bool
}.

Record FinaliseResult := MkFinal {
  Failed : bool; Reason : option goerr; SustainedTPS : option float64; ArrivalTPS : float64;
  ScalingLimit : string; Sustained : bool
}.

(** The first contest, in sorted order, with a nonzero E. *)
Definition first_nonzero (m : gmap string Z) : option (string * Z) :=
  snd <$> list_find (λ p : string * Z, p.2 ≠ 0)
            (omap (λ c, (c,.) <$> m !! c) (Board.sortedKeys m)).
(** The failed-run predicate and its reason, first clause first. *)
Definition runFailed (f : FinaliseInput) : bool * option goerr :=
  match StageErr f with
  | Some e => (true, Some (Errorf "stage_error: %v" [AErr e]))
  | None =>
  if NothingSubmitted f then (true, Some (Errorf "nothing_submitted" []))
  else if 0 <? Dropped f then (true, Some (Errorf "dropped: %d" [AInt (Dropped f)]))
  else if negb (ReconcileOK f) then
    (true, Some match ReconcileErr f with
                | Some e => Errorf "reconcile_mismatch: %v" [AErr e]
                | None => Errorf "reconcile_mismatch" []
                end)
  else match first_nonzero (EByContest f) with
  | Some (c, e) => (true, Some (Errorf "e_nonzero: %s=%d" [AStr c; AInt e]))
  | None =>
      if Interrupted f && negb (Bounded f) then (true, Some (Errorf "interrupted" []))
      else (false, None)
  end
  end.

(** The constant [0.8]. *)
Definition f_0_8 : float64 := float_div (float_of_Z 4) (float_of_Z 5).

Definition Finalise (f : FinaliseInput) : FinaliseResult :=
  let '(failed, reason) := runFailed f in
  let arrival := float_div (float_of_Z (Voters f)) (float_of_Z 36000) in
  let sustained := (length (Segments f) =? 1)%nat && negb (Interrupted f) && negb (Resumed f) in
  let none := MkFinal failed reason None arrival "inconclusive" sustained in
  if sustained && negb (SecurityRun f) then
    match Segments f with
    | seg :: _ =>
        if WindowMs seg =? 0 then none
        else
          MkFinal failed reason (Some (TPS seg)) arrival
            (if SFleb (float_mul f_0_8 (DriverCeilingTPS seg)) (TPS seg) then "inconclusive"
             else if SFltb (TPS seg) arrival then "true" else "false") sustained
    | [] => none
    end
  else none.

(** A JSON value of a journal field. *)
Inductive jval :=
| JStr (s : string) | JStrs (l : list string) | JBool (b : bool) | JNum (z : Z) | JFloat (f : float64)
| JText (e : option goerr) | JNull.

(** The fields of the [run.end] event. *)
Definition run_end (f : FinaliseInput) (res : FinaliseResult) : list (string * jval) :=
  [("failed", JBool (Failed res)); ("reason", JText (Reason res));
   ("sustained_tps", match SustainedTPS res with Some v => JFloat v | None => JNull end);
   ("arrival_tps", JFloat (ArrivalTPS res)); ("scaling_limit", JStr (ScalingLimit res));
   ("sustained", JBool (Sustained res))] ++
  (if Bounded f then [("bounded", JBool true)] else []) ++
  (if Resumed f then [("resumed", JBool true)] else []) ++
  (if String.eqb (LedgerAudit f) EmptyString then [] else [("ledger_audit", JStr (LedgerAudit f))]) ++
  (match LedgerMatchesLocal f with
   | Some b => [("ledger_matches_local", JBool b)] | None => [] end) ++
  (if SecurityRun f then [("security_run", JBool true)] else []).
End Journal.
