(* ===== verification/JournalFacts.v ===== *)
(** * What the run journal promises

    Order, accounting, durability and freedom from deadlock of
    [saksi-campaign/journal.go], over every interleaving of the goroutines
    that stamp, the writer and the goroutine that closes. *)
From S2P Require Import Prelude GoText Board Journal.
#[local] Open Scope Z_scope.
Import GoText Journal.

Module JournalFacts.

(** The line a goroutine inside [Stamp] carries. *)
Definition carries (p : pc) : option line :=
  match p with
  | PCheck l | PLoad l | PSend l | PPop l | PResend l | SOffer l | SWait l | SWrite l => Some l
  | COffer | CWait | CClose => None
  end.

(** Whether that line is a progress line. *)
Definition sends (p : pc) : bool :=
  match p with PCheck _ | PLoad _ | PSend _ | PPop _ | PResend _ => true | _ => false end.

(** The goroutine waits for its barrier. *)
Definition waits (p : pc) : bool :=
  match p with SWait _ | CWait => true | _ => false end.

(** A progress line that was handed over is written or coalesced away, or was
    handed to a writer that had already retired. *)
Definition settled (j : journal) (p : line) : Prop :=
  p ∈ file j ∨ p ∈ lost j ∨ (retired j = true ∧ p ∈ queue j).

(** ... or is still on its way. *)
Definition accounted (j : journal) (p : line) : Prop :=
  p ∈ file j ∨ held j = Some p ∨ p ∈ queue j ∨ p ∈ lost j.

(** The progress lines, in the order the file has them or will have them. *)
Definition flow (j : journal) : list line :=
  filter (λ l, is_progress l = true) (file j) ++ option_list (held j) ++ queue j.

Record ok (j : journal) : Prop := {
  ok_progress : Forall (λ l, is_progress l = true ∧ (stamp l < calls j)%nat)
    (option_list (held j) ++ queue j);
  ok_order : flow j `sublist_of` handed j;
  ok_coalesced : length (lost j) = coalesced j;
  ok_accounted : failed j = true ∨ ∀ l, l ∈ handed j → accounted j l;
  ok_synced : (synced j <= length (file j))%nat;
  ok_durable : failed j = true ∨ ∀ f1 e f2, file j = f1 ++ e :: f2 →
    isCheckpoint (name e) = true → (length f1 < synced j)%nat;
  ok_stamps : Forall (λ l, (stamp l < calls j)%nat) (file j);
  ok_threads : ∀ t p l, threads j !! t = Some p → carries p = Some l →
    (stamp l < calls j)%nat ∧ is_progress l = sends p;
  ok_before : ∀ k b, before j !! k = Some b → (k < calls j)%nat ∧ b ⊆ handed j;
  ok_writes : ∀ t l b p, threads j !! t = Some (SWrite l) → before j !! stamp l = Some b →
    p ∈ b → failed j = true ∨ settled j p;
  ok_follows : ∀ f1 e f2 b p, file j = f1 ++ e :: f2 → is_progress e = false →
    before j !! stamp e = Some b → p ∈ b →
    p ∈ f1 ∨ p ∈ lost j ∨ (retired j = true ∧ p ∈ queue j);
  ok_retired : retired j = true → held j = None;
  ok_waits : ∀ t p, threads j !! t = Some p → waits p = true →
    retired j = true ∨ ∃ stop, writer j = WDrain t stop
}.

Lemma newJournal_ok : ok newJournal.
Proof.
  split; cbn; try done; try (intros; set_solver).
  right. intros [|? [|??]] e f2 Hf; simplify_eq/=. lia.
Qed.

(** ** Every step keeps the invariant *)
Lemma ok_return j t : ok j → ok (set_threads (delete t) j).
Proof.
  destruct 1; split; cbn; eauto.
  - intros t' p l Hp. apply lookup_delete_Some in Hp as [_ Hp]. eauto.
  - intros t' l b p Hp. apply lookup_delete_Some in Hp as [_ Hp].
    intros. unfold settled in *; cbn in *. eauto.
  - intros t' p Hp. apply lookup_delete_Some in Hp as [_ Hp]. eauto.
Qed.

Lemma ok_goto j t p :
  ok j →
  (∀ l, carries p = Some l → (stamp l < calls j)%nat ∧ is_progress l = sends p) →
  (∀ l b x, p = SWrite l → before j !! stamp l = Some b → x ∈ b → failed j = true ∨ settled j x) →
  (waits p = true → retired j = true ∨ ∃ stop, writer j = WDrain t stop) →
  ok (set_threads <[t := p]> j).
Proof.
  intros Hj Hc Hw Hwait. destruct Hj; split; cbn; eauto.
  - intros t' p' l Hp. apply lookup_insert_Some in Hp as [[<- <-]|[? Hp]]; eauto.
  - intros t' l b x Hp. unfold settled in *; cbn in *.
    apply lookup_insert_Some in Hp as [[<- ->]|[? Hp]]; eauto.
  - intros t' p' Hp. apply lookup_insert_Some in Hp as [[<- <-]|[? Hp]]; eauto.
Qed.

Lemma settled_grow j j' p :
  file j ⊆ file j' → lost j ⊆ lost j' → writer j' = writer j →
  (∀ x, x ∈ queue j → x ∈ queue j' ∨ x ∈ lost j') →
  settled j p → settled j' p.
Proof. unfold settled, retired. intros Hf Hl -> Hq. set_solver. Qed.

Lemma ok_enqueue j l :
  ok j → is_progress l = true → (stamp l < calls j)%nat → ok (enqueue l j).
Proof.
  intros Hj Hl Hlt.
  assert (Hs : ∀ p, settled j p → settled (enqueue l j) p)
    by (intros p; apply settled_grow; cbn; set_solver).
  destruct Hj; split; cbn; eauto.
  - rewrite app_assoc. apply Forall_app; auto.
  - unfold flow; cbn. rewrite !app_assoc. apply sublist_app; [|done].
    by rewrite <-app_assoc.
  - destruct ok_accounted0 as [|Ha]; [by left|right]. unfold accounted in *; cbn.
    intros x Hx. apply elem_of_app in Hx as [Hx|Hx].
    + apply Ha in Hx. set_solver.
    + set_solver.
  - intros k b Hb. apply ok_before0 in Hb as [??]. set_solver.
  - intros t l' b p Ht Hb Hp. destruct (ok_writes0 t l' b p); auto.
  - intros f1 e f2 b p Hf He Hb Hp.
    destruct (ok_follows0 f1 e f2 b p) as [|[|[]]]; auto. right; right. set_solver.
Qed.

Lemma ok_coalesce j h q : ok j → queue j = h :: q → ok (coalesce h q j).
Proof.
  intros Hj Hq.
  assert (Hs : ∀ p, settled j p → settled (coalesce h q j) p).
  { intros p; apply settled_grow; cbn; rewrite ?Hq; set_solver. }
  destruct Hj; split; cbn; eauto.
  - rewrite Hq in *. apply Forall_app in ok_progress0 as [? Hf]. inversion Hf; subst.
    by apply Forall_app.
  - etrans; [|exact ok_order0]. unfold flow; cbn. rewrite Hq.
    do 2 (apply sublist_app; [done|]). by apply sublist_cons.
  - rewrite length_app; cbn. lia.
  - destruct ok_accounted0 as [|Ha]; [by left|right]. unfold accounted in *; cbn.
    intros x Hx. apply Ha in Hx. rewrite Hq in Hx. set_solver.
  - intros t l' b p Ht Hb Hp. destruct (ok_writes0 t l' b p); auto.
  - intros f1 e f2 b p Hf He Hb Hp.
    destruct (ok_follows0 f1 e f2 b p) as [|[|[? Hx]]]; auto; [set_solver|].
    rewrite Hq in Hx. set_solver.
Qed.

Lemma ok_coalesce_own j l : ok j → ok (coalesce l (queue j) j).
Proof.
  intros Hj.
  assert (Hs : ∀ p, settled j p → settled (coalesce l (queue j) j) p).
  { intros p; apply settled_grow; cbn; set_solver. }
  destruct Hj; split; cbn; eauto.
  - rewrite length_app; cbn. lia.
  - destruct ok_accounted0 as [|Ha]; [by left|right]. unfold accounted in *; cbn.
    intros x Hx. apply Ha in Hx. set_solver.
  - intros t l' b p Ht Hb Hp. destruct (ok_writes0 t l' b p); auto.
  - intros f1 e f2 b p Hf He Hb Hp.
    destruct (ok_follows0 f1 e f2 b p) as [|[|[]]]; auto. set_solver.
Qed.

Lemma snoc_split {A} (xs : list A) x f1 e f2 :
  xs ++ [x] = f1 ++ e :: f2 →
  (f1 = xs ∧ e = x ∧ f2 = []) ∨ ∃ f, f2 = f ++ [x] ∧ xs = f1 ++ e :: f.
Proof.
  destruct f2 as [|y f2 _] using rev_ind; intros Heq.
  - apply app_inj_tail in Heq as [-> ->]. by left.
  - rewrite app_comm_cons, app_assoc in Heq. apply app_inj_tail in Heq as [-> ->].
    right. by exists f2.
Qed.

(** What one write does to the file: nothing once a write has failed; nothing
    but the failure when it fails; the line at the end otherwise, and a
    checkpoint then is synced or the journal has failed. *)
Lemma writeLine_cases l cp d j :
  let j' := writeLine l cp d j in
  (failed j' = true ∧ file j' = file j ∧ synced j' = synced j) ∨
  (failed j = false ∧ file j' = file j ++ [l] ∧
   (synced j' = S (length (file j)) ∨ (synced j' = synced j ∧ (cp = false ∨ failed j' = true)))).
Proof.
  unfold writeLine. destruct (failed j) eqn:?, d, cp; cbn;
    solve [by left | right; split_and!; first [done | by left | right; split; [done | by (left + right)]]].
Qed.

Lemma writeLine_frame l cp d j :
  let j' := writeLine l cp d j in
  queue j' = queue j ∧ coalesced j' = coalesced j ∧ held j' = held j ∧ writer j' = writer j ∧
  threads j' = threads j ∧ calls j' = calls j ∧ handed j' = handed j ∧ lost j' = lost j ∧
  before j' = before j ∧ (failed j = true → failed j' = true).
Proof. unfold writeLine. by destruct (failed j) eqn:?, d, cp. Qed.

(** The invariant, for a step that writes at most one line [l] and takes it
    from the writer's hands or from none. *)
Lemma ok_written j j' l cp :
  ok j →
  (held j' = held j ∧ is_progress l = false ∨ held j = Some l ∧ held j' = None ∧ is_progress l = true) →
  (stamp l < calls j)%nat →
  (isCheckpoint (name l) = cp) →
  (∀ b p, is_progress l = false → before j !! stamp l = Some b → p ∈ b →
    failed j = true ∨ settled j p) →
  ((failed j' = true ∧ file j' = file j ∧ synced j' = synced j) ∨
   (failed j = false ∧ file j' = file j ++ [l] ∧
    (synced j' = S (length (file j)) ∨
     (synced j' = synced j ∧ (cp = false ∨ failed j' = true))))) →
  (queue j' = queue j ∧ coalesced j' = coalesced j ∧ writer j' = writer j ∧
   threads j' = threads j ∧ calls j' = calls j ∧ handed j' = handed j ∧ lost j' = lost j ∧
   before j' = before j ∧ (failed j = true → failed j' = true)) →
  ok j'.
Proof.
  intros Hj Hheld Hlt Hcp Hset Hcases (Hq&Hco&Hwr&Hth&Hca&Hha&Hlo&Hbe&Hfl).
  assert (Hsub : file j ⊆ file j') by (destruct Hcases as [(_&->&_)|(_&->&_)]; set_solver).
  assert (Hs : ∀ p, settled j p → settled j' p).
  { intros p; apply settled_grow; rewrite ?Hlo, ?Hq; set_solver. }
  assert (Hret : retired j' = retired j) by (unfold retired; by rewrite Hwr).
  destruct Hj; split.
  - rewrite Hq, Hca. destruct Hheld as [[-> _]|(Hh&->&_)]; [done|].
    rewrite Hh in *; cbn in *. by inversion ok_progress0.
  - rewrite Hha. etrans; [|exact ok_order0]. unfold flow. rewrite Hq.
    destruct Hcases as [(_&->&_)|(_&->&_)]; destruct Hheld as [[-> Hl]|(->&->&Hl)]; cbn.
    + done.
    + apply sublist_app; [done|]. by apply sublist_cons.
    + rewrite filter_app, filter_cons_False, filter_nil, app_nil_r; [done|congruence].
    + rewrite filter_app, filter_cons_True, filter_nil, <-app_assoc by done. done.
  - by rewrite Hlo, Hco.
  - destruct ok_accounted0 as [|Ha]; [by auto|].
    destruct Hcases as [(?&_)|(_&Hf&_)]; [by left|right].
    unfold accounted. rewrite Hha, Hf, Hq, Hlo. intros x Hx. apply Ha in Hx. unfold accounted in Hx.
    destruct Hheld as [[-> _]|(Hh&_&_)]; [set_solver|]. rewrite Hh in Hx. set_solver.
  - destruct Hcases as [(_&->&->)|(_&->&[->|[-> _]])]; rewrite ?length_app; cbn; lia.
  - destruct (failed j') eqn:Hfj; [by left|right].
    destruct Hcases as [(?&_)|(Hfj0&Hf&Hsy)]; [congruence|].
    destruct ok_durable0 as [|Hd]; [congruence|].
    rewrite Hf. intros f1 e f2 Heq He.
    apply snoc_split in Heq as [(->&->&->)|(f&->&Heq)].
    + destruct Hsy as [->|(_&[?|?])]; [lia|congruence|congruence].
    + specialize (Hd _ _ _ Heq He). apply (f_equal length) in Heq.
      rewrite length_app in Heq; cbn in Heq. destruct Hsy as [->|[-> _]]; lia.
  - rewrite Hca. destruct Hcases as [(_&->&_)|(_&->&_)]; [done|]. apply Forall_app; auto.
  - rewrite Hth, Hca. done.
  - rewrite Hbe, Hca, Hha. done.
  - rewrite Hth, Hbe. intros t l' b p Ht Hb Hp. destruct (ok_writes0 t l' b p); auto.
  - rewrite Hbe, Hlo, Hret, Hq. destruct Hcases as [(_&->&_)|(Hf0&->&_)]; [done|].
    intros f1 e f2 b p Heq He Hb Hp.
    apply snoc_split in Heq as [(->&->&->)|(f&->&Heq)]; [|eauto].
    destruct (Hset b p He Hb Hp); [congruence|done].
  - rewrite Hret. intros Hr. destruct Hheld as [[-> _]|(_&->&_)]; auto.
  - rewrite Hth, Hret, Hwr. done.
Qed.

Lemma ok_set_writer j w :
  ok j → retired j = false → (w = WDone → held j = None) →
  (∀ t p, threads j !! t = Some p → waits p = true → w = WDone ∨ ∃ stop, w = WDrain t stop) →
  ok (set_writer w j).
Proof.
  intros Hj Hr Hw Hwait. destruct Hj; split; cbn; eauto.
  - intros t l b p Ht Hb Hp. unfold settled in *; cbn.
    destruct (ok_writes0 t l b p) as [|[|[|[]]]]; auto. congruence.
  - intros f1 e f2 b p Hf He Hb Hp.
    destruct (ok_follows0 f1 e f2 b p) as [|[|[]]]; auto. congruence.
  - unfold retired; cbn. destruct w; try done. auto.
  - intros t p Ht Hp. unfold retired; cbn. destruct (Hwait t p) as [->|]; auto.
Qed.

Lemma ok_receive j h q :
  ok j → retired j = false → held j = None → queue j = h :: q → ok (receive h q j).
Proof.
  intros Hj Hr Hh Hq. destruct Hj; split; cbn; eauto; rewrite ?Hq, ?Hh in *; cbn in *; eauto.
  - etrans; [|exact ok_order0]. unfold flow; cbn. by rewrite Hh, Hq.
  - destruct ok_accounted0 as [|Ha]; [by left|right]. unfold accounted in *; cbn.
    intros x Hx. apply Ha in Hx. rewrite Hh, Hq in Hx. set_solver.
  - intros t l b p Ht Hb Hp. unfold settled in *; cbn.
    destruct (ok_writes0 t l b p) as [|[|[|[]]]]; auto. congruence.
  - intros f1 e f2 b p Hf He Hb Hp.
    destruct (ok_follows0 f1 e f2 b p) as [|[|[]]]; auto. congruence.
  - unfold retired in *; cbn. intros. congruence.
Qed.

(** Everything handed over is settled when nothing is on its way. *)
Lemma drained_settled j p :
  ok j → held j = None → queue j = [] → p ∈ handed j → failed j = true ∨ settled j p.
Proof.
  intros Hj Hh Hq Hp. destruct (ok_accounted j Hj) as [|Ha]; [by left|right].
  apply Ha in Hp. unfold accounted in Hp. rewrite Hh, Hq in Hp. unfold settled. set_solver.
Qed.

(** ... and nothing handed to a retired writer is on its way. *)
Lemma retired_settled j p :
  ok j → retired j = true → p ∈ handed j → failed j = true ∨ settled j p.
Proof.
  intros Hj Hr Hp. destruct (ok_accounted j Hj) as [|Ha]; [by left|right].
  apply Ha in Hp. unfold accounted in Hp. rewrite (ok_retired j Hj Hr) in Hp.
  unfold settled. rewrite Hr. set_solver.
Qed.

Lemma ok_release j t stop :
  ok j → writer j = WDrain t stop → held j = None → queue j = [] →
  ok (set_writer (if stop then WDone else WTop) (release t j)).
Proof.
  intros Hj Hw Hh Hq.
  assert (Hr : retired j = false) by (unfold retired; by rewrite Hw).
  assert (Hother : ∀ t' p, threads j !! t' = Some p → waits p = true → t' = t).
  { intros t' p Ht Hp. destruct (ok_waits j Hj t' p Ht Hp) as [|[? ?]]; congruence. }
  assert (Hgo : ∀ p, waits p = false → ok (set_threads <[t := p]> j) →
            ok (set_writer (if stop then WDone else WTop) (set_threads <[t := p]> j))).
  { intros p Hp Hj'. apply ok_set_writer; cbn; [done..|].
    intros t' p' Ht' Hp'. exfalso. apply lookup_insert_Some in Ht' as [[<- <-]|[? Ht']].
    - congruence.
    - by apply Hother in Ht'. }
  unfold release. destruct (threads j !! t) as [[]|] eqn:Ht;
    try (apply ok_set_writer; [done..|]; intros t' p' Ht' Hp'; exfalso;
         pose proof (Hother _ _ Ht' Hp') as ->; rewrite Ht in Ht'; by simplify_eq).
  - apply Hgo; [done|]. destruct (ok_threads j Hj t _ l Ht eq_refl) as [? Hnp].
    apply ok_goto; cbn; try done.
    + intros ? [= <-]. done.
    + intros ? b x [= <-] Hb Hx. apply drained_settled; try done.
      by apply (ok_before j Hj _ _ Hb).
  - by apply Hgo; [|apply ok_goto].
Qed.

Lemma writer_step_ok j d j' : ok j → writer_step d j = Some j' → ok j'.
Proof.
  intros Hj. unfold writer_step. destruct (held j) as [l|] eqn:Hh.
  - intros [= <-].
    pose proof (writeLine_cases l true d j) as Hc.
    destruct (writeLine_frame l true d j) as (?&?&?&?&?&?&?&?&?&?).
    pose proof (ok_progress j Hj) as Hf. rewrite Hh in Hf. cbn in Hf.
    inversion Hf as [|?? [Hp Hlt] _]; subst.
    apply (ok_written j _ l true); cbn; try done; [by right| |congruence].
    unfold is_progress in Hp. apply String.eqb_eq in Hp. by rewrite Hp.
  - destruct (writer j) eqn:Hw, (queue j) as [|h q] eqn:Hq; intros [= <-].
    all: assert (Hr : retired j = false) by (unfold retired; by rewrite Hw).
    + apply ok_set_writer; try done. intros t p Ht Hp.
      destruct (ok_waits j Hj t p Ht Hp) as [|[? ?]]; congruence.
    + by apply ok_receive.
    + apply ok_set_writer; try done; [by apply ok_receive|]. intros t p Ht Hp.
      destruct (ok_waits j Hj t p Ht Hp) as [|[? ?]]; congruence.
    + by apply ok_release.
    + by apply ok_receive.
Qed.

#[local] Arguments has_room : simpl never.

(** A goroutine goes on with the line it had. *)
Ltac goto := apply ok_goto; cbn; try done; try (by intros ? [= <-]).

Lemma thread_step_ok j t p d j' :
  ok j → threads j !! t = Some p → thread_step t p d j = Some j' → ok j'.
Proof.
  intros Hj Ht Hs. pose proof (ok_threads j Hj t p) as Hc. specialize (Hc) with (1 := Ht).
  destruct p as [l|l|l|l|l|l|l|l| | |]; cbn in Hs, Hc;
    try (destruct (Hc l eq_refl) as [Hlt Hp]).
  - destruct (retired j); simplify_eq; [by apply ok_return|].
    goto.
  - simplify_eq. goto. intros ? [= <-]. by case_match.
  - destruct (has_room j); simplify_eq; [by apply ok_return, ok_enqueue|].
    goto.
  - destruct (queue j) as [|h q] eqn:Hq; simplify_eq.
    + goto.
    + goto. by apply ok_coalesce.
  - destruct (has_room j); simplify_eq; [by apply ok_return, ok_enqueue|].
    by apply ok_return, ok_coalesce_own.
  - destruct (writer j) eqn:Hw, (held j) eqn:Hh; simplify_eq.
    all: assert (Hr : retired j = (if writer j is WDone then true else false))
           by (unfold retired; by destruct (writer j)); rewrite Hw in Hr.
    2,3: goto.
    2,3: intros ? b x [= <-] Hb Hx; apply retired_settled; try done.
    2,3: by apply (ok_before j Hj _ _ Hb).
    goto; [|by eauto].
    apply ok_set_writer; try done. intros t' p Ht' Hp'.
    destruct (ok_waits j Hj t' p Ht' Hp') as [|[? ?]]; congruence.
  - destruct (retired j) eqn:Hr; simplify_eq. goto.
    intros ? b x [= <-] Hb Hx; apply retired_settled; try done; by apply (ok_before j Hj _ _ Hb).
  - simplify_eq. apply ok_return.
    pose proof (writeLine_cases l (isCheckpoint (name l)) d j) as Hw.
    destruct (writeLine_frame l (isCheckpoint (name l)) d j) as (?&?&?&?&?&?&?&?&?&?).
    apply (ok_written j _ l (isCheckpoint (name l))); try done; [by left|].
    intros b x _ Hb Hx. by apply (ok_writes j Hj t l b x).
  - destruct (writer j) eqn:Hw, (held j) eqn:Hh; simplify_eq.
    2,3: by apply ok_goto.
    goto; [|by eauto].
    apply ok_set_writer; [done|unfold retired; by rewrite Hw|done|]. intros t' p Ht' Hp'.
    destruct (ok_waits j Hj t' p Ht' Hp') as [Hr|[? ?]]; [|congruence].
    unfold retired in Hr. by rewrite Hw in Hr.
  - destruct (retired j); simplify_eq. by apply ok_goto.
  - simplify_eq. by apply ok_return.
Qed.

Lemma journal_step_ok c j j' : ok j → journal_step c j = Some j' → ok j'.
Proof.
  intros Hj. destruct c as [t event|t|t d|d]; cbn.
  - destruct (threads j !! t) eqn:Ht; intros [= <-].
    assert (Hold : ∀ k b, before j !! k = Some b → k ≠ calls j).
    { intros k b Hb ->. apply (ok_before j Hj) in Hb as [? _]. lia. }
    assert (Hfile : ∀ f1 e f2, file j = f1 ++ e :: f2 → stamp e ≠ calls j).
    { intros f1 e f2 Hf. pose proof (ok_stamps j Hj) as Hst. rewrite Hf in Hst.
      apply Forall_app in Hst as [_ Hst]. inversion Hst; lia. }
    destruct Hj; split; cbn; eauto.
    + eapply Forall_impl; [exact ok_progress0|]. cbn. intros ? []. split; [done|lia].
    + eapply Forall_impl; [exact ok_stamps0|]. cbn. lia.
    + intros t' p l Hp Hl. apply lookup_insert_Some in Hp as [[<- <-]|[? Hp]].
      * destruct (String.eqb event progressEvent) eqn:He; cbn in Hl; simplify_eq; cbn;
          (split; [lia|exact He]).
      * destruct (ok_threads0 t' p l Hp Hl). split; [lia|done].
    + intros k b Hb. apply lookup_insert_Some in Hb as [[<- <-]|[? Hb]]; [split; [lia|done]|].
      destruct (ok_before0 k b Hb). split; [lia|done].
    + intros t' l b p Ht' Hb Hp. apply lookup_insert_Some in Ht' as [[<- Ht']|[? Ht']].
      * by destruct (String.eqb event progressEvent).
      * destruct (ok_threads0 t' _ l Ht' eq_refl) as [? _].
        rewrite lookup_insert_ne in Hb by lia. eauto.
    + intros f1 e f2 b p Hf He Hb Hp. rewrite lookup_insert_ne in Hb by (symmetry; eauto). eauto.
    + intros t' p Ht' Hp. apply lookup_insert_Some in Ht' as [[<- <-]|[? Ht']]; [|eauto].
      by destruct (String.eqb event progressEvent).
  - destruct (threads j !! t) eqn:Ht; intros [= <-]. goto.
  - destruct (threads j !! t) eqn:Ht; intros Hs; [|done]. by eapply thread_step_ok.
  - by apply writer_step_ok.
Qed.

Lemma run_journal_ok cs j j' : ok j → run_journal cs j = Some j' → ok j'.
Proof.
  revert j. induction cs as [|c cs IH]; cbn; intros j Hj; [by intros [= <-]|].
  destruct (journal_step c j) eqn:Hs; [|done]. eauto using journal_step_ok.
Qed.

(** ** Nobody waits for ever *)
Lemma sends_never_block j t p d : sends p = true → is_Some (thread_step t p d j).
Proof. destruct p; cbn; intros; repeat case_match; eauto; done. Qed.

Lemma some_step j d :
  ok j → threads j ≠ ∅ →
  (∃ t p, threads j !! t = Some p ∧ is_Some (thread_step t p d j)) ∨ is_Some (writer_step d j).
Proof.
  intros Hj Hne. apply map_choose in Hne as (t & p & Ht).
  destruct (decide (is_Some (thread_step t p d j))) as [|Hblocked]; [by eauto|].
  right. unfold writer_step. destruct (held j) eqn:Hh; [by eauto|].
  destruct (writer j) eqn:Hw; [by case_match; eauto| |by case_match; eauto|].
  - destruct (sends p) eqn:Hsend; [by destruct Hblocked; apply sends_never_block|].
    destruct (waits p) eqn:Hwait.
    + destruct (ok_waits j Hj t p Ht Hwait) as [Hr|[? ?]]; [|congruence].
      unfold retired in Hr. by rewrite Hw in Hr.
    + destruct Hblocked. destruct p; cbn in *; rewrite ?Hw, ?Hh; eauto; done.
  - exfalso. apply Hblocked. destruct (sends p) eqn:Hsend; [by apply sends_never_block|].
    destruct p; cbn in *; unfold retired; rewrite ?Hw, ?Hh; eauto; done.
Qed.

(** The work left in the journal: what the queue, the writer and each goroutine
    still have to do. *)
Definition cost (p : pc) : nat :=
  match p with
  | PCheck _ => 9 | PLoad _ => 8 | PSend _ => 7 | PPop _ => 6 | PResend _ => 5
  | SOffer _ | COffer => 5 | SWait _ | CWait => 2 | SWrite _ | CClose => 1
  end.

Definition threads_cost (m : gmap nat pc) : nat := map_fold (λ _ p n, (cost p + n)%nat) 0%nat m.

Definition writer_cost (w : wpc) : nat :=
  match w with WTop => 1 | WBlocked | WDone => 0 | WDrain _ _ => 2 end.

Definition work (j : journal) : nat :=
  4 * length (queue j) + length (option_list (held j)) * 2 + writer_cost (writer j) +
  threads_cost (threads j).

Lemma threads_cost_delete m t p :
  m !! t = Some p → threads_cost m = (cost p + threads_cost (delete t m))%nat.
Proof.
  intros Ht. unfold threads_cost.
  rewrite <-(map_fold_insert_L (λ _ p n, (cost p + n)%nat) 0%nat t p (delete t m)).
  - by rewrite insert_delete_id.
  - intros; lia.
  - apply lookup_delete_eq.
Qed.

Lemma threads_cost_insert m t p p' :
  m !! t = Some p → (threads_cost (<[t := p']> m) + cost p = threads_cost m + cost p')%nat.
Proof.
  intros Ht. rewrite (threads_cost_delete m t p Ht).
  rewrite (threads_cost_delete (<[t := p']> m) t p') by apply lookup_insert_eq.
  rewrite delete_insert_eq. lia.
Qed.

#[local] Arguments work : simpl never.

Lemma writeLine_work l cp d j : work (writeLine l cp d j) = work j.
Proof.
  destruct (writeLine_frame l cp d j) as (Hq&_&Hh&Hw&Ht&_). unfold work. by rewrite Hq, Hh, Hw, Ht.
Qed.

Lemma writer_step_work j d j' : writer_step d j = Some j' → (work j' < work j)%nat.
Proof.
  unfold writer_step. destruct (held j) as [l|] eqn:Hh.
  - intros [= <-]. destruct (writeLine_frame l true d j) as (Hq&_&Hh'&Hw&Ht&_).
    unfold work. cbn. rewrite Hq, Hh, Hw, Ht. cbn. lia.
  - destruct (writer j) eqn:Hw, (queue j) as [|h q] eqn:Hq; intros [= <-];
      unfold work; cbn; rewrite ?Hw, ?Hq, ?Hh; cbn; try lia.
    assert (Hr : (threads_cost (threads (release t j)) <= threads_cost (threads j))%nat ∧
              queue (release t j) = queue j ∧ held (release t j) = held j).
    { unfold release. destruct (threads j !! t) as [[]|] eqn:Ht; cbn; split; auto;
        eapply (threads_cost_insert _ t _) in Ht as Hc; cbn in Hc;
        [instantiate (1 := SWrite l) in Hc|instantiate (1 := CClose) in Hc]; cbn in *; lia. }
    destruct Hr as (Hle&->&->). rewrite Hq, Hh. cbn. destruct stop; cbn; lia.
Qed.

Lemma thread_step_work j t p d j' :
  threads j !! t = Some p → thread_step t p d j = Some j' → (work j' < work j)%nat.
Proof.
  intros Ht Hs.
  assert (Hdel : ∀ i, threads i = threads j →
            (work (set_threads (delete t) i) + cost p = work i)%nat).
  { intros i Hi. unfold work; cbn. rewrite Hi, (threads_cost_delete _ _ _ Ht). lia. }
  assert (Hgo : ∀ i p', threads i = threads j →
            (work (set_threads <[t := p']> i) + cost p = work i + cost p')%nat).
  { intros i p' Hi. unfold work; cbn. rewrite Hi. pose proof (threads_cost_insert _ t p p' Ht). lia. }
  assert (Henq : ∀ l, work (enqueue l j) = (work j + 4)%nat)
    by (intros l; unfold work; cbn; rewrite length_app; cbn; lia).
  destruct p; cbn [thread_step cost] in *.
  - destruct (retired j); simplify_eq; [specialize (Hdel j eq_refl)|specialize (Hgo j (PLoad l) eq_refl)];
      cbn in *; lia.
  - simplify_eq. match goal with |- context [PSend ?x] => specialize (Hgo j (PSend x) eq_refl) end.
    cbn [cost] in *; lia.
  - destruct (has_room j); simplify_eq.
    + specialize (Hdel (enqueue l j) eq_refl). rewrite Henq in Hdel. lia.
    + specialize (Hgo j (PPop l) eq_refl). cbn [cost] in *; lia.
  - destruct (queue j) as [|h q] eqn:Hq; simplify_eq.
    + specialize (Hgo j (PResend l) eq_refl). cbn [cost] in *; lia.
    + specialize (Hgo (coalesce h q j) (PResend (with_total (S (coalesced j)) l)) eq_refl).
      cbn [cost] in *. unfold work in *; cbn in *. rewrite Hq in *. cbn in *. lia.
  - destruct (has_room j); simplify_eq.
    + specialize (Hdel (enqueue l j) eq_refl). rewrite Henq in Hdel. lia.
    + specialize (Hdel (coalesce l (queue j) j) eq_refl). unfold work in *; cbn in *. lia.
  - destruct (writer j) eqn:Hw, (held j) eqn:Hh; simplify_eq.
    2,3: specialize (Hgo j (SWrite l) eq_refl); cbn [cost] in *; lia.
    specialize (Hgo (set_writer (WDrain t false) j) (SWait l) eq_refl).
    unfold work in *; cbn in *. rewrite Hw in *. cbn in *. lia.
  - destruct (retired j); simplify_eq. specialize (Hgo j (SWrite l) eq_refl); cbn [cost] in *; lia.
  - simplify_eq. specialize (Hdel (writeLine l (isCheckpoint (name l)) d j)).
    destruct (writeLine_frame l (isCheckpoint (name l)) d j) as (_&_&_&_&Hth&_).
    specialize (Hdel Hth). rewrite writeLine_work in Hdel. lia.
  - destruct (writer j) eqn:Hw, (held j) eqn:Hh; simplify_eq.
    2,3: specialize (Hgo j CClose eq_refl); cbn [cost] in *; lia.
    specialize (Hgo (set_writer (WDrain t true) j) CWait eq_refl).
    unfold work in *; cbn in *. rewrite Hw in *. cbn in *. lia.
  - destruct (retired j); simplify_eq. specialize (Hgo j CClose eq_refl); cbn [cost] in *; lia.
  - simplify_eq. specialize (Hdel j eq_refl). lia.
Qed.

(** ** The journal's contract *)

(** What a reader of the file and the goroutines that stamp rely on. *)
Record journal_sound (j : journal) : Prop := {
  (* progress lines keep their order, and the ones missing are counted *)
  js_order : flow j `sublist_of` handed j;
  js_counted : length (lost j) = coalesced j;
  js_accounted : failed j = false → ∀ l, l ∈ handed j → accounted j l;
  (* a line follows the progress handed over before its call *)
  js_follows : ∀ f1 e f2 b p, file j = f1 ++ e :: f2 → is_progress e = false →
    before j !! stamp e = Some b → p ∈ b →
    p ∈ f1 ∨ p ∈ lost j ∨ (retired j = true ∧ p ∈ queue j);
  (* a checkpoint is on disk *)
  js_durable : failed j = false → ∀ f1 e f2, file j = f1 ++ e :: f2 →
    isCheckpoint (name e) = true → (length f1 < synced j)%nat;
  (* the submission path never waits *)
  js_never_blocks : ∀ t p d, sends p = true → is_Some (thread_step t p d j);
  (* the writer retires with nothing on its way *)
  js_retires : ∀ d j', writer_step d j = Some j' → retired j' = true → failed j' = false →
    ∀ l, l ∈ handed j' → l ∈ file j' ∨ l ∈ lost j'
}.

Lemma retiring_step d j j' :
  writer_step d j = Some j' → retired j' = true → ok j → held j' = None ∧ queue j' = [].
Proof.
  unfold writer_step, retired. destruct (held j) as [l|] eqn:Hh.
  - intros [= <-]. destruct (writeLine_frame l true d j) as (_&_&_&Hw&_). cbn. rewrite Hw.
    destruct (writer j) eqn:Hwr; try done. intros _ Hj. pose proof (ok_retired j Hj) as Hr.
    unfold retired in Hr. rewrite Hwr in Hr. by rewrite Hr in Hh.
  - destruct (writer j) eqn:Hw, (queue j) as [|h q] eqn:Hq; intros [= <-]; cbn;
      rewrite ?Hw; try done.
    destruct stop; [|done]. intros _ _.
    unfold release. by destruct (threads j !! t) as [[]|].
Qed.

Lemma ok_sound j : ok j → journal_sound j.
Proof.
  intros Hj. split.
  - apply (ok_order j Hj).
  - apply (ok_coalesced j Hj).
  - intros Hf. destruct (ok_accounted j Hj); [congruence|done].
  - apply (ok_follows j Hj).
  - intros Hf. destruct (ok_durable j Hj); [congruence|done].
  - intros. by apply sends_never_block.
  - intros d j' Hs Hr Hf l Hl. pose proof (writer_step_ok j d j' Hj Hs) as Hj'.
    destruct (retiring_step d j j' Hs Hr Hj) as [Hh Hq].
    destruct (ok_accounted j' Hj') as [|Ha]; [congruence|].
    apply Ha in Hl. unfold accounted in Hl. rewrite Hh, Hq in Hl. set_solver.
Qed.

(** C40: Whatever the goroutines that stamp, the progress writer and the
    goroutine that closes do in whatever order, and whatever the disk does:
    progress lines reach the file in the order they were queued, and the ones
    that do not are exactly counted as coalesced; every other line comes after
    all the progress lines queued before its [Stamp] call (coalesced ones and
    ones sent to a closed journal apart); while no write has failed every
    checkpoint line is synced; sending progress never blocks; and closing
    leaves no queued line behind. *)
Theorem journal_orders_progress cs j :
  run_journal cs newJournal = Some j → journal_sound j.
Proof. intros Hr. eapply ok_sound, run_journal_ok; [apply newJournal_ok|done]. Qed.

(** The step of a goroutine that is already inside, not a new call. *)
Definition inside (c : schedule) : bool :=
  match c with RunThread _ _ | RunWriter _ => true | CallStamp _ _ | CallClose _ => false end.

Lemma run_journal_work cs j j' :
  Forall (λ c, inside c = true) cs → run_journal cs j = Some j' →
  (length cs + work j' <= work j)%nat.
Proof.
  intros Hcs. revert j. induction Hcs as [|c cs Hc Hcs IH]; cbn; intros j; [intros [= <-]; lia|].
  destruct (journal_step c j) as [j1|] eqn:Hs; [|done]. intros Hr. apply IH in Hr.
  destruct c as [| |t d|d]; try done; cbn in Hs.
  - destruct (threads j !! t) eqn:Ht; [|done]. pose proof (thread_step_work _ _ _ _ _ Ht Hs). lia.
  - pose proof (writer_step_work _ _ _ Hs). lia.
Qed.

(** No [Stamp] and no [Close] waits for ever. From any reachable state, the
    goroutines that are inside and the writer can take only so many steps
    without a new call, in any order; and while one of them is inside, some
    step is possible. So a schedule that goes on as long as it can returns
    from every call. *)
Theorem journal_calls_return cs j rs j' :
  run_journal cs newJournal = Some j →
  Forall (λ c, inside c = true) rs → run_journal rs j = Some j' →
  (length rs <= work j)%nat ∧
  (threads j' ≠ ∅ → ∀ d, ∃ c j'', inside c = true ∧
     (c = RunWriter d ∨ ∃ t, c = RunThread t d) ∧ journal_step c j' = Some j'').
Proof.
  intros Hr Hrs Hr'. pose proof (run_journal_work rs j j' Hrs Hr'). split; [lia|].
  intros Hne d. assert (Hj : ok j') by eauto using run_journal_ok, newJournal_ok.
  destruct (some_step j' d Hj Hne) as [(t&p&Ht&j''&Hs)|(j''&Hs)].
  - exists (RunThread t d), j''. cbn. rewrite Ht. eauto.
  - exists (RunWriter d), j''. cbn. eauto.
Qed.

(** ** A run with two goroutines *)

(** The dispatcher stamps progress twice while another goroutine ends the
    window; the second line is handed over after that goroutine's call. *)
Definition toy_schedule : list schedule :=
  [CallStamp 1 "ballots.progress"; RunThread 1 IoOk; RunThread 1 IoOk; RunThread 1 IoOk;
   CallStamp 2 "segment.end"; RunWriter IoOk; RunWriter IoOk; RunWriter IoOk;
   CallStamp 1 "ballots.progress"; RunThread 1 IoOk;
   RunThread 2 IoOk; RunThread 1 IoOk; RunThread 1 IoOk;
   RunWriter IoOk; RunWriter IoOk; RunWriter IoOk; RunThread 2 IoOk].

Example toy_file :
  option_map (λ j, map name (file j)) (run_journal toy_schedule newJournal) =
  Some ["env"; "ballots.progress"; "ballots.progress"; "segment.end"]%string.
Proof. vm_compute. reflexivity. Qed.

Lemma journal_orders_progress_witness :
  from_option journal_sound False (run_journal toy_schedule newJournal).
Proof.
  destruct (run_journal toy_schedule newJournal) as [j|] eqn:Hr.
  - exact (journal_orders_progress toy_schedule j Hr).
  - vm_compute in Hr. discriminate Hr.
Defined.

(** The same schedule cut where goroutine 2 waits for its barrier. *)
Lemma journal_calls_return_witness :
  match run_journal (take 11 toy_schedule) newJournal with
  | Some j => threads j !! 2%nat = Some (SWait (MkLine 2 "segment.end" 0)) ∧
      match run_journal [RunThread 1 IoOk; RunWriter IoOk; RunWriter IoOk] j with
      | Some j' => (3 <= work j)%nat ∧
          (threads j' ≠ ∅ → ∃ c j'', inside c = true ∧
            (c = RunWriter IoOk ∨ ∃ t, c = RunThread t IoOk) ∧ journal_step c j' = Some j'')
      | None => False
      end
  | None => False
  end.
Proof.
  destruct (run_journal (take 11 toy_schedule) newJournal) as [j|] eqn:Hr;
    [|vm_compute in Hr; discriminate Hr].
  split; [vm_compute in Hr; injection Hr as <-; vm_compute; reflexivity|].
  destruct (run_journal [RunThread 1 IoOk; RunWriter IoOk; RunWriter IoOk] j) as [j'|] eqn:Hr'.
  - destruct (journal_calls_return (take 11 toy_schedule) j
                [RunThread 1 IoOk; RunWriter IoOk; RunWriter IoOk] j' Hr
                (ltac:(repeat constructor)) Hr') as [Hle Hstep].
    split; [exact Hle|]. intros Hne. exact (Hstep Hne IoOk).
  - vm_compute in Hr. injection Hr as <-. vm_compute in Hr'. discriminate Hr'.
Defined.

(** ** The run's verdict *)
Lemma first_nonzero_None m :
  first_nonzero m = None ↔ ∀ c e, m !! c = Some e → e = 0.
Proof.
  unfold first_nonzero. rewrite fmap_None, list_find_None, Forall_forall. split.
  - intros Hf c e Hm. destruct (decide (e = 0)) as [|Hne]; [done|]. exfalso.
    apply (Hf (c, e)); [|done]. apply list_elem_of_omap. exists c.
    rewrite Hm. split; [|done]. apply Board.elem_of_sortedKeys. eauto.
  - intros Hall [c e] Hin. apply list_elem_of_omap in Hin as (c'&_&Hc).
    destruct (m !! c') eqn:Hm; simplify_eq/=. rewrite (Hall _ _ Hm). lia.
Qed.

(** A run on which nothing went wrong. *)
Record clean (f : FinaliseInput) : Prop := {
  clean_stage : StageErr f = None;
  clean_submitted : NothingSubmitted f = false;
  clean_dropped : Dropped f <= 0;
  clean_reconciled : ReconcileOK f = true;
  clean_exact : ∀ c e, EByContest f !! c = Some e → e = 0;
  clean_whole : Interrupted f = true → Bounded f = true
}.

(** What [Finalise] may say of a run's throughput. *)
Record verdict_ok (f : FinaliseInput) (r : FinaliseResult) : Prop := {
  vd_failed : Failed r = false ↔ clean f;
  vd_reason : is_Some (Reason r) ↔ Failed r = true;
  vd_sustained : ∀ v, SustainedTPS r = Some v ↔
    ∃ seg, Segments f = [seg] ∧ Interrupted f = false ∧ Resumed f = false ∧
      SecurityRun f = false ∧ WindowMs seg ≠ 0 ∧ v = TPS seg;
  vd_limit : ScalingLimit r ≠ "inconclusive"%string → ∃ v seg,
    SustainedTPS r = Some v ∧ Segments f = [seg] ∧
    SFleb (float_mul f_0_8 (DriverCeilingTPS seg)) v = false ∧
    ScalingLimit r = (if SFltb v (ArrivalTPS r) then "true" else "false")%string
}.

Lemma runFailed_clean f : (runFailed f).1 = false ↔ clean f.
Proof.
  unfold runFailed. split.
  - intros Hr. repeat case_match; simplify_eq/=; split; try done; try lia;
      try (by apply first_nonzero_None).
    + by apply negb_false_iff.
    + by destruct (Interrupted f), (Bounded f).
  - intros [-> -> Hd -> He Hw]. apply first_nonzero_None in He. rewrite He.
    destruct (0 <? Dropped f) eqn:?; [lia|]. cbn.
    destruct (Interrupted f); [|done]. by rewrite Hw.
Qed.

Lemma Finalise_clean f : Failed (Finalise f) = false ↔ clean f.
Proof.
  rewrite <-runFailed_clean. unfold Finalise. destruct (runFailed f). by repeat case_match.
Qed.

(** [Finalise] passes a run exactly when no stage failed, ballots were
    submitted, none was dropped, the counts reconcile, no contest is off by a
    ballot and the run was not cut short except by its own time bound; it gives
    a reason exactly when it fails one; and it publishes a sustained rate, and
    a scaling verdict, only of a single whole unattacked window whose driver
    was not the limit. *)
Lemma Finalise_exact f : verdict_ok f (Finalise f).
Proof.
  pose proof (runFailed_clean f) as Hfail.
  assert (Hreason : is_Some (runFailed f).2 ↔ (runFailed f).1 = true).
  { unfold runFailed. repeat case_match; cbn; split; eauto; intros Hx; by inversion Hx. }
  unfold Finalise. destruct (runFailed f) as [failed reason]. cbn in Hfail, Hreason.
  destruct (Segments f) as [|seg [|seg' segs]] eqn:Hsegs; cbn.
  2: destruct (Interrupted f) eqn:?, (Resumed f) eqn:?, (SecurityRun f) eqn:?,
       (WindowMs seg =? 0) eqn:?; cbn.
  all: split; cbn; try done.
  all: try (intros v; split; [done|]; intros (sg&Hsg&?&?&?&?&?); first [congruence | assert (sg = seg) as -> by congruence; lia]).
  - intros v; split; [intros [= <-]|intros (sg&Hsg&_&_&_&_&->); congruence].
    exists seg. split_and!; try done. lia.
  - destruct (SFleb _ _) eqn:?; [done|]. intros _. exists (TPS seg), seg. by case_match.
Qed.

Lemma Finalise_sustained f v :
  SustainedTPS (Finalise f) = Some v →
  ∃ seg, Segments f = [seg] ∧ Interrupted f = false ∧ Resumed f = false ∧
    SecurityRun f = false ∧ WindowMs seg ≠ 0 ∧ v = TPS seg.
Proof. apply (vd_sustained _ _ (Finalise_exact f)). Qed.

End JournalFacts.
