(* ===== verification/Ceremony.v ===== *)
(** * The threshold-decryption ceremony

    [saksi-campaign/ceremony.go]: the roster of one run and its progress file
    [ceremony.json], the cached bundle, each trustee's submission and the
    publication of the tally, locally or on a ledger. One run id; files and
    in-flight records of other runs are independent. Progress messages, journal
    stamps and receipts are not modelled. *)
From S2P Require Import Prelude Hex Wire GoText Config.
From Stdlib Require Import Ascii.
#[local] Open Scope Z_scope.
Import GoText.

Module Ceremony.

Record CeremonyTrustee := MkTrustee {
  TID : string; TName : string; Submitted : bool; Contests : Z;
  SubmittedAt : option Z; Submitting : bool; SubmitError : string
}.

Record CeremonyState := MkState {
  Threshold : Z; Trustees : list CeremonyTrustee; NSubmitted : Z; Unlocked : bool;
  Published : bool; OnChain : bool; Ready : bool; Busy : string;
  StartedAt : option Z; ClosedAt : option Z; PublishedAt : option Z
}.

(** header.json, as far as the bundle copies it. *)
Record electionHeader := MkHeader {
  HElectionID : string; HParams : string; HDkg : string; HN : Z;
  HPartialDecryptions : list string; HTally : string
}.

Record onChainBundle := MkBundle {
  ElectionID : string; Params : string; DKG : string; BallotsFile : string; BallotCount : Z;
  PartialDecryptions : list string; Tally : string
}.

(** The run folder's files the ceremony uses, and the executor's in-flight record. *)
Record run := MkRun {
  header : option electionHeader; bundle : option onChainBundle;
  ceremony_json : option CeremonyState;
  submitting : string; submitErr : gmap string goerr
}.

(** ** Field updates *)
Definition set_bundle (b : onChainBundle) (s : run) : run :=
  MkRun (header s) (Some b) (ceremony_json s) (submitting s) (submitErr s).

Definition set_json (c : CeremonyState) (s : run) : run :=
  MkRun (header s) (bundle s) (Some c) (submitting s) (submitErr s).

Definition set_inflight (who : string) (errs : gmap string goerr) (s : run) : run :=
  MkRun (header s) (bundle s) (ceremony_json s) who errs.

Definition set_progress (sub : bool) (at_ : option Z) (t : CeremonyTrustee) : CeremonyTrustee :=
  MkTrustee (TID t) (TName t) sub (Contests t) at_ (Submitting t) (SubmitError t).

Definition set_contests (n : Z) (t : CeremonyTrustee) : CeremonyTrustee :=
  MkTrustee (TID t) (TName t) (Submitted t) n (SubmittedAt t) (Submitting t) (SubmitError t).

Definition set_phase (busy : bool) (err : string) (t : CeremonyTrustee) : CeremonyTrustee :=
  MkTrustee (TID t) (TName t) (Submitted t) (Contests t) (SubmittedAt t) busy err.

Definition set_trustees (l : list CeremonyTrustee) (s : CeremonyState) : CeremonyState :=
  MkState (Threshold s) l (NSubmitted s) (Unlocked s) (Published s) (OnChain s) (Ready s)
    (Busy s) (StartedAt s) (ClosedAt s) (PublishedAt s).

(** ** The roster *)
Definition newCeremony (c : Config.ElectionConfig) : CeremonyState :=
  MkState (Config.Threshold c)
    (imap (λ i t,
       let name := TrimSpace (Config.TrusteeName t) in
       let name := if String.eqb name EmptyString
                   then "Trustee " +:+ Itoa (Z.of_nat i + 1) else name in
       MkTrustee (Itoa (Z.of_nat i + 1)) name false 0 None false "") (Config.Trustees c))
    0 false false false false "" None None None.

(** The stored progress of a trustee id: the last row with that id wins. *)
Definition stored_progress (stored : list CeremonyTrustee) : gmap string (bool * option Z) :=
  foldl (λ m t, <[TID t := (Submitted t, SubmittedAt t)]> m) ∅ stored.

Definition readCeremony (c : Config.ElectionConfig) (s : run) : CeremonyState :=
  let fresh := newCeremony c in
  match ceremony_json s with
  | None => fresh
  | Some stored =>
      let progress := stored_progress (Trustees stored) in
      let trustees :=
        (λ t, let p := default (false, None) (progress !! TID t) in set_progress p.1 p.2 t)
          <$> Trustees fresh in
      MkState (Threshold fresh) trustees (NSubmitted fresh) (Unlocked fresh) (Published stored)
        (OnChain fresh) (Ready stored) (Busy fresh) (StartedAt stored) (ClosedAt stored)
        (PublishedAt stored)
  end.

Definition ceremonyRecorded (s : run) : bool := bool_decide (is_Some (ceremony_json s)).

Definition or_now (now : Z) (t : option Z) : option Z :=
  match t with None => Some now | Some _ => t end.

Definition writeCeremonyLocked (now : Z) (c : Config.ElectionConfig)
    (state : option CeremonyState) (s : run) : run :=
  let st := match state with Some st => st | None => readCeremony c s end in
  set_json (MkState (Threshold st) (Trustees st) (NSubmitted st) (Unlocked st) (Published st)
    (OnChain st) true (Busy st) (or_now now (StartedAt st)) (or_now now (ClosedAt st))
    (PublishedAt st)) s.

Definition errNotClosed : goerr :=
  Errorf "the election is not closed yet: trustees can submit after Encrypt & record finishes" [].

Definition clearSubmitErr (ids : list string) (s : run) : run :=
  set_inflight (submitting s) (foldl (λ m id, delete id m) (submitErr s) ids) s.

Definition mark_row (now : Z) (trusteeID : string) (t : CeremonyTrustee) : CeremonyTrustee :=
  if String.eqb (TID t) trusteeID then set_progress true (or_now now (SubmittedAt t)) t else t.

Definition markSubmitted (now : Z) (c : Config.ElectionConfig) (trusteeID : string) (s : run) :
    run * result unit :=
  if negb (ceremonyRecorded s) then (s, Err errNotClosed)
  else
    let st := readCeremony c s in
    let st := set_trustees (mark_row now trusteeID <$> Trustees st) st in
    (clearSubmitErr [trusteeID] (writeCeremonyLocked now c (Some st) s), Ok tt).

Definition markPublished (now : Z) (c : Config.ElectionConfig) (s : run) : run :=
  let st := readCeremony c s in
  let st := MkState (Threshold st) (Trustees st) (NSubmitted st) (Unlocked st) true (OnChain st)
              (Ready st) (Busy st) (StartedAt st) (ClosedAt st) (or_now now (PublishedAt st)) in
  writeCeremonyLocked now c (Some st) s.

Definition recordChainSubmitted (c : Config.ElectionConfig) (ids : list string) (s : run) : run :=
  if negb (ceremonyRecorded s) then s
  else
    let st := readCeremony c s in
    let row t := if bool_decide (TID t ∈ ids) then set_progress true (SubmittedAt t) t else t in
    clearSubmitErr ids (set_json (set_trustees (row <$> Trustees st) st) s).

Definition beginSubmit (trusteeID : string) (s : run) : run :=
  set_inflight trusteeID (delete trusteeID (submitErr s)) s.

Definition endSubmit (trusteeID : string) (r : result unit) (s : run) : run :=
  match r with
  | Ok _ => set_inflight "" (delete trusteeID (submitErr s)) s
  | Err e => set_inflight "" (<[trusteeID := e]> (submitErr s)) s
  end.

Definition submittingTrustee (s : run) : string := submitting s.

(** ** The bundle *)
Definition bundleFrom (s : run) : run * result onChainBundle :=
  match bundle s with
  | Some b => (s, Ok b)
  | None =>
      match header s with
      | None => (s, Err (Errorf "this run has no generated election to submit — run Generate first: %w"
                           [AErr (Foreign "header.json")]))
      | Some h =>
          let b := MkBundle (HElectionID h) (HParams h) (HDkg h) "ballots.ndjson" (HN h)
                     (HPartialDecryptions h) (HTally h) in
          (set_bundle b s, Ok b)
      end
  end.

Definition readBundle (s : run) : result onChainBundle :=
  match bundle s with
  | None => Err (Errorf "no generated bundle for this run — start the ceremony first: %w"
                   [AErr (Foreign "bundle.json")])
  | Some b => Ok b
  end.

Definition ordinals : list (Z * string) :=
  [(2, "second"); (3, "third"); (4, "fourth"); (5, "fifth"); (6, "sixth"); (7, "seventh");
   (8, "eighth"); (9, "ninth"); (10, "tenth")].

Definition belowThresholdRefusal (st : CeremonyState) : string :=
  let missing := wrap64 (Threshold st - NSubmitted st) in
  let until :=
    if missing =? 1 then
      match find (λ p, p.1 =? Threshold st) ordinals with
      | Some (_, w) => "a " +:+ w +:+ " trustee submits"
      | None => "one more trustee submits"
      end
    else Itoa missing +:+ " more trustees submit" in
  let msg := "Decryption refused: " +:+ Itoa (NSubmitted st) +:+ " of " +:+
    Itoa (Z.of_nat (length (Trustees st))) +:+ " shares recorded, the threshold is " +:+
    Itoa (Threshold st) +:+ ". The tally cannot be decrypted until " +:+ until +:+ "." in
  if OnChain st then
    msg +:+ " Nothing was sent to the ledger; a chaincode with the signature gate would refuse it too, since PublishTally rejects a tally endorsed by fewer than "
      +:+ Itoa (Threshold st) +:+ " trustee signatures."
  else msg.

Definition trusteeDisplayName (c : Config.ElectionConfig) (trusteeID : string) : string :=
  match Atoi trusteeID with
  | Some idx =>
      if (idx <? 1) || (Z.of_nat (length (Config.Trustees c)) <? idx) then trusteeID
      else
        match Config.Trustees c !! Z.to_nat (idx - 1) with
        | Some t => let name := TrimSpace (Config.TrusteeName t) in
                    if String.eqb name EmptyString then trusteeID else name
        | None => trusteeID
        end
  | None => trusteeID
  end.

(** The network's configuration, and whether a dial succeeds. *)
Record network := MkNetwork { Enabled : bool; dial : result unit }.

Definition errNoFabric : goerr :=
  Errorf "on-chain mode needs a Fabric network: start the console with --fabric-tls-cert, --fabric-cert and --fabric-key (and --fabric-peer if the peer is not at the default endpoint)" [].

Definition onChainRun (net : network) (c : Config.ElectionConfig) : bool :=
  String.eqb (Config.Mode c) "onchain" && Enabled net.

Definition useLedger (net : network) (c : Config.ElectionConfig) : result bool :=
  if String.eqb (Config.Mode c) "onchain" then
    if negb (Enabled net) then Err errNoFabric else Ok true
  else Ok false.

Section ceremony.
Context `{Proto}.

(** ** Shares *)
Definition decodePartial (ph : string) : result PartialDecryption.t :=
  let? raw := wrap_err (λ e, Errorf "not valid hex: %w" [AErr e]) (DecodeString ph) in
  wrap_err (λ e, Errorf "decode: %w" [AErr e]) (UnmarshalPartialDecryption raw).

(** The loop from index [i]. *)
Fixpoint group_partials (i : Z) (l : list string) (m : gmap string (list string)) :
    result (gmap string (list string)) :=
  match l with
  | [] => Ok m
  | ph :: l =>
      let? pd := wrap_err (λ e, Errorf "partial decryption %d: %w" [AInt i; AErr e])
                   (decodePartial ph) in
      let id := PartialDecryption.TrusteeId pd in
      if bool_decide (id = "") then
        Err (Errorf "partial decryption %d carries no trustee id" [AInt i])
      else group_partials (i + 1) l (<[id := default [] (m !! id) ++ [ph]]> m)
  end.

Definition partialsByTrustee (b : onChainBundle) : result (gmap string (list string)) :=
  group_partials 0 (PartialDecryptions b) ∅.

Definition sameShare (chainHex bundleHex : string) : bool :=
  match DecodeString chainHex, DecodeString bundleHex with
  | Ok a, Ok b => bytes_equal a b
  | _, _ => false
  end.

(** ** The ledger, as the ceremony uses it *)
Context {W : Type}
  (GetPartialDecryption : W → string → string → string → result string)
  (GetTally : W → string → result string)
  (led_Submit : string → list string → W → W * result unit).

Definition shareOnChain (w : W) (electionID trusteeID pdHex : string) : result bool :=
  let? pd := decodePartial pdHex in
  match GetPartialDecryption w electionID (PartialDecryption.ContestId pd) trusteeID with
  | Err _ => Ok false
  | Ok got =>
      if negb (sameShare got pdHex) then
        Err (Errorf "a different share is already recorded for contest %s (trustee %s)"
               [AStr (PartialDecryption.ContestId pd); AStr trusteeID])
      else Ok true
  end.

(** One lifecycle step: refused once the context is over, else a transaction. *)
Definition step (ctx : option goerr) (event fn : string) (args : list string) (w : W) :
    W * result unit :=
  match ctx with
  | Some e => (w, Err e)
  | None =>
      let '(w, r) := led_Submit fn args w in
      (w, wrap_err (λ e, Errorf "%s: %w" [AStr event; AErr e]) r)
  end.

(** The submission loop over a trustee's shares. *)
Fixpoint submit_shares (ctx : option goerr) (electionID trusteeID : string) (mine : list string)
    (w : W) : W * result unit :=
  match mine with
  | [] => (w, Ok tt)
  | pd :: mine =>
      match shareOnChain w electionID trusteeID pd with
      | Err e => (w, Err e)
      | Ok true => submit_shares ctx electionID trusteeID mine w
      | Ok false =>
          match step ctx "SubmitPartialDecryption" "SubmitPartialDecryption" [electionID; pd] w with
          | (w, Err e) => (w, Err e)
          | (w, Ok _) => submit_shares ctx electionID trusteeID mine w
          end
      end
  end.

(** The body of CeremonySubmit, between [beginSubmit] and the deferred [endSubmit]. *)
Definition ceremony_submit_body (net : network) (ctx : option goerr) (now : Z)
    (c : Config.ElectionConfig) (trusteeID : string) (s : run) (w : W) : run * W * result unit :=
  match readBundle s with Err e => (s, w, Err e) | Ok b =>
  match partialsByTrustee b with Err e => (s, w, Err e) | Ok byTrustee =>
  match byTrustee !! trusteeID with
  | None => (s, w, Err (Errorf "trustee %q holds no shares in this election" [AStr trusteeID]))
  | Some mine =>
  match useLedger net c with
  | Err e => (s, w, Err e)
  | Ok false => let '(s, r) := markSubmitted now c trusteeID s in (s, w, r)
  | Ok true =>
      match dial net with
      | Err e => (s, w, Err e)
      | Ok _ =>
          match submit_shares ctx (ElectionID b) trusteeID mine w with
          | (w, Err e) => (s, w, Err e)
          | (w, Ok _) => let '(s, r) := markSubmitted now c trusteeID s in (s, w, r)
          end
      end
  end end end end.

Definition CeremonySubmit (net : network) (ctx : option goerr) (now : Z)
    (c : Config.ElectionConfig) (trusteeID : string) (s : run) (w : W) : run * W * result unit :=
  let '(s, w, r) := ceremony_submit_body net ctx now c trusteeID (beginSubmit trusteeID s) w in
  (endSubmit trusteeID r s, w, r).

(** ** Status *)
Definition all_on_chain (w : W) (electionID trusteeID : string) (mine : list string) : bool :=
  forallb (λ pd, match shareOnChain w electionID trusteeID pd with Ok true => true | _ => false end)
    mine.

Definition refresh_row (w : W) (electionID : string) (byTrustee : gmap string (list string))
    (t : CeremonyTrustee) : CeremonyTrustee :=
  let mine := default [] (byTrustee !! TID t) in
  if Submitted t || (length mine =? 0)%nat then t
  else set_progress (all_on_chain w electionID (TID t) mine) (SubmittedAt t) t.

(** The refreshed state and the trustees newly seen on the chain. *)
Definition refreshFromChain (net : network) (w : W) (st : CeremonyState) (b : onChainBundle)
    (byTrustee : gmap string (list string)) : CeremonyState * list string :=
  match dial net with
  | Err _ => (st, [])
  | Ok _ =>
      let rows := refresh_row w (ElectionID b) byTrustee <$> Trustees st in
      let seen := TID <$> filter (λ t, negb (Submitted t)
                     && negb (length (default [] (byTrustee !! TID t)) =? 0)%nat
                     && all_on_chain w (ElectionID b) (TID t) (default [] (byTrustee !! TID t)) = true)
                   (Trustees st) in
      let published := match GetTally w (ElectionID b) with Ok _ => true | Err _ => Published st end in
      (MkState (Threshold st) rows (NSubmitted st) (Unlocked st) published (OnChain st) (Ready st)
         (Busy st) (StartedAt st) (ClosedAt st) (PublishedAt st), seen)
  end.

Definition count_submitted (l : list CeremonyTrustee) : Z :=
  Z.of_nat (length (filter (λ t, Submitted t = true) l)).

Context (ErrorText : goerr → string).

(** [CeremonyStatus]: the state reported and the run after recording what the
    chain showed. *)
Definition CeremonyStatus (net : network) (c : Config.ElectionConfig) (s : run) (w : W) :
    run * CeremonyState :=
  let st0 := readCeremony c s in
  let on := onChainRun net c in
  let st1 := MkState (Threshold st0) (Trustees st0) (NSubmitted st0) (Unlocked st0) (Published st0)
               on false (Busy st0) (StartedAt st0) (ClosedAt st0) (PublishedAt st0) in
  let '(s, st2) :=
    match readBundle s with
    | Err _ => (s, st1)
    | Ok b =>
        let ready := bool_decide (is_Some (ClosedAt st1)) || ceremonyRecorded s in
        let groups := partialsByTrustee b in
        let byTrustee := match groups with Ok m => m | Err _ => ∅ end in
        let rows := match groups with
          | Ok m => (λ t, set_contests (Z.of_nat (length (default [] (m !! TID t)))) t) <$> Trustees st1
          | Err _ => Trustees st1
          end in
        let st := MkState (Threshold st1) rows (NSubmitted st1) (Unlocked st1) (Published st1) on
                    ready (Busy st1) (StartedAt st1) (ClosedAt st1) (PublishedAt st1) in
        if on then
          let '(st, seen) := refreshFromChain net w st b byTrustee in
          (if (length seen =? 0)%nat then s else recordChainSubmitted c seen s, st)
        else (s, st)
    end in
  let rows := (λ t, set_phase (String.eqb (submitting s) (TID t))
                 (if Submitted t then SubmitError t
                  else match submitErr s !! TID t with Some e => ErrorText e | None => "" end) t)
                <$> Trustees st2 in
  let n := count_submitted rows in
  (s, MkState (Threshold st2) rows n (Threshold st2 <=? n) (Published st2) (OnChain st2)
        (Ready st2) (submitting s) (StartedAt st2) (ClosedAt st2) (PublishedAt st2)).

(** ** Publication *)
Definition tallyToPublish (tallyHex : string) (state : CeremonyState) : result string :=
  let? raw := wrap_err (λ e, Errorf "this run's tally is not valid hex: %w" [AErr e])
                (DecodeString tallyHex) in
  let? tally := wrap_err (λ e, Errorf "decode this run's tally: %w" [AErr e])
                  (UnmarshalTallyResult raw) in
  if (length (TallyResult.Signatures tally) =? 0)%nat then Ok tallyHex
  else
    let submitted := TID <$> filter (λ t, Submitted t = true) (Trustees state) in
    let kept := filter (λ sig, TrusteeSignature.TrusteeId sig ∈ submitted)
                  (TallyResult.Signatures tally) in
    let? out := wrap_err (λ e, Errorf "re-encode tally: %w" [AErr e])
      (MarshalTallyResult (TallyResult.Make (TallyResult.Version tally)
         (TallyResult.ElectionId tally) (TallyResult.Totals tally)
         (TallyResult.PartialDecryptions tally) kept)) in
    Ok (EncodeToString out).

(** [paused] is the context's error after the ceremony stage's attack pause. *)
Definition CeremonyPublish (net : network) (ctx paused : option goerr) (now : Z)
    (c : Config.ElectionConfig) (s : run) (w : W) : run * W * result unit :=
  let '(s, state) := CeremonyStatus net c s w in
  if negb (Unlocked state) then (s, w, Err (Errorf "%s" [AStr (belowThresholdRefusal state)]))
  else
  match readBundle s with Err e => (s, w, Err e) | Ok b =>
  match useLedger net c with
  | Err e => (s, w, Err e)
  | Ok false =>
      let stop := match Config.AttackPlan c with
                  | Some p => if bool_decide (Config.StageCeremony ∈ Config.Stages p) then paused else None
                  | None => None
                  end in
      match stop with
      | Some e => (s, w, Err e)
      | None => (markPublished now c s, w, Ok tt)
      end
  | Ok true =>
      match dial net with
      | Err e => (s, w, Err e)
      | Ok _ =>
          match tallyToPublish (Tally b) state with
          | Err e => (s, w, Err e)
          | Ok tallyHex =>
              match step ctx "PublishTally" "PublishTally" [tallyHex] w with
              | (w, Err e) => (s, w, Err e)
              | (w, Ok _) => (markPublished now c s, w, Ok tt)
              end
          end
      end
  end end.

(** [CeremonyStart] of a run that does not use the ledger: the bundle, the
    pauses of an attack plan ([paused] as above), then the close record. *)
Definition CeremonyStart_local (paused : option goerr) (now : Z) (c : Config.ElectionConfig)
    (s : run) : run * result unit :=
  match bundleFrom s with
  | (s, Err e) => (s, Err (Errorf "bundle: %w" [AErr e]))
  | (s, Ok _) =>
      let stop := match Config.AttackPlan c with Some _ => paused | None => None end in
      match stop with
      | Some e => (s, Err e)
      | None => (writeCeremonyLocked now c None s, Ok tt)
      end
  end.
End ceremony.

End Ceremony.
