(* ===== verification/CeremonyFacts.v ===== *)
(** * The ceremony gate

    A local ceremony is published only when the threshold of distinct trustees,
    each holding shares in the run's bundle, has submitted; the tally sent to the
    ledger carries exactly their signatures. *)
From S2P Require Import Prelude Hex Wire GoText Config Ceremony.
#[local] Open Scope Z_scope.
Import GoText Ceremony.

(** ** The roster *)
Definition roster_ids (c : Config.ElectionConfig) : list string :=
  TID <$> Trustees (newCeremony c).

Definition progress (t : CeremonyTrustee) : string * (bool * option Z) :=
  (TID t, (Submitted t, SubmittedAt t)).

Lemma roster_ids_eq c :
  roster_ids c = imap (λ i _, Itoa (Z.of_nat i + 1)) (Config.Trustees c).
Proof. unfold roster_ids, newCeremony. cbn. by rewrite fmap_imap. Qed.

Lemma roster_ids_NoDup c : NoDup (roster_ids c).
Proof.
  rewrite roster_ids_eq. apply NoDup_alt. intros i j x. rewrite !list_lookup_imap.
  destruct (_ !! i), (_ !! j); try done. cbn. intros [= <-] [= E].
  apply Itoa_inj in E. lia.
Qed.

Lemma stored_progress_lookup (l : list CeremonyTrustee) t :
  NoDup (TID <$> l) → t ∈ l → stored_progress l !! TID t = Some (Submitted t, SubmittedAt t).
Proof.
  unfold stored_progress. induction l as [|x l IH] using rev_ind; [by intros _ ?%not_elem_of_nil|].
  rewrite fmap_app, foldl_app. cbn [foldl fmap list_fmap].
  intros (Hnd & Hdis & _)%NoDup_app [Ht| ->%list_elem_of_singleton]%elem_of_app.
  - rewrite lookup_insert_ne; [by apply IH|]. intros E.
    apply (Hdis (TID t)); [by apply list_elem_of_fmap_2 | rewrite <- E; apply list_elem_of_here].
  - by rewrite lookup_insert_eq.
Qed.

Lemma readCeremony_ids c s : TID <$> Trustees (readCeremony c s) = roster_ids c.
Proof.
  unfold readCeremony. destruct (ceremony_json s); [|done]. cbn.
  by rewrite <- list_fmap_compose.
Qed.

(** Reading back a file with the configured roster restores every row. *)
Lemma readCeremony_progress c s st :
  ceremony_json s = Some st → TID <$> Trustees st = roster_ids c →
  progress <$> Trustees (readCeremony c s) = progress <$> Trustees st.
Proof.
  intros Hs Hids. unfold readCeremony. rewrite Hs. cbn.
  assert (NoDup (TID <$> Trustees st)) as Hnd by (rewrite Hids; apply roster_ids_NoDup).
  assert (∀ l l' : list CeremonyTrustee, TID <$> l = TID <$> l' → (∀ t, t ∈ l' → t ∈ Trustees st) →
    progress <$> ((λ t, set_progress (default (false, None) (stored_progress (Trustees st) !! TID t)).1
      (default (false, None) (stored_progress (Trustees st) !! TID t)).2 t) <$> l) = progress <$> l') as Hl.
  { intros l. induction l as [|x l IH]; intros [|y l'] E Hin; [done | discriminate E | discriminate E |].
    cbn in E. injection E as Exy E. cbn. f_equal.
    - unfold progress. cbn. rewrite Exy, (stored_progress_lookup _ y); [done | done |].
      apply Hin, list_elem_of_here.
    - apply IH; [done|]. intros t Ht. by apply Hin, list_elem_of_further. }
  apply Hl; [|done]. by rewrite Hids.
Qed.

Lemma count_progress (l l' : list CeremonyTrustee) : progress <$> l = progress <$> l' → count_submitted l = count_submitted l'.
Proof.
  unfold count_submitted. revert l'. induction l as [|x l IH]; intros [|y l']; try done.
  rewrite !fmap_cons. intros [= _ E _ El]. specialize (IH _ El). rewrite !filter_cons, E.
  case_decide; cbn; lia.
Qed.

Lemma progress_ids (l l' : list CeremonyTrustee) : progress <$> l = progress <$> l' → TID <$> l = TID <$> l'.
Proof.
  intros E. apply (f_equal (fmap fst)) in E. by rewrite <- !list_fmap_compose in E.
Qed.

Lemma progress_in (l l' : list CeremonyTrustee) t :
  progress <$> l = progress <$> l' → t ∈ l → Submitted t = true →
  ∃ t', t' ∈ l' ∧ TID t' = TID t ∧ Submitted t' = true.
Proof.
  intros E Ht Hs. apply (list_elem_of_fmap_2 progress) in Ht. rewrite E in Ht.
  apply list_elem_of_fmap in Ht as (t' & Ep & Ht'). injection Ep as E1 E2 _.
  exists t'. split_and!; [done | done | congruence].
Qed.

Lemma progress_fmap (f : CeremonyTrustee → CeremonyTrustee) (l : list CeremonyTrustee) :
  (∀ t, progress (f t) = progress t) → progress <$> (f <$> l) = progress <$> l.
Proof. intros Hf. rewrite <- list_fmap_compose. apply list_fmap_ext. intros ? t _. apply Hf. Qed.

Section local.
Context `{Proto} {W : Type}
  (GetPartialDecryption : W → string → string → string → result string)
  (GetTally : W → string → result string)
  (led_Submit : string → list string → W → W * result unit) (ErrorText : goerr → string).
Context (net : network) (c : Config.ElectionConfig).
Hypothesis Hlocal : Config.Mode c ≠ "onchain".

Let status := CeremonyStatus GetPartialDecryption GetTally ErrorText net c.
Let publish := CeremonyPublish GetPartialDecryption GetTally led_Submit ErrorText net.

(** What a client of a local run can do. *)
Inductive action :=
| AStart (paused : option goerr) (now : Z)
| ASubmit (ctx : option goerr) (now : Z) (trusteeID : string)
| APublish (ctx paused : option goerr) (now : Z)
| AStatus.

Definition act (a : action) (s : run) (w : W) : run :=
  match a with
  | AStart paused now => (CeremonyStart_local paused now c s).1
  | ASubmit ctx now t =>
      (CeremonySubmit GetPartialDecryption led_Submit net ctx now c t s w).1.1
  | APublish ctx paused now => (publish ctx paused now c s w).1.1
  | AStatus => (status s w).1
  end.

Definition acts (l : list action) (w : W) (s : run) : run := foldl (λ s a, act a s w) s l.

(** [id] owns shares in the run's bundle. *)
Definition holds_shares (s : run) (id : string) : Prop :=
  ∃ b m, bundle s = Some b ∧ partialsByTrustee b = Ok m ∧ is_Some (m !! id).

Definition good (s : run) : Prop :=
  ∀ st, ceremony_json s = Some st →
    TID <$> Trustees st = roster_ids c ∧
    (Published st = true → Config.Threshold c ≤ count_submitted (Trustees st)) ∧
    ∀ t, t ∈ Trustees st → Submitted t = true → holds_shares s (TID t).

Lemma useLedger_local : useLedger net c = Ok false.
Proof. unfold useLedger. destruct (String.eqb_spec (Config.Mode c) "onchain"); done. Qed.

Lemma onChainRun_local : onChainRun net c = false.
Proof. unfold onChainRun. destruct (String.eqb_spec (Config.Mode c) "onchain"); done. Qed.

Lemma Published_read s :
  Published (readCeremony c s) = match ceremony_json s with Some st => Published st | None => false end.
Proof. unfold readCeremony. by destruct (ceremony_json s). Qed.

Lemma Threshold_read s : Threshold (readCeremony c s) = Config.Threshold c.
Proof. unfold readCeremony. by destruct (ceremony_json s). Qed.

Lemma status_local s w :
  (status s w).1 = s ∧
  progress <$> Trustees (status s w).2 = progress <$> Trustees (readCeremony c s) ∧
  NSubmitted (status s w).2 = count_submitted (Trustees (readCeremony c s)) ∧
  Unlocked (status s w).2 = (Config.Threshold c <=? count_submitted (Trustees (readCeremony c s))) ∧
  Published (status s w).2 = Published (readCeremony c s).
Proof.
  unfold status, CeremonyStatus. rewrite onChainRun_local.
  set (st2 := match readBundle s with Err _ => _ | Ok b => _ end).
  assert (st2.1 = s ∧ progress <$> Trustees st2.2 = progress <$> Trustees (readCeremony c s) ∧
    Published st2.2 = Published (readCeremony c s) ∧ Threshold st2.2 = Config.Threshold c)
    as (H1 & H2 & H3 & H4).
  { subst st2. destruct (readBundle s) as [b|]; cbn; rewrite Threshold_read; split_and!; try done.
    destruct (partialsByTrustee b); [|done]. by apply progress_fmap. }
  destruct st2 as [s2 st2]. cbn in *. subst s2.
  assert (∀ f, (∀ t, progress (f t) = progress t) →
    count_submitted (f <$> Trustees st2) = count_submitted (Trustees (readCeremony c s))) as Hc.
  { intros f Hf. apply count_progress. by rewrite progress_fmap. }
  split_and!; [done | by rewrite progress_fmap | by apply Hc | by rewrite H4, Hc | done].
Qed.

(** The state a trustee's or a publication's write leaves. *)
Lemma good_write s now st :
  TID <$> Trustees st = roster_ids c →
  (Published st = true → Config.Threshold c ≤ count_submitted (Trustees st)) →
  (∀ t, t ∈ Trustees st → Submitted t = true → holds_shares s (TID t)) →
  good (writeCeremonyLocked now c (Some st) s).
Proof. intros H1 H2 H3 st' [= <-]. cbn. done. Qed.

(** What [good] says of the roster as read back. *)
Lemma good_read s :
  good s →
  (Published (readCeremony c s) = true →
     Config.Threshold c ≤ count_submitted (Trustees (readCeremony c s))) ∧
  ∀ t, t ∈ Trustees (readCeremony c s) → Submitted t = true → holds_shares s (TID t).
Proof.
  intros Hg. destruct (ceremony_json s) as [st|] eqn:E.
  - destruct (Hg _ E) as (Hids & Hp & Hh).
    pose proof (readCeremony_progress c s st E Hids) as Hpr. split.
    + rewrite Published_read, E, (count_progress _ _ Hpr). done.
    + intros t Ht Hs. destruct (progress_in _ _ _ Hpr Ht Hs) as (t' & Ht' & <- & Hs'). auto.
  - split; [by rewrite Published_read, E|]. unfold readCeremony. rewrite E. cbn.
    intros t (i & x & -> & _)%elem_of_lookup_imap_1 Hs. done.
Qed.

Lemma mark_row_ids now id (l : list CeremonyTrustee) : TID <$> (mark_row now id <$> l) = TID <$> l.
Proof.
  rewrite <- list_fmap_compose. apply list_fmap_ext. intros ? t _. cbn. unfold mark_row.
  by destruct (String.eqb _ _).
Qed.

Lemma count_mark_row now id l : count_submitted l ≤ count_submitted (mark_row now id <$> l).
Proof.
  unfold count_submitted. induction l as [|t l IH]; [done|].
  rewrite fmap_cons, !filter_cons.
  assert (Submitted t = true → Submitted (mark_row now id t) = true) as Hm
    by (unfold mark_row; by destruct (String.eqb _ _)).
  repeat case_decide; cbn [length]; try lia. tauto.
Qed.

Lemma good_mark s now id s' r :
  good s → holds_shares s id → markSubmitted now c id s = (s', r) →
  good s' ∧ bundle s' = bundle s.
Proof.
  intros Hg Hid. unfold markSubmitted. destruct (ceremonyRecorded s); cbn [negb].
  2:{ by intros [= <- _]. }
  intros [= <- _]. split; [|done]. destruct (good_read s Hg) as [Hp Hh].
  apply good_write; cbn [Trustees Published set_trustees].
  - by rewrite mark_row_ids, readCeremony_ids.
  - intros Hpub. specialize (Hp Hpub).
    pose proof (count_mark_row now id (Trustees (readCeremony c s))). lia.
  - intros t (t0 & -> & Ht0)%list_elem_of_fmap Hs. unfold mark_row in Hs |- *.
    destruct (String.eqb_spec (TID t0) id) as [E|]; [cbn; by rewrite E|]. auto.
Qed.

Lemma good_act a s w : good s → good (act a s w).
Proof.
  intros Hg. destruct a as [paused now|ctx now id|ctx paused now|]; cbn [act].
  - unfold CeremonyStart_local.
    assert ((bundleFrom s).1 = s ∨
      (ceremony_json (bundleFrom s).1 = ceremony_json s ∧ bundle s = None)) as Hb
      by (unfold bundleFrom; destruct (bundle s); [by left|]; destruct (header s); cbn; auto).
    destruct (bundleFrom s) as [s1 [b|e]] eqn:E; cbn in Hb |- *.
    + assert (good s1) as Hg1.
      { destruct Hb as [->|[Hj Hnone]]; [done|]. intros st Hst. rewrite Hj in Hst.
        destruct (Hg _ Hst) as (? & ? & Hh). split_and!; [done | done |].
        intros t Ht Hs. destruct (Hh t Ht Hs) as (? & ? & Hb' & _). congruence. }
      destruct (match Config.AttackPlan c with Some _ => paused | None => None end); [done|].
      destruct (good_read s1 Hg1) as [Hp Hh].
      apply (good_write s1 now (readCeremony c s1)); [apply readCeremony_ids | done | done].
    + destruct Hb as [->|[Hj Hnone]]; [done|]. intros st Hst. rewrite Hj in Hst.
      destruct (Hg _ Hst) as (? & ? & Hh). split_and!; [done | done |].
      intros t Ht Hs. destruct (Hh t Ht Hs) as (? & ? & Hb' & _). congruence.
  - unfold CeremonySubmit, ceremony_submit_body. set (s1 := beginSubmit id s).
    assert (good s1) as Hg1 by exact Hg.
    rewrite useLedger_local.
    destruct (readBundle s1) as [b|e] eqn:Eb; [|exact Hg].
    destruct (partialsByTrustee b) as [m|e] eqn:Em; [|exact Hg].
    destruct (m !! id) as [mine|] eqn:El; [|exact Hg].
    destruct (markSubmitted now c id s1) as [s2 r] eqn:Es.
    assert (holds_shares s1 id) as Hh.
    { exists b, m. unfold readBundle in Eb. destruct (bundle s1); [|done]. injection Eb as <-. eauto. }
    destruct (good_mark _ _ _ _ _ Hg1 Hh Es) as [Hg2 _]. by destruct r.
  - unfold publish, CeremonyPublish.
    destruct (status_local s w) as (H1 & _ & _ & H4 & _). unfold status in *.
    destruct (CeremonyStatus _ _ _ _ _ s w) as [s1 st]. cbn in H1, H4 |- *. subst s1.
    rewrite useLedger_local, H4. destruct (Z.leb_spec (Config.Threshold c)
      (count_submitted (Trustees (readCeremony c s)))) as [Hthr|]; cbn [negb]; [|done].
    destruct (readBundle s); [|done].
    destruct (match Config.AttackPlan c with Some _ => _ | None => _ end); [done|].
    destruct (good_read s Hg) as [Hp Hh]. cbn.
    apply good_write; [apply readCeremony_ids | done | done].
  - by rewrite (proj1 (status_local s w)).
Qed.

Lemma good_acts l w s : good s → good (acts l w s).
Proof.
  revert s. induction l as [|a l IH]; intros s Hs; [done|]. cbn. by apply IH, good_act.
Qed.

(** the threshold gates publication. After any sequence of starts, trustee
    submissions, publications and status polls of a run that does not use the
    ledger, from a run with no progress file: the roster lists every trustee
    once; whoever counts as submitted owns shares in the run's bundle; a tally
    shown as published has at least the threshold of submitted trustees; and a
    publication is accepted exactly when the threshold has been reached. *)
Theorem local_ceremony_gate l w s :
  ceremony_json s = None →
  let s' := acts l w s in
  let st := (status s' w).2 in
  NoDup (TID <$> Trustees st) ∧
  NSubmitted st = count_submitted (Trustees st) ∧
  (∀ t, t ∈ Trustees st → Submitted t = true → holds_shares s' (TID t)) ∧
  (Published st = true → Config.Threshold c ≤ NSubmitted st) ∧
  ∀ now, (publish None None now c s' w).2 = Ok tt ↔
         is_Some (bundle s') ∧ Config.Threshold c ≤ NSubmitted st.
Proof.
  intros Hnone s' st.
  assert (good s') as Hg by (apply good_acts; intros ? E; congruence).
  destruct (status_local s' w) as (H1 & H2 & H3 & H4 & H5). fold st in H2, H3, H4, H5.
  destruct (good_read s' Hg) as [Hp Hh]. split_and!.
  - rewrite (progress_ids _ _ H2), readCeremony_ids. apply roster_ids_NoDup.
  - rewrite H3. symmetry. by apply count_progress.
  - intros t Ht Hs. destruct (progress_in _ _ _ H2 Ht Hs) as (t' & Ht' & <- & Hs'). auto.
  - rewrite H5, H3. done.
  - intros now. unfold publish, CeremonyPublish. rewrite H3.
    subst st. unfold status in *.
    destruct (CeremonyStatus _ _ _ _ _ s' w) as [s1 st1]. cbn in H1, H4 |- *. subst s1.
    rewrite useLedger_local, H4.
    destruct (Z.leb_spec (Config.Threshold c) (count_submitted (Trustees (readCeremony c s'))));
      cbn [negb]; [|split; [done | lia]].
    unfold readBundle. destruct (bundle s') as [b|]; [|split; [done | by intros [[] _]]].
    replace (match Config.AttackPlan c with Some _ => _ | None => _ end) with (@None goerr)
      by (by destruct (Config.AttackPlan c); [case_bool_decide|]).
    split; [intros _; split; [eauto | done] | done].
Qed.
End local.
