(* ===== verification/CeremonyLedger.v ===== *)
(** * The ceremony on the chaincode's ledger

    The on-chain ceremony of [saksi-campaign/ceremony.go] run against the model
    of the chaincode: a trustee's submission can be retried, and the ledger's
    signature gate counts exactly the trustees that submitted. *)
From S2P Require Import Prelude Fabric Hex Wire Ristretto CdsVerify SigVerify Contract BoardSpec.
From S2P Require Import HandlerFacts GoText Config Ceremony.
#[local] Open Scope Z_scope.
Import GoText Ceremony.

(** [proto.Marshal] on tallies: what it encodes decodes to the same message. *)
Class TallyEncodeLaw `{Proto} := {
  UnmarshalTally_Marshal : ∀ t raw, MarshalTallyResult t = Ok raw → UnmarshalTallyResult raw = Ok t
}.

Section chain.
Context `{FabricShimLaws, Proto, Ristretto, Merlin, Json}.

(** The chaincode calls the ceremony makes. *)
Definition chain_get_partial (w : worldstate) (electionID contestID trusteeID : string) :
    result string :=
  evaluate (Contract.GetPartialDecryption electionID contestID trusteeID) (healthy w).

Definition chain_get_tally (w : worldstate) (electionID : string) : result string :=
  evaluate (Contract.GetTally electionID) (healthy w).

Definition chain_submit (fn : string) (args : list string) (w : worldstate) :
    worldstate * result unit :=
  if String.eqb fn "SubmitPartialDecryption" then
    match args with
    | [e; pd] => submit (Contract.SubmitPartialDecryption e pd) (healthy w)
    | _ => (w, Err (Foreign "Incorrect number of params"))
    end
  else if String.eqb fn "PublishTally" then
    match args with
    | [h] => submit (Contract.PublishTally h) (healthy w)
    | _ => (w, Err (Foreign "Incorrect number of params"))
    end
  else (w, Err (Foreign "Function not found in contract")).

Abbreviation ShareOnChain := (shareOnChain chain_get_partial).
Abbreviation SubmitShares := (submit_shares chain_get_partial chain_submit).

(** ** Reading a share back *)
Lemma decodePartial_ok ph pd :
  decodePartial ph = Ok pd ↔
  ∃ raw, DecodeString ph = Ok raw ∧ UnmarshalPartialDecryption raw = Ok pd.
Proof. unfold decodePartial. rewrite rbind_ok. by setoid_rewrite wrap_err_ok. Qed.

Lemma chain_get_partial_ok w B e ct t v :
  represents w B →
  chain_get_partial w e ct t = Ok v ↔
  ∃ raw, B !! KPartial e ct t = Some raw ∧ v = EncodeToString raw.
Proof.
  intros HB. unfold chain_get_partial, evaluate, Contract.GetPartialDecryption.
  split.
  - intros Hr. destruct (Contract.get_record _ _ _ _ _ _ _) as [[v' t']|] eqn:E in Hr; [|done].
    injection Hr as ->. unfold Contract.get_record in E. handler_inv E.
    eexists. split; [|done]. by eapply (represents_lookup _ _ (KPartial e ct t)).
  - intros (raw & Hraw & ->).
    destruct (rep_records _ _ HB (KPartial e ct t)) as [k Hk]; [eauto|].
    rewrite <- (rep_lookup _ _ HB _ _ Hk) in Hraw.
    assert (∃ t', Contract.get_record "build partial decryption key: %w" "read partial decryption state: %w"
      Contract.partialDecIndex [e; ct; t]
      (Errorf "no partial decryption found for election %q contest %q trustee %q"
         [AStr e; AStr ct; AStr t]) (healthy w) tx_start = Ok (EncodeToString raw, t')) as [t' ->];
      [|done].
    eexists. unfold Contract.get_record. handler_run. reflexivity.
Qed.

Lemma shareOnChain_true w B e t ph :
  represents w B →
  ShareOnChain w e t ph = Ok true ↔
  ∃ raw pd, DecodeString ph = Ok raw ∧ UnmarshalPartialDecryption raw = Ok pd ∧
            B !! KPartial e (PartialDecryption.ContestId pd) t = Some raw.
Proof.
  intros HB. unfold shareOnChain. rewrite rbind_ok. setoid_rewrite decodePartial_ok. split.
  - intros (pd & (raw & Hd & Hu) & Hr).
    destruct (chain_get_partial w e _ t) as [v|] eqn:E; [|done].
    apply (chain_get_partial_ok _ _ _ _ _ _ HB) in E as (raw' & HB' & ->).
    apply nguard_ok in Hr as [Hs _]. apply negb_false_iff in Hs. unfold sameShare in Hs.
    rewrite DecodeString_EncodeToString, Hd in Hs. apply bytes_equal_true in Hs as ->. eauto 10.
  - intros (raw & pd & Hd & Hu & HB'). exists pd. split; [eauto|].
    rewrite (proj2 (chain_get_partial_ok w B e _ t (EncodeToString raw) HB)) by eauto.
    unfold sameShare. rewrite DecodeString_EncodeToString, Hd.
    by rewrite (proj2 (bytes_equal_true _ _) eq_refl).
Qed.

(** ** Grouping by trustee *)
Lemma group_partials_owner l i m m' :
  (∀ id mine ph, m !! id = Some mine → ph ∈ mine →
     ∃ pd, decodePartial ph = Ok pd ∧ PartialDecryption.TrusteeId pd = id) →
  group_partials i l m = Ok m' →
  ∀ id mine ph, m' !! id = Some mine → ph ∈ mine →
    ∃ pd, decodePartial ph = Ok pd ∧ PartialDecryption.TrusteeId pd = id.
Proof.
  revert i m. induction l as [|x l IH]; intros i m Hm Hg; cbn [group_partials] in Hg.
  { injection Hg as <-. exact Hm. }
  apply rbind_ok in Hg as (pd & Hpd%wrap_err_ok & Hg). apply nguard_ok in Hg as [_ Hg].
  eapply IH; [|exact Hg]. intros id mine ph.
  destruct (decide (id = PartialDecryption.TrusteeId pd)) as [->|Hne].
  - rewrite lookup_insert_eq. intros [= <-] [Hin| ->%list_elem_of_singleton]%elem_of_app; [|eauto].
    destruct (m !! _) as [old|] eqn:E; [|by apply not_elem_of_nil in Hin]. by eapply Hm.
  - rewrite lookup_insert_ne by done. apply Hm.
Qed.

Lemma partialsByTrustee_owner b m id mine ph :
  partialsByTrustee b = Ok m → m !! id = Some mine → ph ∈ mine →
  ∃ pd, decodePartial ph = Ok pd ∧ PartialDecryption.TrusteeId pd = id.
Proof. intros Hm. eapply group_partials_owner; [|exact Hm]. intros ???. by rewrite lookup_empty. Qed.

(** ** The submission loop *)

(** The records of [B] survive in [B']. *)
Definition extends (B B' : board) : Prop := ∀ rk v, B !! rk = Some v → B' !! rk = Some v.

Lemma step_share w B e ph pd w' ctx :
  represents w B → decodePartial ph = Ok pd →
  step chain_submit ctx "SubmitPartialDecryption" "SubmitPartialDecryption" [e; ph] w = (w', Ok tt) →
  ∃ B' raw, represents w' B' ∧ extends B B' ∧ DecodeString ph = Ok raw ∧
    B' !! KPartial e (PartialDecryption.ContestId pd) (PartialDecryption.TrusteeId pd) = Some raw.
Proof.
  intros HB Hpd. unfold step. destruct ctx; [done|]. unfold chain_submit. cbn.
  destruct (submit _ _) as [w1 r] eqn:E. destruct r as [[]|]; [|done]. intros [= <-].
  apply submit_ok in E as (t & Hrun & ->).
  destruct (SubmitPartialDecryption_inv (healthy w) _ _ _ B HB Hrun)
    as (raw & pd' & p & kp & _ & Hd & Hu & _ & _ & _ & Hnone & Hk & Hw).
  apply decodePartial_ok in Hpd as (raw' & Hd' & Hu').
  assert (raw' = raw) as -> by congruence. assert (pd' = pd) as -> by congruence.
  rewrite Hw. cbn [world healthy].
  exists (<[KPartial e (PartialDecryption.ContestId pd) (PartialDecryption.TrusteeId pd) := raw]> B), raw.
  split_and!; [by apply represents_insert | | done | by rewrite lookup_insert_eq].
  intros rk v Hv. rewrite lookup_insert_ne; [done|]. intros <-. congruence.
Qed.

Lemma submit_shares_ok ctx e t mine w w' B :
  represents w B →
  (∀ ph, ph ∈ mine → ∃ pd, decodePartial ph = Ok pd ∧ PartialDecryption.TrusteeId pd = t) →
  SubmitShares ctx e t mine w = (w', Ok tt) →
  ∃ B', represents w' B' ∧ extends B B' ∧ Forall (λ ph, ShareOnChain w' e t ph = Ok true) mine.
Proof.
  revert w B. induction mine as [|ph mine IH]; intros w B HB Hown Hrun; cbn [submit_shares] in Hrun.
  { injection Hrun as <-. exists B. split_and!; [done | by intros ? | constructor]. }
  assert (∀ B1 w1, represents w1 B1 → extends B B1 → ShareOnChain w1 e t ph = Ok true →
    SubmitShares ctx e t mine w1 = (w', Ok tt) →
    ∃ B', represents w' B' ∧ extends B B' ∧
      Forall (λ ph, ShareOnChain w' e t ph = Ok true) (ph :: mine)) as Hrest.
  { intros B1 w1 HB1 Hext Hsh Hr.
    destruct (IH w1 B1 HB1) as (B' & HB' & Hext' & Hall); [|done|].
    - intros ph' Hin. apply Hown. by apply list_elem_of_further.
    - exists B'. split_and!; [done | intros ???; by apply Hext', Hext|].
      constructor; [|done]. apply (shareOnChain_true _ _ _ _ _ HB1) in Hsh as (raw & pd & ? & ? & Hin).
      apply (shareOnChain_true _ _ _ _ _ HB'). eauto 10. }
  destruct (ShareOnChain w e t ph) as [[]|] eqn:Esh; [| |done].
  - apply (Hrest B w HB); [by intros ???|exact Esh|exact Hrun].
  - destruct (step _ _ _ _ _ w) as [w1 [[]|]] eqn:Est; [|done].
    destruct (Hown ph) as (pd & Hpd & Ht); [apply list_elem_of_here|].
    destruct (step_share _ _ _ _ _ _ _ HB Hpd Est) as (B1 & raw & HB1 & Hext & Hd & Hin).
    eapply Hrest; [exact HB1 | done | | done]. apply (shareOnChain_true _ _ _ _ _ HB1).
    apply decodePartial_ok in Hpd as (raw' & Hd' & Hu).
    assert (raw' = raw) as -> by congruence. rewrite Ht in Hin. eauto 10.
Qed.

Lemma submit_shares_held ctx e t mine w :
  Forall (λ ph, ShareOnChain w e t ph = Ok true) mine →
  SubmitShares ctx e t mine w = (w, Ok tt).
Proof. induction 1 as [|ph mine Hph _ IH]; [done|]. cbn [submit_shares]. by rewrite Hph. Qed.

Abbreviation Submit := (CeremonySubmit chain_get_partial chain_submit).

Lemma markSubmitted_ok now c t s :
  ceremonyRecorded s = true → (markSubmitted now c t s).2 = Ok tt ∧
  bundle (markSubmitted now c t s).1 = bundle s ∧
  ceremonyRecorded (markSubmitted now c t s).1 = true.
Proof.
  intros Hr. unfold markSubmitted. rewrite Hr. cbn [negb fst snd].
  split_and!; [done | done |]. unfold ceremonyRecorded. by rewrite bool_decide_true by (cbn; eauto).
Qed.

(** A trustee's submission is all-or-nothing and idempotent. When an on-chain
    CeremonySubmit succeeds, every record that was on the ledger still is, every
    share the bundle holds for that trustee is on the ledger with the bundle's
    bytes, and submitting again (by this console or another with the same bundle,
    even with a dead context) succeeds without sending any transaction. *)
Theorem ceremony_submit_idempotent net ctx now c t s w s' w' B :
  represents w B → onChainRun net c = true →
  Submit net ctx now c t s w = (s', w', Ok tt) →
  ∃ B' b m mine, represents w' B' ∧ extends B B' ∧
    bundle s = Some b ∧ partialsByTrustee b = Ok m ∧ m !! t = Some mine ∧
    all_on_chain chain_get_partial w' (ElectionID b) t mine = true ∧
    ∀ ctx2 now2 s2, bundle s2 = Some b → ceremonyRecorded s2 = true →
      ∃ s3, Submit net ctx2 now2 c t s2 w' = (s3, w', Ok tt).
Proof.
  intros HB Hon Hrun. apply andb_true_iff in Hon as [Hmode Hen].
  assert (useLedger net c = Ok true) as Huse by (unfold useLedger; by rewrite Hmode, Hen).
  assert (∀ x, beginSubmit t x = set_inflight t (delete t (submitErr x)) x) as Hbeg by done.
  unfold CeremonySubmit in Hrun. destruct (ceremony_submit_body _ _ _ _ _ _ _ _ _) as [[s1 w1] r] eqn:E.
  injection Hrun as <- <- ->. unfold ceremony_submit_body, readBundle in E. rewrite Huse in E. cbn in E.
  destruct (bundle s) as [b|]; [|done]. destruct (partialsByTrustee b) as [m|] eqn:Em; [|done].
  destruct (m !! t) as [mine|] eqn:Et; [|done]. destruct (dial net) as [[]|] eqn:Ed; [|done].
  destruct (SubmitShares ctx (ElectionID b) t mine w) as [w2 [[]|]] eqn:Es; [|done].
  destruct (markSubmitted now c t _) as [s2 r2]. injection E as <- <- ->.
  assert (∀ ph, ph ∈ mine → ∃ pd, decodePartial ph = Ok pd ∧ PartialDecryption.TrusteeId pd = t) as Hown
    by (intros; by eapply partialsByTrustee_owner).
  destruct (submit_shares_ok _ _ _ _ _ _ _ HB Hown Es) as (B' & HB' & Hext & Hall).
  exists B', b, m, mine. split_and!; try done.
  - unfold all_on_chain. apply forallb_forall. intros ph Hin%list_elem_of_In.
    rewrite Forall_forall in Hall. by rewrite (Hall ph Hin).
  - intros ctx2 now2 s3 Hb Hrec. unfold CeremonySubmit, ceremony_submit_body, readBundle.
    rewrite Huse. cbn [bundle beginSubmit set_inflight]. rewrite Hb, Em, Et, Ed, submit_shares_held by done.
    destruct (markSubmitted_ok now2 c t (beginSubmit t s3) Hrec) as (Hr & _).
    destruct (markSubmitted now2 c t (beginSubmit t s3)) as [s4 r4]. cbn in Hr. subst r4. eauto.
Qed.

(** ** Publication *)
Context `{!TallyEncodeLaw}.

Definition submitted_ids (st : CeremonyState) : list string :=
  TID <$> filter (λ t, Submitted t = true) (Trustees st).

(** The endorsements of [t] by trustees the ceremony counts. *)
Definition endorsements (t : TallyResult.t) (st : CeremonyState) : list TrusteeSignature.t :=
  filter (λ sig, TrusteeSignature.TrusteeId sig ∈ submitted_ids st) (TallyResult.Signatures t).

Lemma tallyToPublish_ok tallyHex st h raw t :
  DecodeString tallyHex = Ok raw → UnmarshalTallyResult raw = Ok t → TallyResult.Signatures t ≠ [] →
  tallyToPublish tallyHex st = Ok h →
  ∃ raw', DecodeString h = Ok raw' ∧
    UnmarshalTallyResult raw' = Ok (TallyResult.Make (TallyResult.Version t)
      (TallyResult.ElectionId t) (TallyResult.Totals t) (TallyResult.PartialDecryptions t)
      (endorsements t st)).
Proof.
  intros Hd Hu Hs. unfold tallyToPublish. rewrite Hd. cbn. rewrite Hu. cbn.
  destruct (TallyResult.Signatures t) as [|sig sigs] eqn:E; [done|]. cbn [length Nat.eqb].
  intros (out & Hm%wrap_err_ok & [= <-])%rbind_ok. exists out.
  split; [apply DecodeString_EncodeToString|]. apply UnmarshalTally_Marshal.
  unfold endorsements, submitted_ids. by rewrite E.
Qed.

(** the ledger's signature gate counts the ceremony. Take a bundle whose tally
    the closed election's ledger would accept with all its signatures. What the
    console publishes keeps the totals and exactly the signatures of trustees that
    submitted, and the ledger accepts it if and only if at least the election's
    threshold of them endorsed it. *)
Theorem ledger_counts_the_ceremony w B tallyHex raw t params st h :
  represents w B → DecodeString tallyHex = Ok raw → UnmarshalTallyResult raw = Ok t →
  tally_accepted B t → has_election B (TallyResult.ElectionId t) params →
  1 ≤ ElectionParameters.Threshold params →
  keys_valid [KStatus (TallyResult.ElectionId t); KElection (TallyResult.ElectionId t);
    KTally (TallyResult.ElectionId t); KDkg (ElectionParameters.ElectionId params)] →
  tallyToPublish tallyHex st = Ok h →
  (chain_submit "PublishTally" [h] w).2 = Ok tt ↔
  ElectionParameters.Threshold params ≤ Z.of_nat (length (endorsements t st)).
Proof.
  intros HB Hd Hu Hacc Hel Hthr Hkeys Hpub.
  assert (TallyResult.Signatures t ≠ []) as Hsig by (destruct Hacc as (? & ? & ? & ? & ? & ? & ? & ? & Hs & _); done).
  destruct (tallyToPublish_ok _ _ _ _ _ Hd Hu Hsig Hpub) as (raw' & Hd' & Hu').
  set (t' := TallyResult.Make _ _ _ _ _) in Hu'.
  assert (∀ p, has_election B (TallyResult.ElectionId t) p → p = params) as Hsame.
  { intros p (r1 & Hp1 & Hp1'). destruct Hel as (r2 & Hp2 & Hp2'). congruence. }
  destruct Hacc as (p & tr & Hv & He & Hst & Hel' & Hlen & Hnone & _ & Htr & Hnd & Hth & Hall).
  rewrite (Hsame p Hel') in *. clear Hsame Hel'.
  unfold chain_submit. cbn. unfold submit. split.
  - destruct (Contract.PublishTally h (healthy w) tx_start) as [[[] t1]|] eqn:E; [|done]. intros _.
    destruct (PublishTally_inv (healthy w) _ _ B HB E) as (raw2 & t2 & kt & Hd2 & Hu2 & Hacc2 & _).
    assert (raw2 = raw') as -> by congruence. assert (t2 = t') as -> by congruence.
    destruct Hacc2 as (p2 & ? & _ & _ & _ & (r1 & Hp1 & Hp1') & _ & _ & _ & _ & _ & Hth2 & _).
    destruct Hel as (r2 & Hp2 & Hp2'). cbn in Hp1. assert (p2 = params) as -> by congruence. exact Hth2.
  - intros Hcount. assert (tally_accepted B t') as Hacc'.
    { exists params, tr. split_and!; try done; cbn.
      - intros E. rewrite E in Hcount. cbn in Hcount. lia.
      - split_and!; [| done |].
        + eapply sublist_NoDup; [exact Hnd|]. apply fmap_sublist, sublist_filter.
        + rewrite Forall_forall in Hall |- *. intros sig [_ Hin]%list_elem_of_filter. by apply Hall. }
    destruct (PublishTally_run w h raw' t' B params) as [t1 ->]; done.
Qed.
End chain.
