(* ===== verification/Auth.v ===== *)
(** * Console authentication

    [saksi-campaign/auth.go] and the internal-call guard of [internal.go]: the
    users file, the session table, the two login-failure counters, the login
    handler as the three critical sections it runs, and the middleware that
    decides which request reaches which route. Times are nanoseconds of a
    monotonic clock; bcrypt is a parameter. *)
From S2P Require Import Prelude GoText.
From Stdlib Require Import Ascii.
#[local] Open Scope Z_scope.
Import GoText.

(** [golang.org/x/crypto/bcrypt]. *)
Class Bcrypt := {
  CompareHashAndPassword : string → string → bool;
  Cost : string → result Z
}.

Module Auth.

Definition RoleAdmin : string := "admin".

Definition RoleTrustee : string := "trustee".

Definition Second : Z := 10 ^ 9.

Definition Minute : Z := 60 * Second.

Definition Hour : Z := 60 * Minute.

Definition sessionTTL : Z := 12 * Hour.

Definition maxLoginFailures : Z := 5.

Definition maxIPLoginFailures : Z := 50.

Definition maxUsernameBytes : Z := 256.

Definition loginFailWindow : Z := 5 * Minute.

Definition loginLockout : Z := 30 * Second.

Definition hashPasswordCost : Z := 12.

Definition errLoginRequired : string := "login required".

Definition errBadCredentials : string := "invalid credentials".

(** The literal hash unknown users are compared against. *)
Definition dummyHash : string :=
  "$2a$12$O/ckBLOYgz3kbuKTtSKRF.agFl431gkqGI0a8.Y7TIqRLYSu5zQ0S".

Record User := MkUser {
  Username : string; Role : string; TrusteeID : string; PasswordBcrypt : string
}.

Record session := MkSession {
  SUsername : string; SRole : string; STrusteeID : string; expires : Z
}.

#[global] Instance User_eq_dec : EqDecision User.
Proof. solve_decision. Defined.

#[global] Instance session_eq_dec : EqDecision session.
Proof. solve_decision. Defined.

(** ** What a route requires *)
Inductive access := accessAdmin | accessPublic | accessSignedIn | accessTrustee.

#[global] Instance access_eq_dec : EqDecision access.
Proof. solve_decision. Defined.

Definition routeAccess : gmap string access := list_to_map [
  ("/api/board/", accessPublic); ("/api/verify-code/", accessPublic);
  ("/trail/", accessPublic); ("/api/trail", accessPublic);
  ("/api/trail/", accessPublic); ("/api/capabilities", accessPublic);
  ("/api/ceremony/", accessPublic); ("/runs", accessPublic);
  ("/board/", accessPublic); ("/board", accessPublic);
  ("/trustee/", accessPublic); ("/trustee", accessPublic);
  ("/admin/", accessPublic); ("/admin", accessPublic);
  ("/api/login", accessPublic); ("/api/logout", accessPublic);
  ("/api/me", accessPublic); ("/favicon.ico", accessPublic);
  ("/wizard", accessPublic);
  ("/ceremony/publish", accessSignedIn); ("/events", accessSignedIn);
  ("/ceremony/submit", accessTrustee);
  ("/", accessAdmin); ("/generate", accessAdmin); ("/submit", accessAdmin);
  ("/verify", accessAdmin); ("/run-all", accessAdmin); ("/cancel", accessAdmin);
  ("/scenarios", accessAdmin); ("/attack", accessAdmin);
  ("/ceremony/start", accessAdmin); ("/api/runs/", accessAdmin);
  ("/api/check/", accessAdmin); ("/api/scenarios/", accessAdmin);
  ("/export/", accessAdmin); ("/api/preflight", accessAdmin);
  ("/api/ladder", accessAdmin); ("/api/jobs/", accessAdmin);
  ("/api/campaigns", accessAdmin); ("/api/campaigns/", accessAdmin);
  ("/api/network/reset", accessAdmin)].

(** A map read of a missing pattern is the zero value, [accessAdmin]. *)
Definition route_access (pattern : string) : access :=
  default accessAdmin (routeAccess !! pattern).

Definition denial (a : access) (sess : option session) : Z * string :=
  if bool_decide (a = accessPublic) then (0, EmptyString)
  else match sess with
  | None => (401, errLoginRequired)
  | Some ss =>
      match a with
      | accessSignedIn => (0, EmptyString)
      | accessTrustee =>
          if negb (String.eqb (SRole ss) RoleTrustee)
          then (403, "only a trustee may submit trustee shares") else (0, EmptyString)
      | _ =>
          if negb (String.eqb (SRole ss) RoleAdmin)
          then (403, "admin role required") else (0, EmptyString)
      end
  end.

(** ** Failure records *)
Record failRecord := MkFail {
  count : Z; start : Z; lockedUntil : option Z (* [None]: the zero time *)
}.

Definition before_lock (now : Z) (rec : failRecord) : bool :=
  match lockedUntil rec with None => false | Some u => now <? u end.

Definition lapsed (rec : failRecord) (now : Z) : bool :=
  negb (before_lock now rec) && (loginFailWindow <? now - start rec).

(** The wait, when the record refuses the attempt. *)
Definition blocked (rec : failRecord) (now limit : Z) : option Z :=
  if before_lock now rec then Some (default now (lockedUntil rec) - now)
  else if limit <=? count rec then Some loginLockout
  else None.

Record authState := MkAuth {
  users : gmap string User; sessions : gmap string session;
  ipFails : gmap string failRecord; userFails : gmap (string * string) failRecord
}.

Definition newAuthState (us : gmap string User) : authState := MkAuth us ∅ ∅ ∅.

Definition set_sessions (m : gmap string session) (a : authState) : authState :=
  MkAuth (users a) m (ipFails a) (userFails a).

Definition set_ip (ip : string) (rec : failRecord) (a : authState) : authState :=
  MkAuth (users a) (sessions a) (<[ip := rec]> (ipFails a)) (userFails a).

Definition set_user (key : string * string) (rec : failRecord) (a : authState) : authState :=
  MkAuth (users a) (sessions a) (ipFails a) (<[key := rec]> (userFails a)).

Definition del_user (key : string * string) (a : authState) : authState :=
  MkAuth (users a) (sessions a) (ipFails a) (delete key (userFails a)).

(** ** The users file *)
Definition trusteeIDPattern (s : string) : bool :=
  match s with
  | EmptyString => false
  | String c s => is_digit c && negb (bool_decide (c = "0"%char)) && str_forallb is_digit s
  end.

Definition where_user (i : Z) (u : User) : string :=
  "user " +:+ Itoa (i + 1) +:+ " (" +:+ Quote (Username u) +:+ ")".

(** The [switch] of [parseUsers] on one entry. *)
Definition check_user (i : Z) (u : User) : result unit :=
  let where_ := where_user i u in
  if String.eqb (TrimSpace (Username u)) EmptyString
  then Err (Errorf "user %d: username is empty" [AInt (i + 1)])
  else if maxUsernameBytes <? slen (Username u)
  then Err (Errorf "user %d: username is longer than %d bytes" [AInt (i + 1); AInt maxUsernameBytes])
  else if negb (String.eqb (Role u) RoleAdmin) && negb (String.eqb (Role u) RoleTrustee)
  then Err (Errorf "%s: unknown role %q (want %q or %q)"
              [AStr where_; AStr (Role u); AStr RoleAdmin; AStr RoleTrustee])
  else if String.eqb (Role u) RoleTrustee && String.eqb (TrusteeID u) EmptyString
  then Err (Errorf "%s: a trustee needs a trustee_id" [AStr where_])
  else if String.eqb (Role u) RoleTrustee && negb (trusteeIDPattern (TrusteeID u))
  then Err (Errorf "%s: trustee_id %q must be the trustee's wire id: digits, no leading zero"
              [AStr where_; AStr (TrusteeID u)])
  else if String.eqb (Role u) RoleAdmin && negb (String.eqb (TrusteeID u) EmptyString)
  then Err (Errorf "%s: an admin must not have a trustee_id" [AStr where_])
  else Ok tt.

Section Server.
  Context `{Bcrypt}.

(** The earlier owner of this trustee id, if the id is one. *)
Definition dup_owner (owner : gmap string string) (u : User) : option string :=
  match owner !! TrusteeID u with
  | Some o => if String.eqb (TrusteeID u) EmptyString then None else Some o
  | None => None
  end.

(** One iteration of the loop, on the maps [users] and [trusteeOwner] so far. *)
Definition add_user (acc : gmap string User * gmap string string) (iu : Z * User) :
    result (gmap string User * gmap string string) :=
  let '(us, owner) := acc in
  let '(i, u) := iu in
  let where_ := where_user i u in
  let? _ := check_user i u in
  match us !! Username u with
  | Some _ => Err (Errorf "%s: duplicate username" [AStr where_])
  | None =>
      match dup_owner owner u with
      | Some o => Err (Errorf "%s: trustee_id %q is already assigned to %q"
                         [AStr where_; AStr (TrusteeID u); AStr o])
      | None =>
          let? cost := wrap_err (λ e, Errorf "%s: password_bcrypt is not a bcrypt hash (make one with `saksi-campaign hash-password`): %v" [AStr where_; AErr e])
                         (Cost (PasswordBcrypt u)) in
          guard? cost =? hashPasswordCost else
            Errorf "%s: password_bcrypt has cost %d, want %d (make one with `saksi-campaign hash-password`)"
              [AStr where_; AInt cost; AInt hashPasswordCost];
          Ok (<[Username u := u]> us,
              if String.eqb (TrusteeID u) EmptyString then owner
              else <[TrusteeID u := Username u]> owner)
      end
  end.

(** [parseUsers] after the JSON array is decoded. *)
Definition parseUsers (l : list User) : result (gmap string User) :=
  if bool_decide (l = [])
  then Err (Errorf "users file has no users: nobody could log in" [])
  else let? acc := rfoldM add_user (∅, ∅) (imap (λ i u, (Z.of_nat i, u)) l) in Ok acc.1.

(** ** The session table and the counters: one definition per critical section *)
Definition prune (now : Z) (a : authState) : authState :=
  MkAuth (users a)
    (filter (λ kv, now < expires kv.2) (sessions a))
    (filter (λ kv, lapsed kv.2 now = false) (ipFails a))
    (filter (λ kv, lapsed kv.2 now = false) (userFails a)).

(** [cookie] is the value of the session cookie, when the request has one. *)
Definition lookup_session (now : Z) (cookie : option string) (a : authState) :
    authState * option session :=
  match cookie with
  | None => (a, None)
  | Some c =>
      if String.eqb c EmptyString then (a, None)
      else let a := prune now a in (a, sessions a !! c)
  end.

Definition session_of (u : User) (now : Z) : session :=
  MkSession (Username u) (Role u) (TrusteeID u) (now + sessionTTL).

(** [rand] is what [rand.Read] yielded, base64-encoded. *)
Definition create (now : Z) (rand : result string) (u : User) (a : authState) :
    authState * result string :=
  match rand with
  | Err e => (a, Err e)
  | Ok token =>
      let a := prune now a in
      (set_sessions (<[token := session_of u now]> (sessions a)) a, Ok token)
  end.

Definition end_session (token : string) (a : authState) : authState :=
  set_sessions (delete token (sessions a)) a.

(** The record an attempt counts against: a fresh one when missing or lapsed. *)
Definition current_record (orec : option failRecord) (now : Z) : failRecord :=
  match orec with
  | None => MkFail 0 now None
  | Some rec => if lapsed rec now then MkFail 0 now None else rec
  end.

Definition bump (rec : failRecord) : failRecord :=
  MkFail (count rec + 1) (start rec) (lockedUntil rec).

(** [attempt]: the wait it reports and whether the attempt may proceed. *)
Definition attempt (now : Z) (ip user : string) (a : authState) : authState * (Z * bool) :=
  let a := prune now a in
  let ipRec := current_record (ipFails a !! ip) now in
  let a := set_ip ip ipRec a in
  match blocked ipRec now maxIPLoginFailures with
  | Some wait => (a, (wait, false))
  | None =>
      if slen user <=? maxUsernameBytes then
        let rec := current_record (userFails a !! (ip, user)) now in
        let a := set_user (ip, user) rec a in
        match blocked rec now maxLoginFailures with
        | Some wait => (a, (wait, false))
        | None => (set_ip ip (bump ipRec) (set_user (ip, user) (bump rec) a), (0, true))
        end
      else (set_ip ip (bump ipRec) a, (0, true))
  end.

Definition lockAt (now limit : Z) (rec : failRecord) : failRecord :=
  if limit <=? count rec then MkFail 0 now (Some (now + loginLockout)) else rec.

Definition settle_ip (now : Z) (ip : string) (success : bool) (a : authState) : authState :=
  match ipFails a !! ip with
  | None => a
  | Some rec =>
      if negb success then set_ip ip (lockAt now maxIPLoginFailures rec) a
      else if 0 <? count rec
      then set_ip ip (MkFail (count rec - 1) (start rec) (lockedUntil rec)) a
      else a
  end.

Definition settle (now : Z) (ip user : string) (success : bool) (a : authState) : authState :=
  let a := settle_ip now ip success a in
  if maxUsernameBytes <? slen user then a
  else if success then del_user (ip, user) a
  else match userFails a !! (ip, user) with
       | None => a
       | Some rec => set_user (ip, user) (lockAt now maxLoginFailures rec) a
       end.

(** ** Handlers *)
Inductive body := NoBody | JError (text : string) | JMe (name role trustee : string).

Record response := MkResponse {
  code : Z; retry_after : option Z; set_cookie : option (string * Z); payload : body
}.

Definition fail_with (code : Z) (text : string) : response :=
  MkResponse code None None (JError text).

Definition not_found : response := MkResponse 404 None None NoBody.

(** A login in flight, between two of its critical sections: the request has
    arrived, its attempt was granted, or its password matched. *)
Inductive login :=
| Arrived (ip user password : string)
| Granted (ip user password : string)
| Matched (u : User).

Definition retry_seconds (wait : Z) : Z := (wait + Second - 1) `quot` Second.

(** [handleLogin] from one critical section to the next: it goes on as another
    [login], or answers. *)
Definition login_step (now : Z) (rand : result string) (l : login) (a : authState) :
    authState * (login + response) :=
  match l with
  | Arrived ip user password =>
      match attempt now ip user a with
      | (a, (wait, false)) =>
          (a, inr (MkResponse 429 (Some (retry_seconds wait)) None
                     (JError "too many failed logins; try again shortly")))
      | (a, (_, true)) => (a, inl (Granted ip user password))
      end
  | Granted ip user password =>
      let known := users a !! user in
      let hash := match known with Some u => PasswordBcrypt u | None => dummyHash end in
      match CompareHashAndPassword hash password, known with
      | true, Some u => (settle now ip user true a, inl (Matched u))
      | _, _ => (settle now ip user false a, inr (fail_with 401 errBadCredentials))
      end
  | Matched u =>
      match create now rand u a with
      | (a, Err _) => (a, inr (fail_with 500 "cannot create session"))
      | (a, Ok token) =>
          (a, inr (MkResponse 204 None (Some (token, sessionTTL `quot` Second)) NoBody))
      end
  end.

(** A request, as far as authentication reads it: [pattern] is the ServeMux
    pattern it resolves to, [internal] whether its context carries the key only
    the console's own transport sets. *)
Record request := MkRequest {
  method : string; pattern : string; cookie : option string; internal : bool
}.

Definition handleLogout (auth : option authState) (r : request) :
    option authState * response :=
  match auth with
  | None => (None, not_found)
  | Some a =>
      if negb (String.eqb (method r) "POST")
      then (Some a, MkResponse 405 None None (JError "POST required"))
      else
        let a := match cookie r with Some c => end_session c a | None => a end in
        (Some a, MkResponse 204 None (Some (EmptyString, -1)) NoBody)
  end.

Definition handleMe (auth : option authState) (sess : option session) : response :=
  match auth, sess with
  | None, _ => not_found
  | Some _, None => fail_with 401 errLoginRequired
  | Some _, Some ss =>
      MkResponse 200 None None (JMe (SUsername ss) (SRole ss) (STrusteeID ss))
  end.

(** ** The middleware *)
Definition internalRoutes : gmap string string := list_to_map [
  ("/generate", "POST"); ("/api/check/", "GET"); ("/submit", "POST");
  ("/ceremony/start", "POST"); ("/api/ceremony/", "GET"); ("/ceremony/submit", "POST");
  ("/ceremony/publish", "POST"); ("/verify", "POST"); ("/api/runs/", "GET");
  ("/export/", "GET")].

Definition internalRouteAllowed (r : request) : bool :=
  match internalRoutes !! pattern r with
  | Some m => String.eqb m (method r)
  | None => false
  end.

(** What the middleware does with a request: hand it to the mux with this
    session in its context, or answer itself. *)
Inductive disposition := Forward (sess : option session) | Deny (code : Z) (reason : string).

Definition authorize (now : Z) (r : request) (auth : option authState) :
    option authState * disposition :=
  if internal r then
    if negb (internalRouteAllowed r)
    then (auth, Deny 403 "not a route the campaign driver uses")
    else (auth, Forward None)
  else match auth with
  | None => (None, Forward None)
  | Some a =>
      let '(a, sess) := lookup_session now (cookie r) a in
      let '(code, reason) := denial (route_access (pattern r)) sess in
      if code =? 0 then (Some a, Forward sess) else (Some a, Deny code reason)
  end.
End Server.
End Auth.
