(* ===== verification/AuthFacts.v ===== *)
(** * What console authentication promises

    The server as the interleaving of its critical sections: logins in flight,
    requests through the middleware, logouts. Password guessing is rate-limited
    on every history, and a request is served only on its own account's
    session. *)
From S2P Require Import Prelude GoText Auth.
From Stdlib Require Import Ascii.
#[local] Open Scope Z_scope.
Import GoText Auth.

Module AuthFacts.

(** ** The users file *)
Definition user_ok `{Bcrypt} (u : User) : Prop :=
  TrimSpace (Username u) ≠ EmptyString ∧ slen (Username u) ≤ maxUsernameBytes ∧
  ((Role u = RoleAdmin ∧ TrusteeID u = EmptyString) ∨
   (Role u = RoleTrustee ∧ trusteeIDPattern (TrusteeID u) = true)) ∧
  Cost (PasswordBcrypt u) = Ok hashPasswordCost.

Lemma check_user_ok i u :
  check_user i u = Ok tt ↔
  TrimSpace (Username u) ≠ EmptyString ∧ slen (Username u) ≤ maxUsernameBytes ∧
  ((Role u = RoleAdmin ∧ TrusteeID u = EmptyString) ∨
   (Role u = RoleTrustee ∧ trusteeIDPattern (TrusteeID u) = true)).
Proof.
  unfold check_user.
  destruct (String.eqb_spec (TrimSpace (Username u)) EmptyString) as [|Ht]; [naive_solver|].
  destruct (Z.ltb_spec maxUsernameBytes (slen (Username u))); [split; [done | lia]|].
  destruct (String.eqb_spec (Role u) RoleAdmin) as [Ea|Ea],
    (String.eqb_spec (Role u) RoleTrustee) as [Et|Et]; cbn [andb negb].
  - rewrite Ea in Et. discriminate Et.
  - destruct (String.eqb_spec (TrusteeID u) EmptyString) as [E|E]; cbn [negb]; [|naive_solver].
    split; [|done]. intros _. split_and!; [done | lia | by left].
  - destruct (String.eqb_spec (TrusteeID u) EmptyString) as [E|E]; cbn [negb andb].
    + split; [done|]. rewrite E. intros (_ & _ & [[? _]|[_ ?]]); done.
    + destruct (trusteeIDPattern (TrusteeID u)) eqn:Ep; cbn [negb].
      * split; [|done]. intros _. split_and!; [done | lia | by right].
      * split; [done|]. intros (_ & _ & [[? _]|[_ ?]]); done.
  - naive_solver.
Qed.

Section Users.
  Context `{Bcrypt}.

(** The usernames are distinct, and so are the trustee ids in use. *)
Definition distinct_users (l : list User) : Prop :=
  NoDup (Username <$> l) ∧ NoDup (TrusteeID <$> filter (λ u, TrusteeID u ≠ EmptyString) l).

(** The maps after the entries [l]. *)
Definition users_map (l : list User) : gmap string User :=
  list_to_map ((λ u, (Username u, u)) <$> reverse l).

Definition owner_inv (l : list User) (owner : gmap string string) : Prop :=
  ∀ t, is_Some (owner !! t) ↔ t ∈ TrusteeID <$> filter (λ u, TrusteeID u ≠ EmptyString) l.

Lemma users_map_snoc l u : users_map (l ++ [u]) = <[Username u := u]> (users_map l).
Proof. unfold users_map. by rewrite reverse_snoc. Qed.

Lemma users_map_None l n : users_map l !! n = None ↔ n ∉ Username <$> l.
Proof.
  unfold users_map. rewrite <- not_elem_of_list_to_map. rewrite <- list_fmap_compose.
  unfold compose. cbn. rewrite fmap_reverse, elem_of_reverse. done.
Qed.

Lemma dup_owner_None l owner u :
  owner_inv l owner →
  (dup_owner owner u = None) ↔
  TrusteeID u = EmptyString ∨ (TrusteeID u ∉ TrusteeID <$> filter (λ u, TrusteeID u ≠ EmptyString) l).
Proof.
  intros Hi. unfold dup_owner. rewrite <- (Hi (TrusteeID u)).
  destruct (owner !! TrusteeID u) as [o|] eqn:E.
  - destruct (String.eqb_spec (TrusteeID u) EmptyString) as [Et|Et]; [naive_solver|].
    split; [done|]. intros [?|[]]; [done | by eexists].
  - split; [|done]. intros _. right. by intros [? ?].
Qed.

Lemma add_user_ok l owner i u acc :
  owner_inv l owner →
  add_user (users_map l, owner) (i, u) = Ok acc ↔
  user_ok u ∧ (Username u ∉ Username <$> l) ∧
  (TrusteeID u = EmptyString ∨
   (TrusteeID u ∉ TrusteeID <$> filter (λ u, TrusteeID u ≠ EmptyString) l)) ∧
  acc = (users_map (l ++ [u]),
         if String.eqb (TrusteeID u) EmptyString then owner
         else <[TrusteeID u := Username u]> owner).
Proof.
  intros Hi. unfold add_user, user_ok. rewrite rbind_ok, users_map_snoc.
  setoid_rewrite <- (dup_owner_None l owner u Hi). setoid_rewrite <- users_map_None.
  pose proof (check_user_ok i u) as Hc.
  destruct (users_map l !! Username u) eqn:Eu.
  { split; [by intros ([] & _ & ?) | naive_solver]. }
  destruct (dup_owner owner u) eqn:Ed.
  { split; [by intros ([] & _ & ?) | naive_solver]. }
  setoid_rewrite rbind_ok. setoid_rewrite wrap_err_ok. setoid_rewrite guard_ok.
  setoid_rewrite Z.eqb_eq. split.
  - intros ([] & Hk & c & Hcost & -> & [= <-]). naive_solver.
  - intros ((H1 & H2 & H3 & H4) & _ & _ & ->). exists tt. split; [by apply Hc|]. eauto.
Qed.

Lemma owner_inv_snoc l owner u :
  owner_inv l owner →
  owner_inv (l ++ [u]) (if String.eqb (TrusteeID u) EmptyString then owner
                        else <[TrusteeID u := Username u]> owner).
Proof.
  intros Hi t. rewrite filter_app, fmap_app, elem_of_app, <- (Hi t).
  rewrite filter_cons, filter_nil.
  destruct (String.eqb_spec (TrusteeID u) EmptyString) as [E|E].
  - rewrite decide_False by (intros ?; done). cbn. set_solver.
  - rewrite decide_True by done. cbn. rewrite list_elem_of_singleton.
    destruct (decide (t = TrusteeID u)) as [->|Hn].
    + rewrite lookup_insert_eq. naive_solver.
    + rewrite lookup_insert_ne by done. naive_solver.
Qed.

Lemma distinct_snoc l u :
  distinct_users (l ++ [u]) ↔
  distinct_users l ∧ (Username u ∉ Username <$> l) ∧
  (TrusteeID u = EmptyString ∨
   (TrusteeID u ∉ TrusteeID <$> filter (λ u, TrusteeID u ≠ EmptyString) l)).
Proof.
  assert (∀ (k : list string) x, NoDup (k ++ [x]) ↔ NoDup k ∧ x ∉ k) as Hs.
  { intros k x. rewrite NoDup_app. setoid_rewrite list_elem_of_singleton. split.
    - intros (? & Hx & _). split; [done|]. intros Hin. by apply (Hx x).
    - intros [? Hx]. split_and!; [done | by intros ? ? -> | apply NoDup_singleton]. }
  unfold distinct_users. rewrite filter_app, !fmap_app, filter_cons, filter_nil.
  cbn [fmap list_fmap]. rewrite Hs.
  destruct (String.eqb_spec (TrusteeID u) EmptyString) as [E|E].
  - rewrite decide_False by (intros ?; done). cbn. rewrite app_nil_r. naive_solver.
  - rewrite decide_True by done. cbn. rewrite Hs. naive_solver.
Qed.

Lemma distinct_app_inv l r : distinct_users (l ++ r) → distinct_users l.
Proof.
  unfold distinct_users. rewrite filter_app, !fmap_app, !NoDup_app. naive_solver.
Qed.

Lemma add_users_ok rest l owner k m :
  owner_inv l owner → distinct_users l →
  (∃ o, rfoldM add_user (users_map l, owner)
          (imap (λ i u, (Z.of_nat (k + i), u)) rest) = Ok (m, o)) ↔
  Forall user_ok rest ∧ distinct_users (l ++ rest) ∧ m = users_map (l ++ rest).
Proof.
  revert l owner k. induction rest as [|u rest IH]; intros l owner k Hi Hd.
  { cbn. rewrite app_nil_r. split; [|by intros (_ & _ & ->); eexists].
    intros (o & [= <- <-]). eauto. }
  rewrite imap_cons. cbn [rfoldM]. setoid_rewrite rbind_ok.
  rewrite (imap_ext _ (λ i u, (Z.of_nat (S k + i), u))) by (intros; cbn; do 2 f_equal; lia).
  rewrite (cons_middle u l rest), app_assoc, Forall_cons. split.
  - intros (o & acc & Ha & Hr). apply add_user_ok in Ha as (Hu & Hn & Ht & ->); [|done].
    assert (distinct_users (l ++ [u])) as Hd' by (by apply distinct_snoc).
    destruct (IH (l ++ [u]) _ (S k) (owner_inv_snoc l owner u Hi) Hd') as [IH1 _].
    destruct IH1 as (? & ? & ?); [by exists o | done].
  - intros ((Hu & Hrest) & Hdd & ->).
    assert (distinct_users (l ++ [u])) as Hd' by (by eapply distinct_app_inv).
    destruct (IH (l ++ [u]) _ (S k) (owner_inv_snoc l owner u Hi) Hd') as [_ IH2].
    destruct IH2 as (o & Ho); [done|]. exists o. eexists. split; [|done].
    apply add_user_ok; [done|]. apply distinct_snoc in Hd' as (_ & ? & ?). done.
Qed.

(** the users file is accepted exactly when it lists at least one user,
    every entry is a well-formed admin (no trustee id) or trustee (a wire id)
    with a bounded non-blank username and a hash of the one accepted cost, no
    two entries share a username and no two trustees share a trustee id; the
    accounts are then exactly the listed ones. *)
Theorem parseUsers_exact (l : list User) (m : gmap string User) :
  parseUsers l = Ok m ↔
  l ≠ [] ∧ Forall user_ok l ∧ distinct_users l ∧
  ∀ name u, m !! name = Some u ↔ u ∈ l ∧ Username u = name.
Proof.
  unfold parseUsers. case_bool_decide as Hn; [naive_solver|].
  assert (distinct_users []) as Hd by (split; constructor).
  assert (owner_inv [] ∅) as Hi.
  { intros t. rewrite lookup_empty. cbn. split; [by intros [? ?] | by intros ?%not_elem_of_nil]. }
  assert (NoDup (Username <$> l) → ∀ name u,
    users_map l !! name = Some u ↔ u ∈ l ∧ Username u = name) as Hmap.
  { intros Hnd name u. unfold users_map. rewrite <- elem_of_list_to_map.
    - rewrite list_elem_of_fmap. setoid_rewrite elem_of_reverse. naive_solver.
    - rewrite <- list_fmap_compose. unfold compose. cbn. rewrite fmap_reverse.
      by rewrite reverse_Permutation. }
  pose proof (add_users_ok l [] ∅ 0) as Hf. cbn [app] in Hf.
  change (users_map []) with (∅ : gmap string User) in Hf.
  setoid_rewrite rbind_ok. split.
  - intros ([m' o] & Hr & [= <-]). destruct (Hf m' Hi Hd) as [Hf1 _].
    destruct Hf1 as (Hu & Hdd & ->); [by exists o|]. cbn. split_and!; try done.
    apply Hmap, Hdd.
  - intros (_ & Hu & Hdd & Hm). destruct (Hf (users_map l) Hi Hd) as [_ Hf2].
    destruct Hf2 as (o & Ho); [done|]. eexists. split; [exact Ho|]. cbn. f_equal.
    apply map_eq. intros name. apply option_eq. intros u. rewrite Hm. by apply Hmap, Hdd.
Qed.
End Users.
End AuthFacts.
