(* ===== verification/AuthServer.v ===== *)
(** * The console's authentication under any interleaving

    The server as a step relation over its critical sections: logins in flight,
    requests through the middleware, logouts. Password guessing is rate-limited
    on every history, and a request to a route that needs a role is served only
    on the live session of an account with that role. *)
From S2P Require Import Prelude GoText Auth.
#[local] Open Scope Z_scope.
Import Auth.

Module AuthServer.

Record server := MkServer { auth : authState; inflight : gmap nat login }.

(** What the scheduler runs next: a login request arrives, a login in flight
    runs its next critical section, a request goes through the middleware, the
    logout handler runs. *)
Inductive event :=
| Begin (id : nat) (ip user password : string)
| Advance (id : nat) (rand : result string)
| Request (r : request)
| Logout (r : request).

Inductive outcome :=
| ONone
| OLogin (l : login) (next : login + response)
| OVerdict (v : disposition)
| OAnswer (r : response).

Definition entry : Type := Z * event * outcome.

Section Run.
  Context `{Bcrypt}.

Definition start_server (us : gmap string User) : server := MkServer (newAuthState us) ∅.

Definition server_step (now : Z) (e : event) (s : server) : server * outcome :=
  match e with
  | Begin id ip user password =>
      match inflight s !! id with
      | Some _ => (s, ONone)
      | None => (MkServer (auth s) (<[id := Arrived ip user password]> (inflight s)), ONone)
      end
  | Advance id rand =>
      match inflight s !! id with
      | None => (s, ONone)
      | Some l =>
          let '(a, next) := login_step now rand l (auth s) in
          (MkServer a (match next with
                       | inl l' => <[id := l']> (inflight s)
                       | inr _ => delete id (inflight s)
                       end), OLogin l next)
      end
  | Request r =>
      match authorize now r (Some (auth s)) with
      | (Some a, v) => (MkServer a (inflight s), OVerdict v)
      | (None, v) => (s, OVerdict v)
      end
  | Logout r =>
      match handleLogout (Some (auth s)) r with
      | (Some a, resp) => (MkServer a (inflight s), OAnswer resp)
      | (None, resp) => (s, OAnswer resp)
      end
  end.

(** Histories from a fresh server, newest entry first; the clock never goes
    back. *)
Inductive history (us : gmap string User) (t0 : Z) : list entry → Z → server → Prop :=
| history_start : history us t0 [] t0 (start_server us)
| history_step log tl s now e s' o :
    history us t0 log tl s → tl ≤ now → server_step now e s = (s', o) →
    history us t0 ((now, e, o) :: log) now s'.

(** Running a schedule; it stops where the clock would go back. *)
Fixpoint run_schedule (evs : list (Z * event)) (st : list entry * Z * server) :
    option (list entry * Z * server) :=
  match evs with
  | [] => Some st
  | (now, e) :: evs =>
      let '(log, tl, s) := st in
      if tl <=? now then
        let '(s', o) := server_step now e s in
        run_schedule evs ((now, e, o) :: log, now, s')
      else None
  end.

Lemma run_schedule_history us t0 evs log tl s log' tl' s' :
  history us t0 log tl s → run_schedule evs (log, tl, s) = Some (log', tl', s') →
  history us t0 log' tl' s'.
Proof.
  revert log tl s. induction evs as [|[now e] evs IH]; intros log tl s Hh; cbn [run_schedule].
  { by intros [= <- <- <-]. }
  destruct (Z.leb_spec tl now); [|done]. destruct (server_step now e s) as [s1 o] eqn:Es.
  apply IH. by eapply history_step.
Qed.

(** ** Guesses *)
Definition granted_for (ip user : string) (x : entry) : bool :=
  match x.2 with
  | OLogin (Arrived ip' user' _) (inl _) => String.eqb ip' ip && String.eqb user' user
  | _ => false
  end.

Definition matched_for (ip user : string) (x : entry) : bool :=
  match x.2 with
  | OLogin (Granted ip' user' _) (inl _) => String.eqb ip' ip && String.eqb user' user
  | _ => false
  end.

Definition granted_ip (ip : string) (x : entry) : bool :=
  match x.2 with OLogin (Arrived ip' _ _) (inl _) => String.eqb ip' ip | _ => false end.

Definition matched_ip (ip : string) (x : entry) : bool :=
  match x.2 with OLogin (Granted ip' _ _) (inl _) => String.eqb ip' ip | _ => false end.

Definition tally (p : entry → bool) (log : list entry) : Z :=
  Z.of_nat (length (filter (λ x, p x = true) log)).

Lemma tally_cons p x log : tally p (x :: log) = (if p x then 1 else 0) + tally p log.
Proof.
  unfold tally. rewrite filter_cons. destruct (p x); [rewrite decide_True by done | rewrite decide_False by done]; cbn [length]; lia.
Qed.

(** The counter's record [orec] accounts for [n] checks since [t0], when [tl]
    is the time of the last step: every past window of [limit] checks cost one
    lockout. *)
Definition accounts (limit t0 tl n : Z) (orec : option failRecord) : Prop :=
  t0 ≤ tl ∧
  match orec with
  | None => n * loginLockout ≤ limit * (tl - t0)
  | Some r =>
      let over := default (start r) (lockedUntil r) in
      0 ≤ count r ≤ limit ∧ start r ≤ tl ∧ start r ≤ over ≤ start r + loginLockout ∧
      (0 < count r → over ≤ tl) ∧
      (n - count r) * loginLockout ≤ limit * (over - t0)
  end.

Lemma accounts_bound limit t0 tl n orec :
  0 < limit → accounts limit t0 tl n orec →
  n * loginLockout ≤ limit * (loginLockout + (tl - t0)).
Proof.
  unfold accounts, loginLockout, Second. intros Hl [Ht Ha]. destruct orec as [r|]; [|nia].
  cbn in Ha. destruct Ha as (Hc & Hs & Ho & Hi & Hn).
  destruct (decide (0 < count r)) as [Hp|Hp]; [specialize (Hi Hp); nia|].
  assert (count r = 0) by lia. nia.
Qed.

(** Time passes and lapsed records are pruned. *)
Lemma accounts_prune limit t0 tl now n orec :
  0 < limit → tl ≤ now → accounts limit t0 tl n orec →
  accounts limit t0 now n
    (match orec with Some r => if lapsed r now then None else Some r | None => None end).
Proof.
  intros Hl Hle Ha. pose proof (accounts_bound _ _ _ _ _ Hl Ha) as Hb.
  destruct Ha as [Ht Ha]. split; [lia|].
  destruct orec as [r|]; [|unfold loginLockout, Second in *; nia].
  destruct Ha as (Hc & Hs & Ho & Hi & Hn).
  destruct (lapsed r now) eqn:El; [|cbn; split_and!; try lia; intros; specialize (Hi ltac:(lia)); lia].
  unfold lapsed, loginFailWindow, Minute in El. apply andb_true_iff in El as [_ El%Z.ltb_lt].
  unfold loginLockout, Second in *. nia.
Qed.
Lemma accounts_later limit t0 tl now n orec :
  0 < limit → tl ≤ now → accounts limit t0 tl n orec → accounts limit t0 now n orec.
Proof.
  intros Hl Hle [Ht Ha]. split; [lia|]. destruct orec as [r|].
  - destruct Ha as (Hc & Hs & Ho & Hi & Hn). split_and!; lia.
  - unfold loginLockout, Second in *. nia.
Qed.

Lemma accounts_le limit t0 tl n m orec :
  m ≤ n → accounts limit t0 tl n orec → accounts limit t0 tl m orec.
Proof.
  intros Hle [Ht Ha]. split; [done|]. unfold loginLockout, Second in *.
  destruct orec as [r|]; [|nia]. destruct Ha as (Hc & Hs & Ho & Hi & Hn).
  split_and!; try lia; nia.
Qed.

Lemma accounts_current limit t0 now n orec :
  0 < limit → accounts limit t0 now n orec →
  accounts limit t0 now n (Some (current_record orec now)).
Proof.
  intros Hl Ha.
  pose proof (accounts_prune limit t0 now now n orec Hl ltac:(lia) Ha) as Hp.
  assert (accounts limit t0 now n None → accounts limit t0 now n (Some (MkFail 0 now None))) as Hf.
  { intros [Ht Hn]. split; [done|]. cbn. unfold loginLockout, Second in *. lia. }
  destruct orec as [r|]; cbn; [destruct (lapsed r now); auto | auto].
Qed.

Lemma accounts_bump limit t0 now n r :
  blocked r now limit = None → accounts limit t0 now n (Some r) →
  accounts limit t0 now (n + 1) (Some (bump r)).
Proof.
  unfold blocked, before_lock. intros Hb [Ht (Hc & Hs & Ho & Hi & Hn)]. split; [done|].
  destruct r as [c st lk]. cbn in *. destruct lk as [u|]; cbn in *;
    [destruct (Z.ltb_spec now u); [done|]|];
    (destruct (Z.leb_spec limit c); [done|]); split_and!; lia.
Qed.

Lemma accounts_lockAt limit t0 now n r :
  0 < limit → accounts limit t0 now n (Some r) →
  accounts limit t0 now n (Some (lockAt now limit r)).
Proof.
  unfold lockAt. intros Hl Ha. destruct (Z.leb_spec limit (count r)); [|done].
  pose proof (accounts_bound _ _ _ _ _ Hl Ha) as Hb. destruct Ha as [Ht _].
  split; [done|]. cbn. unfold loginLockout, Second in *. split_and!; lia.
Qed.

Lemma accounts_release limit t0 now n r :
  0 < count r → accounts limit t0 now n (Some r) →
  accounts limit t0 now (n - 1) (Some (MkFail (count r - 1) (start r) (lockedUntil r))).
Proof.
  intros Hp [Ht (Hc & Hs & Ho & Hi & Hn)]. split; [done|]. specialize (Hi Hp).
  cbn. split_and!; lia.
Qed.

(** Every record of both counters accounts for its checks; a pair whose
    password has matched is not bounded any more ([None]). *)
Definition fails_ok (t0 tl : Z) (nip : string → Z) (nus : string → string → option Z)
    (a : authState) : Prop :=
  (∀ ip, accounts maxIPLoginFailures t0 tl (nip ip) (ipFails a !! ip)) ∧
  ∀ ip user n, slen user ≤ maxUsernameBytes → nus ip user = Some n →
    accounts maxLoginFailures t0 tl n (userFails a !! (ip, user)).

Lemma fails_later t0 tl now nip nus a :
  tl ≤ now → fails_ok t0 tl nip nus a → fails_ok t0 now nip nus a.
Proof.
  intros Hle [Hip Hus]. split; intros; (eapply accounts_later; [done | done |]); eauto.
Qed.

Lemma prune_lookup `{Countable K} (m : gmap K failRecord) (k : K) now :
  filter (λ kv, lapsed kv.2 now = false) m !! k =
  match m !! k with Some r => if lapsed r now then None else Some r | None => None end.
Proof.
  rewrite map_lookup_filter. destruct (m !! k) as [r|]; [|done]. cbn.
  destruct (lapsed r now); cbn; done.
Qed.

Lemma fails_prune t0 tl now nip nus a :
  tl ≤ now → fails_ok t0 tl nip nus a → fails_ok t0 now nip nus (prune now a).
Proof.
  intros Hle [Hip Hus]. split; intros; cbn; rewrite prune_lookup;
    (apply (accounts_prune _ _ tl); [done | done |]); eauto.
Qed.
Lemma fails_set_ip t0 now nip nip' nus ip r a :
  fails_ok t0 now nip nus a →
  (∀ i, i ≠ ip → nip' i = nip i) →
  accounts maxIPLoginFailures t0 now (nip' ip) (Some r) →
  fails_ok t0 now nip' nus (set_ip ip r a).
Proof.
  intros [Hip Hus] Hn Hr. split; [|exact Hus]. intros i. cbn.
  destruct (decide (i = ip)) as [->|Hi]; [by rewrite lookup_insert_eq|].
  rewrite lookup_insert_ne, Hn by done. apply Hip.
Qed.

Lemma fails_set_user t0 now nip nus nus' ip user o a :
  fails_ok t0 now nip nus a →
  (∀ i u, (i, u) ≠ (ip, user) → nus' i u = nus i u) →
  (∀ n, nus' ip user = Some n → accounts maxLoginFailures t0 now n o) →
  fails_ok t0 now nip nus'
    (match o with Some r => set_user (ip, user) r a | None => del_user (ip, user) a end).
Proof.
  intros [Hip Hus] Hn Hr. split; [destruct o; exact Hip|]. intros i u n Hl Hv.
  assert (userFails (match o with Some r => set_user (ip, user) r a
                     | None => del_user (ip, user) a end) !! (i, u)
          = if decide ((i, u) = (ip, user)) then o else userFails a !! (i, u)) as ->.
  { destruct o; cbn; case_decide as E;
      [rewrite E; apply lookup_insert_eq | by rewrite lookup_insert_ne
      | rewrite E; apply lookup_delete_eq | by rewrite lookup_delete_ne]. }
  case_decide as E; [injection E as -> ->; by apply Hr|].
  rewrite (Hn i u E) in Hv. by apply Hus.
Qed.

(** A granted attempt counts one check for its address and its pair. *)
Definition add_ip (ip : string) (d : Z) (f : string → Z) (i : string) : Z :=
  if String.eqb ip i then f i + d else f i.

Definition add_pair (ip user : string) (f : string → string → option Z)
    (i u : string) : option Z :=
  if String.eqb ip i && String.eqb user u then (λ n, n + 1) <$> f i u else f i u.

Lemma add_ip_eq ip d f : add_ip ip d f ip = f ip + d.
Proof. unfold add_ip. by rewrite String.eqb_refl. Qed.

Lemma add_ip_ne ip d f i : i ≠ ip → add_ip ip d f i = f i.
Proof. unfold add_ip. intros Hn. destruct (String.eqb_spec ip i); congruence. Qed.

Lemma add_pair_eq ip user f : add_pair ip user f ip user = (λ n, n + 1) <$> f ip user.
Proof. unfold add_pair. by rewrite !String.eqb_refl. Qed.

Lemma add_pair_ne ip user f i u : (i, u) ≠ (ip, user) → add_pair ip user f i u = f i u.
Proof.
  unfold add_pair. intros Hn.
  destruct (String.eqb_spec ip i), (String.eqb_spec user u); cbn; congruence.
Qed.

Lemma attempt_ok t0 tl now nip nus ip user a a' w ok :
  tl ≤ now → fails_ok t0 tl nip nus a → attempt now ip user a = (a', (w, ok)) →
  fails_ok t0 now (if ok then add_ip ip 1 nip else nip)
    (if ok then add_pair ip user nus else nus) a'.
Proof.
  unfold attempt. intros Hle Hf%(fails_prune t0 tl now nip nus a Hle).
  set (b := prune now a) in *. set (ir := current_record (ipFails b !! ip) now).
  assert (accounts maxIPLoginFailures t0 now (nip ip) (Some ir)) as Hir
    by (apply accounts_current; [done | apply Hf]).
  destruct (blocked ir now maxIPLoginFailures) eqn:Ebi.
  { intros [= <- <- <-]. by apply (fails_set_ip t0 now nip). }
  assert (∀ nus' b', fails_ok t0 now nip nus' b' →
    fails_ok t0 now (add_ip ip 1 nip) nus' (set_ip ip (bump ir) b')) as Hbump.
  { intros nus' b' Hb'. apply (fails_set_ip t0 now nip); [done | intros; by apply add_ip_ne|].
    rewrite add_ip_eq. by apply accounts_bump. }
  assert (fails_ok t0 now nip nus (set_ip ip ir b)) as Hf1 by (by apply (fails_set_ip t0 now nip)).
  destruct (Z.leb_spec (slen user) maxUsernameBytes) as [Hu|Hu].
  - cbn [userFails set_ip] in *. set (ur := current_record (userFails b !! (ip, user)) now).
    assert (∀ n, nus ip user = Some n → accounts maxLoginFailures t0 now n (Some ur)) as Hur.
    { intros n Hn. apply accounts_current; [done|]. by apply Hf. }
    pose proof (fails_set_user t0 now nip nus nus ip user (Some ur) _ Hf1 (λ _ _ _, eq_refl) Hur) as Hf2.
    destruct (blocked ur now maxLoginFailures) eqn:Ebu; intros [= <- <- <-]; [exact Hf2|].
    apply Hbump. apply (fails_set_user t0 now nip nus _ ip user (Some (bump ur)) _ Hf2).
    + intros. by apply add_pair_ne.
    + intros n. rewrite add_pair_eq. intros (m & Hm & ->)%fmap_Some.
      apply accounts_bump; [done | by apply Hur].
  - intros [= <- <- <-]. apply Hbump. destruct Hf1 as [Hf1 Hf2]. split; [done|].
    intros i u n Hl. rewrite add_pair_ne by (intros [= -> ->]; lia). by apply Hf2.
Qed.

(** A settlement hands back a matching login's own check on the address and
    stops the pair's bound. *)
Definition end_pair (ip user : string) (f : string → string → option Z)
    (i u : string) : option Z :=
  if String.eqb ip i && String.eqb user u then None else f i u.

Lemma settle_ok t0 tl now nip nus ip user success a :
  tl ≤ now → fails_ok t0 tl nip nus a →
  fails_ok t0 now (if success : bool then add_ip ip (-1) nip else nip)
    (if success then end_pair ip user nus else nus) (settle now ip user success a).
Proof.
  intros Hle Hf%(fails_later t0 tl now nip nus a Hle).
  assert (fails_ok t0 now (if success : bool then add_ip ip (-1) nip else nip) nus
            (settle_ip now ip success a)) as Hf1.
  { pose proof (proj1 Hf ip) as Hip. unfold settle_ip.
    destruct (ipFails a !! ip) as [r|] eqn:Er.
    - destruct success; cbn [negb].
      + destruct (Z.ltb_spec 0 (count r)).
        * apply (fails_set_ip t0 now nip); [done | intros; by apply add_ip_ne|].
          rewrite add_ip_eq. by apply accounts_release.
        * split; [|apply Hf]. intros i. unfold add_ip. destruct (String.eqb_spec ip i);
            (eapply accounts_le; [|apply Hf]; lia).
      + apply (fails_set_ip t0 now nip); [done | done|]. by apply accounts_lockAt.
    - split; [|apply Hf]. intros i. destruct success; [|apply Hf].
      unfold add_ip. destruct (String.eqb_spec ip i); (eapply accounts_le; [|apply Hf]; lia). }
  unfold settle. set (b := settle_ip now ip success a) in *.
  destruct (Z.ltb_spec maxUsernameBytes (slen user)) as [Hu|Hu].
  { destruct success; [|done]. destruct Hf1 as [Hi Hp]. split; [done|].
    intros i u n Hl. unfold end_pair. destruct (_ && _); [done | by apply Hp]. }
  assert (∀ i u, (i, u) ≠ (ip, user) → end_pair ip user nus i u = nus i u) as Hne.
  { intros i u Hn. unfold end_pair.
    destruct (String.eqb_spec ip i), (String.eqb_spec user u); cbn; congruence. }
  destruct success.
  - apply (fails_set_user t0 now _ nus _ ip user None b Hf1 Hne).
    unfold end_pair. by rewrite !String.eqb_refl.
  - destruct (userFails b !! (ip, user)) as [r|] eqn:Er; [|done].
    apply (fails_set_user t0 now _ nus _ ip user (Some _) b Hf1 (λ _ _ _, eq_refl)).
    intros n Hn. apply accounts_lockAt; [done|]. rewrite <- Er. by apply Hf1.
Qed.
(** ** Rate limiting, on every history *)
Definition ip_checks (log : list entry) (ip : string) : Z :=
  tally (granted_ip ip) log - tally (matched_ip ip) log.

Definition pair_checks (log : list entry) (ip user : string) : option Z :=
  if tally (matched_for ip user) log =? 0 then Some (tally (granted_for ip user) log) else None.

Lemma fails_ext t0 tl nip nus nip' nus' a :
  fails_ok t0 tl nip nus a → (∀ i, nip' i = nip i) →
  (∀ i u n, nus' i u = Some n → nus i u = Some n) → fails_ok t0 tl nip' nus' a.
Proof. intros [Hi Hu] Ei Eu. split; [intros i; rewrite Ei; apply Hi | eauto]. Qed.

(** An entry that neither grants nor matches leaves the tallies as they are. *)
Definition quiet (o : outcome) : bool :=
  match o with OLogin _ (inl _) => false | _ => true end.

Lemma fails_quiet t0 tl log x a :
  quiet x.2 = true → fails_ok t0 tl (ip_checks log) (pair_checks log) a →
  fails_ok t0 tl (ip_checks (x :: log)) (pair_checks (x :: log)) a.
Proof.
  intros Hq Hf. eapply fails_ext; [exact Hf| |].
  - intros i. unfold ip_checks. rewrite !tally_cons. unfold granted_ip, matched_ip.
    destruct x as [? [| [] [] | |]]; try done; lia.
  - intros i u n. unfold pair_checks. rewrite !tally_cons. unfold granted_for, matched_for.
    destruct x as [? [| [] [] | |]]; done.
Qed.

Lemma tally_nonneg p log : 0 ≤ tally p log.
Proof. unfold tally. lia. Qed.

Lemma login_step_ok t0 tl now e log rand l a a' next :
  tl ≤ now → fails_ok t0 tl (ip_checks log) (pair_checks log) a →
  login_step now rand l a = (a', next) →
  let x := (now, e, OLogin l next) in
  fails_ok t0 now (ip_checks (x :: log)) (pair_checks (x :: log)) a'.
Proof.
  intros Hle Hf Hs x. destruct l as [ip user pw|ip user pw|u]; cbn [login_step] in Hs.
  - destruct (attempt now ip user a) as [b [w ok]] eqn:Ea.
    pose proof (attempt_ok _ _ _ _ _ _ _ _ _ _ _ Hle Hf Ea) as Hb.
    destruct ok; injection Hs as <- <-; [|by apply fails_quiet].
    eapply fails_ext; [exact Hb| |].
    + intros i. unfold ip_checks, add_ip. rewrite !tally_cons. cbn.
      destruct (String.eqb ip i); lia.
    + intros i u n. unfold pair_checks, add_pair. rewrite !tally_cons. cbn.
      rewrite Z.add_0_l. destruct (_ =? 0); [|by destruct (_ && _)].
      destruct (_ && _); cbn; intros [= <-]; f_equal; lia.
  - set (known := users a !! user) in *.
    set (hash := match known with Some u => PasswordBcrypt u | None => dummyHash end) in *.
    pose proof (settle_ok t0 tl now _ _ ip user true a Hle Hf) as Ht.
    pose proof (settle_ok t0 tl now _ _ ip user false a Hle Hf) as Hn.
    destruct (CompareHashAndPassword hash pw), known as [u|]; injection Hs as <- <-;
      try by apply fails_quiet.
    eapply fails_ext; [exact Ht| |].
    + intros i. unfold ip_checks, add_ip. rewrite !tally_cons. cbn.
      destruct (String.eqb ip i); lia.
    + intros i v n. unfold pair_checks, end_pair. rewrite !tally_cons. cbn.
      pose proof (tally_nonneg (matched_for i v) log).
      destruct (_ && _); rewrite ?Z.add_0_l; [|done].
      destruct (Z.eqb_spec (1 + tally (matched_for i v) log) 0); [lia | done].
  - unfold create in Hs. destruct rand as [tok|err]; injection Hs as <- <-;
      apply fails_quiet; try done.
    + destruct (fails_prune t0 tl now _ _ a Hle Hf) as [Hi Hu]. split; [exact Hi | exact Hu].
    + by apply (fails_later t0 tl).
Qed.

Lemma authorize_frame now r a0 :
  ∃ a v, authorize now r (Some a0) = (Some a, v) ∧ (a = a0 ∨ a = prune now a0).
Proof.
  unfold authorize. destruct (internal r); [destruct (negb _); eauto 10|].
  unfold lookup_session. destruct (cookie r) as [c|]; [destruct (String.eqb c _)|];
    destruct (denial _ _) as [cd rs]; destruct (cd =? 0); eauto 10.
Qed.

Lemma server_step_ok t0 tl now e log s s' o :
  tl ≤ now → fails_ok t0 tl (ip_checks log) (pair_checks log) (auth s) →
  server_step now e s = (s', o) →
  fails_ok t0 now (ip_checks ((now, e, o) :: log)) (pair_checks ((now, e, o) :: log)) (auth s').
Proof.
  intros Hle Hf Hs. pose proof (fails_later t0 tl now _ _ _ Hle Hf) as Hl.
  destruct e as [id ip user pw|id rand|r|r]; cbn [server_step] in Hs.
  - destruct (inflight s !! id); injection Hs as <- <-; by apply fails_quiet.
  - destruct (inflight s !! id) as [l|]; [|injection Hs as <- <-; by apply fails_quiet].
    destruct (login_step now rand l (auth s)) as [a next] eqn:El. injection Hs as <- <-.
    by eapply login_step_ok.
  - destruct (authorize_frame now r (auth s)) as (a & v & E & Ha).
    rewrite E in Hs. injection Hs as <- <-. apply fails_quiet; [done|]. cbn.
    destruct Ha as [-> | ->]; [done | by apply (fails_prune t0 tl)].
  - unfold handleLogout in Hs. destruct (negb _); [|destruct (cookie r)];
      injection Hs as <- <-; apply fails_quiet; done.
Qed.

Lemma history_fails us t0 log tl s :
  history us t0 log tl s → fails_ok t0 tl (ip_checks log) (pair_checks log) (auth s).
Proof.
  induction 1 as [|log tl s now e s' o _ IH Hle Hs]; [|by eapply server_step_ok].
  split; [intros ip | intros ip user n _ [= <-]]; cbn; rewrite lookup_empty;
    (split; [lia|]); rewrite Z.sub_diag, Z.mul_0_r; done.
Qed.

(** C6: on every history of the console, whatever the interleaving of
    concurrent logins: an address that has not logged in to an account has had
    at most five of its guesses at it checked, plus five for each thirty
    seconds since the server started; and one address has had at most fifty
    unsuccessful checks across all accounts, plus fifty for each thirty
    seconds. *)
Theorem login_guesses_bounded us t0 log t s :
  history us t0 log t s →
  (∀ ip user, slen user ≤ maxUsernameBytes → tally (matched_for ip user) log = 0 →
     tally (granted_for ip user) log * loginLockout
       ≤ maxLoginFailures * (loginLockout + (t - t0))) ∧
  (∀ ip, (tally (granted_ip ip) log - tally (matched_ip ip) log) * loginLockout
           ≤ maxIPLoginFailures * (loginLockout + (t - t0))).
Proof.
  intros Hh%history_fails. destruct Hh as [Hip Hus]. split.
  - intros ip user Hu Hm. eapply (accounts_bound _ t0 t); [done|]. apply (Hus ip user); [done|].
    unfold pair_checks. by rewrite Hm.
  - intros ip. eapply (accounts_bound _ t0 t); [done | apply Hip].
Qed.
(** ** Who is served *)

(** The entry in which a login's password was checked against [u]'s hash and
    matched. *)
Definition matched_entry (us : gmap string User) (u : User) (x : entry) : Prop :=
  ∃ ip user password, x.2 = OLogin (Granted ip user password) (inl (Matched u)) ∧
    us !! user = Some u ∧ CompareHashAndPassword (PasswordBcrypt u) password = true.

(** The entry in which the login of [u] was answered with the token [c]. *)
Definition issued_entry (u : User) (c : string) (x : entry) : Prop :=
  x.2 = OLogin (Matched u)
          (inr (MkResponse 204 None (Some (c, sessionTTL `quot` Second)) NoBody)).

(** The entry in which the session [c] was logged out. *)
Definition logged_out (c : string) (x : entry) : Prop :=
  ∃ r, x.1.2 = Logout r ∧ method r = "POST" ∧ cookie r = Some c.

(** The token [c] was issued to [u] at [tc] after its password matched, and
    not logged out since. *)
Definition live_token (us : gmap string User) (log : list entry) (c : string) (u : User)
    (tc : Z) : Prop :=
  ∃ newer x older, log = newer ++ x :: older ∧ x.1.1 = tc ∧ issued_entry u c x ∧
    Exists (matched_entry us u) older ∧ Forall (λ y, ¬ logged_out c y) newer.

Definition sessions_ok (us : gmap string User) (log : list entry) (s : server) : Prop :=
  users (auth s) = us ∧
  (∀ id u, inflight s !! id = Some (Matched u) → Exists (matched_entry us u) log) ∧
  (∀ c ss, sessions (auth s) !! c = Some ss →
     ∃ u tc, live_token us log c u tc ∧ ss = session_of u tc).

Lemma live_token_cons us log c u tc x :
  ¬ logged_out c x → live_token us log c u tc → live_token us (x :: log) c u tc.
Proof.
  intros Hx (newer & y & older & -> & Ht & Hi & Hm & Hn).
  exists (x :: newer), y, older. split_and!; try done. by constructor.
Qed.

Lemma sessions_prune_inv now a c ss :
  sessions (prune now a) !! c = Some ss → sessions a !! c = Some ss ∧ now < expires ss.
Proof. cbn. by intros [? ?]%map_lookup_filter_Some. Qed.

(** The sessions of [s'] come from those of [s], none logged out by [x]. *)
Lemma sessions_ok_cons us log x s s' :
  sessions_ok us log s → users (auth s') = us →
  (∀ id u, inflight s' !! id = Some (Matched u) →
     inflight s !! id = Some (Matched u) ∨ matched_entry us u x) →
  (∀ c ss, sessions (auth s') !! c = Some ss →
     (sessions (auth s) !! c = Some ss ∧ ¬ logged_out c x) ∨
     (∃ u, ss = session_of u x.1.1 ∧ issued_entry u c x ∧ Exists (matched_entry us u) log)) →
  sessions_ok us (x :: log) s'.
Proof.
  intros (Hu & Hm & Hs) Hu' Hm' Hs'. split_and!; [done| |].
  - intros id u Hi. apply Exists_cons. destruct (Hm' id u Hi); [right; eauto | by left].
  - intros c ss Hc. destruct (Hs' c ss Hc) as [[Hold Hx]|(u & -> & Hi & Hex)].
    + destruct (Hs c ss Hold) as (u & tc & Hl & ->). exists u, tc.
      split; [by apply live_token_cons | done].
    + exists u, x.1.1. split; [|done]. exists [], x, log. done.
Qed.

Lemma settle_frame now ip user b a :
  users (settle now ip user b a) = users a ∧ sessions (settle now ip user b a) = sessions a.
Proof.
  assert (users (settle_ip now ip b a) = users a ∧
          sessions (settle_ip now ip b a) = sessions a) as [E1 E2].
  { unfold settle_ip. destruct (ipFails a !! ip); [|done].
    destruct (negb b); [done|]. by destruct (_ <? _). }
  unfold settle. destruct (_ <? _); [done|]. destruct b; [done|].
  by destruct (userFails _ !! _).
Qed.

Lemma attempt_frame now ip user a :
  users (attempt now ip user a).1 = users a ∧
  sessions (attempt now ip user a).1 = sessions (prune now a).
Proof.
  unfold attempt. destruct (blocked _ _ _); [done|]. destruct (_ <=? _); [|done].
  by destruct (blocked _ _ _).
Qed.
(** What one critical section of a login does to the session table. *)
Lemma login_step_sessions us now rand l a a' next :
  users a = us → login_step now rand l a = (a', next) →
  users a' = us ∧
  (∀ u, next = inl (Matched u) →
     ∃ ip user password, l = Granted ip user password ∧ us !! user = Some u ∧
       CompareHashAndPassword (PasswordBcrypt u) password = true) ∧
  (∀ c ss, sessions a' !! c = Some ss →
     sessions a !! c = Some ss ∨
     ∃ u, l = Matched u ∧ ss = session_of u now ∧
       next = inr (MkResponse 204 None (Some (c, sessionTTL `quot` Second)) NoBody)).
Proof.
  intros Hu Hs. destruct l as [ip user pw|ip user pw|u]; cbn [login_step] in Hs.
  - destruct (attempt_frame now ip user a) as [E1 E2].
    destruct (attempt now ip user a) as [b [w ok]]. cbn in E1, E2.
    destruct ok; injection Hs as <- <-; (split_and!; [congruence | done |]);
      intros c ss; rewrite E2; intros [? _]%sessions_prune_inv; by left.
  - destruct (settle_frame now ip user true a) as [E1 E2].
    destruct (settle_frame now ip user false a) as [E3 E4].
    rewrite Hu in Hs.
    destruct (us !! user) as [u|] eqn:Eu; destruct (CompareHashAndPassword _ pw) eqn:Ec;
      injection Hs as <- <-; (split_and!; [congruence | | intros c ss; rewrite ?E2, ?E4; by left]);
      intros v; try done. intros [= <-]. by exists ip, user, pw.
  - unfold create in Hs. destruct rand as [tok|err]; injection Hs as <- <-;
      (split_and!; [done | done |]); intros c ss; [|by left].
    cbn [sessions set_sessions]. intros [[<- <-]|[_ Hc]]%lookup_insert_Some.
    + right. by exists u.
    + apply sessions_prune_inv in Hc as [? _]. by left.
Qed.

Lemma server_step_sessions us log now e s s' o :
  sessions_ok us log s → server_step now e s = (s', o) →
  sessions_ok us ((now, e, o) :: log) s'.
Proof.
  intros Hok Hs. pose proof Hok as (Hu & Hm & Hss).
  destruct e as [id ip user pw|id rand|r|r]; cbn [server_step] in Hs.
  - assert (¬ ∃ c, logged_out c (now, Begin id ip user pw, o)) as Hn
      by (intros (c & r & ? & _); done).
    apply (sessions_ok_cons us log _ s); [done| | |];
      (destruct (inflight s !! id) eqn:Ei; injection Hs as <- <-); try done.
    + by left.
    + intros id' u. cbn. rewrite lookup_insert_Some. intros [[_ ?]|[_ ?]]; [done | by left].
    + intros c ss Hc. left. split; [done|]. intros ?. apply Hn. by exists c.
    + intros c ss Hc. left. split; [done|]. intros ?. apply Hn. by exists c.
  - destruct (inflight s !! id) as [l|] eqn:Ei.
    2: { injection Hs as <- <-. apply (sessions_ok_cons us log _ s); auto.
         intros c ss Hc. left. split; [done|]. by intros (r & ? & _). }
    destruct (login_step now rand l (auth s)) as [a next] eqn:El. injection Hs as <- <-.
    destruct (login_step_sessions us _ _ _ _ _ _ Hu El) as (Hu' & Hnext & Hs').
    apply (sessions_ok_cons us log _ s); [done | done | |].
    + intros id' u. cbn. destruct next as [l'|resp].
      * rewrite lookup_insert_Some. intros [[_ ->]|[_ ?]]; [right|by left].
        destruct (Hnext u eq_refl) as (ip & user & pw & -> & Hus & Hcmp).
        by exists ip, user, pw.
      * rewrite lookup_delete_Some. intros [_ ?]. by left.
    + intros c ss Hc. destruct (Hs' c ss Hc) as [Hold|(u & -> & -> & ->)].
      * left. split; [done|]. by intros (r & ? & _).
      * right. exists u. split_and!; [done | done | by eapply Hm].
  - destruct (authorize_frame now r (auth s)) as (a & v & E & Ha).
    rewrite E in Hs. injection Hs as <- <-.
    apply (sessions_ok_cons us log _ s); [done | | by left |]; cbn.
    + by destruct Ha as [-> | ->].
    + intros c ss Hc. left. split; [|by intros (? & ? & _)].
      destruct Ha as [-> | ->]; [done | by apply sessions_prune_inv in Hc as [? _]].
  - unfold handleLogout in Hs. destruct (String.eqb_spec (method r) "POST") as [Em|Em];
      cbn [negb] in Hs; [destruct (cookie r) as [c|] eqn:Ec|]; injection Hs as <- <-;
      (apply (sessions_ok_cons us log _ s); [done | done | by left |]); cbn; intros c' ss Hc; left.
    + apply lookup_delete_Some in Hc as [Hne Hc]. split; [done|].
      intros (r' & [= <-] & _ & ?). congruence.
    + split; [done|]. intros (r' & [= <-] & _ & ?). congruence.
    + split; [done|]. intros (r' & [= <-] & ? & _). congruence.
Qed.

Lemma history_sessions us t0 log tl s : history us t0 log tl s → sessions_ok us log s.
Proof.
  induction 1 as [|log tl s now e s' o _ IH _ Hs]; [|by eapply server_step_sessions].
  split_and!; [done | |]; intros ? ?; cbn; by rewrite lookup_empty.
Qed.

(** The roles a route admits. *)
Definition admits (a : access) (u : User) : Prop :=
  match a with
  | accessPublic | accessSignedIn => True
  | accessTrustee => Role u = RoleTrustee
  | accessAdmin => Role u = RoleAdmin
  end.

Lemma denial_allows a sess reason :
  denial a sess = (0, reason) →
  a = accessPublic ∨ ∃ ss, sess = Some ss ∧
    match a with accessTrustee => SRole ss = RoleTrustee | accessAdmin => SRole ss = RoleAdmin
            | _ => True end.
Proof.
  unfold denial. case_bool_decide as Ha; [by left|]. destruct sess as [ss|]; [|done].
  intros Hd. right. exists ss. split; [done|].
  destruct a; [|done|done|].
  - destruct (String.eqb_spec (SRole ss) RoleAdmin); done.
  - destruct (String.eqb_spec (SRole ss) RoleTrustee); done.
Qed.

(** C7: a request that did not come from the console's own driver is served on
    a route that is not public only with a session cookie that a completed
    login issued less than twelve hours earlier to an account whose stored hash
    matched the password sent, whose role the route admits, and which has not
    been logged out since; the handler then sees exactly that account. Any
    route missing from the table needs an admin. *)
Theorem served_requests_are_authorised us t0 log t s now r s' sess :
  history us t0 log t s → t ≤ now →
  internal r = false → route_access (pattern r) ≠ accessPublic →
  server_step now (Request r) s = (s', OVerdict (Forward sess)) →
  ∃ c u tc, cookie r = Some c ∧ live_token us log c u tc ∧ now < tc + sessionTTL ∧
    admits (route_access (pattern r)) u ∧ sess = Some (session_of u tc).
Proof.
  intros Hh _ Hint Hpub Hs. apply history_sessions in Hh as (_ & _ & Hss).
  cbn [server_step] in Hs. unfold authorize in Hs. rewrite Hint in Hs.
  destruct (lookup_session now (cookie r) (auth s)) as [a os] eqn:El.
  destruct (denial (route_access (pattern r)) os) as [cd reason] eqn:Ed.
  destruct (Z.eqb_spec cd 0) as [->|Hcd]; [|discriminate Hs]. injection Hs as _ ->.
  revert Hpub Ed. generalize (route_access (pattern r)). intros need Hpub Ed.
  apply denial_allows in Ed as [?|(ss & -> & Hrole)]; [contradiction|].
  unfold lookup_session in El. destruct (cookie r) as [c|]; [|discriminate El].
  destruct (String.eqb c EmptyString); [discriminate El|]. injection El as <- Hc.
  apply sessions_prune_inv in Hc as [Hc Hexp].
  destruct (Hss c ss Hc) as (u & tc & Hl & ->). exists c, u, tc.
  split_and!; [done | exact Hl | exact Hexp | by destruct need | done].
Qed.
End Run.
End AuthServer.
