(* ===== verification/ToyLedger.v ===== *)
(** * A concrete ledger for the witnesses

    A [FabricShim] that joins composite-key parts with NUL bytes and pages
    through a state's keys, a [Committer] that compares values, a JSON codec
    and a message decoder for a handful of one-byte messages.  It shows the
    laws assumed of the libraries can hold together and lets the witnesses run
    whole elections. *)
From S2P Require Import Prelude Fabric Hex Wire Ristretto ToyGroup.
From S2P Require Import CdsVerify CredVerify SelectionVerify SigVerify Contract BoardSpec.
From S2P Require Import HandlerFacts Ledger.
From Stdlib Require Import Ascii.
Import Contract.
Local Open Scope string_scope.
Local Open Scope list_scope.
Local Open Scope Z_scope.

(** ** Composite keys *)
Definition NUL : ascii := Ascii.zero.

Fixpoint part_ok (s : string) : bool :=
  match s with
  | EmptyString => true
  | String c s => negb (bool_decide (c = NUL)) && part_ok s
  end.

Fixpoint join_nul (parts : list string) : string :=
  match parts with
  | [] => EmptyString
  | p :: parts => p +:+ String NUL (join_nul parts)
  end.

Fixpoint split_nul (s : string) : list string :=
  match s with
  | EmptyString => []
  | String c s =>
      if bool_decide (c = NUL) then EmptyString :: split_nul s
      else match split_nul s with
           | [] => [String c EmptyString]
           | x :: xs => String c x :: xs
           end
  end.

Definition toy_create (ty : string) (attrs : list string) : result string :=
  if forallb part_ok (ty :: attrs) then Ok (String NUL (join_nul (ty :: attrs)))
  else Err (Foreign "input contains unicode U+0000").

Definition toy_split (key : string) : result (string * list string) :=
  match key with
  | String c rest =>
      if bool_decide (c = NUL) then
        match split_nul rest with
        | ty :: attrs => Ok (ty, attrs)
        | [] => Err (Foreign "empty composite key")
        end
      else Err (Foreign "not a composite key")
  | EmptyString => Err (Foreign "empty key")
  end.

(** ** Range queries *)
Definition toy_in_range (ty : string) (attrs : list string) (k : string) : bool :=
  match toy_split k with
  | Ok (ty', attrs') =>
      bool_decide (ty' = ty) && bool_decide (take (length attrs) attrs' = attrs)
  | Err _ => false
  end.

Definition toy_range (w : worldstate) (ty : string) (attrs : list string) : list string :=
  filter (λ k, toy_in_range ty attrs k = true) (map_to_list w).*1.

Definition toy_start (ks : list string) (bookmark : string) : nat :=
  if bool_decide (bookmark = "") then 0%nat
  else match list_find (λ k, k = bookmark) ks with Some (i, _) => i | None => length ks end.

Definition toy_page (w : worldstate) (ty : string) (attrs : list string) (pageSize : Z)
    (bookmark : string) : result (list (result string) * option string) :=
  let ks := toy_range w ty attrs in
  let i := toy_start ks bookmark in
  let n := Z.to_nat pageSize in
  Ok (Ok <$> take n (drop i ks), Some (default "" (ks !! (i + n)%nat))).

#[global] Instance toy_shim : FabricShim :=
  {| CreateCompositeKey := toy_create; SplitCompositeKey := toy_split; QueryPage := toy_page |}.

#[global] Instance toy_committer : Committer :=
  {| validate we wc t := forallb (λ k, bool_decide (wc !! k = we !! k)) (reads t) |}.

Lemma split_nul_part p rest :
  part_ok p = true → split_nul (p +:+ String NUL rest) = p :: split_nul rest.
Proof.
  induction p as [|c p IH]; [done|]. cbn [part_ok].
  intros [Hc Hp]%andb_true_iff. apply negb_true_iff in Hc.
  change ((String c p) +:+ String NUL rest) with (String c (p +:+ String NUL rest)).
  cbn [split_nul]. by rewrite Hc, IH.
Qed.

Lemma split_join parts : forallb part_ok parts = true → split_nul (join_nul parts) = parts.
Proof.
  induction parts as [|p parts IH]; [done|]. cbn [forallb join_nul].
  intros [Hp Hps]%andb_true_iff. by rewrite split_nul_part, IH.
Qed.

Lemma toy_split_create ty attrs k : toy_create ty attrs = Ok k → toy_split k = Ok (ty, attrs).
Proof.
  unfold toy_create. destruct (forallb part_ok (ty :: attrs)) eqn:Hp; [|done].
  intros [= <-]. unfold toy_split. rewrite bool_decide_true by done.
  pose proof (split_join (ty :: attrs) Hp) as E. cbn in E |- *. by rewrite E.
Qed.

Lemma toy_in_range_ok w ty attrs k :
  k ∈ toy_range w ty attrs ↔ in_range w ty attrs k.
Proof.
  unfold toy_range, in_range, toy_in_range. rewrite list_elem_of_filter, list_elem_of_fmap.
  cbn [SplitCompositeKey toy_shim].
  assert ((∃ y : string * bytes, k = y.1 ∧ y ∈ map_to_list w) ↔ is_Some (w !! k)) as ->.
  { split.
    - intros ([k' v] & -> & Hin%elem_of_map_to_list). eauto.
    - intros [v Hv]. exists (k, v). by rewrite elem_of_map_to_list. }
  rewrite (Logic.and_comm (_ = true)). apply and_iff_compat_l. destruct (toy_split k) as [[ty' attrs']|e].
  - rewrite andb_true_iff, !bool_decide_eq_true. split.
    + intros [-> E]. exists (drop (length attrs) attrs'). by rewrite <- E at 1; rewrite take_drop.
    + intros [rest [= -> ->]]. split; [done|]. by rewrite take_app_length.
  - split; [done | by intros [rest [=]]].
Qed.

Lemma toy_start_ok w ty attrs i bookmark :
  NoDup (toy_range w ty attrs) →
  i = 0%nat ∧ bookmark = "" ∨ toy_range w ty attrs !! i = Some bookmark →
  toy_start (toy_range w ty attrs) bookmark = i.
Proof.
  intros Hnd [[-> ->]|Hi]; unfold toy_start; [by rewrite bool_decide_true|].
  rewrite bool_decide_false.
  2: { intros ->. apply list_elem_of_lookup_2, toy_in_range_ok in Hi as [_ [rest E]]. done. }
  destruct (list_find (λ k, k = bookmark) (toy_range w ty attrs)) as [[j x]|] eqn:E.
  - apply list_find_Some in E as (Hj & -> & _). by eapply NoDup_lookup.
  - apply list_find_None in E. rewrite Forall_lookup in E. by destruct (E _ _ Hi).
Qed.

#[global] Instance toy_shim_laws : FabricShimLaws.
Proof.
  split; cbn [CreateCompositeKey SplitCompositeKey QueryPage toy_shim].
  - intros ty ty' attrs attrs' k E%toy_split_create E'%toy_split_create.
    rewrite E in E'. by injection E'.
  - apply toy_split_create.
  - intros ty attrs k E%toy_split_create ->. done.
  - intros w ty attrs. exists (toy_range w ty attrs).
    assert (NoDup (toy_range w ty attrs)) as Hnd.
    { apply NoDup_filter, NoDup_fst_map_to_list. }
    split_and!; [done | intros k; apply toy_in_range_ok |].
    intros i n bookmark Hn Hb. unfold toy_page.
    by rewrite (toy_start_ok _ _ _ _ _ Hnd Hb), Nat2Z.id.
Qed.

#[global] Instance toy_committer_laws : CommitterLaws.
Proof.
  split. cbn. intros we wc t Hv k Hk. rewrite forallb_forall in Hv.
  apply (bool_decide_eq_true (wc !! k = we !! k)), Hv. by apply list_elem_of_In.
Qed.
