(* ===== verification/ToyElection.v ===== *)
(** * A complete election on the concrete ledger

    Two contests of one position, two trustees who must both sign, two voters.
    Every message is built by the honest parties' algorithms; a one-byte code
    stands for its wire form. *)
From S2P Require Import Prelude Fabric Hex Wire Ristretto ToyGroup.
From S2P Require Import CdsVerify CredVerify SelectionVerify SigVerify Contract BoardSpec.
From S2P Require Import HandlerFacts Ledger Positions HonestVoter ToyLedger Scenarios.
Import Contract.

#[global] Instance toy_hash : Merlin := toy_merlin 0.

#[global] Instance toy_hash_laws : MerlinLaws := toy_merlin_laws 0.

(** ** JSON: strings as hex, NUL-separated *)
Definition toy_marshal_strings (l : list string) : result string :=
  Ok (join_nul ((λ s, EncodeToString (bytes_of_string s)) <$> l)).

Definition toy_unmarshal_strings (s : string) : result (list string) :=
  rmapM (λ h, let? b := DecodeString h in Ok (string_of_bytes b)) (split_nul s).

#[global] Instance toy_json : Json := {|
  MarshalNullifierPage p := toy_marshal_strings (NextBookmark p :: Nullifiers p);
  UnmarshalNullifierPage s :=
    let? l := toy_unmarshal_strings s in
    match l with
    | next :: ns => Ok (MkNullifierPage ns next)
    | [] => Err (Foreign "unexpected end of JSON input")
    end;
  MarshalStrings := toy_marshal_strings;
  UnmarshalStrings := toy_unmarshal_strings
|}.

(** ** The messages *)
Definition toy_contests : list string := ["p/a"; "p/b"].

Definition toy_params : ElectionParameters.t :=
  ElectionParameters.Make WireVersion "e" toy_contests ["t1"; "t2"] 2 (F7_bytes f2).

Definition toy_dealers : list (list F7) := [[f2; f3]; [f1; f5]].

Definition toy_transcript : DKGTranscript.t :=
  DKGTranscript.Make WireVersion "e" 2
    [SigVerify.dealer_commitments "t1" [f2; f3]; SigVerify.dealer_commitments "t2" [f1; f5]] [].

(** The joint key, [(2 + 1)*G]. *)
Definition toy_key : F7 := f3.

Definition toy_credential (nf : bytes) : credential := MkCredential nf f2 f4 f5.

Definition toy_choices (a : bool) : list contest_choice :=
  [MkChoice a f2 f4 f1 f6; MkChoice (negb a) f5 f3 f2 f2].

Definition no_ballot : Ballot.t := Ballot.Make 0 "" [] [] [] None "" None.

Definition toy_ballot (nf : bytes) (a : bool) : Ballot.t :=
  match honest_ballot "e" "p" toy_contests toy_key (toy_credential nf) (toy_choices a) f6 with
  | Ok b => b
  | Err _ => no_ballot
  end.

Definition toy_partial : PartialDecryption.t :=
  PartialDecryption.Make WireVersion "t1" (F7_bytes f4)
    (Some (ChaumPedersenProof.Make WireVersion [] [] [] [])) "p/a".

Definition toy_signature (id : string) (i : Z) (totals : list Z) : TrusteeSignature.t :=
  TrusteeSignature.Make id
    match SigVerify.schnorr_sign (SigVerify.trustee_share toy_dealers i) f3
            (SigVerify.TallySigContext "e" totals) with
    | Ok s => s
    | Err _ => []
    end.

Definition toy_tally : TallyResult.t :=
  TallyResult.Make WireVersion "e" [1; 1] []
    [toy_signature "t1" 1 [1; 1]; toy_signature "t2" 2 [1; 1]].

(** A partial under the wire id the console's roster uses, and the tally with
    one trustee's endorsement only. *)
Definition toy_roster_partial : PartialDecryption.t :=
  PartialDecryption.Make WireVersion "1" (F7_bytes f4)
    (Some (ChaumPedersenProof.Make WireVersion [] [] [] [])) "p/a".

Definition toy_half_tally : TallyResult.t :=
  TallyResult.Make WireVersion "e" [1; 1] [] [toy_signature "t1" 1 [1; 1]].

Definition toy_tallies : list (byte * TallyResult.t) :=
  [(x06, toy_tally); (x16, toy_half_tally)].

Definition unknown_message {A} : result A := Err (Foreign "proto: cannot parse").

(** The two attacked copies of the second ballot. *)
Definition toy_tampered : Ballot.t :=
  match Scenarios.tamper_first_branch (toy_ballot [x0b] false) with Ok b => b | Err _ => no_ballot end.

Definition toy_reused : Ballot.t :=
  match Scenarios.set_nullifier [x0a] (toy_ballot [x0b] false) with Ok b => b | Err _ => no_ballot end.

Definition toy_ballots : list (byte * Ballot.t) :=
  [(x01, toy_ballot [x0a] true); (x02, toy_ballot [x0b] false);
   (x11, toy_tampered); (x12, toy_reused);
   (x21, toy_ballot (replicate 32 x0a) true); (x22, toy_ballot (replicate 32 x0b) false);
   (x23, toy_ballot (replicate 32 x0c) true)].

#[global] Instance toy_proto : Proto := {|
  UnmarshalBallot raw :=
    match raw with
    | [c] => match find (λ p, bool_decide (p.1 = c)) toy_ballots with
             | Some p => Ok p.2
             | None => unknown_message
             end
    | _ => unknown_message
    end;
  UnmarshalElectionParameters raw := match raw with
    | [x03] => Ok toy_params | _ => unknown_message end;
  UnmarshalDKGTranscript raw := match raw with
    | [x04] => Ok toy_transcript | _ => unknown_message end;
  UnmarshalPartialDecryption raw := match raw with
    | [x05] => Ok toy_partial | [x15] => Ok toy_roster_partial | _ => unknown_message end;
  UnmarshalTallyResult raw := match raw with
    | [x06] => Ok toy_tally | [x16] => Ok toy_half_tally | _ => unknown_message end;
  MarshalTallyResult t := match find (λ p, bool_decide (p.2 = t)) toy_tallies with
    | Some p => Ok [p.1] | None => unknown_message end
|}.

(** ** The election *)
Definition toy_setup : list invocation := [ICreateElection "03"; IPublishDKGTranscript "04"].

Definition toy_voting : list invocation := [ISubmitBallot "01"; ISubmitBallot "02"].

Definition toy_closing : list invocation :=
  [ICloseElection "e"; ISubmitPartialDecryption "e" "05"; IPublishTally "06"].

Definition world_after (h : list invocation) : worldstate := default ∅ (replay h ∅).

Lemma toy_election_runs :
  is_Some (replay (toy_setup ++ toy_voting ++ toy_closing) ∅).
Proof. apply (bool_decide_unpack _). vm_compute. reflexivity. Qed.

(** A history executed one transaction at a time is a committed history. *)
Lemma replay_commits h1 h2 w0 w w' :
  commits w0 h1 w → replay h2 w = Some w' → commits w0 (h1 ++ h2) w'.
Proof.
  revert h1 w. induction h2 as [|i h2 IH]; intros h1 w Hc Hr.
  { injection Hr as <-. by rewrite app_nil_r. }
  cbn in Hr. destruct (submit (handler i) (healthy w)) as [w1 [[]|e]] eqn:E; [|done].
  apply submit_ok in E as (t & Hrun & ->).
  replace (h1 ++ i :: h2) with ((h1 ++ [i]) ++ h2) by by rewrite <- app_assoc.
  eapply IH; [|exact Hr]. eapply commits_snoc; [done | exact Hrun |].
  apply forallb_forall. intros k _. by apply bool_decide_eq_true.
Qed.

Lemma toy_commits h : is_Some (replay h ∅) → commits ∅ h (world_after h).
Proof.
  intros [w Hw]. unfold world_after. rewrite Hw. cbn.
  apply (replay_commits [] h ∅ ∅); [constructor | done].
Qed.

Lemma replay_world h1 h2 :
  is_Some (replay (h1 ++ h2) ∅) →
  replay h1 ∅ = Some (world_after h1) ∧
  replay h2 (world_after h1) = Some (world_after (h1 ++ h2)).
Proof.
  intros [w Hw]. unfold world_after. rewrite Hw. rewrite replay_app in Hw.
  destruct (replay h1 ∅) as [w1|]; [|done]. done.
Qed.

Lemma toy_commits_from h1 h2 :
  is_Some (replay (h1 ++ h2) ∅) → commits (world_after h1) h2 (world_after (h1 ++ h2)).
Proof.
  intros Hr. apply (replay_commits [] h2 _ (world_after h1)); [constructor|].
  by destruct (replay_world _ _ Hr).
Qed.

(** The second ballot endorsed before the first was committed. *)
Definition endorsed (i : invocation) (w : worldstate) : txlog :=
  match handler i (healthy w) tx_start with Ok (_, t) => t | Err _ => tx_start end.

Definition concurrent_world : worldstate :=
  apply_writes (writes (endorsed (ISubmitBallot "02") (world_after toy_setup)))
    (world_after (toy_setup ++ [ISubmitBallot "01"])).

Lemma toy_concurrent :
  commits ∅ ((toy_setup ++ [ISubmitBallot "01"]) ++ [ISubmitBallot "02"]) concurrent_world.
Proof.
  apply (commits_snoc _ _ _ _ (healthy (world_after toy_setup))).
  - apply toy_commits, (bool_decide_unpack _). vm_compute. reflexivity.
  - vm_compute. reflexivity.
  - vm_compute. reflexivity.
Qed.

(** ** Witnesses *)
Lemma handlers_refine_board_witness :
  ∃ w' B', submit (handler (ICreateElection "03")) (healthy ∅) = (w', Ok tt) ∧
    board_step ∅ (ICreateElection "03") B' ∧ represents w' B'.
Proof.
  assert (is_ok (submit (handler (ICreateElection "03")) (healthy ∅)).2 = true) as Hok
    by (vm_compute; reflexivity).
  destruct (submit (handler (ICreateElection "03")) (healthy ∅)) as [w' [[]|e]] eqn:E; [|done].
  destruct (handlers_refine_board (healthy ∅) (ICreateElection "03") w' (Ok tt) ∅
    represents_empty E) as (B' & Hs & HB). eauto.
Defined.

Lemma handlers_accept_witness :
  ∃ w', submit (handler (ICreateElection "03")) (healthy ∅) = (w', Ok tt) ∧
    represents w' (<[KStatus "e" := open_value]> (<[KElection "e" := [x03]]> ∅)).
Proof.
  apply (handlers_accept ∅ (ICreateElection "03") ∅
    (<[KStatus "e" := open_value]> (<[KElection "e" := [x03]]> ∅)) [KElection "e"; KStatus "e"]).
  - apply represents_empty.
  - apply (step_create ∅ "03" [x03] toy_params); [reflexivity | reflexivity | | reflexivity].
    split; try (vm_compute; congruence); [done|].
    right. exists f2. vm_compute. reflexivity.
  - exists [x03], toy_params. done.
  - repeat constructor.
Defined.

Lemma committed_history_serializable_witness :
  commits ∅ ((toy_setup ++ [ISubmitBallot "01"]) ++ [ISubmitBallot "02"]) concurrent_world ∧
  replay ((toy_setup ++ [ISubmitBallot "01"]) ++ [ISubmitBallot "02"]) ∅ = Some concurrent_world.
Proof.
  split; [apply toy_concurrent | apply (committed_history_serializable ∅ _ _ toy_concurrent)].
Defined.

Lemma ballots_cast_once_and_recorded_witness :
  (cast ((toy_setup ++ [ISubmitBallot "01"]) ++ [ISubmitBallot "02"])).*1 =
    [("e", "0a"); ("e", "0b")] ∧
  NoDup [("e", "0a"); ("e", "0b")] ∧
  ((("e", "0b"), [x02]) ∈ cast ((toy_setup ++ [ISubmitBallot "01"]) ++ [ISubmitBallot "02"]) ↔
   ∃ k, composite_key (KBallot "e" "0b") = Ok k ∧ concurrent_world !! k = Some [x02]).
Proof.
  destruct (ballots_cast_once_and_recorded _ _ toy_concurrent) as [Hnd Hb].
  assert ((cast ((toy_setup ++ [ISubmitBallot "01"]) ++ [ISubmitBallot "02"])).*1 =
    [("e", "0a"); ("e", "0b")]) as E by (vm_compute; reflexivity).
  rewrite E in Hnd. split; [done|]. split; [done|]. apply Hb.
Defined.

Lemma board_is_append_only_witness :
  let k := String ToyLedger.NUL (join_nul [statusIndex; "e"]) in
  world_after (toy_setup ++ toy_voting ++ toy_closing) !! k = Some open_value ∨
  ∃ e, KStatus "e" = KStatus e ∧
    world_after (toy_setup ++ toy_voting ++ toy_closing) !! k = Some closed_value.
Proof.
  apply (board_is_append_only toy_setup (world_after toy_setup) (toy_voting ++ toy_closing)
    (world_after (toy_setup ++ toy_voting ++ toy_closing)) (KStatus "e")).
  - apply toy_commits, (bool_decide_unpack _). vm_compute. reflexivity.
  - apply toy_commits_from, toy_election_runs.
  - vm_compute. reflexivity.
  - vm_compute. reflexivity.
Defined.

Lemma closed_election_is_frozen_witness :
  let h1 := toy_setup ++ toy_voting ++ [ICloseElection "e"] in
  let h2 := [ISubmitPartialDecryption "e" "05"; IPublishTally "06"] in
  let ks := String ToyLedger.NUL (join_nul [statusIndex; "e"]) in
  world_after (h1 ++ h2) !! ks = Some closed_value ∧
  Forall (λ c : (string * string) * bytes, c.1.1 ≠ "e") (cast h2) ∧
  ∀ n k, composite_key (KBallot "e" n) = Ok k →
    world_after (h1 ++ h2) !! k = world_after h1 !! k.
Proof.
  apply (closed_election_is_frozen (toy_setup ++ toy_voting ++ [ICloseElection "e"])
    (world_after (toy_setup ++ toy_voting ++ [ICloseElection "e"]))).
  - apply toy_commits, (bool_decide_unpack _). vm_compute. reflexivity.
  - apply toy_commits_from, toy_election_runs.
  - vm_compute. reflexivity.
  - vm_compute. reflexivity.
Defined.

Lemma ledger_records_verify_witness :
  ∃ B, represents (world_after (toy_setup ++ toy_voting ++ toy_closing)) B ∧ board_wf B.
Proof.
  apply (ledger_records_verify (toy_setup ++ toy_voting ++ toy_closing)).
  apply toy_commits, toy_election_runs.
Defined.

Definition toy_open_board : board :=
  <[KDkg "e" := [x04]]> (<[KStatus "e" := open_value]> (<[KElection "e" := [x03]]> ∅)).

Definition toy_open_world : worldstate :=
  <[String ToyLedger.NUL (join_nul [dkgIndex; "e"]) := [x04]]>
    (<[String ToyLedger.NUL (join_nul [statusIndex; "e"]) := open_value]>
      (<[String ToyLedger.NUL (join_nul [electionIndex; "e"]) := [x03]]> ∅)).

Lemma toy_open_represents : represents toy_open_world toy_open_board.
Proof.
  repeat (apply represents_insert; [vm_compute; reflexivity|]). apply represents_empty.
Qed.

Lemma honest_ballot_recorded_witness :
  ∃ w', submit (SubmitBallot (EncodeToString [x01])) (healthy toy_open_world) = (w', Ok tt) ∧
    represents w' (record_ballot toy_open_board (toy_ballot [x0a] true) [x01]).
Proof.
  destruct (honest_ballot_recorded (H3 := toy_group) toy_open_board toy_open_world "e" "p" toy_params toy_transcript
    toy_key (toy_credential [x0a]) (toy_choices true) f6) as (b & Hb & Hrec).
  - apply toy_open_represents.
  - done.
  - done.
  - exists [x03]. split; vm_compute; reflexivity.
  - vm_compute. reflexivity.
  - exists [x04]. split; vm_compute; reflexivity.
  - vm_compute. reflexivity.
  - vm_compute. reflexivity.
  - done.
  - vm_compute. reflexivity.
  - vm_compute. reflexivity.
  - vm_compute. reflexivity.
  - assert (b = toy_ballot [x0a] true) as ->.
    { unfold toy_ballot. change toy_contests with
        (position_contests (ElectionParameters.ContestIds toy_params) "p"). by rewrite Hb. }
    apply Hrec; [reflexivity|]. repeat constructor.
Defined.
