(* ===== verification/Bench.v ===== *)
(** * The benchmark driver

    [client-sdk/bench]: the accuracy gate [Reconcile], the latency percentiles,
    and [Run], the dispatcher that hands ballots to a pool of workers, as a step
    relation: any interleaving of dispatches, completions and cancellation. *)
From S2P Require Import Prelude.
From stdpp Require Import sorting.
#[local] Open Scope Z_scope.

Module Bench.

(** ** accuracy.go *)
Definition Reconcile (submitted committed expected : Z) : result unit :=
  if negb (committed =? submitted)
  then Err (Errorf "reconcile: %d of %d ballots dropped during submission (committed != submitted)"
         [AInt (submitted - committed); AInt submitted])
  else if negb (committed =? expected)
  then Err (Errorf "reconcile: committed %d != expected ground-truth population %d"
         [AInt committed; AInt expected])
  else Ok tt.

(** ** metrics.go: durations are nanoseconds *)
Record PhaseTimings := MkPhaseTimings {
  Endorse : Z; CDSVerify : Z; Order : Z; Validate : Z; Commit : Z
}.

Definition Total (p : PhaseTimings) : Z :=
  wrap64 (wrap64 (wrap64 (Endorse p + Order p) + Validate p) + Commit p).

Definition percentile (sorted : list Z) (p : Z) : Z :=
  let n := Z.of_nat (length sorted) in
  let rank := Z.quot (p * n + 99) 100 in
  let rank := if rank <? 1 then 1 else rank in
  let rank := if n <? rank then n else rank in
  default 0 (sorted !! Z.to_nat (rank - 1)).

(** [sort.Slice] by [<]: on integers every sorting permutation is the same. *)
Definition Percentiles (durs : list Z) : Z * Z * Z :=
  if (length durs =? 0)%nat then (0, 0, 0)
  else
    let sorted := merge_sort Z.le durs in
    (percentile sorted 50, percentile sorted 95, percentile sorted 99).

(** ** driver.go *)
Record RunResult := MkRunResult {
  Submitted : Z; Committed : Z; Dropped : Z; Latencies : list Z; Window : Z;
  Stopped : bool; LastIndex : Z; ByIndex : list Z; OK : list bool; Concurrency : Z
}.

Definition clamp (concurrency : Z) : Z := if concurrency <? 1 then 1 else concurrency.

(** A run in progress: the dispatcher's next index, the indices held by
    workers, the per-index slots, whether the job channel is closed, and the
    progress reports made so far. *)
Record run := MkRun {
  next : nat; running : list nat; byIndex : list Z; ok : list bool;
  closed : bool; stopped : bool; reports : list nat
}.

Definition start (n : nat) : run :=
  MkRun 0 [] (replicate n 0) (replicate n false) false false [].

(** [jobs <- i] taken by an idle worker, and the progress call after it. *)
Definition dispatch (s : run) : run :=
  let dispatched := S (next s) in
  MkRun dispatched (next s :: running s) (byIndex s) (ok s) (closed s) (stopped s)
    (if (dispatched `mod` 1000 =? 0)%nat then reports s ++ [dispatched] else reports s).

(** A worker finishes index [i] after [t] nanoseconds. *)
Definition finish (i : nat) (t : Z) (success : bool) (s : run) : run :=
  MkRun (next s) (filter (λ j, j ≠ i) (running s)) (<[i := t]> (byIndex s))
    (<[i := success]> (ok s)) (closed s) (stopped s) (reports s).

(** [close(jobs)]; [cut] when a context ended the loop. *)
Definition close_jobs (cut : bool) (s : run) : run :=
  MkRun (next s) (running s) (byIndex s) (ok s) true cut (reports s).

(** A run from its start, with the completions so far: index, latency, success. *)
Inductive reached (n : nat) (workers : Z) : run → list (nat * (Z * bool)) → Prop :=
| reached_start : reached n workers (start n) []
| reached_dispatch s evs : reached n workers s evs → closed s = false → (next s < n)%nat →
    Z.of_nat (length (running s)) < workers → reached n workers (dispatch s) evs
| reached_finish s evs i t success : reached n workers s evs → i ∈ running s →
    reached n workers (finish i t success s) (evs ++ [(i, (t, success))])
| reached_cancel s evs : reached n workers s evs → closed s = false → (next s < n)%nat →
    reached n workers (close_jobs true s) evs
| reached_done s evs : reached n workers s evs → closed s = false → next s = n →
    reached n workers (close_jobs false s) evs.

(** The final report, when it was not already made. *)
Definition final_reports (s : run) : list nat :=
  if bool_decide (last (reports s) = Some (next s)) then reports s
  else reports s ++ [next s].

(** [for i := 0; i <= lastIndex; i++]. *)
Fixpoint tally_results (count : nat) (byIndex : list Z) (ok : list bool) (r : RunResult) : RunResult :=
  match count, byIndex, ok with
  | S count, t :: byIndex, b :: ok =>
      tally_results count byIndex ok
        (if b
         then MkRunResult (Submitted r) (Committed r + 1) (Dropped r) (Latencies r ++ [t]) (Window r)
                (Stopped r) (LastIndex r) (ByIndex r) (OK r) (Concurrency r)
         else MkRunResult (Submitted r) (Committed r) (Dropped r + 1) (Latencies r) (Window r)
                (Stopped r) (LastIndex r) (ByIndex r) (OK r) (Concurrency r))
  | _, _, _ => r
  end.

(** What [Run] returns once the workers have drained, [window] nanoseconds
    after its start. *)
Definition run_result (concurrency window : Z) (s : run) : RunResult :=
  tally_results (next s) (byIndex s) (ok s)
    (MkRunResult (Z.of_nat (next s)) 0 0 [] window (stopped s) (Z.of_nat (next s) - 1)
       (byIndex s) (ok s) (clamp concurrency)).

(** A finished run: job channel closed, no worker busy. *)
Definition drained (s : run) : Prop := closed s = true ∧ running s = [].

(** ** Percentiles *)
Lemma sorted_prefix (s : list Z) k v :
  StronglySorted Z.le s → s !! k = Some v →
  Forall (λ x, x ≤ v) (take (S k) s) ∧ Forall (λ x, v ≤ x) (drop k s).
Proof.
  intros Hs Hk. rewrite <- (take_drop_middle _ _ _ Hk) in Hs |- *.
  pose proof (lookup_lt_Some _ _ _ Hk) as Hlt.
  assert (length (take k s) = k) as Hlen by (rewrite length_take; lia).
  apply StronglySorted_app in Hs as (Hcross & _ & Htail). split.
  - rewrite take_app_ge by lia. rewrite Hlen. replace (S k - k)%nat with 1%nat by lia.
    cbn [take]. apply Forall_app. split; [|by constructor].
    apply Forall_forall. intros x Hx. apply Hcross; [done|]. set_solver.
  - rewrite drop_app_ge, Hlen, Nat.sub_diag by lia. cbn [drop].
    inversion Htail; subst. by constructor.
Qed.

Lemma filter_all_length {A} (P : A → Prop) `{∀ x, Decision (P x)} l :
  Forall P l → length (filter P l) = length l.
Proof.
  induction 1 as [|x l Hx _ IH]; [done|]. by rewrite filter_cons, decide_True by done; cbn; rewrite IH.
Qed.

Lemma filter_none_length {A} (P : A → Prop) `{∀ x, Decision (P x)} l :
  Forall (λ x, ¬ P x) l → length (filter P l) = 0%nat.
Proof.
  induction 1 as [|x l Hx _ IH]; [done|]. by rewrite filter_cons, decide_False by done.
Qed.

Lemma sorted_counts (s : list Z) k v :
  StronglySorted Z.le s → s !! k = Some v →
  (S k ≤ length (filter (λ x, x ≤ v)%Z s))%nat ∧ (length (filter (λ x, x < v)%Z s) ≤ k)%nat.
Proof.
  intros Hs Hk. destruct (sorted_prefix _ _ _ Hs Hk) as [H1 H2].
  pose proof (lookup_lt_Some _ _ _ Hk) as Hlt. split.
  - rewrite <- (take_drop (S k) s), filter_app, length_app, filter_all_length by done.
    rewrite length_take. lia.
  - rewrite <- (take_drop k s), filter_app, length_app.
    rewrite (filter_none_length _ (drop k s)) by (eapply Forall_impl; [done|]; cbn; lia).
    pose proof (length_filter (λ x, x < v) (take k s)). rewrite length_take in *. lia.
Qed.

(** The rank of the nearest-rank rule. *)
Lemma percentile_rank (s : list Z) p :
  s ≠ [] → 0 < p ≤ 100 →
  ∃ k v, s !! k = Some v ∧ percentile s p = v ∧
    p * Z.of_nat (length s) ≤ 100 * (Z.of_nat k + 1) ∧ 100 * Z.of_nat k < p * Z.of_nat (length s).
Proof.
  intros Hne Hp. unfold percentile.
  assert (0 < Z.of_nat (length s)) by (destruct s; [done | cbn; lia]).
  set (n := Z.of_nat (length s)) in *. set (rank := Z.quot (p * n + 99) 100).
  assert (rank = (p * n + 99) / 100) as Er by (unfold rank; apply Z.quot_div_nonneg; nia).
  pose proof (Z.div_mod (p * n + 99) 100). pose proof (Z.mod_pos_bound (p * n + 99) 100).
  assert (1 ≤ rank ≤ n) as Hr by nia.
  rewrite (proj2 (Z.ltb_ge rank 1)), (proj2 (Z.ltb_ge n rank)) by lia.
  destruct (lookup_lt_is_Some_2 s (Z.to_nat (rank - 1))) as [v Hv]; [lia|].
  exists (Z.to_nat (rank - 1)), v. rewrite Hv. split_and!; [done | done | nia | nia].
Qed.

Lemma merge_sort_strong (l : list Z) : StronglySorted Z.le (merge_sort Z.le l).
Proof. by apply (StronglySorted_merge_sort Z.le); apply _. Qed.

Lemma filter_merge_sort (P : Z → Prop) `{∀ x, Decision (P x)} l :
  length (filter P (merge_sort Z.le l)) = length (filter P l).
Proof. apply Permutation_length. by rewrite (merge_sort_Permutation Z.le l). Qed.

(** [Percentiles] is the nearest-rank rule: for each of p = 50, 95 and 99 the
    value returned is one of the observations, at least p percent of them are no
    larger and fewer than p percent are smaller; and p50 <= p95 <= p99. *)
Theorem Percentiles_nearest_rank durs :
  durs ≠ [] →
  let '(p50, p95, p99) := Percentiles durs in
  p50 ≤ p95 ≤ p99 ∧
  Forall (λ pv : Z * Z, pv.2 ∈ durs ∧
    pv.1 * Z.of_nat (length durs) ≤ 100 * Z.of_nat (length (filter (λ x, x ≤ pv.2) durs)) ∧
    100 * Z.of_nat (length (filter (λ x, x < pv.2) durs)) < pv.1 * Z.of_nat (length durs))
    [(50, p50); (95, p95); (99, p99)].
Proof.
  intros Hne. unfold Percentiles.
  destruct (length durs =? 0)%nat eqn:E; [apply Nat.eqb_eq in E; by destruct durs|].
  set (s := merge_sort Z.le durs).
  assert (length s = length durs) as Hlen by apply Permutation_length, merge_sort_Permutation.
  assert (s ≠ []) as Hs by (intros E'; rewrite E' in Hlen; by destruct durs).
  pose proof (merge_sort_strong durs) as Hsorted. fold s in Hsorted.
  assert (∀ p, 0 < p ≤ 100 → percentile s p ∈ durs ∧
    p * Z.of_nat (length durs) ≤ 100 * Z.of_nat (length (filter (λ x, x ≤ percentile s p) durs)) ∧
    100 * Z.of_nat (length (filter (λ x, x < percentile s p) durs)) < p * Z.of_nat (length durs))
    as Hp.
  { intros p Hp. destruct (percentile_rank s p Hs Hp) as (k & v & Hk & -> & Hlo & Hhi).
    destruct (sorted_counts _ _ _ Hsorted Hk) as [C1 C2].
    unfold s in C1, C2. rewrite filter_merge_sort in C1, C2. rewrite Hlen in Hlo, Hhi.
    split_and!; [|lia | lia].
    rewrite <- (merge_sort_Permutation Z.le durs). by eapply list_elem_of_lookup_2. }
  assert (∀ p q, 0 < p ≤ q → q ≤ 100 → percentile s p ≤ percentile s q) as Hmono.
  { intros p q Hpq Hq. destruct (percentile_rank s p Hs) as (k & v & Hk & -> & _ & Hhi); [lia|].
    destruct (percentile_rank s q Hs) as (k' & v' & Hk' & -> & Hlo' & _); [lia|].
    destruct (sorted_prefix _ _ _ Hsorted Hk') as [Hle _]. rewrite Forall_lookup in Hle.
    apply (Hle k). rewrite lookup_take_lt; [done|]. nia. }
  split; [split; apply Hmono; lia|].
  repeat constructor; cbn [fst snd]; apply Hp; lia.
Qed.

Lemma Percentiles_nearest_rank_witness :
  let '(p50, p95, p99) := Percentiles [30; 10; 20] in p50 ≤ p95 ≤ p99.
Proof. apply (Percentiles_nearest_rank [30; 10; 20]). discriminate. Defined.

(** ** The dispatcher *)
(** What holds at every moment of a run: the dispatched indices are exactly the
    ones in flight and the ones completed, each once; a completed index has its
    result in its slot; no more indices are in flight than there are workers. *)
Record run_inv (n : nat) (workers : Z) (s : run) (evs : list (nat * (Z * bool))) : Prop := {
  inv_perm : running s ++ evs.*1 ≡ₚ seq 0 (next s);
  inv_slots : length (byIndex s) = n ∧ length (ok s) = n;
  inv_next : (next s ≤ n)%nat;
  inv_results : Forall (λ ev : nat * (Z * bool), byIndex s !! ev.1 = Some ev.2.1 ∧
                                                 ok s !! ev.1 = Some ev.2.2) evs;
  inv_workers : Z.of_nat (length (running s)) ≤ workers;
  inv_closed : if closed s then (if stopped s then (next s < n)%nat else next s = n)
               else stopped s = false
}.

Lemma filter_remove_one (i : nat) l :
  NoDup l → i ∈ l → l ≡ₚ i :: filter (λ j, j ≠ i) l.
Proof.
  intros Hnd Hi. apply NoDup_Permutation; [done| |].
  - constructor; [|by apply NoDup_filter]. rewrite list_elem_of_filter. naive_solver.
  - intros j. rewrite elem_of_cons, list_elem_of_filter. destruct (decide (j = i)); naive_solver.
Qed.

Lemma reached_inv n workers s evs : 0 ≤ workers → reached n workers s evs → run_inv n workers s evs.
Proof.
  intros Hw. induction 1 as [|s evs Hr [Ip [Ib Io] In_ Ir Iw Ic] Hcl Hlt Hfree
    |s evs i t success Hr [Ip [Ib Io] In_ Ir Iw Ic] Hin
    |s evs Hr [Ip [Ib Io] In_ Ir Iw Ic] Hcl Hlt|s evs Hr [Ip [Ib Io] In_ Ir Iw Ic] Hcl Hnext].
  - split; cbn; try done; [by rewrite !length_replicate | lia].
  - split; cbn [next running byIndex ok closed stopped dispatch]; try done.
    + rewrite seq_S, <- Ip. cbn. by rewrite Permutation_cons_append.
    + cbn [length]. lia.
    + by rewrite Hcl in *.
  - assert (NoDup (running s ++ evs.*1)) as Hnd by (rewrite Ip; apply NoDup_seq).
    apply NoDup_app in Hnd as (Hnd & Hdis & _).
    pose proof (filter_remove_one i (running s) Hnd Hin) as Hp.
    assert (i < n)%nat as Hi.
    { assert (i ∈ seq 0 (next s)) as Hs by (rewrite <- Ip; set_solver).
      apply list_elem_of_In, in_seq in Hs. lia. }
    split; cbn [next running byIndex ok closed stopped finish]; try done.
    + rewrite fmap_app. cbn [fmap list_fmap fst]. rewrite <- Ip.
      set (l := filter _ (running s)) in *. rewrite Hp. cbn.
      by rewrite (assoc_L (++)), (Permutation_app_comm _ [i]).
    + by rewrite !length_insert.
    + apply Forall_app. split; [|constructor; [|constructor]].
      * rewrite Forall_forall in Ir |- *. intros [j [t' b']] Hj. destruct (Ir _ Hj) as [E1 E2].
        cbn in *.
        assert (j ≠ i).
        { intros ->. apply (Hdis i Hin). by apply (list_elem_of_fmap_2 fst) in Hj. }
        rewrite !list_lookup_insert_ne by done. done.
      * cbn. split; apply list_lookup_insert_eq; lia.
    + pose proof (length_filter (λ j, j ≠ i) (running s)). lia.
  - split; cbn; done.
  - split; cbn; done.
Qed.

Lemma filter_fmap_comm {A B} (f : A → B) (P : B → Prop) `{∀ y, Decision (P y)} (l : list A) :
  filter P (f <$> l) = f <$> filter (λ x, P (f x)) l.
Proof.
  induction l as [|x l IH]; [done|]. cbn [fmap list_fmap]. rewrite !filter_cons.
  case_decide; cbn [fmap list_fmap]; by rewrite IH.
Qed.

(** The result slot of an index. *)
Definition slot (s : run) (i : nat) : Z * bool :=
  (default 0 (byIndex s !! i), default false (ok s !! i)).

Lemma tally_results_ok (l : list (Z * bool)) byIdx oks r :
  byIdx = l.*1 → oks = l.*2 → ∀ count, (count ≤ length l)%nat →
  let r' := tally_results count byIdx oks r in
  let done := take count l in
  Committed r' = Committed r + Z.of_nat (length (filter (λ x, x.2 = true) done)) ∧
  Dropped r' = Dropped r + Z.of_nat (length (filter (λ x, x.2 = false) done)) ∧
  Latencies r' = Latencies r ++ (filter (λ x, x.2 = true) done).*1 ∧
  Submitted r' = Submitted r ∧ Stopped r' = Stopped r ∧ LastIndex r' = LastIndex r ∧
  ByIndex r' = ByIndex r ∧ OK r' = OK r.
Proof.
  intros -> ->. revert r. induction l as [|[t b] l IH]; intros r [|count] Hc; cbn in Hc;
    try lia; cbn [tally_results take fmap list_fmap fst snd];
    try (cbn; rewrite app_nil_r; split_and!; done || lia).
  assert (count ≤ length l)%nat as Hc' by lia. rewrite !filter_cons. cbn [snd].
  destruct b; [rewrite decide_True, decide_False by done | rewrite decide_False, decide_True by done];
    edestruct (λ r, IH r count Hc') as (-> & -> & -> & -> & -> & -> & -> & ->);
    cbn [Committed Dropped Latencies Submitted Stopped LastIndex ByIndex OK length fmap list_fmap];
    rewrite <- ?(assoc_L (++)); split_and!; done || lia.
Qed.

Lemma run_result_window concurrency window s : Window (run_result concurrency window s) = window.
Proof.
  assert (∀ count ts bs r, Window (tally_results count ts bs r) = Window r) as Hw.
  { induction count as [|count IH]; intros [|t ts] [|b bs] r; try done.
    cbn [tally_results]. rewrite IH. by destruct b. }
  apply Hw.
Qed.

Lemma slots_take s n :
  length (byIndex s) = n → length (ok s) = n → (next s ≤ n)%nat →
  take (next s) (zip (byIndex s) (ok s)) = slot s <$> seq 0 (next s).
Proof.
  intros Hb Ho Hn. apply list_eq. intros i.
  destruct (decide (i < next s)%nat) as [Hi|Hi].
  - rewrite lookup_take_lt, lookup_zip_with, list_lookup_fmap, lookup_seq_lt by done.
    destruct (lookup_lt_is_Some_2 (byIndex s) i) as [t Ht]; [lia|].
    destruct (lookup_lt_is_Some_2 (ok s) i) as [b Hb']; [lia|].
    unfold slot. cbn. by rewrite Ht, Hb'.
  - rewrite lookup_take_ge, list_lookup_fmap, lookup_seq_ge by lia. done.
Qed.

Lemma run_results_ok concurrency window s n evs :
  length (byIndex s) = n → length (ok s) = n → (next s ≤ n)%nat → evs.*1 ≡ₚ seq 0 (next s) →
  Forall (λ ev : nat * (Z * bool), byIndex s !! ev.1 = Some ev.2.1 ∧ ok s !! ev.1 = Some ev.2.2) evs →
  let r := run_result concurrency window s in
  Committed r = Z.of_nat (length (filter (λ ev, ev.2.2 = true) evs)) ∧
  Dropped r = Z.of_nat (length (filter (λ ev, ev.2.2 = false) evs)) ∧
  Latencies r ≡ₚ (λ ev, ev.2.1) <$> filter (λ ev, ev.2.2 = true) evs ∧
  Submitted r = Z.of_nat (next s) ∧ Stopped r = stopped s ∧
  LastIndex r = Z.of_nat (next s) - 1 ∧ ByIndex r = byIndex s ∧ OK r = ok s.
Proof.
  intros Hb Ho Hn Hp Hres.
  assert (take (next s) (zip (byIndex s) (ok s)) ≡ₚ evs.*2) as Hpairs.
  { rewrite (slots_take _ n), <- Hp by done. rewrite <- list_fmap_compose.
    apply Permutation_refl', list_fmap_ext. intros i [j [t b]] Hj.
    rewrite Forall_lookup in Hres. destruct (Hres _ _ Hj) as [E1 E2].
    unfold slot. cbn in *. by rewrite E1, E2. }
  destruct (tally_results_ok (zip (byIndex s) (ok s)) (byIndex s) (ok s)
    (MkRunResult (Z.of_nat (next s)) 0 0 [] window (stopped s) (Z.of_nat (next s) - 1)
       (byIndex s) (ok s) (clamp concurrency))) with (count := next s)
    as (E1 & E2 & E3 & E4 & E5 & E6 & E7 & E8).
  { by rewrite fst_zip by lia. }
  { by rewrite snd_zip by lia. }
  { rewrite length_zip_with. lia. }
  fold (run_result concurrency window s) in *. intros r. fold r in E1, E2, E3, E4, E5, E6, E7, E8.
  cbn [Committed Dropped Latencies Submitted Stopped LastIndex ByIndex OK] in *.
  rewrite E1, E2, E3, Hpairs. cbn [app]. split_and!; try done.
  - rewrite filter_fmap_comm, length_fmap. done.
  - rewrite filter_fmap_comm, length_fmap. done.
  - rewrite filter_fmap_comm, <- list_fmap_compose. done.
Qed.

(** A result that accounts for the completions [evs] of a window of [n]
    indices: every index dispatched was submitted exactly once, and its latency
    and outcome are in its slot. *)
Record accounted (n : nat) (evs : list (nat * (Z * bool))) (r : RunResult) : Prop := {
  acc_once : evs.*1 ≡ₚ seq 0 (length evs);
  acc_submitted : Submitted r = Z.of_nat (length evs);
  acc_last : LastIndex r = Submitted r - 1;
  acc_within : Submitted r ≤ Z.of_nat n;
  acc_committed : Committed r = Z.of_nat (length (filter (λ ev, ev.2.2 = true) evs));
  acc_dropped : Dropped r = Z.of_nat (length (filter (λ ev, ev.2.2 = false) evs));
  acc_latencies : Latencies r ≡ₚ (λ ev, ev.2.1) <$> filter (λ ev, ev.2.2 = true) evs;
  acc_stopped : Stopped r = false ↔ Submitted r = Z.of_nat n;
  acc_length : length (ByIndex r) = n ∧ length (OK r) = n;
  acc_slots : Forall (λ ev, ByIndex r !! ev.1 = Some ev.2.1 ∧ OK r !! ev.1 = Some ev.2.2) evs
}.

Lemma clamp_nonneg concurrency : 0 ≤ clamp concurrency.
Proof. unfold clamp. destruct (Z.ltb_spec concurrency 1); lia. Qed.

Lemma drained_accounted n concurrency window s evs :
  reached n (clamp concurrency) s evs → drained s →
  accounted n evs (run_result concurrency window s).
Proof.
  intros Hr [Hcl Hrun].
  destruct (reached_inv _ _ _ _ (clamp_nonneg concurrency) Hr) as [Ip [Ib Io] In_ Ir Iw Ic].
  rewrite Hrun in Ip. cbn in Ip. rewrite Hcl in Ic.
  pose proof (run_results_ok concurrency window s n evs Ib Io In_ Ip Ir) as
    (E1 & E2 & E3 & E4 & E5 & E6 & E7 & E8).
  set (r := run_result concurrency window s) in *.
  assert (length evs = next s) as Hlen.
  { rewrite <- (length_fmap fst), Ip, length_seq. done. }
  split; [by rewrite Hlen | by rewrite E4, Hlen | by rewrite E6, E4 | lia | done | done | done | | |].
  - rewrite E5, E4. destruct (stopped s); split; intros; try done; lia.
  - by rewrite E7, E8.
  - by rewrite E7, E8.
Qed.

(** A run that was not stopped has tried every slot. *)
Lemma acc_covered n evs r k :
  accounted n evs r → Stopped r = false → (k < n)%nat → ∃ t ok, (k, (t, ok)) ∈ evs.
Proof.
  intros Ha Hst Hk. apply (acc_stopped _ _ _ Ha) in Hst. pose proof (acc_submitted _ _ _ Ha).
  assert (Hin : k ∈ evs.*1) by (rewrite (acc_once _ _ _ Ha); apply elem_of_seq; lia).
  apply list_elem_of_fmap in Hin as ([k' [t ok]]&->&Hin). eauto.
Qed.

Lemma outcomes_split (evs : list (nat * (Z * bool))) :
  Z.of_nat (length (filter (λ ev, ev.2.2 = true) evs)) +
  Z.of_nat (length (filter (λ ev, ev.2.2 = false) evs)) = Z.of_nat (length evs).
Proof.
  induction evs as [|[i [t b]] l IH]; [done|]. rewrite !filter_cons. cbn [snd].
  destruct b; [rewrite decide_True, decide_False by done | rewrite decide_False, decide_True by done];
    cbn [length]; lia.
Qed.

(** C22: [Run] accounts for every ballot: however dispatches, completions and
    cancellation interleave, when the workers have drained every dispatched
    index was submitted exactly once and its latency and outcome are in its
    slot; Submitted counts the submissions, Committed the successes, Dropped the
    failures, and they add up; Latencies are those of the committed ballots; and
    the run covers all n ballots exactly when it was not stopped.  At no moment
    are more submissions in flight than there are workers. *)
Theorem Run_accounts_for_every_ballot n concurrency window s evs :
  reached n (clamp concurrency) s evs →
  Z.of_nat (length (running s)) ≤ clamp concurrency ∧
  (drained s →
   let r := run_result concurrency window s in
   accounted n evs r ∧ Committed r + Dropped r = Submitted r).
Proof.
  intros Hr. split; [apply (reached_inv _ _ _ _ (clamp_nonneg concurrency) Hr)|].
  intros Hd r. pose proof (drained_accounted n concurrency window s evs Hr Hd) as Ha.
  split; [exact Ha|]. unfold r.
  rewrite (acc_committed _ _ _ Ha), (acc_dropped _ _ _ Ha), (acc_submitted _ _ _ Ha).
  apply outcomes_split.
Qed.

(** Two ballots in flight at once, completed out of order, one dropped. *)
Definition wit_run : run :=
  close_jobs false (finish 0 30 false (finish 1 20 true (dispatch (dispatch (start 2))))).

Lemma wit_reached : reached 2 (clamp 4) wit_run [(1%nat, (20, true)); (0%nat, (30, false))].
Proof.
  apply reached_done; [|done..].
  apply (reached_finish _ _ _ [(1%nat, (20, true))]); [|cbn; set_solver].
  apply (reached_finish _ _ _ []); [|cbn; set_solver].
  repeat (apply reached_dispatch; [|vm_compute; (reflexivity || lia)..]). apply reached_start.
Qed.

Lemma Run_accounts_for_every_ballot_witness :
  Committed (run_result 4 100 wit_run) = 1 ∧ Dropped (run_result 4 100 wit_run) = 1 ∧
  Committed (run_result 4 100 wit_run) + Dropped (run_result 4 100 wit_run) =
    Submitted (run_result 4 100 wit_run).
Proof.
  split; [reflexivity|]. split; [reflexivity|].
  destruct (Run_accounts_for_every_ballot 2 4 100 wit_run
    [(1%nat, (20, true)); (0%nat, (30, false))] wit_reached) as [_ Hd].
  destruct (Hd (conj eq_refl eq_refl)) as [_ Hsum]. exact Hsum.
Defined.
End Bench.
