(* ===== verification/Resume.v ===== *)
(** * Resuming an interrupted ballot window

    [saksi-campaign/executor.go], the checkpoint and resume part: what the
    journal says about an interrupted window ([planResume]), which of the run's
    ballots the chain already holds ([chainCommitted] over the paged reads of
    the bulletin client), the resumed window's accounting and the journal
    events it leaves. *)
From S2P Require Import Prelude Hex Wire Fabric Contract GoText Config Ballots Bench Journal Ceremony.
From S2P Require Import Client.
From Stdlib Require Import SpecFloat.
#[local] Open Scope Z_scope.
Import GoText.

#[global] Instance byte_countable : Countable byte :=
  inj_countable Byte.to_N Byte.of_N Byte.of_to_N.

Module Resume.

(** ** The journal, read back *)

(** One event: its name and the other fields of its line. *)
Record event := MkEvent { kind : string; fields : gmap string Journal.jval }.

Definition jfloat (ev : event) (k : string) : float64 :=
  match fields ev !! k with
  | Some (Journal.JFloat f) => f
  | Some (Journal.JNum z) => float_of_Z z
  | _ => S754_zero false
  end.

(** [int(f)] of a JSON number; the counts stamped are far below 2^53, where
    the [float64] in between is exact. *)
Definition jint (ev : event) (k : string) : Z :=
  match fields ev !! k with
  | Some (Journal.JNum z) => z
  | Some (Journal.JFloat f) => default 0 (float_to_int f)
  | _ => 0
  end.

Definition segmentFromEvent (ev : event) : Journal.Segment :=
  Journal.MkSegment (jint ev "index") (jint ev "committed") (jint ev "window_ms")
    (jfloat ev "tps") (jfloat ev "p50_ms") (jfloat ev "driver_ceiling_tps").

(** A run's receipts, as far as a resume reads them. *)
Record TrailEvent := MkTrail { Event : string; Ref : string }.

Inductive receipts_file :=
| Receipts (rows : list TrailEvent)
| TruncatedReceipts (rows : list TrailEvent)
| UnreadableReceipts (e : goerr).

Definition rows_of (r : receipts_file) : list TrailEvent :=
  match r with Receipts rows | TruncatedReceipts rows => rows | UnreadableReceipts _ => [] end.

Definition closeRecorded (ceremony_file : bool) (r : receipts_file) : bool :=
  ceremony_file || existsb (λ ev, String.eqb (Event ev) "CloseElection") (rows_of r).

(** ** planResume *)
Record resumePlan := MkPlan {
  Segment : Z; Remaining : Z; CloseOnly : bool; lastDone : Z; stamped : bool;
  segments : list Journal.Segment
}.

(** The variables of the loop over the events. *)
Record scan := MkScan {
  open : bool; resumed : bool; n : Z; committed : Z; endDropped : Z;
  last_done : Z; seg : Z; segs : list Journal.Segment; was_stamped : bool
}.

Definition scan0 : scan := MkScan false false 0 (-1) 0 0 1 [] false.

Definition scan_event (s : scan) (ev : event) : scan :=
  if String.eqb (kind ev) "stage.ballots.start" then
    MkScan true (resumed s) (jint ev "n") (-1) (endDropped s) (last_done s) (seg s) (segs s)
      (was_stamped s)
  else if String.eqb (kind ev) "ballots.progress" then
    MkScan true (resumed s) (n s) (committed s) (endDropped s) (jint ev "done") (seg s) (segs s)
      (was_stamped s)
  else if String.eqb (kind ev) "stage.ballots.interrupted" then
    MkScan true (resumed s) (n s) (jint ev "committed") (endDropped s) (last_done s) (seg s)
      (segs s) (was_stamped s)
  else if String.eqb (kind ev) "stage.ballots.end" then
    MkScan false (resumed s) (n s) (committed s) (jint ev "dropped") (last_done s) (seg s)
      (segs s) (was_stamped s)
  else if String.eqb (kind ev) "segment.start" then
    MkScan (open s) (resumed s || (1 <=? jint ev "index")) (n s) (committed s) (endDropped s)
      (last_done s) (jint ev "index" + 1) (segs s) (was_stamped s)
  else if String.eqb (kind ev) "segment.end" then
    MkScan (open s) (resumed s) (n s) (committed s) (endDropped s) (last_done s) (seg s)
      (segs s ++ [segmentFromEvent ev]) (was_stamped s)
  else if String.eqb (kind ev) "interrupted_at" then
    MkScan (open s) (resumed s) (n s) (committed s) (endDropped s) (last_done s) (seg s)
      (segs s) true
  else s.

Definition zero_segment : Journal.Segment :=
  Journal.MkSegment 0 0 0 (S754_zero false) (S754_zero false) (S754_zero false).

Definition not_interrupted : goerr :=
  Errorf "this run's ballot window is not interrupted: there is nothing to resume" [].

Definition planResume (mode : string) (journal : result (list event)) (close_recorded : bool) :
    result resumePlan :=
  guard? String.eqb mode "onchain"
    else Errorf "run mode is %q: only an on-chain run has a ballot window to resume" [AStr mode];
  let? events := wrap_err
    (errw "this run has no readable journal, so there is no checkpoint to resume from: %w") journal in
  let s := foldl scan_event scan0 events in
  if negb (open s) then
    if resumed s && (endDropped s =? 0) && negb close_recorded
    then Ok (MkPlan 0 0 true 0 false [])
    else Err not_interrupted
  else
    let done := if 0 <=? committed s then committed s else last_done s in
    Ok (MkPlan (if seg s <? 1 then 1 else seg s) (Z.max (n s - done) 0) false
          (last_done s) (was_stamped s)
          (if (length (segs s) =? 0)%nat then [zero_segment] else segs s)).

Definition segmentsFromJournal (journal : result (list event)) : list Journal.Segment * bool :=
  match journal with
  | Err _ => ([], false)
  | Ok events =>
      foldl (λ acc ev,
        if String.eqb (kind ev) "segment.end" then (acc.1 ++ [segmentFromEvent ev], acc.2)
        else if String.eqb (kind ev) "segment.start" && (1 <=? jint ev "index")
             then (acc.1, true) else acc) ([], false) events
  end.

Definition stage_failure (failed : option goerr) (ev : event) : option goerr :=
  let stage_end (stage : string) :=
    match fields ev !! "ok"%string with
    | Some (Journal.JBool false) =>
        Some (Errorf "%s: %s" [AStr stage;
          match fields ev !! "error"%string with
          | Some (Journal.JStr s) => AStr s
          | Some (Journal.JText (Some e)) => AErr e
          | _ => AStr ""
          end])
    | _ => None
    end in
  if String.eqb (kind ev) "stage.submit.end" then stage_end "submit"
  else if String.eqb (kind ev) "stage.ceremony.end" then stage_end "ceremony"
  else if String.eqb (kind ev) "resume.close" then
    match fields ev !! "ok"%string with Some (Journal.JBool true) => None | _ => failed end
  else failed.

(** The last failure of a stage that carries ballots, unless a later one made
    it good. *)
Definition ballotStageErr (journal : result (list event)) : option goerr :=
  match journal with Err _ => None | Ok events => foldl stage_failure None events end.

(** ** The committed set *)

(** The map key of a nullifier: its 32 bytes. *)
Definition nullifierKey (h : string) : option bytes :=
  match DecodeString h with
  | Ok raw => if (length raw =? 32)%nat then Some raw else None
  | Err _ => None
  end.

Section chain.
Context `{Proto}.

(** The nullifier of a line of the ballot file. *)
Definition line_nullifier (i : nat) (line : string) : result bytes :=
  let? raw := wrap_err (λ e, Errorf "ballot %d is not hex: %w" [AInt (Z.of_nat i); AErr e])
                (DecodeString line) in
  let? b := wrap_err (λ e, Errorf "decode ballot %d: %w" [AInt (Z.of_nat i); AErr e])
              (UnmarshalBallot raw) in
  match nullifierKey (EncodeToString (NullifierValue (Ballot.CredentialPresentation b))) with
  | Some key => Ok key
  | None => Err (Errorf "ballot %d carries no 32-byte nullifier: it cannot be matched against the chain"
                   [AInt (Z.of_nat i)])
  end.

Definition nullifierIndex (f : Ballots.stream) (count : nat) : result (gmap bytes nat) :=
  let? r := Ballots.scanBallotLines f (λ i line '(m, n),
      let? key := line_nullifier i line in Ok (<[key := i]> m, S n)) (∅, 0%nat) in
  guard? (r.2 =? count)%nat
    else Errorf "bundle ballot_count is %d but %s holds %d ballots"
           [AInt (Z.of_nat count); AStr Ballots.BallotsFile; AInt (Z.of_nat r.2)];
  Ok r.1.

(** The ballots a page shows to be committed. *)
Definition mark_page (byNullifier : gmap bytes nat) (hs : list string) (committed : list bool) :
    list bool :=
  foldl (λ c h,
    match nullifierKey h with
    | Some key => match byNullifier !! key with Some i => <[i := true]> c | None => c end
    | None => c
    end) committed hs.

Context {Σ : Type} `{!Gateway Σ, Json}.

(** The walk over the pages; [None] when it has not finished within [fuel]. *)
Fixpoint walk (fuel : nat) (byNullifier : gmap bytes nat) (electionID bookmark : string)
    (committed : list bool) (s : Σ) : option (result (list bool)) * Σ :=
  match fuel with
  | O => (None, s)
  | S fuel =>
      match Client.ListNullifiers electionID Client.nullifierPageSize bookmark s with
      | (Err e, s) => (Some (Err (Errorf "list committed nullifiers: %w" [AErr e])), s)
      | (Ok page, s) =>
          let committed := mark_page byNullifier (Nullifiers page) committed in
          if bool_decide (NextBookmark page = "") || bool_decide (NextBookmark page = bookmark)
          then (Some (Ok committed), s)
          else walk fuel byNullifier electionID (NextBookmark page) committed s
      end
  end.

Definition chainCommitted (fuel : nat) (byNullifier : gmap bytes nat) (electionID : string)
    (ballotCount : nat) : Σ → option (result (list bool)) * Σ :=
  walk fuel byNullifier electionID "" (replicate ballotCount false).

Definition committedByIndex (fuel : nat) (f : Ballots.stream) (electionID : string)
    (ballotCount : nat) (s : Σ) : option (result (list bool)) * Σ :=
  match nullifierIndex f ballotCount with
  | Err e => (Some (Err e), s)
  | Ok byNullifier => chainCommitted fuel byNullifier electionID ballotCount s
  end.
End chain.

(** The indices the resume submits. *)
Definition pending (committed : list bool) : list nat :=
  (filter (λ p : nat * bool, p.2 = false) (imap pair committed)).*1.

(** [reader.wanted] of a resume. *)
Definition wanted (committed : list bool) (i : nat) : bool :=
  match committed !! i with Some b => negb b | None => false end.

(** The findings of [crossCheckReceipts], as the events it stamps. *)
Definition crossCheckReceipts (r : receipts_file) (committed : list bool) : list event :=
  (match r with
   | TruncatedReceipts rows =>
       [MkEvent "receipts_truncated" {["rows" := Journal.JNum (Z.of_nat (length rows))]}]
   | UnreadableReceipts e => [MkEvent "receipts_unreadable" {["error" := Journal.JText (Some e)]}]
   | Receipts _ => []
   end) ++
  omap (λ ev,
    if String.eqb (Event ev) "SubmitBallot" then
      match Atoi (Ref ev) with
      | Some i =>
          if (i <? 0) || (Z.of_nat (length committed) <=? i) ||
             negb (default false (committed !! Z.to_nat i))
          then Some (MkEvent "receipt_without_nullifier" {["index" := Journal.JNum i]})
          else None
      | None => None
      end
    else None) (rows_of r).

(** ** The resumed window *)

(** The failed slots of a window. *)
Definition failed_slots (res : Bench.RunResult) : list nat :=
  filter (λ k, Bench.OK res !! k = Some false)
    (seq 0 (Z.to_nat (Bench.LastIndex res + 1))).

(** Slot [k] holds a ballot of the committed set. *)
Definition is_replay (todo : list nat) (committed : list bool) (k : nat) : bool :=
  match todo !! k with Some i => default false (committed !! i) | None => false end.

(** The failures whose ballot is on the chain anyway; [after] is the committed
    set re-read after the window, or the error of reading it. *)
Definition replayedIndices (todo : list nat) (res : Bench.RunResult)
    (after : result (list bool)) : list nat :=
  match after with
  | Ok committed => filter (λ k, is_replay todo committed k = true) (failed_slots res)
  | Err _ => []
  end.

Record outcome := MkOutcome {
  replayed : Z; dropped : Z; on_chain : Z; interrupted : bool
}.

Definition window_outcome (res : Bench.RunResult) (replays : list nat) : outcome :=
  let replayed := Z.of_nat (length replays) in
  let dropped := Z.max (Bench.Dropped res - replayed) 0 in
  MkOutcome replayed dropped (Bench.Committed res + replayed)
    (Bench.Stopped res || (0 <? dropped)).

Definition stampWindowEnd (fields : gmap string Journal.jval) (interrupted : bool) : event :=
  MkEvent (if interrupted then "stage.ballots.interrupted" else "stage.ballots.end") fields.

Definition stampSegmentEnd (s : Journal.Segment) : event :=
  MkEvent "segment.end" (list_to_map
    [("index", Journal.JNum (Journal.Index s)); ("committed", Journal.JNum (Journal.SCommitted s));
     ("window_ms", Journal.JNum (Journal.WindowMs s)); ("tps", Journal.JFloat (Journal.TPS s));
     ("p50_ms", Journal.JFloat (Journal.P50Ms s));
     ("driver_ceiling_tps", Journal.JFloat (Journal.DriverCeilingTPS s))]%string).

(** The events a resume stamps before its window: the segment, *)
Definition segment_events (plan : resumePlan) (todo : nat) : list event :=
  (if stamped plan then []
   else [MkEvent "interrupted_at" {["last_done" := Journal.JNum (lastDone plan)]}]) ++
  [MkEvent "segment.start" (list_to_map
     [("index", Journal.JNum (Segment plan)); ("pending", Journal.JNum (Z.of_nat todo))]%string)].

(** ... and, once its files are open, the window itself. *)
Definition window_start (plan : resumePlan) (todo : nat) (concurrency : Z) (rate : float64) : event :=
  MkEvent "stage.ballots.start" (list_to_map
    [("n", Journal.JNum (Z.of_nat todo)); ("concurrency", Journal.JNum concurrency);
     ("send_rate", Journal.JFloat rate); ("segment", Journal.JNum (Segment plan))]%string).

Definition opening_events (plan : resumePlan) (todo : nat) (concurrency : Z) (rate : float64) :
    list event :=
  segment_events plan todo ++ [window_start plan todo concurrency rate].

(** ... and after it; [ms] is the window in milliseconds, [s] its segment. *)
Definition closing_events (plan : resumePlan) (res : Bench.RunResult) (o : outcome) (ms : Z)
    (s : Journal.Segment) : list event :=
  [stampWindowEnd (list_to_map
     [("submitted", Journal.JNum (Bench.Submitted res));
      ("committed", Journal.JNum (Bench.Committed res));
      ("replayed", Journal.JNum (replayed o)); ("dropped", Journal.JNum (dropped o));
      ("window_ms", Journal.JNum ms); ("stopped", Journal.JBool (Bench.Stopped res));
      ("segment", Journal.JNum (Segment plan))]%string) (interrupted o);
   stampSegmentEnd s].

(** What the window's verdict is decided on. *)
Definition resume_input (c : Config.ElectionConfig) (plan : resumePlan) (todo : nat)
    (res : Bench.RunResult) (o : outcome) (s : Journal.Segment) (winErr : option goerr) :
    Journal.FinaliseInput :=
  let r := Bench.Reconcile (Bench.Submitted res) (on_chain o) (Z.of_nat todo) in
  Journal.MkFinalise (Config.Voters c) (Config.Positions c) (segments plan ++ [s]) (dropped o)
    (match r with Ok _ => true | Err _ => false end)
    (match r with Ok _ => None | Err e => Some e end)
    ∅ winErr false (Bench.Stopped res) false true "" None (Config.securityRun c).

(** [submit-metrics.json], as far as the run's verdict reads it. *)
Record submitMetrics := MkMetrics {
  SWindowMs : Z; SSubmitted : Z; SCommitted : Z; SDropped : Z; SExpected : Z;
  SCommittedTPS : float64; SDriverCeilingTPS : float64; SStopped : bool; SBounded : bool;
  SLatencyP50Ms : float64; SJournalError : string
}.

Definition rollUpSubmitMetrics (sm : submitMetrics) (alreadyCommitted : Z) (res : Bench.RunResult)
    (onChain dropped : Z) : submitMetrics :=
  MkMetrics (SWindowMs sm) (alreadyCommitted + Bench.Submitted res) (alreadyCommitted + onChain)
    dropped (SExpected sm) (SCommittedTPS sm) (SDriverCeilingTPS sm) (Bench.Stopped res)
    (SBounded sm) (SLatencyP50Ms sm) (SJournalError sm).

Definition recordJournalError (winErr : option string) (sm : option submitMetrics) :
    option submitMetrics :=
  match winErr, sm with
  | Some e, Some sm =>
      Some (MkMetrics (SWindowMs sm) (SSubmitted sm) (SCommitted sm) (SDropped sm) (SExpected sm)
              (SCommittedTPS sm) (SDriverCeilingTPS sm) (SStopped sm) (SBounded sm)
              (SLatencyP50Ms sm) e)
  | _, _ => sm
  end.
End Resume.

(** ** What [planResume] reads out of the events a run has stamped, and that the
    events a resume stamps are read back by the next plan. *)
Module ResumePlan.
Import Resume.

(** ** Reading the window's state back *)
Definition opens (ev : event) : bool :=
  String.eqb (kind ev) "stage.ballots.start" || String.eqb (kind ev) "ballots.progress" ||
  String.eqb (kind ev) "stage.ballots.interrupted".

Definition ends (ev : event) : bool := String.eqb (kind ev) "stage.ballots.end".

(** The last checkpoint of a ballot window left it open. *)
Definition window_open (evs : list event) : Prop :=
  ∃ before ev after, evs = before ++ ev :: after ∧ opens ev = true ∧
    Forall (λ x, ends x = false) after.

Lemma scan_open s ev :
  open (scan_event s ev) = (opens ev || (negb (ends ev) && open s)).
Proof.
  unfold scan_event, opens, ends.
  destruct (String.eqb_spec (kind ev) "stage.ballots.start") as [Hk|_]; [by try rewrite Hk|].
  destruct (String.eqb_spec (kind ev) "ballots.progress") as [Hk|_]; [by try rewrite Hk|].
  destruct (String.eqb_spec (kind ev) "stage.ballots.interrupted") as [Hk|_]; [by try rewrite Hk|].
  destruct (String.eqb_spec (kind ev) "stage.ballots.end") as [Hk|_]; [by try rewrite Hk|].
  by repeat case_match.
Qed.

Lemma window_open_ok evs : open (foldl scan_event scan0 evs) = true ↔ window_open evs.
Proof.
  induction evs as [|ev evs IH] using rev_ind.
  { split; [done|]. intros ([|??]&?&?&?&_); simplify_eq/=. }
  rewrite foldl_app. cbn [foldl]. rewrite scan_open, orb_true_iff, andb_true_iff, negb_true_iff, IH.
  split.
  - intros [Ho|[He (b&x&a&->&Hx&Ha)]].
    + exists evs, ev, []. split_and!; [done..|by constructor].
    + exists b, x, (a ++ [ev]). split_and!; [by rewrite <-app_assoc|done|].
      apply Forall_app; split; [done|by constructor].
  - intros (b&x&a&Heq&Hx&Ha). destruct a as [|y a _] using rev_ind.
    + apply app_inj_tail in Heq as [-> ->]. by left.
    + rewrite app_comm_cons, app_assoc in Heq. apply app_inj_tail in Heq as [-> ->].
      apply Forall_app in Ha as [Ha Hy]. inversion Hy; subst. right. split; [done|].
      by exists b, x, a.
Qed.

(** ** Stamping and reading one event *)
Lemma segment_round_trip s : segmentFromEvent (stampSegmentEnd s) = s.
Proof. by destruct s. Qed.

Lemma scan_progress s evs :
  Forall (λ ev, kind ev = "ballots.progress"%string) evs → open s = true →
  foldl scan_event s evs =
    MkScan true (resumed s) (n s) (committed s) (endDropped s)
      (foldl (λ _ ev, jint ev "done") (last_done s) evs) (seg s) (segs s) (was_stamped s).
Proof.
  intros Hp. revert s. induction Hp as [|ev evs Hev _ IH]; intros s Ho.
  - destruct s; cbn in *. by subst.
  - cbn [foldl]. rewrite IH; unfold scan_event; by rewrite Hev.
Qed.

Lemma segments_scan evs : (segmentsFromJournal (Ok evs)).1 = segs (foldl scan_event scan0 evs).
Proof.
  unfold segmentsFromJournal. induction evs as [|ev evs IH] using rev_ind; [done|].
  rewrite !foldl_app. cbn [foldl]. unfold scan_event at 1.
  destruct (String.eqb_spec (kind ev) "segment.end") as [->|Hne]; [cbn; by rewrite IH|].
  destruct (_ && _); cbn; rewrite IH; by repeat case_match.
Qed.

(** What a plan that resumes ballots says of the events it was read from. *)
Lemma planResume_open mode evs cr plan :
  planResume mode (Ok evs) cr = Ok plan → CloseOnly plan = false →
  mode = "onchain"%string ∧ 1 ≤ Segment plan ∧
  (let s := foldl scan_event scan0 evs in
   open s = true ∧ stamped plan = was_stamped s ∧ Segment plan = Z.max (seg s) 1).
Proof.
  unfold planResume. intros Hp%guard_ok. destruct Hp as [Hmode%String.eqb_eq Hp]. cbn in Hp.
  destruct (open (foldl scan_event scan0 evs)) eqn:Ho; cbn in Hp.
  - injection Hp as <-. cbn. intros _. destruct (Z.ltb_spec (seg (foldl scan_event scan0 evs)) 1);
      split_and!; try done; lia.
  - by case_match; simplify_eq/=.
Qed.

Lemma scan_segment_start s fs :
  scan_event s (MkEvent "segment.start" fs) =
  let i := jint (MkEvent "segment.start" fs) "index" in
  MkScan (open s) (resumed s || (1 <=? i)) (n s) (committed s) (endDropped s) (last_done s)
    (i + 1) (segs s) (was_stamped s).
Proof. done. Qed.

Lemma scan_ballots_start s fs :
  scan_event s (MkEvent "stage.ballots.start" fs) =
  MkScan true (resumed s) (jint (MkEvent "stage.ballots.start" fs) "n") (-1) (endDropped s)
    (last_done s) (seg s) (segs s) (was_stamped s).
Proof. done. Qed.

Lemma scan_segment_events s plan todo :
  1 ≤ Segment plan → was_stamped s = stamped plan →
  foldl scan_event s (segment_events plan todo) =
    MkScan (open s) true (n s) (committed s) (endDropped s) (last_done s) (Segment plan + 1) (segs s) true.
Proof.
  intros Hseg Hst. unfold segment_events. rewrite foldl_app. cbn [foldl]. rewrite scan_segment_start.
  change (jint _ "index") with (Segment plan). cbn zeta.
  assert (Hr : ∀ b, (b || (1 <=? Segment plan)) = true) by (intros b; rewrite orb_true_iff; right; lia).
  destruct (stamped plan) eqn:Hsp; cbn [foldl].
  - by rewrite Hr, Hst.
  - change (scan_event s _) with (MkScan (open s) (resumed s) (n s) (committed s) (endDropped s)
      (last_done s) (seg s) (segs s) true). cbn. by rewrite Hr.
Qed.

(** The state of the journal after a resumed window. *)
Lemma scan_resumed s plan todo conc rate ps res o ms sg :
  1 ≤ Segment plan → was_stamped s = stamped plan →
  Forall (λ ev, kind ev = "ballots.progress"%string) ps →
  let s' := foldl scan_event s (opening_events plan todo conc rate ++ ps ++
              closing_events plan res o ms sg) in
  open s' = interrupted o ∧ resumed s' = true ∧ n s' = Z.of_nat todo ∧
  committed s' = (if interrupted o then Bench.Committed res else -1) ∧
  (interrupted o = false → endDropped s' = dropped o) ∧
  last_done s' = foldl (λ _ ev, jint ev "done") (last_done s) ps ∧
  seg s' = Segment plan + 1 ∧ segs s' = segs s ++ [sg] ∧ was_stamped s' = true.
Proof.
  intros Hseg Hst Hps. cbn. rewrite !foldl_app.
  assert (Hopen : foldl scan_event s (opening_events plan todo conc rate) =
            MkScan true true (Z.of_nat todo) (-1) (endDropped s) (last_done s) (Segment plan + 1)
              (segs s) true).
  { unfold opening_events, window_start. rewrite foldl_app, scan_segment_events by done. reflexivity. }
  rewrite Hopen. rewrite (scan_progress _ ps); [|exact Hps|reflexivity]. unfold closing_events. cbn [foldl].
  destruct (interrupted o) eqn:Hi; cbn; rewrite segment_round_trip; done.
Qed.

(** The journal of a resumed window is read back by the next plan. When a
    plan resumes ballots, the events its window stamps (however many progress
    checkpoints lie between) make the next plan the next segment when the
    window was left open, counting the ballots it did not commit as remaining
    and its measurements as one more segment; a retry of the close alone when
    the window ended and no close is on record; and a refusal when one is. *)
Theorem planResume_after_resume mode evs cr plan todo conc rate ps res o ms sg cr' :
  planResume mode (Ok evs) cr = Ok plan → CloseOnly plan = false →
  Forall (λ ev, kind ev = "ballots.progress"%string) ps → 0 ≤ Bench.Committed res →
  (interrupted o = false → dropped o = 0) →
  planResume mode (Ok (evs ++ opening_events plan todo conc rate ++ ps ++
    closing_events plan res o ms sg)) cr' =
    if interrupted o
    then Ok (MkPlan (Segment plan + 1) (Z.max (Z.of_nat todo - Bench.Committed res) 0) false
           (foldl (λ _ ev, jint ev "done") (lastDone plan) ps) true
           ((segmentsFromJournal (Ok evs)).1 ++ [sg]))
    else if cr' then Err not_interrupted else Ok (MkPlan 0 0 true 0 false []).
Proof.
  intros Hplan Hco Hps Hcom Hdrop.
  assert (Hlast : lastDone plan = last_done (foldl scan_event scan0 evs)).
  { revert Hplan. unfold planResume. intros Hp%guard_ok. destruct Hp as [_ Hp]. cbn in Hp.
    destruct (open _); cbn in Hp; [by injection Hp as <-|]. by case_match; simplify_eq/=. }
  destruct (planResume_open _ _ _ _ Hplan Hco) as (->&Hseg&Ho&Hst&_).
  destruct (scan_resumed (foldl scan_event scan0 evs) plan todo conc rate ps res o ms sg
              Hseg (eq_sym Hst) Hps) as (E1&E2&E3&E4&E5&E6&E7&E8&E9).
  rewrite segments_scan, Hlast. unfold planResume. cbn [String.eqb wrap_err rbind].
  rewrite foldl_app, E1, E2, E3, E4, E6, E7, E8, E9. cbn.
  destruct (interrupted o) eqn:Hi; cbn.
  - rewrite length_app, Nat.add_comm. cbn.
    destruct (Z.leb_spec 0 (Bench.Committed res)); [|lia].
    destruct (Z.ltb_spec (Segment plan + 1) 1); [lia|]. done.
  - rewrite E5, Hdrop by done. by destruct cr'.
Qed.

(** ** Examples *)

(** The journal of a window that was killed after 1000 of 2500 ballots. *)
Definition killed_journal : list event :=
  [MkEvent "run.start" ∅;
   MkEvent "stage.ballots.start" {["n" := Journal.JNum 2500]};
   MkEvent "segment.start" {["index" := Journal.JNum 0]};
   MkEvent "ballots.progress" {["done" := Journal.JNum 1000]}].

Definition killed_plan : resumePlan := MkPlan 1 1500 false 1000 false [zero_segment].

Example killed_journal_plan : planResume "onchain" (Ok killed_journal) false = Ok killed_plan.
Proof. vm_compute. reflexivity. Qed.

(** The resume submits 1400 ballots and is cut short after 1300, one dropped. *)
Definition cut_window : Bench.RunResult :=
  Bench.MkRunResult 1300 1299 1 [] 0 true 1299 [] [] 8.

Lemma planResume_after_resume_witness :
  planResume "onchain" (Ok (killed_journal ++ opening_events killed_plan 1400 8 (S754_zero false) ++
    [MkEvent "ballots.progress" {["done" := Journal.JNum 1000]}] ++
    closing_events killed_plan cut_window (MkOutcome 0 1 1299 true) 7 zero_segment)) false =
  Ok (MkPlan 2 101 false 1000 true [zero_segment]).
Proof.
  rewrite (planResume_after_resume "onchain" killed_journal false killed_plan 1400 8 (S754_zero false)
    [MkEvent "ballots.progress" {["done" := Journal.JNum 1000]}] cut_window
    (MkOutcome 0 1 1299 true) 7 zero_segment false).
  - vm_compute. reflexivity.
  - vm_compute. reflexivity.
  - reflexivity.
  - repeat constructor.
  - vm_compute. discriminate.
  - intros [=].
Defined.

(** A resumed window of 500 ballots that is killed before its first progress
    checkpoint: the last checkpoint of the window before it is still counted,
    and no ballot is reported as remaining although all 500 are pending. *)
Example stale_checkpoint :
  planResume "onchain" (Ok (killed_journal ++
    opening_events killed_plan 500 8 (S754_zero false))) false =
  Ok (MkPlan 2 0 false 1000 true [zero_segment]).
Proof. vm_compute. reflexivity. Qed.
End ResumePlan.
