(* ===== verification/ResumeFacts.v ===== *)
(** * What a resume guarantees

    The committed set read back from the chain is exact and the reading
    terminates; a resume submits only ballots the chain does not hold, and a
    resume that ends its window leaves every ballot of the run on the chain. *)
From S2P Require Import Prelude Fabric Hex Wire Ristretto.
From S2P Require Import CdsVerify CredVerify SelectionVerify SigVerify Contract BoardSpec.
From S2P Require Import HandlerFacts Ledger Client ClientFacts GoText Config Ballots Bench Journal JournalFacts.
From S2P Require Import Resume.
From stdpp Require Import pretty.
#[local] Open Scope Z_scope.
Import GoText.

Module ResumeFacts.
Import Bench Resume.

(** ** Marking the committed ballots *)
Definition marks (m : gmap bytes nat) (hs : list string) (i : nat) : Prop :=
  ∃ h key, h ∈ hs ∧ nullifierKey h = Some key ∧ m !! key = Some i.

Lemma mark_page_app m hs hs' c :
  mark_page m (hs ++ hs') c = mark_page m hs' (mark_page m hs c).
Proof. apply foldl_app. Qed.

Lemma mark_page_cons m h hs c :
  mark_page m (h :: hs) c =
  mark_page m hs (match nullifierKey h with
                  | Some key => match m !! key with Some i => <[i := true]> c | None => c end
                  | None => c
                  end).
Proof. done. Qed.

Lemma mark_page_length m hs c : length (mark_page m hs c) = length c.
Proof.
  revert c. induction hs as [|h hs IH]; intros c; [done|]. rewrite mark_page_cons, IH.
  repeat case_match; rewrite ?length_insert; done.
Qed.

Lemma mark_page_lookup m hs c i :
  mark_page m hs c !! i = Some true ↔
  c !! i = Some true ∨ ((i < length c)%nat ∧ marks m hs i).
Proof.
  revert c. induction hs as [|h hs IH]; intros c.
  { cbn. split; [by left|]. intros [|(_&h&?&Hh&_)]; [done|]. by apply not_elem_of_nil in Hh. }
  rewrite mark_page_cons, IH. clear IH.
  assert (Hm : marks m (h :: hs) i ↔
            (∃ key, nullifierKey h = Some key ∧ m !! key = Some i) ∨ marks m hs i).
  { unfold marks. setoid_rewrite elem_of_cons. split.
    - intros (h'&key&[->|Hin]&Hk&Hi); eauto 10.
    - intros [(key&Hk&Hi)|(h'&key&Hin&Hk&Hi)]; eauto 10. }
  rewrite Hm. clear Hm. destruct (nullifierKey h) as [key|] eqn:Hk; [|naive_solver].
  destruct (m !! key) as [j|] eqn:Hj; [|naive_solver].
  rewrite length_insert. destruct (decide (i = j)) as [->|Hne].
  - destruct (decide (j < length c)%nat) as [Hlt|Hge].
    + rewrite list_lookup_insert_eq by done. naive_solver.
    + rewrite list_insert_ge by lia.
      assert (Hnone : c !! j = None) by (apply lookup_ge_None; lia). rewrite Hnone. naive_solver lia.
  - rewrite list_lookup_insert_ne by done. naive_solver.
Qed.

(** ** The index of the run's nullifiers *)
Section index.
Context `{Proto}.

(** Ballot [i] of the file has the 32-byte nullifier [key]. *)
Definition ballot_key (f : Ballots.stream) (i : nat) (key : bytes) : Prop :=
  ∃ line, Ballots.lines f !! i = Some line ∧ line_nullifier i (TrimSpace line) = Ok key.

Lemma nullifierKey_encode b key : nullifierKey (EncodeToString b) = Some key ↔ key = b ∧ length b = 32%nat.
Proof.
  unfold nullifierKey. rewrite DecodeString_EncodeToString.
  destruct (Nat.eqb_spec (length b) 32); naive_solver.
Qed.

Lemma nullifierKey_ok h key : nullifierKey h = Some key → DecodeString h = Ok key ∧ length key = 32%nat.
Proof.
  unfold nullifierKey. destruct (DecodeString h) as [raw|]; [|done].
  destruct (Nat.eqb_spec (length raw) 32); naive_solver.
Qed.

Lemma line_nullifier_ok i line key :
  line_nullifier i line = Ok key ↔
  length key = 32%nat ∧ ∃ raw b, DecodeString line = Ok raw ∧ UnmarshalBallot raw = Ok b ∧
    NullifierValue (Ballot.CredentialPresentation b) = key.
Proof.
  unfold line_nullifier. rewrite rbind_ok. setoid_rewrite rbind_ok. setoid_rewrite wrap_err_ok.
  split.
  - intros (raw&Hr&b&Hb&Hk). destruct (nullifierKey _) as [k|] eqn:E; [|done].
    apply nullifierKey_encode in E as [-> Hlen]. injection Hk as <-. eauto 10.
  - intros (Hlen&raw&b&Hr&Hb&Hv). exists raw. split; [done|]. exists b. split; [done|].
    by rewrite (proj2 (nullifierKey_encode _ key)) by (rewrite Hv; done).
Qed.

(** The body of the scan. *)
Definition index_line (i : nat) (line : string) (s : gmap bytes nat * nat) :
    result (gmap bytes nat * nat) :=
  let '(m, n) := s in
  let? key := line_nullifier i line in Ok (<[key := i]> m, S n).

Lemma index_scan (ls : list string) (err : option goerr) (i : nat) (m : gmap bytes nat) (n : nat)
    (m' : gmap bytes nat) (n' : nat) :
  Ballots.scan_from index_line i ls err (m, n) = Ok (m', n') →
  n' = (n + length ls)%nat ∧
  (∀ j line, ls !! j = Some line → ∃ key, line_nullifier (i + j) (TrimSpace line) = Ok key) ∧
  ∀ key v, m' !! key = Some v ↔
    (∃ j line, ls !! j = Some line ∧ v = (i + j)%nat ∧ line_nullifier v (TrimSpace line) = Ok key ∧
      ∀ j' line', ls !! j' = Some line' → line_nullifier (i + j') (TrimSpace line') = Ok key → (j' <= j)%nat) ∨
    (m !! key = Some v ∧ ∀ j line, ls !! j = Some line → line_nullifier (i + j) (TrimSpace line) ≠ Ok key).
Proof.
  revert i m n. induction ls as [|l ls IH]; intros i m n; cbn.
  - destruct err; [done|]. intros [= <- <-]. split_and!; [lia|by intros ? []|].
    intros key v. split; [by right|intros [(?&?&[=]&_)|[? _]]; done].
  - intros Hs. apply rbind_ok in Hs as ([m1 n1]&Hk&Hs). apply rbind_ok in Hk as (k0&Hk0&[= <- <-]).
    apply IH in Hs as (->&Hall&Hm).
    assert (Hshift : ∀ j, (i + 1 + j = i + S j)%nat) by lia.
    setoid_rewrite Hshift in Hall. setoid_rewrite Hshift in Hm. split_and!; [lia| |].
    + intros [|j] line; cbn; [intros [= <-]; exists k0; by rewrite Nat.add_0_r|].
      intros Hj. destruct (Hall j line Hj) as [key Hkey]. exists key. done.
    + intros key v. rewrite Hm. clear Hm IH Hall. split.
      * intros [(j&line&Hj&->&Hk&Hmax)|[Hk Hno]].
        { left. exists (S j), line. split_and!; try done.
          intros [|j'] line' Hj' Hk'; [lia|].
          apply le_n_S. eauto. }
        apply lookup_insert_Some in Hk as [[<- <-]|[Hne Hk]].
        { left. exists 0%nat, l. rewrite Nat.add_0_r. split_and!; try done.
          intros [|j'] line' Hj' Hk'; [lia|]. by apply Hno in Hj'. }
        right. split; [done|]. intros [|j] line Hj.
        { cbn in Hj. injection Hj as <-. rewrite Nat.add_0_r. congruence. }
        by apply Hno.
      * intros [([|j]&line&Hj&->&Hk&Hmax)|[Hk Hno]].
        { cbn in Hj. injection Hj as <-. rewrite Nat.add_0_r in *. assert (k0 = key) as -> by congruence.
          right. rewrite lookup_insert_eq. split; [done|].
          intros j line Hj Hk'. specialize (Hmax (S j) line Hj).
          apply Hmax in Hk'. lia. }
        { left. exists j, line. split_and!; try done.
          intros j' line' Hj' Hk'. specialize (Hmax (S j') line' Hj').
          apply Hmax in Hk'. lia. }
        right. rewrite lookup_insert_ne.
        { split; [done|]. intros j line Hj. by apply (Hno (S j) line Hj). }
        intros ->. apply (Hno 0%nat l eq_refl). by rewrite Nat.add_0_r.
Qed.

(** The map [nullifierIndex] builds: one key per ballot, and a key leads to the
    last ballot that has it. *)
Lemma nullifierIndex_ok f count m :
  nullifierIndex f count = Ok m →
  count = length (Ballots.lines f) ∧
  (∀ i, (i < count)%nat → ∃ key, ballot_key f i key) ∧
  ∀ key i, m !! key = Some i ↔
    ballot_key f i key ∧ ∀ i', ballot_key f i' key → (i' <= i)%nat.
Proof.
  unfold nullifierIndex, Ballots.scanBallotLines. intros Hr.
  apply rbind_ok in Hr as ([m' n']&Hs&Hg). apply guard_ok in Hg as [Hn [= <-]].
  cbn in Hn. apply Nat.eqb_eq in Hn.
  apply index_scan in Hs as (Hlen&Hall&Hm). cbn in *. subst n'. split_and!; [done| |].
  - intros i Hi. destruct (lookup_lt_is_Some_2 (Ballots.lines f) i) as [line Hl]; [lia|].
    destruct (Hall i line Hl) as [key Hk]. exists key, line. done.
  - intros key i. rewrite Hm. split.
    + intros [(j&line&Hj&->&Hk&Hmax)|[Hk _]]; [|by rewrite lookup_empty in Hk].
      split; [by exists line|]. intros i' (line'&Hl'&Hk'). eauto.
    + intros [(line&Hl&Hk) Hmax]. left. exists i, line. split_and!; try done.
      intros j' line' Hj' Hk'. apply Hmax. by exists line'.
Qed.

#[global] Instance ballot_key_dec f i key : Decision (ballot_key f i key).
Proof.
  unfold ballot_key. destruct (Ballots.lines f !! i) as [line|]; [|right; by intros (?&?&_)].
  destruct (line_nullifier i (TrimSpace line)) as [k|e] eqn:Hk.
  - destruct (decide (k = key)) as [->|]; [left; by exists line|right].
    intros (?&[= <-]&?). congruence.
  - right. intros (?&[= <-]&?). congruence.
Defined.

(** Every nullifier of the file has a last ballot. *)
Lemma last_ballot f i key :
  ballot_key f i key → ∃ j, (i <= j)%nat ∧ ballot_key f j key ∧
    ∀ i', ballot_key f i' key → (i' <= j)%nat.
Proof.
  remember (length (Ballots.lines f) - i)%nat as d eqn:Hd. revert i Hd.
  induction d as [d IH] using lt_wf_ind. intros i -> Hi.
  assert (Hlt : ∀ j, ballot_key f j key → (j < length (Ballots.lines f))%nat).
  { intros j (line&Hl&_). by apply lookup_lt_Some in Hl. }
  destruct (decide (Exists (λ j, (i < j)%nat ∧ ballot_key f j key) (seq 0 (length (Ballots.lines f)))))
    as [Hex|Hno].
  - apply Exists_exists in Hex as (j&_&Hij&Hj). specialize (Hlt _ Hj).
    destruct (IH (length (Ballots.lines f) - j)%nat ltac:(lia) j eq_refl Hj) as (l&?&?&?).
    exists l. split_and!; [lia|done|done].
  - exists i. split_and!; [done|done|]. intros j Hj. destruct (decide (j <= i)%nat) as [|Hn]; [done|].
    exfalso. apply Hno, Exists_exists. exists j. rewrite elem_of_seq. specialize (Hlt _ Hj).
    split; [lia|]. split; [lia|done].
Qed.

Lemma ballot_key_fun f i k k' : ballot_key f i k → ballot_key f i k' → k = k'.
Proof. intros (l&Hl&Hk) (l'&Hl'&Hk'). congruence. Qed.
End index.
(** ** Reading the committed set *)
Section reading.
Context `{FabricShimLaws, Proto, Ristretto, Merlin, !Json, !JsonLaws}.
Context {Σ : Type} `{!Gateway Σ, !ChainPages Σ}.
Hypothesis keys_utf8 : ∀ rk k, composite_key rk = Ok k → utf8 k.

(** From the key at [i] the walk marks the ballots of the rest. *)
Lemma walk_ok (s : Σ) B e ks fuel i m bm committed :
  represents (chain s) B → NoDup ks →
  (∀ k, k ∈ ks → ∃ b, composite_key (KNullifier e (EncodeToString b)) = Ok k) →
  (∀ (i n : nat) bookmark, (0 < n)%nat →
     (i = 0%nat ∧ bookmark = "" ∨ ks !! i = Some bookmark) →
     QueryPage (chain s) Contract.nullifierIndex [e] (Z.of_nat n) bookmark =
       Ok (Ok <$> take n (drop i ks), Some (default "" (ks !! (i + n)%nat)))) →
  (i = 0%nat ∧ bm = "" ∨ ks !! i = Some bm) →
  (0 < fuel)%nat → Z.of_nat (length ks) - Z.of_nat i ≤ Client.nullifierPageSize * Z.of_nat fuel →
  walk fuel m e bm committed s =
    (Some (Ok (mark_page m (key_nullifier <$> drop i ks) committed)), s).
Proof.
  intros HB Hnd Hks Hq. revert i committed bm.
  induction fuel as [|fuel IH]; [lia|]. intros i committed bm Hbm _ Hfuel. cbn [walk].
  assert (i ≤ length ks)%nat as Hi.
  { destruct Hbm as [[-> _]|Hb]; [lia|]. apply lookup_lt_Some in Hb. lia. }
  unfold Client.nullifierPageSize in *. change 10000 with (Z.of_nat (Z.to_nat 10000)) at 1.
  assert (0 < Z.of_nat (Z.to_nat 10000) ≤ Contract.maxNullifierPageSize) as Hsize
    by (unfold Contract.maxNullifierPageSize; lia).
  assert (0 < Z.to_nat 10000)%nat as Hpos by lia.
  rewrite (client_page keys_utf8 s B e (Z.to_nat 10000) bm ks i HB Hsize Hks (Hq _ _ _ Hpos Hbm)).
  cbn [Nullifiers NextBookmark].
  destruct (ks !! (i + Z.to_nat 10000)%nat) as [k|] eqn:Ek; cbn [default from_option id].
  - assert (Hk : k ≠ "").
    { intros ->. apply list_elem_of_lookup_2 in Ek. destruct (Hks _ Ek) as [b Hb].
      by apply (create_nonempty _ _ _ Hb). }
    assert (Hkb : k ≠ bm).
    { intros ->. destruct Hbm as [[_ ?]|Hb]; [done|].
      pose proof (NoDup_lookup _ _ _ _ Hnd Hb Ek). lia. }
    rewrite !bool_decide_false by done. cbn [orb].
    pose proof (lookup_lt_Some _ _ _ Ek). rewrite (IH (i + Z.to_nat 10000)%nat); [|by right|lia..].
    rewrite <-mark_page_app, <-fmap_app, <-drop_drop, take_drop. done.
  - apply lookup_ge_None in Ek. rewrite bool_decide_true by done. cbn [orb].
    rewrite take_ge by (rewrite length_drop; lia). done.
Qed.
End reading.
(** ** The resumed window *)
Lemma elem_of_pending c i : i ∈ pending c ↔ c !! i = Some false.
Proof.
  unfold pending. rewrite list_elem_of_fmap. split.
  - intros ([j b]&->&[Hb Hin]%list_elem_of_filter). cbn in *. subst b.
    apply list_elem_of_lookup in Hin as [n Hn]. rewrite list_lookup_imap in Hn.
    by destruct (c !! n) eqn:E; simplify_eq/=.
  - intros Hi. exists (i, false). split; [done|]. apply list_elem_of_filter. split; [done|].
    apply list_elem_of_lookup. exists i. by rewrite list_lookup_imap, Hi.
Qed.

Lemma sublist_fmap {A B} (f : A → B) l k : l `sublist_of` k → f <$> l `sublist_of` f <$> k.
Proof. induction 1; cbn; by constructor. Qed.

Lemma failed_slots_events n evs res :
  accounted n evs res →
  (∀ k, k ∈ failed_slots res ↔ ∃ t, (k, (t, false)) ∈ evs) ∧
  Z.of_nat (length (failed_slots res)) = Dropped res.
Proof.
  intros Ha. pose proof (acc_slots _ _ _ Ha) as Hs. rewrite Forall_forall in Hs.
  assert (Hseq : Z.to_nat (LastIndex res + 1) = length evs).
  { rewrite (acc_last _ _ _ Ha), (acc_submitted _ _ _ Ha). lia. }
  assert (Hk : ∀ k, k ∈ failed_slots res ↔ ∃ t, (k, (t, false)) ∈ evs).
  { intros k. unfold failed_slots. rewrite list_elem_of_filter, Hseq.
    rewrite <-(acc_once _ _ _ Ha), list_elem_of_fmap. split.
    - intros [Hok ([k' [t b]]&->&Hin)]. destruct (Hs _ Hin) as [_ Hb]. cbn in *.
      exists t. assert (b = false) as -> by congruence. done.
    - intros [t Hin]. destruct (Hs _ Hin) as [_ Hb]. split; [done|]. by exists (k, (t, false)). }
  split; [done|]. rewrite (acc_dropped _ _ _ Ha). f_equal.
  rewrite <-(length_fmap fst (filter _ evs)). apply Permutation_length, NoDup_Permutation.
  - apply NoDup_filter, NoDup_seq.
  - apply (sublist_NoDup _ evs.*1).
    + rewrite (acc_once _ _ _ Ha). apply NoDup_seq.
    + apply sublist_fmap, sublist_filter.
  - intros k. rewrite Hk, list_elem_of_fmap. split.
    + intros [t Hin]. exists (k, (t, false)). split; [done|]. by apply list_elem_of_filter.
    + intros ([k' [t b]]&->&[Hb Hin]%list_elem_of_filter). cbn in *. subst b. eauto.
Qed.

Lemma filter_split_length {A} (P : A → Prop) `{∀ x, Decision (P x)} l :
  (length (filter P l) + length (filter (λ x, ¬ P x) l) = length l)%nat.
Proof.
  induction l as [|x l IH]; [done|]. rewrite !filter_cons.
  destruct (decide (P x)); [rewrite decide_False by tauto|rewrite decide_True by tauto]; cbn; lia.
Qed.

(** The failures that are no replays are the ballots dropped. *)
Lemma window_outcome_ok n evs res todo after :
  accounted n evs res →
  let o := window_outcome res (replayedIndices todo res (Ok after)) in
  0 ≤ dropped o ∧ on_chain o + dropped o = Submitted res ∧
  (dropped o = 0 ↔ ∀ k t, (k, (t, false)) ∈ evs → is_replay todo after k = true).
Proof.
  intros Ha. destruct (failed_slots_events _ _ _ Ha) as [Hf Hlen].
  unfold window_outcome, replayedIndices; cbn [dropped on_chain].
  pose proof (filter_split_length (λ k, is_replay todo after k = true) (failed_slots res)) as Hsplit.
  pose proof (outcomes_split evs) as Hout.
  rewrite <-(acc_committed _ _ _ Ha), <-(acc_dropped _ _ _ Ha), <-(acc_submitted _ _ _ Ha) in Hout.
  assert (Hzero : length (filter (λ k, is_replay todo after k ≠ true) (failed_slots res)) = 0%nat ↔
            ∀ k t, (k, (t, false)) ∈ evs → is_replay todo after k = true).
  { split.
    - intros Hl k t Hin. apply nil_length_inv in Hl.
      destruct (decide (is_replay todo after k = true)) as [|Hn]; [done|]. exfalso.
      apply (not_elem_of_nil k). rewrite <-Hl. apply list_elem_of_filter. split; [done|].
      apply Hf. eauto.
    - intros Hall. destruct (filter (λ k, is_replay todo after k ≠ true) (failed_slots res)) as [|k l] eqn:E; [done|]. exfalso.
      assert (Hin : k ∈ filter (λ k, is_replay todo after k ≠ true) (failed_slots res)) by (rewrite E; left).
      apply list_elem_of_filter in Hin as [Hn Hk]. apply Hf in Hk as [t Ht]. by apply Hn, (Hall k t). }
  cbv beta in Hsplit. split_and!; [lia|lia|]. rewrite <-Hzero. lia.
Qed.
Lemma not_interrupted_iff res replays :
  let o := window_outcome res replays in
  interrupted o = false ↔ Stopped res = false ∧ dropped o = 0.
Proof.
  unfold window_outcome. cbn [interrupted dropped]. rewrite orb_false_iff, Z.ltb_ge.
  split; intros [? ?]; split; try done; lia.
Qed.

(** ** A resume against the chain *)
Section resume.
Context `{FabricShimLaws, Proto, Ristretto, Merlin, !Json, !JsonLaws, CommitterLaws}.
Context {Σ : Type} `{!Gateway Σ, !ChainPages Σ}.

(** The chain's history holds a ballot of election [e] with this nullifier. *)
Definition on_the_chain (h : list invocation) (e : string) (key : bytes) : Prop :=
  (e, EncodeToString key) ∈ (cast h).*1.

Lemma on_the_chain_app h h' e key : on_the_chain h e key → on_the_chain (h ++ h') e key.
Proof.
  unfold on_the_chain, cast. rewrite omap_app, fmap_app, elem_of_app. by left.
Qed.

(** The committed set, read through any number of pages: a ballot is marked
    exactly when it is the last one of the run with its nullifier and the chain
    has that nullifier. *)
Lemma chainCommitted_set (s : Σ) h f count m e fuel :
  (∀ rk k, composite_key rk = Ok k → utf8 k) →
  commits ∅ h (chain s) → nullifierIndex f count = Ok m →
  (0 < fuel)%nat → Z.of_nat (ballots_cast_for e h) ≤ Client.nullifierPageSize * Z.of_nat fuel →
  ∃ c, chainCommitted fuel m e count s = (Some (Ok c), s) ∧ length c = count ∧
    ∀ i, c !! i = Some true ↔
      ∃ key, ballot_key f i key ∧ (∀ i', ballot_key f i' key → (i' <= i)%nat) ∧
        on_the_chain h e key.
Proof.
  intros Hutf8 Hc Hm Hf Hfuel. destruct (reachable_board _ _ Hc) as (B & HB & Hwf & Hnd & Hn).
  destruct (query_page (chain s) Contract.nullifierIndex [e]) as (ks & Hks & Hr & Hq).
  pose proof (nullifier_keys_length _ _ _ _ _ HB Hnd (Hn e) Hks Hr) as Hlen.
  destruct (nullifierIndex_ok _ _ _ Hm) as (Hcount & Hall & Hidx).
  unfold chainCommitted.
  rewrite (walk_ok Hutf8 s B e ks fuel 0 m ""); [|done|done| |done|by left|done|lia].
  2: { intros k Hk. apply Hr, (nullifier_range _ _ _ _ HB) in Hk as (n & Hk & Hs).
       destruct (wf_nullifier_hex _ _ _ Hwf Hs) as [b ->]. eauto. }
  eexists. split; [done|]. rewrite drop_0, mark_page_length, length_replicate. split; [done|].
  intros i. rewrite mark_page_lookup, length_replicate. unfold marks.
  split.
  - intros [Hi|[Hi (x&key&Hx&Hk&Hmi)]]; [by apply lookup_replicate in Hi as [? _]|].
    apply Hidx in Hmi as [Hkey Hlast]. exists key. split_and!; [done..|].
    apply (nullifier_keys_elem _ _ _ _ _ x HB (Hn e) Hr) in Hx.
    pose proof Hx as Hs. apply Hn in Hs. destruct (wf_nullifier_hex _ _ _ Hwf Hs) as [b ->].
    apply nullifierKey_encode in Hk as [-> _]. done.
  - intros (key&Hkey&Hlast&Hon). right. split.
    + destruct Hkey as (line&Hl&_). apply lookup_lt_Some in Hl. lia.
    + exists (EncodeToString key), key. split_and!; [| |by apply Hidx].
      * by apply (nullifier_keys_elem _ _ _ _ _ _ HB (Hn e) Hr).
      * apply nullifierKey_encode. split; [done|]. destruct Hkey as (line&_&Hk).
        by apply line_nullifier_ok in Hk as [? _].
Qed.

(** What holds once a resumed window has ended with outcome [o]. *)
Record resume_ok (f : Ballots.stream) (e : string) (h h' : list invocation) (todo : list nat)
    (res : RunResult) (o : outcome) : Prop := {
  (* only ballots the chain lacks are submitted *)
  ro_lacking : ∀ i key, i ∈ todo → ballot_key f i key → on_the_chain h e key →
    ∃ i', (i < i')%nat ∧ ballot_key f i' key;
  (* every submission is counted, as on the chain or as dropped *)
  ro_counted : 0 ≤ dropped o ∧ on_chain o + dropped o = Submitted res;
  (* a window that is not left open has every ballot of the run on the chain *)
  ro_complete : interrupted o = false →
    ∀ i, (i < length (Ballots.lines f))%nat → ∃ key, ballot_key f i key ∧ on_the_chain (h ++ h') e key;
  (* ... and passes; *)
  ro_passes : interrupted o = false → ∀ c plan seg,
    Journal.Failed (Journal.Finalise (resume_input c plan (length todo) res o seg None)) = false;
  (* one that has them all is not left open *)
  ro_closes : (∀ i i' key, ballot_key f i key → ballot_key f i' key → i = i') →
    Stopped res = false →
    (∀ i key, ballot_key f i key → on_the_chain (h ++ h') e key) → interrupted o = false
}.

(** Every ballot of the file belongs to election [e]. *)
Definition of_election (f : Ballots.stream) (e : string) : Prop :=
  ∀ i line raw b, Ballots.lines f !! i = Some line → DecodeString (TrimSpace line) = Ok raw →
    UnmarshalBallot raw = Ok b → Ballot.ElectionId b = e.

Lemma submitted_on_chain f e h i line key :
  of_election f e → Ballots.lines f !! i = Some line → ballot_key f i key →
  ISubmitBallot (TrimSpace line) ∈ h → on_the_chain h e key.
Proof.
  intros He Hl (line'&Hl'&Hk) Hin. assert (line' = line) as -> by congruence.
  apply line_nullifier_ok in Hk as (_&raw&b&Hraw&Hb&Hv).
  apply list_elem_of_fmap. exists (ballot_slot b, raw). split.
  - unfold ballot_slot, ballot_nullifier. cbn. rewrite (He _ _ _ _ Hl Hraw Hb). by rewrite <-Hv.
  - apply list_elem_of_omap. exists (ISubmitBallot (TrimSpace line)). split; [done|].
    cbn. by rewrite Hraw, Hb.
Qed.

(** The submissions reported as successes were committed. *)
Definition reported (f : Ballots.stream) (todo : list nat) (h' : list invocation)
    (evs : list (nat * (Z * bool))) : Prop :=
  ∀ k t, (k, (t, true)) ∈ evs → ∃ i line, todo !! k = Some i ∧
    Ballots.lines f !! i = Some line ∧ ISubmitBallot (TrimSpace line) ∈ h'.

Lemma Reconcile_all n : Reconcile n n n = Ok tt.
Proof. unfold Reconcile. by rewrite Z.eqb_refl. Qed.

Lemma resume_input_passes c plan n res o seg :
  Stopped res = false → dropped o = 0 → on_chain o + dropped o = Submitted res →
  Submitted res = Z.of_nat n →
  Journal.Failed (Journal.Finalise (resume_input c plan n res o seg None)) = false.
Proof.
  intros Hst Hd Hsum Hn. destruct (JournalFacts.Finalise_clean (resume_input c plan n res o seg None))
    as [_ Hclean]. apply Hclean. unfold resume_input. rewrite Hn in *.
  replace (on_chain o) with (Z.of_nat n) by lia. rewrite Reconcile_all, Hd, Hst.
  by split.
Qed.

Lemma resume_window (f : Ballots.stream) e h h' c after evs res :
  of_election f e → length c = length (Ballots.lines f) →
  (∀ i, (i < length (Ballots.lines f))%nat → ∃ key, ballot_key f i key) →
  (∀ i, c !! i = Some true ↔ ∃ key, ballot_key f i key ∧
     (∀ i', ballot_key f i' key → (i' <= i)%nat) ∧ on_the_chain h e key) →
  (∀ i, after !! i = Some true ↔ ∃ key, ballot_key f i key ∧
     (∀ i', ballot_key f i' key → (i' <= i)%nat) ∧ on_the_chain (h ++ h') e key) →
  accounted (length (pending c)) evs res → reported f (pending c) h' evs →
  resume_ok f e h h' (pending c) res (window_outcome res (replayedIndices (pending c) res (Ok after))).
Proof.
  intros He Hlen Hkeys Hc Hafter Ha Hrep. set (todo := pending c) in *.
  set (o := window_outcome _ _).
  destruct (window_outcome_ok _ _ _ todo after Ha) as (Hpos&Hsum&Hzero). fold o in Hpos, Hsum, Hzero.
  pose proof (not_interrupted_iff res (replayedIndices todo res (Ok after))) as Hint. fold o in Hint.
  assert (Hcover : Stopped res = false → ∀ k i, todo !! k = Some i → ∃ t b, (k, (t, b)) ∈ evs).
  { intros Hst k i Hk. apply (acc_covered _ _ _ k Ha Hst). by apply lookup_lt_Some in Hk. }
  split.
  - intros i key Hi Hk Hon. apply elem_of_pending in Hi.
    destruct (last_ballot f i key Hk) as (j&Hij&Hj&Hlast). exists j. split; [|done].
    destruct (decide (i = j)) as [<-|]; [|lia]. exfalso.
    assert (Htrue : c !! i = Some true) by (apply Hc; eauto). congruence.
  - done.
  - intros [Hst Hd]%Hint i Hi. destruct (Hkeys i Hi) as [key Hk]. exists key. split; [done|].
    destruct (lookup_lt_is_Some_2 c i) as [b Hb]; [lia|]. destruct b.
    + apply Hc in Hb as (key'&Hk'&_&Hon). rewrite (ballot_key_fun _ _ _ _ Hk Hk').
      by apply on_the_chain_app.
    + apply elem_of_pending, list_elem_of_lookup in Hb as [k Hki]. fold todo in Hki.
      destruct (Hcover Hst k i Hki) as (t&b&Hin). destruct b.
      * destruct (Hrep _ _ Hin) as (i'&line&Hki'&Hl&Hsub). assert (i' = i) as -> by congruence.
        eapply (submitted_on_chain f e (h ++ h')); eauto. apply elem_of_app. by right.
      * apply (proj1 Hzero Hd) in Hin. unfold is_replay in Hin. rewrite Hki in Hin.
        destruct (after !! i) as [[]|] eqn:E; try done.
        apply Hafter in E as (key'&Hk'&_&Hon). by rewrite (ballot_key_fun _ _ _ _ Hk Hk').
  - intros [Hst Hd]%Hint cfg plan seg. apply resume_input_passes; try done.
    by apply (acc_stopped _ _ _ Ha).
  - intros Hdist Hst Hon. apply Hint. split; [done|]. apply Hzero. intros k t Hin.
    destruct (lookup_lt_is_Some_2 todo k) as [i Hki].
    { pose proof (acc_within _ _ _ Ha). pose proof (acc_submitted _ _ _ Ha).
      apply (list_elem_of_fmap_2 fst) in Hin. rewrite (acc_once _ _ _ Ha) in Hin.
      apply elem_of_seq in Hin. cbn in Hin. lia. } unfold is_replay. rewrite Hki.
    assert (Hi : i ∈ todo) by (by apply list_elem_of_lookup_2 in Hki).
    apply elem_of_pending in Hi. pose proof (lookup_lt_Some _ _ _ Hi) as Hlt.
    destruct (Hkeys i) as [key Hk]; [lia|].
    replace (after !! i) with (Some true); [done|]. symmetry. apply Hafter. exists key.
    split_and!; [done| |by eauto]. intros i' Hk'. by rewrite (Hdist _ _ _ Hk Hk').
Qed.

(** C8: Resuming an interrupted ballot window loses and repeats nothing.
    Reading which of the run's ballots the chain holds terminates, through every
    page, and the resume then submits only ballots whose nullifier the chain
    lacks (or repeats within the run's own file). However its submissions and
    failures fall out, and whatever else the chain commits meanwhile: every
    submission is counted as on the chain or as dropped; a window that is not
    left open for another resume has every ballot of the run on the chain and
    passes the run's verdict; and, with distinct nullifiers, a window that was
    not cut short and has them all on the chain is not left open. *)
Theorem resume_recovers f e h (s : Σ) count m fuel :
  (∀ rk k, composite_key rk = Ok k → utf8 k) →
  commits ∅ h (chain s) → nullifierIndex f count = Ok m → of_election f e →
  (0 < fuel)%nat → Z.of_nat (ballots_cast_for e h) ≤ Client.nullifierPageSize * Z.of_nat fuel →
  ∃ c, chainCommitted fuel m e count s = (Some (Ok c), s) ∧ length c = count ∧
    ∀ h' (s' : Σ) fuel' evs res,
      commits ∅ (h ++ h') (chain s') →
      (0 < fuel')%nat →
      Z.of_nat (ballots_cast_for e (h ++ h')) ≤ Client.nullifierPageSize * Z.of_nat fuel' →
      accounted (length (pending c)) evs res → reported f (pending c) h' evs →
      ∃ after, chainCommitted fuel' m e count s' = (Some (Ok after), s') ∧
        resume_ok f e h h' (pending c) res
          (window_outcome res (replayedIndices (pending c) res (Ok after))).
Proof.
  intros Hutf8 Hc Hm He Hf Hfuel. destruct (nullifierIndex_ok _ _ _ Hm) as (Hcount&Hall&_).
  destruct (chainCommitted_set s h f count m e fuel Hutf8 Hc Hm Hf Hfuel) as (c&Hrun&Hlen&Hset).
  exists c. split; [done|]. split; [done|].
  intros h' s' fuel' evs res Hc' Hf' Hfuel' Ha Hrep.
  destruct (chainCommitted_set s' (h ++ h') f count m e fuel' Hutf8 Hc' Hm Hf' Hfuel')
    as (after&Hrun'&_&Hset').
  exists after. split; [done|]. subst count. by apply (resume_window f e h h' c after evs res).
Qed.
End resume.
End ResumeFacts.
