(* ===== verification/Verdict.v ===== *)
(** * The verdict on a run

    [saksi-campaign/executor.go]: how the first ballot window is recorded
    (its closing events and [submit-metrics.json]) and how [Verify] assembles
    what [Finalise] decides on from the audit, the journal and those metrics. *)
From S2P Require Import Prelude GoText Config Bench Journal JournalFacts Resume.
From Stdlib Require Import SpecFloat.
#[local] Open Scope Z_scope.
Import GoText Bench Resume.

Module Verdict.

(** ** The first window *)

(** [c.Window()], in nanoseconds. *)
Definition Window (c : Config.ElectionConfig) : Z :=
  if SFleb (Config.WindowS c) Config.f_zero then 0
  else default 0 (float_to_int (float_mul (Config.WindowS c) (float_of_Z (10 ^ 9)))).

(** [cancelled] is whether the caller's context is over. *)
Definition windowWasBounded (cancelled : bool) (c : Config.ElectionConfig) (res : RunResult) : bool :=
  (0 <? Window c) && Stopped res && (Bench.Dropped res =? 0) && negb cancelled.

(** Ballots lost to a peer outage leave the window unfinished. *)
Definition after_fault (fired : bool) (res : RunResult) : RunResult :=
  if fired && (0 <? Bench.Dropped res)
  then MkRunResult (Submitted res) (Bench.Committed res) (Bench.Dropped res) (Latencies res)
         (Bench.Window res) true (LastIndex res) (ByIndex res) (OK res) (Concurrency res)
  else res.

(** What [bench] derives from a window and the metrics and segments report. *)
Record figures := MkFigures { ms : Z; tps : float64; p50 : float64; ceiling : float64 }.

Definition segmentOf (index : Z) (f : figures) (committed : Z) : Journal.Segment :=
  Journal.MkSegment index committed (ms f) (tps f) (p50 f) (ceiling f).

Definition writeSubmitMetrics (f : figures) (res : RunResult) (expected : Z) (bounded : bool) :
    submitMetrics :=
  MkMetrics (ms f) (Submitted res) (Bench.Committed res) (Bench.Dropped res) expected (tps f)
    (ceiling f) (Stopped res) bounded (p50 f) "".

Definition optional (k : string) (v : option Journal.jval) : list (string * Journal.jval) :=
  match v with Some v => [(k, v)] | None => [] end.

(** The events the window is opened with: [bytes] is the ledger's size, when it
    is measured, [tag] the kind of a tagged repetition. *)
Definition window_opening (count concurrency : Z) (rate : float64) (bytes : option Z)
    (tag : option string) : list event :=
  [MkEvent "stage.ballots.start" (list_to_map
     ([("n", Journal.JNum count); ("concurrency", Journal.JNum concurrency);
       ("send_rate", Journal.JFloat rate)]%string ++
      optional "ledger_bytes" (Journal.JNum <$> bytes)));
   MkEvent "segment.start" (list_to_map
     (("index"%string, Journal.JNum 0) :: optional "tag" (Journal.JStr <$> tag)))].

(** ... and closed with; [fired] is whether the peer fault fired. *)
Definition window_closing (res : RunResult) (f : figures) (bounded fired : bool)
    (bytes : option Z) : list event :=
  [stampWindowEnd (list_to_map
     ([("submitted", Journal.JNum (Submitted res)); ("committed", Journal.JNum (Bench.Committed res));
       ("dropped", Journal.JNum (Bench.Dropped res)); ("window_ms", Journal.JNum (ms f));
       ("stopped", Journal.JBool (Stopped res))]%string ++
      optional "bounded" (if bounded then Some (Journal.JBool true) else None) ++
      optional "fault" (if fired then Some (Journal.JStr "peer-restart") else None) ++
      optional "ledger_bytes" (Journal.JNum <$> bytes)))
     (Stopped res && negb bounded);
   stampSegmentEnd (segmentOf 0 f (Bench.Committed res))].

(** ** The audit *)
Record ContestCorrectness := MkContest {
  Contest : string; GroundTruth : Z; Decoded : Z; E : Z; Pass : bool; PublishedTally : Z;
  AggregateCiphertext : string; RecoveredPoint : string
}.

Record ledgerCheck := MkCheck {
  status : string; ledger_contests : list ContestCorrectness; matches : string
}.

(** The rows of [correctness.csv] of one audited directory, with its hashes. *)
Definition correctness_rows (source dkgHash tallyHash ballotsHash matches : string)
    (contests : list ContestCorrectness) : list (list string) :=
  map (λ c, [Contest c; Itoa (GroundTruth c); Itoa (Decoded c); Itoa (E c);
             (if Pass c then "true" else "false"); Itoa (PublishedTally c); RecoveredPoint c;
             AggregateCiphertext c; dkgHash; tallyHash; ballotsHash; source; matches]%string) contests.

Definition correctness_header : list string :=
  ["contest"; "ground_truth"; "decoded"; "E"; "pass"; "published_tally"; "recovered_point";
   "aggregate_ciphertext"; "dkg_sha256"; "tally_sha256"; "ballots_sha256"; "source";
   "ledger_matches_local"].

(** [hashes] and [ledger_hashes] are the digests of the two directories. *)
Definition writeCorrectnessCSV (local : list ContestCorrectness) (hashes ledger_hashes : string * string * string)
    (lc : option ledgerCheck) : list (list string) :=
  let m := match lc with Some l => matches l | None => ""%string end in
  let '(d, t, b) := hashes in
  let '(ld, lt, lb) := ledger_hashes in
  correctness_header :: correctness_rows "local" d t b m local ++
  match lc with
  | Some l => if String.eqb (status l) "ok" then correctness_rows "ledger" ld lt lb m (ledger_contests l) else []
  | None => []
  end.

(** ** finaliseInput *)
Definition no_window (sm : option submitMetrics) : bool :=
  match sm with Some sm => SSubmitted sm =? 0 | None => true end.

Definition finaliseInput (c : Config.ElectionConfig) (contests : list ContestCorrectness)
    (stageErr : option goerr) (lc : option ledgerCheck) (journal : result (list event))
    (sm : option submitMetrics) : Journal.FinaliseInput :=
  let e_by_contest := foldl (λ m ct, <[Contest ct := E ct]> m) ∅ contests in
  let audit := match lc with Some l => status l | None => ""%string end in
  let same := match lc with
              | Some l => if String.eqb (matches l) "" then None else Some (String.eqb (matches l) "true")
              | None => None
              end in
  let '(segs, resumed) := segmentsFromJournal journal in
  let journal_error := match sm with
                       | Some sm => if String.eqb (SJournalError sm) "" then None
                                    else Some (Errorf "%s" [AStr (SJournalError sm)])
                       | None => None
                       end in
  let stageErr := match stageErr with Some e => Some e | None => journal_error end in
  let stageErr := match stageErr with Some e => Some e | None => ballotStageErr journal end in
  let nothing := String.eqb (Config.Mode c) "onchain" &&
    (0 <? wrap64 (Config.Voters c * Config.Positions c)) && no_window sm in
  match sm with
  | None =>
      Journal.MkFinalise (Config.Voters c) (Config.Positions c) [] 0 true None e_by_contest stageErr
        nothing false false resumed audit same (Config.securityRun c)
  | Some sm =>
      let expected := if SBounded sm then SSubmitted sm else SExpected sm in
      let r := Reconcile (SSubmitted sm) (SCommitted sm) expected in
      Journal.MkFinalise (Config.Voters c) (Config.Positions c)
        (match segs with
         | [] => [Journal.MkSegment 0 (SCommitted sm) (SWindowMs sm) (SCommittedTPS sm)
                    (SLatencyP50Ms sm) (SDriverCeilingTPS sm)]
         | _ => segs
         end)
        (SDropped sm) (match r with Ok _ => true | Err _ => false end)
        (match r with Ok _ => None | Err e => Some e end) e_by_contest stageErr nothing
        (SStopped sm) (SBounded sm) resumed audit same (Config.securityRun c)
  end.

(** [Verify]'s verdict on a run. *)
Definition verdict (c : Config.ElectionConfig) (contests : list ContestCorrectness)
    (stageErr : option goerr) (lc : option ledgerCheck) (journal : result (list event))
    (sm : option submitMetrics) : Journal.FinaliseResult :=
  Journal.Finalise (finaliseInput c contests stageErr lc journal sm).

(** ** What the verdict says *)
Lemma last_contest_E contests m0 c e :
  NoDup (Contest <$> contests) →
  foldl (λ m ct, <[Contest ct := E ct]> m) m0 contests !! c = Some e ↔
  (∃ ct, ct ∈ contests ∧ Contest ct = c ∧ E ct = e) ∨
  (c ∉ Contest <$> contests) ∧ (m0 : gmap string Z) !! c = Some e.
Proof.
  revert m0. induction contests as [|ct cts IH]; intros m0 Hnd; cbn [foldl fmap list_fmap].
  { split; [right; split; [apply not_elem_of_nil|done]|].
    intros [(?&Hin&_)|[_ ?]]; [by apply not_elem_of_nil in Hin|done]. }
  apply NoDup_cons in Hnd as [Hni Hnd]. rewrite (IH _ Hnd). split.
  - intros [(x&Hin&Hc&He)|[Hno Hl]]; [left; exists x; by rewrite elem_of_cons; auto|].
    apply lookup_insert_Some in Hl as [[<- <-]|[Hne Hl]].
    + left. exists ct. by rewrite elem_of_cons; auto.
    + right. split; [|done]. rewrite not_elem_of_cons. by split.
  - intros [(x&[->|Hin]%elem_of_cons&Hc&He)|[Hno Hl]].
    + right. subst c. split; [done|]. rewrite lookup_insert_eq. by subst.
    + left. eauto.
    + rewrite not_elem_of_cons in Hno. destruct Hno. right. split; [done|].
      by rewrite lookup_insert_ne.
Qed.

Lemma contests_exact contests :
  NoDup (Contest <$> contests) →
  (∀ c e, foldl (λ m ct, <[Contest ct := E ct]> m) (∅ : gmap string Z) contests !! c = Some e → e = 0) ↔
  Forall (λ ct, E ct = 0) contests.
Proof.
  intros Hnd. setoid_rewrite (last_contest_E contests ∅ _ _ Hnd). rewrite Forall_forall. split.
  - intros Hall ct Hin. apply (Hall (Contest ct)). left. eauto.
  - intros Hall c e [(ct&Hin&_&<-)|[_ Hl]]; [by apply Hall|by rewrite lookup_empty in Hl].
Qed.

Lemma Reconcile_ok s c e : Reconcile s c e = Ok tt ↔ c = s ∧ c = e.
Proof.
  unfold Reconcile. destruct (Z.eqb_spec c s), (Z.eqb_spec c e); cbn; naive_solver.
Qed.

(** What [Verify]'s verdict on an on-chain run's metrics means. *)
Lemma verdict_passes c contests err lc journal sm :
  NoDup (Contest <$> contests) → SJournalError sm = ""%string →
  Journal.Failed (verdict c contests err lc journal (Some sm)) = false ↔
  err = None ∧ ballotStageErr journal = None ∧
  (Config.Mode c = "onchain"%string → 0 < wrap64 (Config.Voters c * Config.Positions c) →
     SSubmitted sm ≠ 0) ∧
  SDropped sm ≤ 0 ∧ SCommitted sm = SSubmitted sm ∧
  SCommitted sm = (if SBounded sm then SSubmitted sm else SExpected sm) ∧
  (SStopped sm = true → SBounded sm = true) ∧ Forall (λ ct, E ct = 0) contests.
Proof.
  intros Hnd Hj. unfold verdict. rewrite JournalFacts.Finalise_clean, <-(contests_exact _ Hnd).
  unfold finaliseInput. destruct (segmentsFromJournal journal) as [sg rs]. rewrite Hj. cbn.
  assert (Hstage : (match err with Some e => Some e | None => ballotStageErr journal end = None) ↔
            err = None ∧ ballotStageErr journal = None) by (destruct err; naive_solver).
  set (r := Reconcile _ _ _).
  assert (Hr : match r with Ok _ => true | Err _ => false end = true ↔
            SCommitted sm = SSubmitted sm ∧
            SCommitted sm = (if SBounded sm then SSubmitted sm else SExpected sm)).
  { rewrite <-Reconcile_ok. fold r. destruct r as [[]|]; naive_solver. }
  assert (Hn : (String.eqb (Config.Mode c) "onchain" &&
      (0 <? wrap64 (Config.Voters c * Config.Positions c)) && (SSubmitted sm =? 0) = false) ↔
      (Config.Mode c = "onchain"%string → 0 < wrap64 (Config.Voters c * Config.Positions c) →
       SSubmitted sm ≠ 0)).
  { rewrite !andb_false_iff. destruct (String.eqb_spec (Config.Mode c) "onchain"),
      (Z.ltb_spec 0 (wrap64 (Config.Voters c * Config.Positions c))), (Z.eqb_spec (SSubmitted sm) 0);
      split; try tauto; try lia; intros Hx; exfalso; by apply Hx. }
  rewrite <-Hn. split.
  - intros [Hst Hs Hd Hrec He Hw]. cbn in *. apply Hr in Hrec as [??]. destruct err; cbn in Hst; tauto.
  - intros (->&Hst&Hs&Hd&H1&H2&Hw&He). split; cbn; try done. by apply Hr.
Qed.

(** ** A run of one window *)

(** The events of the other stages. *)
Definition elsewhere (ev : event) : Prop :=
  ResumePlan.opens ev = false ∧ ResumePlan.ends ev = false ∧
  kind ev ≠ "segment.start"%string ∧ kind ev ≠ "segment.end"%string.

Lemma scan_elsewhere s evs :
  Forall elsewhere evs →
  let s' := foldl scan_event s evs in
  open s' = open s ∧ resumed s' = resumed s ∧ segs s' = segs s ∧ endDropped s' = endDropped s.
Proof.
  intros He. revert s. induction He as [|ev evs (Ho&Hen&Hs1&Hs2) _ IH]; intros s; [done|].
  cbn [foldl]. destruct (IH (scan_event s ev)) as (->&->&->&->).
  unfold ResumePlan.opens in Ho. apply orb_false_iff in Ho as [[H1 H2]%orb_false_iff H3].
  unfold ResumePlan.ends in Hen. unfold scan_event. rewrite H1, H2, H3, Hen.
  rewrite (proj2 (String.eqb_neq _ _) Hs1), (proj2 (String.eqb_neq _ _) Hs2).
  by destruct (String.eqb (kind ev) "interrupted_at").
Qed.

Lemma segments_resumed evs :
  (segmentsFromJournal (Ok evs)).2 = resumed (foldl scan_event scan0 evs).
Proof.
  unfold segmentsFromJournal. induction evs as [|ev evs IH] using rev_ind; [done|].
  rewrite !foldl_app. cbn [foldl]. unfold scan_event at 1.
  destruct (String.eqb_spec (kind ev) "segment.end") as [->|]; [done|].
  destruct (String.eqb_spec (kind ev) "segment.start") as [->|]; cbn.
  - rewrite <-IH. destruct (1 <=? jint ev "index"); cbn; by rewrite ?orb_true_r, ?orb_false_r.
  - rewrite IH. by repeat case_match.
Qed.

(** What the journal of a run with one window says. *)
Lemma jint_head k fs key z : jint (MkEvent k (list_to_map ((key, Journal.JNum z) :: fs))) key = z.
Proof. unfold jint. cbn [fields list_to_map foldr fst snd]. by rewrite lookup_insert_eq. Qed.

Lemma scan_window_end s fs i :
  let s' := scan_event s (stampWindowEnd fs i) in
  open s' = i ∧ resumed s' = resumed s ∧ segs s' = segs s.
Proof. by destruct i. Qed.

Lemma scan_segment_end s sg :
  let s' := scan_event s (stampSegmentEnd sg) in
  open s' = open s ∧ resumed s' = resumed s ∧ segs s' = segs s ++ [sg].
Proof.
  split; [done|]. split; [done|].
  change (segs s ++ [segmentFromEvent (stampSegmentEnd sg)] = segs s ++ [sg]).
  by rewrite ResumePlan.segment_round_trip.
Qed.

Lemma one_window_scan pre n conc rate b0 tag ps res f bounded fired b1 post :
  Forall elsewhere pre → Forall (λ ev, kind ev = "ballots.progress"%string) ps →
  Forall elsewhere post →
  let s := foldl scan_event scan0
    (pre ++ window_opening n conc rate b0 tag ++ ps ++ window_closing res f bounded fired b1 ++ post) in
  open s = (Stopped res && negb bounded) ∧ resumed s = false ∧
  segs s = [segmentOf 0 f (Bench.Committed res)].
Proof.
  intros Hpre Hps Hpost. cbn zeta. rewrite !foldl_app.
  destruct (scan_elsewhere scan0 pre Hpre) as (_&Hr&Hs&_).
  set (s0 := foldl scan_event scan0 pre) in *. cbn in Hr, Hs.
  destruct (scan_elsewhere (foldl scan_event (foldl scan_event (foldl scan_event s0
    (window_opening n conc rate b0 tag)) ps) (window_closing res f bounded fired b1)) post Hpost)
    as (->&->&->&_).
  unfold window_opening. cbn [foldl].
  rewrite ResumePlan.scan_ballots_start, ResumePlan.scan_segment_start, jint_head.
  rewrite (ResumePlan.scan_progress _ ps); [|done|done].
  unfold window_closing. cbn [foldl].
  match goal with |- context [scan_event (scan_event ?s1 ?e1) (stampSegmentEnd ?sg)] =>
    destruct (scan_segment_end (scan_event s1 e1) sg) as (->&->&->) end.
  match goal with |- context [scan_event ?s1 (stampWindowEnd ?fs ?i)] =>
    destruct (scan_window_end s1 fs i) as (->&->&->) end.
  cbn. rewrite Hr, Hs. done.
Qed.

(** The window ran to its last ballot: [fired] is whether the peer fault did,
    and then a lost ballot leaves it unfinished. *)
Definition whole_window (n : nat) (fired : bool) (evs : list (nat * (Z * bool))) : Prop :=
  length evs = n ∧ (fired = true → Forall (λ ev, ev.2.2 = true) evs).

(** What holds of the verdict [v] on a window of [n] ballots with completions
    [evs]: [err] is the audit's failure, [stage] that of the stages before. *)
Record window_verdict (c : Config.ElectionConfig) (n : nat) (fired : bool) (evs : list (nat * (Z * bool)))
    (contests : list ContestCorrectness) (err stage : option goerr) (f : figures) (bounded : bool)
    (v : Journal.FinaliseResult) (resume : result resumePlan) : Prop := {
  wv_passes : Journal.Failed v = false ↔
    err = None ∧ stage = None ∧
    (Config.Mode c = "onchain"%string → 0 < wrap64 (Config.Voters c * Config.Positions c) → evs ≠ []) ∧
    Forall (λ ev, ev.2.2 = true) evs ∧ (length evs = n ∨ bounded = true) ∧
    Forall (λ ct, E ct = 0) contests;
  wv_sustained : ∀ t, Journal.SustainedTPS v = Some t ↔
    t = tps f ∧ whole_window n fired evs ∧ ms f ≠ 0 ∧ Config.securityRun c = false;
  wv_resumable : Config.Mode c = "onchain"%string →
    ((∃ plan, resume = Ok plan) ↔ ¬ whole_window n fired evs ∧ bounded = false) ∧
    ((∃ plan, resume = Ok plan) → Journal.Failed v = true)
}.

Lemma all_succeeded evs :
  length (filter (λ ev : nat * (Z * bool), ev.2.2 = false) evs) = 0%nat ↔
  Forall (λ ev : nat * (Z * bool), ev.2.2 = true) evs.
Proof.
  split.
  - intros Hl%nil_length_inv. apply Forall_forall. intros ev Hin.
    destruct (ev.2.2) eqn:Hb; [done|]. exfalso. apply (not_elem_of_nil ev). rewrite <-Hl.
    by apply list_elem_of_filter.
  - induction 1 as [|ev evs Hev _ IH]; [done|]. rewrite filter_cons, decide_False; [done|congruence].
Qed.

#[local] Arguments segmentsFromJournal : simpl never.

Lemma after_fault_fields fired res :
  Submitted (after_fault fired res) = Submitted res ∧
  Bench.Committed (after_fault fired res) = Bench.Committed res ∧
  Bench.Dropped (after_fault fired res) = Bench.Dropped res ∧
  (Bench.Dropped res = 0 → after_fault fired res = res).
Proof.
  unfold after_fault. destruct fired; cbn; [|done].
  destruct (Z.ltb_spec 0 (Bench.Dropped res)); cbn; split_and!; try done; lia.
Qed.

(** A window is stopped exactly when it is not whole. *)
Lemma stopped_window n evs res fired :
  accounted n evs res → Stopped (after_fault fired res) = false ↔ whole_window n fired evs.
Proof.
  intros Ha. pose proof (acc_stopped _ _ _ Ha) as Hst. rewrite (acc_submitted _ _ _ Ha) in Hst.
  unfold whole_window. rewrite <-all_succeeded. pose proof (acc_dropped _ _ _ Ha) as Hd.
  unfold after_fault. destruct fired; cbn [andb]; [|rewrite Hst; split; [intros ?; split; [lia|done]|intros [? _]; lia]].
  destruct (Z.ltb_spec 0 (Bench.Dropped res)); cbn [Stopped].
  - split; [done|]. intros [_ H0]. specialize (H0 eq_refl). lia.
  - rewrite Hst. split; [intros ?; split; [lia|intros _; lia]|intros [? _]; lia].
Qed.

(** The rate is published of one whole segment, and only of it. *)
Lemma sustained_rate f sg :
  Journal.Segments f = [sg] →
  ∀ t, Journal.SustainedTPS (Journal.Finalise f) = Some t ↔
    t = Journal.TPS sg ∧ Journal.Interrupted f = false ∧ Journal.Resumed f = false ∧
    Journal.WindowMs sg ≠ 0 ∧ Journal.SecurityRun f = false.
Proof.
  intros Hs t. unfold Journal.Finalise. rewrite Hs. destruct (Journal.runFailed f) as [b w]. cbn.
  destruct (Journal.Interrupted f), (Journal.Resumed f), (Journal.SecurityRun f); cbn; try (split; [done|naive_solver]).
  destruct (Z.eqb_spec (Journal.WindowMs sg) 0); cbn; naive_solver.
Qed.

Lemma window_passes n evs res fired bounded f :
  accounted n evs res →
  let res' := after_fault fired res in
  let sm := writeSubmitMetrics f res' (Z.of_nat n) bounded in
  (SDropped sm ≤ 0 ∧ SCommitted sm = SSubmitted sm ∧
   SCommitted sm = (if SBounded sm then SSubmitted sm else SExpected sm) ∧
   (SStopped sm = true → SBounded sm = true)) ↔
  Forall (λ ev, ev.2.2 = true) evs ∧ (length evs = n ∨ bounded = true).
Proof.
  intros Ha. cbn. destruct (after_fault_fields fired res) as (->&->&->&Hsame).
  rewrite <-all_succeeded. pose proof (outcomes_split evs) as Hsum.
  rewrite (acc_dropped _ _ _ Ha) in *. rewrite (acc_committed _ _ _ Ha), (acc_submitted _ _ _ Ha).
  pose proof (acc_stopped _ _ _ Ha) as Hst. rewrite (acc_submitted _ _ _ Ha) in Hst.
  split.
  - intros (Hd&Hc&He&Hs). split; [lia|]. destruct bounded; [by right|left; lia].
  - intros [Hd Hn]. rewrite Hsame by lia. split; [lia|]. split; [lia|].
    destruct bounded; [split; [lia|done]|]. destruct Hn as [Hn|]; [|done].
    split; [lia|]. rewrite (proj2 Hst) by lia. done.
Qed.

(** The verdict on a run of one ballot window is the right one, from the
    window's completions to [run.end]. Whatever happened in the window, in the
    stages around it and in the audit: the run passes exactly when the audit and
    the stages reported no failure, at least one ballot was submitted (if any
    was due), every submission committed, the window covered its ballots or
    reached its own time bound, and the audit found every contest exact; a
    sustained rate is published exactly of a whole, unperturbed window that took
    time; and a resume is offered exactly where the window is not whole and did
    not end at its bound, and then the run has failed. *)
Theorem one_window_verdict n evs res fired cancelled c f contests err lc pre rate b0 tag ps b1 post closed :
  accounted n evs res → NoDup (Contest <$> contests) →
  let res' := after_fault fired res in
  let bounded := windowWasBounded cancelled c res' in
  let sm := writeSubmitMetrics f res' (Z.of_nat n) bounded in
  let journal := Ok (pre ++ window_opening (Z.of_nat n) (Config.submitConcurrency c) rate b0 tag ++ ps ++
    window_closing res' f bounded fired b1 ++ post) in
  Forall elsewhere pre → Forall (λ ev, kind ev = "ballots.progress"%string) ps → Forall elsewhere post →
  window_verdict c n fired evs contests err (ballotStageErr journal) f bounded
    (verdict c contests err lc journal (Some sm)) (planResume (Config.Mode c) journal closed).
Proof.
  intros Ha Hnd res' bounded sm journal Hpre Hps Hpost.
  destruct (one_window_scan pre (Z.of_nat n) (Config.submitConcurrency c) rate b0 tag ps res' f
              bounded fired b1 post Hpre Hps Hpost) as (Hopen&Hres&Hsegs).
  pose proof (verdict_passes c contests err lc journal sm Hnd eq_refl) as Hpass.
  pose proof (window_passes n evs res fired bounded f Ha) as Hwin. cbn zeta in Hwin.
  fold res' in Hwin. fold sm in Hwin. pose proof (stopped_window n evs res fired Ha) as Hstop. fold res' in Hstop.
  assert (Hsub : SSubmitted sm ≠ 0 ↔ evs ≠ []).
  { cbn. unfold res'. destruct (after_fault_fields fired res) as (->&_).
    rewrite (acc_submitted _ _ _ Ha). destruct evs; cbn; split; try done; lia. }
  assert (Hs1 : segmentsFromJournal journal = ([segmentOf 0 f (Bench.Committed res')], false)).
  { rewrite (surjective_pairing (segmentsFromJournal journal)). unfold journal.
    by rewrite ResumePlan.segments_scan, segments_resumed, Hsegs, Hres. }
  split.
  - rewrite Hpass, Hsub. tauto.
  - intros t. unfold verdict. rewrite (sustained_rate _ (segmentOf 0 f (Bench.Committed res'))) by
      (unfold finaliseInput; by rewrite Hs1).
    unfold finaliseInput. rewrite Hs1. cbn. fold res'. rewrite Hstop. tauto.
  - intros Hmode.
    assert (Hplan : (∃ plan, planResume (Config.Mode c) journal closed = Ok plan) ↔ Stopped res' && negb bounded = true).
    { unfold planResume, journal. rewrite (proj2 (String.eqb_eq _ _) Hmode). cbn [wrap_err rbind].
      rewrite Hopen, Hres. destruct (Stopped res' && negb bounded); cbn; split; eauto; [by intros [? [=]]|done]. }
    rewrite Hplan, <-Hstop, andb_true_iff, negb_true_iff, not_false_iff_true. split; [done|].
    intros [Hs Hb]. apply not_false_is_true. intros Hf. apply Hpass in Hf as (_&_&_&_&_&_&Hx&_). cbn in Hx.
    specialize (Hx Hs). congruence.
Qed.

(** ** Example: two ballots, both committed *)
Definition example_config : Config.ElectionConfig :=
  Config.MkElectionConfig "E" [Config.MkTrustee "A"] 1 1 2 2 "uniform" "onchain" 1 8 Config.f_zero
    Config.f_zero None false None None.

Definition example_window : RunResult :=
  MkRunResult 2 2 0 [5; 6] 20 false 1 [5; 6] [true; true] 8.

Definition example_evs : list (nat * (Z * bool)) := [(1%nat, (6, true)); (0%nat, (5, true))].

Definition example_figures : figures := MkFigures 20 (float_of_Z 100) (float_of_Z 5) (float_of_Z 900).

Definition example_contests : list ContestCorrectness :=
  [MkContest "p/a" 1 1 0 true 1 "" ""; MkContest "p/b" 1 1 0 true 1 "" ""].

Lemma example_accounted : accounted 2 example_evs example_window.
Proof.
  split; try done; try (vm_compute; discriminate); [apply Permutation_swap|cbn; apply Permutation_swap|].
  repeat constructor.
Qed.

Lemma one_window_verdict_witness :
  let journal := Ok ([MkEvent "run.start" ∅] ++ window_opening 2 8 Config.f_zero None None ++ [] ++
    window_closing example_window example_figures false false None ++
    [MkEvent "stage.submit.end" {["ok" := Journal.JBool true]}]) in
  let v := verdict example_config example_contests None None journal
             (Some (writeSubmitMetrics example_figures example_window 2 false)) in
  Journal.Failed v = false ∧
  window_verdict example_config 2 false example_evs example_contests None (ballotStageErr journal) example_figures false v
    (planResume "onchain" journal false).
Proof.
  split; [vm_compute; reflexivity|].
  apply (one_window_verdict 2 example_evs example_window false false example_config
    example_figures example_contests None None [MkEvent "run.start" ∅] Config.f_zero None None [] None
    [MkEvent "stage.submit.end" {["ok" := Journal.JBool true]}] false).
  - apply example_accounted.
  - apply (bool_decide_unpack _). vm_compute. reflexivity.
  - repeat constructor; discriminate.
  - constructor.
  - repeat constructor; discriminate.
Defined.
End Verdict.
