(* ===== verification/LedgerDump.v ===== *)
(** * Reading a run back from the ledger

    [saksi-campaign/ledger_dump.go]: the dump of an election's ballots in the
    chain's order, batched or one at a time on older chaincode, the header
    rebuilt from what the chain publishes, and the order-independent comparison
    of the dump with the console's own record. *)
From S2P Require Import Prelude Hex Wire Fabric Contract GoText Ballots Receipts Client Resume Verdict.
From stdpp Require Import sorting.
#[local] Open Scope Z_scope.
Import GoText.

Module LedgerDump.

Definition ledgerReadBatched : string := "batched".

Definition ledgerReadPerBallot : string := "per-ballot".

Section dump.
Context {Σ : Type} `{Gateway Σ, Json}.
(** The text of an error: [err.Error()]. *)
Variable error_text : goerr → string.

(** [clientsdk.UnknownChaincodeFunction] of an error. *)
Definition UnknownChaincodeFunction (err : goerr) : bool :=
  let msg := ToLower (error_text err) in
  str_contains msg "not found in contract" || str_contains msg "function not found".

(** One ballot at a time. *)
Fixpoint read_each (electionID : string) (nuls : list string) : G Σ (list string) :=
  match nuls with
  | [] => gret (Ok [])
  | nul :: nuls =>
      let* line := gwrap (λ e, Errorf "get ballot %s: %w" [AStr nul; AErr e])
                     (Client.GetBallot electionID nul) in
      let* rest := read_each electionID nuls in
      gret (Ok (line :: rest))
  end.

(** A nullifier the chain lists has a ballot. *)
Fixpoint check_lines (chunk lines : list string) : result unit :=
  match chunk, lines with
  | nul :: chunk, line :: lines =>
      if bool_decide (line = "") then
        Err (Errorf "get ballot %s: the chain holds no ballot for a nullifier it lists as committed"
               [AStr nul])
      else check_lines chunk lines
  | _, _ => Ok tt
  end.

(** The chunks of a page: what is left, whether reads are batched, the lines
    written so far. *)
Fixpoint dump_chunks (fuel : nat) (electionID : string) (batched : bool) (rest lines : list string)
    (s : Σ) : option (result (bool * list string)) * Σ :=
  match fuel with
  | O => (None, s)
  | S fuel =>
      match rest with
      | [] => (Some (Ok (batched, lines)), s)
      | _ =>
          let n := if batched then Nat.min (length rest) (Z.to_nat Client.BallotBatchSize)
                   else length rest in
          let chunk := take n rest in
          let write (ls : list string) s :=
            match check_lines chunk ls with
            | Err e => (Some (Err e), s)
            | Ok _ => dump_chunks fuel electionID batched (drop n rest) (lines ++ ls) s
            end in
          if batched then
            match Client.GetBallots electionID chunk s with
            | (Ok ls, s) => write ls s
            | (Err e, s) =>
                if UnknownChaincodeFunction e then dump_chunks fuel electionID false rest lines s
                else (Some (Err (Errorf "get ballots: %w" [AErr e])), s)
            end
          else
            match read_each electionID chunk s with
            | (Ok ls, s) => write ls s
            | (Err e, s) => (Some (Err e), s)
            end
      end
  end.

(** The walk over the pages; [None] when it has not finished within [fuel]. *)
Fixpoint dump_pages (fuel : nat) (electionID bookmark : string) (batched : bool)
    (lines : list string) (s : Σ) : option (result (list string * string)) * Σ :=
  match fuel with
  | O => (None, s)
  | S fuel =>
      match Client.ListNullifiers electionID Client.nullifierPageSize bookmark s with
      | (Err e, s) => (Some (Err (Errorf "list committed nullifiers: %w" [AErr e])), s)
      | (Ok page, s) =>
          (* each turn shortens the page, but for the one that falls back *)
          match dump_chunks (length (Nullifiers page) + 2) electionID batched (Nullifiers page)
                  lines s with
          | (None, s) => (None, s)
          | (Some (Err e), s) => (Some (Err e), s)
          | (Some (Ok (batched, lines)), s) =>
              if bool_decide (NextBookmark page = "") || bool_decide (NextBookmark page = bookmark)
              then (Some (Ok (lines, if batched then ledgerReadBatched else ledgerReadPerBallot)), s)
              else dump_pages fuel electionID (NextBookmark page) batched lines s
          end
      end
  end.

Definition dumpLedgerBallots (fuel : nat) (electionID : string) (s : Σ) :
    option (result (list string * string)) * Σ :=
  dump_pages fuel electionID "" true [] s.

(** ** The header *)
Record header := MkLedgerHeader {
  election_id : string; params : string; dkg : string; tally : string;
  partial_decryptions : list string; hn : nat; voter_ids : list string
}.

Definition ledgerVoterIDs (local : list string) (n : nat) : list string :=
  let out := take n local in
  out ++ map (λ i, "chain-publishes-none-" +:+ Itoa (Z.of_nat i)) (seq (length out) (n - length out)).

Fixpoint partials_of (electionID contest : string) (trustees : list string) : G Σ (list string) :=
  match trustees with
  | [] => gret (Ok [])
  | t :: trustees => λ s,
      let '(r, s) := Client.GetPartialDecryption electionID contest t s in
      match partials_of electionID contest trustees s with
      | (Ok rest, s) =>
          (Ok match r with
              | Ok pd => if bool_decide (pd = "") then rest else pd :: rest
              | Err _ => rest
              end, s)
      | (Err e, s) => (Err e, s)
      end
  end.

Fixpoint partials_of_contests (electionID : string) (contests trustees : list string) :
    G Σ (list string) :=
  match contests with
  | [] => gret (Ok [])
  | c :: contests =>
      let* here := partials_of electionID c trustees in
      let* rest := partials_of_contests electionID contests trustees in
      gret (Ok (here ++ rest))
  end.

Definition chainPartials `{Proto} (electionID paramsHex : string) : G Σ (list string) :=
  let* raw := gret (wrap_err (errw "on-chain election parameters are not hex: %w")
                      (DecodeString paramsHex)) in
  let* p := gret (wrap_err (errw "decode on-chain election parameters: %w")
                    (UnmarshalElectionParameters raw)) in
  partials_of_contests electionID (ElectionParameters.ContestIds p) (ElectionParameters.TrusteeIds p).

(** [own] is the voter-id list of the run's own header, or why it cannot be read. *)
Definition writeLedgerHeader `{Proto} (own : result (list string)) (electionID : string) (n : nat) :
    G Σ header :=
  let* ids := gret (wrap_err (errw "read header.json to build the ledger header: %w") own) in
  let* params := gwrap (errw "get election: %w") (Client.GetElection electionID) in
  let* dkg := gwrap (errw "get DKG transcript: %w") (Client.GetDKGTranscript electionID) in
  let* tally := gwrap (errw "get tally: %w") (Client.GetTally electionID) in
  let* partials := chainPartials electionID params in
  gret (Ok (MkLedgerHeader electionID params dkg tally partials n (ledgerVoterIDs ids n))).

(** The dump: on an error nothing is left on disk. *)
Definition dumpLedger `{Proto} (fuel : nat) (own : result (list string)) (electionID : string) (s : Σ) :
    option (result (header * list string * string)) * Σ :=
  match dumpLedgerBallots fuel electionID s with
  | (None, s) => (None, s)
  | (Some (Err e), s) => (Some (Err e), s)
  | (Some (Ok (lines, path)), s) =>
      match writeLedgerHeader own electionID (length lines) s with
      | (Ok h, s) => (Some (Ok (h, lines, path)), s)
      | (Err e, s) => (Some (Err e), s)
      end
  end.
End dump.

(** ** Comparing the two records *)
Section compare.
Context `{Sha256, Proto}.

(** [big.Int.SetBytes]: big-endian. *)
Definition SetBytes (b : bytes) : Z := le_value (rev b).

(** [FillBytes] of a 32-byte array. *)
Definition FillBytes (z : Z) : bytes := rev (le_bytes 32 z).

Definition digest_line (i : nat) (line : string) (acc : Z * Z) : result (Z * Z) :=
  let? raw := wrap_err (λ e, Errorf "ballot %d is not hex: %w" [AInt (Z.of_nat i); AErr e])
                (DecodeString line) in
  let? b := wrap_err (λ e, Errorf "decode ballot %d: %w" [AInt (Z.of_nat i); AErr e])
              (UnmarshalBallot raw) in
  let term := Sum256 (NullifierValue (Ballot.CredentialPresentation b)) in
  Ok (acc.1 + SetBytes term, acc.2 + 1).

Definition nullifierSetDigest (f : Ballots.stream) : result string :=
  let? r := Ballots.scanBallotLines f digest_line (0, 0) in
  Ok (EncodeToString (Sum256 (le_bytes 8 r.2 ++ FillBytes (r.1 mod 2 ^ 256)))).

(** [strings.Join] with a newline. *)
Fixpoint join_lines (l : list string) : string :=
  match l with
  | [] => ""
  | [x] => x
  | x :: l => x +:+ str_of [10]%nat +:+ join_lines l
  end.

Definition aggregateDigest (contests : list Verdict.ContestCorrectness) : string :=
  let rows := map (λ c, Verdict.Contest c +:+ "=" +:+ Verdict.AggregateCiphertext c) contests in
  EncodeToString (Sum256 (bytes_of_string (join_lines (merge_sort str_le rows)))).

Definition compareLedger (own ledger : Ballots.stream)
    (local_audit ledger_audit : list Verdict.ContestCorrectness) : result bool :=
  let? localNulls := nullifierSetDigest own in
  let? ledgerNulls := nullifierSetDigest ledger in
  Ok (String.eqb localNulls ledgerNulls &&
      String.eqb (aggregateDigest local_audit) (aggregateDigest ledger_audit)).
End compare.
End LedgerDump.
