(* ===== verification/LedgerDumpFacts.v ===== *)
(** * What the ledger dump guarantees

    The dump of an election's ballots terminates and holds exactly the ballots
    the chain recorded, whichever read path served it; and its comparison with
    the console's record does not depend on the order of either. *)
From S2P Require Import Prelude Fabric Hex Wire Ristretto.
From S2P Require Import CdsVerify CredVerify SelectionVerify SigVerify Contract BoardSpec.
From S2P Require Import HandlerFacts Ledger Receipts Client ClientFacts GoText Ballots Verdict LedgerDump.
From stdpp Require Import pretty sorting.
#[local] Open Scope Z_scope.
Import GoText.

Module LedgerDumpFacts.
Import LedgerDump.

(** ** Text without spaces *)
Definition plain (c : Ascii.ascii) : bool := (33 <=? Ascii.nat_of_ascii c)%nat && (Ascii.nat_of_ascii c <=? 126)%nat.

Lemma prefix_plain s e : has_prefix s e = true → str_forallb plain s = true → str_forallb plain e = true.
Proof.
  revert s. induction e as [|p e IH]; intros [|c s]; cbn; try done.
  rewrite !andb_true_iff. intros [Hp%bool_decide_eq_true Hs] [Hc Hps]. subst. split; [done|]. by apply (IH s).
Qed.

Lemma drop_plain n s : str_forallb plain s = true → str_forallb plain (str_drop n s) = true.
Proof.
  revert s. induction n as [|n IH]; intros [|c s]; try done. cbn. rewrite andb_true_iff.
  intros [_ Hs]. by apply IH.
Qed.

Lemma spaces_not_plain : Forall (λ e, str_forallb plain e = false) space_encodings.
Proof. repeat constructor. Qed.

Lemma TrimSpace_plain s : str_forallb plain s = true → TrimSpace s = s.
Proof.
  intros Hs. unfold TrimSpace.
  assert (Hl : find (has_prefix s) space_encodings = None).
  { destruct (find (has_prefix s) space_encodings) as [e|] eqn:E; [|done]. apply List.find_some in E as [Hin%list_elem_of_In Hp].
    apply prefix_plain in Hp; [|done]. pose proof spaces_not_plain as Hf.
    rewrite Forall_forall in Hf. specialize (Hf e Hin). congruence. }
  assert (Hr : find (has_suffix s) space_encodings = None).
  { destruct (find (has_suffix s) space_encodings) as [e|] eqn:E; [|reflexivity].
    apply List.find_some in E as [Hin%list_elem_of_In Hp].
    unfold has_suffix in Hp. apply andb_true_iff in Hp as [_ Hp%String.eqb_eq].
    pose proof spaces_not_plain as Hf. rewrite Forall_forall in Hf. specialize (Hf e Hin).
    assert (Ht : str_forallb plain e = true) by (rewrite <-Hp; by apply drop_plain). congruence. }
  assert (trim_left (String.length s) s = s) as -> by (destruct s; cbn [String.length trim_left]; [|rewrite Hl]; done).
  destruct s; cbn [String.length trim_right]; [|rewrite Hr]; done.
Qed.

Lemma plain_hex b : str_forallb plain (EncodeToString b) = true.
Proof.
  unfold EncodeToString. pose proof (hex_encode_chars b) as Hc. revert Hc.
  generalize (hex_encode b). intros l Hl. induction Hl as [|c l Hc _ IH]; [done|].
  change (plain (Ascii.ascii_of_byte c) && str_forallb plain (string_of_bytes l) = true).
  rewrite IH, andb_true_r. by destruct c.
Qed.

Lemma TrimSpace_hex b : TrimSpace (EncodeToString b) = EncodeToString b.
Proof. apply TrimSpace_plain, plain_hex. Qed.

(** ** Comparing *)
Section compare.
Context `{Sha256, Proto}.

(** The nullifier a line carries. *)
Definition line_value (line : string) : option bytes :=
  match DecodeString (TrimSpace line) with
  | Ok raw => match UnmarshalBallot raw with
              | Ok b => Some (NullifierValue (Ballot.CredentialPresentation b))
              | Err _ => None
              end
  | Err _ => None
  end.

Definition sum_values (vs : list bytes) : Z := foldr (λ v z, SetBytes (Sum256 v) + z) 0 vs.

Lemma digest_scan ls i acc vs :
  mapM line_value ls = Some vs →
  Ballots.scan_from digest_line i ls None acc = Ok (acc.1 + sum_values vs, acc.2 + Z.of_nat (length vs)).
Proof.
  revert i acc vs. induction ls as [|l ls IH]; intros i [a n] vs.
  - intros [= <-]. cbn. by rewrite !Z.add_0_r.
  - cbn [mapM]. destruct (line_value l) as [v|] eqn:Hl; [|done]. cbn [mbind option_bind].
    destruct (mapM line_value ls) as [vs'|] eqn:Hvs; [|done]. intros [= <-].
    unfold line_value in Hl. cbn [Ballots.scan_from]. unfold digest_line at 1.
    destruct (DecodeString (TrimSpace l)) as [raw|]; [|done]. cbn [wrap_err rbind].
    destruct (UnmarshalBallot raw) as [b|]; [|done]. injection Hl as <-. cbn [wrap_err rbind].
    rewrite (IH _ _ vs' eq_refl). cbn [fst snd length].
    rewrite Nat2Z.inj_succ. apply f_equal, f_equal2; [|lia].
    unfold sum_values. cbn [foldr]. lia.
Qed.

(** The digest of a readable file is a function of its nullifiers, in any order. *)
Lemma nullifierSetDigest_perm f f' vs vs' :
  Ballots.scan_err f = None → Ballots.scan_err f' = None →
  mapM line_value (Ballots.lines f) = Some vs → mapM line_value (Ballots.lines f') = Some vs' →
  vs ≡ₚ vs' → ∃ d, nullifierSetDigest f = Ok d ∧ nullifierSetDigest f' = Ok d.
Proof.
  intros He He' Hv Hv' Hp. unfold nullifierSetDigest, Ballots.scanBallotLines. rewrite He, He'.
  rewrite (digest_scan _ _ _ _ Hv), (digest_scan _ _ _ _ Hv'). cbn.
  assert (sum_values vs = sum_values vs') as ->.
  { clear -Hp. unfold sum_values. induction Hp; cbn [foldr]; lia. }
  rewrite (Permutation_length Hp). eauto.
Qed.
End compare.

(** ** Dumping *)
Section dump.
Context `{FabricShimLaws, Proto, Ristretto, Merlin, !Json, !JsonLaws}.
Context {Σ : Type} `{!Gateway Σ, !ChainPages Σ}.
Variable error_text : goerr → string.

(** The chaincode serves batches, *)
Definition answers_batches : Prop := ∀ s e arg,
  answers "GetBallots" [e; arg] s (evaluate (Contract.GetBallots e arg) (healthy (chain s))).

(** ... or is older and serves single ballots only. *)
Definition lacks_batches : Prop :=
  (∀ s e arg, ∃ err, EvaluateTransaction "GetBallots" [e; arg] s = (Err err, s) ∧
     UnknownChaincodeFunction error_text (errw "get ballots: %w" err) = true) ∧
  (∀ s e n, answers "GetBallot" [e; n] s (evaluate (Contract.GetBallot e n) (healthy (chain s)))).

Lemma GetBallot_run w B e n raw :
  represents w B → B !! KBallot e n = Some raw →
  evaluate (Contract.GetBallot e n) (healthy w) = Ok (EncodeToString raw).
Proof.
  intros HB Hraw. destruct (rep_records _ _ HB (KBallot e n)) as [k Hk]; [eauto|].
  rewrite <- (rep_lookup _ _ HB _ _ Hk) in Hraw. unfold evaluate, Contract.GetBallot.
  assert (∃ t', Contract.get_record "build ballot key: %w" "read ballot state: %w"
    Contract.ballotIndex [e; n]
    (Errorf "no ballot found for election %q nullifier %q" [AStr e; AStr n]) (healthy w) tx_start =
    Ok (EncodeToString raw, t')) as [t' ->]; [|done].
  eexists. unfold Contract.get_record. handler_run. reflexivity.
Qed.

(** Nullifiers the chain lists, each with its ballot. *)
Definition listed (B : board) (e : string) (n : string) : Prop :=
  utf8 n ∧ ∃ raw, B !! KBallot e n = Some raw ∧ raw ≠ [].

Lemma check_lines_ok B e nuls :
  Forall (listed B e) nuls → check_lines nuls (ballot_text B e <$> nuls) = Ok tt.
Proof.
  induction 1 as [|n ns (_&raw&Hraw&Hne) _ IH]; [done|]. cbn [fmap list_fmap check_lines].
  rewrite bool_decide_false; [done|]. rewrite (ballot_text_Some _ _ _ _ Hraw).
  intros He. apply Hne, (EncodeToString_inj raw []). by rewrite He.
Qed.

Lemma read_each_ok (s : Σ) B e nuls :
  lacks_batches → represents (chain s) B → Forall (listed B e) nuls →
  read_each e nuls s = (Ok (ballot_text B e <$> nuls), s).
Proof.
  intros [_ Hone] HB. induction 1 as [|n ns (_&raw&Hraw&_) _ IH]; [done|].
  cbn [read_each fmap list_fmap]. unfold gbind, gwrap, Client.GetBallot, Client.evaluate_op, gwrap.
  pose proof (Hone s e n) as Hev. rewrite (GetBallot_run _ _ _ _ _ HB Hraw) in Hev. cbn in Hev.
  rewrite Hev. cbn [wrap_err]. unfold gbind in IH. rewrite IH. cbn [gret].
  by rewrite (ballot_text_Some _ _ _ _ Hraw).
Qed.

Lemma batch_ok (s : Σ) B e nuls :
  answers_batches → represents (chain s) B → Forall (listed B e) nuls →
  Z.of_nat (length nuls) ≤ Contract.maxBallotBatchSize →
  Client.GetBallots e nuls s = (Ok (ballot_text B e <$> nuls), s).
Proof.
  intros Hb HB Hl Hlen. pose (G := Build_ChainGateway Σ _ _ _ _ Hb).
  rewrite Forall_forall in Hl. apply client_ballots; try done.
  - apply Forall_forall. intros n Hn. by destruct (Hl n Hn).
  - intros n Hn. destruct (Hl n Hn) as (_&raw&Hraw&_).
    apply (rep_records _ _ HB (KBallot e n)). eauto.
Qed.

Lemma new_chunks (s : Σ) B e fuel rest lines :
  answers_batches → represents (chain s) B → Forall (listed B e) rest → (length rest < fuel)%nat →
  dump_chunks error_text fuel e true rest lines s =
    (Some (Ok (true, lines ++ (ballot_text B e <$> rest))), s).
Proof.
  intros Hb HB. revert rest lines. induction fuel as [|fuel IH]; intros rest lines Hl Hfuel; [lia|].
  cbn [dump_chunks]. destruct rest as [|n rest]; [by rewrite app_nil_r|].
  set (k := Nat.min _ _).
  assert (Hk : (0 < k)%nat) by (unfold k, Client.BallotBatchSize; cbn [length]; lia).
  rewrite (batch_ok s B e (take k (n :: rest))); [|done|done|by apply Forall_take|].
  - rewrite (check_lines_ok B e) by by apply Forall_take.
    rewrite IH; [|by apply Forall_drop|rewrite length_drop; cbn [length] in *; lia].
    rewrite <-app_assoc, <-fmap_app, take_drop. done.
  - rewrite length_take. unfold k, Client.BallotBatchSize, Contract.maxBallotBatchSize. lia.
Qed.

Lemma single_chunk (s : Σ) B e fuel rest lines :
  lacks_batches → represents (chain s) B → Forall (listed B e) rest → (1 < fuel)%nat →
  dump_chunks error_text fuel e false rest lines s =
    (Some (Ok (false, lines ++ (ballot_text B e <$> rest))), s).
Proof.
  intros Hold HB Hl Hfuel. destruct fuel as [|[|fuel]]; [lia|lia|].
  cbn [dump_chunks]. destruct rest as [|n rest]; [by rewrite app_nil_r|].
  rewrite take_ge by lia. rewrite (read_each_ok s B e) by done.
  rewrite (check_lines_ok B e) by done. rewrite drop_ge by lia. done.
Qed.

Lemma old_chunks (s : Σ) B e fuel batched rest lines :
  lacks_batches → represents (chain s) B → Forall (listed B e) rest → (1 < fuel)%nat →
  (batched = true → rest ≠ [] → (2 < fuel)%nat) →
  dump_chunks error_text fuel e batched rest lines s =
    (Some (Ok (batched && bool_decide (rest = []), lines ++ (ballot_text B e <$> rest))), s).
Proof.
  intros Hold HB Hl Hfuel Hmore. destruct batched.
  2: { rewrite (single_chunk s B) by done. done. }
  destruct fuel as [|fuel]; [lia|]. cbn [dump_chunks].
  destruct rest as [|n rest]; [by rewrite app_nil_r|].
  specialize (Hmore eq_refl ltac:(done)). set (k := Nat.min _ _).
  assert (Hun : ∃ err, Client.GetBallots e (take k (n :: rest)) s = (Err err, s) ∧
            UnknownChaincodeFunction error_text err = true).
  { unfold Client.GetBallots, gbind, gret, gwrap.
    destruct (strings_marshal (take k (n :: rest))) as [arg Harg]. rewrite Harg. cbn [wrap_err].
    destruct Hold as [Hb _]. destruct (Hb s e arg) as (err&->&Hu). cbn [wrap_err]. eauto. }
  destruct Hun as (err&->&->). rewrite (single_chunk s B) by (done || lia). done.
Qed.

(** Which of the two kinds of chaincode answers. *)
Definition serves (old : bool) : Prop := if old then lacks_batches else answers_batches.

Definition still_batched (old batched : bool) (nuls : list string) : bool :=
  batched && (negb old || bool_decide (nuls = [])).

Lemma page_chunks (s : Σ) B e old batched rest lines :
  serves old → (batched = false → old = true) → represents (chain s) B → Forall (listed B e) rest →
  dump_chunks error_text (length rest + 2) e batched rest lines s =
    (Some (Ok (still_batched old batched rest, lines ++ (ballot_text B e <$> rest))), s).
Proof.
  intros Hs Hb HB Hl. unfold still_batched. destruct old; cbn [serves negb orb] in *.
  - apply old_chunks; try done; [lia|]. intros _ Hne. destruct rest; [done|]. cbn. lia.
  - destruct batched; [|by specialize (Hb eq_refl)]. apply new_chunks; try done. lia.
Qed.

Lemma still_batched_app old batched n1 n2 :
  still_batched old (still_batched old batched n1) n2 = still_batched old batched (n1 ++ n2).
Proof.
  unfold still_batched. destruct batched, old; cbn; try done. by destruct n1, n2.
Qed.

Hypothesis keys_utf8 : ∀ rk k, composite_key rk = Ok k → utf8 k.

Lemma dump_pages_ok (s : Σ) B e ks fuel i old batched bm lines :
  represents (chain s) B → NoDup ks → serves old → (batched = false → old = true) →
  (∀ k, k ∈ ks → ∃ b, composite_key (KNullifier e (EncodeToString b)) = Ok k) →
  (∀ k, k ∈ ks → listed B e (key_nullifier k)) →
  (∀ (i n : nat) bookmark, (0 < n)%nat →
     (i = 0%nat ∧ bookmark = "" ∨ ks !! i = Some bookmark) →
     QueryPage (chain s) Contract.nullifierIndex [e] (Z.of_nat n) bookmark =
       Ok (Ok <$> take n (drop i ks), Some (default "" (ks !! (i + n)%nat)))) →
  (i = 0%nat ∧ bm = "" ∨ ks !! i = Some bm) →
  (0 < fuel)%nat → Z.of_nat (length ks) - Z.of_nat i ≤ Client.nullifierPageSize * Z.of_nat fuel →
  let rest := key_nullifier <$> drop i ks in
  dump_pages error_text fuel e bm batched lines s =
    (Some (Ok (lines ++ (ballot_text B e <$> rest),
               if still_batched old batched rest then ledgerReadBatched else ledgerReadPerBallot)), s).
Proof.
  intros HB Hnd Hserve Hold Hks Hlist Hq. revert i batched Hold lines bm.
  induction fuel as [|fuel IH]; [lia|]. intros i batched Hold lines bm Hbm _ Hfuel.
  cbn [dump_pages]. cbn zeta.
  assert (i ≤ length ks)%nat as Hi.
  { destruct Hbm as [[-> _]|Hb]; [lia|]. apply lookup_lt_Some in Hb. lia. }
  unfold Client.nullifierPageSize in *. change 10000 with (Z.of_nat (Z.to_nat 10000)) at 1.
  assert (0 < Z.of_nat (Z.to_nat 10000) ≤ Contract.maxNullifierPageSize) as Hsize
    by (unfold Contract.maxNullifierPageSize; lia).
  assert (0 < Z.to_nat 10000)%nat as Hpos by lia.
  rewrite (client_page keys_utf8 s B e (Z.to_nat 10000) bm ks i HB Hsize Hks (Hq _ _ _ Hpos Hbm)).
  cbn [Nullifiers NextBookmark].
  set (page := key_nullifier <$> take (Z.to_nat 10000) (drop i ks)).
  rewrite (page_chunks s B e old batched page lines); [|done|done|done|].
  2: { apply Forall_fmap, Forall_forall. intros k Hk. apply Hlist.
       apply elem_of_take in Hk as (j & Hj & _). rewrite lookup_drop in Hj.
       by apply list_elem_of_lookup_2 in Hj. }
  destruct (ks !! (i + Z.to_nat 10000)%nat) as [k|] eqn:Ek; cbn [default from_option id].
  - assert (Hk : k ≠ "").
    { intros ->. apply list_elem_of_lookup_2 in Ek. destruct (Hks _ Ek) as [b Hb].
      by apply (create_nonempty _ _ _ Hb). }
    assert (Hkb : k ≠ bm).
    { intros ->. destruct Hbm as [[_ ?]|Hb]; [done|].
      pose proof (NoDup_lookup _ _ _ _ Hnd Hb Ek). lia. }
    rewrite !bool_decide_false by done. cbn [orb].
    pose proof (lookup_lt_Some _ _ _ Ek).
    rewrite (IH (i + Z.to_nat 10000)%nat); [| |by right|lia|lia].
    + rewrite still_batched_app. unfold page.
      rewrite <-app_assoc, <-!fmap_app, <-drop_drop, take_drop. done.
    + unfold still_batched. destruct old; [done|]. destruct batched; [done|]. by intros _; apply Hold.
  - apply lookup_ge_None in Ek. rewrite bool_decide_true by done. cbn [orb].
    unfold page. rewrite take_ge by (rewrite length_drop; lia). done.
Qed.
End dump.

(** ** The dump against the chain's history *)
Lemma mapM_perm {A B} (f : A → option B) l l' vs :
  l ≡ₚ l' → mapM f l = Some vs → ∃ vs', mapM f l' = Some vs' ∧ vs ≡ₚ vs'.
Proof.
  intros Hp. revert vs. induction Hp as [|x l l' _ IH|x y l|l1 l2 l3 _ IH1 _ IH2]; intros vs; cbn.
  - eauto.
  - destruct (f x); [|done]. cbn. destruct (mapM f l) as [ws|]; [|done]. intros [= <-].
    destruct (IH ws eq_refl) as (ws'&->&Hw). cbn. eexists. split; [done|]. by rewrite Hw.
  - destruct (f y); [|done]. cbn. destruct (f x); [|done]. cbn.
    destruct (mapM f l) as [ws|]; [|done]. intros [= <-]. cbn. eexists. split; [done|].
    apply perm_swap.
  - intros Hv. destruct (IH1 vs Hv) as (w&Hw&Hp1). destruct (IH2 w Hw) as (u&Hu&Hp2).
    exists u. split; [done|]. by rewrite Hp1.
Qed.

Section claims.
Context `{FabricShimLaws, Proto, Ristretto, Merlin, !Json, !JsonLaws, CommitterLaws, Sha256}.
Context {Σ : Type} `{!Gateway Σ, !ChainPages Σ}.

(** The election's ballots as the history recorded them, in hex. *)
Definition recorded (h : list invocation) (e : string) : list string :=
  (λ c : (string * string) * bytes, EncodeToString c.2) <$>
    filter (λ c : (string * string) * bytes, c.1.1 = e) (cast h).

Lemma recorded_texts h e B :
  (∀ n raw, B !! KBallot e n = Some raw ↔ ((e, n), raw) ∈ cast h) →
  ballot_text B e <$> (snd <$> filter (λ slot : string * string, slot.1 = e) (cast h).*1) =
  recorded h e.
Proof.
  intros HB. unfold recorded.
  assert (Hall : Forall (λ c : (string * string) * bytes, c ∈ cast h) (cast h))
    by (by apply Forall_forall).
  revert Hall. generalize (cast h) at 2 3 4. intros l Hall.
  induction Hall as [|[[e' n] raw] l Hin _ IH]; [done|]. cbn [fmap list_fmap fst].
  rewrite !filter_cons. cbn [fst]. destruct (decide (e' = e)) as [->|Hne].
  - cbn [fmap list_fmap snd]. rewrite <-IH. f_equal. apply ballot_text_Some. by apply HB.
  - exact IH.
Qed.

Lemma recorded_length h e : length (recorded h e) = ballots_cast_for e h.
Proof.
  unfold recorded, ballots_cast_for. rewrite length_fmap.
  induction (cast h) as [|c l IH]; [done|]. cbn [fmap list_fmap]. rewrite !filter_cons.
  destruct (decide (c.1.1 = e)); cbn [length]; by rewrite IH.
Qed.

(** The nullifiers of a reachable board and the ballots behind them. *)
Lemma reachable_nullifiers B h e :
  board_wf B → (∀ n raw, B !! KBallot e n = Some raw ↔ ((e, n), raw) ∈ cast h) →
  (∀ n, is_Some (B !! KNullifier e n) ↔ (e, n) ∈ (cast h).*1) ∧
  ∀ n raw, B !! KBallot e n = Some raw → ∃ b p, UnmarshalBallot raw = Ok b ∧
    Ballot.CredentialPresentation b = Some p ∧ n = EncodeToString (NullifierValue (Some p)).
Proof.
  intros Hwf Hrec. split.
  - intros n. split.
    + intros [v Hv]. destruct (Hwf _ _ Hv) as [_ [raw Hraw]].
      apply list_elem_of_fmap. exists ((e, n), raw). split; [done|]. by apply Hrec.
    + intros ([slot raw] & E & Hin)%list_elem_of_fmap. cbn in E. subst slot.
      apply Hrec in Hin. destruct (Hwf _ _ Hin) as [Hs _]. eauto.
  - intros n raw Hraw. destruct (Hwf _ _ Hraw) as (_ & b & pr & p & tr & epk & Hb & Hslot & Hshape & _).
    exists b, pr. split; [done|]. pose proof (bs_presentation _ _ Hshape) as Hp. split; [done|].
    unfold ballot_slot, ballot_nullifier in Hslot. rewrite Hp in Hslot. by injection Hslot as _ <-.
Qed.

Lemma recorded_values h e B :
  board_wf B → (∀ n raw, B !! KBallot e n = Some raw ↔ ((e, n), raw) ∈ cast h) →
  ∃ vs, mapM line_value (recorded h e) = Some vs.
Proof.
  intros Hwf Hrec. destruct (reachable_nullifiers B h e Hwf Hrec) as [_ Hb].
  assert (Hall : Forall (λ l, is_Some (line_value l)) (recorded h e)).
  { apply Forall_fmap, Forall_forall. intros [[e' n] raw] [He Hin]%list_elem_of_filter. cbn in He.
    subst e'. apply Hrec in Hin. destruct (Hb _ _ Hin) as (b&p&Hu&_&_).
    change (is_Some (line_value (EncodeToString raw))). unfold line_value.
    rewrite TrimSpace_hex, DecodeString_EncodeToString, Hu. eauto. }
  clear Hb. induction Hall as [|l ls [v Hv] _ [vs Hvs]]; [by exists []|].
  exists (v :: vs). cbn. by rewrite Hv, Hvs.
Qed.

Lemma mapM_trimmed ls :
  Forall (λ l, ∃ b, TrimSpace l = EncodeToString b) ls →
  mapM line_value ls = mapM line_value (TrimSpace <$> ls).
Proof.
  induction 1 as [|l ls [b Hb] _ IH]; [done|]. cbn [fmap list_fmap mapM].
  assert (line_value (TrimSpace l) = line_value l) as ->; [|by rewrite IH].
  unfold line_value. by rewrite Hb, TrimSpace_hex.
Qed.

(** C39: The ledger dump is the chain's own record. After any committed history
    the dump terminates, through every page and batch boundary, and writes
    exactly the ballots the chain recorded for the election, each once, whether
    the chaincode serves batches or is older and the dump falls back to single
    reads (which the reported read path says); and a ballot file holding the
    same ballots in any order has the same nullifier digest, so it compares
    equal. *)
Theorem ledger_dump_exact h (s : Σ) e fuel old error_text :
  (∀ rk k, composite_key rk = Ok k → utf8 k) →
  (∀ b, UnmarshalBallot [] = Ok b → Ballot.CredentialPresentation b = None) →
  serves error_text old → commits ∅ h (chain s) →
  (0 < fuel)%nat → Z.of_nat (ballots_cast_for e h) ≤ Client.nullifierPageSize * Z.of_nat fuel →
  ∃ lines,
    dumpLedgerBallots error_text fuel e s =
      (Some (Ok (lines, if negb old || bool_decide (lines = [])
                        then ledgerReadBatched else ledgerReadPerBallot)), s) ∧
    lines ≡ₚ recorded h e ∧
    ∀ own, Ballots.scan_err own = None →
      (TrimSpace <$> Ballots.lines own) ≡ₚ recorded h e →
      ∃ d, nullifierSetDigest own = Ok d ∧ nullifierSetDigest (Ballots.MkStream lines None) = Ok d.
Proof.
  intros Hutf8 Hempty Hserve Hc Hf Hfuel.
  destruct (commits_steps _ _ _ _ represents_empty Hc) as (B & Hsteps & HB).
  destruct (steps_wf _ _ _ board_wf_empty Hsteps) as [Hwf _].
  destruct (steps_ballots _ _ _ board_wf_empty Hsteps) as (Hnd & _ & Hb).
  assert (Hrec : ∀ n raw, B !! KBallot e n = Some raw ↔ ((e, n), raw) ∈ cast h).
  { intros n raw. rewrite Hb, lookup_empty. naive_solver. }
  destruct (reachable_nullifiers B h e Hwf Hrec) as [Hn Hballot].
  destruct (query_page (chain s) Contract.nullifierIndex [e]) as (ks & Hks & Hr & Hq).
  pose proof (nullifier_keys_perm _ _ _ _ _ HB Hnd Hn Hks Hr) as Hperm.
  pose proof (nullifier_keys_length _ _ _ _ _ HB Hnd Hn Hks Hr) as Hlen.
  assert (Hkey : ∀ k, k ∈ ks → ∃ n raw, composite_key (KNullifier e n) = Ok k ∧
            B !! KBallot e n = Some raw).
  { intros k Hk. apply Hr, (nullifier_range _ _ _ _ HB) in Hk as (n & Hk & Hs).
    apply Hn in Hs. apply list_elem_of_fmap in Hs as ([slot raw] & E & Hin). cbn in E. subst slot.
    exists n, raw. split; [done|]. by apply Hrec. }
  unfold dumpLedgerBallots.
  rewrite (dump_pages_ok error_text Hutf8 s B e ks fuel 0 old true "" []);
    [|done|done|done|done| | |done|by left|done|lia].
  2: { intros k Hk. destruct (Hkey k Hk) as (n&raw&Hk'&Hraw).
       destruct (Hballot _ _ Hraw) as (b&p&_&_&->). eauto. }
  2: { intros k Hk. destruct (Hkey k Hk) as (n&raw&Hk'&Hraw).
       unfold key_nullifier. rewrite (split_create _ _ _ Hk'). cbn.
       destruct (Hballot _ _ Hraw) as (b&p&Hu&Hp&->). split; [apply utf8_hex|].
       exists raw. split; [done|]. intros ->. by rewrite (Hempty b Hu) in Hp. }
  rewrite drop_0. cbn [app]. set (lines := ballot_text B e <$> (key_nullifier <$> ks)).
  assert (Hlines : lines ≡ₚ recorded h e).
  { unfold lines. rewrite Hperm. by rewrite (recorded_texts h e B Hrec). }
  exists lines. split_and!; [|done|].
  - unfold still_batched. cbn [andb]. do 4 f_equal. unfold lines. by destruct ks, old.
  - intros own He Hown. destruct (recorded_values h e B Hwf Hrec) as [vs Hvs].
    destruct (mapM_perm line_value _ lines vs (symmetry Hlines) Hvs) as (vs1&Hvs1&Hp1).
    destruct (mapM_perm line_value _ _ vs (symmetry Hown) Hvs) as (vs2&Hvs2&Hp2).
    apply (nullifierSetDigest_perm own (Ballots.MkStream lines None) vs2 vs1); try done.
    + rewrite <-Hvs2. apply mapM_trimmed. apply Forall_forall. intros l Hl.
      assert (Hin : TrimSpace l ∈ recorded h e)
        by (rewrite <-Hown; apply list_elem_of_fmap; eauto).
      apply list_elem_of_fmap in Hin as (c&Hc'&_). eauto.
    + by rewrite <-Hp2.
Qed.
End claims.
End LedgerDumpFacts.
