(* ===== verification/ToyClient.v ===== *)
(** * The concrete election in use

    The client, the registered attacks and the ceremony against the chain and
    the election of [ToyLedger] and [ToyElection]. *)
From S2P Require Import Prelude Fabric Hex Wire Ristretto ToyGroup CdsVerify CredVerify SelectionVerify.
From S2P Require Import SigVerify Contract BoardSpec HandlerFacts Ledger.
From S2P Require Import Client ClientFacts GoText Config Scenarios Attacks Ceremony CeremonyFacts.
From S2P Require Import CeremonyLedger ToyLedger ToyElection.
From S2P Require Import Ballots Bench Resume ResumeFacts Receipts LedgerDump LedgerDumpFacts.
From stdpp Require Import pretty.
#[local] Open Scope Z_scope.

(** ** The client against the concrete chain *)
(** A gateway whose state is the world state. *)
Definition toy_query {A} (r : result A) (s : worldstate) : result A * worldstate := (r, s).

Definition toy_page_size (p : string) : option Z :=
  snd <$> list_find (λ n : Z, pretty n = p) (seqZ 1 Contract.maxNullifierPageSize).

Definition toy_evaluate (name : string) (args : list string) (s : worldstate) :
    result string * worldstate :=
  match args with
  | [e; p; bm] =>
      if bool_decide (name = "ListNullifiers") then
        match toy_page_size p with
        | Some n => (evaluate (Contract.ListNullifiers e n bm) (healthy s), s)
        | None => (Err (Foreign "bad page size"), s)
        end
      else if bool_decide (name = "GetPartialDecryption")
      then (evaluate (Contract.GetPartialDecryption e p bm) (healthy s), s)
      else (Err (Foreign "unknown function"), s)
  | [e; arg] =>
      if bool_decide (name = "GetBallots")
      then (evaluate (Contract.GetBallots e arg) (healthy s), s)
      else (Err (Foreign "unknown function"), s)
  | [e] =>
      if bool_decide (name = "GetElection") then (evaluate (Contract.GetElection e) (healthy s), s)
      else if bool_decide (name = "GetDKGTranscript") then (evaluate (Contract.GetDKGTranscript e) (healthy s), s)
      else if bool_decide (name = "GetTally") then (evaluate (Contract.GetTally e) (healthy s), s)
      else (Err (Foreign "unknown function"), s)
  | _ => (Err (Foreign "unknown function"), s)
  end.

#[global] Instance toy_gateway : Gateway worldstate :=
  {| EvaluateTransaction := toy_evaluate; SubmitTransaction _ _ s := (Ok "", s) |}.

Lemma toy_page_size_pretty (n : Z) :
  0 < n ≤ Contract.maxNullifierPageSize → toy_page_size (pretty n) = Some n.
Proof.
  intros Hn. unfold toy_page_size.
  destruct (list_find (λ m : Z, pretty m = pretty n) (seqZ 1 Contract.maxNullifierPageSize))
    as [[i m]|] eqn:E.
  - apply list_find_Some in E as (_ & Hm & _). cbn. f_equal. by apply (inj pretty).
  - apply list_find_None in E. rewrite Forall_forall in E.
    exfalso. apply (E n); [|done]. apply elem_of_seqZ. lia.
Qed.

#[global] Instance toy_chain_pages : ChainPages worldstate.
Proof.
  refine (Build_ChainPages _ _ _ _ (λ s, s) _).
  intros s e n bm Hn. unfold answers. cbn [EvaluateTransaction toy_gateway toy_evaluate].
  rewrite bool_decide_true, toy_page_size_pretty by done. destruct (evaluate _ _); eauto.
Defined.

#[global] Instance toy_chain_gateway : ChainGateway worldstate.
Proof.
  split. intros s e arg. unfold answers. cbn [EvaluateTransaction toy_gateway toy_evaluate].
  rewrite bool_decide_true by done. destruct (evaluate _ _); eauto.
Defined.

Lemma part_ok_bytes (l : bytes) :
  Forall (λ c, is_hex_char c = true) l → part_ok (string_of_bytes l) = true.
Proof.
  induction 1 as [|c l Hc Hl IH]; [done|].
  change (part_ok (String (Ascii.ascii_of_byte c) (string_of_bytes l)) = true).
  cbn [part_ok]. apply andb_true_iff. split; [|done]. by destruct c.
Qed.

Lemma part_ok_hex b : part_ok (EncodeToString b) = true.
Proof. apply part_ok_bytes, hex_encode_chars. Qed.

Lemma toy_strings_round_trip l j :
  toy_marshal_strings l = Ok j → toy_unmarshal_strings j = Ok l.
Proof.
  intros [= <-]. unfold toy_unmarshal_strings. rewrite split_join.
  - induction l as [|s l IH]; [done|]. cbn [fmap list_fmap rmapM].
    rewrite DecodeString_EncodeToString. cbn [rbind].
    by rewrite string_of_bytes_of_string, IH.
  - apply forallb_forall. intros s (x & <- & _)%in_map_iff. apply part_ok_hex.
Qed.

#[global] Instance toy_json_laws : JsonLaws.
Proof.
  refine (Build_JsonLaws _ (λ _, True) _ _ _ _ _ _); try done.
  - intros [ns next] j _ _ Hj. cbn in *. by rewrite (toy_strings_round_trip _ _ Hj).
  - intros p. by eexists.
  - intros l j _. apply toy_strings_round_trip.
  - intros l. by eexists.
Defined.

Lemma CountCommittedBallots_correct_witness :
  let h := toy_setup ++ toy_voting ++ toy_closing in
  ballots_cast_for "e" h = 2%nat ∧
  Client.CountCommittedBallots 1 "e" (world_after h) =
    (Some (Ok (Z.of_nat (ballots_cast_for "e" h))), world_after h).
Proof.
  split; [vm_compute; reflexivity|].
  apply (CountCommittedBallots_correct (toy_setup ++ toy_voting ++ toy_closing)
    (world_after (toy_setup ++ toy_voting ++ toy_closing)) "e" 1).
  - intros rk k _. exact I.
  - apply toy_commits, toy_election_runs.
  - lia.
  - vm_compute. discriminate.
Defined.

Lemma GetBallots_correct_witness :
  let h := toy_setup ++ toy_voting ++ toy_closing in
  ∃ texts, Client.GetBallots "e" ["0b"; "ff"] (world_after h) = (Ok texts, world_after h) ∧
    Forall2 (λ n text, (∃ raw, (("e", n), raw) ∈ cast h ∧ text = EncodeToString raw) ∨
                       (("e", n) ∉ (cast h).*1) ∧ text = "") ["0b"; "ff"] texts.
Proof.
  apply (GetBallots_correct (toy_setup ++ toy_voting ++ toy_closing)
    (world_after (toy_setup ++ toy_voting ++ toy_closing)) "e" ["0b"; "ff"]).
  - apply toy_commits, toy_election_runs.
  - repeat constructor.
  - vm_compute. discriminate.
  - intros n [<-|[<-|[]]]%list_elem_of_In; eexists; reflexivity.
Defined.

(** ** The registered attacks on the concrete election

    The first ballot of [ToyElection] has been cast; the second one is the
    window's next, and the three mutations are mounted on it. *)
Module ToyAttacks.
Import Contract Scenarios.

Definition toy_marshal_ballot (b : Ballot.t) : result bytes :=
  match find (λ p, bool_decide (p.2 = b)) toy_ballots with
  | Some p => Ok [p.1]
  | None => Err (Foreign "proto: cannot encode")
  end.

#[global] Instance toy_encode : ProtoEncode.
Proof.
  refine {| MarshalBallot := toy_marshal_ballot |}.
  - intros b raw. unfold toy_marshal_ballot.
    destruct (find _ _) as [p|] eqn:E; [|done]. intros [= <-].
    apply find_Some_iff in E as [Hin Hb]. apply bool_decide_eq_true in Hb. subst b.
    assert (∀ q, q ∈ toy_ballots → UnmarshalBallot [q.1] = Ok q.2) as Hall; [|by apply Hall].
    intros q Hq. unfold toy_ballots in Hq.
    repeat (apply elem_of_cons in Hq as [->|Hq]; [reflexivity|]).
    by apply not_elem_of_nil in Hq.
  - intros x raw Hx. cbn [UnmarshalBallot toy_proto]. destruct raw; [|eexists; reflexivity].
    destruct (find _ _) as [p|] eqn:E; [exfalso | eexists; reflexivity].
    apply find_Some_iff in E as [Hin Hc]. apply bool_decide_eq_true in Hc. subst x.
    unfold toy_ballots in Hin.
    repeat (apply elem_of_cons in Hin as [->|Hin]; [vm_compute in Hx; discriminate|]).
    by apply not_elem_of_nil in Hin.
Defined.

Definition toy_attack_board : board := <[KNullifier "e" "0a" := [x01]]> toy_open_board.

Definition toy_attack_world : worldstate :=
  <[String ToyLedger.NUL (join_nul [nullifierIndex; "e"; "0a"]) := [x01]]> toy_open_world.

Lemma toy_attack_represents : represents toy_attack_world toy_attack_board.
Proof. apply represents_insert; [vm_compute; reflexivity | apply toy_open_represents]. Qed.

Lemma toy_target_accepted : ballot_accepted toy_attack_board (toy_ballot [x0b] false).
Proof.
  assert (is_ok (SubmitBallot "02" (healthy toy_attack_world) tx_start) = true) as Hok
    by (vm_compute; reflexivity).
  destruct (SubmitBallot "02" (healthy toy_attack_world) tx_start) as [[[] t]|e] eqn:E; [|done].
  destruct (SubmitBallot_inv (healthy toy_attack_world) "02" t toy_attack_board toy_attack_represents E)
    as (raw & b & kb & kn & Hraw & Hb & Hacc & _).
  assert (raw = [x02]) as -> by (vm_compute in Hraw; congruence).
  cbn in Hb. rewrite bool_decide_false in Hb by done. by injection Hb as <-.
Qed.

Lemma attacks_meet_their_gate_witness :
  refused_at "cds" toy_attack_world "11" ∧ refused_at "nullifier" toy_attack_world "12" ∧
  refused_at "decode" toy_attack_world "07".
Proof.
  destruct (attacks_meet_their_gate toy_attack_world toy_attack_board "02" (toy_ballot [x0b] false)
    "01" (toy_ballot [x0a] true)) as (H1 & H2 & H3).
  - apply toy_attack_represents.
  - reflexivity.
  - apply toy_target_accepted.
  - repeat constructor.
  - reflexivity.
  - exists [x01]. vm_compute. reflexivity.
  - split_and!; [apply H1 | apply H2 | apply H3]; vm_compute; reflexivity.
Defined.
End ToyAttacks.

(** ** The ceremony on the concrete election *)
Module ToyCeremony.
Import GoText Ceremony.

#[global] Instance toy_tally_law : TallyEncodeLaw.
Proof.
  constructor. intros t raw. cbn [MarshalTallyResult toy_proto].
  destruct (find _ _) as [p|] eqn:E; [|done]. intros [= <-].
  apply Scenarios.find_Some_iff in E as [Hin Ht]. apply bool_decide_eq_true in Ht. subst t.
  unfold toy_tallies in Hin.
  apply elem_of_cons in Hin as [->|Hin]; [reflexivity|].
  apply elem_of_cons in Hin as [->|Hin]; [reflexivity|]. by apply not_elem_of_nil in Hin.
Defined.

Definition toy_config (mode : string) : Config.ElectionConfig :=
  Config.MkElectionConfig "Toy" [Config.MkTrustee "A"] 1 1 2 2 "uniform" mode 0 8
    Config.f_zero Config.f_zero None false None None.

Definition toy_bundle (partials : list string) : onChainBundle :=
  MkBundle "e" "03" "04" "ballots.ndjson" 2 partials "06".

Definition toy_local_run : run :=
  MkRun (Some (MkHeader "e" "03" "04" 2 ["15"] "06")) None None "" ∅.

Definition toy_net : network := MkNetwork true (Ok tt).

(** A start, the one trustee's submission and a publication. *)
Definition toy_actions : list action :=
  [AStart None 10; APublish None None 11; ASubmit None 12 "1"; APublish None None 13].

Lemma local_ceremony_gate_witness :
  let s := acts chain_get_partial chain_get_tally chain_submit (λ _, "")
             toy_net (toy_config "offline") toy_actions ∅ toy_local_run in
  let st := (CeremonyStatus chain_get_partial chain_get_tally (λ _, "") toy_net
               (toy_config "offline") s ∅).2 in
  Published st = true ∧ 1 ≤ NSubmitted st.
Proof.
  intros s st.
  destruct (local_ceremony_gate chain_get_partial chain_get_tally chain_submit (λ _, "")
    toy_net (toy_config "offline") ltac:(done) toy_actions ∅ toy_local_run ltac:(done))
    as (_ & _ & _ & Hp & _).
  fold s in Hp. fold st in Hp.
  assert (Published st = true) as E by (vm_compute; reflexivity).
  split; [done | exact (Hp E)].
Defined.

(** ** On the ledger *)
Definition toy_closed : list invocation := toy_setup ++ toy_voting ++ [ICloseElection "e"].

Lemma toy_closed_board : ∃ B, represents (world_after toy_closed) B.
Proof.
  assert (is_Some (replay toy_closed ∅)) as Hr by (apply (bool_decide_unpack _); vm_compute; reflexivity).
  destruct (commits_steps _ _ _ _ represents_empty (toy_commits _ Hr)) as (B & _ & HB). by exists B.
Qed.

Definition toy_ceremony_run : run :=
  MkRun None (Some (toy_bundle ["05"]))
    (Some (newCeremony (toy_config "onchain"))) "" ∅.

Lemma ceremony_submit_idempotent_witness :
  ∃ w' mine, all_on_chain chain_get_partial w' "e" "t1" mine = true ∧
    ∃ s3, CeremonySubmit chain_get_partial chain_submit toy_net (Some (Foreign "deadline")) 21
            (toy_config "onchain") "t1" toy_ceremony_run w' = (s3, w', Ok tt).
Proof.
  destruct toy_closed_board as [B HB].
  assert (is_ok (CeremonySubmit chain_get_partial chain_submit toy_net None 20 (toy_config "onchain")
    "t1" toy_ceremony_run (world_after toy_closed)).2 = true) as Hok by (vm_compute; reflexivity).
  destruct (CeremonySubmit chain_get_partial chain_submit toy_net None 20 (toy_config "onchain")
    "t1" toy_ceremony_run (world_after toy_closed)) as [[s' w'] [[]|e]] eqn:E; [|done].
  destruct (ceremony_submit_idempotent toy_net None 20 (toy_config "onchain") "t1" toy_ceremony_run
    (world_after toy_closed) s' w' B HB ltac:(done) E)
    as (B' & b & m & mine & _ & _ & Hb & _ & _ & Hall & Hagain).
  injection Hb as <-. exists w', mine. split; [exact Hall|].
  exact (Hagain (Some (Foreign "deadline")) 21 toy_ceremony_run eq_refl ltac:(done)).
Defined.

Definition toy_roster (both : bool) : CeremonyState :=
  MkState 2 [MkTrustee "t1" "A" true 1 None false ""; MkTrustee "t2" "B" both 1 None false ""]
    2 true false true true "" None None None.

Lemma toy_tally_accepted B :
  represents (world_after toy_closed) B → tally_accepted B toy_tally.
Proof.
  intros HB.
  assert (is_ok (Contract.PublishTally "06" (healthy (world_after toy_closed)) tx_start) = true) as Hok
    by (vm_compute; reflexivity).
  destruct (Contract.PublishTally "06" (healthy (world_after toy_closed)) tx_start) as [[[] t]|e] eqn:E;
    [|done].
  destruct (PublishTally_inv (healthy (world_after toy_closed)) "06" t B HB E)
    as (raw & tl & kt & Hd & Hu & Hacc & _).
  assert (raw = [x06]) as -> by (vm_compute in Hd; congruence).
  cbn in Hu. by injection Hu as <-.
Qed.

Lemma toy_has_election B :
  represents (world_after toy_closed) B → has_election B "e" toy_params.
Proof.
  intros HB. exists [x03]. split; [|reflexivity].
  eapply (represents_lookup _ _ (KElection "e")); [exact HB | vm_compute; reflexivity |].
  vm_compute. reflexivity.
Qed.

Lemma ledger_counts_the_ceremony_witness :
  (chain_submit "PublishTally" ["06"] (world_after toy_closed)).2 = Ok tt ∧
  (chain_submit "PublishTally" ["16"] (world_after toy_closed)).2 ≠ Ok tt.
Proof.
  destruct toy_closed_board as [B HB]. split.
  - apply (ledger_counts_the_ceremony (world_after toy_closed) B "06" [x06] toy_tally toy_params
      (toy_roster true) "06" HB); try reflexivity.
    + by apply toy_tally_accepted.
    + by apply toy_has_election.
    + done.
    + repeat constructor.
  - intros Hacc. assert (2 ≤ 1) as Hbad; [|lia].
    apply (ledger_counts_the_ceremony (world_after toy_closed) B "06" [x06] toy_tally toy_params
      (toy_roster false) "16" HB) in Hacc; try reflexivity.
    + exact Hacc.
    + by apply toy_tally_accepted.
    + by apply toy_has_election.
    + done.
    + repeat constructor.
Defined.
End ToyCeremony.

(** ** A resume on the concrete chain

    Three ballots, one committed before the window was interrupted; of the two
    the resume submits one is acknowledged and the other reported as failed
    although the chain committed it. *)
Module ToyResume.
Import Bench Resume ResumeFacts.

Definition resume_file : Ballots.stream := Ballots.MkStream ["21"; "22"; "23"] None.

Definition resume_before : list invocation := toy_setup ++ [ISubmitBallot "21"].

Definition resume_during : list invocation := [ISubmitBallot "22"; ISubmitBallot "23"].

Definition resume_index : gmap bytes nat :=
  match nullifierIndex resume_file 3 with Ok m => m | Err _ => ∅ end.

Lemma resume_index_ok : nullifierIndex resume_file 3 = Ok resume_index.
Proof.
  assert (Hok : is_ok (nullifierIndex resume_file 3) = true) by (vm_compute; reflexivity).
  unfold resume_index. by destruct (nullifierIndex resume_file 3).
Qed.

Definition resume_result : RunResult :=
  MkRunResult 2 1 1 [5] 9 false 1 [5; 6] [true; false] 1.

Definition resume_events : list (nat * (Z * bool)) := [(1%nat, (6, false)); (0%nat, (5, true))].

Lemma resume_file_election : of_election resume_file "e".
Proof.
  intros i line raw b Hl Hraw Hb.
  destruct i as [|[|[|i]]]; cbn in Hl; injection Hl as <- || discriminate Hl;
    vm_compute in Hraw; injection Hraw as <-; vm_compute in Hb; injection Hb as <-; reflexivity.
Qed.

Lemma resume_accounted : accounted 2 resume_events resume_result.
Proof.
  split; try done; try (vm_compute; discriminate).
  - apply Permutation_swap.
  - repeat constructor.
Qed.

(** What the chain holds before and after the window. *)
Lemma resume_committed :
  (chainCommitted 1 resume_index "e" 3 (world_after resume_before)).1 =
  Some (Ok [true; false; false]).
Proof. vm_compute. reflexivity. Qed.

Lemma resume_committed_after :
  (chainCommitted 1 resume_index "e" 3 (world_after (resume_before ++ resume_during))).1 =
  Some (Ok [true; true; true]).
Proof. vm_compute. reflexivity. Qed.

Lemma resume_before_runs : is_Some (replay resume_before ∅).
Proof. apply (bool_decide_unpack _). vm_compute. reflexivity. Qed.

Lemma resume_during_runs : is_Some (replay (resume_before ++ resume_during) ∅).
Proof. apply (bool_decide_unpack _). vm_compute. reflexivity. Qed.

Lemma resume_recovers_witness :
  ∃ c after,
    chainCommitted 1 resume_index "e" 3 (world_after resume_before) =
      (Some (Ok c), world_after resume_before) ∧
    pending c = [1%nat; 2%nat] ∧
    let o := window_outcome resume_result (replayedIndices (pending c) resume_result (Ok after)) in
    interrupted o = false ∧
    resume_ok resume_file "e" resume_before resume_during (pending c) resume_result o.
Proof.
  destruct (resume_recovers resume_file "e" resume_before (world_after resume_before) 3 resume_index 1)
    as (c&Hrun&_&Hresume).
  - intros rk k _. exact I.
  - apply toy_commits, resume_before_runs.
  - apply resume_index_ok.
  - apply resume_file_election.
  - lia.
  - vm_compute. discriminate.
  - assert (Hc : c = [true; false; false]).
    { pose proof resume_committed as Hc. rewrite Hrun in Hc. by injection Hc. }
    subst c.
    destruct (Hresume resume_during (world_after (resume_before ++ resume_during)) 1%nat
                resume_events resume_result) as (after&Hafter&Hok).
    + apply toy_commits, resume_during_runs.
    + lia.
    + vm_compute. discriminate.
    + apply resume_accounted.
    + intros k t Hin. unfold resume_events in Hin.
      apply elem_of_cons in Hin as [[=]|Hin]. apply list_elem_of_singleton in Hin as [= -> ->].
      exists 1%nat, "22". split; [reflexivity|]. split; [reflexivity|].
      apply elem_of_cons. by left.
    + exists [true; false; false], after. split; [exact Hrun|]. split; [reflexivity|]. split; [|exact Hok].
      assert (after = [true; true; true]) as ->; [|vm_compute; reflexivity].
      pose proof resume_committed_after as Hc. rewrite Hafter in Hc. by injection Hc.
Defined.

(** ** The ledger dump of the same run *)
#[local] Existing Instance ReceiptsFacts.identity_hash.

Lemma ledger_dump_exact_witness :
  let h := resume_before ++ resume_during in
  ballots_cast_for "e" h = 3%nat ∧
  ∃ lines,
    LedgerDump.dumpLedgerBallots (λ _, "") 1 "e" (world_after h) =
      (Some (Ok (lines, LedgerDump.ledgerReadBatched)), world_after h) ∧
    lines ≡ₚ ["21"; "22"; "23"] ∧
    ∃ d, LedgerDump.nullifierSetDigest resume_file = Ok d ∧
         LedgerDump.nullifierSetDigest (Ballots.MkStream lines None) = Ok d.
Proof.
  split; [vm_compute; reflexivity|].
  destruct (LedgerDumpFacts.ledger_dump_exact (resume_before ++ resume_during)
    (world_after (resume_before ++ resume_during)) "e" 1 false (λ _, "")) as (lines&Hdump&Hperm&Hown).
  - intros rk k _. exact I.
  - intros b Hb. discriminate Hb.
  - intros s e arg. apply query_ballots.
  - apply toy_commits, resume_during_runs.
  - lia.
  - vm_compute. discriminate.
  - exists lines. split; [exact Hdump|]. split; [exact Hperm|].
    apply Hown; [reflexivity|]. vm_compute. reflexivity.
Defined.
End ToyResume.
