(* ===== verification/ReceiptFile.v ===== *)
(** * The run's receipts file

    [saksi-campaign/receipts.go]: the append-only sink for lifecycle receipts
    ([receipts.csv] and [trail.ndjson] of a run folder) and the reader of
    [receipts.csv]. A file is its bytes; a write may be cut short. The reader
    of [encoding/csv] is modelled as the source configures it (comma, no
    comment character, any number of fields, strict quotes); times in RFC 3339
    and JSON text are the classes [Rfc3339] and [TrailJson]. *)
From S2P Require Import Prelude Hex GoText Receipts.
From Stdlib Require Import Ascii.
#[local] Open Scope Z_scope.
Import GoText.

(** [time.Time.Format(time.RFC3339)] and [time.Parse(time.RFC3339, s)] on UTC
    times in nanoseconds. *)
Class Rfc3339 := { FormatTime : Z → string; ParseTime : string → option Z }.

Module ReceiptFile.
Import Receipts.

Record TrailEvent := MkTrail { Event : string; Ref : string; EReceipt : Receipt }.

(** [encoding/json] on a trail event. *)
Class TrailJson := { MarshalTrail : TrailEvent → result string }.

(** The files of a run folder that the writer holds open. *)
Record files := MkFiles { csv : string; trail : string }.

(** What the operating system does with one write: everything is written, or
    the first bytes and an error. *)
Inductive disk := Written | Short (n : nat) (e : goerr).

Definition written (d : disk) (s : string) : string :=
  match d with Written => s | Short n _ => str_take n s end.

Definition write_err (d : disk) : result unit :=
  match d with Written => Ok tt | Short _ e => Err e end.

Definition newline : string := String (ascii_of_nat 10) EmptyString.

Definition receiptsCSVHeader : string :=
  "event,ref,tx_id,block_number,block_hash,data_hash,previous_hash,timestamp".

Definition receiptsCSVFields : nat := 8.

(** Opening for append: [openErr] are the failures of opening and inspecting
    the two files, [d] the header's write. A file that is empty gets a header. *)
Definition openReceipts (openErr : option goerr) (statErr : option goerr) (d : disk)
    (trailErr : option goerr) (fs : files) : files * result unit :=
  match openErr with
  | Some e => (fs, Err (Errorf "open receipts.csv: %w" [AErr e]))
  | None =>
  match statErr with
  | Some e => (fs, Err (Errorf "stat receipts.csv: %w" [AErr e]))
  | None =>
      let '(fs, r) :=
        if (String.length (csv fs) =? 0)%nat
        then (MkFiles (csv fs +:+ written d (receiptsCSVHeader +:+ newline)) (trail fs), write_err d)
        else (fs, Ok tt) in
      match r with
      | Err e => (fs, Err e)
      | Ok _ =>
          match trailErr with
          | Some e => (fs, Err (Errorf "open trail.ndjson: %w" [AErr e]))
          | None => (fs, Ok tt)
          end
      end
  end end.

Section writer.
Context `{Rfc3339, TrailJson}.

Definition time_text (t : option Z) : string :=
  match t with None => EmptyString | Some t => FormatTime t end.

Fixpoint join_fields (l : list string) : string :=
  match l with
  | [] => EmptyString
  | [f] => f
  | f :: l => f +:+ "," +:+ join_fields l
  end.

Definition row_fields (ev : TrailEvent) : list string :=
  let r := EReceipt ev in
  [Event ev; Ref ev; TxID r; Itoa (BlockNumber r); EncodeToString (BlockHash r);
   EncodeToString (RDataHash r); EncodeToString (RPreviousHash r); time_text (RTimestamp r)].

Definition csv_row (ev : TrailEvent) : string := join_fields (row_fields ev) +:+ newline.

Definition writeCSVRow (d : disk) (ev : TrailEvent) (fs : files) : files * result unit :=
  (MkFiles (csv fs +:+ written d (csv_row ev)) (trail fs), write_err d).

Definition Append (d : disk) (ev : TrailEvent) (fs : files) : files * result unit :=
  writeCSVRow d ev fs.

Definition Lifecycle (d d' : disk) (ev : TrailEvent) (fs : files) : files * result unit :=
  let '(fs, r) := writeCSVRow d ev fs in
  match r with
  | Err e => (fs, Err e)
  | Ok _ =>
      match MarshalTrail ev with
      | Err e => (fs, Err e)
      | Ok data => (MkFiles (csv fs) (trail fs +:+ written d' (data +:+ newline)), write_err d')
      end
  end.
End writer.

(** ** encoding/csv *)
Definition quote_mark : ascii := ascii_of_nat 34.

(** A line without its end: readLine drops the newline, and a carriage return
    before it or before the end of the file. *)
Definition drop_cr (l : string) : string :=
  if has_suffix l (String (ascii_of_nat 13) EmptyString)
  then str_take (String.length l - 1) l else l.

Fixpoint split_lines (cur : string) (s : string) : list string :=
  match s with
  | EmptyString => if String.eqb cur EmptyString then [] else [drop_cr cur]
  | String c s =>
      if Ascii.eqb c (ascii_of_nat 10) then drop_cr cur :: split_lines EmptyString s
      else split_lines (cur +:+ String c EmptyString) s
  end.

(** Where the scan of a record stands. *)
Inductive mode := FieldStart | Plain | Quoted | QuoteSeen.

Inductive scanned :=
| Record_done (fields : list string)
| Line_done (field : string) (fields : list string)
| Bad.

(** One line from [mode]; [cur] is the field so far, [acc] the fields before it. *)
Fixpoint scan_line (m : mode) (cur : string) (acc : list string) (line : string) : scanned :=
  match line with
  | EmptyString =>
      match m with Quoted => Line_done cur acc | _ => Record_done (acc ++ [cur]) end
  | String c line =>
      let keep m := scan_line m (cur +:+ String c EmptyString) acc line in
      match m with
      | Quoted =>
          if Ascii.eqb c quote_mark then scan_line QuoteSeen cur acc line else keep Quoted
      | QuoteSeen =>
          if Ascii.eqb c quote_mark then keep Quoted
          else if Ascii.eqb c "," then scan_line FieldStart EmptyString (acc ++ [cur]) line
          else Bad
      | FieldStart =>
          if Ascii.eqb c quote_mark then scan_line Quoted cur acc line
          else if Ascii.eqb c "," then scan_line FieldStart EmptyString (acc ++ [cur]) line
          else keep Plain
      | Plain =>
          if Ascii.eqb c quote_mark then Bad
          else if Ascii.eqb c "," then scan_line FieldStart EmptyString (acc ++ [cur]) line
          else keep Plain
      end
  end.

(** A quoted field continued on the next lines. *)
Fixpoint continue_record (cur : string) (acc : list string) (lines : list string) :
    option (list string) * list string :=
  match lines with
  | [] => (None, [])
  | l :: lines =>
      match scan_line Quoted cur acc l with
      | Record_done fields => (Some fields, lines)
      | Bad => (None, lines)
      | Line_done cur acc => continue_record (cur +:+ newline) acc lines
      end
  end.

(** [Reader.Read]: [None] at the end of the file, else a record or an error. *)
Fixpoint csv_read (lines : list string) : option (option (list string) * list string) :=
  match lines with
  | [] => None
  | l :: lines =>
      if String.eqb l EmptyString then csv_read lines
      else
        Some (match scan_line FieldStart EmptyString [] l with
              | Record_done fields => (Some fields, lines)
              | Bad => (None, lines)
              | Line_done cur acc => continue_record (cur +:+ newline) acc lines
              end)
  end.

(** ** Reading receipts back *)
Definition ParseUint64 (s : string) : option Z :=
  if all_digits s && (digits_value 0 s <? 2 ^ 64) then Some (digits_value 0 s) else None.

Definition ErrTruncatedReceipts : goerr := Errorf "receipts.csv: truncated last row" [].

Section reader.
Context `{Rfc3339}.

(** [row[i]]; the caller has checked the length. *)
Definition field (row : list string) (i : nat) : string := default EmptyString (row !! i).

Definition parse_time (s : string) : option (option Z) :=
  if String.eqb s EmptyString then Some None
  else match ParseTime s with Some t => Some (Some t) | None => None end.

Definition parseReceiptRow (row : list string) : option TrailEvent :=
  match ParseUint64 (field row 3), DecodeString (field row 4), DecodeString (field row 5),
        DecodeString (field row 6), parse_time (field row 7) with
  | Some blockNum, Ok blockHash, Ok dataHash, Ok prevHash, Some ts =>
      Some (MkTrail (field row 0) (field row 1)
        (MkReceipt (field row 2) blockNum blockHash dataHash prevHash ts))
  | _, _, _, _, _ => None
  end.

(** The loop over the rows; every read consumes a line, so [fuel] is the number
    of lines left. *)
Fixpoint read_rows (fuel : nat) (lines : list string) (events : list TrailEvent) :
    list TrailEvent * option goerr :=
  match csv_read lines with
  | None => (events, None)
  | Some (None, _) => (events, Some ErrTruncatedReceipts)
  | Some (Some row, rest) =>
      if (length row <? receiptsCSVFields)%nat then (events, Some ErrTruncatedReceipts)
      else
        match parseReceiptRow row with
        | None => (events, Some ErrTruncatedReceipts)
        | Some ev =>
            match fuel with
            | O => (events ++ [ev], None)
            | S fuel => read_rows fuel rest (events ++ [ev])
            end
        end
  end.

(** [None]: the file does not exist. *)
Definition readReceipts (f : option string) : list TrailEvent * option goerr :=
  match f with
  | None => ([], None)
  | Some contents =>
      let lines := split_lines EmptyString contents in
      match csv_read lines with
      | None => ([], None)
      | Some (None, _) => ([], Some (Errorf "read receipts.csv header: %w" [AErr (Foreign "csv")]))
      | Some (Some _, rest) => read_rows (length rest) rest []
      end
  end.
End reader.
End ReceiptFile.
