(* ===== verification/ReceiptFileFacts.v ===== *)
(** * Receipts survive a crash

    What [readReceipts] makes of the file the writer leaves: every receipt of
    every completed append, over any number of openings, and of an append that
    was cut short the error the source promises — except that a row cut right
    after its last comma reads as a receipt without a time. *)
From S2P Require Import Prelude Hex GoText Receipts ReceiptFile.
From Stdlib Require Import Ascii.
#[local] Open Scope Z_scope.
Import GoText.
Import Receipts ReceiptFile.
#[local] Arguments String.append !_ _ / : simpl nomatch.

(** The whole second a time falls in: RFC 3339 without a fraction keeps no more. *)
Definition second (t : Z) : Z := t - t `mod` 10 ^ 9.

(** Characters that mean nothing to a CSV reader. *)
Definition plain_char (c : ascii) : bool :=
  negb (Ascii.eqb c (ascii_of_nat 10)) && negb (Ascii.eqb c (ascii_of_nat 13)) &&
  negb (Ascii.eqb c quote_mark) && negb (Ascii.eqb c ",").

Definition plain (s : string) : Prop := str_forallb plain_char s = true.

(** RFC 3339 at UTC, between 1970 and 9999: fixed width, ending in "Z". *)
Class Rfc3339Laws `{Rfc3339} := {
  time_plain : ∀ t, plain (FormatTime t);
  time_shown : ∀ t, FormatTime t ≠ EmptyString;
  time_parses : ∀ t, 0 ≤ t < 253402300800 * 10 ^ 9 → ParseTime (FormatTime t) = Some (second t);
  time_torn : ∀ t p, str_prefix p (FormatTime t) → p ≠ FormatTime t → ParseTime p = None
}.

Module ReceiptFileFacts.

(** ** Lines *)
Lemma plain_app a b : plain (a +:+ b) ↔ plain a ∧ plain b.
Proof. unfold plain. by rewrite str_forallb_app, andb_true_iff. Qed.

Lemma plain_prefix p s : str_prefix p s → plain s → plain p.
Proof. intros [q ->] [H _]%plain_app. done. Qed.

(** A line's text holds no line end; commas are allowed. *)
Definition line_char (c : ascii) : bool :=
  negb (Ascii.eqb c (ascii_of_nat 10)) && negb (Ascii.eqb c (ascii_of_nat 13)).

Definition is_line (s : string) : Prop := str_forallb line_char s = true.

Lemma plain_line s : plain s → is_line s.
Proof.
  apply str_forallb_impl. intros c. unfold plain_char, line_char.
  by intros [[[-> ->]%andb_true_iff _]%andb_true_iff _]%andb_true_iff.
Qed.

Lemma is_line_app a b : is_line (a +:+ b) ↔ is_line a ∧ is_line b.
Proof. unfold is_line. by rewrite str_forallb_app, andb_true_iff. Qed.

Lemma is_line_drop n s : is_line s → is_line (str_drop n s).
Proof.
  revert s. induction n as [|n IH]; intros [|c s]; cbn; try done.
  intros [_ H]%andb_true_iff. by apply IH.
Qed.

Lemma drop_cr_line l : is_line l → drop_cr l = l.
Proof.
  intros Hl. unfold drop_cr, has_suffix.
  change (String.length (String (ascii_of_nat 13) EmptyString)) with 1%nat.
  destruct (String.eqb_spec (str_drop (String.length l - 1) l) (String (ascii_of_nat 13) EmptyString))
    as [E|_].
  - apply (is_line_drop (String.length l - 1)) in Hl. by rewrite E in Hl.
  - by rewrite andb_false_r.
Qed.

Lemma split_lines_nl cur l s :
  is_line cur → is_line l →
  split_lines cur (l +:+ newline +:+ s) = (cur +:+ l) :: split_lines EmptyString s.
Proof.
  revert cur. induction l as [|c l IH]; intros cur Hc Hl.
  - cbn. rewrite string_app_nil, drop_cr_line by done. done.
  - apply andb_true_iff in Hl as [Hh Hl]. pose proof Hh as Hh'.
    apply andb_true_iff in Hh as [Hn%negb_true_iff _].
    change (String c l +:+ newline +:+ s) with (String c (l +:+ newline +:+ s)).
    cbn [split_lines]. rewrite Hn, IH; [by rewrite string_app_assoc| |done].
    apply is_line_app. split; [done|]. unfold is_line. cbn. by rewrite Hh'.
Qed.

Lemma split_lines_last cur l :
  is_line cur → is_line l →
  split_lines cur l = if String.eqb (cur +:+ l) EmptyString then [] else [cur +:+ l].
Proof.
  revert cur. induction l as [|c l IH]; intros cur Hc Hl.
  - cbn. rewrite string_app_nil. destruct (String.eqb_spec cur EmptyString); [done|].
    by rewrite drop_cr_line.
  - apply andb_true_iff in Hl as [Hh Hl]. pose proof Hh as Hh'.
    apply andb_true_iff in Hh as [Hn%negb_true_iff _].
    cbn [split_lines]. rewrite Hn, IH; [by rewrite string_app_assoc| |done].
    apply is_line_app. split; [done|]. unfold is_line. cbn. by rewrite Hh'.
Qed.

(** ** Records *)
Lemma scan_plain m cur acc f line :
  m = FieldStart ∨ m = Plain → plain f → f ≠ EmptyString →
  scan_line m cur acc (f +:+ line) = scan_line Plain (cur +:+ f) acc line.
Proof.
  intros Hm Hf Hne. revert m Hm cur Hf Hne. induction f as [|c f IH]; [done|].
  intros m Hm cur [Hc Hf]%andb_true_iff _.
  assert (Hc' : Ascii.eqb c quote_mark = false ∧ Ascii.eqb c "," = false).
  { unfold plain_char in Hc. rewrite !andb_true_iff, !negb_true_iff in Hc. naive_solver. }
  destruct Hc' as [Hq Hcm].
  change (String c f +:+ line) with (String c (f +:+ line)).
  assert (Hstep : scan_line m cur acc (String c (f +:+ line)) =
                  scan_line Plain (cur +:+ String c EmptyString) acc (f +:+ line)).
  { cbn [scan_line]. rewrite Hq, Hcm. by destruct Hm as [->| ->]. }
  rewrite Hstep. destruct f as [|c' f]; [done|].
  rewrite IH; [by rewrite string_app_assoc | by right | done | done].
Qed.

(** The end of a field: the record goes on with the next, or is complete. *)
Lemma scan_field acc f line :
  plain f →
  scan_line FieldStart EmptyString acc (f +:+ String "," line) =
    scan_line FieldStart EmptyString (acc ++ [f]) line ∧
  scan_line FieldStart EmptyString acc f = Record_done (acc ++ [f]).
Proof.
  intros Hf. destruct (decide (f = EmptyString)) as [->|Hne]; [done|].
  rewrite scan_plain by auto. split; [done|].
  rewrite <-(string_app_nil f) at 1. rewrite scan_plain by auto. done.
Qed.

Lemma scan_join acc fs :
  fs ≠ [] → Forall plain fs →
  scan_line FieldStart EmptyString acc (join_fields fs) = Record_done (acc ++ fs).
Proof.
  intros Hne H. revert acc. induction H as [|f fs Hf Hfs IH]; intros acc; [done|].
  destruct fs as [|g fs]; [by apply scan_field|].
  change (join_fields (f :: g :: fs)) with (f +:+ String "," (join_fields (g :: fs))).
  rewrite (proj1 (scan_field acc f _ Hf)), IH by done. by rewrite <-(assoc_L (++)).
Qed.

Lemma join_line fs : Forall plain fs → is_line (join_fields fs).
Proof.
  induction 1 as [|f fs Hf Hfs IH]; [done|]. apply plain_line in Hf.
  destruct fs as [|g fs]; [done|].
  change (join_fields (f :: g :: fs)) with (f +:+ "," +:+ join_fields (g :: fs)).
  rewrite !is_line_app. done.
Qed.

Lemma join_prefix fs p :
  fs ≠ [] → str_prefix p (join_fields fs) →
  ∃ k f q, fs !! k = Some f ∧ str_prefix q f ∧ p = join_fields (take k fs ++ [q]).
Proof.
  intros Hne. revert p. induction fs as [|f [|g fs] IH]; intros p Hp; [done| |].
  - exists 0%nat, f, p. done.
  - change (join_fields (f :: g :: fs)) with (f +:+ String "," (join_fields (g :: fs))) in Hp.
    apply str_prefix_app in Hp as [(c&q&Hq)|(p'&->&[q Hq])].
    { exists 0%nat, f, p. split_and!; [done|by exists (String c q)|done]. }
    destruct p' as [|c p'].
    { exists 0%nat, f, f. rewrite string_app_nil. split_and!; [done|exists EmptyString|done].
      by rewrite string_app_nil. }
    injection Hq as <- Hq. destruct (IH ltac:(done) p') as (k&f'&q'&Hk&Hq'&->); [by exists q|].
    exists (S k), f', q'. split_and!; [done|done|].
    cbn [take app]. destruct (take k (g :: fs) ++ [q']) eqn:E; [|done]. by destruct (take k _).
Qed.

(** ** Receipts *)
Section receipts.
Context `{Rfc3339Laws, TrailJson}.

(** A receipt whose text fields hold no separator: the console's event names,
    its references and hexadecimal transaction ids. *)
Record clean_event (ev : TrailEvent) : Prop := {
  clean_name : plain (Event ev);
  clean_ref : plain (Ref ev);
  clean_tx : plain (TxID (EReceipt ev));
  clean_block : 0 ≤ BlockNumber (EReceipt ev) < 2 ^ 64;
  clean_time : ∀ t, RTimestamp (EReceipt ev) = Some t → 0 ≤ t < 253402300800 * 10 ^ 9
}.

Definition with_time (t : option Z) (ev : TrailEvent) : TrailEvent :=
  let r := EReceipt ev in
  MkTrail (Event ev) (Ref ev)
    (MkReceipt (TxID r) (BlockNumber r) (BlockHash r) (RDataHash r) (RPreviousHash r) t).

(** What the file keeps of a receipt: its time to the second. *)
Definition kept (ev : TrailEvent) : TrailEvent :=
  with_time (second <$> RTimestamp (EReceipt ev)) ev.

Definition untimed (ev : TrailEvent) : TrailEvent := with_time None ev.

Lemma digits_plain s : str_forallb is_digit s = true → plain s.
Proof. apply str_forallb_impl. by intros [[] [] [] [] [] [] [] []]. Qed.

Lemma hex_plain b : plain (EncodeToString b).
Proof.
  refine (str_forallb_impl _ _ _ _ (hex_digits b)). by intros [[] [] [] [] [] [] [] []].
Qed.

Lemma time_text_plain t : plain (time_text t).
Proof. destruct t; [apply time_plain|done]. Qed.

Lemma row_plain ev : clean_event ev → Forall plain (row_fields ev).
Proof.
  intros []. unfold row_fields.
  repeat (constructor; [first [done | apply hex_plain | apply time_text_plain | idtac]|]);
    [|by constructor].
  apply digits_plain. destruct (Itoa_digits (BlockNumber (EReceipt ev))) as [Hd _]; [lia|].
  by apply andb_true_iff in Hd as [_ ?].
Qed.

Lemma parse_uint_Itoa z : 0 ≤ z < 2 ^ 64 → ParseUint64 (Itoa z) = Some z.
Proof.
  intros Hz. unfold ParseUint64. destruct (Itoa_digits z) as [-> ->]; [lia|].
  by rewrite (proj2 (Z.ltb_lt _ _)) by lia.
Qed.

(** A row whose time field reads [t]. *)
Definition parsed (ev : TrailEvent) (s : string) : option TrailEvent :=
  (λ t, with_time t ev) <$> parse_time s.

Lemma parse_row ev s :
  clean_event ev → parseReceiptRow (take 7 (row_fields ev) ++ [s]) = parsed ev s.
Proof.
  intros Hc. unfold parseReceiptRow, parsed.
  change (field (take 7 (row_fields ev) ++ [s]) 3) with (Itoa (BlockNumber (EReceipt ev))).
  change (field (take 7 (row_fields ev) ++ [s]) 4) with (EncodeToString (BlockHash (EReceipt ev))).
  change (field (take 7 (row_fields ev) ++ [s]) 5) with (EncodeToString (RDataHash (EReceipt ev))).
  change (field (take 7 (row_fields ev) ++ [s]) 6) with (EncodeToString (RPreviousHash (EReceipt ev))).
  change (field (take 7 (row_fields ev) ++ [s]) 7) with s.
  rewrite parse_uint_Itoa by apply Hc. rewrite !DecodeString_EncodeToString. by destruct (parse_time s).
Qed.

Lemma parsed_time ev : clean_event ev → parsed ev (time_text (RTimestamp (EReceipt ev))) = Some (kept ev).
Proof.
  intros Hc. unfold parsed, kept, parse_time, time_text. destruct (RTimestamp (EReceipt ev)) as [t|] eqn:E; [|done].
  rewrite (proj2 (String.eqb_neq _ _)) by apply time_shown.
  by rewrite time_parses by (by eapply clean_time).
Qed.

(** A time field cut short: no time if nothing of it was written, else an error. *)
Lemma parsed_torn ev q :
  clean_event ev → str_prefix q (time_text (RTimestamp (EReceipt ev))) →
  parsed ev q = None ∨ parsed ev q = Some (kept ev) ∧ q = time_text (RTimestamp (EReceipt ev)) ∨
  parsed ev q = Some (untimed ev).
Proof.
  intros Hc Hq. destruct (decide (q = time_text (RTimestamp (EReceipt ev)))) as [->|Hne].
  { right. left. by rewrite parsed_time. }
  unfold parsed, parse_time. destruct (String.eqb_spec q EmptyString) as [->|Hq']; [by right; right|].
  left. destruct (RTimestamp (EReceipt ev)) as [t|]; cbn in *.
  - by rewrite (time_torn t q).
  - destruct Hq as [r Hr]. by destruct q.
Qed.

Lemma row_split ev : row_fields ev = take 7 (row_fields ev) ++ [time_text (RTimestamp (EReceipt ev))].
Proof. done. Qed.

(** The text of a whole row, without its line end. *)
Definition row_text (ev : TrailEvent) : string := join_fields (row_fields ev).

Lemma row_text_nonempty ev k q :
  join_fields (take (S k) (row_fields ev) ++ [q]) ≠ EmptyString.
Proof.
  unfold row_fields. cbn [take app].
  destruct (take k _ ++ [q]) eqn:E; [by destruct (take k _)|].
  cbn [join_fields]. by destruct (Event ev).
Qed.

Lemma read_whole ev rest :
  clean_event ev →
  csv_read (row_text ev :: rest) = Some (Some (row_fields ev), rest) ∧
  parseReceiptRow (row_fields ev) = Some (kept ev).
Proof.
  intros Hc. split.
  - cbn [csv_read]. rewrite (proj2 (String.eqb_neq _ _)).
    + unfold row_text. by rewrite scan_join by (done || by apply row_plain).
    + unfold row_text. rewrite row_split. apply (row_text_nonempty ev 6).
  - by rewrite row_split, parse_row, parsed_time.
Qed.

Lemma read_rows_whole evs rest events fuel :
  Forall clean_event evs → (length evs + length rest ≤ fuel)%nat →
  read_rows fuel ((row_text <$> evs) ++ rest) events =
  read_rows (fuel - length evs) rest (events ++ (kept <$> evs)).
Proof.
  intros Hall. revert fuel events. induction Hall as [|ev evs Hev Hall IH]; intros fuel events Hf.
  { cbn. by rewrite Nat.sub_0_r, app_nil_r. }
  destruct fuel as [|fuel]; [cbn in Hf; lia|]. cbn [fmap list_fmap app read_rows length] in *.
  destruct (read_whole ev ((row_text <$> evs) ++ rest) Hev) as [-> ->].
  change (length (row_fields ev) <? receiptsCSVFields)%nat with false. cbn iota.
  rewrite IH by lia. by rewrite <-(assoc_L (++)).
Qed.

Lemma read_rows_nil fuel events : read_rows fuel [] events = (events, None).
Proof. by destruct fuel. Qed.

(** What [readReceipts] says of a row that was cut short. *)
Lemma read_torn ev p fuel events :
  clean_event ev → str_prefix p (row_text ev) →
  read_rows fuel (if String.eqb p EmptyString then [] else [p]) events =
    (events, if String.eqb p EmptyString then None else Some ErrTruncatedReceipts) ∨
  read_rows fuel (if String.eqb p EmptyString then [] else [p]) events = (events ++ [untimed ev], None) ∨
  p = row_text ev ∧
  read_rows fuel (if String.eqb p EmptyString then [] else [p]) events = (events ++ [kept ev], None).
Proof.
  intros Hc Hp. destruct (String.eqb_spec p EmptyString) as [->|Hne]; [left; by destruct fuel|].
  unfold row_text in Hp.
  apply join_prefix in Hp as (k&f&q&Hk&Hq&Ep); [|done].
  assert (Hplain : Forall plain (take k (row_fields ev) ++ [q])).
  { apply Forall_app. split; [by apply Forall_take, row_plain|]. constructor; [|constructor].
    eapply plain_prefix; [done|]. eapply Forall_lookup_1; [by apply row_plain|done]. }
  assert (Hread : csv_read [p] = Some (Some (take k (row_fields ev) ++ [q]), [])).
  { cbn [csv_read]. rewrite (proj2 (String.eqb_neq _ _)) by done. subst p.
    rewrite scan_join; [done|by destruct (take k _)|done]. }
  pose proof (lookup_lt_Some _ _ _ Hk) as Hlt. change (length (row_fields ev)) with 8%nat in Hlt.
  assert (Hlen : length (take k (row_fields ev) ++ [q]) = S k).
  { rewrite length_app, length_take. cbn. lia. }
  destruct fuel as [|fuel]; cbn [read_rows]; rewrite Hread, Hlen; unfold receiptsCSVFields.
  all: destruct (decide (k = 7%nat)) as [->|Hk7];
    [|left; rewrite (proj2 (Nat.ltb_lt _ _)) by lia; done].
  all: cbn [Nat.ltb Nat.leb]; injection Hk as <-; rewrite parse_row by done.
  all: destruct (parsed_torn ev q Hc Hq) as [->|[[-> ->]| ->]]; rewrite ?read_rows_nil;
    [by left| |by right; left].
  all: right; right; split; [exact Ep|done].
Qed.

(** ** The file *)
Fixpoint rows_text (evs : list TrailEvent) : string :=
  match evs with [] => EmptyString | ev :: evs => csv_row ev +:+ rows_text evs end.

Definition log (evs : list TrailEvent) : string := receiptsCSVHeader +:+ newline +:+ rows_text evs.

Lemma rows_text_snoc evs ev : rows_text (evs ++ [ev]) = rows_text evs +:+ csv_row ev.
Proof.
  induction evs as [|x evs IH]; cbn [rows_text app].
  - cbn. by rewrite string_app_nil.
  - by rewrite IH, string_app_assoc.
Qed.

Lemma split_rows evs tail :
  Forall clean_event evs → is_line tail →
  split_lines EmptyString (rows_text evs +:+ tail) =
    (row_text <$> evs) ++ (if String.eqb tail EmptyString then [] else [tail]).
Proof.
  intros Hall Ht. induction Hall as [|ev evs Hev _ IH]; [by apply split_lines_last|].
  cbn [rows_text fmap list_fmap app]. unfold csv_row. rewrite !string_app_assoc.
  rewrite split_lines_nl, IH; [done|done|]. by apply join_line, row_plain.
Qed.

Lemma read_log evs tail :
  Forall clean_event evs → is_line tail →
  readReceipts (Some (log evs +:+ tail)) =
    read_rows (length (if String.eqb tail EmptyString then [] else [tail]))
      (if String.eqb tail EmptyString then [] else [tail]) (kept <$> evs).
Proof.
  intros Hall Ht. unfold readReceipts, log. rewrite !string_app_assoc.
  rewrite split_lines_nl by done. rewrite split_rows by done. cbn [app].
  assert (Hh : ∃ fields, ∀ l, csv_read ((EmptyString +:+ receiptsCSVHeader) :: l) = Some (Some fields, l))
    by (eexists; intros l; reflexivity).
  destruct Hh as [fields Hh]. rewrite Hh, read_rows_whole; [|done|rewrite length_app, length_fmap; lia].
  rewrite length_app, length_fmap. f_equal. lia.
Qed.

(** A run folder's receipts over the console's openings, appends and crashes.
    A crash cuts the header's or a row's write short; what follows it, further
    crashes included, comes after the row it cut, the last of those listed. *)
Inductive status := Closed | Opened | Torn | Reopened.

Inductive kept_in : files → list TrailEvent → status → Prop :=
| kept_fresh tr : kept_in (MkFiles EmptyString tr) [] Closed
| kept_open fs fs' evs :
    kept_in fs evs Closed → openReceipts None None Written None fs = (fs', Ok tt) →
    kept_in fs' evs Opened
| kept_open_torn fs fs' n e :
    kept_in fs [] Closed → openReceipts None None (Short n e) None fs = (fs', Err e) →
    kept_in fs' [] Torn
| kept_close fs evs : kept_in fs evs Opened → kept_in fs evs Closed
| kept_append fs fs' evs ev :
    kept_in fs evs Opened → Append Written ev fs = (fs', Ok tt) → kept_in fs' (evs ++ [ev]) Opened
| kept_lifecycle d fs fs' r evs ev :
    kept_in fs evs Opened → Lifecycle Written d ev fs = (fs', r) → kept_in fs' (evs ++ [ev]) Opened
| kept_torn n e fs fs' evs ev :
    kept_in fs evs Opened → writeCSVRow (Short n e) ev fs = (fs', Err e) →
    kept_in fs' (evs ++ [ev]) Torn
| kept_reopen d fs fs' r evs st :
    kept_in fs evs st → st = Torn ∨ st = Reopened → openReceipts None None d None fs = (fs', r) →
    kept_in fs' evs Reopened
| kept_later d fs fs' r evs ev :
    kept_in fs evs Reopened → writeCSVRow d ev fs = (fs', r) → kept_in fs' evs Reopened.

Lemma kept_in_log fs evs st :
  kept_in fs evs st →
  match st with
  | Closed => csv fs = EmptyString ∧ evs = [] ∨ csv fs = log evs
  | Opened => csv fs = log evs
  | Torn => evs = [] ∧ str_prefix (csv fs) (log []) ∨
            ∃ whole ev n, evs = whole ++ [ev] ∧ csv fs = log whole +:+ str_take n (csv_row ev)
  | Reopened => evs = [] ∨ ∃ whole ev more, evs = whole ++ [ev] ∧ csv fs = log whole +:+ more
  end.
Proof.
  assert (Hlen : ∀ evs, (String.length (log evs) =? 0)%nat = false) by done.
  assert (Hsnoc : ∀ evs ev, log evs +:+ csv_row ev = log (evs ++ [ev])).
  { intros. unfold log. by rewrite rows_text_snoc, !string_app_assoc. }
  induction 1 as [tr|fs fs' evs _ IH Ho|fs fs' n e _ IH Ho|fs evs _ IH|fs fs' evs ev _ IH Ha
    |d fs fs' r evs ev _ IH Ha|n e fs fs' evs ev _ IH Ha|d fs fs' r evs st _ IH Hst Ho|d fs fs' r evs ev _ IH Ha].
  - by left.
  - unfold openReceipts in Ho. destruct IH as [[E ->]|E]; rewrite E in Ho.
    + injection Ho as <-. done.
    + rewrite Hlen in Ho. injection Ho as <-. done.
  - left. split; [done|]. unfold openReceipts in Ho. destruct IH as [[E _]|E]; rewrite E in Ho.
    + cbn in Ho. injection Ho as <-. cbn [csv]. apply str_take_prefix.
    + by rewrite Hlen in Ho.
  - by right.
  - injection Ha as <-. cbn [csv written]. by rewrite IH.
  - assert (E : csv fs' = csv fs +:+ csv_row ev).
    { unfold Lifecycle, writeCSVRow in Ha. cbn in Ha. destruct (MarshalTrail ev); by injection Ha as <- _. }
    by rewrite E, IH.
  - injection Ha as <-. right. exists evs, ev, n. split; [done|]. cbn [csv written]. by rewrite IH.
  - assert (Hrow : evs = [] ∨ ∃ whole ev more, evs = whole ++ [ev] ∧ csv fs = log whole +:+ more).
    { destruct Hst as [->| ->]; [|done]. destruct IH as [[-> _]|(whole&ev&n&->&E)]; [by left|right; eauto]. }
    destruct Hrow as [->|(whole&ev&more&->&E)]; [by left|right]. exists whole, ev, more. split; [done|].
    unfold openReceipts in Ho. rewrite E in Ho. injection Ho as <- _. done.
  - injection Ha as <- _. destruct IH as [->|(whole&x&more&->&E)]; [by left|right].
    eexists whole, x, _. split; [done|]. cbn [csv]. by rewrite E, string_app_assoc.
Qed.

(** Reading keeps what it has. *)
Lemma read_rows_more fuel : ∀ lines events, ∃ more e, read_rows fuel lines events = (events ++ more, e).
Proof.
  assert (Hstop : ∀ events e, ∃ more e', (events, e) = (events ++ more, e') :> list TrailEvent * option goerr)
    by (intros events e; exists [], e; by rewrite app_nil_r).
  induction fuel as [|fuel IH]; intros lines events; cbn [read_rows];
    (destruct (csv_read lines) as [[[row|] rest]|]; [|done..]); (destruct (_ <? _)%nat; [done|]);
    (destruct (parseReceiptRow row) as [ev|]; [|done]); [by exists [ev], None|].
  destruct (IH rest (events ++ [ev])) as (more&e&->). exists (ev :: more), e. by rewrite <-(assoc_L (++)).
Qed.

(** Whatever follows whole rows, they are read first. *)
Lemma split_rows_more evs tail :
  Forall clean_event evs →
  split_lines EmptyString (rows_text evs +:+ tail) = (row_text <$> evs) ++ split_lines EmptyString tail.
Proof.
  induction 1 as [|ev evs Hev _ IH]; [done|]. cbn [rows_text fmap list_fmap app]. unfold csv_row.
  rewrite !string_app_assoc, split_lines_nl, IH; [done..|]. by apply join_line, row_plain.
Qed.

Lemma read_log_more evs tail :
  Forall clean_event evs → ∃ more e, readReceipts (Some (log evs +:+ tail)) = ((kept <$> evs) ++ more, e).
Proof.
  intros Hall. unfold readReceipts, log. rewrite !string_app_assoc, split_lines_nl by done.
  rewrite split_rows_more by done.
  assert (Hh : ∃ fields, ∀ l, csv_read ((EmptyString +:+ receiptsCSVHeader) :: l) = Some (Some fields, l))
    by (eexists; intros l; reflexivity).
  destruct Hh as [fields Hh]. rewrite Hh, read_rows_whole; [|done|rewrite length_app, length_fmap; lia].
  apply read_rows_more.
Qed.

Lemma header_cut p : str_prefix p (log []) → readReceipts (Some p) = ([], None).
Proof.
  intros Hp. unfold log in Hp. apply str_prefix_app in Hp as [(c&q&Hq)|(p'&->&Hp)].
  - assert (Hl : is_line receiptsCSVHeader) by done. rewrite <-Hq in Hl. apply is_line_app in Hl as [Hl _].
    assert (Hpl : ∃ fs, p = EmptyString ∨ scan_line FieldStart EmptyString [] p = Record_done fs).
    { destruct (join_prefix (["event"; "ref"; "tx_id"; "block_number"; "block_hash"; "data_hash";
        "previous_hash"; "timestamp"]) p) as (k&f&r&Hk&Hr&->); [done|by exists (String c q)|].
      eexists. right. apply scan_join; [by destruct (take k _)|]. apply Forall_app. split.
      - apply Forall_take. by repeat constructor.
      - constructor; [|constructor]. eapply plain_prefix; [done|].
        eapply Forall_lookup_1; [|done]. by repeat constructor. }
    unfold readReceipts. rewrite split_lines_last by done. cbn [String.append].
    destruct (String.eqb_spec p EmptyString) as [|Hne]; [done|].
    destruct Hpl as [fs [?|Hs]]; [done|]. cbn [csv_read].
    rewrite (proj2 (String.eqb_neq _ _)) by done. rewrite Hs. apply read_rows_nil.
  - destruct Hp as [q Hq]. destruct p' as [|c p']; [by apply (read_log [] EmptyString)|].
    injection Hq as <- Hq. destruct p'; [|done].
    by apply (read_log [] EmptyString).
Qed.

(** What is read of a row whose write stopped after [n] bytes. *)
Inductive read_cut (whole : list TrailEvent) (ev : TrailEvent) (text : string) :
    list TrailEvent * option goerr → Prop :=
| cut_reported : read_cut whole ev text (kept <$> whole, Some ErrTruncatedReceipts)
| cut_nothing : text = log whole → read_cut whole ev text (kept <$> whole, None)
| cut_whole : read_cut whole ev text (kept <$> (whole ++ [ev]), None)
| cut_untimed : read_cut whole ev text ((kept <$> whole) ++ [untimed ev], None).

Lemma read_log_whole evs : Forall clean_event evs → readReceipts (Some (log evs)) = (kept <$> evs, None).
Proof. intros Hl. by rewrite <-(string_app_nil (log evs)), read_log. Qed.

Lemma csv_row_cut ev n :
  str_prefix (str_take n (csv_row ev)) (row_text ev) ∨ str_take n (csv_row ev) = csv_row ev.
Proof.
  destruct (str_prefix_app _ _ _ (str_take_prefix n (csv_row ev))) as [(c&q&Hq)|(p'&->&[q Hq])].
  - left. by exists (String c q).
  - destruct p' as [|c p'].
    + left. exists EmptyString. by rewrite !string_app_nil.
    + right. injection Hq as <- Hq. by destruct p'.
Qed.

Lemma torn_row_read whole ev n text :
  Forall clean_event whole → clean_event ev → text = log whole +:+ str_take n (csv_row ev) →
  read_cut whole ev text (readReceipts (Some text)).
Proof.
  intros Hw Hev ->. destruct (csv_row_cut ev n) as [Hp|E].
  - assert (Hl : is_line (str_take n (csv_row ev))).
    { pose proof (join_line _ (row_plain ev Hev)) as Hl. destruct Hp as [r Hr].
      unfold row_text in Hr. rewrite Hr in Hl. by apply is_line_app in Hl as [? _]. }
    rewrite read_log by done. set (p := str_take n (csv_row ev)) in *.
    edestruct (read_torn ev p) as [->|[->|[_ ->]]]; [done|done| | |].
    + destruct (String.eqb_spec p EmptyString) as [->|]; [|constructor].
      constructor. by rewrite string_app_nil.
    + constructor.
    + change [kept ev] with (kept <$> [ev]). rewrite <-fmap_app. constructor.
  - rewrite E. replace (log whole +:+ csv_row ev) with (log (whole ++ [ev])).
    + rewrite read_log_whole; [constructor|]. apply Forall_app. split; [done|by constructor].
    + unfold log. by rewrite rows_text_snoc, !string_app_assoc.
Qed.

(** C34: receipts survive a crash. As long as no write was cut short, however
    often the run folder's receipts are opened and closed, reading them back
    gives every receipt appended, in order, with its time to the second, and no
    error. If an append was cut short by a crash, every earlier receipt is still
    read; of the torn one the reader reports the truncation, or nothing was
    written of it, or its whole row is read — except that a row cut right after
    its last comma is read as a receipt without a time and without an error.
    And whatever the console does with the torn file afterwards, opening it,
    appending to it or crashing again, the receipts before the torn row are
    still the first that are read, in order; of the later ones nothing is said:
    the code can lose them. *)
Theorem receipts_survive_crash fs evs st :
  kept_in fs evs st → Forall clean_event evs →
  match st with
  | Torn =>
      evs = [] ∧ readReceipts (Some (csv fs)) = ([], None) ∨
      ∃ whole ev, evs = whole ++ [ev] ∧
        read_cut whole ev (csv fs) (readReceipts (Some (csv fs)))
  | Reopened =>
      evs = [] ∨
      ∃ whole ev more e, evs = whole ++ [ev] ∧ readReceipts (Some (csv fs)) = ((kept <$> whole) ++ more, e)
  | _ => readReceipts (Some (csv fs)) = (kept <$> evs, None)
  end.
Proof.
  intros Hk Hall. apply kept_in_log in Hk. destruct st.
  - destruct Hk as [[-> ->]| ->]; [done|by apply read_log_whole].
  - rewrite Hk. by apply read_log_whole.
  - destruct Hk as [[-> Hp]|(whole&ev&n&->&E)]; [left; split; [done|by apply header_cut]|].
    right. exists whole, ev. split; [done|]. apply Forall_app in Hall as [Hw [Hev _]%Forall_cons_1].
    by eapply torn_row_read.
  - destruct Hk as [->|(whole&ev&more&->&E)]; [by left|right]. apply Forall_app in Hall as [Hw _].
    destruct (read_log_more whole more Hw) as (rest&e&Hr). exists whole, ev, rest, e. by rewrite E.
Qed.
End receipts.
End ReceiptFileFacts.
