(* ===== verification/Partials.v ===== *)
(** * Submitting the partial decryptions

    [submitPartials] of [saksi-campaign/executor.go]: one goroutine per partial
    decryption, at most sixteen transactions in flight, the first error kept
    and the rest cancelled. The main loop and the goroutines are a step
    relation over their critical sections; the world they act on, with its
    other clients, is a parameter.

    The theorems: on every schedule no deadlock, a bounded number of steps, a
    nil return exactly when every partial was acknowledged once, and at most
    one more start after the first error. *)
From S2P Require Import Prelude.
From stdpp Require Import relations.
#[local] Open Scope nat_scope.

Module Partials.

Definition maxPartialsInFlight : nat := 16.

(** Where a goroutine stands: before its context check, before its
    transaction, with an error to record, before [cancel()], before it gives
    back its slot, gone. *)
Inductive worker := WStart | WSend | WFail (e : goerr) | WCancel | WRelease | WDone.

(** Where the calling goroutine stands: at the head of the loop, taking a slot,
    in [wg.Wait()], returned. *)
Inductive caller := MCheck | MAcquire | MWait | MReturned (r : option goerr).

Definition Canceled : goerr := Foreign "context canceled".

Section partials.
Context {S : Type}.

(** [answers] is history: the transactions answered so far, in order. *)
Record conf := MkConf {
  state : S; main : caller; workers : list worker; held : nat;
  firstErr : option goerr; cancelled : bool; answers : list (nat * result unit)
}.

Definition start (s : S) : conf := MkConf s MCheck [] 0 None false [].

(** [ctx_err] is the caller's [ctx.Err()]; [send i] the transaction of partial
    [i], with its receipt; [evolves] what the rest of the world may do. *)
Context (ctx_err : S → option goerr) (send : nat → S → S * result unit)
  (evolves : S → S → Prop) (n : nat).

Definition set_main (m : caller) (c : conf) : conf :=
  MkConf (state c) m (workers c) (held c) (firstErr c) (cancelled c) (answers c).

Definition set_worker (i : nat) (w : worker) (c : conf) : conf :=
  MkConf (state c) (main c) (<[i := w]> (workers c)) (held c) (firstErr c) (cancelled c) (answers c).

(** The calling goroutine's next step; [None] while it is blocked. *)
Definition main_step (c : conf) : option conf :=
  match main c with
  | MCheck =>
      Some (set_main (if (length (workers c) <? n) && negb (bool_decide (is_Some (firstErr c)))
                      then MAcquire else MWait) c)
  | MAcquire =>
      if held c <? maxPartialsInFlight
      then Some (MkConf (state c) MCheck (workers c ++ [WStart]) (Datatypes.S (held c)) (firstErr c)
                   (cancelled c) (answers c))
      else None
  | MWait =>
      if forallb (λ w, match w with WDone => true | _ => false end) (workers c)
      then Some (set_main (MReturned (firstErr c)) c) else None
  | MReturned _ => None
  end.

(** Goroutine [i]'s next step. *)
Definition worker_step (i : nat) (c : conf) : option conf :=
  match workers c !! i with
  | Some WStart =>
      Some (match ctx_err (state c) with
            | Some e => set_worker i (WFail e) c
            | None => set_worker i (if cancelled c then WFail Canceled else WSend) c
            end)
  | Some WSend =>
      let '(s, r) := send i (state c) in
      Some (MkConf s (main c)
              (<[i := match r with Ok _ => WRelease | Err e => WFail e end]> (workers c))
              (held c) (firstErr c) (cancelled c) (answers c ++ [(i, r)]))
  | Some (WFail e) =>
      Some (MkConf (state c) (main c) (<[i := WCancel]> (workers c)) (held c)
              (match firstErr c with Some e => Some e | None => Some e end) (cancelled c) (answers c))
  | Some WCancel =>
      Some (MkConf (state c) (main c) (<[i := WRelease]> (workers c)) (held c) (firstErr c) true
              (answers c))
  | Some WRelease =>
      Some (MkConf (state c) (main c) (<[i := WDone]> (workers c)) (held c - 1) (firstErr c)
              (cancelled c) (answers c))
  | Some WDone | None => None
  end.

Inductive own_step (c : conf) : conf → Prop :=
| own_main c' : main_step c = Some c' → own_step c c'
| own_worker i c' : worker_step i c = Some c' → own_step c c'.

Inductive partials_step (c : conf) : conf → Prop :=
| step_own c' : own_step c c' → partials_step c c'
| step_world s' : evolves (state c) s' →
    partials_step c (MkConf s' (main c) (workers c) (held c) (firstErr c) (cancelled c) (answers c)).

(** [submitPartials]: from [s] it may return [r], leaving [s']. *)
Definition submitPartials (s : S) (r : option goerr) (s' : S) (acks : list (nat * result unit)) : Prop :=
  ∃ c, rtc partials_step (start s) c ∧ main c = MReturned r ∧ state c = s' ∧ answers c = acks.

(** ** What holds on every schedule *)
Definition active (w : worker) : nat := match w with WDone => 0 | _ => 1 end.

Definition weight (w : worker) : nat :=
  match w with
  | WStart => 5 | WSend => 4 | WFail _ => 3 | WCancel => 2 | WRelease => 1 | WDone => 0
  end.

(** The steps left, at most. *)
Definition work (c : conf) : nat :=
  match main c with
  | MCheck => 8 * (n - length (workers c)) + 2
  | MAcquire => 8 * (n - length (workers c)) + 1
  | MWait => 1
  | MReturned _ => 0
  end + sum_list_with weight (workers c).

Lemma sum_insert {A} (f : A → nat) l i x y :
  l !! i = Some x → sum_list_with f (<[i := y]> l) + f x = sum_list_with f l + f y.
Proof.
  revert i. induction l as [|z l IH]; intros [|i] H; try done; cbn in *.
  - injection H as ->. lia.
  - rewrite <-!Nat.add_assoc. f_equal. by apply IH.
Qed.

Lemma sum_pos {A} (f : A → nat) l : sum_list_with f l ≠ 0 → ∃ i x, l !! i = Some x ∧ f x ≠ 0.
Proof.
  induction l as [|x l IH]; cbn; [done|]. intros H. destruct (decide (f x = 0)) as [E|E].
  - destruct IH as (i&y&Hi&Hy); [lia|]. by exists (Datatypes.S i), y.
  - by exists 0, x.
Qed.

(** An error came from a transaction or from the caller's context. *)
Definition cause (c : conf) (e : goerr) : Prop :=
  (∃ i, (i, Err e) ∈ answers c) ∨ (∃ s, ctx_err s = Some e).

(** What goroutine [i]'s place says of its transaction. *)
Definition worker_ok (c : conf) (i : nat) (w : worker) : Prop :=
  match w with
  | WStart | WSend => i ∉ (answers c).*1
  | WFail e => cause c e ∨ is_Some (firstErr c)
  | WCancel => is_Some (firstErr c)
  | WRelease | WDone => (i, Ok tt) ∈ answers c ∨ is_Some (firstErr c)
  end.

Record inv (c : conf) : Prop := {
  inv_held : held c = sum_list_with active (workers c);
  inv_bound : held c ≤ maxPartialsInFlight;
  inv_started : length (workers c) + match main c with MAcquire => 1 | _ => 0 end ≤ n;
  inv_once : NoDup (answers c).*1 ∧ ∀ i, i ∈ (answers c).*1 → i < length (workers c);
  inv_workers : ∀ i w, workers c !! i = Some w → worker_ok c i w;
  inv_failed : ∀ i e, (i, Err e) ∈ answers c →
    workers c !! i = Some (WFail e) ∨ is_Some (firstErr c);
  inv_cancelled : cancelled c = true → is_Some (firstErr c);
  inv_first : ∀ e, firstErr c = Some e → cause c e;
  inv_main :
    match main c with
    | MWait => is_Some (firstErr c) ∨ length (workers c) = n
    | MReturned r => r = firstErr c ∧ (is_Some (firstErr c) ∨ length (workers c) = n) ∧
                     sum_list_with active (workers c) = 0
    | _ => True
    end
}.

Lemma start_inv s : inv (start s).
Proof.
  split; cbn; try done; try lia.
  - split; [constructor|]. intros i Hi. by apply not_elem_of_nil in Hi.
  - intros i e Hi. by apply not_elem_of_nil in Hi.
Qed.

Lemma workers_finished l :
  forallb (λ w, match w with WDone => true | _ => false end) l = true ↔ sum_list_with active l = 0.
Proof. induction l as [|w l IH]; cbn; [done|]. rewrite andb_true_iff, IH. destruct w; cbn; naive_solver lia. Qed.

Lemma main_inv c c' : inv c → main_step c = Some c' → inv c'.
Proof.
  intros [Ih Ib Is Io Iw If Ic I1 Im] Hs. unfold main_step in Hs. destruct (main c) eqn:Em.
  - injection Hs as <-.
    destruct (Nat.ltb_spec (length (workers c)) n) as [El|El]; cbn [andb].
    + destruct (bool_decide_reflect (is_Some (firstErr c))); cbn [negb];
        split; cbn; try done; try lia; by left.
    + split; cbn; try done; lia.
  - destruct (held c <? maxPartialsInFlight) eqn:El; [|done]. apply Nat.ltb_lt in El.
    injection Hs as <-. split; cbn [held workers main answers firstErr cancelled]; try done.
    + rewrite sum_list_with_app. cbn. lia.
    + rewrite length_app. cbn. lia.
    + destruct Io as [Hn Hi]. split; [done|]. intros i Hin%Hi. rewrite length_app. lia.
    + intros i w [Hw|[Hge Hw]]%lookup_app_Some; [by apply Iw|].
      destruct (i - length (workers c)) as [|k] eqn:E; [|done]. injection Hw as <-.
      intros Hin%Io. lia.
    + intros i e Hin. destruct (If i e Hin) as [Hw|?]; [left|by right].
      rewrite lookup_app_l; [done|]. by eapply lookup_lt_Some.
  - destruct (forallb _ _) eqn:Ef; [|done]. apply workers_finished in Ef. injection Hs as <-.
    split; cbn; try done; try lia.
  - done.
Qed.

Lemma worker_ok_mono c c' i w :
  worker_ok c i w → (∀ x, x ∈ answers c → x ∈ answers c') →
  (is_Some (firstErr c) → is_Some (firstErr c')) →
  (i ∈ (answers c').*1 → i ∈ (answers c).*1) → worker_ok c' i w.
Proof.
  intros Hw Ha Hf Hi. destruct w; cbn in *; unfold cause in *; naive_solver.
Qed.

Lemma sum_lookup {A} (f : A → nat) l i x : l !! i = Some x → f x ≤ sum_list_with f l.
Proof.
  revert i. induction l as [|y l IH]; intros [|i] H; try done; cbn in *.
  - injection H as ->. lia.
  - specialize (IH _ H). lia.
Qed.

(** A step of goroutine [i], from place [w] to [w']. *)
Record moves (i : nat) (w w' : worker) (c c' : conf) : Prop := {
  mv_from : workers c !! i = Some w;
  mv_to : workers c' = <[i := w']> (workers c);
  mv_main : main c' = main c;
  mv_active : active w = 1;
  mv_held : held c' = held c + active w' - 1;
  mv_answers : ∀ x, x ∈ answers c → x ∈ answers c';
  mv_errs : is_Some (firstErr c) → is_Some (firstErr c');
  mv_others : ∀ j, j ≠ i → j ∈ (answers c').*1 → j ∈ (answers c).*1;
  mv_fresh : ∀ j e, j ≠ i → (j, Err e) ∈ answers c' → (j, Err e) ∈ answers c;
  mv_once : NoDup (answers c').*1;
  mv_ok : worker_ok c' i w';
  mv_failed : ∀ e, (i, Err e) ∈ answers c' → w' = WFail e ∨ is_Some (firstErr c');
  mv_cancelled : cancelled c' = true → is_Some (firstErr c');
  mv_first : ∀ e, firstErr c' = Some e → cause c' e
}.

Lemma moves_inv i w w' c c' : inv c → moves i w w' c c' → inv c'.
Proof.
  intros [Ih Ib Is [In Ii] Iw If Ic I1 Im] [Hf Ht Hm Ha Hh Hx He Ho Hfr Hn Hok Hfl Hc H1].
  pose proof (lookup_lt_Some _ _ _ Hf) as Hlt.
  pose proof (sum_insert active (workers c) i w w' Hf) as Hsum.
  assert (active w' ≤ 1) by (destruct w'; cbn; lia).
  pose proof (sum_lookup active _ _ _ Hf) as Hpos.
  split; rewrite ?Ht, ?Hm, ?length_insert; try done.
  - lia.
  - lia.
  - split; [done|]. intros j Hj. destruct (decide (j = i)) as [->|Hne]; [done|]. by apply Ii, Ho.
  - intros j v. rewrite list_lookup_insert_Some. intros [(<-&<-&_)|(Hne&Hv)]; [done|].
    refine (worker_ok_mono c c' j v (Iw j v Hv) Hx He _). apply Ho. done.
  - intros j e Hin. destruct (decide (j = i)) as [->|Hne].
    + rewrite list_lookup_insert_eq by done. destruct (Hfl e Hin) as [->|]; [by left|by right].
    + rewrite list_lookup_insert_ne by done.
      destruct (If j e (Hfr j e Hne Hin)) as [|Hs]; [by left|right; by apply He].
  - destruct (main c) as [| | |r]; try done.
    + destruct Im as [Hs|Hs]; [left; by apply He|by right].
    + destruct Im as (_&_&E). lia.
Qed.

Lemma answers_keep (c : conf) (i : nat) (r : result unit) :
  i ∉ (answers c).*1 → NoDup (answers c).*1 →
  NoDup (answers c ++ [(i, r)]).*1 ∧
  (∀ j, j ≠ i → j ∈ (answers c ++ [(i, r)]).*1 → j ∈ (answers c).*1) ∧
  (∀ j e, j ≠ i → (j, Err e) ∈ answers c ++ [(i, r)] → (j, Err e) ∈ answers c) ∧
  (∀ e, (i, Err e) ∈ answers c ++ [(i, r)] → r = Err e).
Proof.
  intros Hi Hn. rewrite fmap_app. split_and!.
  - apply NoDup_app. split_and!; [done| |apply NoDup_singleton].
    intros j Hj Hs. apply list_elem_of_singleton in Hs as ->. done.
  - intros j Hne [?|?%list_elem_of_singleton]%elem_of_app; done.
  - intros j e Hne [?|Hs%list_elem_of_singleton]%elem_of_app; [done|]. by injection Hs as -> _.
  - intros e [Hin|Hs%list_elem_of_singleton]%elem_of_app.
    + apply (list_elem_of_fmap_2 fst) in Hin. done.
    + by injection Hs as <-.
Qed.

Lemma worker_inv i c c' : inv c → worker_step i c = Some c' → inv c'.
Proof.
  intros I Hs. pose proof I as [Ih Ib Is [In Ii] Iw If Ic I1 Im]. unfold worker_step in Hs.
  destruct (workers c !! i) as [w|] eqn:Ei; [|done].
  pose proof (lookup_lt_Some _ _ _ Ei) as Hlt. pose proof (Iw i w Ei) as Hok.
  assert (Hone : 1 ≤ held c ∨ w = WDone).
  { destruct (decide (active w = 0)) as [E|E]; [right; by destruct w|].
    left. rewrite Ih. pose proof (sum_lookup active _ _ _ Ei). lia. }
  assert (Hnf : ∀ e, (i, Err e) ∈ answers c → w = WFail e ∨ is_Some (firstErr c)).
  { intros e Hin. destruct (If i e Hin) as [E|]; [left; congruence|by right]. }
  destruct w; try done.
  - apply (moves_inv i WStart (match ctx_err (state c) with Some e => WFail e
      | None => if cancelled c then WFail Canceled else WSend end) c); [done|].
    assert (Hc' : c' = set_worker i (match ctx_err (state c) with Some e => WFail e
      | None => if cancelled c then WFail Canceled else WSend end) c)
      by (injection Hs as <-; by destruct (ctx_err (state c))).
    rewrite Hc'. split; cbn; try done.
    + destruct (ctx_err (state c)), (cancelled c); cbn; lia.
    + destruct (ctx_err (state c)) eqn:Ec; [left; right; eauto|].
      destruct (cancelled c) eqn:Ecn; [right; by apply Ic|done].
    + intros e Hin. destruct (Hnf e Hin) as [|]; [done|by right].
  - destruct (send i (state c)) as [s r] eqn:Es. injection Hs as <-.
    destruct (answers_keep c i r Hok In) as (K1&K2&K3&K4).
    apply (moves_inv i WSend (match r with Ok _ => WRelease | Err e => WFail e end) c); [done|].
    split; cbn; try done.
    + destruct r; cbn; lia.
    + intros x Hx. apply elem_of_app. by left.
    + destruct r as [[]|e]; cbn; left; [|left; exists i]; apply elem_of_app; right; by apply list_elem_of_singleton.
    + intros e Hin. rewrite (K4 e Hin). by left.
    + intros e He. destruct (I1 e He) as [[j Hj]|Hj]; [left; exists j; apply elem_of_app; by left|by right].
  - injection Hs as <-. apply (moves_inv i (WFail e) WCancel c); [done|]. split; cbn; try done.
    + lia.
    + intros [e' He']. rewrite He'. by eexists.
    + destruct (firstErr c); by eexists.
    + intros e' Hin. right. destruct (firstErr c); by eexists.
    + intros Hcn. destruct (firstErr c); by eexists.
    + intros e' He'. destruct (firstErr c) as [e0|] eqn:Ef.
      * injection He' as <-. by apply I1.
      * injection He' as <-. cbn in Hok. rewrite Ef in Hok. by destruct Hok as [|[? ?]].
  - injection Hs as <-. apply (moves_inv i WCancel WRelease c); [done|]. split; cbn; try done.
    + lia.
    + by right.
    + by right.
  - injection Hs as <-. apply (moves_inv i WRelease WDone c); [done|]. split; cbn; try done.
    + lia.
    + intros e Hin. destruct (Hnf e Hin) as [|]; [done|by right].
Qed.

Lemma step_inv c c' : inv c → partials_step c c' → inv c'.
Proof.
  intros I [c1 [? H|i ? H]|s' _]; [by eapply main_inv|by eapply worker_inv|].
  destruct I. by split.
Qed.

Lemma steps_inv c c' : inv c → rtc partials_step c c' → inv c'.
Proof. intros I. induction 1 as [|c c1 c' Hs _ IH]; [done|]. apply IH. by eapply step_inv. Qed.

(** ** Termination *)
Lemma main_work c c' : inv c → main_step c = Some c' → work c' < work c.
Proof.
  intros I. unfold main_step, work. destruct (main c) eqn:Em.
  - intros [= <-]. cbn. destruct (_ && _) eqn:E; lia.
  - destruct (_ <? _); [|done]. intros [= <-]. cbn.
    pose proof (inv_started _ I) as Hs. rewrite Em in Hs.
    rewrite length_app, sum_list_with_app. cbn. lia.
  - destruct (forallb _ _); [|done]. intros [= <-]. cbn. lia.
  - done.
Qed.

Lemma worker_work i c c' : worker_step i c = Some c' → work c' < work c.
Proof.
  unfold worker_step. destruct (workers c !! i) as [w|] eqn:Ei; [|done].
  pose proof (lookup_lt_Some _ _ _ Ei) as Hlt.
  assert (Hm : ∀ w' s h f k a, weight w' < weight w →
    work (MkConf s (main c) (<[i := w']> (workers c)) h f k a) < work c).
  { intros w' s h f k a Hw. unfold work. cbn. rewrite length_insert.
    pose proof (sum_insert weight (workers c) i w w' Ei). lia. }
  destruct w; try done.
  - intros [= <-]. destruct (ctx_err (state c)), (cancelled c); apply Hm; cbn; lia.
  - destruct (send i (state c)) as [s r]. intros [= <-]. apply Hm. destruct r; cbn; lia.
  - intros [= <-]. apply Hm. cbn. lia.
  - intros [= <-]. apply Hm. cbn. lia.
  - intros [= <-]. apply Hm. cbn. lia.
Qed.

Lemma active_steps i w c : workers c !! i = Some w → active w ≠ 0 → ∃ c', worker_step i c = Some c'.
Proof.
  intros Hi Hw. unfold worker_step. rewrite Hi.
  destruct w; [by eexists|destruct (send i (state c)); by eexists|by eexists..|done].
Qed.

(** Unless the call has returned, some goroutine can take a step. *)
Lemma never_stuck c : inv c → (∃ r, main c = MReturned r) ∨ ∃ c', own_step c c'.
Proof.
  intros I. pose proof (inv_held _ I) as Hh.
  assert (Hactive : sum_list_with active (workers c) ≠ 0 → ∃ c', own_step c c').
  { intros (i&w&Hi&Hw)%sum_pos. destruct (active_steps i w c Hi Hw) as [c' Hc'].
    exists c'. by eapply own_worker. }
  destruct (main c) eqn:Em; [| | |by left; eexists]; right.
  - eexists. apply own_main. unfold main_step. by rewrite Em.
  - destruct (decide (held c < maxPartialsInFlight)) as [Hlt|Hge].
    + eexists. apply own_main. unfold main_step. rewrite Em. by rewrite (proj2 (Nat.ltb_lt _ _)) by done.
    + apply Hactive. unfold maxPartialsInFlight in Hge. lia.
  - destruct (decide (sum_list_with active (workers c) = 0)) as [E|E]; [|by apply Hactive].
    eexists. apply own_main. unfold main_step. rewrite Em.
    by rewrite (proj2 (workers_finished _) E).
Qed.

(** ** The return value *)
Lemma returned_nil c :
  inv c → main c = MReturned None →
  (answers c).*1 ≡ₚ seq 0 n ∧ Forall (λ a, a.2 = Ok tt) (answers c).
Proof.
  intros I Em. pose proof (inv_main _ I) as Hm. rewrite Em in Hm.
  destruct Hm as (Hf&[[e He]|Hlen]&Hdone); [by rewrite He in Hf|].
  destruct (inv_once _ I) as [Hnd Hlt].
  assert (Hall : ∀ i, i < n → (i, Ok tt) ∈ answers c).
  { intros i Hi. destruct (lookup_lt_is_Some_2 (workers c) i) as [w Hw]; [lia|].
    pose proof (inv_workers _ I i w Hw) as Hok. pose proof (sum_lookup active _ _ _ Hw).
    destruct w; cbn in *; try lia. destruct Hok as [|[e He]]; [done|]. by rewrite He in Hf. }
  split.
  - apply NoDup_Permutation; [done|apply NoDup_seq|]. intros i. rewrite elem_of_seq. split.
    + intros Hi%Hlt. lia.
    + intros [_ Hi]. apply (list_elem_of_fmap_2 fst _ (i, Ok tt)), Hall. lia.
  - apply Forall_forall. intros [i r] Hin. cbn. destruct r as [[]|e]; [done|].
    destruct (inv_failed _ I i e Hin) as [Hw|[e' He]]; [|by rewrite He in Hf].
    pose proof (sum_lookup active _ _ _ Hw). cbn in *. lia.
Qed.

(** At most one goroutine is started once an error is recorded. *)
Definition starts (c : conf) : nat :=
  length (workers c) + match main c with MAcquire => 1 | _ => 0 end.

Lemma failed_stops c c' :
  rtc partials_step c c' → is_Some (firstErr c) → starts c' ≤ starts c ∧ is_Some (firstErr c').
Proof.
  induction 1 as [c|c c1 c' Hs _ IH]; [done|]. intros Hf.
  assert (starts c1 ≤ starts c ∧ is_Some (firstErr c1)) as [H1 H2].
  { destruct Hs as [c1 [c2 H|i c2 H]|s' _]; [| |done].
    - unfold main_step, starts in *. destruct (main c) eqn:Em.
      + injection H as <-. rewrite (bool_decide_eq_true_2 _ Hf), andb_false_r. cbn. split; [lia|done].
      + destruct (_ <? _); [|done]. injection H as <-. cbn. rewrite length_app. cbn. split; [lia|done].
      + destruct (forallb _ _); [|done]. injection H as <-. cbn. split; [lia|done].
      + done.
    - unfold worker_step, starts in *. destruct (workers c !! i) as [w|]; [|done].
      destruct w; try done.
      all: try (injection H as <-; cbn; rewrite ?length_insert; split; [done|try done]).
      + injection H as <-. destruct (ctx_err (state c)); cbn; by rewrite length_insert.
      + destruct (send i (state c)) as [s r]. injection H as <-. cbn. by rewrite length_insert.
      + destruct Hf as [e' ->]. by eexists. }
  destruct (IH H2) as [H3 H4]. split; [lia|done].
Qed.

(** What transactions do to the world: a relation they and the rest of the
    world respect, and what an acknowledged one establishes for good. *)
Lemma partials_effect (R : S → S → Prop) (Good : S → Prop) (P : nat → S → Prop) s c :
  (∀ x, R x x) → (∀ x y z, R x y → R y z → R x z) → (∀ x y, Good x → R x y → Good y) →
  (∀ x y, Good x → evolves x y → R x y) → (∀ i x y r, Good x → send i x = (y, r) → R x y) →
  (∀ i x y, Good x → send i x = (y, Ok tt) → P i y) → (∀ i x y, R x y → P i x → P i y) →
  Good s → rtc partials_step (start s) c →
  R s (state c) ∧ ∀ i, (i, Ok tt) ∈ answers c → P i (state c).
Proof.
  intros Rr Rt Rg Re Rs Ps Pm Hg Hc. remember (start s) as c0 eqn:E0.
  assert (H0 : R s (state c0) ∧ ∀ i, (i, Ok tt) ∈ answers c0 → P i (state c0)).
  { subst c0. split; [apply Rr|]. intros i Hi. by apply not_elem_of_nil in Hi. }
  clear E0. induction Hc as [c|c c1 c' Hs _ IH]; [done|]. apply IH. destruct H0 as [H1 H2].
  assert (Hgc : Good (state c)) by (by eapply Rg).
  assert (Hkeep : ∀ y, R (state c) y → R s y ∧ ∀ i, (i, Ok tt) ∈ answers c → P i y).
  { intros y Hy. split; [by eapply Rt|]. intros i Hi. eapply Pm; [done|by apply H2]. }
  destruct Hs as [c1 [c2 H|i c2 H]|y Hy]; [| |by apply Hkeep, Re].
  - unfold main_step in H. destruct (main c); [|destruct (_ <? _); [|done]|destruct (forallb _ _); [|done]|done];
      by injection H as <-.
  - unfold worker_step in H. destruct (workers c !! i) as [[]|]; try done.
    + injection H as <-. by destruct (ctx_err (state c)).
    + destruct (send i (state c)) as [y r] eqn:Es. injection H as <-. cbn.
      destruct (Hkeep y) as [K1 K2]; [by eapply Rs|]. split; [done|].
      intros j [Hj|Hj%list_elem_of_singleton]%elem_of_app; [by apply K2|].
      injection Hj as -> <-. by eapply Ps.
    + by injection H as <-.
    + by injection H as <-.
    + by injection H as <-.
Qed.

(** What a return without error says, in one piece. *)
Lemma submitPartials_nil s s' acks :
  submitPartials s None s' acks → acks.*1 ≡ₚ seq 0 n ∧ Forall (λ a, a.2 = Ok tt) acks.
Proof.
  intros (c & Hc & Hm & _ & <-). apply returned_nil; [|done].
  by eapply steps_inv; [apply start_inv|].
Qed.

(** A schedule: [None] is the caller, [Some i] goroutine [i]. *)
Definition own (k : option nat) (c : conf) : option conf :=
  match k with None => main_step c | Some i => worker_step i c end.

Fixpoint run_schedule (ks : list (option nat)) (c : conf) : option conf :=
  match ks with
  | [] => Some c
  | k :: ks => match own k c with Some c => run_schedule ks c | None => None end
  end.

Lemma run_schedule_steps ks c c' : run_schedule ks c = Some c' → rtc partials_step c c'.
Proof.
  revert c. induction ks as [|k ks IH]; intros c; cbn; [intros [= <-]; constructor|].
  destruct (own k c) as [c1|] eqn:E; [|done]. intros H. eapply rtc_l; [|by apply IH].
  apply step_own. destruct k; [by eapply own_worker|by eapply own_main].
Qed.

(** C35: the partial decryptions are submitted concurrently and completely. On
    every schedule and whatever the rest of the world does: at most sixteen
    goroutines hold a slot; no partial is sent twice; the call is never stuck
    and takes a bounded number of steps; when it returns no error every partial
    was sent exactly once and acknowledged; when it returns an error it is that
    of a transaction or of the caller's context; and once an error is recorded
    at most one more goroutine is started. *)
Theorem partials_submitted s c :
  rtc partials_step (start s) c →
  sum_list_with active (workers c) ≤ maxPartialsInFlight ∧
  NoDup (answers c).*1 ∧
  ((∃ r, main c = MReturned r) ∨ ∃ c', own_step c c') ∧
  (∀ c', own_step c c' → work c' < work c) ∧
  (main c = MReturned None → (answers c).*1 ≡ₚ seq 0 n ∧ Forall (λ a, a.2 = Ok tt) (answers c)) ∧
  (∀ e, main c = MReturned (Some e) → cause c e) ∧
  (∀ c', is_Some (firstErr c) → rtc partials_step c c' →
     length (workers c') ≤ length (workers c) + 1).
Proof.
  intros Hc. pose proof (steps_inv _ _ (start_inv s) Hc) as I. split_and!.
  - rewrite <-(inv_held _ I). apply I.
  - apply I.
  - by apply never_stuck.
  - intros c' [c1 H|i c1 H]; [by apply main_work|by eapply worker_work].
  - by apply returned_nil.
  - intros e Em. pose proof (inv_main _ I) as Hm. rewrite Em in Hm. destruct Hm as [Hf _].
    by apply (inv_first _ I).
  - intros c' Hf Hs. destruct (failed_stops c c' Hs Hf) as [Hle _]. unfold starts in Hle.
    destruct (main c), (main c'); lia.
Qed.
End partials.

(** Two partials, the second one refused by the ledger. *)
Definition example_send (i : nat) (s : nat) : nat * result unit :=
  if i =? 0 then (Datatypes.S s, Ok tt) else (s, Err (Foreign "refused")).

Definition example_schedule : list (option nat) :=
  [None; None; None; None; Some 1; Some 0; Some 1; Some 0; Some 1; Some 1; Some 0; None; Some 1; None].

Definition example_end : @conf nat :=
  MkConf 8 (MReturned (Some (Foreign "refused"))) [WDone; WDone] 0 (Some (Foreign "refused")) true
    [(1, Err (Foreign "refused")); (0, Ok tt)].

Lemma example_runs :
  run_schedule (λ _ : nat, None) example_send 2 example_schedule (start 7) = Some example_end.
Proof. vm_compute. reflexivity. Qed.

Lemma example_reached : rtc (partials_step (λ _ : nat, None) example_send (λ _ _, False) 2) (start 7) example_end.
Proof. exact (run_schedule_steps _ _ _ _ _ _ _ example_runs). Qed.

Lemma partials_submitted_witness :
  main example_end = MReturned (Some (Foreign "refused")) ∧
  cause (λ _ : nat, None) example_end (Foreign "refused").
Proof.
  split; [reflexivity|].
  destruct (partials_submitted (λ _, None) example_send (λ _ _, False) 2 7 example_end
    example_reached) as (_&_&_&_&_&H&_).
  exact (H _ eq_refl).
Defined.
End Partials.
