(* ===== verification/Timeline.v ===== *)
(** * The attack timeline

    [saksi-campaign/timeline.go]: a lifecycle paused at a stage — the operator's
    decisions, the bounded decision queue, the loop that mounts the stage's
    attacks — and the ballot window that is split in two around such a pause. *)
From S2P Require Import Prelude GoText Config Scenarios Bench.
From Stdlib Require Import SpecFloat.
#[local] Open Scope Z_scope.
Import GoText Config Scenarios.

Module Timeline.

(** ** The plan *)
Definition has (p : option AttackPlanT) (stage : string) : bool :=
  match p with Some p => bool_decide (stage ∈ Stages p) | None => false end.

Definition DefaultBallotsAt : float64 := float_div f_one (float_of_Z 2).

Definition DefaultPauseTimeout : Z := 5 * 60 * 10 ^ 9.

Definition timeout (p : option AttackPlanT) : Z :=
  match p with
  | Some p =>
      if SFleb (TimeoutS p) f_zero then DefaultPauseTimeout
      else default 0 (float_to_int (float_mul (TimeoutS p) (float_of_Z (10 ^ 9))))
  | None => DefaultPauseTimeout
  end.

Definition pauseIndex (p : option AttackPlanT) (n : Z) : Z :=
  match p with
  | Some plan =>
      if negb (has p StageBallots) || (n <? 2) then 0
      else
        let at_ := if SFeqb (BallotsAt plan) f_zero then DefaultBallotsAt else BallotsAt plan in
        Z.min (Z.max (default 0 (float_to_int (float_mul at_ (float_of_Z n)))) 1) (n - 1)
  | None => 0
  end.

(** ** A pause and its decisions *)
Record PauseView := MkView {
  Paused : bool; VStage : string; VScenarios : list string; VMount : MountContext;
  Live : bool; Deadline : option Z; Running : string
}.

(** [PauseView{}], what a run that is not paused reports. *)
Definition no_view : PauseView := MkView false "" [] no_mount false None "".

Record pauseDecision := MkDecision { action : string; scenario : string }.

(** [decide_chan] is the buffered channel, oldest decision first. *)
Record stagePause := MkPause { view : PauseView; decide_chan : list pauseDecision; closed : bool }.

(** [make(chan pauseDecision, 8)]. *)
Definition decide_capacity : nat := 8.

Definition with_running (id : string) (p : stagePause) : stagePause :=
  let v := view p in
  MkPause (MkView (Paused v) (VStage v) (VScenarios v) (VMount v) (Live v) (Deadline v) id)
    (decide_chan p) (closed p).

Definition with_deadline (t : Z) (p : stagePause) : stagePause :=
  let v := view p in
  MkPause (MkView (Paused v) (VStage v) (VScenarios v) (VMount v) (Live v) (Some t) (Running v))
    (decide_chan p) (closed p).

Definition closeIfIdle (p : stagePause) : stagePause * bool :=
  match decide_chan p with
  | _ :: _ => (p, false)
  | [] => (MkPause (view p) (decide_chan p) true, true)
  end.

Definition close (p : stagePause) : stagePause := MkPause (view p) (decide_chan p) true.

Definition errNoPause : goerr := Errorf "this run is not paused at an attack stage" [].

Definition errPauseEnded : goerr := Errorf "this stage has already continued" [].

(** [PauseStatus] on the pause registered for a run, if any. *)
Definition PauseStatus (p : option stagePause) : PauseView :=
  match p with None => no_view | Some p => view p end.

(** [DecidePause] once it holds the pause it looked up. *)
Definition decide_on (d : pauseDecision) (p : stagePause) : stagePause * result unit :=
  let v := view p in
  let checked :=
    if String.eqb (action d) "run" then
      if bool_decide (scenario d ∈ VScenarios v) then Ok tt
      else Err (Errorf "scenario %q is not an attack of the %s stage" [AStr (scenario d); AStr (VStage v)])
    else if String.eqb (action d) "run-all" || String.eqb (action d) "skip" then Ok tt
    else Err (Errorf "unknown pause action %q (want run, run-all or skip)" [AStr (action d)]) in
  match checked with
  | Err e => (p, Err e)
  | Ok _ =>
      if closed p
      then (p, Err (Errorf "%w: the %s stage takes no more decisions" [AErr errPauseEnded; AStr (VStage v)]))
      else if (length (decide_chan p) <? decide_capacity)%nat
      then (MkPause v (decide_chan p ++ [d]) (negb (String.eqb (action d) "run")), Ok tt)
      else (p, Err (Errorf "the %s stage is still working through earlier decisions" [AStr (VStage v)]))
  end.

Definition DecidePause (registered : option stagePause) (d : pauseDecision) :
    option stagePause * result unit :=
  match registered with
  | None => (None, Err errNoPause)
  | Some p => let '(p, r) := decide_on d p in (Some p, r)
  end.

(** ** The paused lifecycle *)

(** Where [pauseForAttacks] is: selecting; at the head of a loop over attacks
    that answers one decision ([None]) or runs the rest of the stage before it
    resumes for a reason; inside [mount]; or past the pause. *)
Inductive phase :=
| Waiting
| AtLoop (todo : list Scenario) (ending : option string)
| Mounting (sc : Scenario) (todo : list Scenario) (ending : option string)
| Resumed (reason : string).

(** [ran] holds the keys of the map of that name, in the order they were set. *)
Record lifecycle := MkLife {
  pause : stagePause; at_ : phase; ran : list string; results : list ScenarioResult
}.

Definition with_mount (mc : MountContext) (r : ScenarioResult) : ScenarioResult :=
  MkResult (RScenario r) (RLayer r) (RAction r) (RExpected r) (Actual r) (Verdict r)
    (RProperty r) (OnChain r) (RStage r) mc (GateExpected r) (GateObserved r).

Definition stage_mount (stage : string) (mc : MountContext) : MountContext :=
  MkMount stage (ElectionStatus mc) (BallotsCommitted mc) (BlockHeight mc).

(** The pause as [pauseForAttacks] registers it. *)
Definition new_pause (now limit : Z) (stage : string) (mc : MountContext) (live : bool) : stagePause :=
  MkPause (MkView true stage (ID <$> ScenariosForStage stage) (stage_mount stage mc) live
             (Some (now + limit)) "") [] false.

(** One turn of the loop: [ctxErr] is whether the context has ended. *)
Inductive turn :=
| Cancelled (* the select takes [ctx.Done()] *)
| TimedOut (* the timer fires *)
| Decided (* the select takes a decision *)
| NextAttack (ctxErr : bool) (now : Z)
| Mounted (res : ScenarioResult).

Definition loop_turn (limit : Z) (stage : string) (mc : MountContext) (t : turn) (l : lifecycle) :
    option lifecycle :=
  let p := pause l in
  let scs := ScenariosForStage stage in
  match at_ l, t with
  | Waiting, Cancelled => Some (MkLife (close p) (Resumed "cancelled") (ran l) (results l))
  | Waiting, TimedOut =>
      let '(p, idle) := closeIfIdle p in
      Some (MkLife p (if idle then AtLoop scs (Some "timeout") else Waiting) (ran l) (results l))
  | Waiting, Decided =>
      match decide_chan p with
      | [] => None
      | d :: queue =>
          let p := MkPause (view p) queue (closed p) in
          Some (MkLife p
            (if String.eqb (action d) "run-all" then AtLoop scs (Some "run-all")
             else if String.eqb (action d) "skip" then Resumed "skip"
             else if String.eqb (action d) "run"
             then AtLoop (filter (λ sc, ID sc = scenario d) scs) None
             else Waiting) (ran l) (results l))
      end
  | AtLoop [] None, NextAttack _ now => Some (MkLife (with_deadline (now + limit) p) Waiting (ran l) (results l))
  | AtLoop [] (Some reason), NextAttack _ _ => Some (MkLife p (Resumed reason) (ran l) (results l))
  | AtLoop (sc :: todo) ending, NextAttack ctxErr _ =>
      let skipped := match ending with
                     | None => false
                     | Some _ => bool_decide (ID sc ∈ ran l) || ctxErr
                     end in
      if skipped : bool then Some (MkLife p (AtLoop todo ending) (ran l) (results l))
      else Some (MkLife (with_running (ID sc) p) (Mounting sc todo ending) (ran l) (results l))
  | Mounting sc todo ending, Mounted res =>
      Some (MkLife (with_running "" p) (AtLoop todo ending)
              (ran l ++ [ID sc]) (results l ++ [with_mount (stage_mount stage mc) res]))
  | _, _ => None
  end.

(** ** The split ballot window *)
Import Bench.

(** [copy(dst, src)]. *)
Definition go_copy {A} (dst src : list A) : list A :=
  take (length dst) src ++ drop (length src) dst.

(** [copy(dst[at:], src)]. *)
Definition go_copy_from {A} (k : nat) (dst src : list A) : list A :=
  take k dst ++ go_copy (drop k dst) src.

Definition joinWindows (n k : nat) (a b : RunResult) : RunResult :=
  MkRunResult (Submitted a + Submitted b) (Committed a + Committed b) (Dropped a + Dropped b)
    (Latencies a ++ Latencies b) (Window a + Window b) (Stopped a || Stopped b)
    (if 0 <=? LastIndex b then Z.of_nat k + LastIndex b else LastIndex a)
    (go_copy_from k (go_copy (replicate n 0) (ByIndex a)) (ByIndex b))
    (go_copy_from k (go_copy (replicate n false) (OK a)) (OK b)) (Concurrency a).

(** [bench.RunResult{LastIndex: -1, Stopped: true}]. *)
Definition no_window : RunResult := MkRunResult 0 0 0 [] 0 true (-1) [] [] 0.

(** Whether the second half is dispatched: the first half ended at its pause
    point, no cancellation, and time left ([maxDuration] 0 is unbounded). *)
Definition goes_on (ctxErr : bool) (maxDuration : Z) (first : RunResult) : bool :=
  negb (Stopped first || ctxErr) &&
  negb ((0 <? maxDuration) && (maxDuration - Window first <=? 0)).

(** [pausedWindow]: [first] and [second] are what the dispatcher returned for
    the ballots before and from the pause point [k]. *)
Definition pausedWindow (n k : nat) (ctxErr : bool) (maxDuration : Z) (first second : RunResult) :
    RunResult :=
  if goes_on ctxErr maxDuration first then joinWindows n k first second
  else joinWindows n k first no_window.

(** [slices.Index(first.OK[:at], true)]. *)
Definition donor_index (k : nat) (first : RunResult) : Z :=
  match list_find (λ b, b = true) (take k (OK first)) with
  | Some (i, _) => Z.of_nat i
  | None => -1
  end.

(** ** The live ballot attack *)

(** [ballotLinesAt]: the wanted lines of the ballots file, negative indices
    ignored. *)
Definition ballotLinesAt (lines : list string) (want : list Z) : result (gmap Z string) :=
  let need := length (filter (λ i, 0 <= i) want) in
  let out : gmap Z string :=
    list_to_map (filter (λ p : Z * string, p.1 ∈ want) (imap (λ i s, (Z.of_nat i, s)) lines)) in
  if (size out =? need)%nat then Ok out
  else Err (Errorf "%s has no ballot at %v" [AStr "ballots.ndjson"; AStrs (Itoa <$> want)]).
End Timeline.
