(* ===== verification/TimelineFacts.v ===== *)
(** * Pauses and split windows: what they promise

    Every decision the console accepts for a paused stage is carried out, in
    the order accepted, unless the phase is cancelled; an unattended stage runs
    all its attacks; and a ballot window split around a pause accounts for its
    ballots as one window. *)
From S2P Require Import Prelude GoText Config Scenarios Bench Timeline.
#[local] Open Scope Z_scope.
Import Config Scenarios Timeline.

Module TimelineFacts.

#[local] Arguments ScenariosForStage : simpl never.
#[local] Arguments decide_on : simpl never.

(** ** Runs of a pause *)

(** What happens next around a pause: a decision request arrives, or the
    lifecycle's own loop takes a turn. *)
Inductive event := Decide (d : pauseDecision) | Turn (t : turn).

(** The lifecycle with what happened so far: the decisions accepted and the
    ones taken up, and whether a turn saw the context ended. *)
Record history := MkHistory {
  life : lifecycle; accepted : list pauseDecision; applied : list pauseDecision; cut : bool
}.

Definition taken_up (t : turn) (l : lifecycle) : list pauseDecision :=
  match t, at_ l, decide_chan (pause l) with Decided, Waiting, d :: _ => [d] | _, _, _ => [] end.

Definition saw_end (t : turn) : bool :=
  match t with Cancelled => true | NextAttack c _ => c | _ => false end.

Definition advance (limit : Z) (stage : string) (mc : MountContext) (e : event) (h : history) :
    option history :=
  match e with
  | Decide d =>
      let '(p, r) := decide_on d (pause (life h)) in
      Some (MkHistory (MkLife p (at_ (life h)) (ran (life h)) (results (life h)))
              (if is_ok r then accepted h ++ [d] else accepted h) (applied h) (cut h))
  | Turn t =>
      match loop_turn limit stage mc t (life h) with
      | Some l => Some (MkHistory l (accepted h) (applied h ++ taken_up t (life h)) (cut h || saw_end t))
      | None => None
      end
  end.

Fixpoint run_pause (limit : Z) (stage : string) (mc : MountContext) (evs : list event) (h : history) :
    option history :=
  match evs with
  | [] => Some h
  | e :: evs => match advance limit stage mc e h with
                | Some h => run_pause limit stage mc evs h
                | None => None
                end
  end.

Definition paused_at (now limit : Z) (stage : string) (mc : MountContext) (live : bool) : history :=
  MkHistory (MkLife (new_pause now limit stage mc live) Waiting [] []) [] [] false.

(** ** The invariant *)

(** The attacks a list of decisions asks to run, one by one. *)
Definition asked (ds : list pauseDecision) : list string :=
  scenario <$> filter (λ d, action d = "run") ds.

Definition is_run (d : pauseDecision) : Prop := action d = "run".

Definition known (stage : string) (d : pauseDecision) : Prop :=
  (action d = "run" ∧ scenario d ∈ ID <$> ScenariosForStage stage) ∨
  action d = "run-all" ∨ action d = "skip".

(** A queue that closes its stage ends in the decision that closed it. *)
Definition queue_ok (stage : string) (q : list pauseDecision) (cl : bool) : Prop :=
  Forall (known stage) q ∧
  if cl then ∃ q' d, q = q' ++ [d] ∧ Forall is_run q' ∧ ¬ is_run d else Forall is_run q.

(** Every attack of the stage is done, still to come, or was skipped because
    the context had ended. *)
Definition covered (stage : string) (done_ : list string) (todo : list Scenario) (cut_ : bool) : Prop :=
  cut_ = true ∨ ∀ sc, sc ∈ ScenariosForStage stage → ID sc ∈ done_ ∨ sc ∈ todo.

(** The end of the decisions: all asked for ran one by one, or the last one
    ended the stage. *)
Definition ended_by (reason : string) (ds : list pauseDecision) : Prop :=
  if bool_decide (reason = "timeout") then Forall is_run ds
  else ∃ ds' d, ds = ds' ++ [d] ∧ Forall is_run ds' ∧ action d = reason.

(** The attacks named in [done_] are those asked for ([want]), in order, then others of
    the stage none of which is run twice. *)
Definition ran_as_asked (stage : string) (want done_ : list string) : Prop :=
  ∃ rest, done_ = want ++ rest ∧ NoDup rest ∧
    ∀ id, id ∈ rest → (id ∉ want) ∧ id ∈ ID <$> ScenariosForStage stage.

Definition runs_the_rest (reason : string) : Prop := reason = "timeout" ∨ reason = "run-all".

(** What holds in each phase of the loop. *)
Definition phase_ok (stage : string) (h : history) : Prop :=
  let l := life h in
  let q := decide_chan (pause l) in
  let ds := applied h in
  let over reason := q = [] ∧ closed (pause l) = true ∧ ended_by reason ds ∧
                     ran_as_asked stage (asked ds) (ran l) in
  match at_ l with
  | Waiting => Forall is_run ds ∧ queue_ok stage q (closed (pause l)) ∧ ran l = asked ds
  | AtLoop todo None =>
      Forall is_run ds ∧ queue_ok stage q (closed (pause l)) ∧ ran l ++ (ID <$> todo) = asked ds
  | Mounting sc todo None =>
      Forall is_run ds ∧ queue_ok stage q (closed (pause l)) ∧
      ran l ++ ID sc :: (ID <$> todo) = asked ds
  | AtLoop todo (Some reason) =>
      runs_the_rest reason ∧ over reason ∧ todo ⊆ ScenariosForStage stage ∧
      covered stage (ran l) todo (cut h)
  | Mounting sc todo (Some reason) =>
      runs_the_rest reason ∧ over reason ∧ sc :: todo ⊆ ScenariosForStage stage ∧ (ID sc ∉ ran l) ∧
      covered stage (ran l) (sc :: todo) (cut h)
  | Resumed reason =>
      closed (pause l) = true ∧ ran_as_asked stage (asked ds) (ran l) ∧
      (reason ≠ "cancelled" → q = [] ∧ ended_by reason ds ∧
         (reason ≠ "skip" → covered stage (ran l) [] (cut h)) ∧
         (reason = "skip" → ran l = asked ds))
  end.

Definition pause_inv (stage : string) (mc : MountContext) (h : history) : Prop :=
  accepted h = applied h ++ decide_chan (pause (life h)) ∧
  VScenarios (view (pause (life h))) = ID <$> ScenariosForStage stage ∧
  length (results (life h)) = length (ran (life h)) ∧
  Forall (λ r, Mount r = stage_mount stage mc) (results (life h)) ∧
  phase_ok stage h.

Lemma asked_app ds ds' : asked (ds ++ ds') = asked ds ++ asked ds'.
Proof. unfold asked. by rewrite filter_app, fmap_app. Qed.

Lemma ran_as_asked_self stage want : ran_as_asked stage want want.
Proof.
  exists []. rewrite app_nil_r. split_and!; [done | constructor | by intros ? ?%not_elem_of_nil].
Qed.

Lemma ran_as_asked_snoc stage want done_ sc :
  ran_as_asked stage want done_ → (ID sc ∉ done_) → sc ∈ ScenariosForStage stage →
  ran_as_asked stage want (done_ ++ [ID sc]).
Proof.
  intros (rest & -> & Hnd & Hr) Hn Hin. exists (rest ++ [ID sc]).
  rewrite elem_of_app in Hn. split_and!; [by rewrite (assoc_L (++)) | |].
  - apply NoDup_app. split_and!; [done | | apply NoDup_singleton].
    intros x Hx Hi. apply list_elem_of_singleton in Hi as ->. tauto.
  - intros id [?|Hid]%elem_of_app; [by apply Hr|]. apply list_elem_of_singleton in Hid as ->.
    split; [tauto|]. by apply list_elem_of_fmap_2.
Qed.

Lemma registry_ids : NoDup (ID <$> Registry).
Proof. apply (bool_decide_unpack _). vm_compute. done. Qed.

Lemma filter_by_id (l : list Scenario) id :
  NoDup (ID <$> l) → id ∈ ID <$> l → ID <$> filter (λ sc, ID sc = id) l = [id].
Proof.
  induction l as [|sc l IH]; cbn [fmap list_fmap]; [by intros _ ?%not_elem_of_nil|].
  rewrite NoDup_cons, elem_of_cons, filter_cons. intros [Hn Hnd] Hin.
  destruct (decide (ID sc = id)) as [<-|Hne].
  - cbn [fmap list_fmap]. rewrite filter_none; [done|]. apply Forall_forall. intros x Hx E. apply Hn.
    rewrite <- E. by apply list_elem_of_fmap_2.
  - destruct Hin as [->|Hin]; [done|]. by apply IH.
Qed.

Lemma stage_attack stage id :
  id ∈ ID <$> ScenariosForStage stage →
  ID <$> filter (λ sc, ID sc = id) (ScenariosForStage stage) = [id].
Proof.
  apply filter_by_id. eapply sublist_NoDup; [exact registry_ids|].
  apply fmap_sublist, sublist_filter.
Qed.
(** ** Decisions *)
Lemma decide_on_closed d p : closed p = true → ∃ e, decide_on d p = (p, Err e).
Proof.
  intros Hc. unfold decide_on. rewrite Hc.
  destruct (String.eqb (action d) "run"); [case_bool_decide; eauto|].
  destruct (_ || _); eauto.
Qed.

Lemma decide_on_ok d p p' stage :
  VScenarios (view p) = ID <$> ScenariosForStage stage → decide_on d p = (p', Ok tt) →
  closed p = false ∧ known stage d ∧
  p' = MkPause (view p) (decide_chan p ++ [d]) (negb (bool_decide (action d = "run"))).
Proof.
  intros Hs. unfold decide_on, known. rewrite Hs.
  destruct (String.eqb_spec (action d) "run") as [Er|Er].
  - case_bool_decide as Hin; [|done]. destruct (closed p); [done|].
    destruct (_ <? _)%nat; [|done]. intros [= <-]. rewrite bool_decide_eq_true_2 by done. auto.
  - destruct (String.eqb_spec (action d) "run-all"), (String.eqb_spec (action d) "skip");
      cbn [orb]; try done; (destruct (closed p); [done|]; destruct (_ <? _)%nat; [|done];
      intros [= <-]; rewrite bool_decide_eq_false_2 by done; auto).
Qed.

Lemma decide_on_err d p p' e : decide_on d p = (p', Err e) → p' = p.
Proof.
  unfold decide_on. destruct (String.eqb (action d) "run");
    [case_bool_decide|destruct (_ || _)]; try by intros [= <- _].
  all: destruct (closed p); [by intros [= <- _]|]; destruct (_ <? _)%nat; [done | by intros [= <- _]].
Qed.

Lemma queue_push stage q d :
  queue_ok stage q false → known stage d →
  queue_ok stage (q ++ [d]) (negb (bool_decide (action d = "run"))).
Proof.
  intros [Hk Hr] Hd. split; [apply Forall_app; auto|].
  case_bool_decide as Ha; cbn [negb]; [apply Forall_app; auto|].
  by exists q, d.
Qed.

Lemma queue_pop stage d q cl :
  queue_ok stage (d :: q) cl → known stage d ∧
  (action d = "run" ∧ queue_ok stage q cl ∨ action d ≠ "run" ∧ q = [] ∧ cl = true).
Proof.
  intros [Hk Hq]. apply Forall_cons in Hk as [Hd Hk]. split; [done|]. destruct cl.
  - destruct Hq as ([|d' q'] & e & E & Hr & He); injection E as -> ->; [by right|].
    apply Forall_cons in Hr as [Hd' Hr]. left. split; [done|]. split; [done|]. by exists q', e.
  - apply Forall_cons in Hq as [Hr Hq]. by left.
Qed.

Lemma decide_step stage mc d limit h h' :
  pause_inv stage mc h → advance limit stage mc (Decide d) h = Some h' → pause_inv stage mc h'.
Proof.
  intros (Ha & Hv & Hlen & Hm & Hp). cbn [advance].
  destruct (decide_on d (pause (life h))) as [p [[]|e]] eqn:E; intros [= <-].
  - destruct (decide_on_ok _ _ _ _ Hv E) as (Hc & Hk & ->). split_and!; cbn; try done.
    { by rewrite Ha, (assoc_L (++)). }
    unfold phase_ok in *. cbn. rewrite Hc in Hp.
    destruct (at_ (life h)) as [|todo [r|]|sc todo [r|]|r].
    + destruct Hp as (? & ? & ?). split_and!; [done | by apply queue_push | done].
    + by destruct Hp as (_ & (_ & ? & _) & _).
    + destruct Hp as (? & ? & ?). split_and!; [done | by apply queue_push | done].
    + by destruct Hp as (_ & (_ & ? & _) & _).
    + destruct Hp as (? & ? & ?). split_and!; [done | by apply queue_push | done].
    + by destruct Hp as (? & _).
  - apply decide_on_err in E as ->. by split_and!.
Qed.
(** ** Turns of the loop *)
Lemma covered_cut stage done_ todo c b :
  covered stage done_ todo c → covered stage done_ todo (c || b).
Proof. intros [->|?]; [by left | by right]. Qed.

(** One attack fewer to come: it is done, or the context had ended. *)
Lemma covered_next stage done_ done' sc todo c c' :
  covered stage done_ (sc :: todo) c → (c = true → c' = true) →
  (∀ id, id ∈ done_ → id ∈ done') → ID sc ∈ done' ∨ c' = true →
  covered stage done' todo c'.
Proof.
  intros [?|Hc] Hcc Hd [Hin|?]; [left; auto.. | right | by left].
  intros x Hx. destruct (Hc x Hx) as [?|[->|?]%elem_of_cons]; auto.
Qed.

Lemma asked_run ds d : action d = "run" → asked (ds ++ [d]) = asked ds ++ [scenario d].
Proof. intros E. rewrite asked_app. unfold asked at 2. by rewrite filter_cons_True. Qed.

Lemma asked_end ds d : action d ≠ "run" → asked (ds ++ [d]) = asked ds.
Proof.
  intros E. rewrite asked_app. unfold asked at 2. rewrite filter_cons_False by done.
  apply app_nil_r.
Qed.

Lemma ended_by_last ds d :
  Forall is_run ds → action d ≠ "timeout" → ended_by (action d) (ds ++ [d]).
Proof. intros Hr Ht. unfold ended_by. rewrite bool_decide_eq_false_2 by done. by exists ds, d. Qed.

Lemma covered_all stage done_ c : covered stage done_ (ScenariosForStage stage) c.
Proof. right. by right. Qed.

(** The select takes a decision. *)
Lemma decided_step stage mc limit h h' :
  at_ (life h) = Waiting → pause_inv stage mc h →
  advance limit stage mc (Turn Decided) h = Some h' → pause_inv stage mc h'.
Proof.
  intros Ew (Ha & Hv & Hlen & Hm & Hp). unfold phase_ok in Hp. rewrite Ew in Hp.
  destruct Hp as (Hr & Hq & Hran). cbn [advance].
  unfold loop_turn, taken_up. rewrite Ew.
  destruct (decide_chan (pause (life h))) as [|d q] eqn:Eq; [done|]. intros [= <-].
  destruct (queue_pop _ _ _ _ Hq) as [Hk Hpop].
  split_and!; try done; [cbn; by rewrite Ha, <- (assoc_L (++))|].
  unfold phase_ok. cbn [life at_ pause decide_chan closed applied ran cut].
  destruct Hk as [[Er Hin]|Hend].
  - destruct Hpop as [[_ Hq']|(? & _)]; [|done]. rewrite Er.
    change (String.eqb "run" "run-all") with false. change (String.eqb "run" "skip") with false.
    change (String.eqb "run" "run") with true. cbn iota. split_and!.
    + apply Forall_app. auto.
    + exact Hq'.
    + by rewrite asked_run, stage_attack, Hran.
  - assert (action d ≠ "run") as Hn by (destruct Hend as [-> | ->]; done).
    destruct Hpop as [[? _]|(_ & -> & Hc)]; [done|].
    pose proof (ended_by_last (applied h) d Hr) as He.
    rewrite asked_end, Hran by done.
    pose proof (ran_as_asked_self stage (asked (applied h))) as Hself.
    destruct Hend as [E|E]; rewrite E in *.
    + change (String.eqb "run-all" "run-all") with true. cbn iota.
      split_and!; try done; [by right | by apply He | apply covered_all].
    + change (String.eqb "skip" "run-all") with false. change (String.eqb "skip" "skip") with true.
      cbn iota. split_and!; try done. intros _. split_and!; try done. by apply He.
Qed.

Lemma waiting_step stage mc limit t h h' :
  at_ (life h) = Waiting → pause_inv stage mc h →
  advance limit stage mc (Turn t) h = Some h' → pause_inv stage mc h'.
Proof.
  destruct t as [| | |c now|res]; [| |by apply decided_step| |];
    intros Ew (Ha & Hv & Hlen & Hm & Hp); unfold phase_ok in Hp; rewrite Ew in Hp;
    destruct Hp as (Hr & Hq & Hran); cbn [advance]; unfold loop_turn, taken_up; rewrite Ew;
    try done.
  - intros [= <-]. split_and!; try done; [cbn; by rewrite app_nil_r|].
    unfold phase_ok. cbn [life at_ pause close closed applied ran]. rewrite Hran, app_nil_r.
    split_and!; [done | apply ran_as_asked_self | done].
  - unfold closeIfIdle. destruct (decide_chan (pause (life h))) as [|d q] eqn:Eq; intros [= <-];
      (split_and!; try done; [cbn; by rewrite app_nil_r, ?Eq|]);
      unfold phase_ok; cbn [life at_ pause decide_chan closed applied ran cut];
      rewrite app_nil_r, ?Eq; [|done].
    rewrite Hran. split_and!; try done; [by left | apply ran_as_asked_self | apply covered_all].
Qed.
(** A turn at the head of a loop over attacks. *)
Lemma loop_step stage mc limit todo ending c now h h' :
  at_ (life h) = AtLoop todo ending → pause_inv stage mc h →
  advance limit stage mc (Turn (NextAttack c now)) h = Some h' → pause_inv stage mc h'.
Proof.
  intros Ew (Ha & Hv & Hlen & Hm & Hp). unfold phase_ok in Hp. rewrite Ew in Hp.
  cbn [advance]. unfold loop_turn, taken_up, saw_end. rewrite Ew.
  destruct todo as [|sc todo], ending as [reason|].
  - destruct Hp as (Hrr & (Hq & Hc & He & Hran) & _ & Hcov). intros [= <-].
    split_and!; try done; [cbn; by rewrite app_nil_r|].
    unfold phase_ok. cbn [life at_ pause closed decide_chan applied ran cut]. rewrite app_nil_r.
    split_and!; [done..|]. intros _. split_and!; [done | done | intros _; by apply covered_cut|].
    intros ->. by destruct Hrr.
  - destruct Hp as (Hr & Hq & Hran). intros [= <-].
    split_and!; try done; [cbn; by rewrite app_nil_r|].
    unfold phase_ok. cbn [life at_ pause with_deadline closed decide_chan applied ran cut].
    rewrite app_nil_r in Hran |- *. done.
  - destruct Hp as (Hrr & (Hq & Hc & He & Hran) & Hsub & Hcov).
    assert (sc ∈ ScenariosForStage stage) as Hsc by (apply Hsub; by left).
    destruct (bool_decide (ID sc ∈ ran (life h)) || c) eqn:Es; intros [= <-];
      (split_and!; try done; [cbn; by rewrite app_nil_r|]);
      unfold phase_ok; cbn [life at_ pause with_running closed decide_chan applied ran cut];
      rewrite app_nil_r.
    + split_and!; try done; [intros x Hx; apply Hsub; by right|].
      eapply covered_next; [exact Hcov | by intros -> | done|].
      apply orb_true_iff in Es as [Es%bool_decide_eq_true | ->]; [by left|].
      right. apply orb_true_r.
    + apply orb_false_iff in Es as [Es%bool_decide_eq_false ->].
      split_and!; try done. rewrite orb_false_r. done.
  - destruct Hp as (Hr & Hq & Hran). intros [= <-].
    split_and!; try done; [cbn; by rewrite app_nil_r|].
    unfold phase_ok. cbn [life at_ pause with_running closed decide_chan applied ran cut].
    by rewrite app_nil_r.
Qed.

(** An attack comes back from [mount]. *)
Lemma mounted_step stage mc limit sc todo ending res h h' :
  at_ (life h) = Mounting sc todo ending → pause_inv stage mc h →
  advance limit stage mc (Turn (Mounted res)) h = Some h' → pause_inv stage mc h'.
Proof.
  intros Ew (Ha & Hv & Hlen & Hm & Hp). unfold phase_ok in Hp. rewrite Ew in Hp.
  cbn [advance]. unfold loop_turn, taken_up, saw_end. rewrite Ew. intros [= <-].
  split_and!; try done; [cbn; by rewrite app_nil_r | | |].
  { cbn. rewrite !length_app, Hlen. done. }
  { cbn. apply Forall_app. split; [done|]. by constructor. }
  unfold phase_ok. cbn [life at_ pause with_running closed decide_chan applied ran cut].
  rewrite app_nil_r. destruct ending as [reason|].
  - destruct Hp as (Hrr & (Hq & Hc & He & Hran) & Hsub & Hn & Hcov).
    assert (sc ∈ ScenariosForStage stage) as Hsc by (apply Hsub; by left).
    split_and!; try done; [by apply ran_as_asked_snoc | intros x Hx; apply Hsub; by right|].
    eapply covered_next; [exact Hcov | by intros -> | |left]; set_solver.
  - destruct Hp as (Hr & Hq & Hran). by rewrite <- (assoc_L (++)).
Qed.

Lemma advance_inv stage mc limit e h h' :
  pause_inv stage mc h → advance limit stage mc e h = Some h' → pause_inv stage mc h'.
Proof.
  intros Hi He. destruct e as [d|t]; [by eapply decide_step|].
  destruct (at_ (life h)) as [|todo ending|sc todo ending|reason] eqn:Ew;
    [by eapply waiting_step|..];
    (destruct t as [| | |c now|res];
       try (cbn [advance] in He; unfold loop_turn in He; rewrite Ew in He;
            (discriminate He || destruct todo, ending; discriminate He))).
  - by eapply loop_step.
  - by eapply mounted_step.
Qed.

Lemma run_pause_inv stage mc limit evs h h' :
  pause_inv stage mc h → run_pause limit stage mc evs h = Some h' → pause_inv stage mc h'.
Proof.
  revert h. induction evs as [|e evs IH]; intros h Hi; cbn [run_pause]; [by intros [= <-]|].
  destruct (advance limit stage mc e h) as [h1|] eqn:E; [|done].
  apply IH. by eapply advance_inv.
Qed.

(** C11: what becomes of the decisions a paused stage accepts. On every run of
    the stage, whatever requests arrive in between: the decisions the console
    accepted are, in order, those the lifecycle took
    up followed by those still queued; once the stage is closed it accepts no
    more and no attack is lost: unless the phase was cancelled, when the
    lifecycle moves on every accepted decision has been carried out, the reason
    it gives is the last decision or the timeout, the attacks run are those
    asked for, in order, followed, unless the rest was skipped, by every other
    attack of the stage, each run once (as long as no turn saw the context
    ended). Every verdict is stamped with the paused stage. *)
Theorem accepted_decisions_applied now limit stage mc live evs h :
  run_pause limit stage mc evs (paused_at now limit stage mc live) = Some h →
  let p := pause (life h) in
  accepted h = applied h ++ decide_chan p ∧
  (closed p = true → ∀ d, ∃ e, decide_on d p = (p, Err e)) ∧
  length (results (life h)) = length (ran (life h)) ∧
  Forall (λ r, Mount r = stage_mount stage mc) (results (life h)) ∧
  ∀ reason, at_ (life h) = Resumed reason →
    closed p = true ∧ ran_as_asked stage (asked (applied h)) (ran (life h)) ∧
    (reason ≠ "cancelled" →
       applied h = accepted h ∧ ended_by reason (applied h) ∧
       (reason ≠ "skip" → covered stage (ran (life h)) [] (cut h)) ∧
       (reason = "skip" → ran (life h) = asked (applied h))).
Proof.
  intros Hrun p. apply run_pause_inv in Hrun as (Ha & Hv & Hlen & Hm & Hp).
  - split_and!; try done; [intros Hc d; by apply decide_on_closed|].
    intros reason Er. unfold phase_ok in Hp. rewrite Er in Hp.
    destruct Hp as (Hc & Hran & Hend). split_and!; [done | done|]. intros Hn.
    destruct (Hend Hn) as (Hq & He & Hcov & Hskip). split_and!; try done.
    by rewrite Ha, Hq, app_nil_r.
  - split_and!; try done. split_and!; try done. split; constructor.
Qed.
End TimelineFacts.

(** ** A ballot window split around a pause

    [pausedWindow] and [joinWindows], over any two drained runs of the
    dispatcher: the halves account for their ballots as one window does, and the
    attacks mounted in between find an uncast target and a committed donor. *)
Module WindowFacts.
Import Bench Timeline.

(** The second half's completions, at their absolute indices. *)
Definition shift (k : nat) (evs : list (nat * (Z * bool))) : list (nat * (Z * bool)) :=
  (λ ev, ((k + ev.1)%nat, ev.2)) <$> evs.

Lemma go_copy_pad {A} (n : nat) (x : A) src :
  (length src ≤ n)%nat → go_copy (replicate n x) src = src ++ replicate (n - length src) x.
Proof.
  intros Hl. unfold go_copy. rewrite length_replicate, take_ge by lia. f_equal.
  by rewrite drop_replicate.
Qed.

Lemma go_copy_joined {A} (xs ys zs : list A) :
  (length zs ≤ length ys)%nat →
  go_copy_from (length xs) (xs ++ ys) zs = xs ++ zs ++ drop (length zs) ys.
Proof.
  intros Hl. unfold go_copy_from, go_copy.
  rewrite take_app_length, drop_app_length, (take_ge zs) by lia. done.
Qed.

Lemma joined_slots {A} n k (x : A) a b :
  length a = k → (k ≤ n)%nat → (length b ≤ n - k)%nat →
  go_copy_from k (go_copy (replicate n x) a) b = a ++ b ++ replicate (n - k - length b) x.
Proof.
  intros <- Hk Hb. rewrite go_copy_pad by done. rewrite go_copy_joined.
  - by rewrite drop_replicate.
  - by rewrite length_replicate.
Qed.

Lemma shift_keys k evs : (shift k evs).*1 = (λ i, (k + i)%nat) <$> evs.*1.
Proof. unfold shift. by rewrite <- !list_fmap_compose. Qed.

Lemma filter_shift k (o : bool) evs :
  filter (λ ev : nat * (Z * bool), ev.2.2 = o) (shift k evs) =
  shift k (filter (λ ev, ev.2.2 = o) evs).
Proof. unfold shift. by rewrite filter_fmap_comm. Qed.

Lemma seq_shift_app k m : seq 0 k ++ ((λ i, (k + i)%nat) <$> seq 0 m) = seq 0 (k + m).
Proof.
  rewrite seq_app. f_equal. cbn. apply list_eq. intros i. rewrite list_lookup_fmap.
  destruct (decide (i < m)%nat).
  - by rewrite !lookup_seq_lt by done.
  - by rewrite !lookup_seq_ge by lia.
Qed.

(** A half that ended at its pause point, and what followed. *)
Lemma joined_accounted n k evs1 evs2 a b :
  (k ≤ n)%nat → accounted k evs1 a → Stopped a = false → accounted (n - k) evs2 b →
  accounted n (evs1 ++ shift k evs2) (joinWindows n k a b).
Proof.
  intros Hk [O1 S1 L1 W1 C1 D1 T1 P1 [N1 M1] F1] Hs [O2 S2 L2 W2 C2 D2 T2 P2 [N2 M2] F2].
  assert (length evs1 = k) as He by (apply P1 in Hs; lia).
  unfold shift in *. fold (shift k evs2).
  assert (length (shift k evs2) = length evs2) as Hl by apply length_fmap.
  split; cbn [joinWindows Submitted LastIndex Committed Dropped Latencies Stopped ByIndex OK].
  - rewrite fmap_app, shift_keys, O1, O2, length_app, Hl, He. by rewrite seq_shift_app.
  - rewrite length_app, Hl. lia.
  - destruct (Z.leb_spec 0 (LastIndex b)); lia.
  - lia.
  - rewrite filter_app, (filter_shift k true), length_app, C1, C2.
    unfold shift. rewrite length_fmap. lia.
  - rewrite filter_app, (filter_shift k false), length_app, D1, D2.
    unfold shift. rewrite length_fmap. lia.
  - rewrite filter_app, (filter_shift k true), fmap_app, T1, T2.
    unfold shift. by rewrite <- list_fmap_compose.
  - rewrite Hs. cbn [orb]. rewrite P2. lia.
  - rewrite !joined_slots by lia.
    rewrite !length_app, !length_replicate, N1, N2, M1, M2. lia.
  - rewrite !joined_slots by lia. apply Forall_app. split.
    + eapply Forall_impl; [exact F1|]. intros [i [t o]] [Hi Ho]. cbn in *.
      by rewrite !lookup_app_l by (by eapply lookup_lt_Some).
    + unfold shift. apply Forall_fmap. eapply Forall_impl; [exact F2|].
      intros [i [t o]] [Hi Ho]. cbn in *.
      rewrite (lookup_app_r (ByIndex a)), (lookup_app_r (OK a)) by lia. rewrite N1, M1.
      replace (k + i - k)%nat with i by lia.
      by rewrite !lookup_app_l by (by eapply lookup_lt_Some).
Qed.

(** A half that ended early, or with no time left for the rest. *)
Lemma cut_short_accounted n k evs a :
  (k < n)%nat → accounted k evs a → accounted n evs (joinWindows n k a no_window).
Proof.
  intros Hk [O1 S1 L1 W1 C1 D1 T1 P1 [N1 M1] F1].
  split; cbn [joinWindows no_window Submitted LastIndex Committed Dropped Latencies Stopped ByIndex OK];
    rewrite ?Z.add_0_r, ?app_nil_r, ?orb_true_r; try done; try lia.
  - rewrite !joined_slots by (cbn; lia).
    rewrite !length_app, !length_replicate, N1, M1. cbn. lia.
  - rewrite !joined_slots by (cbn; lia). eapply Forall_impl; [exact F1|].
    intros [i [t o]] [Hi Ho]. cbn in *.
    by rewrite !lookup_app_l by (by eapply lookup_lt_Some).
Qed.

Lemma donor_committed k evs a :
  accounted k evs a → length evs = k →
  match donor_index k a with
  | Z.neg _ => Forall (λ ev, ev.2.2 = false) evs
  | i => ∃ t, (Z.to_nat i, (t, true)) ∈ evs
  end.
Proof.
  intros Ha He. unfold donor_index.
  rewrite take_ge by (rewrite (proj2 (acc_length _ _ _ Ha)); lia).
  pose proof (acc_slots _ _ _ Ha) as Hs.
  destruct (list_find (λ b, b = true) (OK a)) as [[i b]|] eqn:Ef.
  - apply list_find_Some in Ef as (Hi & -> & _).
    assert (i ∈ evs.*1) as Hin.
    { rewrite (acc_once _ _ _ Ha), He. apply list_elem_of_In, in_seq.
      apply lookup_lt_Some in Hi. rewrite (proj2 (acc_length _ _ _ Ha)) in Hi. lia. }
    apply list_elem_of_fmap in Hin as ([j [t o]] & -> & Hin).
    rewrite Forall_forall in Hs. destruct (Hs _ Hin) as [_ Ho]. cbn in *.
    rewrite Hi in Ho. injection Ho as <-.
    destruct (Z.of_nat j) eqn:Ej; [..|lia]; exists t; rewrite <- Ej, Nat2Z.id; done.
  - apply list_find_None in Ef. apply Forall_forall. intros [j [t o]] Hin.
    rewrite Forall_forall in Hs. destruct (Hs _ Hin) as [_ Ho]. cbn in *.
    destruct o; [|done]. apply list_elem_of_lookup_2 in Ho.
    rewrite Forall_forall in Ef. by destruct (Ef true Ho).
Qed.

(** A ballot window paused after [k] of its [n] ballots accounts for its
    ballots as an unpaused window does: each ballot dispatched in either half
    was submitted once and its latency and outcome are at its own index, the
    counts add up, the run is complete exactly when every ballot was
    dispatched, and its duration is the two halves' alone. When the window
    reaches its pause point, the attacks mounted there target ballot [k], which
    was not dispatched, and take their nullifier from a ballot that was
    committed, if any was. *)
Theorem paused_window_accounts n k concurrency w1 w2 ctxErr maxDuration s1 s2 evs1 evs2 :
  (0 < k < n)%nat →
  reached k (clamp concurrency) s1 evs1 → drained s1 →
  reached (n - k) (clamp concurrency) s2 evs2 → drained s2 →
  let first := run_result concurrency w1 s1 in
  let second := run_result concurrency w2 s2 in
  let r := pausedWindow n k ctxErr maxDuration first second in
  let on := goes_on ctxErr maxDuration first in
  accounted n (if on then evs1 ++ shift k evs2 else evs1) r ∧
  Window r = w1 + (if on then w2 else 0) ∧
  (k ∉ evs1.*1) ∧
  (Stopped first = false →
   match donor_index k first with
   | Z.neg _ => Forall (λ ev, ev.2.2 = false) evs1
   | i => (Z.to_nat i < k)%nat ∧ ∃ t, (Z.to_nat i, (t, true)) ∈ evs1
   end).
Proof.
  intros Hk Hr1 Hd1 Hr2 Hd2 first second r on.
  pose proof (drained_accounted k concurrency w1 s1 evs1 Hr1 Hd1) as A1. fold first in A1.
  pose proof (drained_accounted (n - k) concurrency w2 s2 evs2 Hr2 Hd2) as A2. fold second in A2.
  assert (∀ i, i ∈ evs1.*1 → (i < k)%nat) as Hlt.
  { intros i. rewrite (acc_once _ _ _ A1). intros Hi%list_elem_of_In%in_seq.
    pose proof (acc_submitted _ _ _ A1). pose proof (acc_within _ _ _ A1). lia. }
  split_and!.
  - unfold r, pausedWindow. fold on. destruct on eqn:Eo; [|by apply cut_short_accounted; [lia|]].
    apply joined_accounted; [lia | done | | done].
    unfold on, goes_on in Eo. by destruct (Stopped first).
  - unfold r, pausedWindow. fold on. unfold first, second.
    destruct on; cbn [joinWindows Window no_window]; by rewrite !run_result_window.
  - intros Hin%Hlt. lia.
  - intros Hs. assert (length evs1 = k) as He.
    { apply (acc_stopped _ _ _ A1) in Hs. pose proof (acc_submitted _ _ _ A1). lia. }
    pose proof (donor_committed k evs1 first A1 He) as Hdon.
    destruct (donor_index k first); [| |done];
      (split; [|done]; destruct Hdon as [t Hin];
       apply Hlt; by apply (list_elem_of_fmap_2 fst) in Hin).
Qed.
End WindowFacts.
