(* ===== verification/Phases.v ===== *)
(** * The on-chain lifecycle of a run

    [saksi-campaign/executor.go] and [precinct.go]: the step function that
    commits one chaincode call and records its receipt, the ballot window with
    its receipts and metrics, the phases composed from them ([setupOnChain],
    [submitOnChain], [PrecinctLifecycle]) and the receipts writer they share.

    A phase is a relation between the world before it, its result and the world
    after it ([N]): goroutines and the rest of the network make phases
    nondeterministic. What the console talks to — the gateway, the operating
    system's writes, the caller's context — is the class [Console]; the run's
    own record (receipts, journal events, metrics, the cached writer's
    reference count) is explicit in [world]. An attack pause ([Timeline]) is
    any evolution of what the console talks to. *)
From S2P Require Import Prelude Hex GoText Receipts ReceiptFile Config Ballots Bench Journal.
From S2P Require Import Resume Verdict Ceremony Partials Timeline.
From stdpp Require Import sorting relations.
#[local] Open Scope Z_scope.
Import GoText.

(** Everything outside the run's own record. *)
Class Console (S : Type) := {
  ctx_err : S → option goerr;
  evolves : S → S → Prop;
  SubmitWithReceipt : string → list string → S → S * result Receipts.Receipt;
  SubmitTx : string → list string → S → S * result (string * Z);
  ReceiptsForBlock : Z → list string → S → S * result (list Receipts.Receipt);
  os_write : S → string → ReceiptFile.disk;
  os_open : S → option goerr * option goerr * option goerr
}.

Module Phases.

Section phases.
Context {S T : Type} `{Console S, Rfc3339, ReceiptFile.TrailJson}.

(** [refs] is the cached receipts writer's reference count, 0 when no writer is
    open; [cell] is what the caller's hooks have captured. *)
Record world := MkWorld {
  env : S; folder : ReceiptFile.files; refs : nat; stamps : list Resume.event;
  metrics : option Resume.submitMetrics; cell : T
}.

Definition set_env (s : S) (w : world) : world :=
  MkWorld s (folder w) (refs w) (stamps w) (metrics w) (cell w).

Definition set_folder (fs : ReceiptFile.files) (w : world) : world :=
  MkWorld (env w) fs (refs w) (stamps w) (metrics w) (cell w).

Definition set_refs (n : nat) (w : world) : world :=
  MkWorld (env w) (folder w) n (stamps w) (metrics w) (cell w).

Definition set_metrics (m : option Resume.submitMetrics) (w : world) : world :=
  MkWorld (env w) (folder w) (refs w) (stamps w) m (cell w).

(** A stamp whose error the source drops. *)
Definition stamp (evs : list Resume.event) (w : world) : world :=
  MkWorld (env w) (folder w) (refs w) (stamps w ++ evs) (metrics w) (cell w).

(** ** Phases as relations *)
Definition N (A : Type) : Type := world → result A → world → Prop.

Definition nret {A} (r : result A) : N A := λ w r' w', r' = r ∧ w' = w.

Definition nlift {A} (f : world → world * result A) : N A := λ w r w', f w = (w', r).

Definition nbind {A B} (m : N A) (k : A → N B) : N B := λ w r w',
  (∃ a w1, m w (Ok a) w1 ∧ k a w1 r w') ∨ (∃ e, m w (Err e) w' ∧ r = Err e).

Definition nwrap {A} (f : goerr → goerr) (m : N A) : N A := λ w r w',
  ∃ r1, m w r1 w' ∧ r = wrap_err f r1.

(** [defer f()]. *)
Definition nfinally {A} (m : N A) (f : world → world) : N A := λ w r w',
  ∃ w1, m w r w1 ∧ w' = f w1.

Definition nmodify (f : world → world) : N unit := nlift (λ w, (f w, Ok tt)).

(** The rest of the network moves; the run's own record does not. *)
Definition others (w w' : world) : Prop :=
  evolves (env w) (env w') ∧ w' = set_env (env w') w.

Definition nothers : N unit := λ w r w', r = Ok tt ∧ others w w'.

(** [ctx.Err()]. *)
Definition check_ctx : N unit :=
  nlift (λ w, (w, match ctx_err (env w) with Some e => Err e | None => Ok tt end)).

Definition nguard (b : bool) (e : goerr) : N unit := nret (if b then Ok tt else Err e).

Notation "'let!' x ':=' m 'in' k" := (nbind m (fun x => k))
  (at level 10, x binder, m at level 100, k at level 200).

(** ** The receipts writer *)
Definition openReceiptsFor (w : world) : world * result unit :=
  if (0 <? refs w)%nat then (set_refs (Datatypes.S (refs w)) w, Ok tt)
  else
    let '(openErr, statErr, trailErr) := os_open (env w) in
    let '(fs, r) := ReceiptFile.openReceipts openErr statErr
      (os_write (env w) (ReceiptFile.receiptsCSVHeader +:+ ReceiptFile.newline)) trailErr (folder w) in
    match r with
    | Err e => (set_folder fs w, Err e)
    | Ok _ => (set_refs 1 (set_folder fs w), Ok tt)
    end.

Definition closeReceipts (w : world) : world := set_refs (refs w - 1) w.

(** ** One lifecycle step *)

(** What follows the context check: the transaction and its receipt. *)
Definition commit (event ref fn : string) (args : list string) (w : world) : world * result unit :=
  let '(s, r) := SubmitWithReceipt fn args (env w) in
  let w := set_env s w in
  match r with
  | Err e => (w, Err (Errorf "%s: %w" [AStr event; AErr e]))
  | Ok receipt =>
      let ev := ReceiptFile.MkTrail event ref receipt in
      let d := os_write (env w) (ReceiptFile.csv_row ev) in
      let '(fs, r) :=
        if String.eqb event "SubmitBallot" then ReceiptFile.Append d ev (folder w)
        else ReceiptFile.Lifecycle d
               (os_write (env w) match ReceiptFile.MarshalTrail ev with
                                  | Ok s => s +:+ ReceiptFile.newline | Err _ => "" end)
               ev (folder w) in
      (set_folder fs w, r)
  end.

Definition step (event ref fn : string) (args : list string) : N unit :=
  let! _ := check_ctx in nlift (commit event ref fn args).

(** ** The bundle and the ballots file *)
Context (b : Ceremony.onChainBundle) (ballots : Ballots.stream).

Definition lifecycle : N unit := nlift openReceiptsFor.

(** ** The partial decryptions *)
Definition send (i : nat) : world → world * result unit :=
  commit "SubmitPartialDecryption" (Itoa (Z.of_nat i)) "SubmitPartialDecryption"
    [Ceremony.ElectionID b; default "" (Ceremony.PartialDecryptions b !! i)].

Definition submitPartials : N unit := λ w r w',
  ∃ o acks,
    Partials.submitPartials (λ w, ctx_err (env w)) send others
      (length (Ceremony.PartialDecryptions b)) w o w' acks ∧
    r = match o with None => Ok tt | Some e => Err e end.

(** ** The ballot window *)
Record landedTx := MkLanded { index : nat; txID : string; block : Z }.

(** How a window is driven: what its reader keeps, the ballot of each slot, the
    further fields of its progress stamps. *)
Record driver := MkDriver {
  wanted : option (nat → bool); slot : nat → nat; tag : list (string * Journal.jval)
}.

(** Every ballot from [k] on. *)
Definition from (k : nat) : driver := MkDriver None (Nat.add k) [].

(** A window in progress: [hand] are the lines read and not yet submitted. *)
Record window := MkWindow {
  ww : world; reader : Ballots.ballotReader; hand : gmap nat string;
  landed : list landedTx; failed : list nat; readErr : option goerr
}.

Definition open_window (w : world) : window :=
  MkWindow w (Ballots.openBallotReader ballots) ∅ [] [] None.

(** [submit(i)]: [reader.At(i)] under the reader's lock, then [led.Submit]. *)
Definition read_line (d : driver) (i : nat) (x : window) : window :=
  let '(rd, r) := Ballots.At (wanted d) ballots i (reader x) in
  match r with
  | Ok line => MkWindow (ww x) rd (<[i := line]> (hand x)) (landed x) (failed x) (readErr x)
  | Err e => MkWindow (ww x) rd (hand x) (landed x) (failed x ++ [i])
               (match readErr x with Some e => Some e | None => Some e end)
  end.

Definition submit_line (i : nat) (line : string) (x : window) : window :=
  let '(s, r) := SubmitTx "SubmitBallot" [line] (env (ww x)) in
  let w := set_env s (ww x) in
  match r with
  | Ok (tx, block) =>
      MkWindow w (reader x) (delete i (hand x)) (landed x ++ [MkLanded i tx block]) (failed x) (readErr x)
  | Err _ => MkWindow w (reader x) (delete i (hand x)) (landed x) (failed x ++ [i]) (readErr x)
  end.

Definition progress (d : driver) (done : Z) : Resume.event :=
  Resume.MkEvent "ballots.progress" (list_to_map (("done"%string, Journal.JNum done) :: tag d)).

(** What happens during a window, [asked] being the indices read so far. *)
Inductive window_step (d : driver) (asked : list nat) (x : window) : list nat → window → Prop :=
| window_read i :
    i ∉ asked → Ballots.is_wanted (wanted d) i = true →
    window_step d asked x (i :: asked) (read_line d i x)
| window_submit i line :
    hand x !! i = Some line → window_step d asked x asked (submit_line i line x)
| window_progress done :
    window_step d asked x asked
      (MkWindow (stamp [progress d done] (ww x)) (reader x) (hand x) (landed x) (failed x) (readErr x))
| window_others w' :
    others (ww x) w' →
    window_step d asked x asked (MkWindow w' (reader x) (hand x) (landed x) (failed x) (readErr x)).

Inductive window_steps (d : driver) (asked : list nat) (x : window) : list nat → window → Prop :=
| window_nil : window_steps d asked x asked x
| window_snoc asked1 x1 asked2 x2 :
    window_steps d asked x asked1 x1 → window_step d asked1 x1 asked2 x2 →
    window_steps d asked x asked2 x2.

(** A run of the dispatcher over [n] slots, its completions answered by the
    window: success exactly where the ballot of the slot landed. *)
Definition dispatched (d : driver) (concurrency time : Z) (n : nat) (asked0 : list nat) (x0 : window)
    (res : Bench.RunResult) (asked : list nat) (x : window) : Prop :=
  ∃ s evs, Bench.reached n (Bench.clamp concurrency) s evs ∧ Bench.drained s ∧ res = Bench.run_result concurrency time s ∧
    window_steps d asked0 x0 asked x ∧
    (∀ (i : nat) (t : Z) (ok : bool), (i, (t, ok)) ∈ evs →
       if ok then ∃ l, l ∈ landed x ∧ index l = slot d i else slot d i ∈ failed x).

(** The dispatcher stops early only when its context is done: the caller's, or
    the window's own time bound. *)
Definition stops_for_cause (c : Config.ElectionConfig) (res : Bench.RunResult) (w : world) : Prop :=
  Bench.Stopped res = true → is_Some (ctx_err (env w)) ∨ 0 < Verdict.Window c.

(** The window: whole, or split around the ballots pause. *)
Inductive ballot_window (c : Config.ElectionConfig) (count : nat) (w : world) :
    Bench.RunResult → window → Prop :=
| whole_window time res asked x :
    Timeline.pauseIndex (Config.AttackPlan c) (Z.of_nat count) ≤ 0 →
    dispatched (from 0) (Config.submitConcurrency c) time count [] (open_window w) res asked x →
    stops_for_cause c res (ww x) →
    ballot_window c count w res x
| split_window k t1 t2 res1 res2 asked1 asked2 x1 w2 x2 :
    Timeline.pauseIndex (Config.AttackPlan c) (Z.of_nat count) = Z.of_nat k → (0 < k)%nat →
    dispatched (from 0) (Config.submitConcurrency c) t1 k [] (open_window w) res1 asked1 x1 →
    stops_for_cause c res1 (ww x1) → others (ww x1) w2 →
    let cut := bool_decide (is_Some (ctx_err (env w2))) in
    let x1' := MkWindow w2 (reader x1) (hand x1) (landed x1) (failed x1) (readErr x1) in
    (if Timeline.goes_on cut (Verdict.Window c) res1
     then dispatched (from k) (Config.submitConcurrency c) t2 (count - k) asked1 x1' res2 asked2 x2 ∧
          stops_for_cause c res2 (ww x2)
     else x2 = x1') →
    ballot_window c count w (Timeline.pausedWindow count k cut (Verdict.Window c) res1 res2) x2.

(** ** After the window *)

(** [sort.Slice] by index: indices are distinct. *)
Definition by_index (a b : landedTx) : Prop := (index a ≤ index b)%nat.

#[global] Instance by_index_dec : RelDecision by_index.
Proof. intros x y. unfold by_index. apply _. Defined.

(** The distinct blocks, ascending. *)
Definition blocks_of (l : list landedTx) : list Z :=
  merge_sort Z.le (remove_dups (block <$> l)).

(** [byTx[it.txID]]: the last receipt of that transaction, or what is known. *)
Definition receipt_for (receipts : list Receipts.Receipt) (it : landedTx) : Receipts.Receipt :=
  match last (filter (λ r, Receipts.TxID r = txID it) receipts) with
  | Some r => r
  | None => Receipts.MkReceipt (txID it) (block it) [] [] [] None
  end.

Definition missing (n : Z) (count : nat) : Resume.event :=
  Resume.MkEvent "receipts.missing"
    (list_to_map [("block", Journal.JNum n); ("count", Journal.JNum (Z.of_nat count))]%string).

(** Append, its error dropped. *)
Definition append_receipt (w : world) (ev : ReceiptFile.TrailEvent) : world :=
  set_folder (ReceiptFile.Append (os_write (env w) (ReceiptFile.csv_row ev)) ev (folder w)).1 w.

Definition collect_block (items : list landedTx) (w : world) (n : Z) : world :=
  let items := filter (λ it, block it = n) items in
  let '(s, r) := ReceiptsForBlock n (txID <$> items) (env w) in
  let w := set_env s w in
  match r with
  | Err _ => stamp [missing n (length items)] w
  | Ok receipts =>
      foldl append_receipt w
        ((λ it, ReceiptFile.MkTrail "SubmitBallot" (Itoa (Z.of_nat (index it))) (receipt_for receipts it))
           <$> items)
  end.

Definition collectReceipts (l : list landedTx) (w : world) : world :=
  let l := merge_sort by_index l in foldl (collect_block l) w (blocks_of l).

(** The window's measurements: figures, the ledger's size before and after,
    the journal's failure at the boundary, the failures of the two files. *)
Record measured := MkMeasured {
  figs : Verdict.figures; bytes0 : option Z; bytes1 : option Z; winErr : option goerr;
  latenciesErr : option goerr; metricsErr : option goerr
}.

Definition after_window (c : Config.ElectionConfig) (count : nat) (m : measured) (res : Bench.RunResult)
    (x : window) (bounded : bool) (text : goerr → string) : N unit :=
  match readErr x with
  | Some e => nret (Err e)
  | None =>
      let! _ := nmodify (collectReceipts (landed x)) in
      match latenciesErr m with
      | Some e => nret (Err e)
      | None =>
          match metricsErr m with
          | Some e => nret (Err e)
          | None =>
              let sm := Verdict.writeSubmitMetrics (figs m) res (Z.of_nat count) bounded in
              let! _ := nmodify (set_metrics
                 (Resume.recordJournalError (text <$> winErr m) (Some sm))) in
              if 0 <? Bench.Dropped res then
                nret (Err (Errorf "%d of %d ballots did not commit"
                  [AInt (Bench.Dropped res); AInt (Bench.Submitted res)]))
              else nret (match winErr m with Some e => Err e | None => Ok tt end)
          end
      end
  end.

(** The window between its two stamps. *)
Definition run_window (c : Config.ElectionConfig) (count : nat) (m : measured) :
    N (Bench.RunResult * window * bool) := λ w r w',
  ∃ res0 x fired,
    ballot_window c count
      (stamp (Verdict.window_opening (Z.of_nat count) (Config.submitConcurrency c) (Config.SendRate c)
                (bytes0 m) match Config.Rep c with
                           | Some t => if String.eqb (Config.RepKind t) "" then None
                                       else Some (Config.RepKind t)
                           | None => None
                           end) w) res0 x ∧
    (fired = true → is_Some (Config.FaultPlan c)) ∧
    let res := Verdict.after_fault fired res0 in
    let bounded := Verdict.windowWasBounded (bool_decide (is_Some (ctx_err (env (ww x))))) c res in
    r = Ok (res, x, bounded) ∧
    others (stamp (Verdict.window_closing res (figs m) bounded fired (bytes1 m)) (ww x)) w'.

Definition submitBallots (c : Config.ElectionConfig) (text : goerr → string) : N unit :=
  if String.eqb (Ceremony.BallotsFile b) "" then
    nret (Err (Errorf ("bundle.json has no " +:+ Quote "ballots_file" +:+ " field: this run's bundle predates the streaming ballot format — delete bundle.json and re-run the ceremony to regenerate it") []))
  else
    match Ballots.validateBallots ballots with
    | Err e => nret (Err e)
    | Ok count =>
        let! _ := nguard (Z.of_nat count =? Ceremony.BallotCount b)
          (Errorf "bundle ballot_count is %d but %s holds %d ballots"
             [AInt (Ceremony.BallotCount b); AStr (Ceremony.BallotsFile b); AInt (Z.of_nat count)]) in
        let! _ := nlift openReceiptsFor in
        λ w r w', ∃ m,
          nfinally
            (let! rx := run_window c count m in
             after_window c count m rx.1.1 rx.1.2 rx.2 text) closeReceipts w r w'
    end.

(** ** The phases *)
Definition pauseForAttacks : N unit := nothers.

Definition closeElection (c : Config.ElectionConfig) : N unit :=
  let! _ := step "CloseElection" "" "CloseElection" [Ceremony.ElectionID b] in
  if negb (Timeline.has (Config.AttackPlan c) Config.StageClose) then nret (Ok tt)
  else let! _ := pauseForAttacks in check_ctx.

Definition setupOnChain (c : Config.ElectionConfig) (text : goerr → string) : N unit :=
  let! _ := step "CreateElection" "" "CreateElection" [Ceremony.Params b] in
  let! _ := (if Timeline.has (Config.AttackPlan c) Config.StageDKG then pauseForAttacks
             else nret (Ok tt)) in
  let! _ := step "PublishDKGTranscript" "" "PublishDKGTranscript" [Ceremony.DKG b] in
  let! _ := submitBallots c text in
  closeElection c.

Definition submitOnChain (c : Config.ElectionConfig) (text : goerr → string) : N unit :=
  let! _ := lifecycle in
  nfinally
    (let! _ := setupOnChain c text in
     let! _ := submitPartials in
     let! _ := (if Timeline.has (Config.AttackPlan c) Config.StageCeremony
                then let! _ := pauseForAttacks in check_ctx else nret (Ok tt)) in
     step "PublishTally" "" "PublishTally" [Ceremony.Tally b]) closeReceipts.

(** ** The precinct seam *)
Record PrecinctHooks := MkHooks {
  BeforeClose : option (N unit); BeforeTally : option (N unit); TolerateTallyRefusal : bool
}.

Definition TallyPublished : string := "published".

Definition run_hook (what : string) (h : option (N unit)) : N unit :=
  match h with
  | None => nret (Ok tt)
  | Some m => nwrap (λ e, Errorf "%s: %w" [AStr what; AErr e]) m
  end.

(** [PublishTally]'s refusal as an outcome. *)
Definition publish_or_refused (h : PrecinctHooks) (text : goerr → string) : N string := λ w r w',
  ∃ r1, step "PublishTally" "" "PublishTally" [Ceremony.Tally b] w r1 w' ∧
    r = match r1 with
        | Ok _ => Ok TallyPublished
        | Err e =>
            if TolerateTallyRefusal h && bool_decide (is_Some (BeforeTally h)) &&
               negb (bool_decide (is_Some (ctx_err (env w'))))
            then Ok ("refused: " +:+ text e) else Err e
        end.

Definition precinctLifecycle (c : Config.ElectionConfig) (h : PrecinctHooks) (text : goerr → string) :
    N string :=
  let! _ := lifecycle in
  nfinally
    (let! _ := step "CreateElection" "" "CreateElection" [Ceremony.Params b] in
     let! _ := step "PublishDKGTranscript" "" "PublishDKGTranscript" [Ceremony.DKG b] in
     let! _ := submitBallots c text in
     let! _ := run_hook "before close" (BeforeClose h) in
     let! _ := closeElection c in
     let! _ := submitPartials in
     let! _ := run_hook "before tally" (BeforeTally h) in
     publish_or_refused h text) closeReceipts.

(** header.json, as far as the seam reads it. *)
Record precinctHeader := MkPrecinctHeader {
  PElectionID : string; PElectionName : string; PPositions : Z; PCandidates : Z; PN : Z
}.

Definition zero_float : float64 := S754_zero false.

(** The run config of a precinct folder; [ids] is [e.precinctIDs]. *)
Definition precinctRun (distribution folder : string) (header : result precinctHeader)
    (ids : gmap string string) : result Config.ElectionConfig * gmap string string :=
  match header with
  | Err e => (Err (Errorf "precinct %s: %w" [AStr folder; AErr e]), ids)
  | Ok h =>
      if String.eqb (PElectionID h) "" || (PPositions h <? 1) then
        (Err (Errorf "precinct %s: header.json has no election id or positions" [AStr folder]), ids)
      else
        (Ok (Config.applyDefaults
           (Config.MkElectionConfig (PElectionName h) [] 0 (PPositions h) (PCandidates h)
              (Z.quot (PN h) (PPositions h)) distribution "onchain" 0 0 zero_float zero_float
              None false None None)),
         <[folder := PElectionID h]> ids)
  end.

(** [electionID]: the registered election of a precinct folder, else the run's
    own id. *)
Definition electionID (ids : gmap string string) (runID : string) : string :=
  default runID (ids !! runID).

Definition stageEnd (r : result unit) (text : goerr → string) : list (string * Journal.jval) :=
  match r with
  | Ok _ => [("ok", Journal.JBool true)]%string
  | Err e => [("ok", Journal.JBool false); ("error", Journal.JStr (text e))]%string
  end.

Definition run_start (folder : string) (ids : gmap string string) (c : Config.ElectionConfig) :
    Resume.event :=
  Resume.MkEvent "run.start" (list_to_map
    [("run_id", Journal.JStr folder); ("election_id", Journal.JStr (electionID ids folder));
     ("mode", Journal.JStr (Config.Mode c)); ("voters", Journal.JNum (Config.Voters c));
     ("positions", Journal.JNum (Config.Positions c));
     ("candidates", Journal.JNum (Config.Candidates c)); ("precinct", Journal.JBool true)]%string).

Definition submit_end (r : result string) (text : goerr → string) : Resume.event :=
  Resume.MkEvent "stage.submit.end" (list_to_map
    (stageEnd (let? _ := r in Ok tt) text ++
     match r with Ok tally => [("tally", Journal.JStr tally)]%string | Err _ => [] end)).

Definition PrecinctLifecycle (distribution folder : string) (header : result precinctHeader)
    (ids : gmap string string) (h : PrecinctHooks) (text : goerr → string) : N string :=
  match precinctRun distribution folder header ids with
  | (Err e, _) => nret (Err e)
  | (Ok c, ids) => λ w r w',
      ∃ w1,
        precinctLifecycle c h text
          (stamp [run_start folder ids c; Resume.MkEvent "stage.submit.start" ∅] w) r w1 ∧
        w' = stamp [submit_end r text] w1
  end.
End phases.
End Phases.
