(* ===== verification/PhasesFacts.v ===== *)
(** * What a finished lifecycle leaves on the ledger

    The console is put in front of a chain that runs the chaincode
    ([ChainConsole]): a transaction it is told committed is in the committed
    history, among whatever others commit meanwhile, and a context once over
    stays over. The theorem: a lifecycle that reports its outcome has left on
    the ledger the bundle's parameters, its key-generation transcript, every
    ballot of the run, the closed status and every partial decryption — and,
    unless the tally was refused, the tally; and it has released the receipts
    writer it opened. *)
From S2P Require Import Prelude Fabric Hex Wire Ristretto.
From S2P Require Import CdsVerify CredVerify SelectionVerify SigVerify Contract BoardSpec.
From S2P Require Import HandlerFacts Ledger GoText Receipts ReceiptFile Config Ballots Bench.
From S2P Require Import Resume Verdict Ceremony Partials Timeline Phases.
From stdpp Require Import sorting relations.
#[local] Open Scope Z_scope.
Import GoText.

(** The transaction a chaincode call asks for. *)
Definition invocation_of (fn : string) (args : list string) : option invocation :=
  match args with
  | [x] =>
      if String.eqb fn "CreateElection" then Some (ICreateElection x)
      else if String.eqb fn "PublishDKGTranscript" then Some (IPublishDKGTranscript x)
      else if String.eqb fn "SubmitBallot" then Some (ISubmitBallot x)
      else if String.eqb fn "CloseElection" then Some (ICloseElection x)
      else if String.eqb fn "PublishTally" then Some (IPublishTally x)
      else None
  | [x; y] =>
      if String.eqb fn "SubmitPartialDecryption" then Some (ISubmitPartialDecryption x y) else None
  | _ => None
  end.

(** What the gateway in front of a chain of this chaincode guarantees. *)
Class ChainConsole (S : Type) `{Console S, FabricShim, Proto, Ristretto, Merlin, Json, Committer} := {
  chain : S → worldstate;
  grows (s s' : S) : Prop :=
    (∃ h, commits (chain s) h (chain s')) ∧ (is_Some (ctx_err s) → is_Some (ctx_err s'));
  evolves_grows s s' : evolves s s' → grows s s';
  receipt_grows fn args s s' r : SubmitWithReceipt fn args s = (s', r) → grows s s';
  submit_grows fn args s s' r : SubmitTx fn args s = (s', r) → grows s s';
  fetch_grows n txs s s' r : ReceiptsForBlock n txs s = (s', r) → grows s s';
  receipt_acked fn args s s' rc i :
    SubmitWithReceipt fn args s = (s', Ok rc) → invocation_of fn args = Some i →
    ∃ h1 h2, commits (chain s) (h1 ++ [i] ++ h2) (chain s');
  submit_acked fn args s s' rc i :
    SubmitTx fn args s = (s', Ok rc) → invocation_of fn args = Some i →
    ∃ h1 h2, commits (chain s) (h1 ++ [i] ++ h2) (chain s')
}.

Module PhasesFacts.
Import Phases.

Section board.
Context `{FabricShimLaws, Proto, Ristretto, Merlin, Json}.

(** What a committed transaction leaves on the board for good. *)
Definition done_on (B : board) (i : invocation) : Prop :=
  match i with
  | ISubmitBallot hex => ∃ raw m, DecodeString hex = Ok raw ∧ UnmarshalBallot raw = Ok m ∧
      B !! KBallot (ballot_slot m).1 (ballot_slot m).2 = Some raw
  | ICreateElection hex => ∃ raw m, DecodeString hex = Ok raw ∧
      UnmarshalElectionParameters raw = Ok m ∧
      B !! KElection (ElectionParameters.ElectionId m) = Some raw
  | IPublishDKGTranscript hex => ∃ raw m, DecodeString hex = Ok raw ∧
      UnmarshalDKGTranscript raw = Ok m ∧ B !! KDkg (DKGTranscript.ElectionId m) = Some raw
  | ICloseElection e => B !! KStatus e = Some closed_value
  | ISubmitPartialDecryption e hex => ∃ raw m, DecodeString hex = Ok raw ∧
      UnmarshalPartialDecryption raw = Ok m ∧
      B !! KPartial e (PartialDecryption.ContestId m) (PartialDecryption.TrusteeId m) = Some raw
  | IPublishTally hex => ∃ raw m, DecodeString hex = Ok raw ∧
      UnmarshalTallyResult raw = Ok m ∧ B !! KTally (TallyResult.ElectionId m) = Some raw
  end.

Lemma extends_record B B' rk v :
  board_extends B B' → (∀ e, rk ≠ KStatus e) → B !! rk = Some v → B' !! rk = Some v.
Proof. intros HB Hne E. destruct (HB _ _ E) as [?|(e & -> & _)]; [done|]. by destruct (Hne e). Qed.

Lemma extends_done B B' i : board_extends B B' → done_on B i → done_on B' i.
Proof.
  intros HB. destruct i; cbn [done_on]; [| | |by apply extends_closed| |];
    intros (raw & m & Hd & Hu & E); exists raw, m; split_and!; try done; by eapply extends_record.
Qed.

Lemma step_done B i B' : board_step B i B' → done_on B' i.
Proof.
  destruct 1; cbn [done_on]; try (eexists _, _; split_and!; [done|done|]).
  - unfold record_ballot. rewrite lookup_insert_ne by done. by rewrite lookup_insert_eq.
  - rewrite lookup_insert_ne by done. by rewrite lookup_insert_eq.
  - by rewrite lookup_insert_eq.
  - by rewrite lookup_insert_eq.
  - by rewrite lookup_insert_eq.
  - by rewrite lookup_insert_eq.
Qed.

Lemma board_steps_split B h1 h2 B' :
  board_steps B (h1 ++ h2) B' → ∃ B1, board_steps B h1 B1 ∧ board_steps B1 h2 B'.
Proof.
  revert B'. induction h2 as [|i h2 IH] using rev_ind; intros B'.
  - rewrite app_nil_r. intros Hs. exists B'. split; [done|constructor].
  - rewrite (assoc_L (++)). intros Hs. inversion Hs as [E|h B1 i' B2 Hs1 Hst E]; subst.
    + symmetry in E. by apply app_nil in E as [_ ?].
    + apply app_inj_tail in E as [-> ->]. destruct (IH B1 Hs1) as (B3&H1'&H2').
      exists B3. split; [done|]. by econstructor.
Qed.

(** The step of one transaction of a history. *)
Lemma steps_at B h1 i h2 B' :
  board_steps B (h1 ++ [i] ++ h2) B' → ∃ B1 B2, board_steps B h1 B1 ∧ board_step B1 i B2 ∧ board_steps B2 h2 B'.
Proof.
  intros Hs. apply board_steps_split in Hs as (B1&H1'&Hs).
  apply board_steps_split in Hs as (B2&Hi&H2'). inversion Hi as [E|h B3 i' B4 Hn Hst E]; subst.
  apply (app_inj_tail h []) in E as [-> ->].
  assert (B3 = B1) as ->; [|by exists B1, B2].
  inversion Hn as [E|h' ? ? ? ? ? E]; [done|]. by apply app_nil in E as [_ ?].
Qed.

Lemma steps_done B h1 i h2 B' :
  board_wf B → board_steps B (h1 ++ [i] ++ h2) B' → done_on B' i.
Proof.
  intros Hwf (B1&B2&H1'&Hst&H2')%steps_at. destruct (steps_wf _ _ _ Hwf H1') as [Hwf1 _].
  assert (Hwf2 : board_wf B2) by (by eapply step_wf).
  destruct (steps_wf _ _ _ Hwf2 H2') as [_ Hext]. eapply extends_done; [done|]. by eapply step_done.
Qed.
End board.

(** ** Phases that only add to the ledger *)
Section facts.
Context {S T : Type} `{ChainConsole S, !FabricShimLaws, !CommitterLaws, Rfc3339, ReceiptFile.TrailJson}.
#[local] Abbreviation world := (@world S T).

Record good (w : world) (B : board) : Prop := {
  good_board : represents (chain (env w)) B;
  good_wf : board_wf B
}.

(** The ledger has grown, and a context that was over is still over. *)
Definition later (w : world) (B : board) (w' : world) (B' : board) : Prop :=
  board_extends B B' ∧ (is_Some (ctx_err (env w)) → is_Some (ctx_err (env w'))).

Lemma later_refl w B : later w B w B.
Proof. by split. Qed.

Lemma later_trans w1 B1 w2 B2 w3 B3 :
  later w1 B1 w2 B2 → later w2 B2 w3 B3 → later w1 B1 w3 B3.
Proof. intros [H1' H2'] [H3' H4']. split; [by transitivity B2|auto]. Qed.

Lemma grows_good w w' B :
  grows (env w) (env w') → good w B → ∃ B', good w' B' ∧ later w B w' B'.
Proof.
  intros [[h Hc] Hctx] [Hb Hwf]. destruct (commits_steps _ _ _ _ Hb Hc) as (B'&Hs&HB').
  destruct (steps_wf _ _ _ Hwf Hs) as [Hwf' Hext]. by exists B'.
Qed.

Lemma acked_good w w' B h1 i h2 :
  commits (chain (env w)) (h1 ++ [i] ++ h2) (chain (env w')) →
  (is_Some (ctx_err (env w)) → is_Some (ctx_err (env w'))) → good w B →
  ∃ B', good w' B' ∧ later w B w' B' ∧ done_on B' i.
Proof.
  intros Hc Hctx [Hb Hwf]. destruct (commits_steps _ _ _ _ Hb Hc) as (B'&Hs&HB').
  destruct (steps_wf _ _ _ Hwf Hs) as [Hwf' Hext]. exists B'. split_and!; try done.
  by apply (steps_done B h1 i h2).
Qed.

(** A fact about the world that later growth keeps. *)
Definition stable (F : world → board → Prop) : Prop :=
  ∀ w B w' B', later w B w' B' → F w B → F w' B'.

(** [m] only adds to the ledger, and establishes [F] when it succeeds. *)
Definition triple {A} (m : N A) (F : A → world → board → Prop) : Prop :=
  ∀ w r w' B, m w r w' → good w B →
    ∃ B', good w' B' ∧ later w B w' B' ∧ ∀ a, r = Ok a → F a w' B'.

Lemma triple_bind {A B'} (m : N A) (k : A → N B') F G :
  triple m F → (∀ a, stable (F a)) → (∀ a, triple (k a) (G a)) →
  triple (nbind m k) (λ b w B, ∃ a, F a w B ∧ G a b w B).
Proof.
  intros Hm Hst Hk w r w' B [(a&w1&H1'&H2')|(e&H1'&->)] Hg.
  - destruct (Hm _ _ _ _ H1' Hg) as (B1&Hg1&L1&HF).
    destruct (Hk a _ _ _ _ H2' Hg1) as (B2&Hg2&L2&HG). exists B2.
    split_and!; [done|by eapply later_trans|]. intros b E. exists a.
    split; [|by apply HG]. eapply Hst; [done|by apply HF].
  - destruct (Hm _ _ _ _ H1' Hg) as (B1&Hg1&L1&_). by exists B1.
Qed.

Lemma triple_weaken {A} (m : N A) (F G : A → world → board → Prop) :
  triple m F → (∀ a w B, F a w B → G a w B) → triple m G.
Proof.
  intros Hm HFG w r w' B Hr Hg. destruct (Hm _ _ _ _ Hr Hg) as (B'&?&?&HF).
  exists B'. split_and!; try done. intros a E. by apply HFG, HF.
Qed.

(** The sequence of two phases without a result establishes both. *)
Lemma triple_seq {A} (m : N unit) (k : N A) (F : world → board → Prop) (G : A → world → board → Prop) :
  triple m (λ _, F) → stable F → triple k G →
  triple (nbind m (λ _, k)) (λ a w B, F w B ∧ G a w B).
Proof.
  intros Hm Hst Hk. eapply triple_weaken.
  - apply (triple_bind m (λ _, k) (λ _, F) (λ _, G)); auto.
  - intros a w B (_&HF&HG). done.
Qed.

Lemma triple_ret {A} (r : result A) : triple (nret r) (λ _ _ _, True).
Proof. intros w r' w' B [-> ->] Hg. exists B. split_and!; [done|apply later_refl|done]. Qed.

(** A step that touches only the run's own record. *)
Lemma triple_own {A} (f : world → world * result A) :
  (∀ w, env (f w).1 = env w) → triple (nlift f) (λ _ _ _, True).
Proof.
  intros Hf w r w' B Hr [Hb Hwf]. unfold nlift in Hr. specialize (Hf w). rewrite Hr in Hf. cbn in Hf.
  exists B. split_and!; [split; [by rewrite Hf|done]| |done]. unfold later. by rewrite Hf.
Qed.

Lemma triple_finally {A} (m : N A) (f : world → world) F :
  triple m F → (∀ w, env (f w) = env w) → (∀ a w B, F a w B → F a (f w) B) →
  triple (nfinally m f) F.
Proof.
  intros Hm Hf HF w r w' B (w1&H1'&->) Hg. destruct (Hm _ _ _ _ H1' Hg) as (B'&[Hb Hwf]&HL&HF').
  exists B'. split_and!.
  - split; [by rewrite Hf|done].
  - unfold later in *. by rewrite Hf.
  - intros a E. by apply HF, HF'.
Qed.

Lemma triple_exists {A X} (m : X → N A) F :
  (∀ x, triple (m x) F) → triple (λ w r w', ∃ x, m x w r w') F.
Proof. intros Hm w r w' B [x Hx]. by apply (Hm x). Qed.

Lemma triple_others : triple nothers (λ _ _ _, True).
Proof.
  intros w r w' B [-> [He _]] Hg. destruct (grows_good w w' B (evolves_grows _ _ He) Hg) as (B'&?&?).
  by exists B'.
Qed.

Lemma triple_check_ctx : triple check_ctx (λ _ _ _, True).
Proof. apply triple_own. by intros w. Qed.

Lemma stable_done i : stable (λ _ B, done_on B i).
Proof. intros w B w' B' [Hext _]. by apply extends_done. Qed.

Lemma stable_and F G : stable F → stable G → stable (λ w B, F w B ∧ G w B).
Proof. intros HF HG w B w' B' HL [? ?]. split; [by eapply HF|by eapply HG]. Qed.

Lemma stable_true : stable (λ _ _, True).
Proof. done. Qed.

(** ** The steps *)
Lemma represents_unique w B B' : represents w B → represents w B' → B = B'.
Proof.
  intros [L1 _ R1] [L2 _ R2]. apply map_eq. intros rk.
  destruct (composite_key rk) as [k|e] eqn:Ek.
  - by rewrite <-(L1 _ _ Ek), (L2 _ _ Ek).
  - destruct (B !! rk) as [v|] eqn:E1.
    { destruct (R1 rk) as [k Hk]; [by eexists|congruence]. }
    destruct (B' !! rk) as [v|] eqn:E2; [|done].
    destruct (R2 rk) as [k Hk]; [by eexists|congruence].
Qed.

Lemma good_unique w B B' : good w B → good w B' → B = B'.
Proof. intros [H1' _] [H2' _]. by eapply represents_unique. Qed.

(** [commit]: the ledger grows; on success the transaction is on it. *)
Lemma commit_good event ref fn args i w w' r B :
  invocation_of fn args = Some i → commit event ref fn args w = (w', r) → good w B →
  ∃ B', good w' B' ∧ later w B w' B' ∧ (r = Ok tt → done_on B' i).
Proof.
  intros Hi Hc Hg. unfold commit in Hc.
  destruct (SubmitWithReceipt fn args (env w)) as [s r1] eqn:Es.
  pose proof (receipt_grows _ _ _ _ _ Es) as Hgr.
  destruct r1 as [rc|e].
  - destruct (receipt_acked _ _ _ _ _ _ Es Hi) as (h1&h2&Hh).
    assert (He : env w' = s).
    { by destruct (if String.eqb event "SubmitBallot" then _ else _) as [fs r1]; injection Hc as <- <-. }
    destruct (acked_good w w' B h1 i h2) as (B'&?&?&?); [by rewrite He|by rewrite He; apply Hgr|done|].
    by exists B'.
  - injection Hc as <- <-. destruct (grows_good w (set_env s w) B Hgr Hg) as (B'&?&?). by exists B'.
Qed.

Lemma triple_commit event ref fn args i :
  invocation_of fn args = Some i →
  triple (nlift (commit event ref fn args)) (λ _ _ B, done_on B i).
Proof.
  intros Hi w r w' B Hc Hg. destruct (commit_good _ _ _ _ _ _ _ _ _ Hi Hc Hg) as (B'&?&?&Hd).
  exists B'. split_and!; try done. intros [] E. by apply Hd.
Qed.

Lemma triple_step event ref fn args i :
  invocation_of fn args = Some i → triple (step event ref fn args) (λ _ _ B, done_on B i).
Proof.
  intros Hi. eapply triple_weaken.
  - apply triple_seq; [apply triple_check_ctx|apply stable_true|by apply triple_commit].
  - by intros a w B [_ ?].
Qed.

(** A step that succeeded started while the context was live. *)
Lemma step_live event ref fn args (w w' : world) : step event ref fn args w (Ok tt) w' → ctx_err (env w) = None.
Proof.
  intros [([]&w1&Hc&_)|(e&_&?)]; [|done]. unfold check_ctx, nlift in Hc. injection Hc as <- Hc.
  by destruct (ctx_err (env w)).
Qed.

Lemma open_env (w : world) : env (openReceiptsFor w).1 = env w.
Proof.
  unfold openReceiptsFor. destruct (0 <? refs w)%nat; [done|].
  destruct (os_open (env w)) as [[openErr statErr] trailErr].
  by destruct (ReceiptFile.openReceipts _ _ _ _ _) as [fs [|]].
Qed.

Lemma triple_open : triple (nlift openReceiptsFor) (λ _ _ _, True).
Proof. apply triple_own, open_env. Qed.

Section run.
Context (b : Ceremony.onChainBundle) (ballots : Ballots.stream).

(** ** The partial decryptions *)
Definition partials_done (B : board) : Prop :=
  ∀ pd, pd ∈ Ceremony.PartialDecryptions b →
    done_on B (ISubmitPartialDecryption (Ceremony.ElectionID b) pd).

Lemma triple_partials : triple (submitPartials b) (λ _ _ B, partials_done B).
Proof.
  intros w r w' B (o&acks&Hp&->) Hg.
  set (R := λ x y : world, ∀ B, good x B → ∃ B', good y B' ∧ later x B y B').
  set (partial i := ISubmitPartialDecryption (Ceremony.ElectionID b)
    (default "" (Ceremony.PartialDecryptions b !! i))).
  pose proof Hp as (c&Hc&_&<-&<-).
  destruct (Partials.partials_effect (λ w : world, ctx_err (env w)) (send b) others
    (length (Ceremony.PartialDecryptions b)) R (λ x, ∃ B, good x B)
    (λ i y, ∃ B, good y B ∧ done_on B (partial i)) w c) as [HR HP]; [..|done|].
  - intros x B0 Hx. exists B0. split; [done|apply later_refl].
  - intros x y z Hxy Hyz B0 Hx. destruct (Hxy _ Hx) as (B1&Hy&L1). destruct (Hyz _ Hy) as (B2&Hz&L2).
    exists B2. split; [done|]. by eapply later_trans.
  - intros x y [B0 Hx] Hxy. destruct (Hxy _ Hx) as (B1&?&_). by exists B1.
  - intros x y _ [He _] B0 Hx. apply (grows_good x y B0); [by apply evolves_grows|done].
  - intros i x y r _ Hs B0 Hx. edestruct commit_good as (B1&?&?&_); [|exact Hs|exact Hx|by exists B1].
    done.
  - intros i x y [B0 Hx] Hs. edestruct commit_good as (B1&?&_&Hd); [|exact Hs|exact Hx|].
    + done.
    + exists B1. split; [done|by apply Hd].
  - intros i x y Hxy (B0&Hx&Hd). destruct (Hxy _ Hx) as (B1&Hy&[Hext _]).
    exists B1. split; [done|]. by eapply extends_done.
  - by exists B.
  - destruct (HR B Hg) as (B'&Hg'&HL). exists B'. split_and!; [done|done|].
    intros [] E. destruct o as [e|]; [done|].
    destruct (Partials.submitPartials_nil _ _ _ _ _ _ _ Hp) as [Hperm Hall].
    intros pd (i&Hi)%list_elem_of_lookup.
    assert (Hin : i ∈ (Partials.answers c).*1).
    { rewrite Hperm. apply elem_of_seq. apply lookup_lt_Some in Hi. lia. }
    apply list_elem_of_fmap in Hin as ([i' r']&->&Hin). rewrite Forall_forall in Hall.
    pose proof (Hall _ Hin) as Er. cbn in Er, Hi. subst r'.
    destruct (HP i' Hin) as (B2&Hg2&Hd). rewrite (good_unique _ _ _ Hg2 Hg') in Hd.
    unfold partial in Hd. by rewrite Hi in Hd.
Qed.

(** ** The ballot window *)
Context (count : nat) (Hvalid : Ballots.validateBallots ballots = Ok count).

Record window_inv (d : driver) (asked : list nat) (x : @window S T) (B : board) : Prop := {
  wi_reader : Ballots.reader_inv ballots (wanted d) asked (reader x);
  wi_hand : ∀ i l, hand x !! i = Some l → Ballots.line_at ballots i = Ok l;
  wi_landed : ∀ t, t ∈ landed x → ∃ l,
    Ballots.line_at ballots (index t) = Ok l ∧ done_on B (ISubmitBallot l)
}.

Lemma window_inv_later d asked x B w' B' :
  window_inv d asked x B → later (ww x) B w' B' → window_inv d asked x B'.
Proof.
  intros [Hr Hh Hl] [Hext _]. split; [done|done|]. intros t Ht.
  destruct (Hl t Ht) as (l&?&?). exists l. split; [done|]. by eapply extends_done.
Qed.

Lemma window_step_good d asked x asked' x' B :
  window_step ballots d asked x asked' x' → window_inv d asked x B → good (ww x) B →
  ∃ B', good (ww x') B' ∧ later (ww x) B (ww x') B' ∧ window_inv d asked' x' B'.
Proof.
  pose proof Hvalid as (Herr&Hhex&_)%Ballots.validateBallots_ok.
  intros Hs HI Hg. destruct Hs as [i Hi Hwant|i line Hline|done|w' [He Hw']].
  - unfold read_line. destruct (Ballots.At (wanted d) ballots i (reader x)) as [rd r] eqn:EA.
    destruct HI as [Hr Hh Hl].
    destruct (Ballots.At_spec ballots (wanted d) asked i (reader x) rd r Hhex Herr Hr Hi Hwant EA) as [-> Hr'].
    exists B. destruct (Ballots.line_at ballots i) as [line|e] eqn:El; (split_and!; [done|apply later_refl|]);
      split; cbn; try done.
    intros j l. rewrite lookup_insert_Some. intros [[<- <-]|[_ Hj]]; [done|by apply Hh].
  - unfold submit_line. destruct (SubmitTx "SubmitBallot" [line] (env (ww x))) as [s r] eqn:Es.
    pose proof (submit_grows _ _ _ _ _ Es) as Hgr. destruct r as [[tx blk]|e].
    + destruct (submit_acked _ _ _ _ _ _ Es eq_refl) as (h1&h2&Hh).
      destruct (acked_good (ww x) (set_env s (ww x)) B h1 (ISubmitBallot line) h2) as (B'&Hg'&HL&Hd);
        [done|apply Hgr|done|].
      exists B'. split_and!; [done|done|].
      destruct (window_inv_later _ _ _ _ _ _ HI HL) as [Hr Hhd Hl]. split; cbn; [done| |].
      * intros j l [_ Hj]%lookup_delete_Some. by apply Hhd.
      * intros t [Ht|Ht%list_elem_of_singleton]%elem_of_app; [by apply Hl|]. subst t.
        exists line. split; [by apply Hhd|done].
    + destruct (grows_good (ww x) (set_env s (ww x)) B Hgr Hg) as (B'&Hg'&HL).
      exists B'. split_and!; [done|done|].
      destruct (window_inv_later _ _ _ _ _ _ HI HL) as [Hr Hhd Hl]. split; cbn; [done| |done].
      intros j l [_ Hj]%lookup_delete_Some. by apply Hhd.
  - exists B. split_and!; [by destruct Hg|by split|]. by destruct HI.
  - destruct (grows_good (ww x) w' B (evolves_grows _ _ He) Hg) as (B'&Hg'&HL).
    exists B'. split_and!; [done|done|]. by destruct (window_inv_later _ _ _ _ _ _ HI HL).
Qed.

Lemma window_steps_good d asked x asked' x' B :
  window_steps ballots d asked x asked' x' → window_inv d asked x B → good (ww x) B →
  ∃ B', good (ww x') B' ∧ later (ww x) B (ww x') B' ∧ window_inv d asked' x' B'.
Proof.
  intros Hs HI Hg. induction Hs as [|asked1 x1 asked2 x2 _ IH Hstep].
  - exists B. split_and!; [done|apply later_refl|done].
  - destruct IH as (B1&Hg1&L1&HI1).
    destruct (window_step_good _ _ _ _ _ _ Hstep HI1 Hg1) as (B2&Hg2&L2&HI2).
    exists B2. split_and!; [done|by eapply later_trans|done].
Qed.

Lemma open_window_inv d (w : world) B : window_inv d [] (open_window ballots w) B.
Proof.
  split; cbn; [| by intros ?? ?|by intros t ?%not_elem_of_nil].
  split; cbn; [done|lia| |by intros j ?%not_elem_of_nil].
  intros j l. rewrite lookup_empty. split; [done|lia].
Qed.

Definition ballots_done (B : board) : Prop :=
  ∀ line, line ∈ Ballots.lines ballots → done_on B (ISubmitBallot (TrimSpace line)).

(** A run with no attack plan, no fault plan and no time bound. *)
Definition plain_run (c : Config.ElectionConfig) : Prop :=
  Config.AttackPlan c = None ∧ Config.FaultPlan c = None ∧ Verdict.Window c = 0.

(** The ballots a run reports as committed are on the ledger. *)
Lemma dispatched_landed d concurrency time n w res asked x B :
  dispatched ballots d concurrency time n [] (open_window ballots w) res asked x → window_inv d asked x B →
  ∃ evs, Bench.accounted n evs res ∧
    ∀ k t, (k, (t, true)) ∈ evs →
      ∃ line, Ballots.line_at ballots (slot d k) = Ok line ∧ done_on B (ISubmitBallot line).
Proof.
  intros (s&evs&Hr&Hd&->&_&Hans) HI. exists evs.
  split; [exact (Bench.drained_accounted _ _ time _ _ Hr Hd)|].
  intros k t Hin. destruct (Hans k t true Hin) as (l&Hl&<-). by apply (wi_landed _ _ _ _ HI).
Qed.

(** A whole window whose ballots all committed has them all on the ledger. *)
Lemma dispatched_done concurrency time w res asked x B :
  dispatched ballots (from 0) concurrency time count [] (open_window ballots w) res asked x →
  window_inv (from 0) asked x B → Bench.Stopped res = false → Bench.Dropped res ≤ 0 → ballots_done B.
Proof.
  pose proof Hvalid as (_&_&Hcount)%Ballots.validateBallots_ok.
  intros Hd HI Hst Hdr. destruct (dispatched_landed _ _ _ _ _ _ _ _ _ Hd HI) as (evs&Ha&Hans).
  intros line (i&Hi)%list_elem_of_lookup.
  destruct (Bench.acc_covered _ _ _ i Ha Hst) as (t&ok&Hin); [apply lookup_lt_Some in Hi; lia|]. destruct ok.
  - destruct (Hans i t Hin) as (line'&Hline&Hdone). cbn [from slot Nat.add] in Hline. unfold Ballots.line_at in Hline.
    rewrite Hi in Hline. by injection Hline as <-.
  - exfalso. rewrite (Bench.acc_dropped _ _ _ Ha) in Hdr.
    assert (Hf : (i, (t, false)) ∈ filter (λ ev : nat * (Z * bool), ev.2.2 = false) evs)
      by (apply list_elem_of_filter; done).
    apply list_elem_of_lookup_1 in Hf as [k Hk]. apply lookup_lt_Some in Hk. lia.
Qed.

Lemma ballot_window_good c w res x B :
  ballot_window ballots c count w res x → good w B →
  ∃ B', good (ww x) B' ∧ later w B (ww x) B' ∧
    (plain_run c → Bench.Dropped res ≤ 0 → is_Some (ctx_err (env (ww x))) ∨ ballots_done B').
Proof.
  intros Hw Hg. destruct Hw as [time res asked x _ Hd Hst|k t1 t2 res1 res2 asked1 asked2 x1 w2 x2
    Hk Hpos Hd1 _ Ho cut x1' Hd2].
  - pose proof Hd as (_&_&_&_&_&Hs&_).
    destruct (window_steps_good _ _ _ _ _ _ Hs (open_window_inv _ w B) Hg) as (B'&Hg'&HL&HI).
    exists B'. split_and!; [done|done|]. intros (_&_&Hwin) Hdr.
    destruct (Bench.Stopped res) eqn:Es.
    + destruct (Hst Es) as [?|?]; [by left|lia].
    + right. by eapply dispatched_done.
  - destruct Hd1 as (_&_&_&_&_&Hs1&_).
    destruct (window_steps_good _ _ _ _ _ _ Hs1 (open_window_inv _ w B) Hg) as (B1&Hg1&L1&HI1).
    destruct Ho as [He _]. destruct (grows_good (ww x1) w2 B1 (evolves_grows _ _ He) Hg1) as (B2&Hg2&L2).
    assert (HI2 : window_inv (from k) asked1 x1' B2) by (by destruct (window_inv_later _ _ _ _ _ _ HI1 L2)).
    assert (∃ B', good (ww x2) B' ∧ later w2 B2 (ww x2) B') as (B'&Hg'&L3).
    { destruct (Timeline.goes_on cut (Verdict.Window c) res1).
      - destruct Hd2 as [(_&_&_&_&_&Hs2&_) _].
        destruct (window_steps_good _ _ _ _ _ _ Hs2 HI2 Hg2) as (B'&?&?&_). by exists B'.
      - subst x2. exists B2. split; [done|apply later_refl]. }
    exists B'. split_and!; [done| |].
    + eapply later_trans; [exact L1|]. eapply later_trans; [exact L2|exact L3].
    + intros (Hplan&_) _. rewrite Hplan in Hk. cbn in Hk. lia.
Qed.

(** What the ballot phase establishes, for a run that is not an attack run. *)
Definition ballots_or_over (c : Config.ElectionConfig) (w : world) (B : board) : Prop :=
  plain_run c → is_Some (ctx_err (env w)) ∨ ballots_done B.

Lemma stable_ballots_or_over c : stable (ballots_or_over c).
Proof.
  intros w B w' B' [Hext Hctx] HF Hc. destruct (HF Hc) as [Ho|Hd]; [left; auto|right].
  intros line Hl. eapply extends_done; [done|by apply Hd].
Qed.

Lemma triple_window c m :
  triple (run_window ballots c count m)
    (λ rx w B, Bench.Dropped rx.1.1 ≤ 0 → ballots_or_over c w B).
Proof.
  intros w r w' B (res0&x&fired&Hw&Hfired&->&[He Hw']) Hg.
  destruct (ballot_window_good _ _ _ _ B Hw) as (B1&Hg1&L1&HF); [by destruct Hg|].
  destruct (grows_good (ww x) w' B1) as (B2&Hg2&L2); [by apply evolves_grows|done|].
  exists B2. split_and!; [done|by eapply later_trans|].
  intros rx [= <-] Hdr. cbn in Hdr. eapply stable_ballots_or_over; [done|].
  intros Hc. apply HF; [done|]. destruct fired; [|done].
  destruct Hc as (_&Hf&_). destruct (Hfired eq_refl) as [? E]. congruence.
Qed.

(** Receipts are collected without touching the ledger's records. *)
Lemma collect_block_good l w n B :
  good w B → ∃ B', good (collect_block l w n) B' ∧ later w B (collect_block l w n) B'.
Proof.
  intros Hg. unfold collect_block.
  destruct (ReceiptsForBlock n _ (env w)) as [s r] eqn:Er.
  pose proof (fetch_grows _ _ _ _ _ Er) as Hgr.
  assert (Henv : ∀ evs w1, env (foldl append_receipt w1 evs : world) = env w1).
  { induction evs as [|ev evs IH]; intros w1; [done|]. cbn. by rewrite IH. }
  destruct r as [receipts|e]; apply grows_good; try done.
  by rewrite Henv.
Qed.

Lemma collectReceipts_good l w B :
  good w B → ∃ B', good (collectReceipts l w) B' ∧ later w B (collectReceipts l w) B'.
Proof.
  unfold collectReceipts. generalize (blocks_of (merge_sort by_index l)). intros ns. revert w B.
  induction ns as [|n ns IH]; intros w B Hg; cbn [foldl].
  - exists B. split; [done|apply later_refl].
  - destruct (collect_block_good (merge_sort by_index l) w n B Hg) as (B1&Hg1&L1).
    destruct (IH _ _ Hg1) as (B2&Hg2&L2). exists B2. split; [done|by eapply later_trans].
Qed.

Lemma triple_after_window c m res x bounded text :
  triple (after_window c count m res x bounded text) (λ _ _ _, Bench.Dropped res ≤ 0).
Proof.
  unfold after_window. destruct (readErr x) as [e|].
  { intros w r w' B [-> ->] Hg. exists B. split_and!; [done|apply later_refl|done]. }
  intros w r w' B [([]&w1&Hc&Hr)|(e&Hc&_)] Hg; [|done].
  unfold nmodify, nlift in Hc. injection Hc as <-.
  destruct (collectReceipts_good (landed x) w B Hg) as (B1&Hg1&L1). exists B1.
  destruct (latenciesErr m) as [e|]; [destruct Hr as [-> ->]; by split_and!|].
  destruct (metricsErr m) as [e|]; [destruct Hr as [-> ->]; by split_and!|].
  destruct Hr as [([]&w2&Hm&Hr)|(e&Hm&_)]; [|done].
  unfold nmodify, nlift in Hm. injection Hm as <-.
  destruct (Z.ltb_spec 0 (Bench.Dropped res)) as [Hd|Hd]; destruct Hr as [-> ->].
  - split_and!; [by destruct Hg1|by destruct L1|done].
  - split_and!; [by destruct Hg1|by destruct L1|done].
Qed.
End run.

(** [submitBallots]: on success every ballot of the file is on the ledger,
    unless the caller's context is over. *)
Lemma triple_submitBallots b ballots c text :
  triple (submitBallots b ballots c text) (λ _, ballots_or_over ballots c).
Proof.
  unfold submitBallots. destruct (String.eqb _ _); [apply (triple_weaken _ (λ _ _ _, False))|].
  { intros w r w' B [-> ->] Hg. exists B. split_and!; [done|apply later_refl|done]. }
  { done. }
  destruct (Ballots.validateBallots ballots) as [count|e] eqn:Ev.
  2: { intros w r w' B [-> ->] Hg. exists B. split_and!; [done|apply later_refl|done]. }
  eapply triple_weaken.
  - apply triple_seq; [apply triple_ret|apply stable_true|].
    apply triple_seq; [apply triple_open|apply stable_true|].
    apply (triple_exists _ (λ _, ballots_or_over ballots c)). intros m.
    apply triple_finally; [|done|done]. eapply triple_weaken.
    + apply (triple_bind _ _
        (λ rx w B, Bench.Dropped rx.1.1 ≤ 0 → ballots_or_over ballots c w B)
        (λ rx _ _ _, Bench.Dropped rx.1.1 ≤ 0)).
      * by apply triple_window.
      * intros rx w B w' B' HL HF Hd. eapply stable_ballots_or_over; [done|by apply HF].
      * intros rx. apply triple_after_window.
    + intros [] w B (rx&HF&Hd). by apply HF.
  - intros a w B (_&_&HF). exact HF.
Qed.

(** ** The phases *)
Lemma triple_pause : triple pauseForAttacks (λ _ _ _, True).
Proof. apply triple_others. Qed.

Lemma triple_if {A} (x : bool) (m k : N A) F : triple m F → triple k F → triple (if x then m else k) F.
Proof. by destruct x. Qed.

Lemma triple_close b c :
  triple (closeElection b c) (λ _ _ B, done_on B (ICloseElection (Ceremony.ElectionID b))).
Proof.
  eapply triple_weaken.
  - apply triple_seq; [by apply triple_step|apply stable_done|].
    apply triple_if; [apply triple_ret|].
    eapply triple_weaken; [apply triple_seq;
      [apply triple_pause|apply stable_true|apply triple_check_ctx]|done].
  - by intros a w B [? _].
Qed.

(** A phase that can only succeed if the context was live when it began. *)
Definition checked {A} (m : N A) : Prop :=
  ∀ w a w' B, m w (Ok a) w' → good w B → ctx_err (env w) = None.

Lemma checked_step event ref fn args : checked (A := unit) (step event ref fn args).
Proof. intros w [] w' B Hs _. by eapply step_live. Qed.

Lemma live_back w B w' B' : later w B w' B' → ctx_err (env w') = None → ctx_err (env w) = None.
Proof.
  intros [_ Hctx] Hw'. destruct (ctx_err (env w)) eqn:E; [|done].
  destruct Hctx as [e He]; [by eexists|]. congruence.
Qed.

Lemma checked_first {A B'} (m : N A) (k : A → N B') : checked m → checked (nbind m k).
Proof. intros Hm w x w' B [(a&w1&H1'&_)|(e&_&?)] Hg; [by eapply Hm|done]. Qed.

Lemma checked_then {A B'} (m : N A) (k : A → N B') F :
  triple m F → (∀ a, checked (k a)) → checked (nbind m k).
Proof.
  intros Hm Hk w x w' B [(a&w1&H1'&H2')|(e&_&?)] Hg; [|done].
  destruct (Hm _ _ _ _ H1' Hg) as (B1&Hg1&L1&_). eapply live_back; [exact L1|]. by eapply Hk.
Qed.

(** A phase that leaves something done or the context over, before one that
    needs the context live, leaves it done. *)
Lemma triple_seq_live {A} (m : N unit) (k : N A) (F F' : world → board → Prop) G :
  triple m (λ _, F) → (∀ w B, F w B → ctx_err (env w) = None → F' w B) → stable F' →
  triple k G → checked k → triple (nbind m (λ _, k)) (λ a w B, F' w B ∧ G a w B).
Proof.
  intros Hm HF Hst Hk Hc w r w' B [([]&w1&H1'&H2')|(e&H1'&->)] Hg.
  - destruct (Hm _ _ _ _ H1' Hg) as (B1&Hg1&L1&HF1). destruct (Hk _ _ _ _ H2' Hg1) as (B2&Hg2&L2&HG).
    exists B2. split_and!; [done|by eapply later_trans|]. intros a ->. split; [|by apply HG].
    eapply Hst; [done|]. apply HF; [by apply (HF1 tt)|]. exact (Hc _ _ _ _ H2' Hg1).
  - destruct (Hm _ _ _ _ H1' Hg) as (B1&Hg1&L1&_). by exists B1.
Qed.

Section lifecycles.
Context (b : Ceremony.onChainBundle) (ballots : Ballots.stream) (c : Config.ElectionConfig)
  (text : goerr → string) (Hplain : plain_run c).

Lemma stable_ballots_done : stable (λ _ B, ballots_done ballots B).
Proof. intros w B w' B' [Hext _] Hd line Hl. eapply extends_done; [done|by apply Hd]. Qed.

Lemma stable_partials_done : stable (λ _ B, partials_done b B).
Proof. intros w B w' B' [Hext _] Hd pd Hp. eapply extends_done; [done|by apply Hd]. Qed.

Lemma ballots_live w B : ballots_or_over ballots c w B → ctx_err (env w) = None → ballots_done ballots B.
Proof. intros HF Hw. destruct (HF Hplain) as [[e He]|]; [congruence|done]. Qed.

(** Everything but the tally. *)
Record recorded (B : board) : Prop := {
  rec_params : done_on B (ICreateElection (Ceremony.Params b));
  rec_dkg : done_on B (IPublishDKGTranscript (Ceremony.DKG b));
  rec_ballots : ballots_done ballots B;
  rec_closed : done_on B (ICloseElection (Ceremony.ElectionID b));
  rec_partials : partials_done b B
}.

Lemma triple_setup :
  triple (setupOnChain b ballots c text) (λ _ _ B,
    done_on B (ICreateElection (Ceremony.Params b)) ∧ done_on B (IPublishDKGTranscript (Ceremony.DKG b)) ∧
    ballots_done ballots B ∧ done_on B (ICloseElection (Ceremony.ElectionID b))).
Proof.
  unfold setupOnChain. eapply triple_weaken.
  - apply triple_seq; [by apply triple_step|apply stable_done|].
    apply triple_seq; [apply (triple_if _ _ _ (λ _ _ _, True)); [apply triple_pause|apply triple_ret]
                      |apply stable_true|].
    apply triple_seq; [by apply triple_step|apply stable_done|].
    eapply triple_seq_live; [apply triple_submitBallots|apply ballots_live|apply stable_ballots_done
                           |apply triple_close|apply checked_first, checked_step].
  - intros [] w B (?&_&?&?&?). done.
Qed.

Lemma triple_submitOnChain :
  triple (submitOnChain b ballots c text) (λ _ _ B,
    recorded B ∧ done_on B (IPublishTally (Ceremony.Tally b))).
Proof.
  unfold submitOnChain. eapply triple_weaken.
  - apply triple_seq; [apply triple_open|apply stable_true|].
    apply (triple_finally _ _ (λ _ _ B, recorded B ∧ done_on B (IPublishTally (Ceremony.Tally b))));
      [|done|done].
    eapply triple_weaken.
    + apply triple_seq; [apply triple_setup|repeat apply stable_and; try apply stable_done;
        apply stable_ballots_done|].
      apply triple_seq; [apply triple_partials|apply stable_partials_done|].
      apply triple_seq; [apply (triple_if _ _ _ (λ _ _ _, True));
          [eapply triple_weaken; [apply triple_seq; [apply triple_pause|apply stable_true
             |apply triple_check_ctx]|done]|apply triple_ret]|apply stable_true|].
      by apply triple_step.
    + intros [] w B ((?&?&?&?)&?&_&?). by split.
  - intros [] w B (_&HF). exact HF.
Qed.

(** ** A precinct's lifecycle *)
Context (h : @PrecinctHooks S T).

(** Hooks act on the ledger like everybody else. *)
Definition hook_ok (o : option (@N S T unit)) : Prop :=
  ∀ m w r w', o = Some m → m w r w' → evolves (env w) (env w') ∧ refs w' = refs w.

Lemma triple_hook what o : hook_ok o → triple (run_hook what o) (λ _ _ _, True).
Proof.
  intros Ho. unfold run_hook. destruct o as [m|]; [|apply triple_ret].
  intros w r w' B (r1&Hm&->) Hg. destruct (Ho m w r1 w' eq_refl Hm) as [He _].
  destruct (grows_good w w' B (evolves_grows _ _ He) Hg) as (B'&?&?). by exists B'.
Qed.

(** The outcome a lifecycle reports. *)
Definition outcome (out : string) (B : board) : Prop :=
  out = TallyPublished ∧ done_on B (IPublishTally (Ceremony.Tally b)) ∨
  ∃ e, out = "refused: " +:+ text e ∧ TolerateTallyRefusal h = true ∧ is_Some (BeforeTally h).

Lemma triple_publish : triple (publish_or_refused b h text) (λ out _ B, outcome out B).
Proof.
  intros w r w' B (r1&Hs&->) Hg.
  destruct (triple_step "PublishTally" "" "PublishTally" [Ceremony.Tally b] _ eq_refl _ _ _ _ Hs Hg)
    as (B'&Hg'&HL&HF).
  exists B'. split_and!; [done|done|]. intros out E. destruct r1 as [[]|e].
  - injection E as <-. left. split; [done|by apply (HF tt)].
  - right. destruct (_ && _) eqn:Et in E; [|done]. injection E as <-.
    apply andb_true_iff in Et as [[Ht Hb]%andb_true_iff _]. apply bool_decide_eq_true in Hb. eauto.
Qed.

Lemma checked_publish : checked (publish_or_refused b h text).
Proof.
  intros w out w' B (r1&Hs&E) Hg. destruct r1 as [[]|e]; [by eapply step_live|].
  destruct (_ && _) eqn:Et in E; [|done].
  apply andb_true_iff in Et as [_ Hc%negb_true_iff]. apply bool_decide_eq_false in Hc.
  destruct (triple_step "PublishTally" "" "PublishTally" [Ceremony.Tally b] _ eq_refl _ _ _ _ Hs Hg)
    as (B'&_&HL&_).
  eapply live_back; [exact HL|]. destruct (ctx_err (env w')) eqn:E'; [|done]. by destruct Hc.
Qed.

Lemma triple_precinct :
  hook_ok (BeforeClose h) → hook_ok (BeforeTally h) →
  triple (precinctLifecycle b ballots c h text) (λ out _ B, recorded B ∧ outcome out B).
Proof.
  intros Hbc Hbt. unfold precinctLifecycle. eapply triple_weaken.
  - apply triple_seq; [apply triple_open|apply stable_true|].
    apply (triple_finally _ _ (λ out _ B, recorded B ∧ outcome out B)); [|done|done].
    eapply triple_weaken.
    + apply triple_seq; [by apply triple_step|apply stable_done|].
      apply triple_seq; [by apply triple_step|apply stable_done|].
      eapply triple_seq_live; [apply triple_submitBallots|apply ballots_live|apply stable_ballots_done| |].
      * apply triple_seq; [by apply triple_hook|apply stable_true|].
        apply triple_seq; [apply triple_close|apply stable_done|].
        apply triple_seq; [apply triple_partials|apply stable_partials_done|].
        apply triple_seq; [by apply triple_hook|apply stable_true|]. apply triple_publish.
      * eapply checked_then; [by apply triple_hook|]. intros _.
        apply checked_first, checked_first, checked_step.
    + intros out w B (?&?&?&_&?&?&_&?). by split.
  - intros out w B (_&HF). exact HF.
Qed.
End lifecycles.

(** ** The receipts writer is released *)
Definition keeps {A} (m : @N S T A) : Prop := ∀ w r w', m w r w' → refs w' = refs w.

Lemma keeps_ret {A} (r : result A) : keeps (nret r).
Proof. by intros w r' w' [_ ->]. Qed.

Lemma keeps_lift {A} (f : world → world * result A) : (∀ w, refs (f w).1 = refs w) → keeps (nlift f).
Proof. intros Hf w r w' Hr. unfold nlift in Hr. specialize (Hf w). by rewrite Hr in Hf. Qed.

Lemma keeps_bind {A B'} (m : N A) (k : A → N B') : keeps m → (∀ a, keeps (k a)) → keeps (nbind m k).
Proof.
  intros Hm Hk w r w' [(a&w1&H1'&H2')|(e&H1'&_)]; [|by eapply Hm].
  rewrite (Hk a _ _ _ H2'). by eapply Hm.
Qed.

Lemma keeps_others : keeps nothers.
Proof. by intros w r w' [_ [_ ->]]. Qed.

Lemma keeps_commit event ref fn args (w : world) : refs (commit event ref fn args w).1 = refs w.
Proof.
  unfold commit. destruct (SubmitWithReceipt fn args (env w)) as [s [rc|e]]; [|done].
  by destruct (if String.eqb event "SubmitBallot" then _ else _) as [fs r1].
Qed.

Lemma keeps_step event ref fn args : keeps (step event ref fn args).
Proof.
  apply keeps_bind; [by apply keeps_lift|]. intros _. apply keeps_lift. intros w. apply keeps_commit.
Qed.

(** Every open is matched by the deferred close. *)
Lemma keeps_open_close {A} (m : N A) :
  keeps m → keeps (nbind (nlift openReceiptsFor) (λ _, nfinally m closeReceipts)).
Proof.
  assert (Hop : ∀ w : world, match openReceiptsFor w with
    | (w', Ok _) => refs w' = Datatypes.S (refs w) | (w', Err _) => refs w' = refs w end).
  { intros w. unfold openReceiptsFor. destruct (Nat.ltb_spec 0 (refs w)); [done|].
    destruct (os_open (env w)) as [[? ?] ?].
    destruct (ReceiptFile.openReceipts _ _ _ _ _) as [fs [|]]; cbn; [f_equal; lia|done]. }
  intros Hm w r w' [([]&w1&H1'&w2&H2'&->)|(e&H1'&_)]; unfold nlift in H1';
    
    specialize (Hop w); rewrite H1' in Hop; [|exact Hop].
  cbn. rewrite (Hm _ _ _ H2'), Hop. lia.
Qed.

Lemma keeps_partials b : keeps (submitPartials b).
Proof.
  intros w r w' (o&acks&(c&Hc&_&<-&_)&_).
  destruct (Partials.partials_effect (λ w : world, ctx_err (env w)) (send b) others
    (length (Ceremony.PartialDecryptions b)) (λ x y, refs y = refs x) (λ _, True) (λ _ _, True) w c)
    as [HR _]; try done.
  - intros x y z E1 E2. congruence.
  - by intros x y _ [_ ->].
  - intros i x y r' _ E. pose proof (keeps_commit "SubmitPartialDecryption" (Itoa (Z.of_nat i))
      "SubmitPartialDecryption" [Ceremony.ElectionID b; default "" (Ceremony.PartialDecryptions b !! i)] x)
      as Hk. unfold send in E. by rewrite E in Hk.
Qed.

Lemma keeps_window_steps ballots d asked x asked' x' :
  window_steps (S := S) (T := T) ballots d asked x asked' x' → refs (ww x') = refs (ww x).
Proof.
  induction 1 as [|asked1 x1 asked2 x2 _ IH Hs]; [done|]. rewrite <-IH.
  destruct Hs as [i _ _|i line _|k|w' [_ ->]]; [| |done|done].
  - unfold read_line. by destruct (Ballots.At (wanted d) ballots i (reader x1)) as [rd [l|e]].
  - unfold submit_line. by destruct (SubmitTx "SubmitBallot" [line] (env (ww x1))) as [s [[tx blk]|e]].
Qed.

Lemma keeps_ballot_window ballots c count (w : world) res x :
  ballot_window ballots c count w res x → refs (ww x) = refs w.
Proof.
  intros [time res1 asked x1 _ (_&_&_&_&_&Hs&_) _|k t1 t2 res1 res2 asked1 asked2 x1 w2 x2
    _ _ (_&_&_&_&_&Hs&_) _ [_ Hw2] cut x1' Hd2]; apply keeps_window_steps in Hs; [done|].
  assert (E1 : refs (ww x1') = refs w) by (cbn; rewrite Hw2; exact Hs).
  destruct (Timeline.goes_on cut (Verdict.Window c) res1); [|by subst x2].
  destruct Hd2 as [(_&_&_&_&_&Hs2&_) _]. apply keeps_window_steps in Hs2. congruence.
Qed.

Lemma keeps_collect l (w : world) : refs (collectReceipts l w) = refs w.
Proof.
  unfold collectReceipts. set (items := merge_sort by_index l). generalize (blocks_of items).
  intros ns. revert w. induction ns as [|n ns IH]; intros w; [done|]. cbn [foldl]. rewrite IH.
  unfold collect_block. destruct (ReceiptsForBlock n _ (env w)) as [s [rs|e]]; [|done].
  assert (Hf : ∀ evs w1, refs (foldl append_receipt w1 evs : world) = refs w1).
  { induction evs as [|ev evs IHe]; intros w1; [done|]. cbn. by rewrite IHe. }
  by rewrite Hf.
Qed.

Lemma keeps_after_window c count m res x bounded text : keeps (after_window c count m res x bounded text).
Proof.
  unfold after_window. destruct (readErr x); [apply keeps_ret|].
  apply keeps_bind; [apply keeps_lift; intros w; apply keeps_collect|]. intros _.
  destruct (latenciesErr m); [apply keeps_ret|]. destruct (metricsErr m); [apply keeps_ret|].
  apply keeps_bind; [by apply keeps_lift|]. intros _. destruct (0 <? _); apply keeps_ret.
Qed.

Lemma keeps_submitBallots b ballots c text : keeps (submitBallots b ballots c text).
Proof.
  unfold submitBallots. destruct (String.eqb _ _); [apply keeps_ret|].
  destruct (Ballots.validateBallots ballots) as [count|e]; [|apply keeps_ret].
  apply keeps_bind; [apply keeps_ret|]. intros _.
  intros w r w' [([]&w1&H1'&m&H2')|(e&H1'&Er)].
  - assert (Hm : keeps (nbind (run_window ballots c count m)
      (λ rx, after_window c count m rx.1.1 rx.1.2 rx.2 text))).
    { apply keeps_bind; [|intros; apply keeps_after_window].
      intros x r' y (res&z&fired&Hw&_&_&[_ ->]). apply keeps_ballot_window in Hw. exact Hw. }
    apply (keeps_open_close _ Hm w r w'). left. by exists tt, w1.
  - apply (keeps_open_close (A := unit) (nret (Ok tt)) (keeps_ret _) w r w'). right. by exists e.
Qed.

Lemma keeps_close b c : keeps (closeElection b c).
Proof.
  apply keeps_bind; [apply keeps_step|]. intros _. destruct (negb _); [apply keeps_ret|].
  apply keeps_bind; [apply keeps_others|]. intros _. by apply keeps_lift.
Qed.

Lemma keeps_pause_if (x : bool) : keeps (if x then pauseForAttacks else nret (Ok tt)).
Proof. destruct x; [apply keeps_others|apply keeps_ret]. Qed.

Lemma keeps_setup b ballots c text : keeps (setupOnChain b ballots c text).
Proof.
  unfold setupOnChain. do 4 (apply keeps_bind; [first [apply keeps_step | apply keeps_pause_if
    | apply keeps_submitBallots]|intros _]). apply keeps_close.
Qed.

Lemma keeps_submitOnChain b ballots c text : keeps (submitOnChain b ballots c text).
Proof.
  apply keeps_open_close. apply keeps_bind; [apply keeps_setup|intros _].
  apply keeps_bind; [apply keeps_partials|intros _]. apply keeps_bind; [|intros _; apply keeps_step].
  destruct (Timeline.has _ _); [|apply keeps_ret].
  apply keeps_bind; [apply keeps_others|intros _]. by apply keeps_lift.
Qed.

Lemma keeps_hook what o : hook_ok o → keeps (run_hook what o).
Proof.
  intros Ho. unfold run_hook. destruct o as [m|]; [|apply keeps_ret].
  intros w r w' (r1&Hm&_). by destruct (Ho m w r1 w' eq_refl Hm).
Qed.

Lemma keeps_precinct b ballots c h text :
  hook_ok (BeforeClose h) → hook_ok (BeforeTally h) → keeps (precinctLifecycle b ballots c h text).
Proof.
  intros Hbc Hbt. apply keeps_open_close.
  do 7 (apply keeps_bind; [first [apply keeps_step | apply keeps_submitBallots
    | by apply keeps_hook | apply keeps_close | apply keeps_partials]|intros _]).
  intros w r w' (r1&Hs&_). by apply keeps_step in Hs.
Qed.

(** The config the seam derives from a precinct's header. *)
Lemma precinctRun_plain distribution folder header ids c ids' :
  precinctRun distribution folder header ids = (Ok c, ids') → plain_run c.
Proof.
  unfold precinctRun. destruct header as [hd|e]; [|done].
  destruct (String.eqb (PElectionID hd) "" || (PPositions hd <? 1)); [done|]. by intros [= <- <-].
Qed.

(** C3: a lifecycle that finishes is on the ledger. Whatever the rest of the
    network and the attack hooks do, whatever fails in between and on every
    interleaving of the ballot window and of the partial decryptions: the
    records that were on the ledger stay, and the receipts writer is released.
    When the console's lifecycle (of a run without attack plan, fault plan or
    time bound) succeeds, the ledger holds the bundle's parameters, its
    transcript, every ballot of the file, the closed status, every partial
    decryption and the tally. When a precinct's lifecycle reports an outcome the
    same holds, except that the tally is the bundle's only if the outcome is
    "published"; any other outcome is a refusal tolerated after the hook. *)
Theorem lifecycles_on_ledger b ballots (w : world) B text :
  good w B →
  (∀ c r w', plain_run c → submitOnChain b ballots c text w r w' →
     ∃ B', good w' B' ∧ board_extends B B' ∧ refs w' = refs w ∧
       (r = Ok tt → recorded b ballots B' ∧ done_on B' (IPublishTally (Ceremony.Tally b)))) ∧
  (∀ distribution folder header ids h r w',
     hook_ok (BeforeClose h) → hook_ok (BeforeTally h) →
     PrecinctLifecycle b ballots distribution folder header ids h text w r w' →
     ∃ B', good w' B' ∧ board_extends B B' ∧ refs w' = refs w ∧
       ∀ out, r = Ok out → recorded b ballots B' ∧ outcome b text h out B').
Proof.
  intros Hg. split.
  - intros c r w' Hc Hr. destruct (triple_submitOnChain b ballots c text Hc _ _ _ _ Hr Hg)
      as (B'&?&[? _]&HF). exists B'. split_and!; [done|done|by eapply keeps_submitOnChain|apply HF].
  - intros distribution folder header ids h r w' Hbc Hbt Hr. unfold PrecinctLifecycle in Hr.
    destruct (precinctRun distribution folder header ids) as [[c|e] ids'] eqn:Ec.
    + apply precinctRun_plain in Ec. destruct Hr as (w1&Hr&->).
      pose proof (keeps_precinct b ballots c h text Hbc Hbt _ _ _ Hr) as Hk.
      destruct (triple_precinct b ballots c text Ec h Hbc Hbt _ _ _ B Hr) as (B'&[? ?]&[? _]&HF);
        [by destruct Hg|].
      exists B'. split_and!; [by split|done|exact Hk|exact HF].
    + destruct Hr as [-> ->]. exists B. by split_and!.
Qed.
End facts.
End PhasesFacts.
