(* ===== verification/Jobs.v ===== *)
(** * Console jobs

    [saksi-campaign/jobs.go]: the console-wide slot for one long-running job
    (the validation ladder, a campaign, a network reset). A job is a shared
    record: the board holds pointers to it, here the number it was created
    with. Every operation is one critical section of the board's lock. *)
From S2P Require Import Prelude GoText.
From Stdlib Require Import Ascii.
#[local] Open Scope Z_scope.
Import GoText.
#[local] Arguments String.append !_ _ / : simpl nomatch.

(** [t.Format("20060102-150405")], of a time in UTC. *)
Class JobStamp := FormatStamp : Z → string.

Module Jobs.

Definition jobQueued : string := "queued".
Definition jobRunning : string := "running".
Definition jobDone : string := "done".
Definition jobFailed : string := "failed".
Definition jobCancelled : string := "cancelled".
Definition jobInterrupted : string := "interrupted".

Definition jobLogLines : nat := 200.

Definition jobKindReset : string := "network-reset".

Definition errJobCancelled : goerr := Errorf "campaign cancelled" [].

(** [errors.Is(err, target)]: the error itself or one it wraps with %w. *)
Fixpoint errors_is (target e : goerr) : bool :=
  match e with
  | Errorf f args =>
      match target with
      | Errorf f' [] => String.eqb f f' && match args with [] => true | _ => false end
      | _ => false
      end ||
      (str_contains f "%w" &&
       existsb (λ a, match a with AErr e => errors_is target e | _ => false end) args)
  | Foreign _ => false
  end.

Record job := MkJob {
  ID : string; Kind : string; Status : string; StartedAt : Z; FinishedAt : option Z;
  JError : string; JResult : option string; log : list string; cancel : bool
}.

(** [count] is [n]; [cells] is the memory the job pointers lead to. *)
Record jobBoard := MkBoard {
  count : nat; active : option nat; all : gmap string nat; cells : gmap nat job
}.

Definition empty_board : jobBoard := MkBoard 0 None ∅ ∅.

Definition update (p : nat) (f : job → job) (b : jobBoard) : jobBoard :=
  MkBoard (count b) (active b) (all b) (alter f p (cells b)).

(** [fmt.Sprintf("%s-%s-%d", kind, stamp, n)]. *)
Definition job_id `{JobStamp} (kind : string) (now : Z) (n : nat) : string :=
  (kind +:+ "-") +:+ (FormatStamp now +:+ "-") +:+ Itoa (Z.of_nat n).

Definition new_job (id kind : string) (now : Z) : job :=
  MkJob id kind jobQueued now None "" None [] false.

(** The new job, or the one that holds the slot. *)
Definition start `{JobStamp} (kind : string) (now : Z) (b : jobBoard) : jobBoard * (nat + nat) :=
  match active b with
  | Some p => (b, inr p)
  | None =>
      let n := S (count b) in
      let id := job_id kind now n in
      (MkBoard n (Some n) (<[id := n]> (all b)) (<[n := new_job id kind now]> (cells b)), inl n)
  end.

(** [running]. *)
Definition running (b : jobBoard) : option job := p ← active b; cells b !! p.

Definition cancelRequested (p : nat) (b : jobBoard) : bool :=
  match cells b !! p with Some j => cancel j | None => false end.

Definition set_cancel (j : job) : job :=
  MkJob (ID j) (Kind j) (Status j) (StartedAt j) (FinishedAt j) (JError j) (JResult j) (log j) true.

Definition requestCancel (id : string) (b : jobBoard) : jobBoard * bool :=
  match active b with
  | Some p =>
      match cells b !! p with
      | Some j => if String.eqb (ID j) id then (update p set_cancel b, true) else (b, false)
      | None => (b, false)
      end
  | None => (b, false)
  end.

Definition set_status (s : string) (j : job) : job :=
  MkJob (ID j) (Kind j) s (StartedAt j) (FinishedAt j) (JError j) (JResult j) (log j) (cancel j).

(** [run], before [fn]. *)
Definition run_begin (p : nat) (b : jobBoard) : jobBoard := update p (set_status jobRunning) b.

Definition set_finished (text : goerr → string) (now : Z) (result : option string)
    (err : option goerr) (j : job) : job :=
  let '(status, error) :=
    match err with
    | None => (jobDone, JError j)
    | Some e => if errors_is errJobCancelled e then (jobCancelled, JError j) else (jobFailed, text e)
    end in
  MkJob (ID j) (Kind j) status (StartedAt j) (Some now) error result (log j) (cancel j).

(** [run], after [fn] returned [result] and [err]: one critical section, with
    the campaign's own record [persisted] in it. *)
Definition run_end {P} (text : goerr → string) (persist : option (string → string → P → P)) (p : nat)
    (now : Z) (result : option string) (err : option goerr) (s : jobBoard * P) : jobBoard * P :=
  let b := update p (set_finished text now result err) s.1 in
  let persisted :=
    match persist, cells b !! p with
    | Some f, Some j => f (Status j) (JError j) s.2
    | _, _ => s.2
    end in
  (MkBoard (count b) (if decide (active b = Some p) then None else active b) (all b) (cells b),
   persisted).

(** [strings.TrimRight(s, "c")] for one character. *)
Fixpoint TrimRight1 (c : ascii) (s : string) : string :=
  match s with
  | EmptyString => EmptyString
  | String a s' =>
      let t := TrimRight1 c s' in
      match t with
      | EmptyString => if Ascii.eqb a c then EmptyString else String a EmptyString
      | _ => String a t
      end
  end.

(** [strings.Split(s, "c")] for one character. *)
Fixpoint Split1 (c : ascii) (s : string) : list string :=
  match s with
  | EmptyString => [EmptyString]
  | String a s' =>
      if Ascii.eqb a c then EmptyString :: Split1 c s'
      else match Split1 c s' with
           | l :: ls => String a l :: ls
           | [] => [String a EmptyString]
           end
  end.

Definition LF : ascii := ascii_of_nat 10.

Definition CR : ascii := ascii_of_nat 13.

(** The lines of one Write. *)
Definition written_lines (p : string) : list string :=
  TrimRight1 CR <$> Split1 LF (TrimRight1 LF p).

(** The latest [jobLogLines] lines. *)
Definition keep_latest (l : list string) : list string :=
  let over := Z.of_nat (length l) - Z.of_nat jobLogLines in
  if 0 <? over then drop (Z.to_nat over) l else l.

Definition append_log (p : string) (j : job) : job :=
  MkJob (ID j) (Kind j) (Status j) (StartedAt j) (FinishedAt j) (JError j) (JResult j)
    (keep_latest (log j ++ written_lines p)) (cancel j).

(** [jobLog.Write]. *)
Definition Write (jp : nat) (p : string) (b : jobBoard) : jobBoard := update jp (append_log p) b.

Record jobView := MkJobView {
  VID : string; VKind : string; VStatus : string; VStartedAt : Z; VFinishedAt : option Z;
  VError : string; VLog : list string; VResult : option string
}.

Definition view (id : string) (b : jobBoard) : option jobView :=
  p ← all b !! id; j ← cells b !! p;
  Some (MkJobView (ID j) (Kind j) (Status j) (StartedAt j) (FinishedAt j) (JError j) (log j) (JResult j)).

(** ** Requests *)
Definition StatusConflict : Z := 409.

(** [busyResponse]: the refusal and the job it names. *)
Definition busyResponse (j : job) : Z * goerr * string :=
  (StatusConflict,
   Errorf "the console runs one job at a time; %s %s is running" [AStr (Kind j); AStr (ID j)],
   ID j).

(** [handleJob]: the code and the body. *)
Definition handleJob (method path : string) (b : jobBoard) : Z * (string + jobView) :=
  if negb (String.eqb method "GET") then (405, inl "GET required"%string)
  else match view (TrimPrefix path "/api/jobs/") b with
       | None => (404, inl "unknown job"%string)
       | Some v => (200, inr v)
       end.

(** ** The board's invariant *)
Record board_ok `{JobStamp} (b : jobBoard) : Prop := {
  ok_cells : ∀ p, is_Some (cells b !! p) ↔ (0 < p ≤ count b)%nat;
  ok_id : ∀ p j, cells b !! p = Some j → ∃ kind now, ID j = job_id kind now p;
  ok_all : ∀ id p, all b !! id = Some p ↔ ∃ j, cells b !! p = Some j ∧ ID j = id;
  ok_active : ∀ p, active b = Some p → is_Some (cells b !! p);
  ok_over : ∀ p j, cells b !! p = Some j → active b ≠ Some p → is_Some (FinishedAt j)
}.

(** A job's number is read back from its id. *)
Lemma job_id_inj `{JobStamp} k t n k' t' n' : job_id k t n = job_id k' t' n' → n = n'.
Proof.
  intros E.
  assert (Hd : ∀ m, str_forallb is_digit (Itoa (Z.of_nat m)) = true).
  { intros m. destruct (Itoa_digits (Z.of_nat m)) as [Hm _]; [lia|].
    unfold all_digits in Hm. by destruct (str_forallb is_digit _); [|rewrite ?andb_false_r in Hm]. }
  assert (Hs : ∀ k t m, job_id k t m = (k +:+ "-" +:+ FormatStamp t) +:+ String "-" (Itoa (Z.of_nat m))).
  { intros. unfold job_id. rewrite !string_app_assoc. done. }
  rewrite !Hs in E. apply (last_sep_inj is_digit) in E as [_ E]; [|done|apply Hd|apply Hd].
  apply Itoa_inj in E; lia.
Qed.

Lemma empty_board_ok `{JobStamp} : board_ok empty_board.
Proof.
  split; cbn.
  - intros p. rewrite lookup_empty. split; [by intros []|lia].
  - intros p j. by rewrite lookup_empty.
  - intros id p. rewrite lookup_empty. setoid_rewrite lookup_empty. split; [done|]. by intros (?&?&_).
  - done.
  - intros p j. by rewrite lookup_empty.
Qed.

(** An update that keeps the ids and the finished jobs finished keeps the board. *)
Lemma update_ok `{JobStamp} p f b :
  (∀ j, ID (f j) = ID j) → (∀ j, is_Some (FinishedAt j) → is_Some (FinishedAt (f j))) →
  board_ok b → board_ok (update p f b).
Proof.
  intros Hid Hfin [Hc Hi Ha Hact Ho].
  assert (Hlk : ∀ q j, cells (update p f b) !! q = Some j →
            ∃ j0, cells b !! q = Some j0 ∧ ID j = ID j0 ∧
              (is_Some (FinishedAt j0) → is_Some (FinishedAt j))).
  { intros q j. cbn. destruct (decide (q = p)) as [->|Hq].
    - rewrite lookup_alter_eq. intros (j0&->&->)%fmap_Some. by exists j0; auto.
    - rewrite lookup_alter_ne by done. by exists j. }
  assert (Hsome : ∀ q, is_Some (cells (update p f b) !! q) ↔ is_Some (cells b !! q)).
  { intros q. cbn. destruct (decide (q = p)) as [->|Hq].
    - rewrite lookup_alter_eq. apply fmap_is_Some.
    - by rewrite lookup_alter_ne by done. }
  split.
  - intros q. rewrite Hsome. apply Hc.
  - intros q j (j0&Hj&->&_)%Hlk. by eapply Hi.
  - intros id q. cbn [all update]. rewrite Ha. split; intros (j&Hj&<-).
    + destruct (proj2 (Hsome q) (ex_intro _ j Hj)) as [j' Hj']. exists j'. split; [done|].
      destruct (Hlk _ _ Hj') as (j0&Hj0&->&_). congruence.
    + destruct (Hlk _ _ Hj) as (j0&Hj0&->&_). by exists j0.
  - intros q Hq. apply Hsome. by apply Hact.
  - intros q j (j0&Hj&_&Hf)%Hlk Hq. apply Hf. by eapply Ho.
Qed.

(** [start] gives the slot to a new job, or changes nothing. *)
Lemma start_ok `{JobStamp} kind now b b' r :
  board_ok b → start kind now b = (b', r) →
  board_ok b' ∧
  match r with
  | inr p => b' = b ∧ active b = Some p
  | inl p => active b = None ∧ active b' = Some p ∧ cells b !! p = None ∧
             ∃ j, cells b' !! p = Some j ∧ Kind j = kind ∧ FinishedAt j = None
  end.
Proof.
  intros Hb. unfold start. destruct (active b) as [p|] eqn:E; intros [= <- <-]; [done|].
  destruct Hb as [Hc Hi Ha Hact Ho].
  assert (Hn : cells b !! S (count b) = None).
  { destruct (cells b !! S (count b)) as [j|] eqn:Ej; [|done].
    assert (is_Some (cells b !! S (count b))) as Hs by (by rewrite Ej). apply Hc in Hs. lia. }
  split.
  - split; cbn [count active all cells].
    + intros q. destruct (decide (q = S (count b))) as [->|Hq].
      * rewrite lookup_insert_eq. split; [lia|by eexists].
      * rewrite lookup_insert_ne by done. rewrite Hc. lia.
    + intros q j. rewrite lookup_insert_Some. intros [[<- <-]|[_ Hj]]; [|by eapply Hi].
      by exists kind, now.
    + intros id q. rewrite lookup_insert_Some. setoid_rewrite lookup_insert_Some. split.
      * intros [[<- <-]|[Hne Hq]]; [eexists; split; [by left|done]|].
        apply Ha in Hq as (j&Hj&<-). exists j. split; [|done]. right. split; [|done]. congruence.
      * intros (j&[[<- <-]|[Hne Hj]]&<-); [by left|]. right. split; [|apply Ha; by exists j].
        destruct (Hi _ _ Hj) as (k&t&->). cbn. intros Heq. by apply job_id_inj in Heq.
    + intros q [= <-]. rewrite lookup_insert_eq. by eexists.
    + intros q j. rewrite lookup_insert_Some. intros [[<- <-]|[Hne Hj]] Hq; [done|].
      eapply Ho; [done|]. by rewrite E.
  - split_and!; [done|done|done|]. cbn. rewrite lookup_insert_eq. by eexists.
Qed.

Lemma set_finished_is text now r e j : is_Some (FinishedAt (set_finished text now r e j)).
Proof. unfold set_finished. destruct e as [e|]; [destruct (errors_is _ _)|]; by eexists. Qed.

Lemma set_finished_id text now r e j : ID (set_finished text now r e j) = ID j.
Proof. unfold set_finished. by destruct e as [e|]; [destruct (errors_is _ _)|]. Qed.

(** [run]'s end frees the slot of its own job and finishes it. *)
Lemma run_end_ok `{JobStamp} {P} text (persist : option (string → string → P → P)) p now r e b x :
  board_ok b → active b = Some p →
  let b' := (run_end text persist p now r e (b, x)).1 in
  board_ok b' ∧ active b' = None ∧ count b' = count b ∧ all b' = all b.
Proof.
  intros Hb Hp b'. split_and!; [|cbn; by case_decide|done|done].
  assert (Hu : board_ok (update p (set_finished text now r e) b)).
  { apply update_ok; [apply set_finished_id|intros; apply set_finished_is|done]. }
  subst b'. unfold run_end. cbn [fst active]. rewrite decide_True by done.
  destruct Hu as [Hc Hi Ha Hact Ho]. split; cbn [count active all cells] in *; try done.
  intros q j Hj _. destruct (decide (q = p)) as [->|Hq].
  - cbn in Hj. rewrite lookup_alter_eq in Hj. apply fmap_Some in Hj as (j0&_&->). apply set_finished_is.
  - eapply Ho; [exact Hj|]. cbn. rewrite Hp. congruence.
Qed.

(** A view never misses a job that was started. *)
Lemma view_started `{JobStamp} b p j :
  board_ok b → cells b !! p = Some j → ∃ v, view (ID j) b = Some v ∧ VStatus v = Status j.
Proof.
  intros Hb Hj. unfold view. rewrite (proj2 (ok_all b Hb (ID j) p)) by (by exists j).
  cbn. rewrite Hj. cbn. by eexists.
Qed.

(** ** The log is the latest lines of everything written *)
Lemma keep_latest_spec l : keep_latest l = drop (length l - jobLogLines) l.
Proof.
  unfold keep_latest. destruct (Z.ltb_spec 0 (Z.of_nat (length l) - Z.of_nat jobLogLines)).
  - f_equal. lia.
  - by replace (length l - jobLogLines)%nat with 0%nat by lia.
Qed.

Lemma keep_latest_app l k : keep_latest (keep_latest l ++ k) = keep_latest (l ++ k).
Proof.
  rewrite !keep_latest_spec. set (n := (length l - jobLogLines)%nat).
  rewrite <-(drop_app_le l k n) by (unfold n; lia). rewrite length_drop, drop_drop.
  f_equal. rewrite !length_app. unfold n. lia.
Qed.

Lemma log_of_writes (ps : list string) j :
  log j = [] → log (foldl (λ j p, append_log p j) j ps) = keep_latest (ps ≫= written_lines).
Proof.
  intros Hj. induction ps as [|p ps IH] using rev_ind; [done|].
  rewrite foldl_app. cbn [foldl append_log log]. rewrite IH, keep_latest_app, bind_app.
  cbn. by rewrite app_nil_r.
Qed.
End Jobs.
