(* ===== verification/Csv.v ===== *)
(** * CSV files

    How the console writes its CSV rows ([csvEscape] of [saksi-campaign/perf.go])
    and reads them back ([perfRowCells] of [repeat.go], [parseCSVRows] of
    [campaign.go]), with the reader of Go's [encoding/csv] they use. *)
From S2P Require Import Prelude Hex GoText Jobs.
From Stdlib Require Import Ascii.
#[local] Open Scope Z_scope.
Import GoText Jobs.
#[local] Arguments String.append !_ _ / : simpl nomatch.

Module Csv.

Definition comma : ascii := ",".

Definition dquote : ascii := ascii_of_nat 34.

(** [strings.ContainsAny(cell, ...)] of the comma, the quote and the newline. *)
Definition special (c : ascii) : bool := Ascii.eqb c comma || Ascii.eqb c dquote || Ascii.eqb c LF.

Fixpoint str_existsb (p : ascii → bool) (s : string) : bool :=
  match s with EmptyString => false | String c s => p c || str_existsb p s end.

(** A quote becomes two. *)
Fixpoint double_quotes (s : string) : string :=
  match s with
  | EmptyString => EmptyString
  | String c s =>
      if Ascii.eqb c dquote then String dquote (String dquote (double_quotes s))
      else String c (double_quotes s)
  end.

Definition csvEscape_cell (cell : string) : string :=
  if str_existsb special cell
  then String dquote (double_quotes cell +:+ String dquote EmptyString) else cell.

Definition csvEscape (row : list string) : list string := csvEscape_cell <$> row.

(** [strings.Join(l, ",")]. *)
Fixpoint join_comma (l : list string) : string :=
  match l with
  | [] => EmptyString
  | [s] => s
  | s :: l => s +:+ String comma (join_comma l)
  end.

(** [fmt.Fprintln(w, strings.Join(csvEscape(row), ","))], row after row. *)
Definition csv_line (row : list string) : string := join_comma (csvEscape row) +:+ String LF EmptyString.

Fixpoint csv_text (rows : list (list string)) : string :=
  match rows with [] => EmptyString | r :: rows => csv_line r +:+ csv_text rows end.

(** ** [csv.Writer] *)

(** A field is quoted when it has a comma, a quote or a line end, starts with a
    space, or is a backslash and a dot. *)
Definition needs_quotes (f : string) : bool :=
  if String.eqb f EmptyString then false
  else if String.eqb f "\." then true
  else str_existsb (λ c, Ascii.eqb c comma || Ascii.eqb c dquote || Ascii.eqb c LF || Ascii.eqb c CR) f ||
       match find (has_prefix f) space_encodings with Some _ => true | None => false end.

Definition write_field (f : string) : string :=
  if needs_quotes f then (String dquote (double_quotes f)) +:+ String dquote EmptyString else f.

(** [w.Write(row)], row after row, and [w.Flush()]. *)
Fixpoint written_text (rows : list (list string)) : string :=
  match rows with
  | [] => EmptyString
  | r :: rows => (join_comma (write_field <$> r) +:+ String LF EmptyString) +:+ written_text rows
  end.

(** ** [csv.NewReader(data).ReadAll()] *)

(** Line ends: CR LF is LF, and a CR at the end of the file is dropped. *)
Fixpoint line_ends (s : string) : string :=
  match s with
  | EmptyString => EmptyString
  | String c s1 =>
      if Ascii.eqb c CR then
        match s1 with
        | EmptyString => EmptyString
        | String d s2 => if Ascii.eqb d LF then String LF (line_ends s2) else String c (line_ends s1)
        end
      else String c (line_ends s1)
  end.

(** At the start of a field; in a bare field; in a quoted field; after a quote
    in a quoted field. *)
Inductive mode := AtStart | InBare (cur : string) | InQuotes (cur : string) | AfterQuote (cur : string).

Definition snoc (s : string) (c : ascii) : string := s +:+ String c EmptyString.

(** The records from [s] on, [fields] being those of the record so far. *)
Fixpoint records (s : string) (m : mode) (fields : list string) : option (list (list string)) :=
  match s with
  | EmptyString =>
      match m with
      | AtStart => Some (match fields with [] => [] | _ => [fields ++ [EmptyString]] end)
      | InBare cur | AfterQuote cur => Some [fields ++ [cur]]
      | InQuotes _ => None
      end
  | String c s =>
      let end_field (cur : string) := records s AtStart (fields ++ [cur]) in
      let end_record (cur : string) := rs ← records s AtStart []; Some ((fields ++ [cur]) :: rs) in
      match m with
      | AtStart =>
          if Ascii.eqb c dquote then records s (InQuotes EmptyString) fields
          else if Ascii.eqb c comma then end_field EmptyString
          else if Ascii.eqb c LF then
            match fields with [] => records s AtStart [] | _ => end_record EmptyString end
          else records s (InBare (String c EmptyString)) fields
      | InBare cur =>
          if Ascii.eqb c dquote then None
          else if Ascii.eqb c comma then end_field cur
          else if Ascii.eqb c LF then end_record cur
          else records s (InBare (snoc cur c)) fields
      | InQuotes cur =>
          if Ascii.eqb c dquote then records s (AfterQuote cur) fields
          else records s (InQuotes (snoc cur c)) fields
      | AfterQuote cur =>
          if Ascii.eqb c dquote then records s (InQuotes (snoc cur dquote)) fields
          else if Ascii.eqb c comma then end_field cur
          else if Ascii.eqb c LF then end_record cur
          else None
      end
  end.

(** Every record has as many fields as the first. *)
Definition ReadAll (data : string) : option (list (list string)) :=
  rows ← records (line_ends data) AtStart [];
  match rows with
  | [] => Some []
  | r :: _ => if forallb (λ x, (length x =? length r)%nat) rows then Some rows else None
  end.

(** One header -> cell map per row; a later column of the same name wins. *)
Fixpoint cells_of (head row : list string) (m : gmap string string) : gmap string string :=
  match head, row with
  | h :: head, x :: row => cells_of head row (<[h := x]> m)
  | _, _ => m
  end.

(** [parseCSVRows]; [nil] for an unreadable or empty file. *)
Definition parseCSVRows (data : string) : list (gmap string string) :=
  match ReadAll data with
  | Some (head :: rows) => (λ row, cells_of head row ∅) <$> rows
  | _ => []
  end.

Definition PerfCSV : string := "perf.csv".

(** [perfRowCells]: the row whose first cell is the run's id. *)
Definition perfRowCells (data runID : string) : result (gmap string string) :=
  match ReadAll data with
  | None => Err (Errorf "parse %s: %w" [AStr PerfCSV; AErr (Foreign "csv")])
  | Some (head :: row0 :: rows) =>
      match find (λ row, match row with x :: _ => String.eqb x runID | [] => false end) (row0 :: rows) with
      | Some row => Ok (cells_of head row ∅)
      | None => Err (Errorf "%s has no row for run %s" [AStr PerfCSV; AStr runID])
      end
  | Some _ => Err (Errorf "%s has no data row" [AStr PerfCSV])
  end.

(** ** Reading back what was written *)
Definition no_CR (s : string) : Prop := str_existsb (λ c, Ascii.eqb c CR) s = false.

Lemma str_existsb_app p a b : str_existsb p (a +:+ b) = str_existsb p a || str_existsb p b.
Proof. induction a as [|c a IH]; cbn; [done|]. by rewrite IH, orb_assoc. Qed.

Lemma line_ends_id s : no_CR s → line_ends s = s.
Proof.
  unfold no_CR. induction s as [|c s IH]; cbn; [done|]. intros [Hc Hs]%orb_false_iff. rewrite Hc. by rewrite IH.
Qed.

(** A bare field, up to what ends it. *)
Lemma bare_field cell : ∀ cur c rest fields,
  str_existsb special cell = false → special c = true → c ≠ dquote →
  records (cell +:+ String c rest) (InBare cur) fields = records (String c rest) (InBare (cur +:+ cell)) fields.
Proof.
  induction cell as [|x cell IH]; intros cur c rest fields Hs Hc Hq.
  { by rewrite string_app_nil. }
  cbn in Hs. apply orb_false_iff in Hs as [Hx Hs]. unfold special in Hx.
  apply orb_false_iff in Hx as [[Hx1 Hx2]%orb_false_iff Hx3].
  cbn [String.append records]. rewrite Hx1, Hx2, Hx3, IH by done. unfold snoc. by rewrite string_app_assoc.
Qed.

(** A quoted field. *)
Lemma quoted_field cell : ∀ cur c rest fields,
  records (double_quotes cell +:+ String dquote (String c rest)) (InQuotes cur) fields =
  records (String c rest) (AfterQuote (cur +:+ cell)) fields.
Proof.
  induction cell as [|x cell IH]; intros cur c rest fields.
  { by rewrite string_app_nil. }
  cbn [double_quotes]. destruct (Ascii.eqb_spec x dquote) as [->|Hne].
  - cbn [String.append]. 
    transitivity (records (double_quotes cell +:+ String dquote (String c rest)) (InQuotes (snoc cur dquote)) fields); [done|].
    rewrite IH. unfold snoc. by rewrite string_app_assoc.
  - apply Ascii.eqb_neq in Hne. cbn [String.append].
    transitivity (records (double_quotes cell +:+ String dquote (String c rest)) (InQuotes (snoc cur x)) fields).
    { cbn [records]. by rewrite Hne. }
    rewrite IH. unfold snoc. by rewrite string_app_assoc.
Qed.

(** A written cell is read as itself. *)
Definition ended (cell : string) (c : ascii) (rest : string) (fields : list string) : option (list (list string)) :=
  if Ascii.eqb c comma then records rest AtStart (fields ++ [cell])
  else rs ← records rest AtStart []; Some ((fields ++ [cell]) :: rs).

(** What both writers are read through: a cell is itself, or quoted. *)
Definition as_cell (w cell : string) : Prop :=
  (w = cell ∧ str_existsb special cell = false) ∨
  w = String dquote (double_quotes cell +:+ String dquote EmptyString).

Lemma cell_read w cell c rest fields :
  as_cell w cell → c = comma ∨ c = LF → (c = LF → cell = EmptyString → fields ≠ []) →
  records (w +:+ String c rest) AtStart fields = ended cell c rest fields.
Proof.
  intros Hw Hc Hempty. unfold ended.
  assert (Hd : Ascii.eqb c dquote = false) by (by destruct Hc as [-> | ->]).
  destruct Hw as [[-> Es]| ->].
  - destruct cell as [|x cell].
    + cbn [String.append records]. rewrite Hd. destruct Hc as [-> | ->]; [done|].
      destruct fields as [|f fs]; [by destruct Hempty|done].
    + cbn in Es. apply orb_false_iff in Es as [Hx Es]. unfold special in Hx.
      apply orb_false_iff in Hx as [[Hx1 Hx2]%orb_false_iff Hx3].
      cbn [String.append]. transitivity (records (cell +:+ String c rest) (InBare (String x EmptyString)) fields).
      { cbn [records]. by rewrite Hx1, Hx2, Hx3. }
      rewrite bare_field; [|done|by destruct Hc as [-> | ->]|by destruct Hc as [-> | ->]].
      cbn [String.append records]. rewrite Hd. by destruct Hc as [-> | ->].
  - cbn [String.append]. rewrite string_app_assoc.
    transitivity (records (double_quotes cell +:+ String dquote (String c rest)) (InQuotes EmptyString) fields); [done|].
    rewrite quoted_field. cbn [String.append records]. rewrite Hd. by destruct Hc as [-> | ->].
Qed.

Lemma row_read ws row : ∀ rest fields,
  Forall2 as_cell ws row → row ≠ [] → (fields = [] → row ≠ [EmptyString]) →
  records (join_comma ws +:+ String LF rest) AtStart fields =
  (rs ← records rest AtStart []; Some ((fields ++ row) :: rs)).
Proof.
  revert row. induction ws as [|w ws IH]; intros row rest fields Hw Hne Hsingle.
  { by apply Forall2_nil_inv_l in Hw. }
  apply Forall2_cons_inv_l in Hw as (x&row'&Hx&Hw&->). destruct ws as [|w' ws].
  - apply Forall2_nil_inv_l in Hw as ->. cbn [join_comma]. rewrite (cell_read _ x); [done|done|by right|].
    intros _ -> ->. by apply Hsingle.
  - destruct row' as [|y row]; [by apply Forall2_nil_inv_r in Hw|].
    change (join_comma (w :: w' :: ws)) with (w +:+ String comma (join_comma (w' :: ws))).
    rewrite string_app_assoc. cbn [String.append]. rewrite (cell_read _ x); [|done|by left|done].
    unfold ended. rewrite Ascii.eqb_refl, (IH (y :: row)); [|done|done|by destruct fields].
    by rewrite <-app_assoc.
Qed.

(** A table written cell by cell. *)
Fixpoint text_with (esc : string → string) (rows : list (list string)) : string :=
  match rows with
  | [] => EmptyString
  | r :: rows => (join_comma (esc <$> r) +:+ String LF EmptyString) +:+ text_with esc rows
  end.

Lemma csv_text_with rows : csv_text rows = text_with csvEscape_cell rows.
Proof. induction rows as [|r rows IH]; [done|]. cbn [csv_text text_with]. by rewrite IH. Qed.

Lemma written_text_with rows : written_text rows = text_with write_field rows.
Proof. induction rows as [|r rows IH]; [done|]. cbn [written_text text_with]. by rewrite IH. Qed.

Lemma rows_read esc rows :
  (∀ x, as_cell (esc x) x) → Forall (λ r, r ≠ [] ∧ r ≠ [EmptyString]) rows →
  records (text_with esc rows) AtStart [] = Some rows.
Proof.
  intros Hesc. induction rows as [|r rows IH]; [done|]. intros [[Hr1 Hr2] Hrs]%Forall_cons. cbn [text_with].
  rewrite string_app_assoc. cbn [String.append]. rewrite (row_read _ r); [by rewrite IH| |done|done].
  apply Forall2_fmap_l. by apply Forall_Forall2_diag, Forall_true.
Qed.

Lemma double_quotes_no_CR s : no_CR s → no_CR (double_quotes s).
Proof.
  unfold no_CR. induction s as [|c s IH]; [done|]. cbn. intros [Hc Hs]%orb_false_iff.
  destruct (Ascii.eqb c dquote); cbn; [by rewrite IH|]. by rewrite Hc, IH.
Qed.

Lemma as_cell_no_CR w x : as_cell w x → no_CR x → no_CR w.
Proof.
  intros [[-> _]| ->]; [done|]. intros Hs%double_quotes_no_CR. unfold no_CR in *. cbn. by rewrite str_existsb_app, Hs.
Qed.

Lemma escaped x : as_cell (csvEscape_cell x) x.
Proof. unfold csvEscape_cell. destruct (str_existsb special x) eqn:E; [by right|by left]. Qed.

Lemma field_written x : as_cell (write_field x) x.
Proof.
  unfold write_field. destruct (needs_quotes x) eqn:E; [by right|]. left. split; [done|]. revert E. unfold needs_quotes.
  destruct (String.eqb_spec x EmptyString) as [->|]; [done|]. destruct (String.eqb_spec x "\.") as [->|]; [done|].
  intros [Hx _]%orb_false_iff. clear -Hx. induction x as [|c x IH]; [done|]. cbn in *.
  apply orb_false_iff in Hx as [Hc Hx]. rewrite (IH Hx), orb_false_r. unfold special.
  by apply orb_false_iff in Hc as [-> _].
Qed.

Lemma text_no_CR esc rows : (∀ x, as_cell (esc x) x) → Forall (Forall no_CR) rows → no_CR (text_with esc rows).
Proof.
  intros Hesc. induction 1 as [|r rows Hr Hrs IH]; [done|]. cbn [text_with].
  assert (Hl : no_CR (join_comma (esc <$> r))).
  { induction Hr as [|x l Hx Hl IHl]; [done|]. pose proof (as_cell_no_CR _ _ (Hesc x) Hx) as Hw.
    destruct l as [|y l]; [done|]. change (join_comma (esc <$> x :: y :: l)) with
      (esc x +:+ String comma (join_comma (esc <$> y :: l))). unfold no_CR in *. rewrite str_existsb_app, Hw. exact IHl. }
  unfold no_CR in *. rewrite !str_existsb_app, Hl, IH. done.
Qed.

Lemma no_CR_app a b : no_CR (a +:+ b) ↔ no_CR a ∧ no_CR b.
Proof. unfold no_CR. rewrite str_existsb_app, orb_false_iff. done. Qed.

Lemma digits_no_CR s : str_forallb is_digit s = true → no_CR s.
Proof.
  unfold no_CR. induction s as [|c s IH]; [done|]. cbn. intros [Hc Hs]%andb_true_iff. rewrite (IH Hs), orb_false_r.
  destruct (Ascii.eqb_spec c CR) as [->|]; [by vm_compute in Hc|done].
Qed.

Lemma Itoa_no_CR z : no_CR (Itoa z).
Proof.
  assert (Hpos : ∀ z, 0 ≤ z → no_CR (Itoa z)).
  { intros x Hx. apply digits_no_CR. destruct (Itoa_digits x Hx) as [Hd _].
    unfold all_digits in Hd. by repeat (apply andb_true_iff in Hd as [? Hd] || case_match). }
  destruct z as [|p|p]; [apply Hpos; lia..|].
  change (no_CR ("-" +:+ Itoa (Zpos p))). apply no_CR_app. split; [done|apply Hpos; lia].
Qed.

Lemma hex_no_CR b : no_CR (EncodeToString b).
Proof.
  unfold no_CR. pose proof (hex_digits b) as H. induction (EncodeToString b) as [|c s IH]; [done|].
  cbn in *. apply andb_true_iff in H as [Hc Hs]. rewrite (IH Hs), orb_false_r.
  by destruct (Ascii.eqb_spec c CR) as [->|].
Qed.

(** The tables that survive: no carriage return in a cell, every row as wide as
    the header, and no line that is empty. *)
Record readable (head : list string) (rows : list (list string)) : Prop := {
  no_return : Forall (Forall no_CR) (head :: rows);
  wide : head ≠ [] ∧ Forall (λ r, length r = length head) rows;
  not_blank : Forall (λ r, r ≠ [EmptyString]) (head :: rows)
}.

Lemma ReadAll_with esc head rows :
  (∀ x, as_cell (esc x) x) → readable head rows → ReadAll (text_with esc (head :: rows)) = Some (head :: rows).
Proof.
  intros Hesc [Hcr [Hh Hw] Hb]. unfold ReadAll. rewrite line_ends_id by (by apply text_no_CR).
  rewrite rows_read; [|done|].
  - cbn [mbind option_bind]. assert (E : forallb (λ x, (length x =? length head)%nat) (head :: rows) = true); [|by rewrite E].
    cbn [forallb]. rewrite Nat.eqb_refl. apply forallb_forall. intros r Hr. apply Nat.eqb_eq.
    rewrite Forall_forall in Hw. apply Hw. by apply list_elem_of_In.
  - apply Forall_forall. intros r Hr. rewrite Forall_forall in Hb. split; [|by apply Hb].
    apply elem_of_cons in Hr as [->|Hr]; [done|]. rewrite Forall_forall in Hw. specialize (Hw r Hr).
    intros ->. destruct head; [done|cbn in Hw; lia].
Qed.

Lemma ReadAll_text head rows : readable head rows → ReadAll (csv_text (head :: rows)) = Some (head :: rows).
Proof. rewrite csv_text_with. apply ReadAll_with, escaped. Qed.

Lemma ReadAll_written head rows : readable head rows → ReadAll (written_text (head :: rows)) = Some (head :: rows).
Proof. rewrite written_text_with. apply ReadAll_with, field_written. Qed.

(** A cell is found under its column's name. *)
Lemma cells_of_other head : ∀ row m k, k ∉ head → cells_of head row m !! k = m !! k.
Proof.
  induction head as [|h head IH]; intros [|x row] m k Hk; cbn; try done.
  rewrite IH by set_solver. rewrite lookup_insert_ne; [done|]. set_solver.
Qed.

Lemma cells_of_lookup head : ∀ row m i h x,
  NoDup head → head !! i = Some h → row !! i = Some x → cells_of head row m !! h = Some x.
Proof.
  induction head as [|h head IH]; intros [|x row] m [|i] h' x' Hnd; cbn; try done.
  - intros [= ->] [= ->]. apply NoDup_cons in Hnd as [Hh _]. rewrite cells_of_other by done. apply lookup_insert_eq.
  - apply NoDup_cons in Hnd as [_ Hnd]. by apply IH.
Qed.

(** a table the console writes is read back as it was. For rows as wide as
    the header whose cells hold no carriage return, [encoding/csv] gives the
    same rows, whatever commas, quotes and line breaks the cells hold; each
    parsed row gives each cell under its column's name; and [perfRowCells] finds
    a run's row wherever it is, as long as no earlier row has the same id. *)
Theorem csv_reads_back head rows :
  readable head rows → NoDup head →
  ReadAll (csv_text (head :: rows)) = Some (head :: rows) ∧
  (∀ n row i h x, rows !! n = Some row → head !! i = Some h → row !! i = Some x →
     ∃ m, parseCSVRows (csv_text (head :: rows)) !! n = Some m ∧ m !! h = Some x) ∧
  (∀ n run row, rows !! n = Some (run :: row) → (∀ k row', (k < n)%nat → rows !! k = Some row' → match row' with x :: _ => x ≠ run | [] => True end) →
     perfRowCells (csv_text (head :: rows)) run = Ok (cells_of head (run :: row) ∅)).
Proof.
  intros Hr Hnd. pose proof (ReadAll_text head rows Hr) as E. split; [done|]. split.
  - intros n row i h x Hn Hi Hx. unfold parseCSVRows. rewrite E, list_lookup_fmap, Hn.
    eexists. split; [done|]. by eapply cells_of_lookup.
  - intros n run row Hn Hfirst. unfold perfRowCells. rewrite E.
    destruct rows as [|row0 rows]; [done|].
    assert (Hf : find (λ row, match row with x :: _ => String.eqb x run | [] => false end) (row0 :: rows) = Some (run :: row));
      [|by rewrite Hf].
    clear E Hr. revert n Hn Hfirst. generalize (row0 :: rows) as l.
    induction l as [|r l IH]; intros [|n] Hn Hfirst; cbn in Hn; [done|done| |].
    + injection Hn as ->. cbn. by rewrite String.eqb_refl.
    + cbn [find]. assert (Hr : match r with x :: _ => String.eqb x run | [] => false end = false).
      { specialize (Hfirst O r ltac:(lia) eq_refl). destruct r as [|x r]; [done|]. by apply String.eqb_neq. }
      rewrite Hr. apply (IH n Hn). intros k row' Hk. apply (Hfirst (S k)). lia.
Qed.

Definition sample_head : list string := ["run_id"; "committed_tps"; "fail_reason"].

Definition sample_rows : list (list string) :=
  [["r-1"; "12.5"; ""]; ["r-2"; ""; "submit: " +:+ String dquote "peer down" +:+ String dquote EmptyString +:+ ", retry" +:+ String LF "twice"]].

Lemma sample_readable : readable sample_head sample_rows.
Proof. split; [repeat constructor|split; [done|repeat constructor]|repeat constructor; done]. Qed.

Lemma csv_reads_back_witness :
  ReadAll (csv_text (sample_head :: sample_rows)) = Some (sample_head :: sample_rows) ∧
  ∃ m, parseCSVRows (csv_text (sample_head :: sample_rows)) !! 0%nat = Some m ∧ m !! "committed_tps" = Some "12.5".
Proof.
  assert (Hnd : NoDup sample_head) by (apply (bool_decide_unpack _); vm_compute; exact I).
  destruct (csv_reads_back sample_head sample_rows sample_readable Hnd) as (Hall&Hrow&_).
  split; [exact Hall|]. exact (Hrow 0%nat _ 1%nat _ _ eq_refl eq_refl eq_refl).
Defined.

(** A reason with a carriage return before a line break loses it, and a bare
    quote in a hand-edited file makes the whole file unreadable. *)
Lemma return_is_lost :
  ReadAll (csv_text [["r-1"; "a" +:+ String CR (String LF "b")]]) = Some [["r-1"; "a" +:+ String LF "b"]] ∧
  parseCSVRows ("id,reason" +:+ String LF ("r-1,say " +:+ String dquote ("no" +:+ String dquote (String LF EmptyString)))) = [].
Proof. split; vm_compute; reflexivity. Qed.
End Csv.
