(* ===== verification/RunStore.v ===== *)
(** * The run store

    [saksi-campaign/runstore.go]: run ids, the folder each one names, and the
    creation of a run. *)
From S2P Require Import Prelude GoText Config Jobs.
From Stdlib Require Import Ascii.
#[local] Open Scope Z_scope.
Import GoText Jobs.
#[local] Arguments String.append !_ _ / : simpl nomatch.

Module RunStore.

(** [\[a-z0-9\]]. *)
Definition slug_char (c : ascii) : bool :=
  let n := nat_of_ascii c in
  ((97 <=? n) && (n <=? 122) || (48 <=? n) && (n <=? 57))%nat.

Definition dash : ascii := "-"%char.

Definition id_char (c : ascii) : bool := slug_char c || Ascii.eqb c dash.

(** [runIDPattern], anchored at both ends. *)
Definition runIDPattern (s : string) : bool :=
  match s with
  | EmptyString => false
  | String c s => slug_char c && str_forallb id_char s && (String.length s <=? 63)%nat
  end.

Record RunRecord := MkRunRecord {
  RunID : string; RConfig : Config.ElectionConfig; RCreatedAt : Z; RCommit : gmap string string
}.

(** [folders]: the run folders, with their readable run.json. *)
Record store := MkStore { counter : nat; folders : gmap string (option RunRecord) }.

(** The two characters outside ASCII whose lower case is an ASCII letter:
    U+212A (k) and U+0130 (i), in UTF-8. A lead byte always starts a character,
    so they are found bytewise. *)
Fixpoint fold_special (s : string) : string :=
  match s with
  | EmptyString => EmptyString
  | String a s1 =>
      match s1 with
      | String b s2 =>
          if ((nat_of_ascii a =? 0xC4) && (nat_of_ascii b =? 0xB0))%nat then String "i"%char (fold_special s2)
          else match s2 with
               | String c s3 =>
                   if ((nat_of_ascii a =? 0xE2) && (nat_of_ascii b =? 0x84) && (nat_of_ascii c =? 0xAA))%nat
                   then String "k"%char (fold_special s3)
                   else String a (fold_special s1)
               | EmptyString => String a (fold_special s1)
               end
      | EmptyString => String a EmptyString
      end
  end.

(** [strings.ToLower] as far as [slugify] looks at it: every other character
    outside ASCII stays outside ASCII, and its bytes all become the one dash. *)
Definition lower (s : string) : string := str_map lower_ascii (fold_special s).

Fixpoint slug_loop (prevDash : bool) (s : string) : string :=
  match s with
  | EmptyString => EmptyString
  | String c s =>
      if slug_char c then String c (slug_loop false s)
      else if prevDash then slug_loop true s
      else String dash (slug_loop true s)
  end.

Fixpoint TrimLeft1 (c : ascii) (s : string) : string :=
  match s with
  | EmptyString => EmptyString
  | String a s' => if Ascii.eqb a c then TrimLeft1 c s' else s
  end.

(** [strings.Trim(s, "c")] for one character. *)
Definition Trim1 (c : ascii) (s : string) : string := TrimRight1 c (TrimLeft1 c s).

Definition slugify (s : string) : string :=
  let out := Trim1 dash (slug_loop false (lower s)) in
  let out := if (32 <? String.length out)%nat then Trim1 dash (str_take 32 out) else out in
  if String.eqb out "" then "run" else out.

(** The run folder's name below the root: [runIDPattern] leaves nothing for
    [filepath.Join] to resolve. *)
Definition Dir (runID : string) : result string :=
  if runIDPattern runID then Ok runID else Err (Errorf "invalid run id %q" [AStr runID]).

Section create.
Context `{JobStamp}.

Definition run_id (name : string) (ts : Z) (n : nat) : string :=
  (slugify name +:+ "-") +:+ (FormatStamp ts +:+ "-") +:+ Itoa (Z.of_nat n).

(** [Create]; [mkdirErr] and [writeErr] are the operating system's answers. *)
Definition Create (c : Config.ElectionConfig) (ts : Z) (mkdirErr writeErr : option goerr) (s : store) :
    store * result string :=
  let c := Config.applyDefaults c in
  match Config.Validate c with
  | Err e => (s, Err e)
  | Ok _ =>
      let n := S (counter s) in
      let s := MkStore n (folders s) in
      let id := run_id (Config.Name c) ts n in
      match Dir id with
      | Err e => (s, Err e)
      | Ok dir =>
          match mkdirErr with
          | Some e => (s, Err (Errorf "create run dir: %w" [AErr e]))
          | None =>
              match writeErr with
              | Some e =>
                  (MkStore n (<[dir := None]> (folders s)), Err (Errorf "write %s: %w" [AStr dir; AErr e]))
              | None =>
                  (MkStore n (<[dir := Some (MkRunRecord id c ts ∅)]> (folders s)), Ok id)
              end
          end
      end
  end.
End create.

(** ** Slugs *)
Lemma slug_loop_chars b s : str_forallb id_char (slug_loop b s) = true.
Proof.
  revert b. induction s as [|c s IH]; intros b; cbn; [done|].
  destruct (slug_char c) eqn:Ec; [cbn; unfold id_char at 1; by rewrite Ec, IH|].
  destruct b; [done|]. cbn. by rewrite IH.
Qed.

Lemma TrimLeft1_forallb p c s : str_forallb p s = true → str_forallb p (TrimLeft1 c s) = true.
Proof.
  induction s as [|a s IH]; cbn; [done|]. destruct (Ascii.eqb a c); [|done].
  intros [_ Hs]%andb_true_iff. by apply IH.
Qed.

Lemma TrimRight1_forallb p c s : str_forallb p s = true → str_forallb p (TrimRight1 c s) = true.
Proof.
  induction s as [|a s IH]; cbn; [done|]. intros [Ha Hs]%andb_true_iff. specialize (IH Hs).
  destruct (TrimRight1 c s) as [|b t]; [|by cbn in *; rewrite Ha].
  destruct (Ascii.eqb a c); [done|]. cbn. by rewrite Ha.
Qed.

Lemma TrimRight1_length c s : (String.length (TrimRight1 c s) ≤ String.length s)%nat.
Proof.
  induction s as [|a s IH]; cbn; [done|]. destruct (TrimRight1 c s) as [|b t].
  - destruct (Ascii.eqb a c); cbn; lia.
  - cbn in *. lia.
Qed.

Lemma TrimLeft1_length c s : (String.length (TrimLeft1 c s) ≤ String.length s)%nat.
Proof. induction s as [|a s IH]; cbn; [done|]. destruct (Ascii.eqb a c); cbn; lia. Qed.

(** A trimmed text does not begin with what was trimmed. *)
Lemma Trim1_head c s x t : Trim1 c s = String x t → x ≠ c.
Proof.
  unfold Trim1. assert (Hl : ∀ y u, TrimLeft1 c s = String y u → y ≠ c).
  { intros y u. induction s as [|a s IH]; cbn; [done|].
    destruct (Ascii.eqb_spec a c) as [->|Hne]; [done|]. by intros [= -> ->]. }
  destruct (TrimLeft1 c s) as [|y u] eqn:E; [done|]. specialize (Hl y u eq_refl). cbn.
  destruct (TrimRight1 c u); [|by intros [= -> <-]].
  destruct (Ascii.eqb_spec y c); [done|]. by intros [= -> <-].
Qed.

Lemma str_take_length n s : (String.length (str_take n s) ≤ n)%nat.
Proof. revert s. induction n as [|n IH]; intros [|c s]; cbn; try lia. specialize (IH s). lia. Qed.

Lemma str_take_forallb p n s : str_forallb p s = true → str_forallb p (str_take n s) = true.
Proof.
  revert s. induction n as [|n IH]; intros [|c s]; cbn; try done.
  intros [-> Hs]%andb_true_iff. by rewrite IH.
Qed.

Lemma Trim1_forallb p c s : str_forallb p s = true → str_forallb p (Trim1 c s) = true.
Proof. intros Hs. by apply TrimRight1_forallb, TrimLeft1_forallb. Qed.

(** A slug is one to 32 letters, digits and dashes, and does not begin with a dash. *)
Lemma slugify_ok s :
  ∃ c t, slugify s = String c t ∧ slug_char c = true ∧ str_forallb id_char t = true ∧
         (String.length t ≤ 31)%nat.
Proof.
  set (out := Trim1 dash (slug_loop false (lower s))).
  assert (Hc : str_forallb id_char out = true) by apply Trim1_forallb, slug_loop_chars.
  assert (Hok : ∀ o, str_forallb id_char o = true → (String.length o ≤ 32)%nat →
            (∀ x t, o = String x t → x ≠ dash) →
            ∃ c t, (if String.eqb o "" then "run"%string else o) = String c t ∧ slug_char c = true ∧
              str_forallb id_char t = true ∧ (String.length t ≤ 31)%nat).
  { intros [|x t] Ho Hlen Hx; cbn.
    - exists "r"%char, "un"%string. split_and!; [done..|cbn; lia].
    - cbn in Ho, Hlen. apply andb_true_iff in Ho as [Hx' Ht]. exists x, t. split_and!; [done| |done|lia].
      unfold id_char in Hx'. destruct (slug_char x); [done|]. cbn in Hx'.
      apply Ascii.eqb_eq in Hx'. by destruct (Hx x t eq_refl). }
  unfold slugify. fold out. destruct (Nat.ltb_spec 32 (String.length out)).
  - apply Hok; [by apply Trim1_forallb, str_take_forallb| |by intros; eapply Trim1_head].
    unfold Trim1. pose proof (TrimRight1_length dash (TrimLeft1 dash (str_take 32 out))).
    pose proof (TrimLeft1_length dash (str_take 32 out)). pose proof (str_take_length 32 out). lia.
  - apply Hok; [done|lia|by intros; eapply Trim1_head].
Qed.

(** ** Run ids *)

(** The layout prints fifteen characters for the years 0 to 9999. *)
Class JobStampLaws `{JobStamp} := {
  stamp_time : Z → Prop;
  stamp_length t : stamp_time t → String.length (FormatStamp t) = 15%nat;
  stamp_chars t : stamp_time t → str_forallb id_char (FormatStamp t) = true
}.

Section ids.
Context `{JobStampLaws}.

Lemma digits_id_chars s : str_forallb is_digit s = true → str_forallb id_char s = true.
Proof.
  apply str_forallb_impl. intros c. unfold is_digit, id_char, slug_char. intros Hc.
  apply andb_true_iff in Hc as [H1 H2]. by rewrite H1, H2, orb_true_r.
Qed.

Lemma Itoa_all_digits n : str_forallb is_digit (Itoa (Z.of_nat n)) = true.
Proof.
  destruct (Itoa_digits (Z.of_nat n)) as [Hd _]; [lia|]. unfold all_digits in Hd.
  by apply andb_true_iff in Hd as [_ Hd].
Qed.

Definition most_runs : Z := 10 ^ 15.

Lemma run_id_ok name ts n :
  stamp_time ts → Z.of_nat n < most_runs → runIDPattern (run_id name ts n) = true.
Proof.
  intros Hts Hn. unfold run_id. destruct (slugify_ok name) as (c&t&->&Hc&Ht&Hlen). cbn.
  rewrite Hc, !str_forallb_app, Ht, (stamp_chars _ Hts), (digits_id_chars _ (Itoa_all_digits n)). cbn.
  apply Nat.leb_le. rewrite !string_length_app, (stamp_length _ Hts). cbn.
  pose proof (Itoa_length 15 (Z.of_nat n)) as Hi. unfold most_runs in Hn.
  change (10 ^ Z.of_nat 15) with (10 ^ 15) in Hi. lia.
Qed.

(** The number at the end of an id tells the call that minted it. *)
Lemma run_id_inj a t m b u n : run_id a t m = run_id b u n → m = n.
Proof.
  assert (Hs : ∀ a t m, run_id a t m = (slugify a +:+ "-" +:+ FormatStamp t) +:+ String "-" (Itoa (Z.of_nat m))).
  { intros. unfold run_id. by rewrite !string_app_assoc. }
  rewrite !Hs. intros E. apply (last_sep_inj is_digit) in E as [_ E]; [|done|apply Itoa_all_digits..].
  apply Itoa_inj in E; lia.
Qed.

(** One call. *)
Record call := MkCall {
  cConfig : Config.ElectionConfig; cTime : Z; cMkdir : option goerr; cWrite : option goerr
}.

Definition create (k : call) (s : store) : store * result string :=
  Create (cConfig k) (cTime k) (cMkdir k) (cWrite k) s.

Fixpoint creates (l : list call) (s : store) : store * list (result string) :=
  match l with
  | [] => (s, [])
  | k :: l => let '(s, r) := create k s in let '(s, rs) := creates l s in (s, r :: rs)
  end.

Definition record_of (k : call) (id : string) : RunRecord :=
  MkRunRecord id (Config.applyDefaults (cConfig k)) (cTime k) ∅.

(** A minted id carries a number above the store's counter before the call. *)
Definition minted (s : store) (id : string) : Prop :=
  ∃ name t n, id = run_id name t n ∧ (counter s < n)%nat.

Lemma create_spec k s s' r :
  stamp_time (cTime k) → Z.of_nat (counter s) + 1 < most_runs → create k s = (s', r) →
  (counter s ≤ counter s' ≤ S (counter s))%nat ∧
  (∀ id, ¬ minted s id → folders s' !! id = folders s !! id) ∧
  (∀ id, r = Ok id → runIDPattern id = true ∧ folders s' !! id = Some (Some (record_of k id)) ∧
     ∃ t, id = run_id (Config.Name (cConfig k)) t (S (counter s)) ∧ counter s' = S (counter s)) ∧
  (is_ok r = true ↔ Config.Validate (Config.applyDefaults (cConfig k)) = Ok tt ∧ cMkdir k = None ∧ cWrite k = None).
Proof.
  intros Hts Hn. unfold create, Create.
  assert (Hname : Config.Name (Config.applyDefaults (cConfig k)) = Config.Name (cConfig k)).
  { unfold Config.applyDefaults. by destruct (_ =? 0). }
  destruct (Config.Validate _) as [[]|e] eqn:Ev.
  - rewrite Hname. unfold Dir. rewrite run_id_ok by (done || lia).
    set (id := run_id _ _ _).
    assert (Hid : ∀ x f, ¬ minted s x → <[id := f]> (folders s) !! x = folders s !! x).
    { intros x f Hx. apply lookup_insert_ne. intros <-. apply Hx. eexists _, _, _. split; [done|lia]. }
    destruct (cMkdir k) as [e|]; [|destruct (cWrite k) as [e|]]; intros [= <- <-]; cbn [counter folders].
    + split_and!; [lia|lia|done|done|]. split; [done|]. by intros (_&?&_).
    + split_and!; [lia|lia|by intros; apply Hid|done|]. split; [done|]. by intros (_&_&?).
    + split_and!; [lia|lia|by intros; apply Hid| |done].
      intros x [= <-]. split_and!; [apply run_id_ok; [done|lia]|by rewrite lookup_insert_eq|by eexists].
  - intros [= <- <-]. split_and!; [lia|lia|done|done|]. split; [done|]. by intros [? _].
Qed.
Lemma creates_spec l s s' rs :
  Forall (λ k, stamp_time (cTime k)) l → Z.of_nat (counter s + length l) < most_runs →
  creates l s = (s', rs) →
  length rs = length l ∧ (counter s ≤ counter s')%nat ∧
  (∀ id, ¬ minted s id → folders s' !! id = folders s !! id) ∧
  (∀ i k r, l !! i = Some k → rs !! i = Some r →
     (∀ id, r = Ok id → runIDPattern id = true ∧ minted s id ∧ folders s' !! id = Some (Some (record_of k id))) ∧
     (is_ok r = true ↔ Config.Validate (Config.applyDefaults (cConfig k)) = Ok tt ∧ cMkdir k = None ∧ cWrite k = None)) ∧
  (∀ i j id, rs !! i = Some (Ok id) → rs !! j = Some (Ok id) → i = j).
Proof.
  revert s rs. induction l as [|k l IH]; intros s rs Hf Hn; cbn.
  { intros [= <- <-]. by split_and!. }
  apply Forall_cons in Hf as [Hk Hf]. cbn in Hn. destruct (create k s) as [s1 r] eqn:Ek.
  destruct (creates l s1) as [s2 rs'] eqn:El. intros [= <- <-].
  destruct (create_spec k s s1 r Hk ltac:(lia) Ek) as (Hc&Hkeep&Hok&Hiff).
  destruct (IH s1 rs' Hf ltac:(lia) El) as (Hlen&Hc'&Hkeep'&Hall&Hone).
  assert (Hm : ∀ id, minted s1 id → minted s id).
  { intros id (a&t&n&->&Hlt). exists a, t, n. split; [done|lia]. }
  assert (Hnew : ∀ id, r = Ok id → minted s id ∧ ¬ minted s1 id).
  { intros id Hr. destruct (Hok id Hr) as (_&_&t&->&Hs1). split; [eexists _, _, _; split; [done|lia]|].
    intros (a&u&n&E&Hlt). apply run_id_inj in E. lia. }
  split_and!; [cbn; lia|lia| | |].
  - intros id Hid. rewrite Hkeep' by auto. by apply Hkeep.
  - intros [|i] k' r'; cbn.
    + intros [= <-] [= <-]. split; [|done]. intros id Hr. destruct (Hok id Hr) as (Hp&Hfd&_).
      destruct (Hnew id Hr). split_and!; [done|done|]. by rewrite Hkeep'.
    + intros Hk' Hr'. destruct (Hall i k' r' Hk' Hr') as [H1 H2]. split; [|done].
      intros id Hr. destruct (H1 id Hr) as (?&?&?). split_and!; auto.
  - assert (Hno : ∀ i id, r = Ok id → rs' !! i = Some (Ok id) → False).
    { intros i id Hr Hi. destruct (Hnew id Hr) as [_ Hnm]. apply Hnm.
      assert (i < length l)%nat as Hil by (rewrite <-Hlen; by eapply lookup_lt_Some).
      apply lookup_lt_is_Some in Hil as [k' Hk']. by apply (Hall i k' _ Hk' Hi). }
    intros [|i] [|j] id; cbn; intros Ei Ej; [done| | |].
    + injection Ei as ->. by destruct (Hno j id).
    + injection Ej as ->. by destruct (Hno i id).
    + f_equal. by eapply Hone.
Qed.

(** A run folder is never reused. Within one process's store, for any
    sequence of creations and whatever the operating system answers: a creation
    succeeds exactly when the configuration is valid and the folder and its
    run.json could be written, never refused for its id; every id handed out is
    a valid run id, hence a name with no slash and no dot; no two creations get
    the same id; and every run's record is still in its folder at the end. *)
Theorem runs_never_overwritten l s s' rs :
  Forall (λ k, stamp_time (cTime k)) l → Z.of_nat (counter s + length l) < most_runs →
  creates l s = (s', rs) →
  length rs = length l ∧
  (∀ i k, l !! i = Some k → ∃ r, rs !! i = Some r ∧
     (is_ok r = true ↔
        Config.Validate (Config.applyDefaults (cConfig k)) = Ok tt ∧ cMkdir k = None ∧ cWrite k = None) ∧
     ∀ id, r = Ok id →
       Dir id = Ok id ∧ str_forallb id_char id = true ∧ (0 < String.length id ≤ 64)%nat ∧
       folders s' !! id = Some (Some (record_of k id))) ∧
  (∀ i j id, rs !! i = Some (Ok id) → rs !! j = Some (Ok id) → i = j).
Proof.
  intros Hf Hn Hc. destruct (creates_spec l s s' rs Hf Hn Hc) as (Hlen&_&_&Hall&Hone).
  split_and!; [done| |done]. intros i k Hk.
  assert (i < length rs)%nat as [r Hr]%lookup_lt_is_Some by (rewrite Hlen; by eapply lookup_lt_Some).
  exists r. destruct (Hall i k r Hk Hr) as [H1 H2]. split_and!; [done|done|].
  intros id Hid. destruct (H1 id Hid) as (Hp&_&Hfd). unfold Dir. rewrite Hp.
  destruct id as [|c t]; [done|]. cbn in Hp. rewrite !andb_true_iff in Hp. destruct Hp as [[Hx Ht] Hlt].
  apply Nat.leb_le in Hlt. split_and!; [done| |cbn; lia|cbn; lia|done].
  cbn. unfold id_char at 1. by rewrite Hx, Ht.
Qed.
End ids.

(** ** On concrete runs *)
#[export] Instance fixed_stamp : JobStamp := λ _, "20260101-093000"%string.

#[export] Instance fixed_stamp_laws : JobStampLaws := {
  stamp_time _ := True;
  stamp_length _ _ := eq_refl;
  stamp_chars _ _ := eq_refl
}.

Example slug_of_title : slugify "  Halalan 2025 (Sangguniang Kabataan) -- round II" = "halalan-2025-sangguniang-kabataa".
Proof. vm_compute. reflexivity. Qed.

Example slug_of_nothing : slugify "!!!" = "run".
Proof. reflexivity. Qed.

Definition two_calls : list call :=
  [MkCall Config.demo_config 0 None None; MkCall Config.demo_config 0 None None].

Lemma runs_never_overwritten_witness :
  ∃ a b s', creates two_calls (MkStore 0 ∅) = (s', [Ok a; Ok b]) ∧ a ≠ b ∧
    folders s' !! a = Some (Some (record_of (MkCall Config.demo_config 0 None None) a)).
Proof.
  destruct (creates two_calls (MkStore 0 ∅)) as [s' rs] eqn:E.
  assert (Ht : Forall (λ k, stamp_time (cTime k)) two_calls) by (repeat constructor).
  destruct (runs_never_overwritten two_calls (MkStore 0 ∅) s' rs Ht eq_refl E) as (Hlen&Hall&Hone).
  assert (Hv : Config.Validate (Config.applyDefaults Config.demo_config) = Ok tt) by (vm_compute; reflexivity).
  destruct (Hall 0%nat _ eq_refl) as (r0&Hr0&Hi0&Hf0). destruct (Hall 1%nat _ eq_refl) as (r1&Hr1&Hi1&_).
  destruct r0 as [a|e]; [|exact (False_ind _ (Bool.diff_false_true (proj2 Hi0 (conj Hv (conj eq_refl eq_refl)))))].
  destruct r1 as [b|e]; [|exact (False_ind _ (Bool.diff_false_true (proj2 Hi1 (conj Hv (conj eq_refl eq_refl)))))].
  destruct rs as [|x [|y [|z rs]]]; try discriminate Hlen.
  injection Hr0 as ->. injection Hr1 as ->. exists a, b, s'. split; [reflexivity|]. split.
  - intros ->. discriminate (Hone 0%nat 1%nat b eq_refl eq_refl).
  - exact (proj2 (proj2 (proj2 (Hf0 a eq_refl)))).
Defined.
End RunStore.
