(* ===== verification/Perf.v ===== *)
(** * The measurement row of a run

    [saksi-campaign/perf.go]: the row of perf.csv, the file it is written to
    (one row a run, the latest [Verify]'s), and the latency rows of
    latencies.csv. The reader of both is [Csv]. *)
From S2P Require Import Prelude GoText Config Jobs Csv RunStore Bench Journal Resume.
From Stdlib Require Import Ascii.
#[local] Open Scope Z_scope.
Import GoText Jobs Csv.

Module Perf.

(** ** Numbers *)

(** [num/den] to the nearest integer, ties to even. *)
Definition round_half_even (num den : Z) : Z :=
  let q := num / den in
  match 2 * (num mod den) ?= den with
  | Lt => q
  | Gt => q + 1
  | Eq => if Z.even q then q else q + 1
  end.

(** [z], left-padded with zeros to [n] digits. *)
Definition pad (n : nat) (z : Z) : string :=
  let s := Itoa z in String.concat EmptyString (repeat "0" (n - String.length s)) +:+ s.

(** [units] / 10^[prec]. *)
Definition decimal (neg : bool) (prec : nat) (units : Z) : string :=
  let p := 10 ^ Z.of_nat prec in
  (if neg then "-" else EmptyString) +:+ Itoa (units / p) +:+ "." +:+ pad prec (units mod p).

(** [strconv.FormatFloat(v, 'f', prec, 64)], for [prec > 0]. *)
Definition FormatFloat (prec : nat) (v : float64) : string :=
  match v with
  | S754_nan => "NaN"
  | S754_infinity s => if s then "-Inf" else "+Inf"
  | S754_zero s => decimal s prec 0
  | S754_finite s m e =>
      let scaled := Zpos m * 10 ^ Z.of_nat prec in
      decimal s prec (if 0 <=? e then scaled * 2 ^ e else round_half_even scaled (2 ^ (- e)))
  end.

Definition FormatBool (b : bool) : string := if b then "true" else "false".

(** ** What the row is made of *)
Record genTimings := MkGenTimings {
  CredentialCPUMs : Z; EncryptCPUMs : Z; CDSProveCPUMs : Z; WallMs : Z
}.

Record TimingsMs := MkTimings {
  VerifyBallots : Z; Aggregate : Z; Combine : Z; Decode : Z; VerifyThreads : Z
}.

(** [submit-metrics.json]: what the verdict reads, and the rest. *)
Record submitMetrics := MkMetrics {
  core : Resume.submitMetrics;
  LatencyMinMs : float64; LatencyMeanMs : float64; LatencyP95Ms : float64; LatencyP99Ms : float64;
  LatencyStdDevMs : float64;
  PeakCPUPct : gmap string float64; PeakMemMB : gmap string float64; LedgerBytesDelta : option Z
}.

(** [containerRole]. *)
Definition containerRole (name : string) : string :=
  if String.eqb name "client" then "client"
  else if String.prefix "peer" name then "peer"
  else if String.prefix "orderer" name then "orderer" else EmptyString.

(** A container's peak CPU and memory; the map is walked in any order. *)
Definition peak (role : string) (v : float64) (m : gmap string float64) : gmap string float64 :=
  match m !! role with
  | Some old => if SFltb old v then <[role := v]> m else m
  | None => <[role := v]> m
  end.

Definition add_container (p : gmap string float64 * gmap string float64) (c : string * (float64 * Z)) :
    gmap string float64 * gmap string float64 :=
  let role := containerRole c.1 in
  if String.eqb role EmptyString then p
  else (peak role c.2.1 p.1, peak role (float_div (float_of_Z c.2.2) (float_of_Z (1024 * 1024))) p.2).

Definition peaks (containers : list (string * (float64 * Z))) : gmap string float64 * gmap string float64 :=
  foldl add_container (∅, ∅) containers.

Definition ms3 (v : option float64) : string :=
  match v with Some v => FormatFloat 3 v | None => EmptyString end.

Definition intCell (v : option Z) : string := match v with Some v => Itoa v | None => EmptyString end.

(** An unsigned 64-bit sum. *)
Definition uint64 (z : Z) : Z := z mod 2 ^ 64.

Definition securityRunCell (c : Config.ElectionConfig) : string :=
  match Config.AttackPlan c with None => EmptyString | Some _ => "true" end.

(** [perfColumns]. *)
Definition perfColumns : list string :=
  ["run_id"; "mode"; "voters"; "positions"; "candidates"; "profile";
   "gen_wall_ms"; "gen_cpu_ms"; "proof_gen_cpu_ms";
   "proof_verify_inproc_ms"; "aggregate_inproc_ms"; "combine_inproc_ms"; "decrypt_inproc_ms";
   "submit_window_ms"; "committed"; "dropped"; "committed_tps"; "driver_ceiling_tps";
   "latency_min_ms"; "latency_p50_ms"; "latency_mean_ms"; "latency_p95_ms"; "latency_p99_ms"; "latency_stddev_ms";
   "peak_cpu_pct_peer"; "peak_cpu_pct_orderer"; "peak_cpu_pct_client";
   "peak_mem_mb_peer"; "peak_mem_mb_orderer"; "peak_mem_mb_client";
   "ledger_bytes_delta"; "sustained"; "scaling_limit"; "failed"; "fail_reason";
   "verify_threads"; "security_run"].

(** [perfRow]; each producer's file is there or not, [text] is an error's text. *)
Definition perfRow (text : goerr → string) (runID : string) (c : Config.ElectionConfig)
    (gt : option genTimings) (tm : option TimingsMs) (sm : option submitMetrics) (fin : Journal.FinaliseResult) :
    list string :=
  let gen f := intCell (f <$> gt) in
  let aud f := intCell (f <$> tm) in
  let win f := intCell (f <$> sm) in
  let lat f := ms3 (f <$> sm) in
  let role f r := ms3 (sm ≫= λ s : submitMetrics, (f s : gmap string float64) !! (r : string)) in
  [runID; Config.Mode c; Itoa (Config.Voters c); Itoa (Config.Positions c); Itoa (Config.Candidates c);
   Config.Distribution c;
   gen WallMs; gen (λ g, uint64 (CredentialCPUMs g + EncryptCPUMs g + CDSProveCPUMs g)); gen CDSProveCPUMs;
   aud VerifyBallots; aud Aggregate; aud Combine; aud Decode;
   win (λ s, Resume.SWindowMs (core s)); win (λ s, Resume.SCommitted (core s)); win (λ s, Resume.SDropped (core s));
   lat (λ s, Resume.SCommittedTPS (core s)); lat (λ s, Resume.SDriverCeilingTPS (core s));
   lat LatencyMinMs; lat (λ s, Resume.SLatencyP50Ms (core s)); lat LatencyMeanMs; lat LatencyP95Ms;
   lat LatencyP99Ms; lat LatencyStdDevMs;
   role PeakCPUPct "peer"; role PeakCPUPct "orderer"; role PeakCPUPct "client";
   role PeakMemMB "peer"; role PeakMemMB "orderer"; role PeakMemMB "client";
   intCell (sm ≫= LedgerBytesDelta);
   FormatBool (Journal.Sustained fin); Journal.ScalingLimit fin;
   FormatBool (Journal.Failed fin); match Journal.Reason fin with Some e => text e | None => EmptyString end;
   intCell (t ← tm; if 0 <? VerifyThreads t then Some (VerifyThreads t) else None);
   securityRunCell c].

(** ** perf.csv *)

(** [perfRowsExcept]: the data rows but those of [runID]; [None]: no file. *)
Definition of_run (runID : string) (row : list string) : bool :=
  match row with x :: _ => String.eqb x runID | [] => false end.

Definition perfRowsExcept (file : option (result string)) (runID : string) : result (list (list string)) :=
  match file with
  | None => Ok []
  | Some (Err e) => Err e
  | Some (Ok data) =>
      match ReadAll data with
      | None => Err (Errorf "read %s: %w" [AStr PerfCSV; AErr (Foreign "csv")])
      | Some rows =>
          let rows := match rows with
                      | row :: rest => if of_run "run_id" row then rest else rows
                      | [] => []
                      end in
          Ok (filter (λ row, of_run runID row = false) rows)
      end
  end.

(** What the operating system refuses: the schema file, creating the temporary
    file, writing or closing it, renaming it. *)
Record faults := MkFaults {
  schema : option goerr; create : option goerr; write : option goerr; rename : option goerr
}.

Definition no_faults : faults := MkFaults None None None None.

(** [writePerfRow]: perf.csv after it. A failure leaves the file as it was. *)
Definition writePerfRow (fs : faults) (file : option (result string)) (runID : string) (row : list string) :
    option (result string) * result unit :=
  match schema fs with
  | Some e => (file, Err e)
  | None =>
      match perfRowsExcept file runID with
      | Err e => (file, Err e)
      | Ok kept =>
          match create fs with
          | Some e => (file, Err (Errorf "open %s: %w" [AStr PerfCSV; AErr e]))
          | None =>
              match write fs with
              | Some e => (file, Err (Errorf "write %s: %w" [AStr PerfCSV; AErr e]))
              | None =>
                  match rename fs with
                  | Some e => (file, Err e)
                  | None => (Some (Ok (join_comma perfColumns +:+ String LF (csv_text (kept ++ [row])))), Ok tt)
                  end
              end
          end
      end
  end.

(** ** latencies.csv *)
Definition latency_header : string := "index,segment,ms,ok" +:+ String LF EmptyString.

(** [float64(d.Microseconds())/1000.0], to three decimals. *)
Definition latency_ms (d : Z) : string := FormatFloat 3 (float_div (float_of_Z (Z.quot d 1000)) (float_of_Z 1000)).

Definition latency_row (index segment d : Z) (status : string) : string :=
  join_comma [Itoa index; Itoa segment; latency_ms d; status] +:+ String LF EmptyString.

(** The slots a window filled: [0..LastIndex], as far as there are any. *)
Definition slots (res : Bench.RunResult) : list nat :=
  seq 0 (Nat.min (Z.to_nat (Bench.LastIndex res + 1)) (length (Bench.ByIndex res))).

Definition status_of (replay : nat → bool) (res : Bench.RunResult) (k : nat) : string :=
  if default false (Bench.OK res !! k) then "commit" else if replay k then "replay" else "drop".

Definition latency_rows (index : nat → Z) (replay : nat → bool) (res : Bench.RunResult) (segment : Z) : string :=
  String.concat EmptyString
    ((λ k, latency_row (index k) segment (default 0 (Bench.ByIndex res !! k)) (status_of replay res k)) <$> slots res).

(** A disk with room. *)
Definition writeLatenciesCSV (res : Bench.RunResult) (segment : Z) : string :=
  latency_header +:+ latency_rows Z.of_nat (λ _, false) res segment.

Definition appendLatenciesCSV (file : option string) (res : Bench.RunResult) (segment : Z) (index : nat → Z)
    (replay : nat → bool) : string :=
  let old := default EmptyString file in
  old +:+ (if String.eqb old EmptyString then latency_header else EmptyString) +:+ latency_rows index replay res segment.

Example formats :
  FormatFloat 3 (float_of_Z 12) = "12.000" ∧
  FormatFloat 3 (float_div (float_of_Z 1) (float_of_Z 3)) = "0.333" ∧
  FormatFloat 3 (float_div (float_of_Z (-5)) (float_of_Z 16)) = "-0.312" ∧
  FormatFloat 2 (float_div (float_of_Z 7) (float_of_Z 8)) = "0.88" ∧
  FormatFloat 2 (float_div (float_of_Z 1) (float_of_Z 0)) = "+Inf" ∧
  latency_ms 1234567 = "1.234".
Proof. split_and!; vm_compute; reflexivity. Qed.

(** ** What perf.csv holds *)

(** A row as wide as the header, with no carriage return. *)
Definition good_row (row : list string) : Prop := length row = length perfColumns ∧ Forall no_CR row.

Definition perf_text (rows : list (list string)) : string := csv_text (perfColumns :: rows).

(** A call of [writePerfRow] for a run. *)
Record attempt := MkAttempt { what_fails : faults; for_run : string; row : list string }.

Definition attempt_write (file : option (result string)) (a : attempt) : option (result string) :=
  (writePerfRow (what_fails a) file (for_run a) (row a)).1.

Definition succeeds (a : attempt) : bool :=
  match what_fails a with MkFaults None None None None => true | _ => false end.

(** The row of the last call for [run] that succeeded. *)
Definition latest (run : string) (l : list attempt) : option (list string) :=
  row <$> last (filter (λ a, succeeds a = true ∧ for_run a = run) l).

(** The rows of the file: each run's latest, in the order they were written. *)
Definition replace (rows : list (list string)) (a : attempt) : list (list string) :=
  if succeeds a then filter (λ r, of_run (for_run a) r = false) rows ++ [row a] else rows.

Definition rows_after (l : list attempt) : list (list string) := foldl replace [] l.

(** A call of the console: the row is the run's own. *)
Definition good_call (a : attempt) : Prop := good_row (row a) ∧ of_run (for_run a) (row a) = true.

Definition written (rows : list (list string)) (file : option (result string)) : Prop :=
  file = (match rows with [] => None | _ => Some (Ok (perf_text rows)) end).

Lemma text_written rows : join_comma perfColumns +:+ String LF (csv_text rows) = perf_text rows.
Proof.
  unfold perf_text. cbn [csv_text]. unfold csv_line.
  change (csvEscape perfColumns) with perfColumns. by rewrite string_app_assoc.
Qed.

Lemma readable_rows rows : Forall good_row rows → readable perfColumns rows.
Proof.
  intros Hr. split.
  - constructor; [repeat constructor|]. eapply Forall_impl; [exact Hr|]. by intros r [_ ?].
  - split; [done|]. eapply Forall_impl; [exact Hr|]. by intros r [? _].
  - constructor; [done|]. eapply Forall_impl; [exact Hr|]. intros r [Hl _] ->. done.
Qed.

Lemma except_written rows file run :
  Forall good_row rows → written rows file →
  perfRowsExcept file run = Ok (filter (λ r, of_run run r = false) rows).
Proof.
  intros Hr ->. destruct rows as [|r rows]; [done|].
  unfold perfRowsExcept, perf_text. rewrite ReadAll_text by by apply readable_rows. done.
Qed.

Lemma write_exact rows file a :
  Forall good_row rows → written rows file →
  written (replace rows a) (attempt_write file a) ∧
  is_ok (writePerfRow (what_fails a) file (for_run a) (row a)).2 = succeeds a.
Proof.
  intros Hr Hw. unfold attempt_write, writePerfRow, replace, succeeds.
  rewrite (except_written _ _ _ Hr Hw). destruct a as [[[?|] [?|] [?|] [?|]] run r]; try by split.
  cbn. rewrite text_written. split; [|done]. unfold written. by destruct (filter _ rows).
Qed.

Lemma replace_good rows a : Forall good_row rows → good_call a → Forall good_row (replace rows a).
Proof.
  intros Hr [Ha _]. unfold replace. destruct (succeeds a); [|done].
  apply Forall_app. split; [|by constructor]. by apply Forall_forall; intros r [_ Hin]%list_elem_of_filter; rewrite Forall_forall in Hr; apply Hr.
Qed.

Lemma attempts_written l : ∀ rows file,
  Forall good_call l → Forall good_row rows → written rows file →
  Forall good_row (foldl replace rows l) ∧ written (foldl replace rows l) (foldl attempt_write file l).
Proof.
  induction l as [|a l IH]; intros rows file Hl Hr Hw; [done|].
  apply Forall_cons in Hl as [Ha Hl]. cbn [foldl]. apply IH; [done|by apply replace_good|].
  by apply write_exact.
Qed.

(** Looking a run up among the rows. *)
Lemma find_filter_other run run' rows :
  run ≠ run' → find (of_run run) (filter (λ r, of_run run' r = false) rows) = find (of_run run) rows.
Proof.
  intros Hne. induction rows as [|r rows IH]; [done|]. rewrite filter_cons. destruct (decide _) as [H|H]; cbn.
  - by rewrite IH.
  - rewrite IH. apply not_false_iff_true in H. destruct r as [|x r]; [done|]. cbn in *.
    apply String.eqb_eq in H as ->. destruct (String.eqb_spec run' run); [congruence|done].
Qed.

Lemma find_filter_self run rows : find (of_run run) (filter (λ r, of_run run r = false) rows) = None.
Proof.
  induction rows as [|r rows IH]; [done|]. rewrite filter_cons. destruct (decide _) as [H|H]; [|done].
  cbn. by rewrite H.
Qed.

Lemma find_app {A} (f : A → bool) l l' :
  find f (l ++ l') = match find f l with Some x => Some x | None => find f l' end.
Proof. induction l as [|x l IH]; [done|]. cbn. by destruct (f x). Qed.

Lemma find_latest l run : Forall good_call l → find (of_run run) (rows_after l) = latest run l.
Proof.
  unfold rows_after, latest. induction l as [|a l IH] using rev_ind; [done|].
  intros [Hl [[Hg Ha] _]%Forall_cons]%Forall_app. specialize (IH Hl).
  rewrite foldl_app, filter_app. cbn [foldl]. unfold replace at 1. rewrite filter_cons, filter_nil.
  destruct (succeeds a) eqn:Hs.
  - rewrite find_app. destruct (decide (for_run a = run)) as [<-|Hne].
    + rewrite find_filter_self, decide_True by done. cbn. by rewrite Ha, last_snoc.
    + rewrite find_filter_other, IH by done. rewrite decide_False by naive_solver. rewrite app_nil_r.
      destruct (row <$> last _) eqn:E; [done|]. cbn.
      destruct (row a) as [|x r]; [done|]. cbn in *. apply String.eqb_eq in Ha as ->.
      destruct (String.eqb_spec (for_run a) run); [done|done].
  - rewrite decide_False by naive_solver. by rewrite app_nil_r, IH.
Qed.

Lemma heads_nodup l : Forall good_call l → NoDup (head <$> rows_after l).
Proof.
  unfold rows_after. induction l as [|a l IH] using rev_ind; [intros _; constructor|].
  intros [Hl [[Hg Ha] _]%Forall_cons]%Forall_app. specialize (IH Hl).
  rewrite foldl_app. cbn [foldl]. unfold replace at 1. destruct (succeeds a); [|done].
  rewrite fmap_app. apply NoDup_app. split_and!; [|intros x Hx Hin|apply NoDup_singleton].
  - eapply sublist_NoDup; [exact IH|]. apply fmap_sublist, sublist_filter.
  - apply list_elem_of_singleton in Hin as ->. apply list_elem_of_fmap in Hx as (r&He&Hr).
    apply list_elem_of_filter in Hr as [Hr _]. destruct (row a) as [|x r']; [done|].
    destruct r as [|y r]; [done|]. cbn in *. injection He as ->. congruence.
Qed.

(** ** The cells of a row *)
Lemma pad_no_CR n z : no_CR (pad n z).
Proof.
  apply no_CR_app. split; [|apply Itoa_no_CR].
  induction (n - String.length (Itoa z))%nat as [|k IH]; [done|]. destruct k; [done|]. exact IH.
Qed.

Lemma decimal_no_CR s n u : no_CR (decimal s n u).
Proof.
  unfold decimal. rewrite !no_CR_app. split_and!; [by destruct s|apply Itoa_no_CR|done|apply pad_no_CR].
Qed.

Lemma FormatFloat_no_CR n v : no_CR (FormatFloat n v).
Proof. destruct v as [s|[]| |s m e]; try done; apply decimal_no_CR. Qed.

Lemma ms3_no_CR v : no_CR (ms3 v).
Proof. destruct v; [apply FormatFloat_no_CR|done]. Qed.

Lemma intCell_no_CR v : no_CR (intCell v).
Proof. destruct v; [apply Itoa_no_CR|done]. Qed.

Lemma id_no_CR run : RunStore.runIDPattern run = true → no_CR run.
Proof.
  assert (Hc : ∀ c, RunStore.id_char c = true → Ascii.eqb c CR = false).
  { intros c Hc. destruct (Ascii.eqb_spec c CR) as [->|]; [by vm_compute in Hc|done]. }
  destruct run as [|c s]; [done|]. cbn [RunStore.runIDPattern]. intros [[H1 H2]%andb_true_iff _]%andb_true_iff.
  unfold no_CR. cbn [str_existsb]. rewrite Hc by (unfold RunStore.id_char; by rewrite H1). clear H1.
  induction s as [|d s IH]; [done|]. cbn in *. apply andb_true_iff in H2 as [H1 H2]. by rewrite Hc, IH.
Qed.

(** What [Verify] writes of a run. *)
Record verification := MkVerification {
  vfaults : faults; vrun : string; vconfig : Config.ElectionConfig; vgen : option genTimings;
  vaudit : option TimingsMs; vwindow : option submitMetrics; vinput : Journal.FinaliseInput
}.

Section verifications.
Context (text : goerr → string).

Definition row_of (v : verification) : list string :=
  perfRow text (vrun v) (vconfig v) (vgen v) (vaudit v) (vwindow v) (Journal.Finalise (vinput v)).

Definition call_of (v : verification) : attempt := MkAttempt (vfaults v) (vrun v) (row_of v).

(** A run of the store, of one of the modes and distributions [Validate] lets
    through, and a reason of one kind of line end. *)
Definition valid (v : verification) : Prop :=
  RunStore.runIDPattern (vrun v) = true ∧
  Config.Mode (vconfig v) ∈ ["offline"; "onchain"; Config.ModeGroundTruth] ∧
  Config.Distribution (vconfig v) ∈ ["uniform"; "skewed"; "realistic"] ∧
  ∀ e, Journal.Reason (Journal.Finalise (vinput v)) = Some e → no_CR (text e).

Lemma one_of_no_CR (s : string) l : s ∈ l → Forall no_CR l → no_CR s.
Proof. intros Hs Hl. rewrite Forall_forall in Hl. by apply Hl. Qed.

Lemma limit_no_CR f : no_CR (Journal.ScalingLimit (Journal.Finalise f)).
Proof. unfold Journal.Finalise. by repeat case_match. Qed.

Lemma call_good v : valid v → good_call (call_of v).
Proof.
  intros (Hid&Hm&Hd&Ht). unfold good_call, good_row. cbn [row call_of for_run].
  split_and!; [done| |cbn; by rewrite String.eqb_refl].
  unfold row_of, perfRow. repeat (apply Forall_cons_2); try apply Forall_nil_2;
    auto using id_no_CR, Itoa_no_CR, intCell_no_CR, ms3_no_CR, limit_no_CR.
  - eapply one_of_no_CR; [exact Hm|by repeat constructor].
  - eapply one_of_no_CR; [exact Hd|by repeat constructor].
  - by destruct (Journal.Sustained _).
  - by destruct (Journal.Failed _).
  - destruct (Journal.Reason _) eqn:E; [by apply Ht|done].
  - unfold securityRunCell. by case_match.
Qed.

Definition perf_after (vs : list verification) : option (result string) :=
  foldl attempt_write None (call_of <$> vs).

(** The last verification of [run] whose row was written. *)
Definition last_written (run : string) (vs : list verification) : option verification :=
  last (filter (λ v, succeeds (call_of v) = true ∧ vrun v = run) vs).

Lemma latest_calls run vs : latest run (call_of <$> vs) = row_of <$> last_written run vs.
Proof.
  unfold latest, last_written. induction vs as [|v vs IH] using rev_ind; [done|].
  rewrite fmap_app, !filter_app. cbn [fmap list_fmap]. rewrite !filter_cons, !filter_nil. cbn [for_run call_of].
  destruct (decide (succeeds (call_of v) = true ∧ vrun v = run)); [by rewrite !last_snoc|by rewrite !app_nil_r].
Qed.

Lemma failed_write_keeps fs file run r : is_ok (writePerfRow fs file run r).2 = false → (writePerfRow fs file run r).1 = file.
Proof. unfold writePerfRow. by repeat case_match. Qed.

Lemma find_cells run rows :
  Forall good_row rows →
  match find (of_run run) rows with
  | Some r => perfRowCells (perf_text rows) run = Ok (cells_of perfColumns r ∅)
  | None => is_ok (perfRowCells (perf_text rows) run) = false
  end.
Proof.
  intros Hr. unfold perfRowCells, perf_text. rewrite ReadAll_text by by apply readable_rows.
  destruct rows; [done|]. unfold of_run. by destruct (find _ _).
Qed.

(** C38: perf.csv has one row a run, the latest verification's. Whatever runs
    were verified in whatever order, and whichever of the writes the operating
    system refused: a write reports an error exactly when something was
    refused, and then leaves the file as it was; the file reads back as the
    columns and at most one row a run; and the reader the campaigns and the
    repeat driver use gives, for every run, exactly the cells of the last row
    written for it, each under its column's name, or no row when none was. *)
Theorem perf_csv_keeps_latest vs :
  Forall valid vs →
  let file := perf_after vs in
  (∀ v, let w := writePerfRow (vfaults v) file (vrun v) (row_of v) in
     is_ok w.2 = succeeds (call_of v) ∧ (is_ok w.2 = false → w.1 = file)) ∧
  (∀ r, file = Some r → ∃ data rows, r = Ok data ∧ ReadAll data = Some (perfColumns :: rows) ∧ NoDup (head <$> rows)) ∧
  (∀ run, match last_written run vs with
          | Some v => ∃ data m, file = Some (Ok data) ∧ perfRowCells data run = Ok m ∧
                        ∀ i col, perfColumns !! i = Some col → m !! col = row_of v !! i
          | None => ∀ data, file = Some (Ok data) → is_ok (perfRowCells data run) = false
          end).
Proof.
  intros Hv file.
  assert (Hc : Forall good_call (call_of <$> vs)).
  { apply Forall_fmap. eapply Forall_impl; [exact Hv|]. intros v. apply call_good. }
  destruct (attempts_written _ [] None Hc (Forall_nil_2 _) eq_refl) as [Hg Hw].
  change (foldl attempt_write None _) with file in Hw. change (foldl replace [] _) with (rows_after (call_of <$> vs)) in *.
  split_and!.
  - intros v. split; [exact (proj2 (write_exact _ _ (call_of v) Hg Hw))|apply failed_write_keeps].
  - intros r Hr. unfold written in Hw. rewrite Hr in Hw. pose proof (heads_nodup _ Hc) as Hnd.
    destruct (rows_after (call_of <$> vs)) as [|r0 rs] eqn:E; [done|]. injection Hw as ->.
    eexists _, (r0 :: rs). split; [done|]. split; [|done]. by apply ReadAll_text, readable_rows.
  - intros run. pose proof (find_latest _ run Hc) as Hf. rewrite latest_calls in Hf.
    destruct (last_written run vs) as [v|] eqn:E; cbn in Hf.
    + exists (perf_text (rows_after (call_of <$> vs))). eexists. split; [|split].
      * rewrite Hw. by destruct (rows_after _).
      * pose proof (find_cells run _ Hg) as Hx. by rewrite Hf in Hx.
      * intros i col Hi. assert (Hl : length (row_of v) = length perfColumns) by done.
        destruct (lookup_lt_is_Some_2 (row_of v) i) as [x Hx]; [rewrite Hl; by eapply lookup_lt_Some|].
        rewrite Hx. eapply cells_of_lookup; [|exact Hi|exact Hx].
        apply (bool_decide_unpack _). vm_compute. exact I.
    + intros data Hd. unfold written in Hw. rewrite Hd in Hw.
      destruct (rows_after (call_of <$> vs)) as [|r0 rs] eqn:E'; [done|]. injection Hw as ->.
      pose proof (find_cells run _ Hg) as Hx. by rewrite Hf in Hx.
Qed.
End verifications.

(** Two runs in one folder; the second verification of the first fails its
    rename and the third replaces its row. *)
Definition sample_config : Config.ElectionConfig :=
  Config.MkElectionConfig "E" [Config.MkTrustee "A"] 1 1 2 4 "uniform" "onchain" 1 8 Config.f_zero
    Config.f_zero None false None None.

Definition sample_input (dropped : Z) : Journal.FinaliseInput :=
  Journal.MkFinalise 4 1 [] dropped true None ∅ None false false false false EmptyString None false.

Definition sample (fs : faults) (run : string) (dropped : Z) : verification :=
  MkVerification fs run sample_config None (Some (MkTimings 7 1 2 3 4)) None (sample_input dropped).

Definition sample_text (e : goerr) : string := match e with Errorf f _ => f | Foreign s => s end.

Definition samples : list verification :=
  [sample no_faults "run-1" 1; sample no_faults "run-2" 0;
   sample (MkFaults None None None (Some (Foreign "rename"))) "run-1" 1; sample no_faults "run-1" 0].

Lemma perf_csv_keeps_latest_witness :
  Forall (valid sample_text) samples ∧
  ∃ data m, perf_after sample_text samples = Some (Ok data) ∧ perfRowCells data "run-1" = Ok m ∧
    m !! "failed" = Some "false" ∧ m !! "proof_verify_inproc_ms" = Some "7".
Proof.
  assert (Hv : Forall (valid sample_text) samples).
  { repeat constructor; try (apply (bool_decide_unpack _); vm_compute; exact I); intros e; vm_compute; by intros [= <-] || done. }
  split; [exact Hv|].
  destruct (perf_csv_keeps_latest sample_text samples Hv) as (_&_&Hrun).
  destruct (Hrun "run-1") as (data&m&Hd&Hm&Hcol). exists data, m.
  split_and!; [exact Hd|exact Hm|exact (Hcol 33%nat _ eq_refl)|exact (Hcol 9%nat _ eq_refl)].
Defined.
End Perf.
