(* ===== verification/Gates.v ===== *)
(** * Admission gates

    [saksi-campaign/server.go], [campaign.go]: what a configuration must pass
    before a run folder is created for it — the validation ladder, the disk and
    the memory it will need. The projections are computed in [uint64] and [int],
    which wrap. *)
From S2P Require Import Prelude GoText Config.
#[local] Open Scope Z_scope.
Import GoText Config.

Module Gates.

Definition u64 (z : Z) : Z := z `mod` max_uint64.

Definition LadderVoterCeiling : Z := 1000.
Definition LedgerBytesPerBallot : Z := 12000.
Definition OfflineRunBytesPerRecord : Z := 1848.
Definition OfflineRunBytesPerCandidate : Z := 1402.
Definition AuditorBaseBytes : Z := Z.shiftl 32 20.
Definition AuditorBytesPerRecord : Z := 150.

Record ladderRecord := MkLadder { Commit : string; RanAt : Z; Runs : list string }.

Definition errLadderNotRun : goerr :=
  Errorf "validation ladder has not been run for this build; run tools/ladder.sh first" [].

(** [ladder] is what reading ladder.json gives, [head] the console's commit. *)
Definition ladderGate (ladder : result ladderRecord) (head : option string) (c : ElectionConfig) :
    option goerr :=
  if String.eqb (Mode c) ModeGroundTruth || (Voters c <=? LadderVoterCeiling) then None
  else match ladder with
  | Err _ => Some errLadderNotRun
  | Ok rec =>
      match head with
      | Some h =>
          if String.eqb (Commit rec) "" || negb (String.eqb (Commit rec) h) then Some errLadderNotRun
          else None
      | None => Some errLadderNotRun
      end
  end.

(** [uint64(c.Voters) * uint64(c.Positions)]. *)
Definition records (c : ElectionConfig) : Z := u64 (u64 (Voters c) * u64 (Positions c)).

(** [OfflineRunBytesPerRecord + OfflineRunBytesPerCandidate*c.Candidates], an
    [int], then [uint64] of it. *)
Definition offline_per (c : ElectionConfig) : Z :=
  u64 (wrap64 (OfflineRunBytesPerRecord + wrap64 (OfflineRunBytesPerCandidate * Candidates c))).

(** The projection and what it is, as [Sprintf]'s format and arguments. *)
Definition diskProjection (c : ElectionConfig) : Z * option goerr :=
  if String.eqb (Mode c) "onchain" then
    (u64 (records c * LedgerBytesPerBallot),
     Some (Errorf "ledger (%d voters x %d positions x %d bytes per ballot)"
             [AInt (Voters c); AInt (Positions c); AInt LedgerBytesPerBallot]))
  else if String.eqb (Mode c) "offline" then
    if Candidates c <? 1 then (0, None)
    else
      (u64 (records c * offline_per c),
       Some (Errorf "run folder (%d voters x %d positions x %d bytes per ballot record at %d candidates)"
               [AInt (Voters c); AInt (Positions c); AInt (offline_per c); AInt (Candidates c)]))
  else (0, None).

(** [root] is the run store's volume. *)
Definition diskPath (peerVolume root mode : string) : string :=
  if String.eqb mode "onchain" && negb (String.eqb peerVolume "") then peerVolume else root.

(** [free] is what [freeSpace] reports for a path. *)
Definition diskGate (free : string → result Z) (peerVolume root : string) (c : ElectionConfig) : option goerr :=
  let '(need, what) := diskProjection c in
  if need =? 0 then None
  else
    let path := diskPath peerVolume root (Mode c) in
    match free path with
    | Err _ => None
    | Ok free =>
        if need <=? free then None
        else Some (Errorf "this run projects %d bytes of %s but only %d bytes are free on %s: free space or run a smaller tier"
                     [AInt need; match what with Some w => AErr w | None => AStr "" end; AInt free; AStr path])
    end.

Definition auditMemory (c : ElectionConfig) : Z :=
  if negb (String.eqb (Mode c) "offline") && negb (String.eqb (Mode c) "onchain") then 0
  else if records c =? 0 then 0
  else u64 (AuditorBaseBytes + u64 (records c * AuditorBytesPerRecord)).

(** [avail] is what [memAvailable] reports, where it can. *)
Definition memoryGate (avail : option Z) (c : ElectionConfig) : option goerr :=
  let need := auditMemory c in
  match avail with
  | None => None
  | Some avail =>
      if (need =? 0) || (need <=? avail) then None
      else Some (Errorf "this run's audit projects %d bytes of memory (%d MiB + %d voters x %d positions x %d bytes per record) but only %d bytes are available: close other programs or run a smaller tier"
                   [AInt need; AInt (Z.shiftr AuditorBaseBytes 20); AInt (Voters c); AInt (Positions c);
                    AInt AuditorBytesPerRecord; AInt avail])
  end.

(** What the host answers when a configuration is admitted. *)
Record host := MkHost {
  ladder : result ladderRecord; gitHead : option string; freeSpace : string → result Z;
  PeerVolume : string; Root : string; memAvailable : option Z
}.

(** The first gate that refuses. *)
Definition admit_gates (h : host) (c : ElectionConfig) : option goerr :=
  match ladderGate (ladder h) (gitHead h) c with
  | Some e => Some e
  | None =>
      match diskGate (freeSpace h) (PeerVolume h) (Root h) c with
      | Some e => Some e
      | None => memoryGate (memAvailable h) c
      end
  end.

(** ** A whole campaign's disk *)
Definition maxSweepSteps : Z := 12.

Record CampaignOptions := MkOptions {
  Warmups : Z; Reps : Z; Sweep : float64; OWindowS : float64; Burst : Z; Force : bool
}.

Definition with_voters (n : Z) (c : ElectionConfig) : ElectionConfig :=
  MkElectionConfig (Name c) (Trustees c) (Threshold c) (Positions c) (Candidates c) n (Distribution c)
    (Mode c) (SenateSeats c) (Concurrency c) (SendRate c) (WindowS c) (Rep c) (SkipAttacks c)
    (AttackPlan c) (FaultPlan c).

(** The total and its parts. *)
Definition campaignDiskBytes (c : ElectionConfig) (o : CampaignOptions) : Z * list goerr :=
  let perRun := (diskProjection c).1 in
  let runs := u64 (wrap64 (Warmups o + Reps o)) in
  let total := u64 (runs * perRun) in
  let parts := [Errorf "%d warm-up and measured runs x %d bytes" [AInt runs; AInt perRun]] in
  let '(total, parts) :=
    if SFltb f_one (Sweep o) then
      (u64 (total + u64 (maxSweepSteps * perRun)),
       parts ++ [Errorf "up to %d sweep steps x %d bytes" [AInt maxSweepSteps; AInt perRun]])
    else (total, parts) in
  if 0 <? Burst o then
    let b := (diskProjection (with_voters (Burst o) c)).1 in
    (u64 (total + b), parts ++ [Errorf "a %d-voter burst of %d bytes" [AInt (Burst o); AInt b]])
  else (total, parts).

(** ** Exactness *)

(** The disk and the memory a run really needs. *)
Definition disk_need (c : ElectionConfig) : Z :=
  if String.eqb (Mode c) "onchain" then Voters c * Positions c * LedgerBytesPerBallot
  else if String.eqb (Mode c) "offline" then
    Voters c * Positions c * (OfflineRunBytesPerRecord + OfflineRunBytesPerCandidate * Candidates c)
  else 0.

Definition memory_need (c : ElectionConfig) : Z :=
  if String.eqb (Mode c) ModeGroundTruth then 0
  else AuditorBaseBytes + Voters c * Positions c * AuditorBytesPerRecord.

(** A configuration whose projections fit in 64 bits. *)
Record fits (c : ElectionConfig) : Prop := {
  fits_voters : 1 ≤ Voters c; fits_positions : 1 ≤ Positions c; fits_candidates : 1 ≤ Candidates c;
  fits_mode : Mode c ∈ ["offline"; "onchain"; ModeGroundTruth];
  fits_disk : Voters c * Positions c * LedgerBytesPerBallot < 2 ^ 63;
  fits_run : Voters c * Positions c *
    (OfflineRunBytesPerRecord + OfflineRunBytesPerCandidate * Candidates c) < 2 ^ 63
}.

Lemma u64_small z : 0 ≤ z < 2 ^ 64 → u64 z = z.
Proof. intros. by apply Z.mod_small. Qed.

Lemma wrap64_small z : - 2 ^ 63 ≤ z < 2 ^ 63 → wrap64 z = z.
Proof. intros. unfold wrap64. rewrite Z.mod_small; lia. Qed.

Lemma records_exact c : fits c → records c = Voters c * Positions c ∧ 1 ≤ Voters c * Positions c < 2 ^ 50.
Proof.
  intros [Hv Hp _ _ Hd _]. unfold LedgerBytesPerBallot in Hd.
  assert (H1 : 1 ≤ Voters c * Positions c) by nia.
  assert (H2 : Voters c ≤ Voters c * Positions c) by nia.
  assert (H3 : Positions c ≤ Voters c * Positions c) by nia.
  split; [|lia]. unfold records.
  rewrite (u64_small (Voters c)), (u64_small (Positions c)), u64_small by lia. done.
Qed.

Lemma offline_per_exact c :
  fits c → offline_per c = OfflineRunBytesPerRecord + OfflineRunBytesPerCandidate * Candidates c ∧
           Candidates c < 2 ^ 53.
Proof.
  intros Hf. destruct (records_exact c Hf) as [_ Hr]. destruct Hf as [_ _ Hc _ _ Hrun].
  unfold OfflineRunBytesPerRecord, OfflineRunBytesPerCandidate in *.
  assert (Candidates c < 2 ^ 53) by nia. split; [|done].
  unfold offline_per, OfflineRunBytesPerRecord, OfflineRunBytesPerCandidate.
  rewrite (wrap64_small (1402 * _)) by lia. rewrite wrap64_small by lia. rewrite u64_small by lia. done.
Qed.

Lemma diskProjection_exact c : fits c → (diskProjection c).1 = disk_need c.
Proof.
  intros Hf. destruct (records_exact c Hf) as [Er Hr]. destruct (offline_per_exact c Hf) as [Eo Hc].
  destruct Hf as [_ _ Hc1 _ Hd Hrun]. unfold diskProjection, disk_need.
  destruct (String.eqb (Mode c) "onchain").
  - cbn [fst]. rewrite Er. unfold LedgerBytesPerBallot in *. apply u64_small. lia.
  - destruct (String.eqb (Mode c) "offline"); [|done].
    destruct (Z.ltb_spec (Candidates c) 1); [lia|]. cbn [fst]. rewrite Er, Eo. apply u64_small.
    unfold OfflineRunBytesPerRecord, OfflineRunBytesPerCandidate in *. nia.
Qed.

Lemma auditMemory_exact c : fits c → auditMemory c = memory_need c.
Proof.
  intros Hf. destruct (records_exact c Hf) as [Er Hr]. destruct Hf as [_ _ _ Hm _ _].
  unfold auditMemory, memory_need. rewrite Er. unfold AuditorBytesPerRecord, AuditorBaseBytes.
  change (Z.shiftl 32 20) with 33554432.
  destruct (Z.eqb_spec (Voters c * Positions c) 0) as [?|_]; [lia|].
  apply elem_of_cons in Hm as [->|Hm]; [cbn -[Z.mul Z.add]; rewrite (u64_small (_ * 150)), u64_small; lia|].
  apply elem_of_cons in Hm as [->|Hm]; [cbn -[Z.mul Z.add]; rewrite (u64_small (_ * 150)), u64_small; lia|].
  apply list_elem_of_singleton in Hm as ->. done.
Qed.

(** The ladder has been run for this build, where it has to be. *)
Definition ladder_ok (h : host) (c : ElectionConfig) : Prop :=
  Mode c = ModeGroundTruth ∨ Voters c ≤ LadderVoterCeiling ∨
  ∃ rec, ladder h = Ok rec ∧ gitHead h = Some (Commit rec) ∧ Commit rec ≠ "".

Lemma ladderGate_exact h c : ladderGate (ladder h) (gitHead h) c = None ↔ ladder_ok h c.
Proof.
  unfold ladderGate, ladder_ok. destruct (String.eqb_spec (Mode c) ModeGroundTruth) as [Em|Em]; [naive_solver|].
  destruct (Z.leb_spec (Voters c) LadderVoterCeiling) as [Hv|Hv]; [naive_solver|]. cbn [orb].
  destruct (ladder h) as [rec|e]; [|split; [done|]; intros [?|[?|(?&?&_)]]; [done|lia|done]].
  destruct (gitHead h) as [hd|]; [|split; [done|]; intros [?|[?|(?&_&?&_)]]; [done|lia|done]].
  destruct (String.eqb_spec (Commit rec) "") as [E|E].
  { split; [done|]. intros [?|[?|(r&[= <-]&_&?)]]; [done|lia|done]. }
  destruct (String.eqb_spec (Commit rec) hd) as [<-|E2]; cbn.
  - split; [|done]. intros _. right; right. by exists rec.
  - split; [done|]. intros [?|[?|(r&[= <-]&[= ->]&_)]]; [done|lia|done].
Qed.

(** A configuration is admitted exactly when it is safe to run. For every
    configuration whose projections fit in 64 bits: [admit_gates] lets it through
    exactly when the validation ladder was run for this very build (or the tier
    is small or runs no cryptography), and the exact disk and memory it needs
    are free wherever the host can tell; and a campaign's projection is the
    exact sum over its runs, sweep steps and burst. *)
Theorem admit_exact h c :
  fits c →
  (admit_gates h c = None ↔
     ladder_ok h c ∧
     (∀ f, freeSpace h (diskPath (PeerVolume h) (Root h) (Mode c)) = Ok f →
        disk_need c = 0 ∨ disk_need c ≤ f) ∧
     (∀ a, memAvailable h = Some a → memory_need c = 0 ∨ memory_need c ≤ a)) ∧
  (∀ o, 0 ≤ Warmups o → 0 ≤ Reps o →
     (0 < Burst o → fits (with_voters (Burst o) c)) →
     let total := (Warmups o + Reps o) * disk_need c +
       (if SFltb f_one (Sweep o) then maxSweepSteps * disk_need c else 0) +
       (if 0 <? Burst o then disk_need (with_voters (Burst o) c) else 0) in
     Warmups o + Reps o < 2 ^ 63 → total < 2 ^ 64 → (campaignDiskBytes c o).1 = total).
Proof.
  intros Hf. split.
  - unfold admit_gates. rewrite <-ladderGate_exact. destruct (ladderGate _ _ c); [naive_solver|].
    unfold diskGate, memoryGate. pose proof (diskProjection_exact c Hf) as Ed.
    rewrite (auditMemory_exact c Hf). destruct (diskProjection c) as [need what]. cbn [fst] in Ed. subst need.
    assert (Hmem : memoryGate (memAvailable h) c = None ↔
              (∀ a, memAvailable h = Some a → memory_need c = 0 ∨ memory_need c ≤ a)).
    { unfold memoryGate. rewrite (auditMemory_exact c Hf). destruct (memAvailable h) as [a|]; [|naive_solver].
      destruct (Z.eqb_spec (memory_need c) 0), (Z.leb_spec (memory_need c) a); cbn; split; try done; try naive_solver;
        intros HH; destruct (HH a eq_refl); lia. }
    unfold memoryGate in Hmem. rewrite (auditMemory_exact c Hf) in Hmem.
    destruct (Z.eqb_spec (disk_need c) 0) as [E0|E0]; [rewrite Hmem; naive_solver|].
    destruct (freeSpace h _) as [f|e]; [|rewrite Hmem; naive_solver].
    destruct (Z.leb_spec (disk_need c) f); [rewrite Hmem; naive_solver|].
    split; [done|]. intros (_&Hd&_). destruct (Hd f eq_refl); lia.
  - intros o Hw Hr Hb total Hwr Ht. unfold campaignDiskBytes. rewrite (diskProjection_exact c Hf).
    assert (Hd0 : 0 ≤ disk_need c).
    { destruct Hf as [? ? ? _ _ _]. unfold disk_need, LedgerBytesPerBallot, OfflineRunBytesPerRecord, OfflineRunBytesPerCandidate.
      repeat case_match; nia. }
    assert (Hb0 : 0 < Burst o → 0 ≤ disk_need (with_voters (Burst o) c)).
    { intros Hbo. destruct (Hb Hbo) as [? ? ? _ _ _].
      unfold disk_need, LedgerBytesPerBallot, OfflineRunBytesPerRecord, OfflineRunBytesPerCandidate.
      repeat case_match; nia. }
    rewrite wrap64_small by lia. rewrite (u64_small (Warmups o + Reps o)) by lia.
    set (R := Warmups o + Reps o) in *. set (d := disk_need c) in *.
    assert (HRd : 0 ≤ R * d) by nia.
    subst total. destruct (SFltb f_one (Sweep o)); destruct (Z.ltb_spec 0 (Burst o)) as [Hbo|Hbo];
      cbn [fst]; try rewrite (diskProjection_exact _ (Hb Hbo)); unfold maxSweepSteps in *;
      try (specialize (Hb0 Hbo)).
    + rewrite (u64_small (R * d)), (u64_small (12 * d)), (u64_small (R * d + 12 * d)), u64_small by lia. lia.
    + rewrite (u64_small (R * d)), (u64_small (12 * d)), u64_small by lia. lia.
    + rewrite (u64_small (R * d)), u64_small by lia. lia.
    + rewrite u64_small by lia. lia.
Qed.

(** ** On concrete configurations *)
Definition small_config : ElectionConfig := with_voters 500 demo_config.

Definition plain_host : host :=
  MkHost (Err (Foreign "no ladder.json")) None (λ _, Ok (10 ^ 12)) "" "runs" (Some (2 ^ 33)).

(** A population whose product wraps is projected at no bytes at all, and
    admitted whatever is free. *)
Definition wrapping_config : ElectionConfig :=
  MkElectionConfig (Name demo_config) (Trustees demo_config) (Threshold demo_config) (2 ^ 32) 2 (2 ^ 32)
    "uniform" "onchain" 0 8 f_zero f_zero None false None None.

Lemma wrapping_config_admitted :
  Validate wrapping_config = Ok tt ∧
  diskGate (λ _, Ok 1) "" "runs" wrapping_config = None ∧ memoryGate (Some 1) wrapping_config = None.
Proof. vm_compute. repeat split. Qed.

Lemma small_fits : fits small_config.
Proof.
  split; try (vm_compute; congruence); try (vm_compute; reflexivity). cbn. by left.
Qed.

Lemma admit_exact_witness :
  admit_gates plain_host small_config = None ∧
  (campaignDiskBytes small_config (MkOptions 1 5 f_zero f_zero 0 false)).1 = 6 * disk_need small_config.
Proof.
  destruct (admit_exact plain_host small_config small_fits) as [Ha Hc]. split.
  - apply (proj2 Ha). split; [right; left; vm_compute; congruence|]. split.
    + intros f [= <-]. right. vm_compute. congruence.
    + intros a [= <-]. right. vm_compute. congruence.
  - rewrite (Hc (MkOptions 1 5 f_zero f_zero 0 false)); [|vm_compute; congruence|vm_compute; congruence
      |intros Hb; vm_compute in Hb; congruence|vm_compute; reflexivity|vm_compute; reflexivity].
    vm_compute. reflexivity.
Defined.
End Gates.
