(* ===== verification/Exclusion.v ===== *)
(** * Who may use the network

    [saksi-campaign/server.go], [reset.go], [fault.go]: the locks that keep run
    phases, console jobs, the network reset and the peer-restart fault apart.
    The console's goroutines interleave at every read of another lock's data:
    [thread_step] is the next step of one of them, [server_step] the scheduler.
    A critical section that only touches what its own lock guards is one step. *)
From S2P Require Import Prelude GoText Jobs.
From stdpp Require Import sorting.
#[local] Open Scope Z_scope.
Import GoText Jobs.

Module Exclusion.

(** ** The peer-restart fault of one ballot window *)

(** Not triggered; triggered and asking for a running job; asking for busy
    runs; let through; recorded as active; counted; stopping the peer with
    [stopMu] held; the peer down; the restart attempted; uncounted, and waiting
    for the peer to answer; over (or refused, or never reached). *)
Inductive fstage :=
| FNone | FGateJobs | FGateBusy | FPassed | FMarked | FCounted | FStopping | FDown
| FRestarted | FWaiting | FOver.

(** Where a goroutine is. [Claim*]: [claim], called by [dispatchClaimed] and
    [handleResume]; [Alone*]: [claimAlone], then [handleFault] arming the run;
    [Job*]: [startExclusiveJob], then [jobBoard.run]; [Restore*]: [RestorePeer]
    on a signal. *)
Inductive pc :=
| ClaimLock (run : string)
| ClaimBusy (run : string)
| ClaimJobs (run : string)
| ClaimFault (run : string)
| ClaimTake (run : string)
| Phase (run : string) (f : fstage)
| Finish (run : string)
| AloneLock (run : string)
| AloneBusy (run : string)
| AloneJobs (run : string)
| AloneTake (run : string)
| Arming (run : string)
| JobLock (kind : string)
| JobBusy (kind : string)
| JobRunning (kind : string) (free : bool)
| JobStart (kind : string)
| JobRuns (p : nat) (begun : bool)
| RestoreLock
| RestoreCheck
| RestoreStart.

(** [s_mu] and [stop_mu]: whether the lock is held. [busy], [board] and
    [faulting] are what [s.mu], [jobs.mu] and [faultMu] guard. [peer_up] is the
    container, [lost] says that a start of it has failed; [answers] is what the
    claims returned: accepted, or refused with the reason. *)
Record server := MkServer {
  s_mu : bool; busy : gset string; board : jobBoard; faulting : gset string;
  peersDown : nat; stop_mu : bool; peer_up : bool; lost : bool; exited : bool;
  threads : gmap nat pc; answers : list (nat * option goerr)
}.

Definition set_mu (b : bool) (s : server) : server :=
  MkServer b (busy s) (board s) (faulting s) (peersDown s) (stop_mu s) (peer_up s) (lost s)
    (exited s) (threads s) (answers s).

Definition set_busy (x : gset string) (s : server) : server :=
  MkServer (s_mu s) x (board s) (faulting s) (peersDown s) (stop_mu s) (peer_up s) (lost s)
    (exited s) (threads s) (answers s).

Definition set_board (x : jobBoard) (s : server) : server :=
  MkServer (s_mu s) (busy s) x (faulting s) (peersDown s) (stop_mu s) (peer_up s) (lost s)
    (exited s) (threads s) (answers s).

Definition set_peers_down (n : nat) (s : server) : server :=
  MkServer (s_mu s) (busy s) (board s) (faulting s) n (stop_mu s) (peer_up s) (lost s)
    (exited s) (threads s) (answers s).

Definition set_stop_mu (b : bool) (s : server) : server :=
  MkServer (s_mu s) (busy s) (board s) (faulting s) (peersDown s) b (peer_up s) (lost s)
    (exited s) (threads s) (answers s).

(** [docker stop] and [docker start], with what they did to the container. *)
Definition docker_stop (works : bool) (s : server) : server :=
  MkServer (s_mu s) (busy s) (board s) (faulting s) (peersDown s) (stop_mu s)
    (if works then false else peer_up s) (lost s) (exited s) (threads s) (answers s).

Definition docker_start (works : bool) (s : server) : server :=
  MkServer (s_mu s) (busy s) (board s) (faulting s) (peersDown s) (stop_mu s)
    (if works then true else peer_up s) (if works then lost s else true) (exited s) (threads s) (answers s).

Definition set_exited (s : server) : server :=
  MkServer (s_mu s) (busy s) (board s) (faulting s) (peersDown s) (stop_mu s) (peer_up s) (lost s)
    true (threads s) (answers s).

Definition answer (t : nat) (a : option goerr) (s : server) : server :=
  MkServer (s_mu s) (busy s) (board s) (faulting s) (peersDown s) (stop_mu s) (peer_up s) (lost s)
    (exited s) (threads s) (answers s ++ [(t, a)]).

(** The goroutine goes on at [q], or ends. *)
Definition move (t : nat) (q : option pc) (s : server) : server :=
  MkServer (s_mu s) (busy s) (board s) (faulting s) (peersDown s) (stop_mu s) (peer_up s) (lost s)
    (exited s) (partial_alter (λ _, q) t (threads s)) (answers s).

(** [setFaulting]. *)
Definition setFaulting (run : string) (on : bool) (s : server) : server :=
  MkServer (s_mu s) (busy s) (board s) (if on then {[run]} ∪ faulting s else faulting s ∖ {[run]})
    (peersDown s) (stop_mu s) (peer_up s) (lost s) (exited s) (threads s) (answers s).

Section console.
Context `{JobStamp} (paused : string → option string).

(** [busyRunsLocked]. *)
Definition busyRunsLocked (except : string) (s : server) : list string :=
  (λ id, match paused id with
         | Some stage => id +:+ " (paused at the " +:+ stage +:+ " attack stage)"
         | None => id
         end) <$>
    filter (λ id, id ≠ except) (merge_sort str_le (elements (busy s))).

(** [faultingRun]: some run of the map; [pick] is the one the iteration meets. *)
Definition faultingRun (pick : string) (s : server) : option string :=
  if decide (pick ∈ faulting s) then Some pick else head (elements (faulting s)).

Definition reset_running (b : jobBoard) : option job :=
  match running b with
  | Some j => if String.eqb (Kind j) jobKindReset then Some j else None
  | None => None
  end.

Definition why_busy : goerr := Errorf "a phase is already running on this run" [].

Definition why_reset (j : job) : goerr :=
  Errorf "the network is being reset (job %s): wait for it to finish" [AStr (ID j)].

Definition why_fault (run : string) : goerr :=
  Errorf "run %s's peer-restart fault has the Fabric peer stopped or recovering: wait for its fault.peer_ready" [AStr run].

Definition why_job (j : job) : goerr :=
  Errorf "%s %s is running on this network: arm the fault once it has finished" [AStr (Kind j); AStr (ID j)].

Definition why_others (l : list string) : goerr :=
  Errorf "a phase is running on %v, which shares this network: arm the fault once it has finished" [AStrs l].

Definition why_exclusive (l : list string) (kind : string) : goerr :=
  Errorf "a phase is running on %v: a %s would share the network with it; let it finish or cancel it first"
    [AStrs l; AStr kind].

(** What the world decides at a step: whether the fault triggers now, whether a
    docker command works, which run a map iteration meets first, the clock, and
    how a job ends. *)
Record choice := MkChoice {
  triggers : bool; works : bool; pick : string; now : Z; job_result : option string; job_err : option goerr
}.

(** [f.dispatched] and [f.restore], a stage at a time. *)
Definition fault_step (t : nat) (run : string) (f : fstage) (c : choice) (s : server) : option server :=
  let goto f s := Some (move t (Some (Phase run f)) s) in
  match f with
  | FNone => if triggers c then goto FGateJobs s else Some (move t (Some (Finish run)) s)
  | FGateJobs => match running (board s) with Some _ => goto FOver s | None => goto FGateBusy s end
  | FGateBusy =>
      if s_mu s then None
      else goto (match busyRunsLocked run s with [] => FPassed | _ => FOver end) s
  | FPassed => goto FMarked (setFaulting run true s)
  | FMarked => goto FCounted (set_peers_down (S (peersDown s)) s)
  | FCounted => if stop_mu s then None else goto FStopping (set_stop_mu true s)
  | FStopping => goto FDown (set_stop_mu false (docker_stop (works c) s))
  | FDown => goto FRestarted (docker_start (works c) s)
  | FRestarted => goto FWaiting (set_peers_down (peersDown s - 1) s)
  | FWaiting => goto FOver (setFaulting run false s)
  | FOver => Some (move t (Some (Finish run)) s)
  end.

(** The next step of a goroutine; [None] when it waits for a lock. *)
Definition thread_step (text : goerr → string) (t : nat) (p : pc) (c : choice) (s : server) : option server :=
  let goto p s := Some (move t (Some p) s) in
  let refuse e s := Some (move t None (answer t (Some e) (set_mu false s))) in
  match p with
  | ClaimLock r => if s_mu s then None else goto (ClaimBusy r) (set_mu true s)
  | ClaimBusy r => if decide (r ∈ busy s) then refuse why_busy s else goto (ClaimJobs r) s
  | ClaimJobs r =>
      match reset_running (board s) with
      | Some j => refuse (why_reset j) s
      | None => goto (ClaimFault r) s
      end
  | ClaimFault r =>
      match faultingRun (pick c) s with
      | Some fr => refuse (why_fault fr) s
      | None => goto (ClaimTake r) s
      end
  | ClaimTake r => goto (Phase r FNone) (answer t None (set_mu false (set_busy ({[r]} ∪ busy s) s)))
  | Phase r f => fault_step t r f c s
  | Finish r => if s_mu s then None else Some (move t None (set_busy (busy s ∖ {[r]}) s))
  | AloneLock r => if s_mu s then None else goto (AloneBusy r) (set_mu true s)
  | AloneBusy r => if decide (r ∈ busy s) then refuse why_busy s else goto (AloneJobs r) s
  | AloneJobs r =>
      match running (board s) with
      | Some j => refuse (why_job j) s
      | None => goto (AloneTake r) s
      end
  | AloneTake r =>
      match busyRunsLocked r s with
      | [] => goto (Arming r) (answer t None (set_mu false (set_busy ({[r]} ∪ busy s) s)))
      | l => refuse (why_others l) s
      end
  | Arming r => goto (Finish r) s
  | JobLock k => if s_mu s then None else goto (JobBusy k) (set_mu true s)
  | JobBusy k => goto (JobRunning k (match busyRunsLocked "" s with [] => true | _ => false end)) s
  | JobRunning k free =>
      match running (board s) with
      | Some j => refuse (busyResponse j).1.2 s
      | None => if free then goto (JobStart k) s else refuse (why_exclusive (busyRunsLocked "" s) k) s
      end
  | JobStart k =>
      match start k (now c) (board s) with
      | (b, inl p) => goto (JobRuns p false) (answer t None (set_mu false (set_board b s)))
      | (b, inr p) =>
          Some (move t None (answer t (match cells b !! p with
                                       | Some j => Some (busyResponse j).1.2 | None => None end)
                              (set_mu false s)))
      end
  | JobRuns p false => goto (JobRuns p true) (set_board (run_begin p (board s)) s)
  | JobRuns p true =>
      Some (move t None
        (set_board (run_end (P := unit) text None p (now c) (job_result c) (job_err c) (board s, tt)).1 s))
  | RestoreLock => if stop_mu s then None else goto RestoreCheck (set_stop_mu true s)
  | RestoreCheck =>
      if (peersDown s =? 0)%nat then Some (move t None (set_exited (set_stop_mu false s)))
      else goto RestoreStart s
  | RestoreStart => Some (move t None (set_exited (set_stop_mu false (docker_start (works c) s))))
  end.

(** A new goroutine: a request, or the signal. *)
Inductive request := RPhase (run : string) | RArm (run : string) | RJob (kind : string) | RSignal.

Definition first_pc (q : request) : pc :=
  match q with
  | RPhase r => ClaimLock r
  | RArm r => AloneLock r
  | RJob k => JobLock k
  | RSignal => RestoreLock
  end.

(** A run id that is not one of a run folder is refused before it gets here. *)
Definition request_ok (q : request) : bool :=
  match q with RPhase r | RArm r => negb (String.eqb r "") | _ => true end.

(** Who runs next. Cancelling a job and writing to its log are one critical
    section of the board's lock each. *)
Inductive schedule :=
| Arrive (t : nat) (q : request)
| Run (t : nat) (c : choice)
| CancelJob (id : string)
| LogJob (p : nat) (text : string).

Definition server_step (text : goerr → string) (a : schedule) (s : server) : option server :=
  if exited s then None
  else match a with
  | Arrive t q =>
      match threads s !! t, request_ok q with
      | None, true => Some (move t (Some (first_pc q)) s)
      | _, _ => None
      end
  | Run t c => p ← threads s !! t; thread_step text t p c s
  | CancelJob id => Some (set_board (requestCancel id (board s)).1 s)
  | LogJob p x => Some (set_board (Write p x (board s)) s)
  end.

Definition newServer : server :=
  MkServer false ∅ empty_board ∅ 0 false true false false ∅ [].

Fixpoint run_server (text : goerr → string) (l : list schedule) (s : server) : option server :=
  match l with
  | [] => Some s
  | a :: l => s ← server_step text a s; run_server text l s
  end.

Inductive reachable (text : goerr → string) : server → Prop :=
| reachable_new : reachable text newServer
| reachable_step s a s' : reachable text s → server_step text a s = Some s' → reachable text s'.

(** ** The calls without interleaving *)
Definition claim (run pick : string) (s : server) : server * option goerr :=
  if decide (run ∈ busy s) then (s, Some why_busy)
  else match reset_running (board s) with
  | Some j => (s, Some (why_reset j))
  | None =>
      match faultingRun pick s with
      | Some fr => (s, Some (why_fault fr))
      | None => (set_busy ({[run]} ∪ busy s) s, None)
      end
  end.

Definition claimAlone (run : string) (s : server) : server * option goerr :=
  if decide (run ∈ busy s) then (s, Some why_busy)
  else match running (board s) with
  | Some j => (s, Some (why_job j))
  | None =>
      match busyRunsLocked run s with
      | [] => (set_busy ({[run]} ∪ busy s) s, None)
      | l => (s, Some (why_others l))
      end
  end.

(** The job slot's number, or the refusal. *)
Definition startExclusiveJob (kind : string) (now : Z) (s : server) : server * (nat + goerr) :=
  match running (board s), busyRunsLocked "" s with
  | Some j, _ => (s, inr (busyResponse j).1.2)
  | None, [] =>
      match start kind now (board s) with
      | (b, inl p) => (set_board b s, inl p)
      | (b, inr p) => (s, inr (why_exclusive [] kind))
      end
  | None, l => (s, inr (why_exclusive l kind))
  end.

(** [faultGate]. *)
Definition faultGate (run : string) (s : server) : option goerr :=
  match running (board s) with
  | Some j => Some (Errorf "%s %s is running on this network" [AStr (Kind j); AStr (ID j)])
  | None =>
      match busyRunsLocked run s with
      | [] => None
      | l => Some (Errorf "a phase is running on %v, which shares this network" [AStrs l])
      end
  end.
End console.

End Exclusion.
