(* ===== verification/ExclusionFacts.v ===== *)
(** * The network has one user

    On every interleaving of the console's goroutines: who holds which run, the
    job slot and the peer, and what can never happen together. *)
From S2P Require Import Prelude GoText Jobs Exclusion.
From stdpp Require Import sorting.
#[local] Open Scope Z_scope.
Import Jobs Exclusion.

Module ExclusionFacts.

(** ** What a goroutine holds *)
Definition holds_mu (p : pc) : option unit :=
  match p with
  | ClaimBusy _ | ClaimJobs _ | ClaimFault _ | ClaimTake _ | AloneBusy _ | AloneJobs _ | AloneTake _
  | JobBusy _ | JobRunning _ _ | JobStart _ => Some tt
  | _ => None
  end.

Definition holds_run (p : pc) : option string :=
  match p with Phase r _ | Finish r | Arming r => Some r | _ => None end.

Definition holds_job (p : pc) : option nat :=
  match p with JobRuns p _ => Some p | _ => None end.

Definition marked (f : fstage) : bool :=
  match f with FMarked | FCounted | FStopping | FDown | FRestarted | FWaiting => true | _ => false end.

Definition passed (f : fstage) : bool :=
  match f with FPassed => true | _ => marked f end.

Definition gated (f : fstage) : bool :=
  match f with FGateBusy => true | _ => passed f end.

Definition counted (f : fstage) : bool :=
  match f with FCounted | FStopping | FDown | FRestarted => true | _ => false end.

Definition holds_fault (p : pc) : option string :=
  match p with Phase r f => if marked f then Some r else None | _ => None end.

Definition holds_network (p : pc) : option unit :=
  match p with Phase r f => if passed f then Some tt else None | _ => None end.

Definition holds_peer (p : pc) : option unit :=
  match p with Phase r f => if counted f then Some tt else None | _ => None end.

Definition holds_stop (p : pc) : option unit :=
  match p with Phase _ FStopping | RestoreCheck | RestoreStart => Some tt | _ => None end.

(** The run a goroutine is about. *)
Definition run_of (p : pc) : option string :=
  match p with
  | ClaimLock r | ClaimBusy r | ClaimJobs r | ClaimFault r | ClaimTake r | Phase r _ | Finish r
  | AloneLock r | AloneBusy r | AloneJobs r | AloneTake r | Arming r => Some r
  | _ => None
  end.

(** Exactly the members of [S] are held, each by one goroutine. *)
Record tracks {X} (C : pc → option X) (ths : gmap nat pc) (S : X → Prop) : Prop := {
  tr_held : ∀ x, S x ↔ ∃ t, ths !! t ≫= C = Some x;
  tr_one : ∀ x t1 t2, ths !! t1 ≫= C = Some x → ths !! t2 ≫= C = Some x → t1 = t2
}.

Lemma tracks_move {X} (C : pc → option X) ths S t q S' :
  tracks C ths S →
  (∀ x, S' x ↔ q ≫= C = Some x ∨ (S x ∧ ths !! t ≫= C ≠ Some x)) →
  (∀ x, q ≫= C = Some x → S x → ths !! t ≫= C = Some x) →
  tracks C (partial_alter (λ _, q) t ths) S'.
Proof.
  intros [Hh Ho] HS Hq.
  assert (Hlk : ∀ u, partial_alter (λ _, q) t ths !! u = if decide (u = t) then q else ths !! u).
  { intros u. destruct (decide (u = t)) as [->|Hu]; [by rewrite lookup_partial_alter_eq|].
    by rewrite lookup_partial_alter_ne by done. }
  split.
  - intros x. rewrite HS, Hh. split.
    + intros [E|[[u Hu] Hne]]; [exists t; by rewrite Hlk, decide_True|].
      exists u. rewrite Hlk, decide_False; [done|]. by intros ->.
    + intros [u Hu]. rewrite Hlk in Hu. destruct (decide (u = t)) as [->|Hut]; [by left|].
      right. split; [by exists u|]. intros E. by apply Hut, (Ho x).
  - intros x t1 t2. rewrite !Hlk.
    assert (Hback : ∀ u, u ≠ t → ths !! u ≫= C = Some x → q ≫= C = Some x → False).
    { intros u Hu E1 E2. apply Hu, (Ho x); [done|]. apply Hq; [done|]. apply Hh. by exists u. }
    destruct (decide (t1 = t)) as [->|H1], (decide (t2 = t)) as [->|H2]; intros E1 E2; [done| | |].
    + by destruct (Hback _ H2 E2 E1).
    + by destruct (Hback _ H1 E1 E2).
    + by apply (Ho x).
Qed.

Section facts.
Context `{JobStamp} (paused : string → option string) (text : goerr → string).

(** What a goroutine knows where it is. *)
Definition knows (s : server) (p : pc) : Prop :=
  match p with
  | ClaimJobs r => r ∉ busy s
  | ClaimFault r | ClaimTake r => r ∉ busy s ∧ reset_running (board s) = None
  | AloneJobs r => r ∉ busy s
  | AloneTake r => r ∉ busy s ∧ active (board s) = None
  | JobRunning _ true => busy s = ∅
  | JobStart _ => busy s = ∅ ∧ active (board s) = None
  | Phase _ f => gated f = true → active (board s) = None
  | _ => True
  end.

Record inv (s : server) : Prop := {
  i_mu : tracks holds_mu (threads s) (λ _, s_mu s = true);
  i_run : tracks holds_run (threads s) (λ r, r ∈ busy s);
  i_job : tracks holds_job (threads s) (λ p, active (board s) = Some p);
  i_fault : tracks holds_fault (threads s) (λ r, r ∈ faulting s);
  i_net : tracks holds_network (threads s) (λ _, ∃ t, threads s !! t ≫= holds_network = Some tt);
  i_peer : tracks holds_peer (threads s) (λ _, peersDown s = 1%nat);
  i_down : (peersDown s ≤ 1)%nat;
  i_stop : tracks holds_stop (threads s) (λ _, stop_mu s = true);
  i_board : board_ok (board s);
  i_names : ∀ t p r, threads s !! t = Some p → run_of p = Some r → r ≠ "";
  i_knows : ∀ t p, threads s !! t = Some p → knows s p;
  i_reset : ∀ j, reset_running (board s) = Some j → busy s = ∅;
  i_up : peer_up s = false → lost s = false → ∃ t r, threads s !! t = Some (Phase r FDown)
}.

Lemma new_inv : inv newServer.
Proof.
  assert (Ht : ∀ X (C : pc → option X) S, (∀ x, ¬ S x) → tracks C ∅ S).
  { intros X C S HS. split; intros x.
    - split; [intros []%HS|]. intros [t Ht]. by rewrite lookup_empty in Ht.
    - intros t1 t2. by rewrite lookup_empty. }
  split; cbn; try (apply Ht; cbn; intros x).
  all: try done; try set_solver; try lia; try (intros; by simplify_map_eq).
  apply empty_board_ok.
Qed.

(** ** The pieces of the board a step may change *)
Lemma reset_running_active b j : reset_running b = Some j → ∃ p, active b = Some p.
Proof.
  unfold reset_running, running. destruct (active b) as [p|]; [by exists p|done].
Qed.

Lemma idle_board b : board_ok b → running b = None ↔ active b = None.
Proof.
  intros Hb. unfold running. destruct (active b) as [p|] eqn:E; [|done].
  destruct (ok_active b Hb p E) as [j Hj]. cbn. by rewrite Hj.
Qed.

Lemma reset_running_update p f b j :
  (∀ j, Kind (f j) = Kind j) → reset_running (update p f b) = Some j →
  ∃ j0, reset_running b = Some j0.
Proof.
  intros Hk. unfold reset_running, running. cbn. destruct (active b) as [a|]; [|done]. cbn.
  destruct (decide (a = p)) as [->|Hne].
  - rewrite lookup_alter_eq. destruct (cells b !! p) as [j0|]; [|done]. cbn. rewrite Hk.
    destruct (String.eqb _ _); [by exists j0|done].
  - rewrite lookup_alter_ne by done. destruct (cells b !! a) as [j0|]; [|done].
    destruct (String.eqb _ _); [by exists j0|done].
Qed.

Lemma no_others r s : busyRunsLocked paused r s = [] → ∀ x, x ∈ busy s → x = r.
Proof.
  unfold busyRunsLocked. intros E%fmap_nil_inv x Hx. destruct (decide (x = r)) as [|Hne]; [done|].
  assert (Hin : x ∈ filter (λ id, id ≠ r) (merge_sort GoText.str_le (elements (busy s)))).
  { apply list_elem_of_filter. split; [done|]. rewrite merge_sort_Permutation. by apply elem_of_elements. }
  rewrite E in Hin. by apply not_elem_of_nil in Hin.
Qed.

Lemma no_fault pick s : faultingRun pick s = None → faulting s = ∅.
Proof.
  unfold faultingRun. destruct (decide _) as [|_]; [done|].
  intros E. apply set_eq. intros x. destruct (elements (faulting s)) as [|y l] eqn:El; [|done].
  rewrite <-elem_of_elements, El. set_solver.
Qed.

(** A step that leaves the board, or only a job of it, keeps what others know. *)
Lemma knows_mono s s' p :
  (holds_mu p = Some tt → busy s' = busy s) →
  (active (board s) = None → active (board s') = None) →
  (reset_running (board s) = None → reset_running (board s') = None) →
  knows s p → knows s' p.
Proof.
  intros Hb Ha Hr. destruct p as [| | | | | | | | | | | | | |k []| | | | |]; cbn in *; try done.
  all: try (rewrite Hb by done); try naive_solver.
Qed.
(** ** One step *)
Lemma lookup_moved (ths : gmap nat pc) t q u p :
  partial_alter (λ _, q) t ths !! u = Some p ↔ (u = t ∧ q = Some p) ∨ (u ≠ t ∧ ths !! u = Some p).
Proof.
  destruct (decide (u = t)) as [->|Hu].
  - rewrite lookup_partial_alter_eq. naive_solver.
  - rewrite lookup_partial_alter_ne by done. naive_solver.
Qed.

(** The network changes hands only when nobody has it. *)
Lemma net_move ths t q :
  tracks holds_network ths (λ _, ∃ t, ths !! t ≫= holds_network = Some tt) →
  (q ≫= holds_network = Some tt →
   ths !! t ≫= holds_network = Some tt ∨ ∀ u, ths !! u ≫= holds_network ≠ Some tt) →
  tracks holds_network (partial_alter (λ _, q) t ths)
    (λ _, ∃ u, partial_alter (λ _, q) t ths !! u ≫= holds_network = Some tt).
Proof.
  intros Hn Hq. split; [by intros []|]. intros [] t1 t2 E1 E2.
  assert (Hb : ∀ u, partial_alter (λ _, q) t ths !! u ≫= holds_network = Some tt →
            (u = t ∧ q ≫= holds_network = Some tt) ∨ (u ≠ t ∧ ths !! u ≫= holds_network = Some tt)).
  { intros u. destruct (decide (u = t)) as [->|Hu].
    - rewrite lookup_partial_alter_eq. by left.
    - rewrite lookup_partial_alter_ne by done. by right. }
  destruct (Hb _ E1) as [[-> E1']|[H1 E1']], (Hb _ E2) as [[-> E2']|[H2 E2']]; [done| | |].
  - destruct (Hq E1') as [E|E]; [by apply (tr_one _ _ _ Hn tt)|by destruct (E t2)].
  - destruct (Hq E2') as [E|E]; [by apply (tr_one _ _ _ Hn tt)|by destruct (E t1)].
  - by apply (tr_one _ _ _ Hn tt).
Qed.

(** How what is held changes when a goroutine moves from [p] to [q]. *)
Record shift {X} (C : pc → option X) (S S' : X → Prop) (p q : option pc) : Prop := {
  sh_held : ∀ x, S' x ↔ q ≫= C = Some x ∨ (S x ∧ p ≫= C ≠ Some x);
  sh_new : ∀ x, q ≫= C = Some x → S x → p ≫= C = Some x
}.

Lemma shift_same {X} `{EqDecision X} (C : pc → option X) ths S S' t p q :
  tracks C ths S → ths !! t = p → q ≫= C = p ≫= C → (∀ x, S' x ↔ S x) → shift C S S' p q.
Proof.
  intros Ht Hp E HS. split; intros x; rewrite E; [|done]. rewrite HS.
  destruct (decide (p ≫= C = Some x)) as [Ex|Ex]; [|naive_solver].
  split; [by left|]. intros _. apply (tr_held _ _ _ Ht). exists t. by rewrite Hp.
Qed.

Lemma shift_gain {X} (C : pc → option X) S S' p q x :
  p ≫= C = None → q ≫= C = Some x → ¬ S x → (∀ y, S' y ↔ y = x ∨ S y) → shift C S S' p q.
Proof. intros Ep Eq Hx HS. split; intros y; rewrite Ep, Eq; [rewrite HS|]; naive_solver. Qed.

Lemma shift_lose {X} (C : pc → option X) S S' p q x :
  p ≫= C = Some x → q ≫= C = None → (∀ y, S' y ↔ S y ∧ y ≠ x) → shift C S S' p q.
Proof. intros Ep Eq HS. split; intros y; rewrite Ep, Eq; [rewrite HS|done]; naive_solver. Qed.

(** A step respects the invariant when each class is kept, gained or lost, and
    what the goroutine now knows is so. *)
Record step_ok (s s' : server) (p q : option pc) : Prop := {
  so_mu : shift holds_mu (λ _, s_mu s = true) (λ _, s_mu s' = true) p q;
  so_run : shift holds_run (λ r, r ∈ busy s) (λ r, r ∈ busy s') p q;
  so_job : shift holds_job (λ n, active (board s) = Some n) (λ n, active (board s') = Some n) p q;
  so_fault : shift holds_fault (λ r, r ∈ faulting s) (λ r, r ∈ faulting s') p q;
  so_net : q ≫= holds_network = Some tt →
    p ≫= holds_network = Some tt ∨ ∀ u, threads s !! u ≫= holds_network ≠ Some tt;
  so_peer : shift holds_peer (λ _, peersDown s = 1%nat) (λ _, peersDown s' = 1%nat) p q;
  so_down : (peersDown s' ≤ 1)%nat;
  so_stop : shift holds_stop (λ _, stop_mu s = true) (λ _, stop_mu s' = true) p q;
  so_board : board_ok (board s');
  so_names : ∀ r, q ≫= run_of = Some r → r ≠ "";
  so_knows : ∀ p', q = Some p' → knows s' p';
  so_others : (∃ k, p = Some (JobStart k)) ∨
    (active (board s) = None → active (board s') = None) ∧
    (reset_running (board s) = None → reset_running (board s') = None);
  so_others_mu : busy s' = busy s ∨ s_mu s = false ∨ p ≫= holds_mu = Some tt;
  so_reset : ∀ j, reset_running (board s') = Some j → busy s' = ∅;
  so_up : peer_up s' = false → lost s' = false →
    (∃ r, q = Some (Phase r FDown)) ∨
    (peer_up s = false ∧ lost s = false ∧ ¬ ∃ r, p = Some (Phase r FDown))
}.

Lemma shift_tracks {X} (C : pc → option X) ths S S' t q :
  tracks C ths S → shift C S S' (ths !! t) q → tracks C (partial_alter (λ _, q) t ths) S'.
Proof. intros Ht [H1 H2]. by apply (tracks_move _ _ S). Qed.

Lemma knows_others s s' t q u p :
  inv s → step_ok s s' (threads s !! t) q → u ≠ t → threads s !! u = Some p → knows s' p.
Proof.
  intros I K Hu Hp. pose proof (i_knows _ I _ _ Hp) as Hk.
  destruct (so_others _ _ _ _ K) as [[k Ek]|[Ha Hr]].
  - pose proof (i_knows _ I _ _ Ek) as [Hb0 _].
    assert (Hnm : holds_mu p = None).
    { destruct (holds_mu p) as [[]|] eqn:E; [|done]. destruct Hu.
      apply (tr_one _ _ _ (i_mu _ I) tt); [by rewrite Hp|by rewrite Ek]. }
    destruct p as [| | | | | r f | | | | | | | | |k' [] | | | | |]; try done.
    exfalso. assert (Hr : r ∈ busy s) by (apply (tr_held _ _ _ (i_run _ I)); exists u; by rewrite Hp).
    set_solver.
  - apply (knows_mono s); [|done..]. intros Hm.
    destruct (so_others_mu _ _ _ _ K) as [?|[Hf|Hm']]; [done| |].
    + exfalso. assert (s_mu s = true) as E; [|by rewrite E in Hf].
      apply (tr_held _ _ _ (i_mu _ I) tt). exists u. by rewrite Hp.
    + destruct Hu. apply (tr_one _ _ _ (i_mu _ I) tt); [by rewrite Hp|done].
Qed.

Lemma locked_step s s' t q :
  inv s → threads s' = partial_alter (λ _, q) t (threads s) →
  step_ok s s' (threads s !! t) q → inv s'.
Proof.
  intros I Ht K. pose proof K as [].
  split; rewrite ?Ht; try by eapply shift_tracks; [destruct I; eassumption|].
  all: try done.
  - by apply net_move; [apply (i_net _ I)|].
  - intros u p r [[-> ->]|[Hu Hp]]%lookup_moved Hr; [by eapply so_names|by eapply (i_names _ I)].
  - intros u p [[-> ->]|[Hu Hp]]%lookup_moved; [by eapply so_knows|by eapply knows_others].
  - intros H1 H2. destruct (so_up _ _ _ _ K H1 H2) as [[r ->]|(E1&E2&E3)].
    + exists t, r. apply lookup_moved. by left.
    + destruct (i_up _ I E1 E2) as (u&r&Hu). exists u, r. apply lookup_moved. right.
      split; [|done]. intros ->. apply E3. by exists r.
Qed.
Ltac kept I Ht :=
  eapply shift_same; [first [exact (i_mu _ I)|exact (i_run _ I)|exact (i_job _ I)|exact (i_fault _ I)
    |exact (i_peer _ I)|exact (i_stop _ I)]|exact Ht|reflexivity|intros ?; reflexivity].

(** A lock is taken by one who found it free, or given back. *)
Ltac lock_moved :=
  first [ solve [apply (shift_lose _ _ _ _ _ tt); [done..|]; cbn; intros []; naive_solver]
        | solve [apply (shift_gain _ _ _ _ _ tt); [done..|congruence|cbn; intros []; naive_solver]] ].

(** What a step keeps is proved here; what it changes is left. *)
Ltac step I Ht Hn Hk :=
  eapply (locked_step _ _ _ _ I); [reflexivity|]; rewrite Ht; constructor;
  [try first [kept I Ht|lock_moved]|try kept I Ht|try kept I Ht|try kept I Ht|try (cbn; done); try (by left)|try kept I Ht
  |try exact (i_down _ I)|try first [kept I Ht|lock_moved]|try exact (i_board _ I)
  |try (by intros ? [= <-]; apply Hn)
  |try done; try (by intros ? [= <-]); try (by intros ? [= <-]; exact Hk)
  |try (right; split; exact id)|try (first [by left|by right; left|by right; right])|try exact (i_reset _ I)
  |try (by intros ? ?; right; split_and!; [done|done|intros []])].

(** Whoever has the network, or has counted the peer down, holds a run. *)
Lemma network_run p : holds_network p = Some tt → ∃ r, holds_run p = Some r.
Proof. destruct p; try done. intros _. by eexists. Qed.

Lemma same_run s t u p q r :
  inv s → threads s !! t = Some p → threads s !! u = Some q →
  holds_run p = Some r → holds_run q = Some r → t = u.
Proof.
  intros I Hp Hq Ep Eq. apply (tr_one _ _ _ (i_run _ I) r); [by rewrite Hp|by rewrite Hq].
Qed.

Lemma fault_step_inv t r f c s s' :
  inv s → threads s !! t = Some (Phase r f) → fault_step paused t r f c s = Some s' → inv s'.
Proof.
  intros I Ht Hs. pose proof (i_knows _ I _ _ Ht) as Hk.
  assert (Hn : ∀ r', Some r = Some r' → r' ≠ "").
  { intros r' E. by apply (i_names _ I _ _ _ Ht). }
  destruct f; cbn in Hs.
  - destruct (triggers c); injection Hs as <-; step I Ht Hn Hk.
  - destruct (running (board s)) as [j|] eqn:Er; injection Hs as <-; step I Ht Hn Hk.
    intros ? [= <-] _. by apply (idle_board _ (i_board _ I)).
  - destruct (s_mu s) eqn:Em; [done|].
    destruct (busyRunsLocked paused r s) eqn:El; injection Hs as <-; step I Ht Hn Hk.
    intros _. right. intros u Hu. destruct (threads s !! u) as [p|] eqn:Eu; [|done].
    destruct (network_run p Hu) as [r' Hr'].
    assert (r' = r) as ->.
    { apply (no_others _ _ El), (tr_held _ _ _ (i_run _ I)). exists u. by rewrite Eu. }
    assert (t = u) as <- by (by eapply same_run). rewrite Ht in Eu. by injection Eu as <-.
  - injection Hs as <-; step I Ht Hn Hk.
    apply (shift_gain _ _ _ _ _ r); [done|done| |cbn; set_solver].
    intros Hf. apply (tr_held _ _ _ (i_fault _ I)) in Hf as [u Hu].
    destruct (threads s !! u) as [[| | | | |r' f| | | | | | | | | | | | | |]|] eqn:Eu; try done.
    cbn in Hu. destruct (marked f) eqn:Ef; [|done]. injection Hu as ->.
    assert (t = u) as <- by (by eapply same_run). rewrite Ht in Eu. by injection Eu as <-.
  - assert (Hd : peersDown s ≠ 1%nat).
    { intros Hd. apply (tr_held _ _ _ (i_peer _ I) tt) in Hd as [u Hu].
      assert (u = t) as ->; [|by rewrite Ht in Hu].
      apply (tr_one _ _ _ (i_net _ I) tt); [|by rewrite Ht].
      destruct (threads s !! u) as [[| | | | |r' []| | | | | | | | | | | | | |]|]; done. }
    pose proof (i_down _ I). injection Hs as <-; step I Ht Hn Hk.
    + apply (shift_gain _ _ _ _ _ tt); [done..|]. cbn. intros []. split; [by left|lia].
    + cbn. lia.
  - destruct (stop_mu s) eqn:Em; [done|]. injection Hs as <-; step I Ht Hn Hk.
  - injection Hs as <-; step I Ht Hn Hk.
    intros _ _. left. by exists r.
  - injection Hs as <-; step I Ht Hn Hk. cbn. by destruct (works c).
  - assert (Hd : peersDown s = 1%nat).
    { apply (tr_held _ _ _ (i_peer _ I) tt). exists t. by rewrite Ht. }
    injection Hs as <-; step I Ht Hn Hk.
    + apply (shift_lose _ _ _ _ _ tt); [done..|]. cbn. intros []. rewrite Hd. naive_solver.
    + cbn. lia.
  - injection Hs as <-; step I Ht Hn Hk.
    apply (shift_lose _ _ _ _ _ r); [done..|]. cbn. set_solver.
  - injection Hs as <-; step I Ht Hn Hk.
Qed.
(** A job's own data changes. *)
Lemma update_inv s n f :
  (∀ j, ID (f j) = ID j) → (∀ j, Kind (f j) = Kind j) →
  (∀ j, is_Some (FinishedAt j) → is_Some (FinishedAt (f j))) →
  inv s → inv (set_board (update n f (board s)) s).
Proof.
  intros H1 H2 H3 I. pose proof I as []. split; try done.
  - by apply update_ok.
  - intros t p Hp. apply (knows_mono s); [done|done| |by eapply (i_knows _ I)].
    intros Hr. destruct (reset_running (board (set_board _ s))) as [j|] eqn:Ej; [|done].
    apply reset_running_update in Ej as [j0 Hj0]; [|done]. congruence.
  - intros j (j0&Hj0)%reset_running_update; [|done]. by eapply (i_reset _ I).
Qed.

Lemma free_network s : inv s → busyRunsLocked paused "" s = [] → busy s = ∅.
Proof.
  intros I El. apply set_eq. intros x. split; [|set_solver]. intros Hx.
  pose proof (no_others _ _ El x Hx) as ->.
  apply (tr_held _ _ _ (i_run _ I)) in Hx as [u Hu].
  destruct (threads s !! u) as [p|] eqn:Eu; [|done].
  destruct (i_names _ I _ _ "" Eu); [|done]. by destruct p.
Qed.

Lemma claim_step_inv t p c s s' :
  inv s → threads s !! t = Some p → is_Some (run_of p) →
  thread_step paused text t p c s = Some s' → inv s'.
Proof.
  intros I Ht Hrun Hs. pose proof (i_knows _ I _ _ Ht) as Hk.
  assert (Hn : ∀ r, run_of p = Some r → r ≠ "") by (intros r E; by apply (i_names _ I _ _ _ Ht)).
  destruct p; cbn in Hs; try by destruct Hrun.
  - destruct (s_mu s) eqn:Em; [done|]. injection Hs as <-; step I Ht Hn Hk.
  - destruct (decide (run ∈ busy s)) as [Hb|Hb]; injection Hs as <-; step I Ht Hn Hk.
  - destruct (reset_running (board s)) as [j|] eqn:Er; injection Hs as <-; step I Ht Hn Hk.
  - destruct (faultingRun (pick c) s) as [fr|] eqn:Er; injection Hs as <-; step I Ht Hn Hk.
  - destruct Hk as [Hb Hr]. injection Hs as <-; step I Ht Hn Hk.
    + apply (shift_gain _ _ _ _ _ run); [done..|]. cbn. set_solver.
    + cbn. by rewrite Hr.
  - by apply (fault_step_inv t run f c s).
  - destruct (s_mu s) eqn:Em; [done|]. injection Hs as <-; step I Ht Hn Hk.
    + apply (shift_lose _ _ _ _ _ run); [done..|]. cbn. set_solver.
    + cbn. intros j ->%(i_reset _ I). set_solver.
  - destruct (s_mu s) eqn:Em; [done|]. injection Hs as <-; step I Ht Hn Hk.
  - destruct (decide (run ∈ busy s)) as [Hb|Hb]; injection Hs as <-; step I Ht Hn Hk.
  - destruct (running (board s)) as [j|] eqn:Er; injection Hs as <-; step I Ht Hn Hk.
    intros ? [= <-]. split; [done|]. by apply (idle_board _ (i_board _ I)).
  - destruct Hk as [Hb Ha].
    destruct (busyRunsLocked paused run s) eqn:El; injection Hs as <-; step I Ht Hn Hk.
    + apply (shift_gain _ _ _ _ _ run); [done..|]. cbn. set_solver.
    + cbn. intros j (p&Hp)%reset_running_active. by rewrite Ha in Hp.
  - injection Hs as <-; step I Ht Hn Hk.
Qed.

Lemma job_step_inv t p c s s' :
  inv s → threads s !! t = Some p → run_of p = None →
  thread_step paused text t p c s = Some s' → inv s'.
Proof.
  intros I Ht Hrun Hs. pose proof (i_knows _ I _ _ Ht) as Hk.
  assert (Hn : ∀ r, run_of p = Some r → r ≠ "") by (intros r E; congruence).
  destruct p as [| | | | | | | | | | | |k|k|k free|k|n []| | |]; cbn -[run_end] in Hs; try done.
  - destruct (s_mu s) eqn:Em; [done|]. injection Hs as <-; step I Ht Hn Hk.
  - injection Hs as <-; step I Ht Hn Hk. intros ? [= <-].
    destruct (busyRunsLocked paused "" s) eqn:El; [|done]. cbn. by apply free_network.
  - destruct (running (board s)) as [j|] eqn:Er.
    + injection Hs as <-; step I Ht Hn Hk.
    + destruct free; injection Hs as <-; step I Ht Hn Hk. intros ? [= <-].
      split; [exact Hk|by apply (idle_board _ (i_board _ I))].
  - destruct Hk as [Hb Ha]. destruct (start k (now c) (board s)) as [b' [n|n]] eqn:Es.
    all: pose proof (start_ok _ _ _ _ _ (i_board _ I) Es) as [Hok Hr].
    + destruct Hr as (_&Ha'&_). injection Hs as <-; step I Ht Hn Hk.
      * apply (shift_gain _ _ _ _ _ n); [done|done|by rewrite Ha|]. cbn. intros m.
        rewrite Ha', Ha. naive_solver.
      * done.
      * left. by exists k.
      * by intros.
    + destruct Hr as [_ ?]. congruence.
  - assert (Hp : active (board s) = Some n).
    { apply (tr_held _ _ _ (i_job _ I)). exists t. by rewrite Ht. }
    pose proof (run_end_ok (P := unit) text None n (now c) (job_result c) (job_err c) (board s) tt
      (i_board _ I) Hp) as (Hok&Ha&_).
    set (b' := (run_end _ _ _ _ _ _ _).1) in *. clearbody b'.
    assert (Hr : reset_running b' = None).
    { destruct (reset_running b') as [j|] eqn:Ej; [|done].
      apply reset_running_active in Ej as [q Hq]. by rewrite Ha in Hq. }
    injection Hs as <-; step I Ht Hn Hk.
    + apply (shift_lose _ _ _ _ _ n); [done..|]. cbn. intros m. rewrite Ha, Hp. naive_solver.
    + done.
    + by right.
    + cbn. by rewrite Hr.
  - assert (Hr : ∀ j, reset_running (run_begin n (board s)) = Some j →
                 ∃ j0, reset_running (board s) = Some j0) by (intros j; by apply reset_running_update).
    injection Hs as <-; step I Ht Hn Hk.
    + cbn. by apply update_ok; [| |apply (i_board _ I)].
    + right. split; [done|]. cbn. intros E. destruct (reset_running (run_begin _ _)) as [j|] eqn:Ej; [|done].
      destruct (Hr _ eq_refl). congruence.
    + cbn. intros j (j0&Hj0)%Hr. by apply (i_reset _ I j0).
  - destruct (stop_mu s) eqn:Em; [done|]. injection Hs as <-; step I Ht Hn Hk.
  - destruct (peersDown s =? 0)%nat; injection Hs as <-; step I Ht Hn Hk.
  - injection Hs as <-; step I Ht Hn Hk. cbn. by destruct (works c).
Qed.

Lemma server_step_inv a s s' : inv s → server_step paused text a s = Some s' → inv s'.
Proof.
  intros I. unfold server_step. destruct (exited s); [done|]. destruct a as [t q|t c|id|n x].
  - destruct (threads s !! t) as [p|] eqn:Ht; [done|]. destruct (request_ok q) eqn:Hq; intros [= <-].
    assert (Hn : ∀ r, run_of (first_pc q) = Some r → r ≠ "").
    { intros r. destruct q; cbn in *; try done; intros [= <-] ->; done. }
    pose proof I as Hk. destruct q; step I Ht Hn Hk.
  - destruct (threads s !! t) as [p|] eqn:Ht; [|done]. cbn. intros Hs.
    destruct (run_of p) as [r|] eqn:Er; [by eapply claim_step_inv; [|done|by exists r|]|by eapply job_step_inv].
  - intros [= <-]. unfold requestCancel. destruct (active (board s)) as [p|]; [|by destruct s].
    destruct (cells (board s) !! p) as [j|]; [|by destruct s].
    destruct (String.eqb _ _); [|by destruct s]. by apply update_inv.
  - intros [= <-]. by apply update_inv.
Qed.

Lemma reachable_inv s : reachable paused text s → inv s.
Proof. induction 1 as [|s a s' _ IH Hs]; [apply new_inv|by eapply server_step_inv]. Qed.
(** ** What the invariant says *)
Lemma lock_owner s t :
  inv s → threads s !! t ≫= holds_mu = Some tt → exited s = false →
  ∀ c, is_Some (server_step paused text (Run t c) s).
Proof.
  intros I Ht He c. unfold server_step. rewrite He.
  destruct (threads s !! t) as [p|] eqn:Ep; [|done]. cbn in *.
  destruct p as [| | | | | | | | | | | | | |k free|k| | | |]; try done; cbn.
  - by case_decide.
  - by destruct (reset_running _).
  - by destruct (faultingRun _ _).
  - by case_decide.
  - by destruct (running _).
  - by destruct (busyRunsLocked _ _ _).
  - by destruct (running _), free.
  - by destruct (start _ _ _) as [? [?|?]].
Qed.

Lemma stop_owner s t :
  inv s → threads s !! t ≫= holds_stop = Some tt → exited s = false →
  ∀ c, is_Some (server_step paused text (Run t c) s).
Proof.
  intros I Ht He c. unfold server_step. rewrite He.
  destruct (threads s !! t) as [p|] eqn:Ep; [|done]. cbn in *.
  destruct p as [| | | | |r f| | | | | | | | | | | | | |]; try done; cbn.
  - by destruct f.
  - by destruct (_ =? _)%nat.
Qed.

Lemma held_by {X} (C : pc → option X) ths S x :
  tracks C ths S → S x → ∃ t p, ths !! t = Some p ∧ C p = Some x.
Proof.
  intros Ht Hx. apply (tr_held _ _ _ Ht) in Hx as [t E]. exists t.
  destruct (ths !! t) as [p|]; [by exists p|done].
Qed.

Lemma fault_is_only s r :
  inv s → r ∈ faulting s →
  faulting s = {[r]} ∧ active (board s) = None ∧
  ∃ t f, threads s !! t = Some (Phase r f) ∧ marked f = true.
Proof.
  intros I Hr.
  assert (Hone : ∀ x, x ∈ faulting s → ∃ t f, threads s !! t = Some (Phase x f) ∧ marked f = true).
  { intros x Hx. destruct (held_by _ _ _ x (i_fault _ I) Hx) as (t&p&Hp&E). exists t.
    destruct p as [| | | | |r' f| | | | | | | | | | | | | |]; try done. cbn in E.
    destruct (marked f) eqn:Ef; [|done]. injection E as ->. by exists f. }
  assert (Hnet : ∀ t x f, threads s !! t = Some (Phase x f) → marked f = true →
            threads s !! t ≫= holds_network = Some tt).
  { intros t x f -> Hf. cbn. by destruct f. }
  destruct (Hone r Hr) as (t&f&Ht&Hf). split_and!.
  - apply set_eq. intros x. rewrite elem_of_singleton. split; [|by intros ->].
    intros (u&g&Hu&Hg)%Hone.
    assert (t = u) as <- by (apply (tr_one _ _ _ (i_net _ I) tt); by eapply Hnet). congruence.
  - pose proof (i_knows _ I _ _ Ht) as Hk. apply Hk. by destruct f.
  - by exists t, f.
Qed.

Lemma peer_down s :
  inv s → peer_up s = false → lost s = true ∨ (peersDown s = 1%nat ∧ faulting s ≠ ∅).
Proof.
  intros I Hu. destruct (lost s) eqn:El; [by left|right].
  destruct (i_up _ I Hu El) as (t&r&Ht). split.
  - apply (tr_held _ _ _ (i_peer _ I) tt). exists t. by rewrite Ht.
  - intros He. assert (r ∈ faulting s) as Hr; [|by rewrite He in Hr; set_solver].
    apply (tr_held _ _ _ (i_fault _ I)). exists t. by rewrite Ht.
Qed.

(** C4: what the console's locks keep apart. On every interleaving of requests,
    phases, jobs, faults and the shutdown signal: a run is held by exactly one
    goroutine and is busy exactly while one holds it; while a network reset has
    the job slot no run is held, so no phase runs and no fault is active; the
    slot's job is the one goroutine in [run], and every other job is finished; at
    most one peer-restart fault is active, inside its own run's phase and with no
    job running; the peer is down only while a counted fault is active, unless
    starting it has failed; and whoever holds [s.mu] or [stopMu] can always take
    its next step. A fault and a phase of another run are not kept apart: a
    phase that is claimed between the fault's gate and its record runs while the
    peer is down ([ToyConsole.ToyExclusion.fault_races_claim]). *)
Theorem network_exclusion s :
  reachable paused text s →
  (∀ r, r ∈ busy s ↔ ∃ t p, threads s !! t = Some p ∧ holds_run p = Some r) ∧
  (∀ r t1 t2 p1 p2, threads s !! t1 = Some p1 → threads s !! t2 = Some p2 →
     holds_run p1 = Some r → holds_run p2 = Some r → t1 = t2) ∧
  (∀ j, reset_running (board s) = Some j →
     busy s = ∅ ∧ faulting s = ∅ ∧ ∀ t r f, threads s !! t ≠ Some (Phase r f)) ∧
  (∀ n, active (board s) = Some n ↔ ∃ t b, threads s !! t = Some (JobRuns n b)) ∧
  (∀ t1 t2 n1 n2 b1 b2, threads s !! t1 = Some (JobRuns n1 b1) →
     threads s !! t2 = Some (JobRuns n2 b2) → t1 = t2) ∧
  (∀ n j, cells (board s) !! n = Some j → active (board s) ≠ Some n → is_Some (FinishedAt j)) ∧
  (∀ r, r ∈ faulting s → faulting s = {[r]} ∧ active (board s) = None ∧
     ∃ t f, threads s !! t = Some (Phase r f) ∧ marked f = true) ∧
  (peer_up s = false → lost s = true ∨ (peersDown s = 1%nat ∧ faulting s ≠ ∅)) ∧
  (exited s = false → s_mu s = true ∨ stop_mu s = true →
     ∃ t, ∀ c, is_Some (server_step paused text (Run t c) s)).
Proof.
  intros Hs. pose proof (reachable_inv s Hs) as I.
  assert (Hjob : ∀ n, active (board s) = Some n ↔ ∃ t b, threads s !! t = Some (JobRuns n b)).
  { intros n. split.
    - intros Hn. destruct (held_by _ _ _ n (i_job _ I) Hn) as (t&p&Hp&E). exists t.
      destruct p; try done. injection E as ->. by eexists.
    - intros (t&b&Ht). apply (tr_held _ _ _ (i_job _ I)). exists t. by rewrite Ht. }
  assert (Hrun : ∀ r, r ∈ busy s ↔ ∃ t p, threads s !! t = Some p ∧ holds_run p = Some r).
  { intros r. split; [intros Hr; exact (held_by _ _ _ r (i_run _ I) Hr)|]. intros (t&p&Hp&E).
    apply (tr_held _ _ _ (i_run _ I)). exists t. by rewrite Hp. }
  split_and!; [done| | |done| | | | |].
  - intros r t1 t2 p1 p2 E1 E2 H1 H2. by eapply same_run.
  - intros j Hj. pose proof (i_reset _ I j Hj) as Hb.
    assert (Hno : ∀ t r f, threads s !! t ≠ Some (Phase r f)).
    { intros t r f Ht. assert (r ∈ busy s) as Hr by (apply Hrun; by exists t, (Phase r f)). set_solver. }
    split_and!; [done| |done]. apply set_eq. intros r. split; [|set_solver].
    intros (_&_&t&f&Ht&_)%(fault_is_only s r I). by destruct (Hno t r f).
  - intros t1 t2 n1 n2 b1 b2 E1 E2.
    assert (H1 : active (board s) = Some n1) by (apply Hjob; by exists t1, b1).
    assert (H2 : active (board s) = Some n2) by (apply Hjob; by exists t2, b2).
    assert (n1 = n2) as <- by congruence.
    apply (tr_one _ _ _ (i_job _ I) n1); [by rewrite E1|by rewrite E2].
  - exact (ok_over _ (i_board _ I)).
  - intros r Hr. by apply fault_is_only.
  - by apply peer_down.
  - intros He [Hm|Hm].
    + apply (tr_held _ _ _ (i_mu _ I) tt) in Hm as [t Ht]. exists t. by apply lock_owner.
    + apply (tr_held _ _ _ (i_stop _ I) tt) in Hm as [t Ht]. exists t. by apply stop_owner.
Qed.

(** ** The calls, uninterrupted *)
Definition own (t : nat) (c : choice) (s s' : server) : Prop :=
  ∃ p, threads s !! t = Some p ∧ thread_step paused text t p c s = Some s'.

Lemma moved_at s t q : threads (move t q s) !! t = q.
Proof. cbn. apply lookup_partial_alter_eq. Qed.

Lemma move_move s t q q' : move t q (move t q' s) = move t q s.
Proof. unfold move. cbn [threads]. by rewrite partial_alter_partial_alter_eq. Qed.

Section alone.
Context (t : nat) (c : choice) (s : server) (Hm : s_mu s = false).

Lemma unlocked : set_mu false (set_mu true s) = s.
Proof. destruct s. cbn in *. by subst. Qed.

(** Taking the lock, going on inside it, and leaving it with an answer. *)
Lemma alone_lock p q s2 :
  (∀ s, thread_step paused text t p c s = if s_mu s then None else Some (move t (Some q) (set_mu true s))) →
  rtc (own t c) (move t (Some q) (set_mu true s)) s2 → rtc (own t c) (move t (Some p) s) s2.
Proof.
  intros Hp. apply rtc_l. exists p. split; [apply moved_at|]. rewrite Hp.
  change (s_mu (move t (Some p) s)) with (s_mu s). rewrite Hm.
  change (set_mu true (move t (Some p) s)) with (move t (Some p) (set_mu true s)). by rewrite move_move.
Qed.

Lemma alone_goto p q s2 :
  let x := move t (Some p) (set_mu true s) in
  thread_step paused text t p c x = Some (move t (Some q) x) →
  rtc (own t c) (move t (Some q) (set_mu true s)) s2 → rtc (own t c) x s2.
Proof.
  intros x Hp. apply rtc_l. exists p. split; [apply moved_at|]. rewrite Hp. subst x. by rewrite move_move.
Qed.

Lemma alone_refused p e :
  let x := move t (Some p) (set_mu true s) in
  thread_step paused text t p c x = Some (move t None (answer t (Some e) (set_mu false x))) →
  rtc (own t c) x (move t None (answer t (Some e) s)).
Proof.
  intros x Hp. apply rtc_once. exists p. split; [apply moved_at|]. rewrite Hp. subst x.
  change (answer t (Some e) (set_mu false (move t (Some p) (set_mu true s))))
    with (move t (Some p) (answer t (Some e) (set_mu false (set_mu true s)))).
  by rewrite move_move, unlocked.
Qed.

Lemma alone_taken p q f :
  let x := move t (Some p) (set_mu true s) in
  f x = move t (Some p) (set_mu true (f s)) → s_mu (f s) = false →
  thread_step paused text t p c x = Some (move t (Some q) (answer t None (set_mu false (f x)))) →
  rtc (own t c) x (move t (Some q) (answer t None (f s))).
Proof.
  intros x Hf Hfs Hp. apply rtc_once. exists p. split; [apply moved_at|]. rewrite Hp, Hf.
  change (answer t None (set_mu false (move t (Some p) (set_mu true (f s)))))
    with (move t (Some p) (answer t None (set_mu false (set_mu true (f s))))).
  rewrite move_move. do 3 f_equal. destruct (f s). cbn in *. by subst.
Qed.

(** A phase request nobody interrupts: the answer and the effect of [claim]. *)
Lemma claim_alone r :
  let '(s1, o) := claim r (pick c) s in
  rtc (own t c) (move t (Some (ClaimLock r)) s)
    (move t match o with None => Some (Phase r FNone) | Some _ => None end (answer t o s1)).
Proof.
  unfold claim. destruct (decide (r ∈ busy s)) as [Hb|Hb].
  { eapply (alone_lock _ (ClaimBusy r)); [done|].
    apply alone_refused. cbn [thread_step]. by rewrite decide_True by exact Hb. }
  assert (Hin : ∀ s2, rtc (own t c) (move t (Some (ClaimJobs r)) (set_mu true s)) s2 →
            rtc (own t c) (move t (Some (ClaimLock r)) s) s2).
  { intros s2 Hs. eapply (alone_lock _ (ClaimBusy r)); [done|].
    eapply alone_goto; [|exact Hs]. cbn [thread_step]. by rewrite decide_False by exact Hb. }
  destruct (reset_running (board s)) as [j|] eqn:Er.
  { apply Hin, alone_refused. cbn [thread_step]. change (board (move _ _ _)) with (board s). by rewrite Er. }
  assert (Ef : faultingRun (pick c) (move t (Some (ClaimFault r)) (set_mu true s)) = faultingRun (pick c) s) by done.
  destruct (faultingRun (pick c) s) as [fr|]; apply Hin; eapply (alone_goto _ (ClaimFault r));
    try (cbn [thread_step]; change (board (move _ _ _)) with (board s); by rewrite Er).
  { apply alone_refused. cbn [thread_step]. by rewrite Ef. }
  eapply (alone_goto _ (ClaimTake r)); [cbn [thread_step]; by rewrite Ef|].
  by apply (alone_taken _ _ (λ s, set_busy ({[r]} ∪ busy s) s)).
Qed.

(** The same for arming a fault: [claimAlone]. *)
Lemma claimAlone_alone r :
  let '(s1, o) := claimAlone paused r s in
  rtc (own t c) (move t (Some (AloneLock r)) s)
    (move t match o with None => Some (Arming r) | Some _ => None end (answer t o s1)).
Proof.
  unfold claimAlone. destruct (decide (r ∈ busy s)) as [Hb|Hb].
  { eapply (alone_lock _ (AloneBusy r)); [done|].
    apply alone_refused. cbn [thread_step]. by rewrite decide_True by exact Hb. }
  assert (Hin : ∀ s2, rtc (own t c) (move t (Some (AloneJobs r)) (set_mu true s)) s2 →
            rtc (own t c) (move t (Some (AloneLock r)) s) s2).
  { intros s2 Hs. eapply (alone_lock _ (AloneBusy r)); [done|].
    eapply alone_goto; [|exact Hs]. cbn [thread_step]. by rewrite decide_False by exact Hb. }
  destruct (running (board s)) as [j|] eqn:Er.
  { apply Hin, alone_refused. cbn [thread_step]. change (board (move _ _ _)) with (board s). by rewrite Er. }
  assert (Eb : busyRunsLocked paused r (move t (Some (AloneTake r)) (set_mu true s)) = busyRunsLocked paused r s)
    by done.
  destruct (busyRunsLocked paused r s) as [|x l]; apply Hin; eapply (alone_goto _ (AloneTake r));
    try (cbn [thread_step]; change (board (move _ _ _)) with (board s); by rewrite Er).
  - apply (alone_taken _ _ (λ s, set_busy ({[r]} ∪ busy s) s)); [done|done|].
    cbn [thread_step]. by rewrite Eb.
  - apply alone_refused. cbn [thread_step]. by rewrite Eb.
Qed.

(** And for a job: [startExclusiveJob] and the job's own goroutine. *)
Lemma job_alone k :
  board_ok (board s) →
  let '(s1, o) := startExclusiveJob paused k (now c) s in
  rtc (own t c) (move t (Some (JobLock k)) s)
    match o with
    | inl n => move t (Some (JobRuns n false)) (answer t None s1)
    | inr e => move t None (answer t (Some e) s1)
    end.
Proof.
  intros Hok.
  assert (Hin : ∀ s2, rtc (own t c) (move t (Some (JobRunning k (match busyRunsLocked paused "" s with
              [] => true | _ => false end))) (set_mu true s)) s2 →
            rtc (own t c) (move t (Some (JobLock k)) s) s2).
  { intros s2 Hs. eapply (alone_lock _ (JobBusy k)); [done|]. eapply alone_goto; [done|exact Hs]. }
  unfold startExclusiveJob. destruct (running (board s)) as [j|] eqn:Er.
  { apply Hin, alone_refused. cbn [thread_step]. change (board (move _ _ _)) with (board s). by rewrite Er. }
  destruct (busyRunsLocked paused "" s) as [|x l] eqn:El.
  - destruct (start k (now c) (board s)) as [b [n|n]] eqn:Es.
    + apply Hin. eapply (alone_goto _ (JobStart k)).
      { cbn [thread_step]. change (board (move _ _ _)) with (board s). by rewrite Er. }
      apply (alone_taken _ _ (set_board b)); [done|done|].
      cbn [thread_step]. change (board (move _ _ _)) with (board s). by rewrite Es.
    + apply (start_ok _ _ _ _ _ Hok) in Es as [_ [_ Ha]].
      apply (idle_board _ Hok) in Er. congruence.
  - apply Hin, alone_refused. cbn [thread_step]. change (board (move _ _ _)) with (board s). rewrite Er.
    by change (busyRunsLocked paused "" (move t _ (set_mu true s))) with (busyRunsLocked paused "" s); rewrite El.
Qed.

(** The fault's gate: through exactly when [faultGate] has no objection. *)
Lemma gate_alone r :
  board_ok (board s) →
  rtc (own t c) (move t (Some (Phase r FGateJobs)) s)
    (move t (Some (Phase r (match faultGate paused r s with None => FPassed | Some _ => FOver end))) s).
Proof.
  intros Hok. unfold faultGate.
  assert (Hgo : ∀ f g x, thread_step paused text t (Phase r f) c (move t (Some (Phase r f)) s) =
              Some (move t (Some (Phase r g)) (move t (Some (Phase r f)) s)) →
            rtc (own t c) (move t (Some (Phase r g)) s) x → rtc (own t c) (move t (Some (Phase r f)) s) x).
  { intros f g x Hp Hx. eapply rtc_l; [|exact Hx]. eexists. split; [apply moved_at|]. by rewrite Hp, move_move. }
  destruct (running (board s)) as [j|] eqn:Er.
  - eapply Hgo; [|constructor]. cbn. change (board (move _ _ _)) with (board s). by rewrite Er.
  - eapply (Hgo _ FGateBusy); [cbn; change (board (move _ _ _)) with (board s); by rewrite Er|].
    eapply Hgo; [|constructor]. cbn [thread_step fault_step]. change (s_mu (move _ _ _)) with (s_mu s). rewrite Hm.
    change (busyRunsLocked paused r (move _ _ s)) with (busyRunsLocked paused r s).
    by destruct (busyRunsLocked paused r s).
Qed.
End alone.
End facts.
End ExclusionFacts.
