(* ===== verification/Canvass.v ===== *)
(** * The precinct canvass driver

    [saksi-campaign/canvass/canvass.go]: every precinct's lifecycle in turn, its
    signed return transmitted to the national folder, then the national audit.

    The chain ([Chain]) and the child processes ([Runner]) are the class [Host]:
    functions of what they keep, [W], and of the disk, which they may change at
    will; the lifecycle calls the driver's hooks. Paths are lists of names.
    JSON text is read and written by [Codec]. Wall times are left out of the
    records. A Go panic ends the process: the result of a computation is [None]. *)
From S2P Require Import Prelude Hex GoText Jobs.
From stdpp Require Import sorting.
From Stdlib Require Import Ascii.
#[local] Open Scope Z_scope.
Import GoText.

Module Canvass.

Abbreviation path := (list string).

(** What reading a path gives: text, or an error other than its absence. *)
Inductive entry := Text (s : string) | Unreadable (e : goerr).

Record mach (W : Type) := MkMach {
  host : W; files : gmap path entry; folders : gset path; log : list goerr
}.
Arguments MkMach {W}.
Arguments host {W}.
Arguments files {W}.
Arguments folders {W}.
Arguments log {W}.

Definition M (W A : Type) : Type := mach W → mach W * option A.

Definition mret {W A} (a : A) : M W A := λ m, (m, Some a).

Definition panic {W A} : M W A := λ m, (m, None).

Definition mbind {W A B} (c : M W A) (k : A → M W B) : M W B := λ m,
  match c m with (m, Some a) => k a m | (m, None) => (m, None) end.

Notation "'do!' x ':=' c 'in' k" := (mbind c (fun x => k))
  (at level 10, x binder, c at level 100, k at level 200).

(** [if err != nil { return ..., err }]: the error ends the function, with [r]
    as its other result. *)
Notation "'try!' x ':=' c 'or' e '=>' r 'in' k" :=
  (mbind c (fun y => match y with Ok x => k | Err e => mret r end))
  (at level 10, x binder, c at level 100, e name, r at level 100, k at level 200).

(** The lifecycle's attack mount points. *)
Record Hooks (W : Type) := MkHooks {
  BeforeClose : M W (result unit); BeforeTally : option (M W (result unit)); TolerateTallyRefusal : bool
}.
Arguments MkHooks {W}.
Arguments BeforeClose {W}.
Arguments BeforeTally {W}.
Arguments TolerateTallyRefusal {W}.

(** The operations on which the driver's host decides. [os_write] is a write
    that fails, with what it leaves at the path. *)
Class Host (W : Type) := {
  Lifecycle : string → Hooks W → M W (string * option goerr);
  Verify : string → M W (string * option goerr);
  ChainInfo : M W (result (Z * string));
  Runner : list string → string → list string → M W (string * option goerr);
  os_write : W → path → string → option (goerr * option entry);
  os_mkdir : W → path → option goerr;
  os_readdir : W → path → option goerr
}.

(** [encoding/json] on the driver's types. [path_text] is the text of a path on
    a command line. *)
Class Codec := {
  header_election_id : string → result string;
  audit_doc : string → result (option bool * list (string * string));
  json_valid : string → bool;
  close_json : Z → string → string;
  path_text : path → string
}.

Definition ErrNotExist : goerr := Errorf "file does not exist" [].

(** ** The disk *)
Section disk.
Context {W : Type} `{Host W}.

Definition say (f : string) (args : list goarg) : M W unit :=
  λ m, (MkMach (host m) (files m) (folders m) (log m ++ [Errorf f args]), Some tt).

Definition ReadFile (p : path) : M W (result string) := λ m,
  (m, Some match files m !! p with
           | Some (Text s) => Ok s
           | Some (Unreadable e) => Err e
           | None => Err (Errorf "open: %w" [AErr ErrNotExist])
           end).

Definition Stat (p : path) : M W (result unit) := λ m,
  (m, Some (if bool_decide (is_Some (files m !! p)) || bool_decide (p ∈ folders m) then Ok tt
            else Err (Errorf "stat: %w" [AErr ErrNotExist]))).

Definition WriteFile (p : path) (s : string) : M W (result unit) := λ m,
  match os_write (host m) p s with
  | Some (e, rest) => (MkMach (host m) (partial_alter (λ _, rest) p (files m)) (folders m) (log m), Some (Err e))
  | None => (MkMach (host m) (<[p := Text s]> (files m)) (folders m) (log m), Some (Ok tt))
  end.

(** A path and its ancestors. *)
Fixpoint ancestors (p : path) : list path :=
  match p with [] => [[]] | n :: p => [] :: (cons n <$> ancestors p) end.

Definition MkdirAll (p : path) : M W (result unit) := λ m,
  match os_mkdir (host m) p with
  | Some e => (m, Some (Err e))
  | None => (MkMach (host m) (files m) (folders m ∪ list_to_set (ancestors p)) (log m), Some (Ok tt))
  end.

(** The subfolders of [p]. *)
Definition subfolders (p : path) (m : mach W) : list string :=
  omap (λ q, n ← last q; if decide (q = p ++ [n]) then Some n else None) (elements (folders m)).

Definition ReadDirFolders (p : path) : M W (result (list string)) := λ m,
  (m, Some match os_readdir (host m) p with Some e => Err e | None => Ok (subfolders p m) end).

(** [filepath.Glob(p/*.json)], of a [p] without meta characters: is there one? *)
Definition json_in (p q : path) : bool :=
  match last q with
  | Some n => bool_decide (q = p ++ [n]) && has_suffix n ".json"
  | None => false
  end.

Definition GlobJSON (p : path) : M W bool := λ m,
  (m, Some (existsb (json_in p) (elements (dom (files m) ∪ folders m)))).
End disk.

(** ** Exit codes and records *)
Definition ExitPass : Z := 0.
Definition ExitFail : Z := 1.
Definition ExitError : Z := 2.

Definition PartialRunAdvice : string :=
  "partial run: elections already created on the chain cannot be resumed; regenerate and reset the network once".

Definition RunFile : string := "canvass-run.json".

Record PrecinctRow := MkRow {
  PrecinctID : string; Folder : string; ElectionID : string; Audit : string; Tally : string;
  CloseBlock : Z; CloseTipHash : string; Records : Z; Verified : Z; Copied : bool;
  SubmitMetrics : option string
}.

Record RunRecord := MkRecord {
  RDir : path; RAttack : string; RDistribution : string; Precincts_ : list PrecinctRow;
  CanvassDoc : option string; CanvassPass : option bool; FailedChecks : list string;
  ExitCode : Z; RError : option goerr
}.

(** The record's file is written from the record. *)
Class RunCodec := run_json : RunRecord → string.

Record Options := MkOptions {
  Dir : path; Out : option path; DemoBin : string; Attack : string;
  AttackScript : string; PreCloseScript : string; PreTallyScript : string;
  PreTallyTolerate : bool; Distribution : string
}.

Definition out_dir (o : Options) : path := default (Dir o) (Out o).

(** ** Folder names: [^precinct-(\d{2,})$] *)
Definition precinct_prefix : string := "precinct-".

Definition precinctDir (name : string) : option string :=
  if has_prefix name precinct_prefix then
    let digits := str_drop (String.length precinct_prefix) name in
    if (2 <=? String.length digits)%nat && str_forallb is_digit digits then Some digits else None
  else None.

(** [precinctID] indexes the match: it panics on any other name. *)
Definition precinctID {W} (folder : string) : M W string :=
  match precinctDir folder with Some d => mret ("p" +:+ d) | None => panic end.

(** ** sign-return's summary: [: (\d+) records \((\d+) verified\)] *)
Fixpoint digits_prefix (s : string) : string * string :=
  match s with
  | String c s' => if is_digit c then let '(d, rest) := digits_prefix s' in (String c d, rest) else (EmptyString, s)
  | EmptyString => (EmptyString, EmptyString)
  end.

Definition eat (lit s : string) : option string :=
  if has_prefix s lit then Some (str_drop (String.length lit) s) else None.

Definition eat_digits (s : string) : option (string * string) :=
  match digits_prefix s with (EmptyString, _) => None | (d, rest) => Some (d, rest) end.

(** The pattern at the head of [s]. *)
Definition signed_here (s : string) : option (string * string) :=
  s ← eat ": " s; '(r, s) ← eat_digits s; s ← eat " records (" s;
  '(v, s) ← eat_digits s; _ ← eat " verified)" s; Some (r, v).

(** [FindStringSubmatch]: the leftmost match. *)
Fixpoint signedLine (s : string) : option (string * string) :=
  match signed_here s with
  | Some m => Some m
  | None => match s with String _ s => signedLine s | EmptyString => None end
  end.

(** [strconv.Atoi] of digits, its error dropped: the largest [int] when out of range. *)
Definition Atoi_digits (s : string) : Z := Z.min (digits_value 0 s) (2 ^ 63 - 1).

Definition signedCounts (out : string) : Z * Z :=
  match signedLine out with
  | Some (r, v) => (Atoi_digits r, Atoi_digits v)
  | None => (-1, -1)
  end.

(** ** [strings.Fields] *)
Definition add_field (cur : string) (fs : list string) : list string :=
  match cur with EmptyString => fs | _ => cur :: fs end.

(** One step per byte or space removed: the string's length is fuel enough. *)
Fixpoint fields_from (fuel : nat) (cur s : string) : list string :=
  match fuel with
  | O => add_field cur []
  | S fuel =>
      match find (has_prefix s) space_encodings with
      | Some e => add_field cur (fields_from fuel EmptyString (str_drop (String.length e) s))
      | None =>
          match s with
          | EmptyString => add_field cur []
          | String c s => fields_from fuel (cur +:+ String c EmptyString) s
          end
      end
  end.

Definition Fields (s : string) : list string := fields_from (String.length s) EmptyString s.

(** ** The driver *)
Section driver.
Context {W : Type} `{Host W} `{Codec} `{RunCodec} (o : Options).

(** [parts\[0\]] panics on a command line of spaces only. *)
Definition script (cmdline hook : string) (args : list string) : M W (result unit) :=
  match Fields cmdline with
  | [] => panic
  | name :: parts =>
      do! out := Runner ["SAKSI_HOOK=" +:+ hook; "SAKSI_ATTACK=" +:+ Attack o] name (parts ++ args) in
      do! _ := (if String.eqb out.1 "" then mret tt
                else say "[%s hook] %s\n" [AStr hook; AStr (TrimSpace out.1)]) in
      mret match out.2 with Some e => Err (Errorf "%s hook: %w" [AStr hook; AErr e]) | None => Ok tt end
  end.

Definition hooks_of (pdir : path) (election : string) : Hooks W :=
  MkHooks
    (if String.eqb (PreCloseScript o) "" then mret (Ok tt)
     else script (PreCloseScript o) "pre-close" [path_text pdir; election])
    (if String.eqb (PreTallyScript o) "" then None
     else Some (script (PreTallyScript o) "pre-tally" [path_text pdir; election]))
    (if String.eqb (PreTallyScript o) "" then false else PreTallyTolerate o).

Definition returns_dir : path := Dir o ++ ["national"; "returns"].

(** The return is sent, unless an attack removed it on the way. *)
Definition transmit (folder : string) (ret : path) (row : PrecinctRow) : M W (PrecinctRow * result unit) :=
  do! raw := ReadFile ret in
  match raw with
  | Ok raw =>
      do! w := WriteFile (returns_dir ++ [PrecinctID row +:+ ".json"]) raw in
      match w with
      | Err e => mret (row, Err e)
      | Ok _ =>
          mret (MkRow (PrecinctID row) (Folder row) (ElectionID row) (Audit row) (Tally row) (CloseBlock row)
                  (CloseTipHash row) (Records row) (Verified row) true (SubmitMetrics row), Ok tt)
      end
  | Err e =>
      if Jobs.errors_is ErrNotExist e && negb (String.eqb (AttackScript o) "") then
        do! _ := say "%s: return removed by the attack script, not transmitted\n" [AStr folder] in
        mret (row, Ok tt)
      else mret (row, Err (Errorf "read return: %w" [AErr e]))
  end.

(** header.json's election id. *)
Definition read_header (p : path) : M W (result string) :=
  do! raw := ReadFile p in
  mret (let? raw := raw in header_election_id raw).

(** submit-metrics.json, where it is readable and valid. *)
Definition read_metrics (p : path) : M W (option string) :=
  do! raw := ReadFile p in
  mret match raw with Ok raw => if json_valid raw then Some raw else None | Err _ => None end.

(** What follows the ledger read-back: the chain's tip, the signature, the
    count of its records. *)
Definition sign_return (folder : string) (row : PrecinctRow) : M W (PrecinctRow * result unit) :=
  let pdir := Dir o ++ [folder] in
  let ledger := pdir ++ ["ledger"; "ballots.ndjson"] in
  try! info := ChainInfo or e => (row, Err (Errorf "chain info: %w" [AErr e])) in
  let '(height, tip) := info in
  let row := MkRow (PrecinctID row) folder (ElectionID row) (Audit row) (Tally row) height
               (EncodeToString (bytes_of_string tip)) (Records row) (Verified row) false (SubmitMetrics row) in
  try! _ := WriteFile (pdir ++ ["close.json"]) (close_json height (CloseTipHash row)) or e => (row, Err e) in
  do! out := Runner [] (DemoBin o)
    ["sign-return"; path_text pdir; "--ledger"; path_text ledger; "--close-block"; Itoa height;
     "--tip-hash"; CloseTipHash row; "--key"; path_text (pdir ++ ["authority.key"]);
     "--out"; path_text (pdir ++ ["return.json"])] in
  match out.2 with
  | Some e => mret (row, Err (Errorf "sign-return: %w" [AErr e]))
  | None =>
      let counts := signedCounts out.1 in
      let row := MkRow (PrecinctID row) folder (ElectionID row) (Audit row) (Tally row) height
                   (CloseTipHash row) counts.1 counts.2 false (SubmitMetrics row) in
      do! _ := say "%s: return built, %d records, %d verified%s\n"
        [AStr folder; AInt counts.1; AInt counts.2;
         AStr (if counts.2 =? counts.1 then "" else " — NOT every record verified")] in
      mret (row, Ok tt)
  end.

(** [precinct]: one precinct, from its lifecycle to its transmitted return. *)
Definition precinct (folder : string) : M W (PrecinctRow * result unit) :=
  let pdir := Dir o ++ [folder] in
  do! id := precinctID folder in
  let row := MkRow id folder "" "" "" 0 "" 0 0 false None in
  try! election := read_header (pdir ++ ["header.json"]) or e => (row, Err e) in
  do! _ := say "%s (%s): lifecycle…\n" [AStr folder; AStr election] in
  do! life := Lifecycle folder (hooks_of pdir election) in
  let tally := life.1 in
  let row := MkRow id folder election "" tally 0 "" 0 0 false None in
  match life.2 with
  | Some e => mret (row, Err (Errorf "lifecycle: %w" [AErr e]))
  | None =>
      do! _ := (if String.eqb tally "published" then mret tt
                else say "%s: own PublishTally %s (tolerated after the pre-tally hook)\n" [AStr folder; AStr tally]) in
      do! metrics := read_metrics (pdir ++ ["submit-metrics.json"]) in
      do! audit := Verify folder in
      let row := MkRow id folder election audit.1 tally 0 "" 0 0 false metrics in
      match audit.2 with
      | Some e => mret (row, Err (Errorf "verify: %w" [AErr e]))
      | None =>
          try! _ := Stat (pdir ++ ["ledger"; "ballots.ndjson"])
            or e => (row, Err (Errorf "no ledger dump (the chain read-back failed; see journal.ndjson): %w" [AErr e])) in
          do! signed := sign_return folder row in
          match signed.2 with
          | Err e => mret (signed.1, Err e)
          | Ok _ =>
              try! _ := (if String.eqb (AttackScript o) "" then mret (Ok tt)
                         else script (AttackScript o) "return"
                                [path_text pdir; path_text (pdir ++ ["return.json"]);
                                 path_text (Dir o ++ ["national"])]) or e => (signed.1, Err e) in
              transmit folder (pdir ++ ["return.json"]) signed.1
          end
      end
  end.

(** [Precincts]: the precinct folders in name order. *)
Definition Precincts : M W (result (list string)) :=
  do! names := ReadDirFolders (Dir o) in
  mret (let? names := names in
        Ok (merge_sort str_le (filter (λ n, is_Some (precinctDir n)) names))).

(** The loop over the precincts: the rows so far, the last one of a precinct
    that failed. *)
Fixpoint precincts (fs : list string) (rows : list PrecinctRow) : M W (list PrecinctRow * result unit) :=
  match fs with
  | [] => mret (rows, Ok tt)
  | f :: fs =>
      do! p := precinct f in
      match p.2 with
      | Err e => mret (rows ++ [p.1], Err (Errorf "%s: %w (%s)" [AStr f; AErr e; AStr PartialRunAdvice]))
      | Ok _ => precincts fs (rows ++ [p.1])
      end
  end.

Definition empty_record : RunRecord := MkRecord (Dir o) (Attack o) (Distribution o) [] None None [] 0 None.

Definition with_rows (rows : list PrecinctRow) (rec : RunRecord) : RunRecord :=
  MkRecord (RDir rec) (RAttack rec) (RDistribution rec) rows (CanvassDoc rec) (CanvassPass rec)
    (FailedChecks rec) (ExitCode rec) (RError rec).

(** The national audit and its verdict. *)
Definition audit_canvass (rec : RunRecord) : M W (RunRecord * result Z) :=
  do! out := Runner [] (DemoBin o) ["audit-canvass"; path_text (Dir o); "--json"; "--out"; path_text (out_dir o)] in
  match audit_doc out.1 with
  | Ok (Some pass, checks) =>
      let failed := (filter (λ c, c.2 ≠ "pass") checks).*1 in
      let rec := MkRecord (RDir rec) (RAttack rec) (RDistribution rec) (Precincts_ rec) (Some out.1) (Some pass)
                   (FailedChecks rec ++ failed) (ExitCode rec) (RError rec) in
      do! _ := say "canvass %s\n" [AStr (if pass then "PASS" else "FAIL"); AStrs (FailedChecks rec)] in
      if negb (String.eqb (Attack o) "") && pass then
        do! _ := say "WARNING: attack %s was not detected by the canvass\n" [AStr (Attack o)] in
        mret (rec, Ok ExitPass)
      else if negb (String.eqb (Attack o) "") then mret (rec, Ok ExitPass)
      else if negb pass then mret (rec, Ok ExitFail)
      else mret (rec, Ok ExitPass)
  | _ =>
      mret (rec, Err (Errorf "audit-canvass produced no verdict: %v (output: %.200s)"
                        [AErr (default (Errorf "<nil>" []) out.2); AStr out.1]))
  end.

(** [run]: its record and the exit code, or why the run could not complete. *)
Definition run (rec : RunRecord) : M W (RunRecord * result Z) :=
  try! _ := Stat (Dir o ++ ["national"; "registry.json"])
    or e => (rec, Err (Errorf "%s has no national/registry.json (unfinished generation?): %w"
                         [AStr (path_text (Dir o)); AErr e])) in
  do! driven := GlobJSON returns_dir in
  if driven : bool then
    mret (rec, Err (Errorf "%s already holds returns: this generation was already driven; regenerate it"
                      [AStr (path_text returns_dir)]))
  else
  try! _ := MkdirAll returns_dir or e => (rec, Err e) in
  try! fs := Precincts or e => (rec, Err e) in
  match fs with
  | [] => mret (rec, Err (Errorf "%s holds no precinct-NN folders" [AStr (path_text (Dir o))]))
  | _ =>
      do! rows := precincts fs [] in
      let rec := with_rows rows.1 rec in
      match rows.2 with
      | Err e => mret (rec, Err e)
      | Ok _ =>
          try! _ := (if String.eqb (AttackScript o) "" then mret (Ok tt)
                     else script (AttackScript o) "national" [path_text (Dir o ++ ["national"])])
            or e => (rec, Err e) in
          do! _ := say "national canvass over %d precincts…\n" [AInt (Z.of_nat (length fs))] in
          audit_canvass rec
      end
  end.

(** [Run]: the exit code, and why where it is [ExitError]. *)
Definition Run : M W (Z * option goerr) :=
  try! _ := MkdirAll (out_dir o) or e => (ExitError, Some e) in
  do! out := run empty_record in
  let '(code, err) := match out.2 with Ok c => (c, None) | Err e => (ExitError, Some e) end in
  let rec := out.1 in
  let rec := MkRecord (RDir rec) (RAttack rec) (RDistribution rec) (Precincts_ rec) (CanvassDoc rec)
               (CanvassPass rec) (FailedChecks rec) code err in
  do! w := WriteFile (out_dir o ++ [RunFile]) (run_json rec) in
  match w, err with
  | Err e, None => mret (ExitError, Some e)
  | _, _ => mret (code, err)
  end.
End driver.
End Canvass.
