(* ===== verification/CanvassFacts.v ===== *)
(** * What a canvass run means

    The exit code says what happened, a generation is driven once, and the
    national audit is given exactly one return per precinct, each the one that
    its precinct signed. *)
From S2P Require Import Prelude Hex GoText Jobs Canvass.
From stdpp Require Import sorting.
#[local] Open Scope Z_scope.
Import GoText Canvass.

Module CanvassFacts.

(** ** Computations taken apart *)
Lemma mbind_inv {W A B} (c : M W A) (k : A → M W B) m m' b :
  mbind c k m = (m', Some b) ↔ ∃ m1 a, c m = (m1, Some a) ∧ k a m1 = (m', Some b).
Proof.
  unfold mbind. destruct (c m) as [m1 [a|]]; split.
  - intros Hk. by exists m1, a.
  - by intros (m2&a'&[= <- <-]&Hk).
  - done.
  - by intros (m2&a'&?&_).
Qed.

(** ** Where a computation writes *)
Definition frame {W} (P : path → Prop) (m m' : mach W) : Prop := ∀ q, ¬ P q → files m' !! q = files m !! q.

(** [c] writes only where [P] says, and what it returns meets [Q]. *)
Definition does {W A} (P : path → Prop) (c : M W A) (Q : A → Prop) : Prop :=
  ∀ m m' r, c m = (m', r) → frame P m m' ∧ ∀ a, r = Some a → Q a.

Abbreviation only P c := (does P c (λ _, True)).

Lemma does_weaken {W A} (P P' : path → Prop) (c : M W A) (Q : A → Prop) :
  (∀ q, P q → P' q) → does P c Q → does P' c Q.
Proof.
  intros HP Hc m m' r E. destruct (Hc m m' r E) as [Hf Hr]. split; [|done].
  intros q Hq. apply Hf. auto.
Qed.

Lemma does_bind {W A B} P (c : M W A) (k : A → M W B) R Q :
  does P c R → (∀ a, R a → does P (k a) Q) → does P (mbind c k) Q.
Proof.
  intros Hc Hk m m' r. unfold mbind. destruct (c m) as [m1 [a|]] eqn:E; destruct (Hc _ _ _ E) as [Hf Ha].
  - intros Hka. destruct (Hk a (Ha a eq_refl) _ _ _ Hka) as [Hf' Hr]. split; [|done].
    intros q Hq. rewrite Hf' by done. by apply Hf.
  - by intros [= <- <-].
Qed.

Lemma does_ret {W A} P (a : A) (Q : A → Prop) : Q a → does P (mret (W := W) a) Q.
Proof. intros Hq m m' r [= <- <-]. split; [done|]. by intros b [= <-]. Qed.

Lemma does_panic {W A} P (Q : A → Prop) : does P (panic (W := W)) Q.
Proof. intros m m' r [= <- <-]. done. Qed.

Lemma only_pure {W A} P (c : M W A) : (∀ m, files (c m).1 = files m) → only P c.
Proof. intros Hc m m' r E. split; [|done]. intros q _. by rewrite <-(Hc m), E. Qed.

Create HintDb canvass.

Definition under (p q : path) : Prop := ∃ n rest, q = p ++ n :: rest.

Section facts.
Context {W : Type} `{Host W} `{Codec} `{RunCodec} (o : Options).

Lemma only_say P f args : only P (say (W := W) f args).
Proof. by apply only_pure. Qed.

Lemma only_read P p : only P (ReadFile (W := W) p).
Proof. by apply only_pure. Qed.

Lemma only_stat P p : only P (Stat (W := W) p).
Proof. by apply only_pure. Qed.

Lemma only_glob P p : only P (GlobJSON (W := W) p).
Proof. by apply only_pure. Qed.

Lemma only_mkdir P p : only P (MkdirAll p).
Proof. apply only_pure. intros m. unfold MkdirAll. by destruct (os_mkdir _ _). Qed.

Lemma only_write (P : path → Prop) p s : P p → only P (WriteFile p s).
Proof.
  intros Hp m m' r. unfold WriteFile.
  destruct (os_write _ _ _) as [[e x]|]; intros [= <- <-]; (split; [|done]); intros q Hq; cbn.
  - rewrite lookup_partial_alter_ne; [done|]. by intros ->.
  - rewrite lookup_insert_ne; [done|]. by intros ->.
Qed.

Lemma write_ok p s m m' x : WriteFile p s m = (m', Some (Ok x)) → files m' !! p = Some (Text s).
Proof. unfold WriteFile. destruct (os_write _ _ _) as [[e y]|]; [done|]. intros [= <- <-]. cbn. by rewrite lookup_insert_eq. Qed.

Lemma read_ok p m m' s : ReadFile (W := W) p m = (m', Some (Ok s)) → m' = m ∧ files m !! p = Some (Text s).
Proof. unfold ReadFile. intros [= <- E]. split; [done|]. by destruct (files m !! p) as [[]|]; simplify_eq. Qed.

(** ** Children that mind their own folder *)

(** Each operation writes only in the folder it works on, and the national
    audit only its two reports. *)
Record tidy : Prop := {
  tidy_lifecycle : ∀ f, only (under (Dir o ++ [f])) (Lifecycle f (MkHooks (mret (Ok tt)) None false));
  tidy_verify : ∀ f, only (under (Dir o ++ [f])) (Verify f);
  tidy_chain : only (λ _, False) ChainInfo;
  tidy_sign : ∀ f args, only (under (Dir o ++ [f]))
                (Runner [] (DemoBin o) ("sign-return" :: path_text (Dir o ++ [f]) :: args));
  tidy_audit : ∀ args, only (λ q, q = out_dir o ++ ["canvass.json"] ∨ q = out_dir o ++ ["canvass-checks.csv"])
                 (Runner [] (DemoBin o) ("audit-canvass" :: args))
}.

(** No attack: no script runs. *)
Definition no_scripts : Prop := AttackScript o = "" ∧ PreCloseScript o = "" ∧ PreTallyScript o = "".

Definition sent_to (d : string) : path := returns_dir o ++ [("p" +:+ d) +:+ ".json"].

(** What one precinct may write. *)
Definition of_precinct (f : string) (q : path) : Prop :=
  under (Dir o ++ [f]) q ∨ ∃ d, precinctDir f = Some d ∧ q = sent_to d.

#[local] Hint Resolve only_say only_read only_stat only_glob only_mkdir : canvass.

(** One call after another. *)
Ltac seq := eapply does_bind; [solve [eauto with canvass]|intros ? _].

Lemma only_header P p : only P (read_header (W := W) p).
Proof. unfold read_header. seq. by apply does_ret. Qed.

Lemma only_metrics P p : only P (read_metrics (W := W) p).
Proof. unfold read_metrics. seq. by apply does_ret. Qed.
#[local] Hint Resolve only_header only_metrics : canvass.

Lemma under_in p n rest : under p ((p ++ [n]) ++ rest) ∨ False.
Proof. left. exists n, rest. by rewrite <-app_assoc. Qed.

Lemma does_sign f row :
  tidy → does (of_precinct f) (sign_return o f row) (λ x, PrecinctID x.1 = PrecinctID row).
Proof.
  intros [_ _ Hc Hs _]. unfold sign_return.
  eapply does_bind; [apply (does_weaken (λ _, False)); [done|apply Hc]|].
  intros [[height tip]|e] _; [|by apply does_ret].
  eapply does_bind; [apply only_write; left; by exists "close.json", []|].
  intros [[]|e] _; [|by apply does_ret].
  eapply does_bind; [apply (does_weaken (under (Dir o ++ [f]))); [by left|apply Hs]|].
  intros [out [e|]] _; [by apply does_ret|]. seq. by apply does_ret.
Qed.

Lemma only_transmit f d ret row :
  precinctDir f = Some d → PrecinctID row = "p" +:+ d → only (of_precinct f) (transmit o f ret row).
Proof.
  intros Hd Hid. unfold transmit. seq. destruct a as [raw|e].
  - eapply does_bind; [apply only_write; right; exists d; by rewrite Hid|].
    intros [[]|e] _; by apply does_ret.
  - destruct (_ && _); [|by apply does_ret]. seq. by apply does_ret.
Qed.

Lemma only_precinct f : tidy → no_scripts → only (of_precinct f) (precinct o f).
Proof.
  intros Ht (Ea&Ec&Et). pose proof Ht as [Hl Hv _ _ _].
  unfold precinct, precinctID, hooks_of. rewrite Ea, Ec, Et. cbn [String.eqb].
  destruct (precinctDir f) as [d|] eqn:Ed; [|apply (does_bind _ _ _ (λ _, False)); [apply does_panic|done]].
  eapply does_bind; [by apply (does_ret _ _ (λ id, id = "p" +:+ d))|]. intros id ->.
  seq. destruct a as [election|e]; [|by apply does_ret]. seq.
  eapply does_bind; [apply (does_weaken (under (Dir o ++ [f]))); [by left|apply Hl]|].
  intros [tally [e|]] _; [by apply does_ret|].
  apply (does_bind _ _ _ (λ _, True)); [destruct (String.eqb _ _); [by apply does_ret|apply only_say]|]. intros ? _. seq.
  eapply does_bind; [apply (does_weaken (under (Dir o ++ [f]))); [by left|apply Hv]|].
  intros [audit [e|]] _; [by apply does_ret|]. seq. destruct a2 as [|e]; [|by apply does_ret].
  eapply does_bind; [by apply does_sign|]. intros [row [|e]] Hid; [|by apply does_ret].
  eapply does_bind; [by apply (does_ret _ _ (λ x, x = Ok tt))|]. intros ? ->.
  by eapply only_transmit.
Qed.

(** ** One precinct *)

(** A row whose return is in the national folder, as the precinct signed it. *)
Definition transmitted (m : mach W) (f : string) (row : PrecinctRow) : Prop :=
  Folder row = f ∧ Copied row = true ∧ ∃ d raw, precinctDir f = Some d ∧ PrecinctID row = "p" +:+ d ∧
    files m !! sent_to d = Some (Text raw) ∧ files m !! (Dir o ++ [f; "return.json"]) = Some (Text raw).

Lemma not_under f d : precinctDir f = Some d → sent_to d ≠ Dir o ++ [f; "return.json"].
Proof.
  unfold sent_to, returns_dir. rewrite <-app_assoc. intros Hd E. apply app_inv_head in E. cbn in E.
  simplify_eq.
Qed.

Lemma transmit_ok f d row m m' row' :
  AttackScript o = "" → precinctDir f = Some d → PrecinctID row = "p" +:+ d → Folder row = f →
  transmit o f ((Dir o ++ [f]) ++ ["return.json"]) row m = (m', Some (row', Ok tt)) → transmitted m' f row'.
Proof.
  intros Ea Hd Hid Hf. unfold transmit. rewrite mbind_inv. intros (m1&[raw|e]&Hr&Hk).
  - apply read_ok in Hr as [-> Hraw]. rewrite mbind_inv in Hk. destruct Hk as (m2&[[]|e]&Hw&Hk); [|done].
    injection Hk as <- <-. split; [done|]. split; [done|]. exists d, raw. split_and!; [done|done| |].
    + apply write_ok in Hw. by rewrite Hid in Hw.
    + rewrite <-app_assoc in Hraw. cbn in Hraw. rewrite <-Hraw.
      destruct (only_write (λ q, q = sent_to d) (sent_to d) raw eq_refl m m2 (Some (Ok tt))) as [Hfr _].
      { by rewrite <-Hw, Hid. }
      apply Hfr. intros E. by apply (not_under f d).
  - rewrite Ea, andb_false_r in Hk. done.
Qed.

Lemma sign_ok f row m m' row' :
  sign_return o f row m = (m', Some (row', Ok tt)) → Folder row' = f ∧ PrecinctID row' = PrecinctID row.
Proof.
  unfold sign_return. rewrite mbind_inv. intros (m1&[[height tip]|e]&_&Hk); [|done].
  rewrite mbind_inv in Hk. destruct Hk as (m2&[[]|e]&_&Hk); [|done].
  rewrite mbind_inv in Hk. destruct Hk as (m3&[out [e|]]&_&Hk); [done|]. cbn in Hk.
  by injection Hk as _ <-.
Qed.

Lemma precinct_ok f m m' row :
  no_scripts → precinct o f m = (m', Some (row, Ok tt)) → transmitted m' f row.
Proof.
  intros (Ea&Ec&Et). unfold precinct, precinctID, hooks_of. rewrite Ea, Ec, Et. cbn [String.eqb].
  destruct (precinctDir f) as [d|] eqn:Ed; [|done].
  rewrite mbind_inv. intros (m0&id&[= <- <-]&Hk).
  rewrite mbind_inv in Hk. destruct Hk as (m1&[election|e]&_&Hk); [|done].
  rewrite mbind_inv in Hk. destruct Hk as (m2&?&_&Hk).
  rewrite mbind_inv in Hk. destruct Hk as (m3&[tally [e|]]&_&Hk); [done|]. cbn [fst snd] in Hk.
  rewrite mbind_inv in Hk. destruct Hk as (m4&?&_&Hk).
  rewrite mbind_inv in Hk. destruct Hk as (m5&metrics&_&Hk).
  rewrite mbind_inv in Hk. destruct Hk as (m6&[audit [e|]]&_&Hk); [done|]. cbn [fst snd] in Hk.
  rewrite mbind_inv in Hk. destruct Hk as (m7&[[]|e]&_&Hk); [|done].
  rewrite mbind_inv in Hk. destruct Hk as (m8&[row1 [[]|e]]&Hs&Hk); [|done].
  apply sign_ok in Hs as [Hf Hid]. cbn [fst snd] in Hk.
  rewrite mbind_inv in Hk. destruct Hk as (m9&?&[= <- <-]&Hk). by eapply transmit_ok.
Qed.

(** ** All of them *)
Lemma has_prefix_drop s p : has_prefix s p = true → s = p +:+ str_drop (String.length p) s.
Proof.
  revert s. induction p as [|c p IH]; intros [|a s]; cbn; try done.
  intros [->%bool_decide_eq_true Hs]%andb_true_iff.
  change (String a s = String a (p +:+ str_drop (String.length p) s)). f_equal. by apply IH.
Qed.

Lemma precinctDir_name f d : precinctDir f = Some d → f = precinct_prefix +:+ d.
Proof.
  unfold precinctDir. destruct (has_prefix f precinct_prefix) eqn:Ep; [|done].
  destruct (_ && _); [|done]. intros [= <-]. by apply has_prefix_drop.
Qed.

Lemma string_app_inj_r (a b c : string) : a +:+ c = b +:+ c → a = b.
Proof.
  revert b. induction a as [|x a IH]; intros [|y b] E; try done.
  - apply (f_equal String.length) in E. rewrite !string_length_app in E. cbn in E. lia.
  - apply (f_equal String.length) in E. rewrite !string_length_app in E. cbn in E. lia.
  - cbn in E. injection E as -> E. f_equal. by apply IH.
Qed.

Lemma sent_to_inj d d' : sent_to d = sent_to d' → d = d'.
Proof.
  unfold sent_to. intros E%app_inv_head. assert (E' : ("p" +:+ d) +:+ ".json" = ("p" +:+ d') +:+ ".json") by congruence.
  apply string_app_inj_r in E'. by apply string_app_inj in E'.
Qed.

Lemma not_national f d : precinctDir f = Some d → f ≠ "national".
Proof. by intros ->%precinctDir_name. Qed.

(** A precinct leaves the returns of the others alone. *)
Lemma other_precinct f g df d :
  precinctDir f = Some df → precinctDir g = Some d → f ≠ g →
  ¬ of_precinct f (sent_to d) ∧ ¬ of_precinct f (Dir o ++ [g; "return.json"]).
Proof.
  intros Hf Hg Hne. pose proof (not_national _ _ Hf) as Hfn. pose proof (not_national _ _ Hg) as Hgn. split.
  - intros [(n&rest&E)|(d'&Hd'&E)].
    + unfold sent_to, returns_dir in E. rewrite <-!app_assoc in E. apply app_inv_head in E. cbn in E. congruence.
    + apply sent_to_inj in E as <-. apply Hne. by rewrite (precinctDir_name _ _ Hd'), (precinctDir_name _ _ Hg).
  - intros [(n&rest&E)|(d'&Hd'&E)].
    + rewrite <-!app_assoc in E. apply app_inv_head in E. cbn in E. congruence.
    + unfold sent_to, returns_dir in E. rewrite <-app_assoc in E. apply app_inv_head in E. cbn in E. congruence.
Qed.

(** After every precinct: its row, its return in the national folder, and
    nothing written outside the precincts and their returns. *)
Lemma precincts_ok fs rows m m' rows' :
  tidy → no_scripts → NoDup fs → Forall (λ f, is_Some (precinctDir f)) fs →
  precincts o fs rows m = (m', Some (rows', Ok tt)) →
  ∃ new, rows' = rows ++ new ∧ Forall2 (transmitted m') fs new ∧
    frame (λ q, ∃ f, f ∈ fs ∧ of_precinct f q) m m'.
Proof.
  intros Ht Hn. revert rows m. induction fs as [|f fs IH]; intros rows m Hnd Hd; cbn [precincts].
  { intros [= <- <-]. exists []. split_and!; [by rewrite app_nil_r|constructor|done]. }
  apply NoDup_cons in Hnd as [Hf Hnd]. apply Forall_cons in Hd as [[d Hfd] Hd].
  rewrite mbind_inv. intros (m1&[row [[]|e]]&Hp&Hk); [|done]. cbn [fst snd] in Hk.
  destruct (only_precinct f Ht Hn _ _ _ Hp) as [Hfr _]. apply precinct_ok in Hp; [|done].
  destruct (IH _ _ Hnd Hd Hk) as (new&->&Hnew&Hfr').
  exists (row :: new). split_and!; [by rewrite <-app_assoc| |].
  - constructor; [|done]. destruct Hp as (H1'&H2'&d'&raw&Hd'&Hid&Hs&Hr). assert (d' = d) as -> by congruence.
    split; [done|]. split; [done|]. exists d, raw. split; [done|]. split; [done|].
    assert (Ho : ∀ g, g ∈ fs → ¬ of_precinct g (sent_to d) ∧ ¬ of_precinct g (Dir o ++ [f; "return.json"])).
    { intros g Hg. rewrite Forall_forall in Hd. destruct (Hd g Hg) as [dg Hdg].
      apply (other_precinct g f dg d); [done|done|]. by intros ->. }
    rewrite !Hfr'; [by split| |]; intros (g&Hg&Hq); by destruct (Ho g Hg).
  - intros q Hq. rewrite Hfr', Hfr; [done| |].
    + intros Hq'. apply Hq. exists f. split; [set_solver|done].
    + intros (g&Hg&Hq'). apply Hq. exists g. split; [set_solver|done].
Qed.

(** ** The whole run *)

(** The precinct folders, in name order. *)
Definition precinct_names (m : mach W) : list string :=
  merge_sort str_le (filter (λ n, is_Some (precinctDir n)) (subfolders (Dir o) m)).

Lemma subfolders_NoDup p (m : mach W) : NoDup (subfolders p m).
Proof.
  unfold subfolders. set (g := λ q : path, n ← last q; if decide (q = p ++ [n]) then Some n else None).
  assert (Hg : ∀ q n, g q = Some n → q = p ++ [n]).
  { intros q n. unfold g. destruct (last q) as [x|]; [|done]. cbn. case_decide; [|done]. by intros [= <-]. }
  pose proof (NoDup_elements (folders m)) as Hn. revert Hn.
  induction (elements (folders m)) as [|q l IH]; intros Hn; [constructor|].
  apply NoDup_cons in Hn as [Hq Hn]. change (NoDup (match g q with Some y => y :: omap g l | None => omap g l end)).
  destruct (g q) as [n|] eqn:E; [|by apply IH]. constructor; [|by apply IH].
  intros Hin. apply list_elem_of_omap in Hin as (q'&Hq'&E'). apply Hg in E, E'. by subst.
Qed.

Lemma precinct_names_ok m : NoDup (precinct_names m) ∧ Forall (λ f, is_Some (precinctDir f)) (precinct_names m).
Proof.
  assert (Hp : precinct_names m ≡ₚ filter (λ n, is_Some (precinctDir n)) (subfolders (Dir o) m))
    by apply merge_sort_Permutation.
  split.
  - rewrite Hp. apply NoDup_filter, subfolders_NoDup.
  - rewrite Hp. apply Forall_forall. intros f Hf. by apply list_elem_of_filter in Hf as [Hf _].
Qed.

Lemma Precincts_names m m' fs : Precincts o m = (m', Some (Ok fs)) → m' = m ∧ fs = precinct_names m.
Proof.
  unfold Precincts. rewrite mbind_inv. intros (m1&r&Hr&Hk). unfold ReadDirFolders in Hr.
  injection Hr as <- <-. injection Hk as <- Hk. by destruct (os_readdir _ _); cbn in Hk; simplify_eq.
Qed.

(** What the audit's document decides. *)
Definition verdict_of (pass : bool) : Z :=
  if negb (String.eqb (Attack o) "") then ExitPass else if pass then ExitPass else ExitFail.

Definition audit_files (q : path) : Prop :=
  q = out_dir o ++ ["canvass.json"] ∨ q = out_dir o ++ ["canvass-checks.csv"].

(** The record of a run whose audit produced a verdict. *)
Definition decided (rec rec' : RunRecord) (c : Z) : Prop :=
  Precincts_ rec' = Precincts_ rec ∧
  ∃ doc pass checks, audit_doc doc = Ok (Some pass, checks) ∧ c = verdict_of pass ∧
    CanvassDoc rec' = Some doc ∧ CanvassPass rec' = Some pass ∧
    FailedChecks rec' = FailedChecks rec ++ (filter (λ c, c.2 ≠ "pass") checks).*1.

Lemma audit_ok rec m m' rec' c :
  audit_canvass o rec m = (m', Some (rec', Ok c)) → decided rec rec' c ∧ (tidy → frame audit_files m m').
Proof.
  unfold audit_canvass. rewrite mbind_inv. intros (m1&[doc err]&Hr&Hk). cbn [fst snd] in Hk.
  destruct (audit_doc doc) as [[[pass|] checks]|e] eqn:Ed; [|done..].
  assert (E : files m' = files m1 ∧ c = verdict_of pass ∧
            rec' = MkRecord (RDir rec) (RAttack rec) (RDistribution rec) (Precincts_ rec) (Some doc) (Some pass)
              (FailedChecks rec ++ (filter (λ c, c.2 ≠ "pass") checks).*1) (ExitCode rec) (RError rec)).
  { unfold verdict_of. unfold mbind, say, mret in Hk.
    destruct (negb (String.eqb (Attack o) "")), pass; cbn in Hk; injection Hk as <- <- <-; done. }
  destruct E as (Hfiles&->&->). split; [split; [done|by exists doc, pass, checks]|].
  intros [_ _ _ _ Hau] q Hq. rewrite Hfiles. by apply (Hau _ _ _ _ Hr).
Qed.

Definition not_driven (m : mach W) : Prop := ∀ q, q ∈ dom (files m) ∪ folders m → json_in (returns_dir o) q = false.

Lemma glob_driven m m' b : GlobJSON (returns_dir o) m = (m', Some b) → m' = m ∧ (b = false ↔ not_driven m).
Proof.
  intros [= <- <-]. split; [done|]. rewrite <-not_true_iff_false, existsb_exists. unfold not_driven. split.
  - intros Hn q Hq. apply not_true_iff_false. intros Hj. apply Hn. exists q.
    split; [by apply list_elem_of_In, elem_of_elements|done].
  - intros Hn (q&Hq&Hj). rewrite Hn in Hj; [done|]. by apply elem_of_elements, list_elem_of_In.
Qed.

Lemma stat_ok p m m' x : Stat (W := W) p m = (m', Some (Ok x)) → m' = m ∧ (is_Some (files m !! p) ∨ p ∈ folders m).
Proof.
  unfold Stat. intros [= <- E]. split; [done|]. destruct (_ || _) eqn:Eb; [|done].
  apply orb_true_iff in Eb as [Eb%bool_decide_eq_true|Eb%bool_decide_eq_true]; auto.
Qed.

(** A run that reached a verdict. *)
Lemma run_decided rec m m' rec' c :
  run o rec m = (m', Some (rec', Ok c)) → ∃ rows, decided (with_rows rows rec) rec' c.
Proof.
  unfold run. rewrite mbind_inv. intros (m0&[[]|e]&_&Hk); [|done].
  rewrite mbind_inv in Hk. destruct Hk as (m1&b&_&Hk). destruct b; [done|].
  rewrite mbind_inv in Hk. destruct Hk as (m2&[[]|e]&_&Hk); [|done].
  rewrite mbind_inv in Hk. destruct Hk as (m3&[[|f fs]|e]&_&Hk); [done| |done].
  rewrite mbind_inv in Hk. destruct Hk as (m4&[rows [[]|e]]&_&Hk); [|done].
  cbn [fst snd] in Hk. rewrite mbind_inv in Hk. destruct Hk as (m5&[[]|e]&_&Hk); [|done].
  rewrite mbind_inv in Hk. destruct Hk as (m6&?&_&Hk). apply audit_ok in Hk as [Hd _]. by exists rows.
Qed.

(** One that never starts: no registry, or returns of an earlier run. *)
Definition refused (m : mach W) : Prop :=
  (files m !! (Dir o ++ ["national"; "registry.json"]) = None ∧ Dir o ++ ["national"; "registry.json"] ∉ folders m) ∨
  ¬ not_driven m.

Lemma run_refused rec m m' r : refused m → run o rec m = (m', r) → m' = m ∧ ∃ e, r = Some (rec, Err e).
Proof.
  intros Hr. unfold run, mbind at 1. destruct (Stat _ m) as [m1 s] eqn:Es.
  assert (Hm1 : m1 = m) by (by injection Es as <- _). subst m1.
  assert (Hs : ∃ s', s = Some s') by (injection Es as <-; by eexists). destruct Hs as [[[]|e] ->].
  2: { intros [= <- <-]. split; [done|]. by eexists. }
  apply stat_ok in Es as [_ Hreg]. unfold mbind at 1. destruct (GlobJSON _ m) as [m1 g] eqn:Eg.
  assert (Hg : ∃ b, g = Some b) by (injection Eg as _ <-; by eexists). destruct Hg as [b ->].
  apply glob_driven in Eg as [-> Eg]. destruct b.
  - intros [= <- <-]. split; [done|]. by eexists.
  - destruct Hr as [[Hn Hf]|Hn]; [destruct Hreg as [Hi|Hi]; [rewrite Hn in Hi; by destruct Hi|done]|].
    destruct Hn. by apply Eg.
Qed.

(** A run whose verdict was reached, without attacks. *)
Lemma run_ok rec m m' rec' c :
  tidy → no_scripts → run o rec m = (m', Some (rec', Ok c)) →
  not_driven m ∧ ∃ m1 m2, m1 = (MkdirAll (returns_dir o) m).1 ∧ precinct_names m1 ≠ [] ∧
    Forall2 (transmitted m2) (precinct_names m1) (Precincts_ rec') ∧
    frame (λ q, ∃ f, f ∈ precinct_names m1 ∧ of_precinct f q) m m2 ∧ frame audit_files m2 m'.
Proof.
  intros Ht Hn. pose proof Hn as (Ea&_&_). unfold run. rewrite Ea, mbind_inv.
  intros (m0&[[]|e]&Hs&Hk); [|done]. apply stat_ok in Hs as [-> _].
  rewrite mbind_inv in Hk. destruct Hk as (m0&b&Hg&Hk). apply glob_driven in Hg as [-> Hg].
  destruct b; [done|]. split; [by apply Hg|].
  rewrite mbind_inv in Hk. destruct Hk as (m1&[[]|e]&Hm&Hk); [|done].
  rewrite mbind_inv in Hk. destruct Hk as (m1'&[fs|e]&Hp&Hk); [|done]. apply Precincts_names in Hp as [-> ->].
  assert (Hm1 : m1 = (MkdirAll (returns_dir o) m).1) by (by rewrite Hm).
  destruct (only_mkdir (λ _, False) _ _ _ _ Hm) as [Hf1 _].
  destruct (precinct_names_ok m1) as [Hnd Hd].
  destruct (precinct_names m1) as [|f fs] eqn:Efs; [done|].
  rewrite mbind_inv in Hk. destruct Hk as (m2&[rows [[]|e]]&Hps&Hk); [|done].
  apply precincts_ok in Hps as (new&->&Hnew&Hfr); [|done..]. cbn [fst snd app] in Hk.
  cbn [String.eqb] in Hk. rewrite mbind_inv in Hk. destruct Hk as (m3&?&[= <- <-]&Hk).
  rewrite mbind_inv in Hk. destruct Hk as (m3&?&[= <- _]&Hk).
  apply audit_ok in Hk as ((Hrows&_)&Hfa). exists m1, m2. rewrite Efs, Hrows. split_and!; try done.
  - intros q Hq. rewrite Hfr by done. apply Hf1. by intros [].
  - intros q Hq. by rewrite (Hfa Ht q Hq).
Qed.

Definition run_file : path := out_dir o ++ [RunFile].

(** the exit code of a canvass run says what happened. It is 2 exactly when
    the run reports an error; without one, the run's own record is on disk with
    the code, and the code is the audit document's verdict: 0 for a pass or for
    any verdict of an attack run, 1 for a clean run that failed. Without the
    generator's registry, or where returns of an earlier run exist, nothing is
    called and nothing but the record is written. *)
Theorem canvass_exit_codes m m' code err :
  Run o m = (m', Some (code, err)) →
  (code = ExitError ↔ err ≠ None) ∧
  (err = None → ∃ rec rows, files m' !! run_file = Some (Text (run_json rec)) ∧
     decided (with_rows rows (empty_record o)) rec code ∧ ExitCode rec = code ∧ RError rec = None) ∧
  (refused (MkdirAll (out_dir o) m).1 →
     code = ExitError ∧ host m' = host m ∧ log m' = log m ∧ ∀ q, q ≠ run_file → files m' !! q = files m !! q).
Proof.
  unfold Run. rewrite mbind_inv. intros (m1&[[]|e]&Hm&Hk).
  2: { injection Hk as <- <- <-. split; [done|]. split; [done|]. intros _. unfold MkdirAll in Hm.
       destruct (os_mkdir _ _); [|done]. by injection Hm as <-. }
  assert (Hm1 : files m1 = files m ∧ host m1 = host m ∧ log m1 = log m ∧ (MkdirAll (out_dir o) m).1 = m1).
  { rewrite Hm. unfold MkdirAll in Hm. destruct (os_mkdir _ _); [done|]. by injection Hm as <-. }
  destruct Hm1 as (Hf1&Hh1&Hl1&->).
  rewrite mbind_inv in Hk. destruct Hk as (m2&[rec [c|e]]&Hrun&Hk); cbn [fst snd] in Hk;
    rewrite mbind_inv in Hk; destruct Hk as (m3&w&Hw&Hk).
  - assert (Hc : c = ExitPass ∨ c = ExitFail).
    { apply run_decided in Hrun as (rows&_&doc&pass&checks&_&->&_). unfold verdict_of.
      destruct (negb _), pass; auto. }
    assert (Hr2 : refused m1 → False).
    { intros Hr. by apply (run_refused _ _ _ _ Hr) in Hrun as (_&e&?). }
    destruct w as [[]|e]; injection Hk as <- <- <-.
    + split; [by destruct Hc as [-> | ->]|]. split; [|by intros ?%Hr2].
      intros _. apply run_decided in Hrun as (rows&Hp&doc&pass&checks&H1'&H2'&H3'&H4'&H5').
      eexists _, rows. split; [by eapply write_ok|]. split; [|done]. split; [done|by exists doc, pass, checks].
    + split; [done|]. split; [done|]. by intros ?%Hr2.
  - assert (E : m3 = m' ∧ code = ExitError ∧ err = Some e) by (by destruct w; injection Hk as <- <- <-).
    destruct E as (->&->&->). split; [done|]. split; [done|]. intros Hr. split; [done|].
    apply (run_refused _ _ _ _ Hr) in Hrun as [-> _].
    destruct (only_write (λ q, q = run_file) _ _ eq_refl _ _ _ Hw) as [Hfr _].
    assert (Hhl : host m' = host m1 ∧ log m' = log m1).
    { unfold WriteFile in Hw. destruct (os_write _ _ _) as [[]|]; by injection Hw as <- <-. }
    destruct Hhl as [-> ->]. split_and!; [done|done|]. intros q Hq. by rewrite Hfr, Hf1.
Qed.

(** The disk once the driver has made its folders. *)
Definition prepared (m : mach W) : mach W := (MkdirAll (returns_dir o) (MkdirAll (out_dir o) m).1).1.

(** C23: where every child process minds its own folder and no attack is
    mounted, a run that reaches a verdict has audited exactly one return per
    precinct: the precinct folders, in name order, are the rows of the record;
    each return in the national folder is byte for byte the one its precinct
    signed; and there is no other. *)
Theorem canvass_audits_signed_returns m m' code :
  tidy → no_scripts → out_dir o ≠ returns_dir o →
  Run o m = (m', Some (code, None)) →
  precinct_names (prepared m) ≠ [] ∧
  (∃ rec, files m' !! run_file = Some (Text (run_json rec)) ∧
     Forall2 (transmitted m') (precinct_names (prepared m)) (Precincts_ rec)) ∧
  ∀ q, is_Some (files m' !! q) → json_in (returns_dir o) q = true →
    ∃ f d, f ∈ precinct_names (prepared m) ∧ precinctDir f = Some d ∧ q = sent_to d.
Proof.
  intros Ht Hn Hout. unfold Run. rewrite mbind_inv. intros (m1&[[]|e]&Hm&Hk); [|done].
  assert (Hm1 : (MkdirAll (out_dir o) m).1 = m1) by (by rewrite Hm). unfold prepared. rewrite Hm1.
  rewrite mbind_inv in Hk. destruct Hk as (m2&[rec [c|e]]&Hrun&Hk); cbn [fst snd] in Hk;
    rewrite mbind_inv in Hk; destruct Hk as (m3&w&Hw&Hk); [|by destruct w].
  destruct w as [[]|e]; [|done]. injection Hk as <- <-.
  apply (run_ok _ _ _ _ _ Ht Hn) in Hrun as (Hnd&m0&m2'&->&Hne&Hrows&Hfr&Hfa).
  destruct (only_write (λ q, q = run_file) _ _ eq_refl _ _ _ Hw) as [Hfw _].
  assert (Hlast : ∀ p n x, n ≠ x → Dir o ++ p ++ [n] ≠ out_dir o ++ [x]).
  { intros p n x Hnx E. rewrite app_assoc in E. apply app_inj_tail in E as [_ E]. done. }
  assert (Hret : ∀ n x, returns_dir o ++ [n] ≠ out_dir o ++ [x]).
  { intros n x E. apply app_inj_tail in E as [E _]. done. }
  assert (Hsame : ∀ q, (∀ x, q ≠ out_dir o ++ [x]) → files m3 !! q = files m2' !! q).
  { intros q Hq. rewrite Hfw by apply Hq. apply Hfa. intros [E|E]; by apply Hq in E. }
  split; [done|]. split.
  - eexists. split; [by eapply write_ok|]. cbn. eapply Forall2_impl; [exact Hrows|].
    intros f row (H1'&H2'&d&raw&Hd&Hid&Hs&Hr). split; [done|]. split; [done|]. exists d, raw.
    split_and!; [done|done| |].
    + rewrite Hsame; [done|]. intros x. apply Hret.
    + rewrite Hfw, Hfa; [done| |]; [intros [E|E]|intros E]; by apply (Hlast [f] "return.json") in E.
  - intros q Hq Hj. 
    assert (Hq' : ∃ n, q = returns_dir o ++ [n]).
    { unfold json_in in Hj. destruct (last q) as [n|]; [|done]. apply andb_true_iff in Hj as [Hj%bool_decide_eq_true _].
      by exists n. }
    destruct Hq' as [n Hqn]. rewrite Hsame in Hq by (rewrite Hqn; intros x; apply Hret).
    destruct (decide (Exists (λ f, sent_to <$> precinctDir f = Some q) (precinct_names (MkdirAll (returns_dir o) m1).1)))
      as [Hex|Hno].
    { apply Exists_exists in Hex as (f&Hf&Hd). apply fmap_Some in Hd as (d&Hd&Hqd). by exists f, d. }
    exfalso. rewrite Hfr in Hq.
    + specialize (Hnd q). rewrite Hnd in Hj; [done|]. apply elem_of_union_l. by apply elem_of_dom.
    + intros (f&Hf&[(x&rest&E)|(d&Hd&E)]).
      * rewrite Hqn in E. unfold returns_dir in E. rewrite <-!app_assoc in E. apply app_inv_head in E. cbn in E.
        injection E as Ef _. destruct (precinct_names_ok (MkdirAll (returns_dir o) m1).1) as [_ Hall].
        rewrite Forall_forall in Hall. destruct (Hall f Hf) as [d Hd]. by apply (not_national f d).
      * apply Hno. apply Exists_exists. exists f. split; [done|]. by rewrite Hd, E.
Qed.
End facts.
End CanvassFacts.
