(* ===== verification/Server.v ===== *)
(** * The console's request handlers

    [saksi-campaign/server.go], with [handleFault] and [handleNetworkReset]:
    what each request checks, in order, before it starts a phase, a job, or
    arms a fault. A handler decides in one go here: the claim it ends with is
    [Exclusion.claim], whose interleavings are that file's subject. *)
From S2P Require Import Prelude GoText Config Auth Jobs RunStore Gates Exclusion Scenarios.
From S2P Require Import Journal Resume Ceremony.
From Stdlib Require Import Ascii.
#[local] Open Scope Z_scope.
Import GoText.

Module Server.

(** What a request starts. *)
Inductive work :=
| WGenerate (c : Config.ElectionConfig)
| WRunAll (c : Config.ElectionConfig)
| WSubmit (c : Config.ElectionConfig)
| WVerify (c : Config.ElectionConfig)
| WScenarios (list : list string)
| WCeremonyStart (c : Config.ElectionConfig)
| WCeremonySubmit (c : Config.ElectionConfig) (trustee : string)
| WCeremonyPublish (c : Config.ElectionConfig)
| WStagedAttack (c : Config.ElectionConfig) (scenario : string)
| WVerifyOnly (c : Config.ElectionConfig)
| WResume (c : Config.ElectionConfig)
| WLadder
| WReset (voters positions : Z).

(** A response: refused with a reason, or accepted with the run's or job's id
    (and the resume plan). *)
Inductive reply :=
| Refused (code : Z) (why : goerr)
| Accepted (code : Z) (id : string) (plan : option Resume.resumePlan).

(** [chk A]: a value, or the refusal that ends the handler. *)
Definition chk (A : Type) : Type := (Z * goerr) + A.

Definition cbind {A B} (m : chk A) (k : A → chk B) : chk B :=
  match m with inl e => inl e | inr a => k a end.

Notation "'let&' x ':=' m 'in' k" := (cbind m (fun x => k))
  (at level 10, x binder, m at level 100, k at level 200).

Definition need (b : bool) (code : Z) (why : goerr) : chk unit := if b then inr tt else inl (code, why).

Definition answer_of {A} (code : Z) (r : result A) : chk A :=
  match r with Ok a => inr a | Err e => inl (code, e) end.

Definition say (s : string) : goerr := Errorf s [].

(** The run store, the journals' readable events, the network's locks. *)
Record world := MkWorld {
  net : Exclusion.server; runs : RunStore.store; journals : gmap string (list Resume.event)
}.

Section server.
Context `{JobStamp} (paused : string → option string).
Context (h : Gates.host) (fabric : bool).

(** The executor's answers: a run's ceremony, the trustee whose shares it is
    recording, whether its bundle loads, whether its close is on record. *)
Context (CeremonyStatus : string → Config.ElectionConfig → result Ceremony.CeremonyState)
        (submittingTrustee : string → string) (loadBundle : string → result unit)
        (closeRecorded : string → bool).

(** A request's method, and its body where that is valid JSON of its type. *)
Definition decodeJSON {B} (method : string) (body : option B) : chk B :=
  let& _ := need (String.eqb method "POST") 405 (say "POST required") in
  match body with Some b => inr b | None => inl (400, say "invalid JSON body") end.

Definition decodeConfig (method : string) (body : option Config.ElectionConfig) : chk Config.ElectionConfig :=
  let& c := decodeJSON method body in
  let c := Config.applyDefaults c in
  let& _ := answer_of 400 (Config.Validate c) in inr c.

Definition validRun (id : string) : result string := let? _ := RunStore.Dir id in Ok id.

Definition record (id : string) (w : world) : result RunStore.RunRecord :=
  let? id := validRun id in
  match RunStore.folders (runs w) !! id with
  | Some (Some rec) => Ok rec
  | _ => Err (Errorf "unknown run %q" [AStr id])
  end.

Definition runIDFromBody (method : string) (body : option string) : chk string :=
  let& id := decodeJSON method body in answer_of 400 (validRun id).

Definition groundTruthOnly (c : Config.ElectionConfig) : bool :=
  String.eqb (Config.Mode c) Config.ModeGroundTruth.

Definition ballotPhaseAllowed (id phase : string) (w : world) : chk unit :=
  let& rec := answer_of 404 (record id w) in
  need (negb (groundTruthOnly (RunStore.RConfig rec))) 409
    (Errorf "%s needs encrypted ballots; this run was generated in %q mode, which produces plaintext ground truth only"
       [AStr phase; AStr Config.ModeGroundTruth]).

Definition need_fabric (b : bool) : chk unit := need b 400 Ceremony.errNoFabric.

(** [dispatchClaimed]: the claim, then the phase in its goroutine. *)
Definition dispatch (pick id : string) (wk : work) (w : world) : world * reply * option (string * work) :=
  match Exclusion.claim id pick (net w) with
  | (net, None) => (MkWorld net (runs w) (journals w), Accepted 202 id None, Some (id, wk))
  | (_, Some why) => (w, Refused 409 why, None)
  end.

Definition finish_with {A} (w : world) (m : chk A) (k : A → world * reply * option (string * work)) :
    world * reply * option (string * work) :=
  match m with inl (code, why) => (w, Refused code why, None) | inr a => k a end.

(** Creating a run and dispatching its first phase. *)
Definition create_and (pick : string) (ts : Z) (mkdirErr writeErr : option goerr)
    (c : Config.ElectionConfig) (wk : work) (w : world) : world * reply * option (string * work) :=
  let '(st, r) := RunStore.Create c ts mkdirErr writeErr (runs w) in
  let w := MkWorld (net w) st (journals w) in
  finish_with w (answer_of 400 r) (λ id, dispatch pick id wk w).

Definition admitted (c : Config.ElectionConfig) : chk unit :=
  match Gates.admit_gates h c with Some e => inl (400, e) | None => inr tt end.

(** ** Runs *)
Definition handleGenerate (pick : string) (ts : Z) (mkdirErr writeErr : option goerr)
    (method : string) (body : option Config.ElectionConfig) (w : world) :=
  finish_with w
    (let& c := decodeConfig method body in
     let& _ := need_fabric (negb (String.eqb (Config.Mode c) "onchain") || fabric) in
     let& _ := admitted c in inr c)
    (λ c, create_and pick ts mkdirErr writeErr c (WGenerate c) w).

Definition handleRunAll (pick : string) (ts : Z) (mkdirErr writeErr : option goerr)
    (method : string) (body : option Config.ElectionConfig) (w : world) :=
  finish_with w
    (let& c := decodeConfig method body in
     let& _ := need_fabric (negb (String.eqb (Config.Mode c) "onchain") || fabric) in
     let& _ := need (negb (bool_decide (is_Some (Config.AttackPlan c)) && String.eqb (Config.Mode c) "offline")) 400
       (say "attack_plan is not run by an offline /run-all: use the step-by-step ceremony (/generate, /ceremony/start, /ceremony/submit, /ceremony/publish), which pauses at each stage") in
     let& _ := admitted c in inr c)
    (λ c, create_and pick ts mkdirErr writeErr c (WRunAll c) w).

(** What [handleRunAll]'s goroutine runs, given how each stage ended. *)
Definition run_all_stages (c : Config.ElectionConfig) (generate submit : option goerr) : list work :=
  WGenerate c ::
  match generate with
  | Some _ => []
  | None =>
      if groundTruthOnly c then []
      else WSubmit c :: match submit with Some _ => [] | None => [WVerify c] end
  end.

Definition handleVerify (pick method : string) (body : option string) (w : world) :=
  finish_with w
    (let& id := runIDFromBody method body in
     let& _ := ballotPhaseAllowed id "verify" w in
     let& rec := answer_of 404 (record id w) in inr (id, rec))
    (λ '(id, rec), dispatch pick id (WVerify (RunStore.RConfig rec)) w).

Definition handleSubmit (pick method : string) (body : option string) (w : world) :=
  finish_with w
    (let& id := runIDFromBody method body in
     let& rec := answer_of 404 (record id w) in inr (id, rec))
    (λ '(id, rec), dispatch pick id (WSubmit (RunStore.RConfig rec)) w).

Definition handleScenarios (pick method : string) (body : option (string * list string)) (w : world) :=
  finish_with w
    (let& b := decodeJSON method body in
     let& id := answer_of 400 (validRun b.1) in
     let& _ := ballotPhaseAllowed id "scenarios" w in inr (id, b.2))
    (λ '(id, l), dispatch pick id (WScenarios l) w).

(** ** The ceremony *)
Definition ceremonyRun (method : string) (body : option string) (w : world) : chk RunStore.RunRecord :=
  let& id := runIDFromBody method body in
  let& _ := ballotPhaseAllowed id "the trustee ceremony" w in
  answer_of 404 (record id w).

Definition handleCeremonyStart (pick method : string) (body : option string) (w : world) :=
  finish_with w (ceremonyRun method body w)
    (λ rec, dispatch pick (RunStore.RunID rec) (WCeremonyStart (RunStore.RConfig rec)) w).

Definition own_shares (sess : option Auth.session) (trustee : string) : chk unit :=
  match sess with
  | Some ss => need (String.eqb (Auth.STrusteeID ss) trustee) 403
      (Errorf "signed in as trustee %q: a trustee may submit only their own shares" [AStr (Auth.STrusteeID ss)])
  | None => inr tt
  end.

Definition ceremony_ready (id : string) (c : Config.ElectionConfig) : bool :=
  match CeremonyStatus id c with Ok st => Ceremony.Ready st | Err _ => false end.

Definition handleCeremonySubmit (pick : string) (sess : option Auth.session) (method : string)
    (body : option (string * string)) (w : world) :=
  finish_with w
    (let& b := decodeJSON method body in
     let& _ := own_shares sess b.2 in
     let& id := answer_of 400 (validRun b.1) in
     let& _ := ballotPhaseAllowed id "the trustee ceremony" w in
     let& rec := answer_of 404 (record id w) in
     let& _ := need (negb (String.eqb (TrimSpace b.2) "")) 400 (say "trustee_id is required") in
     let& _ := need (negb (String.eqb (submittingTrustee id) b.2)) 409
       (Errorf "trustee %s's shares are already being recorded" [AStr b.2]) in
     let& _ := need (ceremony_ready id (RunStore.RConfig rec)) 409
       (say "the election is not closed yet: trustees can submit after Encrypt & record finishes") in
     inr (id, rec, b.2))
    (λ '(id, rec, trustee), dispatch pick id (WCeremonySubmit (RunStore.RConfig rec) trustee) w).

(** An admin, or anyone with authentication off, or a trustee of the election. *)
Definition may_publish (sess : option Auth.session) (st : Ceremony.CeremonyState) : bool :=
  match sess with
  | Some ss => negb (String.eqb (Auth.SRole ss) Auth.RoleTrustee) ||
               existsb (λ t, String.eqb (Ceremony.TID t) (Auth.STrusteeID ss)) (Ceremony.Trustees st)
  | None => true
  end.

Definition session_trustee (sess : option Auth.session) : string :=
  match sess with Some ss => Auth.STrusteeID ss | None => "" end.

Definition handleCeremonyPublish (pick : string) (sess : option Auth.session) (method : string)
    (body : option string) (w : world) :=
  finish_with w
    (let& rec := ceremonyRun method body w in
     let& st := answer_of 500 (CeremonyStatus (RunStore.RunID rec) (RunStore.RConfig rec)) in
     let& _ := need (may_publish sess st) 403
       (Errorf "trustee %q is not a trustee of this election" [AStr (session_trustee sess)]) in
     let& _ := need (Ceremony.Unlocked st) 409 (say (Ceremony.belowThresholdRefusal st)) in
     inr rec)
    (λ rec, dispatch pick (RunStore.RunID rec) (WCeremonyPublish (RunStore.RConfig rec)) w).

Definition handleStagedAttack (pick method : string) (body : option (string * string)) (w : world) :=
  finish_with w
    (let& b := decodeJSON method body in
     let& id := answer_of 400 (validRun b.1) in
     let& _ := ballotPhaseAllowed id "attack" w in
     let& rec := answer_of 404 (record id w) in inr (id, rec, b.2))
    (λ '(id, rec, sc), dispatch pick id (WStagedAttack (RunStore.RConfig rec) sc) w).

(** ** /api/runs/<id>/<action> *)
Definition handleVerifyOnly (pick method id : string) (w : world) :=
  finish_with w
    (let& _ := need (String.eqb method "POST") 405 (say "POST only") in
     let& id := answer_of 400 (validRun id) in
     let& rec := answer_of 404 (record id w) in
     let& _ := need (String.eqb (Config.Mode (RunStore.RConfig rec)) "onchain") 409
       (Errorf "run mode is %q: only an on-chain run has a chain to reconcile against"
          [AStr (Config.Mode (RunStore.RConfig rec))]) in
     let& _ := need_fabric fabric in inr (id, rec))
    (λ '(id, rec), dispatch pick id (WVerifyOnly (RunStore.RConfig rec)) w).

Definition journal_of (id : string) (w : world) : result (list Resume.event) :=
  match journals w !! id with Some l => Ok l | None => Err (Foreign "open journal.ndjson: no such file") end.

Definition plan_of (id : string) (c : Config.ElectionConfig) (w : world) : result Resume.resumePlan :=
  Resume.planResume (Config.Mode c) (journal_of id w) (closeRecorded id).

(** [handleResume] claims for itself: its answer is the plan. *)
Definition handleResume (pick method id : string) (w : world) : world * reply * option (string * work) :=
  finish_with w
    (let& _ := need (String.eqb method "POST") 405 (say "POST only") in
     let& id := answer_of 400 (validRun id) in
     let& rec := answer_of 404 (record id w) in
     let& plan := answer_of 409 (plan_of id (RunStore.RConfig rec) w) in
     let& _ := need_fabric fabric in
     let& _ := answer_of 409 (loadBundle id) in inr (id, rec, plan))
    (λ '(id, rec, plan),
       match Exclusion.claim id pick (net w) with
       | (net, None) =>
           (MkWorld net (runs w) (journals w), Accepted 202 id (Some plan),
            Some (id, WResume (RunStore.RConfig rec)))
       | (_, Some why) => (w, Refused 409 why, None)
       end).

Definition handleRunStatus (id : string) (w : world) : chk (string * bool) :=
  let& id := answer_of 400 (validRun id) in
  inr (id, bool_decide (id ∈ Exclusion.busy (net w))).

(** ** The peer-restart fault *)
Definition FaultPeerRestart : string := "peer-restart".
Definition faultConfirm : string := "RESTART".
Definition faultPeerContainer : string := "peer0.org1.example.com".
Definition faultMinDownS : Z := 5.
Definition faultMaxDownS : Z := 120.

(** [int(p.At * float64(n))]; [validate] reads it only for 0 < at < 1, where it
    is in range. *)
Definition fault_index (p : Config.FaultPlanT) (n : Z) : Z :=
  default 0 (float_to_int (float_mul (Config.At p) (float_of_Z n))).

Definition validate_fault (p : Config.FaultPlanT) (n : Z) : result unit :=
  if negb (String.eqb (Config.FaultKind p) FaultPeerRestart) then
    Err (Errorf "fault kind must be %q (got %q)" [AStr FaultPeerRestart; AStr (Config.FaultKind p)])
  else if negb (SFltb Config.f_zero (Config.At p) && SFltb (Config.At p) Config.f_one) then
    Err (Errorf "at must be between 0 and 1, exclusive (got %v)" [AFloat (Config.At p)])
  else if SFltb (Config.DownS p) (float_of_Z faultMinDownS) || SFltb (float_of_Z faultMaxDownS) (Config.DownS p) then
    Err (Errorf "down_s must be between %d and %d seconds (got %v)"
           [AInt faultMinDownS; AInt faultMaxDownS; AFloat (Config.DownS p)])
  else
    let i := fault_index p n in
    if (i <? 1) || (wrap64 (n - 1) <? i) then
      Err (Errorf "at %v of %d ballots stops the peer at ballot %d: at least one ballot must be sent before and after it"
             [AFloat (Config.At p); AInt n; AInt i])
    else Ok tt.

Definition with_fault (p : Config.FaultPlanT) (rec : RunStore.RunRecord) : RunStore.RunRecord :=
  let c := RunStore.RConfig rec in
  RunStore.MkRunRecord (RunStore.RunID rec)
    (Config.MkElectionConfig (Config.Name c) (Config.Trustees c) (Config.Threshold c) (Config.Positions c)
       (Config.Candidates c) (Config.Voters c) (Config.Distribution c) (Config.Mode c) (Config.SenateSeats c)
       (Config.Concurrency c) (Config.SendRate c) (Config.WindowS c) (Config.Rep c) (Config.SkipAttacks c)
       (Config.AttackPlan c) (Some p)) (RunStore.RCreatedAt rec) (RunStore.RCommit rec).

Definition fault_armed (p : Config.FaultPlanT) (n : Z) (from : string) : Resume.event :=
  Resume.MkEvent "fault.armed" (list_to_map
    [("kind", Journal.JStr (Config.FaultKind p)); ("at", Journal.JFloat (Config.At p));
     ("down_s", Journal.JFloat (Config.DownS p)); ("at_index", Journal.JNum (fault_index p n));
     ("ballots", Journal.JNum n); ("container", Journal.JStr faultPeerContainer);
     ("from", Journal.JStr from)]%string).

(** [voters x positions], an [int]. *)
Definition fault_ballots (c : Config.ElectionConfig) : Z := wrap64 (Config.Voters c * Config.Positions c).

(** The checks before the run is claimed. *)
Definition fault_checks (loopback : bool) (id : string) (body : result (Config.FaultPlanT * string)) (w : world) :
    chk (string * RunStore.RunRecord * Config.FaultPlanT) :=
  let& _ := need loopback 403 (say "a fault is accepted only from the console machine itself (loopback)") in
  let& id := answer_of 400 (validRun id) in
  let& b := answer_of 400 (wrap_err (λ e, Errorf "invalid fault body: %v" [AErr e]) body) in
  let& _ := need (String.eqb b.2 faultConfirm) 400
    (Errorf "confirm must be exactly %q: the fault stops the Fabric peer mid-election" [AStr faultConfirm]) in
  let& rec := answer_of 404 (record id w) in
  let c := RunStore.RConfig rec in
  let& _ := answer_of 400 (validate_fault b.1 (fault_ballots c)) in
  let& _ := need (String.eqb (Config.Mode c) "onchain") 409
    (Errorf "run mode is %q: a peer-restart fault needs an on-chain run" [AStr (Config.Mode c)]) in
  let& _ := need (negb (bool_decide (is_Some (Config.Rep c)))) 409
    (say "this run is a campaign repetition, a measurement: it never carries a fault") in
  let& _ := need (negb (bool_decide (is_Some (Config.AttackPlan c)))) 409
    (say "this run has an attack plan: run the fault as its own security run, so its drops and its resume are not mixed with attack pauses") in
  let& _ := need (negb (SFltb Config.f_zero (Config.WindowS c))) 409
    (Errorf "this run's ballot window is time-bounded (window_s %v): a faulted window would become resumable, and the resume would send every remaining ballot, ignoring the bound" [AFloat (Config.WindowS c)]) in
  let& _ := need_fabric fabric in inr (id, rec, b.1).

(** [handleFault]: the claim is held for the check and the write, then given
    back whatever happened. *)
Definition handleFault (method : string) (loopback : bool) (from id : string)
    (body : result (Config.FaultPlanT * string)) (writeErr : option goerr) (w : world) :
    world * reply * option (string * work) :=
  finish_with w
    (let& _ := need (String.eqb method "POST") 405 (say "POST only") in
     let& '(id, rec, plan) := fault_checks loopback id body w in
     let& _ := match (Exclusion.claimAlone paused id (net w)).2 with
               | Some why => inl (409, why) | None => inr tt end in
     let& events := match journal_of id w with
                    | Err e => inl (409, Errorf "this run has no journal yet: generate it first (%v)" [AErr e])
                    | Ok l => inr l end in
     let& _ := need (negb (existsb (λ ev, String.eqb (Resume.kind ev) "stage.ballots.start") events)) 409
       (say "this run's ballot window has already started: a fault is armed only before /ceremony/start or /submit opens it") in
     let& _ := match writeErr with
               | Some e => inl (500, Errorf "fault not armed: %v" [AErr e]) | None => inr tt end in
     inr (id, rec, plan, events))
    (λ '(id, rec, plan, events),
       (MkWorld (net w)
          (RunStore.MkStore (RunStore.counter (runs w))
             (<[id := Some (with_fault plan rec)]> (RunStore.folders (runs w))))
          (<[id := events ++ [fault_armed plan (fault_ballots (RunStore.RConfig rec)) from]]> (journals w)),
        Accepted 200 id None, None)).

(** [handleRunAction], the actions that start something. *)
Inductive action := ActResume | ActVerifyOnly | ActStatus | ActPause | ActFault | ActUnknown.

Definition run_action (path : string) : option (string * action) :=
  match Cut (TrimPrefix path "/api/runs/") "/"%char with
  | (id, act, true) =>
      Some (id, if String.eqb act "status" then ActStatus
                else if String.eqb act "resume" then ActResume
                else if String.eqb act "verify-only" then ActVerifyOnly
                else if String.eqb act "pause" then ActPause
                else if String.eqb act "fault" then ActFault else ActUnknown)
  | _ => None
  end.

(** ** Jobs *)
Definition resetConfirm : string := "RESET".

Definition start_job (kind : string) (now : Z) (wk : work) (w : world) : world * reply * option (string * work) :=
  match Exclusion.startExclusiveJob paused kind now (net w) with
  | (net, inl n) =>
      let id := match Jobs.cells (Exclusion.board net) !! n with Some j => Jobs.ID j | None => "" end in
      (MkWorld net (runs w) (journals w), Accepted 202 id None, Some (id, wk))
  | (_, inr why) => (w, Refused 409 why, None)
  end.

Definition handleLadder (now : Z) (method : string) (w : world) :=
  finish_with w (need (String.eqb method "POST") 405 (say "POST required"))
    (λ _, start_job "ladder" now WLadder w).

Definition handleNetworkReset (now : Z) (method : string) (loopback : bool)
    (body : result (Z * Z * string)) (tierScript : result string) (w : world) :=
  finish_with w
    (let& _ := need (String.eqb method "POST") 405 (say "POST required") in
     let& _ := need loopback 403
       (say "a network reset is accepted only from the console machine itself (loopback)") in
     let& b := answer_of 400 (wrap_err (λ e, Errorf "invalid reset body: %v" [AErr e]) body) in
     let& _ := need (String.eqb b.2 resetConfirm) 400
       (Errorf "confirm must be exactly %q: a reset destroys this network's ledger" [AStr resetConfirm]) in
     let& _ := need (negb ((b.1.1 <? 1) || (b.1.2 <? 1))) 400
       (say "voters and positions must each be >= 1: they size the tier the network is reset for") in
     let& _ := need_fabric fabric in
     let& _ := answer_of 501 tierScript in inr b.1)
    (λ vp, start_job Jobs.jobKindReset now (WReset vp.1 vp.2) w).

(** ** The routes *)

(** What the request's context and the world answer. *)
Record answers := MkAnswers {
  sess : option Auth.session; loopback : bool; remote : string; pick : string; clock : Z;
  mkdirErr : option goerr; writeErr : option goerr; tierScript : result string
}.

(** A request for a route that starts work, with its body where it has one. *)
Inductive request :=
| ReqGenerate (body : option Config.ElectionConfig)
| ReqRunAll (body : option Config.ElectionConfig)
| ReqSubmit (body : option string)
| ReqVerify (body : option string)
| ReqScenarios (body : option (string * list string))
| ReqCeremonyStart (body : option string)
| ReqCeremonySubmit (body : option (string * string))
| ReqCeremonyPublish (body : option string)
| ReqAttack (body : option (string * string))
| ReqRunAction (path : string) (body : result (Config.FaultPlanT * string))
| ReqLadder
| ReqReset (body : result (Z * Z * string)).

(** [handleRunAction]; a pause decision is [Timeline.DecidePause]'s. *)
Definition handleRunAction (a : answers) (method path : string) (body : result (Config.FaultPlanT * string))
    (w : world) : option (world * reply * option (string * work)) :=
  match run_action path with
  | None | Some (_, ActUnknown) => Some (w, Refused 404 (say "404 page not found"), None)
  | Some (_, ActPause) => None
  | Some (id, ActStatus) =>
      Some (finish_with w (handleRunStatus id w) (λ b, (w, Accepted 200 b.1 None, None)))
  | Some (id, ActResume) => Some (handleResume (pick a) method id w)
  | Some (id, ActVerifyOnly) => Some (handleVerifyOnly (pick a) method id w)
  | Some (id, ActFault) => Some (handleFault method (loopback a) (remote a) id body (writeErr a) w)
  end.

Definition handle (a : answers) (method : string) (q : request) (w : world) :
    option (world * reply * option (string * work)) :=
  match q with
  | ReqGenerate b => Some (handleGenerate (pick a) (clock a) (mkdirErr a) (writeErr a) method b w)
  | ReqRunAll b => Some (handleRunAll (pick a) (clock a) (mkdirErr a) (writeErr a) method b w)
  | ReqSubmit b => Some (handleSubmit (pick a) method b w)
  | ReqVerify b => Some (handleVerify (pick a) method b w)
  | ReqScenarios b => Some (handleScenarios (pick a) method b w)
  | ReqCeremonyStart b => Some (handleCeremonyStart (pick a) method b w)
  | ReqCeremonySubmit b => Some (handleCeremonySubmit (pick a) (sess a) method b w)
  | ReqCeremonyPublish b => Some (handleCeremonyPublish (pick a) (sess a) method b w)
  | ReqAttack b => Some (handleStagedAttack (pick a) method b w)
  | ReqRunAction path b => handleRunAction a method path b w
  | ReqLadder => Some (handleLadder (clock a) method w)
  | ReqReset b => Some (handleNetworkReset (clock a) method (loopback a) b (tierScript a) w)
  end.

(** ** The outermost guard *)

(** A request's Host, and the host of its Origin header: absent, unparsable
    ([Some None]) or a URL's. *)
Definition guard (allowHosts : gset string) (method host : string) (origin : option (option string)) : chk unit :=
  let& _ := need (bool_decide (allowHosts = ∅) || bool_decide (host ∈ allowHosts)) 403 (say "forbidden host") in
  if String.eqb method "POST" then
    match origin with
    | None => inr tt
    | Some None => inl (403, say "cross-origin request rejected")
    | Some (Some o) => need (String.eqb o host) 403 (say "cross-origin request rejected")
    end
  else inr tt.
End server.
End Server.
