(* ===== verification/ServerFacts.v ===== *)
(** * What the console lets happen

    Every phase, job and fault is behind the checks that make it safe to
    start, on every handler. *)
From S2P Require Import Prelude GoText Config Auth Jobs RunStore Gates Exclusion Scenarios.
From S2P Require Import Journal Resume Ceremony ExclusionFacts Server.
#[local] Open Scope Z_scope.
Import GoText Server.

Module ServerFacts.

(** ** Handlers as sequences of checks *)
Lemma cbind_inr {A B} (m : chk A) (k : A → chk B) b :
  cbind m k = inr b ↔ ∃ a, m = inr a ∧ k a = inr b.
Proof. destruct m; naive_solver. Qed.

Lemma need_inr b code why x : need b code why = inr x ↔ b = true.
Proof. unfold need. destruct b, x; naive_solver. Qed.

Lemma answer_of_inr {A} code (r : result A) a : answer_of code r = inr a ↔ r = Ok a.
Proof. destruct r; naive_solver. Qed.

Lemma inr_inr {A} (a b : A) : (inr a : chk A) = inr b ↔ a = b.
Proof. naive_solver. Qed.

Create Rewrite HintDb server.
#[export] Hint Rewrite @cbind_inr @need_inr @answer_of_inr @inr_inr @negb_true_iff @negb_false_iff
  @andb_true_iff @orb_true_iff @bool_decide_eq_true @bool_decide_eq_false @String.eqb_eq @String.eqb_neq : server.

Section facts.
Context `{JobStamp} (paused : string → option string).
Context (h : Gates.host) (fabric : bool).
Context (CeremonyStatus : string → Config.ElectionConfig → result Ceremony.CeremonyState)
        (submittingTrustee : string → string) (loadBundle : string → result unit)
        (closeRecorded : string → bool).

(** The claim succeeded: nobody had the run, and the network was free of resets
    and of faults. *)
Record claimed (id : string) (w w' : world) : Prop := {
  was_free : id ∉ Exclusion.busy (net w);
  no_reset : Exclusion.reset_running (Exclusion.board (net w)) = None;
  no_fault : Exclusion.faulting (net w) = ∅;
  now_busy : net w' = Exclusion.set_busy ({[id]} ∪ Exclusion.busy (net w)) (net w)
}.

Definition stored (w : world) (id : string) (c : Config.ElectionConfig) : Prop :=
  ∃ rec, RunStore.folders (runs w) !! id = Some (Some rec) ∧ RunStore.RConfig rec = c.

(** Every run.json names its own folder: what [RunStore.Create] writes and
    [handleFault] keeps. *)
Definition well_named (w : world) : Prop :=
  ∀ id rec, RunStore.folders (runs w) !! id = Some (Some rec) → RunStore.RunID rec = id.

Definition has_ballots (c : Config.ElectionConfig) : Prop := Config.Mode c ≠ Config.ModeGroundTruth.

(** When each kind of work may start on run [id]. *)
Definition allowed (sess : option Auth.session) (w : world) (id : string) (wk : work) : Prop :=
  match wk with
  | WGenerate c | WRunAll c =>
      stored w id c ∧ Config.Validate c = Ok tt ∧ (Config.Mode c = "onchain" → fabric = true) ∧
      Gates.admit_gates h c = None
  | WSubmit c => stored w id c
  | WVerify c | WCeremonyStart c | WStagedAttack c _ => stored w id c ∧ has_ballots c
  | WScenarios _ => ∃ c, stored w id c ∧ has_ballots c
  | WCeremonySubmit c t =>
      stored w id c ∧ has_ballots c ∧ TrimSpace t ≠ "" ∧ submittingTrustee id ≠ t ∧
      (∀ ss, sess = Some ss → Auth.STrusteeID ss = t) ∧
      ∃ st, CeremonyStatus id c = Ok st ∧ Ceremony.Ready st = true
  | WCeremonyPublish c =>
      stored w id c ∧ has_ballots c ∧
      ∃ st, CeremonyStatus id c = Ok st ∧ Ceremony.Unlocked st = true ∧
        ∀ ss, sess = Some ss → Auth.SRole ss = Auth.RoleTrustee →
          ∃ t, t ∈ Ceremony.Trustees st ∧ Ceremony.TID t = Auth.STrusteeID ss
  | WVerifyOnly c => stored w id c ∧ Config.Mode c = "onchain" ∧ fabric = true
  | WResume c =>
      stored w id c ∧ fabric = true ∧ loadBundle id = Ok tt ∧
      ∃ plan, plan_of closeRecorded id c w = Ok plan
  | WLadder => True
  | WReset voters positions => 1 ≤ voters ∧ 1 ≤ positions ∧ fabric = true
  end.

Lemma finish_work {A} (w : world) (m : chk A) k w' r x :
  finish_with w m k = (w', r, Some x) → ∃ a, m = inr a ∧ k a = (w', r, Some x).
Proof. unfold finish_with. destruct m as [[code why]|a]; [done|]. by exists a. Qed.

Lemma no_fault_record pick s : Exclusion.faultingRun pick s = None → Exclusion.faulting s = ∅.
Proof.
  unfold Exclusion.faultingRun. destruct (decide _) as [|_]; [done|].
  intros E. apply set_eq. intros x. destruct (elements (Exclusion.faulting s)) as [|y l] eqn:El; [|done].
  rewrite <-elem_of_elements, El. set_solver.
Qed.

Lemma claim_free id pick s s' :
  Exclusion.claim id pick s = (s', None) →
  id ∉ Exclusion.busy s ∧ Exclusion.reset_running (Exclusion.board s) = None ∧ Exclusion.faulting s = ∅ ∧
  s' = Exclusion.set_busy ({[id]} ∪ Exclusion.busy s) s.
Proof.
  unfold Exclusion.claim. destruct (decide _) as [|Hb]; [done|].
  destruct (Exclusion.reset_running _) eqn:Er; [done|].
  destruct (Exclusion.faultingRun _ _) eqn:Ef; [done|]. intros [= <-].
  split_and!; [done|done|by eapply no_fault_record|done].
Qed.

Lemma dispatch_work pick id wk w w' r x :
  dispatch pick id wk w = (w', r, Some x) →
  x = (id, wk) ∧ r = Accepted 202 id None ∧ claimed id w w' ∧ runs w' = runs w ∧ journals w' = journals w.
Proof.
  unfold dispatch. destruct (Exclusion.claim id pick (net w)) as [s [e|]] eqn:E; [done|].
  intros [= <- <- <-]. apply claim_free in E as (H1&H2&H3&->). split_and!; [done|done| |done|done]. by split.
Qed.

Lemma record_stored id w rec : record id w = Ok rec → stored w id (RunStore.RConfig rec).
Proof.
  unfold record. rewrite rbind_ok. intros (i&Hi&Hr).
  unfold validRun, RunStore.Dir in Hi. destruct (RunStore.runIDPattern id); [|done]. injection Hi as <-.
  destruct (RunStore.folders (runs w) !! id) as [[r|]|] eqn:E; try done. injection Hr as <-. by exists r.
Qed.

Lemma allowed_phase id phase w u :
  ballotPhaseAllowed id phase w = inr u → ∃ rec, record id w = Ok rec ∧ has_ballots (RunStore.RConfig rec).
Proof.
  unfold ballotPhaseAllowed, groundTruthOnly. rewrite cbind_inr. intros (rec&Hr&Hg).
  autorewrite with server in Hr, Hg. by exists rec.
Qed.

Lemma validRun_same id id' : validRun id = Ok id' → id' = id.
Proof. unfold validRun. rewrite rbind_ok. by intros (?&_&[= <-]). Qed.

Lemma need_fabric_inr b u : need_fabric b = inr u ↔ b = true.
Proof. apply need_inr. Qed.

Lemma decodeConfig_inr m body c :
  decodeConfig m body = inr c →
  Config.Validate c = Ok tt ∧ ∃ c0, c = Config.applyDefaults c0.
Proof.
  unfold decodeConfig. rewrite cbind_inr. intros (c0&_&Hc). rewrite cbind_inr in Hc.
  destruct Hc as ([]&Hv&Hc). autorewrite with server in Hv, Hc. subst c. split; [done|]. by exists c0.
Qed.

Lemma admitted_inr c u : admitted h c = inr u ↔ Gates.admit_gates h c = None.
Proof. unfold admitted. destruct (Gates.admit_gates h c), u; naive_solver. Qed.
#[local] Hint Rewrite need_fabric_inr admitted_inr : server.

(** A created run is stored under the id its phase runs on. *)
Lemma create_work pick ts mk wr c wk w w' r x :
  create_and pick ts mk wr c wk w = (w', r, Some x) →
  ∃ id, x = (id, wk) ∧ r = Accepted 202 id None ∧
    claimed id w w' ∧ stored w' id (Config.applyDefaults c).
Proof.
  unfold create_and. destruct (RunStore.Create c ts mk wr (runs w)) as [st res] eqn:Ec.
  intros (id&Hid&Hd)%finish_work. autorewrite with server in Hid. subst res.
  apply dispatch_work in Hd as (->&->&Hcl&Hruns&_). exists id. split_and!; [done|done| |].
  - destruct Hcl as [H1 H2 H3 H4]. by split.
  - unfold stored. rewrite Hruns. cbn. unfold RunStore.Create in Ec.
    destruct (Config.Validate _) as [|?]; [|done]. destruct (RunStore.Dir _) as [d|?] eqn:Ed; [|done].
    destruct mk as [?|]; [done|]. destruct wr as [?|]; [done|]. injection Ec as <- <-. cbn.
    unfold RunStore.Dir in Ed. destruct (RunStore.runIDPattern _); [|done]. injection Ed as <-.
    rewrite lookup_insert_eq. by eexists.
Qed.

Lemma applyDefaults_twice c : Config.applyDefaults (Config.applyDefaults c) = Config.applyDefaults c.
Proof.
  unfold Config.applyDefaults at 2 3. destruct (_ =? 0) eqn:E; unfold Config.applyDefaults; cbn; [done|by rewrite E].
Qed.

(** The plan a run's answer carries. *)
Definition answered_plan (w : world) (id : string) (wk : work) : option Resume.resumePlan :=
  match wk with
  | WResume c => match plan_of closeRecorded id c w with Ok p => Some p | Err _ => None end
  | _ => None
  end.

(** The run store after a request: as it was, or with one run created. *)
Definition runs_after (w w' : world) : Prop :=
  runs w' = runs w ∨ ∃ c ts mk wr, runs w' = (RunStore.Create c ts mk wr (runs w)).1.

(** What a run phase that starts has behind it. *)
Record phase_started (sess : option Auth.session) (w w' : world) (r : reply) (id : string) (wk : work) : Prop := {
  phase_claimed : claimed id w w';
  phase_allowed : allowed sess w' id wk;
  phase_runs : runs_after w w';
  phase_journals : journals w' = journals w;
  phase_answer : r = Accepted 202 id (answered_plan w' id wk)
}.

Lemma decodeJSON_inr {B} m (body : option B) b : decodeJSON m body = inr b ↔ m = "POST" ∧ body = Some b.
Proof. unfold decodeJSON, need, cbind. destruct (String.eqb_spec m "POST"), body; naive_solver. Qed.

Lemma runIDFromBody_inr m body id :
  runIDFromBody m body = inr id ↔ m = "POST" ∧ body = Some id ∧ validRun id = Ok id.
Proof.
  unfold runIDFromBody. rewrite cbind_inr. split.
  - intros (i&[-> ->]%decodeJSON_inr&Hv%answer_of_inr). pose proof (validRun_same _ _ Hv) as ->. done.
  - intros (->&->&Hv). exists id. by rewrite decodeJSON_inr, answer_of_inr.
Qed.
#[local] Hint Rewrite @decodeJSON_inr runIDFromBody_inr : server.

(** The checks of a handler that passed, taken apart. *)
Ltac checks H :=
  repeat (rewrite cbind_inr in H;
          let u := fresh "u" in let K := fresh "K" in destruct H as (u&K&H));
  autorewrite with server in *; cbn [fst snd] in *; destruct_and?; simplify_eq/=;
  repeat match goal with K : validRun ?i = Ok ?j |- _ => pose proof (validRun_same _ _ K); subst j; clear K end.

Lemma allowed_same sess id wk w w' :
  runs w' = runs w → journals w' = journals w → allowed sess w id wk → allowed sess w' id wk.
Proof. destruct w, w'. cbn. intros -> ->. by destruct wk. Qed.

Lemma phase_dispatch sess pick id wk w w' r x :
  dispatch pick id wk w = (w', r, Some x) → allowed sess w id wk → answered_plan w' id wk = None →
  x = (id, wk) ∧ phase_started sess w w' r id wk.
Proof.
  intros (->&->&Hcl&Hr&Hj)%dispatch_work Ha Hp. split; [done|].
  split; [done|by eapply allowed_same|by left|done|by rewrite Hp].
Qed.

(** Two reads of the run's record give the same record. *)
Lemma phase_record id phase w u rec :
  ballotPhaseAllowed id phase w = inr u → record id w = Ok rec →
  stored w id (RunStore.RConfig rec) ∧ has_ballots (RunStore.RConfig rec).
Proof.
  intros (rec'&Hr&Hb)%allowed_phase Hrec. rewrite Hr in Hrec. injection Hrec as ->.
  split; [by apply record_stored|done].
Qed.

Definition starts (sess : option Auth.session) (o : world * reply * option (string * work)) (w : world) : Prop :=
  ∀ w' r id wk, o = (w', r, Some (id, wk)) → phase_started sess w w' r id wk.

(** A handler that checks, then dispatches. *)
Lemma starts_dispatch {A} sess (w : world) (m : chk A) k :
  (∀ a, m = inr a → ∃ pick id wk, k a = dispatch pick id wk w ∧
     allowed sess w id wk ∧ ∀ w', answered_plan w' id wk = None) →
  starts sess (finish_with w m k) w.
Proof.
  intros Hm w' r id wk (a&Ha&Hd)%finish_work. destruct (Hm a Ha) as (pick&id'&wk'&E&Hal&Hp).
  rewrite E in Hd. by destruct (phase_dispatch sess _ _ _ _ _ _ _ Hd Hal (Hp w')) as [[= -> ->] Hs].
Qed.

(** The checks that passed give what the work needs. *)
Ltac by_checks :=
  let Hc := fresh "Hc" in
  intros ? Hc; checks Hc; do 3 eexists; split; [reflexivity|]; split; [|done]; cbn [allowed].

Lemma starts_verify sess pick m b w : starts sess (handleVerify pick m b w) w.
Proof. apply starts_dispatch. by_checks. by eapply phase_record. Qed.

Lemma starts_submit sess pick m b w : starts sess (handleSubmit pick m b w) w.
Proof. apply starts_dispatch. by_checks. by eapply record_stored. Qed.

Lemma starts_scenarios sess pick m b w : starts sess (handleScenarios pick m b w) w.
Proof.
  apply starts_dispatch. by_checks. destruct (allowed_phase _ _ _ _ K1) as (rec&Hr&Hb).
  eexists. split; [by eapply record_stored|done].
Qed.

Lemma starts_attack sess pick m b w : starts sess (handleStagedAttack pick m b w) w.
Proof. apply starts_dispatch. by_checks. by eapply phase_record. Qed.

Lemma starts_verify_only sess pick m i w : starts sess (handleVerifyOnly fabric pick m i w) w.
Proof. apply starts_dispatch. by_checks. split; [by eapply record_stored|done]. Qed.

Lemma record_some id w rec : record id w = Ok rec → RunStore.folders (runs w) !! id = Some (Some rec).
Proof.
  intros Hr. unfold record in Hr. rewrite rbind_ok in Hr. destruct Hr as (i&->%validRun_same&Hr).
  by destruct (RunStore.folders (runs w) !! id) as [[r|]|]; simplify_eq/=.
Qed.

Lemma ceremonyRun_inr m b w rec :
  well_named w → ceremonyRun m b w = inr rec →
  stored w (RunStore.RunID rec) (RunStore.RConfig rec) ∧ has_ballots (RunStore.RConfig rec).
Proof.
  unfold ceremonyRun. intros Hn Hc. checks Hc. rewrite (Hn u rec) by (by apply record_some).
  by eapply phase_record.
Qed.

Lemma starts_ceremony_start sess pick m b w : well_named w → starts sess (handleCeremonyStart pick m b w) w.
Proof.
  intros Hn. apply starts_dispatch. intros rec Hs%ceremonyRun_inr; [|done]. by do 3 eexists.
Qed.

Lemma starts_ceremony_submit sess pick m b w :
  starts sess (handleCeremonySubmit CeremonyStatus submittingTrustee pick sess m b w) w.
Proof.
  apply starts_dispatch. by_checks. destruct (phase_record _ _ _ _ _ K2 K3) as [Hs Hb].
  unfold ceremony_ready in *. repeat split; try done.
  - intros ss ->. cbn in *. by autorewrite with server in *.
  - destruct (CeremonyStatus _ _) as [st|]; [|done]. by exists st.
Qed.

Lemma starts_ceremony_publish sess pick m b w :
  well_named w → starts sess (handleCeremonyPublish CeremonyStatus pick sess m b w) w.
Proof.
  intros Hn. apply starts_dispatch. intros a Hc. rewrite cbind_inr in Hc.
  destruct Hc as (rec&Hr&Hc). apply ceremonyRun_inr in Hr as [Hs Hb]; [|done]. checks Hc.
  do 3 eexists. split; [reflexivity|]. split; [|done]. cbn [allowed]. split_and!; [done|done|].
  eexists. split; [done|]. split; [done|]. intros ss -> Hrole. unfold may_publish in K0.
  apply orb_true_iff in K0 as [K0|K0]; [by rewrite Hrole in K0|].
  apply existsb_exists in K0 as (t&Ht&E). apply String.eqb_eq in E. exists t.
  split; [by apply list_elem_of_In|done].
Qed.

Lemma starts_resume sess pick m i w : starts sess (handleResume fabric loadBundle closeRecorded pick m i w) w.
Proof.
  intros w' r id wk ([[id' rec] plan]&Hc&Hd)%finish_work. checks Hc.
  destruct (Exclusion.claim _ _ _) as [s [e|]] eqn:E; [done|]. injection Hd as <- <- <- <-.
  apply claim_free in E as (H1&H2&H3&->). split; [by split| |by left|done|].
  - cbn [allowed]. split_and!; [by eapply record_stored|done| |by eexists].
    by match goal with K : loadBundle _ = Ok ?u |- _ => destruct u end.
  - cbn [answered_plan]. unfold plan_of, journal_of in *. cbn. by rewrite K2.
Qed.

(** A created run is stored under the id its phase runs on, and no other run
    has changed. *)
Lemma starts_create sess pick ts mk wr c0 wk w :
  let c := Config.applyDefaults c0 in
  (wk = WGenerate c ∨ wk = WRunAll c) →
  Config.Validate c = Ok tt → (Config.Mode c = "onchain" → fabric = true) → Gates.admit_gates h c = None →
  starts sess (create_and pick ts mk wr c wk w) w.
Proof.
  intros c Hwk Hv Hf Hg w' r id wk' Hc. pose proof Hc as (id'&[= -> ->]&->&Hcl&Hs)%create_work.
  assert (Hj : journals w' = journals w ∧ runs_after w w').
  { unfold create_and in Hc. destruct (RunStore.Create _ _ _ _ _) as [st res] eqn:E.
    apply finish_work in Hc as (i&_&Hc). apply dispatch_work in Hc as (_&_&_&Hr&->).
    split; [done|]. right. exists c, ts, mk, wr. by rewrite E, Hr. }
  destruct Hj as [Hj Hra].
  unfold c in Hs. rewrite applyDefaults_twice in Hs. fold c in Hs.
  destruct Hwk as [-> | ->]; (split; [done|split_and!; done|done|done|done]).
Qed.
Lemma need_mode (c : Config.ElectionConfig) code e u :
  need (negb (String.eqb (Config.Mode c) "onchain") || fabric) code e = inr u →
  Config.Mode c = "onchain" → fabric = true.
Proof. rewrite need_inr. intros Hn Hm. rewrite Hm in Hn. by destruct fabric. Qed.

Lemma starts_generate sess pick ts mk wr m b w : starts sess (handleGenerate h fabric pick ts mk wr m b w) w.
Proof.
  intros w' r id wk (c&Hc&Hd)%finish_work. rewrite cbind_inr in Hc.
  destruct Hc as (c1&(Hv&c0&->)%decodeConfig_inr&Hc). rewrite cbind_inr in Hc.
  destruct Hc as (?&Hm&Hc). unfold need_fabric in Hm. pose proof (need_mode _ _ _ _ Hm) as Hf. checks Hc.
  revert Hd. eapply starts_create; auto.
Qed.

Lemma starts_run_all sess pick ts mk wr m b w : starts sess (handleRunAll h fabric pick ts mk wr m b w) w.
Proof.
  intros w' r id wk (c&Hc&Hd)%finish_work. rewrite cbind_inr in Hc.
  destruct Hc as (c1&(Hv&c0&->)%decodeConfig_inr&Hc). rewrite cbind_inr in Hc.
  destruct Hc as (?&Hm&Hc). unfold need_fabric in Hm. pose proof (need_mode _ _ _ _ Hm) as Hf. checks Hc.
  revert Hd. eapply starts_create; auto.
Qed.

(** ** Jobs *)

(** A job that starts had the console to itself: no job, no run's phase. *)
Record job_started (kind : string) (w w' : world) (r : reply) (id : string) : Prop := {
  slot_free : Jobs.running (Exclusion.board (net w)) = None;
  nobody_busy : ∀ x, x ∈ Exclusion.busy (net w) → x = "";
  slot_taken : ∃ n j, Jobs.active (Exclusion.board (net w')) = Some n ∧
    Jobs.cells (Exclusion.board (net w')) !! n = Some j ∧ Jobs.ID j = id ∧ Jobs.Kind j = kind;
  job_changes : Exclusion.busy (net w') = Exclusion.busy (net w) ∧ runs w' = runs w ∧ journals w' = journals w;
  job_answer : r = Accepted 202 id None
}.

Lemma start_job_started kind now wk w w' r x :
  start_job paused kind now wk w = (w', r, Some x) → x.2 = wk ∧ job_started kind w w' r x.1.
Proof.
  unfold start_job, Exclusion.startExclusiveJob.
  destruct (Jobs.running _) eqn:Er; [done|].
  destruct (Exclusion.busyRunsLocked _ _ _) eqn:Eb; [|done].
  pose proof (ExclusionFacts.no_others paused "" (net w) Eb) as Hb.
  unfold Jobs.start. destruct (Jobs.active _) eqn:Ea; [done|]. cbn.
  rewrite lookup_insert_eq. intros [= <- <- <-]. split; [done|]. cbn.
  split; [done|done| |done|done]. eexists _, _. cbn. rewrite lookup_insert_eq. done.
Qed.

Lemma starts_ladder now m w w' r x :
  handleLadder paused now m w = (w', r, Some x) → x.2 = WLadder ∧ job_started "ladder" w w' r x.1.
Proof. intros (?&_&Hd)%finish_work. by apply start_job_started in Hd. Qed.

Lemma starts_reset now m lo b ts w w' r x :
  handleNetworkReset paused fabric now m lo b ts w = (w', r, Some x) →
  m = "POST" ∧ lo = true ∧ fabric = true ∧
  ∃ voters positions, b = Ok (voters, positions, resetConfirm) ∧ 1 ≤ voters ∧ 1 ≤ positions ∧
    x.2 = WReset voters positions ∧ job_started Jobs.jobKindReset w w' r x.1.
Proof.
  intros (vp&Hc&Hd)%finish_work. checks Hc. apply start_job_started in Hd as [Hx Hj].
  destruct b as [[[v p] s]|]; [|done].
  cbn in K1. injection K1 as <-. cbn in *. subst s.
  apply orb_false_iff in K3 as [?%Z.ltb_ge ?%Z.ltb_ge]. eauto 10.
Qed.

(** ** Refusals *)

(** Nothing has happened, and the answer says why. *)
Definition refused (w w' : world) (r : reply) : Prop := w' = w ∧ ∃ code why, r = Refused code why.

Definition refuses (o : world * reply * option (string * work)) (w : world) : Prop :=
  ∀ w' r, o = (w', r, None) → refused w w' r.

Lemma refuses_dispatch pick id wk w : refuses (dispatch pick id wk w) w.
Proof. intros w' r. unfold dispatch. destruct (Exclusion.claim _ _ _) as [s [e|]]; [|done]. intros [= <- <-]. by split; eauto. Qed.

Lemma refuses_job kind now wk w : refuses (start_job paused kind now wk w) w.
Proof.
  intros w' r. unfold start_job. destruct (Exclusion.startExclusiveJob _ _ _ _) as [s [n|e]]; [done|].
  intros [= <- <-]. by split; eauto.
Qed.

Lemma refuses_finish {A} w (m : chk A) k : (∀ a, m = inr a → refuses (k a) w) → refuses (finish_with w m k) w.
Proof.
  unfold finish_with. destruct m as [[code why]|a]; [|by auto]. intros _ w' r [= <- <-]. by split; eauto.
Qed.

Lemma refuses_answer w code why : refuses (w, Refused code why, None) w.
Proof. intros w' r [= <- <-]. by split; eauto. Qed.

Lemma refuses_resume pick m i w : refuses (handleResume fabric loadBundle closeRecorded pick m i w) w.
Proof.
  apply refuses_finish. intros [[id rec] plan] _. destruct (Exclusion.claim _ _ _) as [s [e|]]; [|done].
  apply refuses_answer.
Qed.

(** A refused new run may have left its folder; nothing has started. *)
Lemma create_refused pick ts mk wr c wk w w' r :
  create_and pick ts mk wr c wk w = (w', r, None) →
  (∃ code why, r = Refused code why) ∧ net w' = net w ∧ journals w' = journals w ∧
  runs w' = (RunStore.Create c ts mk wr (runs w)).1.
Proof.
  unfold create_and. destruct (RunStore.Create _ _ _ _ _) as [st res]. unfold finish_with.
  destruct (answer_of 400 res) as [[code why]|id]; [intros [= <- <-]; split; eauto|].
  intros [-> He]%refuses_dispatch. split; eauto.
Qed.

(** What a request that starts nothing leaves. *)
Definition left_alone (w w' : world) (r : reply) : Prop :=
  (∃ code why, r = Refused code why) ∧ net w' = net w ∧ journals w' = journals w ∧
  runs_after w w'.

Lemma refused_left w w' r : refused w w' r → left_alone w w' r.
Proof. intros [-> He]. by split_and!; [| | |left]. Qed.

Lemma create_left {A} pick ts mk wr (m : chk A) c wk w w' r :
  finish_with w m (λ a, create_and pick ts mk wr (c a) (wk a) w) = (w', r, None) → left_alone w w' r.
Proof.
  unfold finish_with. destruct m as [[code why]|a]; [intros [= <- <-]; apply refused_left; by split; eauto|].
  intros (He&Hn&Hj&Hr)%create_refused. split_and!; [done..|]. right. by exists (c a), ts, mk, wr.
Qed.

(** ** The fault *)

(** An armed run: on-chain, a plain run whose ballot window has not opened, its
    fault one that fires between two ballots, asked for from the console's own
    machine while nothing else used the network; only its plan and its journal
    have changed. *)
Record armed (a : answers) (p : Config.FaultPlanT) (w w' : world) (id : string) : Prop := {
  armed_local : loopback a = true;
  armed_idle : Jobs.running (Exclusion.board (net w)) = None ∧ Exclusion.busy (net w) = ∅;
  armed_network : fabric = true;
  armed_run : ∃ rec events,
    RunStore.folders (runs w) !! id = Some (Some rec) ∧ journals w !! id = Some events ∧
    (∀ ev, ev ∈ events → Resume.kind ev ≠ "stage.ballots.start") ∧
    let c := RunStore.RConfig rec in
    Config.Mode c = "onchain" ∧ Config.Rep c = None ∧ Config.AttackPlan c = None ∧
    SFltb Config.f_zero (Config.WindowS c) = false ∧
    validate_fault p (fault_ballots c) = Ok tt ∧
    w' = MkWorld (net w)
           (RunStore.MkStore (RunStore.counter (runs w)) (<[id := Some (with_fault p rec)]> (RunStore.folders (runs w))))
           (<[id := events ++ [fault_armed p (fault_ballots c) (remote a)]]> (journals w))
}.

(** The network's claim for arming: nobody else is on it. *)
Lemma claimAlone_idle run s s' :
  Exclusion.claimAlone paused run s = (s', None) →
  Jobs.running (Exclusion.board s) = None ∧ Exclusion.busy s = ∅.
Proof.
  unfold Exclusion.claimAlone. destruct (decide _) as [|Hn]; [done|].
  destruct (Jobs.running _); [done|]. destruct (Exclusion.busyRunsLocked _ _ _) eqn:E; [|done].
  intros _. split; [done|]. pose proof (ExclusionFacts.no_others paused run s E) as Ho.
  apply set_eq. intros x. split; [|done]. intros Hx. by rewrite (Ho x Hx) in Hx.
Qed.

Lemma no_ballots_event (l : list Resume.event) :
  existsb (λ ev, String.eqb (Resume.kind ev) "stage.ballots.start") l = false →
  ∀ ev, ev ∈ l → Resume.kind ev ≠ "stage.ballots.start".
Proof.
  intros Hl ev Hin E. assert (existsb (λ ev, String.eqb (Resume.kind ev) "stage.ballots.start") l = true); [|congruence].
  apply existsb_exists. exists ev. rewrite E. split; [by apply list_elem_of_In|done].
Qed.

Lemma fault_checks_inr lo id b w id' rec p :
  fault_checks fabric lo id b w = inr (id', rec, p) →
  id' = id ∧ lo = true ∧ fabric = true ∧ b = Ok (p, faultConfirm) ∧ RunStore.folders (runs w) !! id = Some (Some rec) ∧
  let c := RunStore.RConfig rec in
  Config.Mode c = "onchain" ∧ Config.Rep c = None ∧ Config.AttackPlan c = None ∧
  SFltb Config.f_zero (Config.WindowS c) = false ∧ validate_fault p (fault_ballots c) = Ok tt.
Proof.
  unfold fault_checks. intros Hc. checks Hc.
  destruct b as [[p0 s0]|]; [|done]. cbn in *. simplify_eq/=.
  match goal with u : unit |- _ => destruct u end.
  split_and!; try done; [by apply record_some|by apply eq_None_not_Some..|].
  by match goal with K : validate_fault _ _ = Ok ?u |- _ => destruct u end.
Qed.

Lemma fault_outcome a m id b w w' r x :
  handleFault paused fabric m (loopback a) (remote a) id b (writeErr a) w = (w', r, x) →
  x = None ∧
  (refused w w' r ∨
   ∃ p, b = Ok (p, faultConfirm) ∧ m = "POST" ∧ r = Accepted 200 id None ∧ armed a p w w' id).
Proof.
  unfold handleFault, finish_with.
  destruct (cbind (need (String.eqb m "POST") _ _) _) as [[code why]|[[[id' rec] p] events]] eqn:Hc.
  { intros [= <- <- <-]. split; [done|]. left. split; [done|]. eauto. }
  intros [= <- <- <-]. split; [done|]. right.
  rewrite cbind_inr in Hc. destruct Hc as ([]&Hm%need_inr&Hc). apply String.eqb_eq in Hm.
  rewrite cbind_inr in Hc. destruct Hc as ([[id1 rec1] p1]&Hf&Hc).
  apply fault_checks_inr in Hf as (->&Hl&Hfab&->&Hr&Hmode&Hrep&Hatt&Hwin&Hv).
  rewrite cbind_inr in Hc. destruct Hc as ([]&Hal&Hc).
  destruct (Exclusion.claimAlone paused id (net w)) as [s [e|]] eqn:Eal; [done|].
  apply claimAlone_idle in Eal.
  unfold journal_of in Hc. destruct (journals w !! id) as [l|] eqn:Ej; [|done]. cbn in Hc.
  rewrite cbind_inr in Hc. destruct Hc as ([]&Hev%need_inr%negb_true_iff&Hc).
  destruct (writeErr a); [done|]. cbn in Hc. injection Hc as <- <- <- <-.
  exists p1. split_and!; [done|done|done|]. split; [done|done|done|].
  exists rec1, l. split_and!; try done. by apply no_ballots_event.
Qed.

(** ** Every request *)
Definition is_job (wk : work) : option string :=
  match wk with WLadder => Some "ladder" | WReset _ _ => Some Jobs.jobKindReset | _ => None end.

(** A request that started [wk] for [id]. *)
Definition started (a : answers) (w w' : world) (r : reply) (id : string) (wk : work) : Prop :=
  match is_job wk with
  | Some kind => job_started kind w w' r id ∧ allowed (sess a) w' id wk ∧
                 (kind = Jobs.jobKindReset → loopback a = true)
  | None => phase_started (sess a) w w' r id wk
  end.

(** A request that started nothing: refused, a question about a run, or the
    fault of one armed. *)
Definition nothing_started (a : answers) (w w' : world) (r : reply) : Prop :=
  left_alone w w' r ∨
  ∃ id, r = Accepted 200 id None ∧ (w' = w ∨ ∃ p, armed a p w w' id).

Definition outcome (a : answers) (w w' : world) (r : reply) (x : option (string * work)) : Prop :=
  match x with Some (id, wk) => started a w w' r id wk | None => nothing_started a w w' r end.

Definition phase_work (o : world * reply * option (string * work)) : Prop :=
  ∀ w' r id wk, o = (w', r, Some (id, wk)) → is_job wk = None.

Lemma phase_outcome a o w w' r x :
  starts (sess a) o w → phase_work o → (∀ w' r, o = (w', r, None) → left_alone w w' r) →
  o = (w', r, x) → outcome a w w' r x.
Proof.
  intros Hs Hp Hn Ho. destruct x as [[id wk]|]; cbn.
  - unfold started. rewrite (Hp _ _ _ _ Ho). by apply Hs.
  - left. by apply Hn.
Qed.

Lemma phase_work_finish {A} w (m : chk A) k : (∀ a, phase_work (k a)) → phase_work (finish_with w m k).
Proof. intros Hk w' r id wk (a&_&Hd)%finish_work. by eapply Hk. Qed.

Lemma phase_work_dispatch pick id wk w : is_job wk = None → phase_work (dispatch pick id wk w).
Proof. intros Hp w' r id' wk' ([= -> ->]&_)%dispatch_work. done. Qed.

Lemma phase_work_create pick ts mk wr c wk w : is_job wk = None → phase_work (create_and pick ts mk wr c wk w).
Proof. intros Hp w' r id' wk' (id&[= -> ->]&_)%create_work. done. Qed.

Lemma left_refuses o w : refuses o w → ∀ w' r, o = (w', r, None) → left_alone w w' r.
Proof. intros Ho w' r E. by apply refused_left, Ho. Qed.

Lemma job_outcome a o w w' r x :
  (∀ w' r y, o = (w', r, Some y) → started a w w' r y.1 y.2) → refuses o w →
  o = (w', r, x) → outcome a w w' r x.
Proof.
  intros Hs Hn Ho. destruct x as [[id wk]|]; cbn; [by apply (Hs _ _ _ Ho)|]. left. by apply refused_left, Hn.
Qed.

Lemma ladder_outcome a m w w' r x : handleLadder paused (clock a) m w = (w', r, x) → outcome a w w' r x.
Proof.
  apply job_outcome; [|apply refuses_finish; intros; apply refuses_job].
  intros w1 r1 y [Hy Hj]%starts_ladder. unfold started. by rewrite Hy.
Qed.

Lemma reset_outcome a m b w w' r x :
  handleNetworkReset paused fabric (clock a) m (loopback a) b (tierScript a) w = (w', r, x) → outcome a w w' r x.
Proof.
  apply job_outcome; [|apply refuses_finish; intros; apply refuses_job].
  intros w1 r1 y (_&Hl&Hf&v&p&_&Hv&Hp&Hy&Hj)%starts_reset. unfold started. by rewrite Hy.
Qed.

(** A phase's handler: checks, then the claim. *)
Lemma dispatch_outcome {A} a (m : chk A) k w w' r x :
  starts (sess a) (finish_with w m k) w →
  (∀ b, m = inr b → ∃ pick id wk, is_job wk = None ∧ k b = dispatch pick id wk w) →
  finish_with w m k = (w', r, x) → outcome a w w' r x.
Proof.
  intros Hs Hk. apply phase_outcome; [done| |].
  - intros w1 r1 i wk (b&Hb&Hd)%finish_work. destruct (Hk b Hb) as (?&?&?&Hj&E). rewrite E in Hd.
    by apply phase_work_dispatch in Hd.
  - apply left_refuses, refuses_finish. intros b (?&?&?&_&->)%Hk. apply refuses_dispatch.
Qed.

Lemma create_outcome {A} a (m : chk A) pick ts mk wr c wk w w' r x :
  starts (sess a) (finish_with w m (λ b, create_and pick ts mk wr (c b) (wk b) w)) w →
  (∀ b, is_job (wk b) = None) →
  finish_with w m (λ b, create_and pick ts mk wr (c b) (wk b) w) = (w', r, x) → outcome a w w' r x.
Proof.
  intros Hs Hk. apply phase_outcome; [done| |by apply create_left].
  apply phase_work_finish. intros b. by apply phase_work_create.
Qed.

Lemma run_action_outcome a m path b w w' r x :
  handleRunAction paused fabric loadBundle closeRecorded a m path b w = Some (w', r, x) → outcome a w w' r x.
Proof.
  unfold handleRunAction. destruct (run_action path) as [[id act]|].
  2: { intros [= <- <- <-]. left. apply refused_left. by split; eauto. }
  destruct act; try discriminate; intros Ho; apply (inj Some) in Ho; revert Ho.
  - apply phase_outcome; [apply starts_resume| |apply left_refuses, refuses_resume].
    apply phase_work_finish. intros [[i rec] plan] w1 r1 i1 wk. by destruct (Exclusion.claim _ _ _) as [s [e|]]; intros; simplify_eq.
  - apply dispatch_outcome; [apply starts_verify_only|]. intros [i rec] _. do 3 eexists. split; [|reflexivity]. done.
  - unfold finish_with. destruct (handleRunStatus id w) as [[code why]|[i busy]]; intros [= <- <- <-].
    + left. apply refused_left. by split; eauto.
    + right. exists i. by split; [|left].
  - intros [-> [Hr|(p&_&_&->&Ha)]]%fault_outcome; [left; by apply refused_left|].
    right. exists id. split; [done|]. right. by exists p.
  - intros [= <- <- <-]. left. apply refused_left. by split; eauto.
Qed.
(** The run folders keep their names. *)
Lemma runs_after_named w w' : runs_after w w' → well_named w → well_named w'.
Proof.
  intros Hr Hn id rec. destruct Hr as [->|(c&ts&mk&wr&->)]; [apply Hn|].
  unfold RunStore.Create. destruct (Config.Validate _); [|apply Hn].
  unfold RunStore.Dir. destruct (RunStore.runIDPattern _); [|apply Hn]. cbn.
  destruct mk, wr; cbn; try apply Hn.
  all: rewrite lookup_insert_Some; intros [[<- ?]|[_ Hl]]; [|by apply Hn].
  all: by simplify_eq/=.
Qed.

Lemma outcome_named a w w' r x : outcome a w w' r x → well_named w → well_named w'.
Proof.
  intros Ho Hn. destruct x as [[id wk]|]; cbn in Ho.
  - unfold started in Ho. destruct (is_job wk).
    + destruct Ho as [[_ _ _ (_&Hr&_) _] _]. apply (runs_after_named w); [by left|done].
    + destruct Ho as [_ _ Hr _ _]. by eapply runs_after_named.
  - destruct Ho as [(_&_&_&Hr)|(id&_&[->|(p&[_ _ _ (rec&ev&Hf&_&_&_&_&_&_&_&->)])])]; [by eapply runs_after_named|done|].
    intros i rec'. cbn. rewrite lookup_insert_Some. intros [[<- [= <-]]|[_ Hl]]; [|by apply Hn].
    by apply Hn in Hf.
Qed.

(** C13: a run phase, a job or a fault starts only when everything it needs
    holds. A phase that is answered 202 has the run to itself, with no reset
    and no fault on the network, and its run is stored with a configuration
    that its kind allows: encrypted ballots for what reads them, a network for
    an on-chain run, memory and disk for a new one, the signed-in trustee's own
    shares after the close, a publish past the threshold by a trustee of that
    election, a resume with a plan. A job has the console to itself. A fault is
    armed only on an idle network, for a run that has opened no ballot window.
    Whatever starts nothing leaves the locks and the journals alone. The run
    folders are named after their runs, and stay so. *)
Theorem started_work_is_allowed a m q w w' r x :
  well_named w →
  handle paused h fabric CeremonyStatus submittingTrustee loadBundle closeRecorded a m q w = Some (w', r, x) →
  outcome a w w' r x ∧ well_named w'.
Proof.
  intros Hn Ho. cut (outcome a w w' r x); [intros Hout; split; [done|by eapply outcome_named]|]. revert Ho.
  destruct q; cbn [handle]; [| | | | | | | | |apply run_action_outcome| |];
    intros Ho; apply (inj Some) in Ho; revert Ho.
  all: try (apply create_outcome; [first [apply starts_generate|apply starts_run_all]|done]).
  all: try first [apply ladder_outcome | apply reset_outcome].
  all: apply dispatch_outcome;
    [first [apply starts_submit|apply starts_verify|apply starts_scenarios|by apply starts_ceremony_start
           |apply starts_ceremony_submit|by apply starts_ceremony_publish|apply starts_attack]|].
  all: intros b _; repeat match goal with b : (_ * _)%type |- _ => destruct b end;
    do 3 eexists; (split; [|reflexivity]); done.
Qed.
End facts.
End ServerFacts.
