(* ===== verification/Hub.v ===== *)
(** * Progress events

    [saksi-campaign/sse.go] and the handlers of [server.go] that use it: phases
    publish progress lines for a run, each connected page gets them through a
    channel of its own. The hub's methods are critical sections of its lock; a
    page's handler loops on its channel. A send on a closed channel panics. *)
From S2P Require Import Prelude GoText RunStore Exclusion Server.
From stdpp Require Import gmap.
#[local] Open Scope Z_scope.

Module Hub.

Record Event := MkEvent { Phase : string; Level : string; Msg : string }.

(** One page's channel: what is buffered, whether it is closed, and what its
    handler has written to the page. *)
Record channel := MkChannel { run : string; buf : list Event; closed : bool; wrote : list Event }.

Record hub := MkHub { subs : gmap string (gset nat); chans : gmap nat channel; next : nat }.

Definition NewHub : hub := MkHub ∅ ∅ 0.

(** [make(chan Event, 64)]. *)
Definition buffer : nat := 64.

Definition subscribers (r : string) (h : hub) : gset nat := default ∅ (subs h !! r).

Definition Subscribe (r : string) (h : hub) : hub * nat :=
  let c := next h in
  (MkHub (<[r := {[c]} ∪ subscribers r h]> (subs h)) (<[c := MkChannel r [] false []]> (chans h)) (S c), c).

(** The cancel function, which acts once. *)
Definition unsubscribe (c : nat) (h : hub) : hub :=
  match chans h !! c with
  | Some ch =>
      if closed ch then h
      else
        let m := subscribers (run ch) h ∖ {[c]} in
        MkHub (match subs h !! run ch with
               | Some _ => if decide (m = ∅) then delete (run ch) (subs h) else <[run ch := m]> (subs h)
               | None => subs h
               end)
          (<[c := MkChannel (run ch) (buf ch) true (wrote ch)]> (chans h)) (next h)
  | None => h
  end.

Definition push (e : Event) (ch : channel) : channel :=
  if (length (buf ch) <? buffer)%nat then MkChannel (run ch) (buf ch ++ [e]) (closed ch) (wrote ch) else ch.

(** [select { case ch <- e: default: }]. *)
Definition send (e : Event) (h : hub) (c : nat) : option hub :=
  match chans h !! c with
  | Some ch => if closed ch then None else Some (MkHub (subs h) (<[c := push e ch]> (chans h)) (next h))
  | None => None
  end.

Definition Publish (r : string) (e : Event) (h : hub) : option hub :=
  foldl (λ o c, h ← o; send e h c) (Some h) (elements (subscribers r h)).

(** [handleEvents]: the page connects; an event is received and written; the
    page leaves, or the channel is found closed. *)
Definition receive (c : nat) (h : hub) : hub :=
  match chans h !! c with
  | Some ch =>
      match closed ch, buf ch with
      | false, e :: rest =>
          MkHub (subs h) (<[c := MkChannel (run ch) rest false (wrote ch ++ [e])]> (chans h)) (next h)
      | _, _ => h
      end
  | None => h
  end.

Inductive hub_action :=
| Connect (r : string)
| Deliver (c : nat)
| Leave (c : nat)
| Pub (r : string) (e : Event).

(** [handleEvents] refuses a request that names no run. *)
Definition hub_step (a : hub_action) (h : hub) : option hub :=
  match a with
  | Connect r => if String.eqb r "" then Some h else Some (Subscribe r h).1
  | Deliver c => Some (receive c h)
  | Leave c => Some (unsubscribe c h)
  | Pub r e => Publish r e h
  end.

Fixpoint run_hub (l : list hub_action) (h : hub) : option hub :=
  match l with [] => Some h | a :: l => h ← hub_step a h; run_hub l h end.

(** [handleCancel]: the phase's context is cancelled, and its pages are told. *)
Definition cancelled : Event := MkEvent "cancel" "info" "cancellation requested".

Definition handleCancel (method : string) (body : option string) (busy : gset string) (h : hub) :
    Server.chk (string * option hub) :=
  Server.cbind (Server.runIDFromBody method body) (λ id,
  Server.cbind (Server.need (bool_decide (id ∈ busy)) 409 (Server.say "no phase running on this run")) (λ _,
  inr (id, Publish id cancelled h))).

(** ** What a page gets, told without the hub *)

(** One page: its run, whether it is still connected, what waits for it and
    what it has been written. *)
Record page := MkPage { prun : string; live : bool; waiting : list Event; got : list Event }.

Definition connects (a : hub_action) : nat :=
  match a with Connect r => if String.eqb r "" then 0 else 1 | _ => 0 end.

(** What an action does to the [c]th page to connect, when [n] have. *)
Definition advance (c : nat) (a : hub_action) (n : nat) (p : option page) : option page :=
  match a with
  | Connect r => if negb (String.eqb r "") && (n =? c)%nat then Some (MkPage r true [] []) else p
  | Deliver c' =>
      p ← p; Some (if (c' =? c)%nat
                   then match live p, waiting p with
                        | true, e :: rest => MkPage (prun p) true rest (got p ++ [e])
                        | _, _ => p
                        end
                   else p)
  | Leave c' => p ← p; Some (if (c' =? c)%nat then MkPage (prun p) false (waiting p) (got p) else p)
  | Pub r e =>
      p ← p; Some (if live p && String.eqb (prun p) r && (length (waiting p) <? buffer)%nat
                   then MkPage (prun p) true (waiting p ++ [e]) (got p) else p)
  end.

(** The event a page is due: one of its run, while it is connected. *)
Definition due_now (a : hub_action) (p : option page) : list Event :=
  match a, p with Pub r e, Some p => if live p && String.eqb (prun p) r then [e] else [] | _, _ => [] end.

Definition full (p : option page) : bool :=
  match p with Some p => (buffer <=? length (waiting p))%nat | None => false end.

(** What becomes of the [c]th page over a history; the events it was due, and
    how many of them met a full buffer. *)
Fixpoint story (c : nat) (l : list hub_action) (n : nat) (p : option page) : option page :=
  match l with [] => p | a :: l => story c l (connects a + n) (advance c a n p) end.

Fixpoint due (c : nat) (l : list hub_action) (n : nat) (p : option page) : list Event :=
  match l with [] => [] | a :: l => due_now a p ++ due c l (connects a + n) (advance c a n p) end.

Fixpoint missed (c : nat) (l : list hub_action) (n : nat) (p : option page) : nat :=
  match l with
  | [] => 0
  | a :: l => (if full p then length (due_now a p) else 0) + missed c l (connects a + n) (advance c a n p)
  end.

(** The page of a channel. *)
Definition page_of (ch : channel) : page := MkPage (run ch) (negb (closed ch)) (buf ch) (wrote ch).

(** ** The hub's invariant *)
Record hub_ok (h : hub) : Prop := {
  ok_subs : ∀ r c, c ∈ subscribers r h → ∃ ch, chans h !! c = Some ch ∧ closed ch = false ∧ run ch = r;
  ok_open : ∀ c ch, chans h !! c = Some ch → closed ch = false → c ∈ subscribers (run ch) h;
  ok_some : ∀ r s, subs h !! r = Some s → s ≠ ∅;
  ok_next : ∀ c ch, chans h !! c = Some ch → (c < next h)%nat ∧ (length (buf ch) ≤ buffer)%nat
}.

Lemma new_ok : hub_ok NewHub.
Proof.
  split.
  - intros r c. unfold subscribers. cbn. rewrite lookup_empty. set_solver.
  - intros c ch. cbn. by rewrite lookup_empty.
  - intros r s. cbn. by rewrite lookup_empty.
  - intros c ch. cbn. by rewrite lookup_empty.
Qed.

Lemma subscribers_insert r s r' h :
  subscribers r' (MkHub (<[r := s]> (subs h)) (chans h) (next h)) = if decide (r = r') then s else subscribers r' h.
Proof.
  unfold subscribers. cbn. case_decide as E; [subst; by rewrite lookup_insert_eq|by rewrite lookup_insert_ne].
Qed.

(** Sends to subscribers, one after another. *)
Lemma sends_spec e cs : ∀ h,
  NoDup cs → (∀ c, c ∈ cs → ∃ ch, chans h !! c = Some ch ∧ closed ch = false) →
  ∃ h', foldl (λ o c, h ← o; send e h c) (Some h) cs = Some h' ∧ subs h' = subs h ∧ next h' = next h ∧
    ∀ c, chans h' !! c = if decide (c ∈ cs) then push e <$> chans h !! c else chans h !! c.
Proof.
  induction cs as [|c cs IH]; intros h Hnd Hopen.
  { exists h. split_and!; [done..|]. intros c. by rewrite decide_False by set_solver. }
  apply NoDup_cons in Hnd as [Hc Hnd]. destruct (Hopen c) as (ch&Hch&Hcl); [set_solver|].
  cbn [foldl]. unfold send at 2. cbn. rewrite Hch, Hcl. cbn.
  destruct (IH (MkHub (subs h) (<[c := push e ch]> (chans h)) (next h))) as (h'&Hf&Hs&Hn&Hall); [done| |].
  { intros c' Hc'. cbn. rewrite lookup_insert_ne by (intros ->; done). apply Hopen. set_solver. }
  exists h'. split_and!; [exact Hf|done|done|]. intros c'. rewrite Hall. cbn.
  destruct (decide (c' = c)) as [->|Hne].
  - rewrite decide_False by done. rewrite lookup_insert_eq, decide_True by set_solver. by rewrite Hch.
  - rewrite lookup_insert_ne by done. destruct (decide (c' ∈ cs)); [by rewrite decide_True by set_solver|].
    by rewrite decide_False by set_solver.
Qed.

Lemma push_run e ch : run (push e ch) = run ch ∧ closed (push e ch) = closed ch ∧ wrote (push e ch) = wrote ch.
Proof. unfold push. by destruct (_ <? _)%nat. Qed.

Lemma Publish_ok r e h :
  hub_ok h → ∃ h', Publish r e h = Some h' ∧ hub_ok h' ∧ next h' = next h ∧
    ∀ c, chans h' !! c = if decide (c ∈ subscribers r h) then push e <$> chans h !! c else chans h !! c.
Proof.
  intros [Hs Ho Hne Hn]. unfold Publish.
  destruct (sends_spec e (elements (subscribers r h)) h) as (h'&Hf&Hsub&Hnx&Hall).
  - apply NoDup_elements.
  - intros c Hc. apply elem_of_elements in Hc. destruct (Hs r c Hc) as (ch&?&?&_). by exists ch.
  - assert (Hall' : ∀ c, chans h' !! c = if decide (c ∈ subscribers r h) then push e <$> chans h !! c else chans h !! c).
    { intros c. rewrite Hall. destruct (decide (c ∈ subscribers r h)).
      - by rewrite decide_True by (by apply elem_of_elements).
      - by rewrite decide_False by (by rewrite elem_of_elements). }
    assert (Hback : ∀ c ch, chans h' !! c = Some ch → ∃ ch0, chans h !! c = Some ch0 ∧ run ch = run ch0 ∧
              closed ch = closed ch0 ∧ (length (buf ch0) ≤ buffer → length (buf ch) ≤ buffer)%nat).
    { intros c ch. rewrite Hall'. destruct (decide _).
      - intros (ch0&Hch0&->)%fmap_Some. exists ch0. destruct (push_run e ch0) as (H1&H2&_).
        split_and!; [done..|]. unfold push. destruct (Nat.ltb_spec (length (buf ch0)) buffer); [|done].
        cbn. rewrite length_app. cbn. lia.
      - intros Hch. by exists ch. }
    exists h'. split; [done|]. split; [|by split]. unfold subscribers in *. rewrite <-Hsub in *. split.
    + intros r' c Hc. destruct (Hs r' c Hc) as (ch&Hch&Hcl&Hr). rewrite Hall'. destruct (decide _).
      * rewrite Hch. cbn. exists (push e ch). destruct (push_run e ch) as (->&->&_). done.
      * by exists ch.
    + intros c ch Hch Hcl. destruct (Hback c ch Hch) as (ch0&Hch0&->&E&_). apply Ho; [done|congruence].
    + done.
    + intros c ch Hch. destruct (Hback c ch Hch) as (ch0&Hch0&_&_&Hb). rewrite Hnx.
      destruct (Hn c ch0 Hch0). auto.
Qed.

Lemma receive_ok c h : hub_ok h → hub_ok (receive c h).
Proof.
  intros Hok. unfold receive. destruct (chans h !! c) as [ch|] eqn:Ec; [|done].
  destruct (closed ch) eqn:Ecl; [done|]. destruct (buf ch) as [|e rest] eqn:Eb; [done|].
  destruct Hok as [Hs Ho Hne Hn].
  split; unfold subscribers in *; cbn.
    + intros r c' Hc'. destruct (Hs r c' Hc') as (ch'&Hch'&Hcl'&Hr). destruct (decide (c' = c)) as [->|Hd].
      * rewrite lookup_insert_eq. eexists. split; [done|]. cbn. split; [done|]. congruence.
      * rewrite lookup_insert_ne by done. by exists ch'.
    + intros c' ch'. rewrite lookup_insert_Some. intros [[<- <-]|[Hd Hc']]; [|by apply Ho].
      intros _. cbn. by apply Ho.
    + done.
    + intros c' ch'. rewrite lookup_insert_Some. intros [[<- <-]|[Hd Hc']]; [|by apply Hn].
      cbn. destruct (Hn c ch Ec) as [? Hb]. rewrite Eb in Hb. cbn in Hb. split; [done|lia].
Qed.

Lemma next_free h : hub_ok h → chans h !! next h = None.
Proof.
  intros Hok. destruct (chans h !! next h) as [ch|] eqn:E; [|done]. destruct (ok_next h Hok _ _ E). lia.
Qed.

Lemma subscribe_ok r h : hub_ok h → hub_ok (Subscribe r h).1.
Proof.
  intros [Hs Ho Hne Hn].
  assert (Hnew : chans h !! next h = None) by by apply next_free.
  split; cbn.
    + intros r' c. unfold subscribers. cbn. destruct (decide (r' = r)) as [->|Hd].
      * rewrite lookup_insert_eq. cbn. intros [->%elem_of_singleton|Hc]%elem_of_union.
        -- rewrite lookup_insert_eq. by eexists.
        -- destruct (Hs r c Hc) as (ch&Hch&Hr). rewrite lookup_insert_ne by congruence. by exists ch.
      * rewrite lookup_insert_ne by done. intros Hc. destruct (Hs r' c Hc) as (ch&Hch&Hr).
        rewrite lookup_insert_ne by congruence. by exists ch.
    + intros c ch. unfold subscribers. cbn. rewrite lookup_insert_Some. intros [[<- <-]|[Hd Hc]] Hcl; cbn.
      * rewrite lookup_insert_eq. set_solver.
      * pose proof (Ho c ch Hc Hcl) as Hin. unfold subscribers in Hin. destruct (decide (run ch = r)) as [E|Hd'].
        -- rewrite E in Hin |- *. rewrite lookup_insert_eq. change (c ∈ {[next h]} ∪ default ∅ (subs h !! r)). apply elem_of_union. by right.
        -- by rewrite lookup_insert_ne.
    + intros r' s. rewrite lookup_insert_Some. intros [[<- <-]|[Hd Hc]]; [set_solver|by eapply Hne].
    + intros c ch. rewrite lookup_insert_Some. intros [[<- <-]|[Hd Hc]]; cbn; [unfold buffer; lia|].
      destruct (Hn c ch Hc). lia.
Qed.

Lemma unsubscribe_ok c h : hub_ok h → hub_ok (unsubscribe c h).
Proof.
  intros Hok. unfold unsubscribe. destruct (chans h !! c) as [ch|] eqn:Ec; [|done].
  destruct (closed ch) eqn:Ecl; [done|]. destruct Hok as [Hs Ho Hne Hn].
  pose proof (Ho c ch Ec Ecl) as Hin. unfold subscribers in Hin.
  destruct (subs h !! run ch) as [s|] eqn:Es; [|cbn in Hin; set_solver]. cbn in Hin.
  set (m := subscribers (run ch) h ∖ {[c]}).
  assert (Hm : m = s ∖ {[c]}) by (unfold m, subscribers; by rewrite Es).
  set (subs' := if decide (m = ∅) then delete (run ch) (subs h) else <[run ch := m]> (subs h)).
  assert (Hsub : ∀ r, default ∅ (subs' !! r) = subscribers r h ∖ {[c]}).
  { intros r. unfold subs'. destruct (decide (r = run ch)) as [->|Hd].
    - change (subscribers (run ch) h ∖ {[c]}) with m.
      destruct (decide (m = ∅)) as [E|_]; [rewrite lookup_delete_eq; by rewrite E|by rewrite lookup_insert_eq].
    - assert (Hnc : c ∉ subscribers r h).
      { intros Hc. destruct (Hs r c Hc) as (ch'&Hch'&_&Hr). congruence. }
      destruct (decide (m = ∅)); [rewrite lookup_delete_ne by done|rewrite lookup_insert_ne by done];
        change (default ∅ (subs h !! r)) with (subscribers r h); set_solver. }
  split; unfold subscribers; cbn; fold subs'.
    + intros r c'. rewrite Hsub. intros [Hc' Hd]%elem_of_difference.
      destruct (Hs r c' Hc') as (ch'&Hch'&Hr). rewrite lookup_insert_ne by set_solver. by exists ch'.
    + intros c' ch'. rewrite lookup_insert_Some. intros [[<- <-]|[Hd Hc']] Hcl'; [done|].
      rewrite Hsub. apply elem_of_difference. split; [by apply Ho|set_solver].
    + intros r s'. unfold subs'. destruct (decide (m = ∅)) as [E|E].
      * intros Hr. apply lookup_delete_Some in Hr as [_ Hr]. by eapply Hne.
      * rewrite lookup_insert_Some. intros [[<- <-]|[_ Hr]]; [done|by eapply Hne].
    + intros c' ch'. rewrite lookup_insert_Some. intros [[<- <-]|[Hd Hc']]; [|by apply Hn]. cbn. by apply Hn.
Qed.

Lemma sublist_same_length {A} (l k : list A) : l `sublist_of` k → (length k ≤ length l)%nat → l = k.
Proof.
  induction 1 as [|x l k Hs IH|x l k Hs IH]; cbn; intros Hl; [done| |].
  - f_equal. apply IH. lia.
  - apply sublist_length in Hs. lia.
Qed.

(** Every action is possible, and does to each page what it would alone. *)
Lemma hub_step_page a h :
  hub_ok h → ∃ h', hub_step a h = Some h' ∧ hub_ok h' ∧ next h' = (connects a + next h)%nat ∧
    ∀ c, page_of <$> chans h' !! c = advance c a (next h) (page_of <$> chans h !! c).
Proof.
  intros Hok. destruct a as [r|c|c|r e]; cbn [hub_step advance connects].
  - destruct (String.eqb r ""); [by exists h|]. eexists. split; [done|]. split; [by apply subscribe_ok|].
    split; [done|]. intros c. cbn [Subscribe fst chans negb andb]. destruct (Nat.eqb_spec (next h) c) as [<-|Hd].
    + by rewrite lookup_insert_eq.
    + by rewrite lookup_insert_ne.
  - eexists. split; [done|]. split; [by apply receive_ok|]. unfold receive.
    destruct (chans h !! c) as [ch|] eqn:Ec; [destruct (closed ch) eqn:Ecl; [|destruct (buf ch) as [|e rest] eqn:Eb]|];
      (split; [done|]); intros c'; cbn [chans]; destruct (Nat.eqb_spec c c') as [<-|Hd];
      rewrite ?Ec, ?lookup_insert_eq, ?lookup_insert_ne by done; cbn; unfold page_of; rewrite ?Ecl, ?Eb; cbn; try done;
      by destruct (chans h !! c').
  - eexists. split; [done|]. split; [by apply unsubscribe_ok|]. unfold unsubscribe.
    destruct (chans h !! c) as [ch|] eqn:Ec; [destruct (closed ch) eqn:Ecl|];
      (split; [done|]); intros c'; cbn [chans]; destruct (Nat.eqb_spec c c') as [<-|Hd];
      rewrite ?Ec, ?lookup_insert_eq, ?lookup_insert_ne by done; cbn; unfold page_of; rewrite ?Ecl; try done;
      by destruct (chans h !! c').
  - destruct (Publish_ok r e h Hok) as (h'&Hp&Hok'&Hnx&Hch). exists h'. split; [done|]. split; [done|].
    split; [by rewrite Hnx|]. intros c. rewrite Hch.
    destruct (chans h !! c) as [ch|] eqn:Ec; [|by case_decide]. cbn [fmap option_fmap option_map mbind option_bind].
    destruct (decide (c ∈ subscribers r h)) as [Hc|Hc].
    + destruct (ok_subs h Hok r c Hc) as (ch'&Ec'&Hcl&Hr). rewrite Ec in Ec'. injection Ec' as <-. subst r.
      unfold page_of at 2 3 4 5 6 7 8. cbn [live prun waiting got]. rewrite Hcl, String.eqb_refl. cbn [negb andb].
      unfold push. destruct (_ <? _)%nat; unfold page_of; cbn; by rewrite ?Hcl.
    + cbn. destruct (closed ch) eqn:Hcl; cbn; [done|]. destruct (String.eqb_spec (run ch) r) as [<-|Hd]; [|done].
      destruct Hc. by apply (ok_open h Hok).
Qed.

Lemma run_hub_pages l : ∀ h, hub_ok h → ∃ h', run_hub l h = Some h' ∧ hub_ok h' ∧
  ∀ c, page_of <$> chans h' !! c = story c l (next h) (page_of <$> chans h !! c).
Proof.
  induction l as [|a l IH]; intros h Hok; [by exists h|].
  destruct (hub_step_page a h Hok) as (h1&Ha&Hok1&Hn&Hp). destruct (IH h1 Hok1) as (h'&Hr&Hok'&Hc).
  exists h'. cbn [run_hub story]. rewrite Ha. split_and!; [done|done|]. intros c. by rewrite Hc, Hn, Hp.
Qed.

(** What came to a page is what it was due, less what met a full buffer. *)
Definition came (p : option page) : list Event := match p with Some p => got p ++ waiting p | None => [] end.

Lemma advance_came c a n p :
  (p ≠ None → n ≠ c) → came (advance c a n p) = came p ++ (if full p then [] else due_now a p).
Proof.
  intros Hn. destruct a as [r|c'|c'|r e]; cbn [advance due_now].
  - replace (if full p then [] else []) with (@nil Event) by by destruct (full p). rewrite app_nil_r.
    destruct (negb _ && _) eqn:E; [|done]. destruct p; [|done]. apply andb_true_iff in E as [_ E%Nat.eqb_eq].
    by destruct Hn.
  - replace (if full p then [] else []) with (@nil Event) by by destruct (full p). rewrite app_nil_r.
    destruct p as [[r b w g]|]; [|done]. cbn. destruct (c' =? c)%nat, b, w; cbn; by rewrite <-?app_assoc.
  - replace (if full p then [] else []) with (@nil Event) by by destruct (full p). rewrite app_nil_r.
    destruct p as [[r b w g]|]; [|done]. cbn. by destruct (c' =? c)%nat.
  - destruct p as [[r' b w g]|]; [|done]. cbn [mbind option_bind came got waiting live prun full].
    destruct (b && String.eqb r' r); cbn [andb got waiting]; [|by destruct (buffer <=? length w)%nat; rewrite app_nil_r].
    destruct (Nat.ltb_spec (length w) buffer) as [Hl|Hl].
    + rewrite (proj2 (Nat.leb_gt _ _)) by done. cbn. by rewrite (assoc_L (++)).
    + rewrite (proj2 (Nat.leb_le _ _)) by done. by rewrite app_nil_r.
Qed.

Lemma story_came c l : ∀ n p, (p ≠ None → (c < n)%nat) →
  ∃ kept, came (story c l n p) = came p ++ kept ∧ kept `sublist_of` due c l n p ∧
    (length kept + missed c l n p = length (due c l n p))%nat.
Proof.
  induction l as [|a l IH]; intros n p Hn; [exists []; by rewrite app_nil_r|]. cbn [story due missed].
  destruct (IH (connects a + n)%nat (advance c a n p)) as (kept&Hk&Hs&Hl).
  { destruct p; [intros _; specialize (Hn ltac:(done)); lia|]. destruct a as [r|?|?|?]; cbn; try done.
    destruct (String.eqb r ""); cbn; [done|]. destruct (Nat.eqb_spec n c); [lia|done]. }
  exists ((if full p then [] else due_now a p) ++ kept).
  rewrite Hk, advance_came by (intros Hp E; specialize (Hn Hp); lia). split_and!.
  - by rewrite (assoc_L (++)).
  - apply sublist_app; [|done]. destruct (full p); [apply sublist_nil_l|done].
  - rewrite !length_app. destruct (full p); cbn; lia.
Qed.

(** C33: whatever the pages and the phases do, no publication panics on a closed
    channel or waits for a page, and each page gets what it would if it were
    alone. [story] tells what becomes of the [c]th page to connect from the
    history only: while it is connected, it is handed the events published for
    its run, in their order, unless 64 of them wait for it already; and after
    every history the hub's channel of that page holds exactly what [story]
    says was written and what waits. So the two are a subsequence of the events
    due to it, short by exactly the number that met a full buffer, and all of
    them where none did. A page that has left is not kept: every run with an
    entry has a connected page. *)
Theorem pages_get_their_events l :
  ∃ h, run_hub l NewHub = Some h ∧
    (∀ c, page_of <$> chans h !! c = story c l 0 None) ∧
    (∀ c p, story c l 0 None = Some p →
       (length (waiting p) ≤ buffer)%nat ∧
       (got p ++ waiting p) `sublist_of` due c l 0 None ∧
       (length (got p ++ waiting p) + missed c l 0 None = length (due c l 0 None))%nat ∧
       (missed c l 0 None = 0%nat → got p ++ waiting p = due c l 0 None)) ∧
    (∀ r s, subs h !! r = Some s → ∃ c p, c ∈ s ∧ story c l 0 None = Some p ∧ live p = true ∧ prun p = r).
Proof.
  destruct (run_hub_pages l NewHub new_ok) as (h&Hr&Hok&Hc). cbn in Hc. setoid_rewrite lookup_empty in Hc. cbn in Hc.
  exists h. split_and!; [done|done| |].
  - intros c p Hp. destruct (story_came c l 0 None) as (kept&Hk&Hs&Hl); [done|]. rewrite Hp in Hk. cbn in Hk. subst kept.
    split_and!; [|done|done|].
    + specialize (Hc c). rewrite Hp in Hc. apply fmap_Some in Hc as (ch&Hch&->). by eapply ok_next.
    + intros Hm. apply sublist_same_length; [done|lia].
  - intros r s Hs. destruct (set_choose_L s) as [c Hcs]; [by eapply ok_some|].
    destruct (ok_subs h Hok r c) as (ch&Hch&Hcl&Hrun); [unfold subscribers; by rewrite Hs|]. exists c, (page_of ch).
    rewrite <-Hc, Hch. cbn. rewrite Hcl. by subst.
Qed.

(** Two pages of two runs; the one that leaves misses what follows. *)
Definition line (s : string) : Event := MkEvent "submit" "info" s.

Example two_pages :
  (run_hub [Connect "a"; Connect "b"; Pub "a" (line "1"); Deliver 0; Pub "b" (line "2"); Pub "a" (line "3");
            Leave 0; Pub "a" (line "4"); Leave 0; Deliver 1] NewHub ≫= λ h, Some ((λ p, (wrote p.2, buf p.2)) <$> map_to_list (chans h))) =
  Some [([line "2"], []); ([line "1"], [line "3"])].
Proof. vm_compute. reflexivity. Qed.
End Hub.
