(* ===== verification/DataCheck.v ===== *)
(** * The data-validation gate

    [saksi-campaign/check.go]: the recount of a run's ground-truth ballot table,
    its comparison with the published summary, and the report. The ballot table
    is what [bufio.Scanner] makes of it, the summary the text of its file; the
    digests of both are arguments. *)
From S2P Require Import Prelude GoText Config Jobs Csv LedgerDumpFacts RunStore Ballots Server.
From Stdlib Require Import Ascii.
#[local] Open Scope Z_scope.
Import GoText Config.

Module DataCheck.

Record Check := MkCheck { CheckName : string; CheckPass : bool; Detail : goerr }.

Definition pass (name f : string) (args : list goarg) : Check := MkCheck name true (Errorf f args).

Definition fail (name f : string) (args : list goarg) : Check := MkCheck name false (Errorf f args).

Record CheckReport := MkReport {
  RPass : bool; RChecks : list Check; RRows : Z; GBallotsSHA256 : string; GSummarySHA256 : string;
  RVoters : Z; RPositions : Z; RCandidates : Z; RDistribution : string; RElectionID : string
}.

(** [strings.Split(s, ",")]. *)
Fixpoint Split (s : string) : list string :=
  match s with
  | EmptyString => [EmptyString]
  | String c s =>
      if Ascii.eqb c ","%char then EmptyString :: Split s
      else match Split s with
           | f :: fs => String c f :: fs
           | [] => [String c EmptyString]
           end
  end.

(** What follows the last separator. *)
Fixpoint after_last (sep : ascii) (s : string) : option string :=
  match s with
  | EmptyString => None
  | String c s =>
      match after_last sep s with
      | Some t => Some t
      | None => if Ascii.eqb c sep then Some s else None
      end
  end.

Definition candidateOrdinal (label : string) : option Z :=
  match after_last "_"%char label with
  | Some EmptyString | None => None
  | Some digits => Atoi digits
  end.

(** A comma before each group of three digits but the first. *)
Fixpoint commas (first : bool) (s : string) : string :=
  match s with
  | EmptyString => EmptyString
  | String c rest =>
      if negb first && (String.length s mod 3 =? 0)%nat
      then String ","%char (String c (commas false rest)) else String c (commas false rest)
  end.

Definition withCommas (n : Z) : string := if n <? 0 then Itoa n else commas true (Itoa n).

(** ** The recount *)
Definition fixedCols : nat := 3.

Record tally := MkTally { Counts : list (list Z); Rows : Z; Ordered : bool; InRange : bool; FirstBad : option goerr }.

(** [counts[p][k]++]: the callers stay within the table. *)
Definition increment (p k : nat) (counts : list (list Z)) : list (list Z) := alter (alter Z.succ k) p counts.

Definition count_at (counts : list (list Z)) (p k : nat) : Z := default 0 (row ← counts !! p; row !! k).

Definition zero_counts (c : ElectionConfig) : list (list Z) :=
  replicate (Z.to_nat (Positions c)) (replicate (Z.to_nat (Candidates c)) 0).

(** The first complaint is kept; a kind of fault complains once. *)
Definition note (quiet : bool) (why : goerr) (first : option goerr) : option goerr :=
  match first with Some w => Some w | None => if quiet then None else Some why end.

Definition cell (fields : list string) (p : nat) : string := default EmptyString (fields !! (fixedCols + p)%nat).

(** [None]: not a candidate of the election. *)
Definition candidate (c : ElectionConfig) (label : string) : option nat :=
  k ← candidateOrdinal label;
  if (k <? 1) || (Candidates c <? k) then None else Some (Z.to_nat (k - 1)).

Definition cell_step (c : ElectionConfig) (fields : list string) (st : tally) (p : nat) : tally :=
  match candidate c (cell fields p) with
  | None =>
      MkTally (Counts st) (Rows st) (Ordered st) false
        (note (negb (InRange st))
           (Errorf "row %d, position %d: %q is not one of %d candidates"
              [AInt (Rows st); AInt (Z.of_nat p + 1); AStr (cell fields p); AInt (Candidates c)]) (FirstBad st))
  | Some k => MkTally (increment p k (Counts st)) (Rows st) (Ordered st) (InRange st) (FirstBad st)
  end.

Definition voter_number (fields : list string) : option Z :=
  Atoi (TrimPrefix (default EmptyString (fields !! 0%nat)) "V-").

Definition id_step (fields : list string) (st : tally) : tally :=
  if bool_decide (voter_number fields = Some (Rows st)) then st
  else MkTally (Counts st) (Rows st) false (InRange st)
         (note (negb (Ordered st))
            (Errorf "row %d carries voter id %q" [AInt (Rows st); AStr (default EmptyString (fields !! 0%nat))])
            (FirstBad st)).

Definition row_step (c : ElectionConfig) (width : nat) (st : tally) (line : string) : tally :=
  if String.eqb line EmptyString then st
  else
    let st := MkTally (Counts st) (Rows st + 1) (Ordered st) (InRange st) (FirstBad st) in
    let fields := Split line in
    if negb (length fields =? width)%nat then
      MkTally (Counts st) (Rows st) (Ordered st) false
        (note false
           (Errorf "row %d has %d fields, expected %d"
              [AInt (Rows st); AInt (Z.of_nat (length fields)); AInt (Z.of_nat width)]) (FirstBad st))
    else foldl (cell_step c fields) (id_step fields st) (seq 0 (Z.to_nat (Positions c))).

Definition complaint (st : tally) : goerr := default (Errorf "" []) (FirstBad st).

(** What the rows gave: the counts unless the table could not be read at all,
    the rows seen, and the checks. [None]: the file cannot be opened. *)
Definition recountBallots (f : option Ballots.stream) (c : ElectionConfig) : option (list (list Z)) * Z * list Check :=
  match f with
  | None => (None, 0, [fail "Ballot table readable" "ground-truth-ballots.csv is missing or unreadable" []])
  | Some f =>
      match Ballots.lines f with
      | [] => (None, 0, [fail "Ballot table readable" "file is empty" []])
      | first :: body =>
          let width := length (Split first) in
          if negb (Z.of_nat width =? Z.of_nat fixedCols + Positions c) then
            (None, 0, [fail "Ballot table shape" "header has %d columns, expected %d (3 fixed + %d positions)"
                         [AInt (Z.of_nat width); AInt (Z.of_nat fixedCols + Positions c); AInt (Positions c)]])
          else
            let st := foldl (row_step c width) (MkTally (zero_counts c) 0 true true None) body in
            match Ballots.scan_err f with
            | Some e => (Some (Counts st), Rows st, [fail "Ballot table readable" "read error: %v" [AErr e]])
            | None =>
                (Some (Counts st), Rows st,
                 [pass "Ballot table shape" "%d columns: voter, scale, complexity, and one per position" [AInt (Z.of_nat width)];
                  if Ordered st
                  then pass "Voter ids unique and sequential" "V-%06d through V-%06d, no duplicates or gaps" [AInt 1; AInt (Rows st)]
                  else MkCheck "Voter ids unique and sequential" false (complaint st);
                  if InRange st
                  then pass "Every selection is a real candidate" "all selections fall within the %d declared candidates" [AInt (Candidates c)]
                  else MkCheck "Every selection is a real candidate" false (complaint st)])
            end
      end
  end.

(** ** The published summary *)
Definition recountName : string := "Recount matches the published tally".

Fixpoint compare_rows (c : ElectionConfig) (counts : list (list Z)) (i : nat) (rows : list (list string)) : option Check :=
  match rows with
  | [] => None
  | r :: rows =>
      if (length r <? 3)%nat then Some (fail recountName "summary row %d is malformed" [AInt (Z.of_nat i + 1)])
      else match Atoi (TrimSpace (default EmptyString (r !! 2%nat))) with
           | None => Some (fail recountName "summary row %d has a non-numeric count" [AInt (Z.of_nat i + 1)])
           | Some published =>
               let m := Z.to_nat (Candidates c) in
               let recounted := count_at counts (i / m) (i mod m) in
               if recounted =? published then compare_rows c counts (S i) rows
               else Some (fail recountName "%s / %s: summary says %s, recount says %s"
                            [AStr (default EmptyString (r !! 0%nat)); AStr (default EmptyString (r !! 1%nat));
                             AStr (withCommas published); AStr (withCommas recounted)])
           end
  end.

(** [None]: the file cannot be opened; an error: it cannot be read. *)
Definition compareToSummary (summary : option (result string)) (counts : option (list (list Z))) (c : ElectionConfig) : Check :=
  match counts with
  | None => fail recountName "no recount available" []
  | Some counts =>
      match summary with
      | None => fail recountName "ground-truth-summary.csv is missing or unreadable" []
      | Some data =>
          match (match data with Ok d => Csv.ReadAll d | Err _ => None end) with
          | Some (_ :: r :: rows) =>
              let rows := r :: rows in
              let want := wrap64 (Positions c * Candidates c) in
              if negb (Z.of_nat (length rows) =? want) then
                fail recountName "summary has %d contest rows, expected %d" [AInt (Z.of_nat (length rows)); AInt want]
              else default (pass recountName "all %d contests agree, recounted from the ballot table" [AInt want])
                     (compare_rows c counts 0 rows)
          | _ => fail recountName "ground-truth-summary.csv is empty or malformed" []
          end
      end
  end.

(** ** The report *)
Definition total (row : list Z) : Z := foldr Z.add 0 row.

Definition balanceName : string := "No votes lost or invented".

(** The first position whose counts do not add up to the rows. *)
Fixpoint unbalanced (rows : Z) (p : nat) (counts : list (list Z)) : option (nat * Z) :=
  match counts with
  | [] => None
  | row :: counts => if total row =? rows then unbalanced rows (S p) counts else Some (p, total row)
  end.

Definition balance_check (c : ElectionConfig) (counts : list (list Z)) (rows : Z) : Check :=
  match unbalanced rows 0 (take (Z.to_nat (Positions c)) counts) with
  | None => pass balanceName "each of the %d positions totals exactly %s" [AInt (Positions c); AStr (withCommas rows)]
  | Some (p, n) =>
      fail balanceName "position %d totals %s, expected %s"
        [AInt (Z.of_nat p + 1); AStr (withCommas n); AStr (withCommas rows)]
  end.

Definition voters_check (c : ElectionConfig) (rows : Z) : Check :=
  if rows =? Voters c
  then pass "Every voter accounted for" "%s rows, one per configured voter" [AStr (withCommas rows)]
  else fail "Every voter accounted for" "found %s rows, expected %s" [AStr (withCommas rows); AStr (withCommas (Voters c))].

Definition audit (c : ElectionConfig) (ballots : option Ballots.stream) (summary : option (result string))
    (digests : string * string) : Z * list Check :=
  let '(counts, rows, structural) := recountBallots ballots c in
  (rows,
   structural ++ [voters_check c rows; compareToSummary summary counts c] ++
   (match counts with Some counts => [balance_check c counts rows] | None => [] end) ++
   (if String.eqb digests.1 EmptyString || String.eqb digests.2 EmptyString then []
    else [pass "Population fingerprinted"
            "sha256 recorded for both tables — a later encrypted run can be shown to use this exact population" []])).

(** What the journal is told. *)
Inductive stamp := CheckStart | CheckEnd (ok : bool) (rows : Z).

(** The report, which is also written to the run folder as far as that works. *)
Definition RunCheck (runID : string) (c : ElectionConfig) (ballots : option Ballots.stream)
    (summary : option (result string)) (digests : string * string) : result (CheckReport * list stamp) :=
  let? _ := RunStore.Dir runID in
  let '(rows, checks) := audit c ballots summary digests in
  let ok := forallb CheckPass checks in
  Ok (MkReport ok checks rows digests.1 digests.2 (Voters c) (Positions c) (Candidates c) (Distribution c) runID,
      [CheckStart; CheckEnd ok rows]).

(** What a run folder holds. *)
Record tables := MkTables { TBallots : option Ballots.stream; TSummary : option (result string); TDigests : string * string }.

Inductive check_reply :=
| CheckRefused (code : Z) (why : goerr)
| CheckAnswer (rep : CheckReport).

Definition handleCheck (folder : string → tables) (path : string) (w : Server.world) : check_reply :=
  match Server.validRun (TrimPrefix path "/api/check/") with
  | Err e => CheckRefused 400 e
  | Ok id =>
      match Server.record id w with
      | Err e => CheckRefused 404 e
      | Ok rec =>
          let t := folder id in
          match RunCheck id (RunStore.RConfig rec) (TBallots t) (TSummary t) (TDigests t) with
          | Err e => CheckRefused 500 e
          | Ok (rep, _) => CheckAnswer rep
          end
      end
  end.

(** ** Lemmas: the table of counts *)
Definition dims (P C : nat) (counts : list (list Z)) : Prop :=
  length counts = P ∧ Forall (λ row, length row = C) counts.

Definition row_total (counts : list (list Z)) (p : nat) : Z := default 0 (total <$> counts !! p).

Lemma total_alter row k : (k < length row)%nat → total (alter Z.succ k row) = total row + 1.
Proof.
  unfold total. revert k. induction row as [|n row IH]; intros [|k]; cbn; try lia.
  intros Hk. change (n + foldr Z.add 0 (alter Z.succ k row) = n + foldr Z.add 0 row + 1). rewrite IH; lia.
Qed.

Lemma dims_increment P C p k counts : dims P C counts → dims P C (increment p k counts).
Proof.
  intros [Hl Hr]. split; [by unfold increment; rewrite length_alter|].
  unfold increment. apply Forall_alter; [done|]. intros row _ Hlen. by rewrite length_alter.
Qed.

Section counts.
Context {P C : nat} {counts : list (list Z)} (D : dims P C counts).

Lemma dims_row p : (p < P)%nat → ∃ row, counts !! p = Some row ∧ length row = C.
Proof.
  destruct D as [Hl Hr]. intros Hp. rewrite <-Hl in Hp. apply lookup_lt_is_Some in Hp as [row Hrow].
  exists row. split; [done|]. by eapply Forall_lookup_1 in Hr.
Qed.

Lemma count_at_increment p k p' k' :
  (p < P)%nat → (k < C)%nat →
  count_at (increment p k counts) p' k' = count_at counts p' k' + Z.b2z (bool_decide (p' = p ∧ k' = k)).
Proof.
  intros Hp Hk. destruct (dims_row p Hp) as (row&Hrow&Hlen). unfold count_at, increment.
  destruct (decide (p' = p)) as [->|Hne].
  - rewrite list_lookup_alter_eq, Hrow. cbn. destruct (decide (k' = k)) as [->|Hk'].
    + rewrite list_lookup_alter_eq, bool_decide_true by done. rewrite <-Hlen in Hk.
      apply lookup_lt_is_Some in Hk as [n ->]. cbn. lia.
    + rewrite list_lookup_alter_ne by done. rewrite bool_decide_false by naive_solver. cbn. lia.
  - rewrite list_lookup_alter_ne by done. rewrite bool_decide_false by naive_solver. cbn. lia.
Qed.

Lemma row_total_increment p k p' :
  (p < P)%nat → (k < C)%nat →
  row_total (increment p k counts) p' = row_total counts p' + Z.b2z (bool_decide (p' = p)).
Proof.
  intros Hp Hk. destruct (dims_row p Hp) as (row&Hrow&Hlen). unfold row_total, increment.
  destruct (decide (p' = p)) as [->|Hne].
  - rewrite list_lookup_alter_eq, Hrow, bool_decide_true by done. cbn. apply total_alter. lia.
  - rewrite list_lookup_alter_ne by done. rewrite bool_decide_false by done. cbn. lia.
Qed.
End counts.

Lemma dims_zero c : dims (Z.to_nat (Positions c)) (Z.to_nat (Candidates c)) (zero_counts c).
Proof. unfold zero_counts. split; [apply length_replicate|]. apply Forall_replicate, length_replicate. Qed.

Lemma count_at_zero c p k : count_at (zero_counts c) p k = 0.
Proof.
  unfold count_at, zero_counts. destruct (replicate _ _ !! p) as [row|] eqn:E; [|done].
  apply lookup_replicate in E as [-> _]. cbn. destruct (replicate _ _ !! k) eqn:E; [|done].
  by apply lookup_replicate in E as [-> _].
Qed.

Lemma row_total_zero c p : row_total (zero_counts c) p = 0.
Proof.
  unfold row_total, zero_counts. destruct (replicate _ _ !! p) as [row|] eqn:E; [|done].
  apply lookup_replicate in E as [-> _]. cbn. unfold total. by induction (Z.to_nat (Candidates c)).
Qed.

(** The text of a number is its digits with commas between. *)
Lemma commas_digits first s :
  str_forallb is_digit s = true → replace_char ","%char EmptyString (commas first s) = s.
Proof.
  revert first. induction s as [|d s IH]; intros first; [done|]. cbn [str_forallb commas]. intros [Hd Hs]%andb_true_iff.
  assert (Hc : Ascii.eqb d ","%char = false) by by destruct d as [[] [] [] [] [] [] [] []].
  destruct (_ && _); cbn [replace_char]; rewrite ?Ascii.eqb_refl, Hc, IH by done; done.
Qed.

Lemma withCommas_digits n : 0 ≤ n → replace_char ","%char EmptyString (withCommas n) = Itoa n.
Proof.
  intros Hn. unfold withCommas. rewrite (proj2 (Z.ltb_ge _ _)) by lia. apply commas_digits.
  destruct (Itoa_digits n Hn) as [Hd _]. by apply andb_true_iff in Hd as [_ ?].
Qed.

(** ** Lemmas: one row *)
Section rows.
Context (c : ElectionConfig).
Let P := Z.to_nat (Positions c).
Let C := Z.to_nat (Candidates c).

Lemma candidate_lt label k : candidate c label = Some k → (k < C)%nat.
Proof.
  unfold candidate. destruct (candidateOrdinal label) as [n|]; cbn; [|done].
  destruct (Z.ltb_spec n 1), (Z.ltb_spec (Candidates c) n); cbn; try done. intros [= <-]. unfold C. lia.
Qed.

Lemma cells_spec fields ps st :
  NoDup ps → Forall (λ p, (p < P)%nat) ps → dims P C (Counts st) →
  let st' := foldl (cell_step c fields) st ps in
  dims P C (Counts st') ∧ Rows st' = Rows st ∧ Ordered st' = Ordered st ∧
  InRange st' = InRange st && forallb (λ p, bool_decide (is_Some (candidate c (cell fields p)))) ps ∧
  (∀ p k, count_at (Counts st') p k =
     count_at (Counts st) p k + Z.b2z (bool_decide (p ∈ ps ∧ candidate c (cell fields p) = Some k))) ∧
  (∀ p, row_total (Counts st') p =
     row_total (Counts st) p + Z.b2z (bool_decide (p ∈ ps ∧ is_Some (candidate c (cell fields p))))).
Proof.
  revert st. induction ps as [|q ps IH]; intros st Hnd Hps D.
  - cbn. rewrite andb_true_r. split_and!; try done; intros; rewrite bool_decide_false by (by intros [?%elem_of_nil _]); cbn; lia.
  - apply NoDup_cons in Hnd as [Hq Hnd]. apply Forall_cons in Hps as [HqP Hps]. cbn [foldl forallb].
    destruct (candidate c (cell fields q)) as [k0|] eqn:E.
    + set (st1 := cell_step c fields st q). pose proof (candidate_lt _ _ E) as Hk.
      assert (Hs : Counts st1 = increment q k0 (Counts st) ∧ Rows st1 = Rows st ∧ Ordered st1 = Ordered st ∧ InRange st1 = InRange st)
        by (unfold st1, cell_step; by rewrite E). destruct Hs as (Hs1&Hs2&Hs3&Hs4).
      assert (D1 : dims P C (Counts st1)) by (rewrite Hs1; by apply dims_increment).
      destruct (IH st1 Hnd Hps D1) as (?&Hr&Ho&Hi&Hc&Ht). rewrite Hs1, Hs2, Hs3, Hs4 in *.
      rewrite (bool_decide_true (is_Some _)) by done. split_and!; try done.
      * intros p k. rewrite Hc, (count_at_increment D) by done. destruct (decide (p = q)) as [->|Hne].
        -- rewrite (bool_decide_false (q ∈ ps ∧ _)) by naive_solver. rewrite E.
           replace (bool_decide (q = q ∧ k = k0)) with (bool_decide (q ∈ q :: ps ∧ Some k0 = Some k)); [cbn; lia|].
           apply bool_decide_ext. rewrite elem_of_cons. naive_solver.
        -- rewrite (bool_decide_false (p = q ∧ _)) by naive_solver.
           replace (bool_decide (p ∈ q :: ps ∧ candidate c (cell fields p) = Some k))
             with (bool_decide (p ∈ ps ∧ candidate c (cell fields p) = Some k)); [cbn; lia|].
           apply bool_decide_ext. rewrite elem_of_cons. naive_solver.
      * intros p. rewrite Ht, (row_total_increment D) by done. destruct (decide (p = q)) as [->|Hne].
        -- rewrite (bool_decide_false (q ∈ ps ∧ _)) by naive_solver. rewrite (bool_decide_true (q = q)) by done.
           rewrite bool_decide_true; [cbn; lia|]. rewrite E. split; [by left|done].
        -- rewrite (bool_decide_false (p = q)) by done.
           replace (bool_decide (p ∈ q :: ps ∧ is_Some (candidate c (cell fields p))))
             with (bool_decide (p ∈ ps ∧ is_Some (candidate c (cell fields p)))); [cbn; lia|].
           apply bool_decide_ext. rewrite elem_of_cons. naive_solver.
    + set (st1 := cell_step c fields st q).
      assert (Hs : Counts st1 = Counts st ∧ Rows st1 = Rows st ∧ Ordered st1 = Ordered st ∧ InRange st1 = false)
        by (unfold st1, cell_step; by rewrite E). destruct Hs as (Hs1&Hs2&Hs3&Hs4).
      assert (D1 : dims P C (Counts st1)) by by rewrite Hs1.
      destruct (IH st1 Hnd Hps D1) as (?&Hr&Ho&Hi&Hc&Ht). rewrite Hs1, Hs2, Hs3, Hs4 in *.
      rewrite (bool_decide_false (is_Some _)) by (by intros [? ?]). split_and!; try done.
      * rewrite Hi. cbn. by rewrite andb_false_r.
      * intros p k. rewrite Hc. do 2 f_equal. apply bool_decide_ext. rewrite elem_of_cons. split; [naive_solver|].
        intros [[->|?] He]; [by rewrite E in He|done].
      * intros p. rewrite Ht. do 2 f_equal. apply bool_decide_ext. rewrite elem_of_cons. split; [naive_solver|].
        intros [[->|?] He]; [rewrite E in He; by destruct He|done].
Qed.

Definition fits (w : nat) (line : string) : bool := (length (Split line) =? w)%nat.

Definition selects (line : string) (p : nat) : option nat := candidate c (cell (Split line) p).

Definition in_range (w : nat) (line : string) : bool :=
  fits w line && forallb (λ p, bool_decide (is_Some (selects line p))) (seq 0 P).

Definition numbered (w : nat) (n : Z) (line : string) : bool :=
  negb (fits w line) || bool_decide (voter_number (Split line) = Some n).

Lemma b2z_and (Q : Prop) `{Decision Q} p :
  (p < P)%nat → Z.b2z (bool_decide (p ∈ seq 0 P ∧ Q)) = Z.b2z (bool_decide Q).
Proof.
  intros Hp. f_equal. apply bool_decide_ext. rewrite elem_of_seq. split; [by intros [_ ?]|intros ?; split; [lia|done]].
Qed.

Lemma row_spec w st line :
  line ≠ EmptyString → dims P C (Counts st) →
  let st' := row_step c w st line in
  dims P C (Counts st') ∧ Rows st' = Rows st + 1 ∧
  Ordered st' = Ordered st && numbered w (Rows st + 1) line ∧ InRange st' = InRange st && in_range w line ∧
  (∀ p k, (p < P)%nat →
     count_at (Counts st') p k = count_at (Counts st) p k + Z.b2z (fits w line && bool_decide (selects line p = Some k))) ∧
  (∀ p, (p < P)%nat →
     row_total (Counts st') p = row_total (Counts st) p + Z.b2z (fits w line && bool_decide (is_Some (selects line p)))).
Proof.
  intros Hne D. unfold row_step, numbered, in_range, fits.
  rewrite (proj2 (String.eqb_neq _ _)) by done. cbn [Counts Rows Ordered InRange FirstBad].
  destruct (length (Split line) =? w)%nat eqn:Ew; cbn [negb orb andb].
  - set (st1 := id_step (Split line) _).
    assert (Hs : Counts st1 = Counts st ∧ Rows st1 = Rows st + 1 ∧ InRange st1 = InRange st ∧
                 Ordered st1 = Ordered st && bool_decide (voter_number (Split line) = Some (Rows st + 1))).
    { unfold st1, id_step. cbn [Rows]. case_bool_decide; cbn; [by rewrite andb_true_r|by rewrite andb_false_r]. }
    destruct Hs as (Hs1&Hs2&Hs3&Hs4). assert (D1 : dims P C (Counts st1)) by by rewrite Hs1.
    destruct (cells_spec (Split line) (seq 0 P) st1) as (?&Hr&Ho&Hi&Hc&Ht);
      [apply NoDup_seq|apply Forall_forall; intros p [_ ?]%elem_of_seq; lia|done|].
    rewrite Hs1, Hs2, Hs3, Hs4 in *. split_and!; try done.
    + intros p k Hp. rewrite Hc, b2z_and by done. done.
    + intros p Hp. rewrite Ht, b2z_and by done. done.
  - rewrite andb_true_r, andb_false_r. split_and!; try done; intros; cbn; lia.
Qed.

(** Every row that is not blank. *)
Lemma rows_spec w lines st :
  Forall (λ l, l ≠ EmptyString) lines → dims P C (Counts st) →
  let st' := foldl (row_step c w) st lines in
  dims P C (Counts st') ∧ Rows st' = Rows st + Z.of_nat (length lines) ∧
  (Ordered st' = true ↔ Ordered st = true ∧ ∀ i line, lines !! i = Some line → numbered w (Rows st + Z.of_nat i + 1) line = true) ∧
  InRange st' = InRange st && forallb (in_range w) lines ∧
  (∀ p k, (p < P)%nat → count_at (Counts st') p k = count_at (Counts st) p k +
     Z.of_nat (length (filter (λ l, fits w l && bool_decide (selects l p = Some k) = true) lines))) ∧
  (∀ p, (p < P)%nat → row_total (Counts st') p = row_total (Counts st) p +
     Z.of_nat (length (filter (λ l, fits w l && bool_decide (is_Some (selects l p)) = true) lines))).
Proof.
  revert st. induction lines as [|line lines IH]; intros st Hne D.
  - cbn. rewrite andb_true_r, Z.add_0_r. split_and!; try done; [naive_solver|intros; lia..].
  - apply Forall_cons in Hne as [Hl Hne]. cbn [foldl].
    destruct (row_spec w st line Hl D) as (D1&Hr1&Ho1&Hi1&Hc1&Ht1).
    destruct (IH _ Hne D1) as (?&Hr&Ho&Hi&Hc&Ht). rewrite Hr1, Ho1, Hi1 in *. split_and!; [done| | | | |].
    + rewrite Hr. cbn [length]. lia.
    + rewrite Ho, andb_true_iff. split.
      * intros [[H1 H2] H3]. split; [done|]. intros [|i] l; cbn; [intros [= <-]; by rewrite Z.add_0_r|].
        intros Hx. replace (Rows st + Z.of_nat (S i) + 1) with (Rows st + 1 + Z.of_nat i + 1) by lia. by apply H3.
      * intros [H1 H2]. split; [split; [done|]|].
        -- specialize (H2 0%nat line eq_refl). by rewrite Z.add_0_r in H2.
        -- intros i l Hx. specialize (H2 (S i) l Hx).
           by replace (Rows st + Z.of_nat (S i) + 1) with (Rows st + 1 + Z.of_nat i + 1) in H2 by lia.
    + rewrite Hi. cbn. by rewrite andb_assoc.
    + intros p k Hp. rewrite Hc, Hc1, filter_cons by done. destruct (fits w line && _) eqn:E; cbn [Z.b2z].
      * rewrite decide_True by done. cbn [length]. lia.
      * rewrite decide_False by done. lia.
    + intros p Hp. rewrite Ht, Ht1, filter_cons by done. destruct (fits w line && _) eqn:E; cbn [Z.b2z].
      * rewrite decide_True by done. cbn [length]. lia.
      * rewrite decide_False by done. lia.
Qed.

Lemma skip_blank w lines st :
  foldl (row_step c w) st lines = foldl (row_step c w) st (filter (λ l, l ≠ EmptyString) lines).
Proof.
  revert st. induction lines as [|l lines IH]; intros st; [done|]. rewrite filter_cons. cbn [foldl].
  destruct (decide (l ≠ EmptyString)) as [Hl|Hl]; [apply IH|]. apply dec_stable in Hl as ->. apply IH.
Qed.

Lemma compare_rows_pass counts i rows :
  compare_rows c counts i rows = None ↔
  ∀ j r, rows !! j = Some r → (3 ≤ length r)%nat ∧
    Atoi (TrimSpace (default EmptyString (r !! 2%nat))) = Some (count_at counts ((i + j) / C) ((i + j) mod C)).
Proof.
  fold C. revert i. induction rows as [|r rows IH]; intros i; [naive_solver|]. cbn [compare_rows]. fold C.
  assert (Hsplit : ∀ Q : nat → list string → Prop,
    (∀ j r', (r :: rows) !! j = Some r' → Q j r') ↔ Q 0%nat r ∧ ∀ j r', rows !! j = Some r' → Q (S j) r').
  { intros Q. split; [intros H; split; [by apply H|]; intros j r'; apply (H (S j))|].
    intros [H0 H1] [|j] r'; cbn; [by intros [= <-]|apply H1]. }
  rewrite Hsplit, Nat.add_0_r. clear Hsplit. destruct (Nat.ltb_spec (length r) 3); [split; [done|intros [[? _] _]; lia]|].
  destruct (Atoi _) as [published|]; [|split; [done|by intros [[_ ?] _]]].
  destruct (Z.eqb_spec (count_at counts (i / C) (i mod C)) published) as [He|He]; [|split; [done|naive_solver]].
  rewrite IH, He. setoid_rewrite Nat.add_succ_comm. naive_solver.
Qed.

Lemma compare_rows_fails counts i rows ch : compare_rows c counts i rows = Some ch → CheckPass ch = false.
Proof.
  revert i. induction rows as [|r rows IH]; intros i; cbn [compare_rows]; [done|].
  destruct (_ <? _)%nat; [by intros [= <-]|]. destruct (Atoi _); [|by intros [= <-]].
  destruct (_ =? _); [apply IH|by intros [= <-]].
Qed.

Lemma unbalanced_pass rows p counts :
  unbalanced rows p counts = None ↔ Forall (λ row, total row = rows) counts.
Proof.
  revert p. induction counts as [|row counts IH]; intros p; cbn; [naive_solver|].
  rewrite Forall_cons. destruct (Z.eqb_spec (total row) rows); [rewrite IH|]; naive_solver.
Qed.

Lemma balance_pass counts rows :
  dims P C counts → CheckPass (balance_check c counts rows) = true ↔ ∀ p, (p < P)%nat → row_total counts p = rows.
Proof.
  intros [Hl _]. unfold balance_check. fold P. rewrite (take_ge counts P) by lia.
  assert (Hb : unbalanced rows 0 counts = None ↔ ∀ p, (p < P)%nat → row_total counts p = rows).
  { rewrite unbalanced_pass, Forall_lookup. unfold row_total. split.
    - intros H p Hp. rewrite <-Hl in Hp. apply lookup_lt_is_Some in Hp as [row Hr]. rewrite Hr. cbn. by eapply H.
    - intros H p row Hr. specialize (H p). rewrite Hr in H. apply H. rewrite <-Hl. by eapply lookup_lt_Some. }
  rewrite <-Hb. by destruct (unbalanced rows 0 counts) as [[? ?]|].
Qed.

(** ** The reference: what a valid population is *)
Definition voters_of (body : list string) : list string := filter (λ l, l ≠ EmptyString) body.

(** The voters who chose candidate [k] for position [p]. *)
Definition votes (voters : list string) (p k : nat) : Z := Z.of_nat (length (filter (λ l, selects l p = Some k) voters)).

Record valid_row (w : nat) (i : nat) (line : string) : Prop := {
  row_width : length (Split line) = w;
  row_voter : voter_number (Split line) = Some (Z.of_nat i + 1);
  row_choices : ∀ p, (p < P)%nat → is_Some (selects line p)
}.

Record valid_tables (first : string) (body : list string) (rows : list (list string)) : Prop := {
  table_width : Z.of_nat (length (Split first)) = 3 + Positions c;
  table_voters : Z.of_nat (length (voters_of body)) = Voters c;
  table_rows : ∀ i line, voters_of body !! i = Some line → valid_row (length (Split first)) i line;
  summary_rows : Z.of_nat (length rows) = Positions c * Candidates c;
  summary_counts : ∀ i r, rows !! i = Some r → (3 ≤ length r)%nat ∧
    Atoi (TrimSpace (default EmptyString (r !! 2%nat))) = Some (votes (voters_of body) (i / C) (i mod C))
}.

(** What the recount of a table with a good header gives. *)
Lemma recount_spec first body w :
  w = length (Split first) → Z.of_nat w = 3 + Positions c →
  ∃ counts structural,
    recountBallots (Some (Ballots.MkStream (first :: body) None)) c =
      (Some counts, Z.of_nat (length (voters_of body)), structural) ∧
    dims P C counts ∧
    (forallb CheckPass structural = true ↔
       (∀ i line, voters_of body !! i = Some line → numbered w (Z.of_nat i + 1) line = true) ∧
       Forall (λ l, in_range w l = true) (voters_of body)) ∧
    (∀ p k, (p < P)%nat → count_at counts p k =
       Z.of_nat (length (filter (λ l, fits w l && bool_decide (selects l p = Some k) = true) (voters_of body)))) ∧
    (∀ p, (p < P)%nat → row_total counts p =
       Z.of_nat (length (filter (λ l, fits w l && bool_decide (is_Some (selects l p)) = true) (voters_of body)))).
Proof.
  intros -> Hw. unfold recountBallots. cbn [Ballots.lines Ballots.scan_err].
  change (Z.of_nat fixedCols) with 3. rewrite (proj2 (Z.eqb_eq _ _) Hw). cbn [negb]. rewrite skip_blank.
  set (st0 := MkTally (zero_counts c) 0 true true None). fold (voters_of body).
  destruct (rows_spec (length (Split first)) (voters_of body) st0) as (D&Hr&Ho&Hi&Hc&Ht);
    [apply Forall_forall; intros l [? _]%list_elem_of_filter; done|apply dims_zero|].
  cbn [Rows Counts Ordered InRange st0] in *. do 2 eexists. split_and!; [rewrite Hr; reflexivity|done| | |].
  - set (st := foldl _ st0 _) in *. cbn [forallb CheckPass pass]. rewrite andb_true_r, andb_true_iff.
    destruct (Ordered st) eqn:Eo; cbn [CheckPass pass].
    + destruct Ho as [Ho _]. destruct (Ho eq_refl) as [_ Hn]. rewrite Forall_forall. cbn [andb] in Hi.
      assert (Hin : InRange st = true ↔ ∀ l, l ∈ voters_of body → in_range (length (Split first)) l = true)
        by (rewrite Hi, forallb_forall; by setoid_rewrite list_elem_of_In).
      destruct (InRange st); naive_solver.
    + split; [naive_solver|]. intros [Hn _]. exfalso. assert (false = true); [|done]. apply Ho. by split.
  - intros p k Hp. by rewrite Hc, count_at_zero.
  - intros p Hp. by rewrite Ht, row_total_zero.
Qed.

Lemma summary_pass summary counts :
  1 ≤ Positions c → 1 ≤ Candidates c → Positions c * Candidates c < 2 ^ 63 →
  CheckPass (compareToSummary summary (Some counts) c) = true ↔
  ∃ data head rows, summary = Some (Ok data) ∧ Csv.ReadAll data = Some (head :: rows) ∧
    Z.of_nat (length rows) = Positions c * Candidates c ∧
    ∀ i r, rows !! i = Some r → (3 ≤ length r)%nat ∧
      Atoi (TrimSpace (default EmptyString (r !! 2%nat))) = Some (count_at counts (i / C) (i mod C)).
Proof.
  intros HP HC Hm. unfold compareToSummary. destruct summary as [[data|e]|]; [|split; [done|naive_solver]..].
  destruct (Csv.ReadAll data) as [[|head [|r rows]]|] eqn:Er; [split; [done|naive_solver]| | |split; [done|naive_solver]].
  - split; [done|]. intros (d&h&rows&[= <-]&Hr&Hl&_). rewrite Er in Hr. injection Hr as <- <-. cbn in Hl. nia.
  - rewrite Gates.Gates.wrap64_small by nia.
    destruct (Z.eqb_spec (Z.of_nat (length (r :: rows))) (Positions c * Candidates c)) as [Hl|Hl]; cbn [negb].
    + pose proof (compare_rows_pass counts 0 (r :: rows)) as Hc. cbn [Nat.add] in Hc.
      assert (Hd : CheckPass (default (pass recountName "all %d contests agree, recounted from the ballot table"
                [AInt (Positions c * Candidates c)]) (compare_rows c counts 0 (r :: rows))) = true ↔
              compare_rows c counts 0 (r :: rows) = None).
      { destruct (compare_rows _ _ _ _) as [ch|] eqn:Ec; [|done]. cbn. split; [|done]. intros Hp. exfalso.
        apply compare_rows_fails in Ec. congruence. }
      rewrite Hd, Hc. split; [intros H; by exists data, head, (r :: rows)|].
      intros (d&h&rows'&[= <-]&Hr&_&H). rewrite Er in Hr. by injection Hr as <- <-.
    + split; [done|]. intros (d&h&rows'&[= <-]&Hr&Hl'&_). rewrite Er in Hr. by injection Hr as <- <-.
Qed.

(** Rows that are all in range lose no vote. *)
Lemma in_range_totals w lines p :
  (p < P)%nat → Forall (λ l, in_range w l = true) lines →
  filter (λ l, fits w l && bool_decide (is_Some (selects l p)) = true) lines = lines.
Proof.
  intros Hp. induction 1 as [|l lines Hl _ IH]; [done|]. unfold in_range in Hl. apply andb_true_iff in Hl as [Hf Ha].
  rewrite forallb_forall in Ha. rewrite filter_cons, decide_True; [by rewrite IH|].
  rewrite Hf. cbn. apply Ha, list_elem_of_In, elem_of_seq. lia.
Qed.

Lemma fitting_votes w lines p k :
  Forall (λ l, fits w l = true) lines →
  filter (λ l, fits w l && bool_decide (selects l p = Some k) = true) lines = filter (λ l, selects l p = Some k) lines.
Proof.
  induction 1 as [|l lines Hl _ IH]; [done|]. rewrite !filter_cons, Hl, IH. cbn [andb].
  destruct (decide (selects l p = Some k)) as [Hs|Hs].
  - by rewrite decide_True by by rewrite bool_decide_true.
  - by rewrite decide_False by by rewrite bool_decide_false.
Qed.

(** The row checks together. *)
Lemma rows_valid w lines :
  (∀ i line, lines !! i = Some line → numbered w (Z.of_nat i + 1) line = true) ∧ Forall (λ l, in_range w l = true) lines ↔
  ∀ i line, lines !! i = Some line → valid_row w i line.
Proof.
  rewrite Forall_lookup. unfold numbered, in_range, fits. split.
  - intros [Hn Hr] i line Hl. specialize (Hn i line Hl). specialize (Hr i line Hl).
    apply andb_true_iff in Hr as [Hf Ha]. rewrite Hf in Hn. cbn in Hn. apply bool_decide_eq_true in Hn.
    rewrite forallb_forall in Ha. split; [by apply Nat.eqb_eq|done|]. intros p Hp.
    eapply bool_decide_eq_true, Ha, list_elem_of_In, elem_of_seq. lia.
  - intros H. split; intros i line Hl; destruct (H i line Hl) as [Hw Hv Hc]; rewrite (proj2 (Nat.eqb_eq _ _) Hw); cbn.
    + by apply bool_decide_eq_true.
    + apply forallb_forall. intros p Hp%list_elem_of_In%elem_of_seq. apply bool_decide_eq_true, Hc. lia.
Qed.

Lemma audit_pass first body summary digests :
  1 ≤ Positions c → 1 ≤ Candidates c → Positions c * Candidates c < 2 ^ 63 →
  Z.of_nat (length (Split first)) = 3 + Positions c →
  forallb CheckPass (audit c (Some (Ballots.MkStream (first :: body) None)) summary digests).2 = true ↔
  ∃ data head rows, summary = Some (Ok data) ∧ Csv.ReadAll data = Some (head :: rows) ∧ valid_tables first body rows.
Proof.
  intros HP HC Hm Hw. destruct (recount_spec first body _ eq_refl Hw) as (counts&structural&Hrec&D&Hst&Hc&Ht).
  unfold audit. rewrite Hrec. cbn [snd]. rewrite !forallb_app, !andb_true_iff, Hst, rows_valid. cbn [forallb].
  rewrite !andb_true_r, andb_true_iff, (summary_pass summary counts), (balance_pass counts) by done.
  assert (Hf : forallb CheckPass (if String.eqb digests.1 EmptyString || String.eqb digests.2 EmptyString then []
    else [pass "Population fingerprinted" "sha256 recorded for both tables — a later encrypted run can be shown to use this exact population" []]) = true)
    by by destruct (_ || _).
  assert (Hv : CheckPass (voters_check c (Z.of_nat (length (voters_of body)))) = true ↔ Z.of_nat (length (voters_of body)) = Voters c)
    by (unfold voters_check; by destruct (Z.eqb_spec (Z.of_nat (length (voters_of body))) (Voters c))).
  rewrite Hv. clear Hv.
  assert (Hcounts : (∀ i line, voters_of body !! i = Some line → valid_row (length (Split first)) i line) →
    ∀ i, Z.of_nat i < Positions c * Candidates c → count_at counts (i / C) (i mod C) = votes (voters_of body) (i / C) (i mod C)).
  { intros Hrows i Hi. unfold votes. rewrite Hc, fitting_votes; [done| |].
    - apply Forall_lookup. intros j l Hl. unfold fits. by apply Nat.eqb_eq, (Hrows j l Hl).
    - apply Nat.Div0.div_lt_upper_bound. unfold C, P. nia. }
  split.
  - intros [Hrows [[Hv (data&head&rows&Hs&Hr&Hl&Hcmp)] _]]. exists data, head, rows. split_and!; [done..|].
    split; try done. intros i r Hir. destruct (Hcmp i r Hir) as [? ->]. split; [done|]. f_equal. apply Hcounts; [done|].
    apply lookup_lt_Some in Hir. lia.
  - intros (data&head&rows&Hs&Hr&[Hw' Hv Hrows Hl Hcmp]). split_and!; try done.
    + exists data, head, rows. split_and!; try done. intros i r Hir. destruct (Hcmp i r Hir) as [? ->]. split; [done|].
      f_equal. symmetry. apply Hcounts; [done|]. apply lookup_lt_Some in Hir. lia.
    + intros p Hp. rewrite Ht by done. do 2 f_equal. apply in_range_totals; [done|]. by apply rows_valid.
Qed.

(** The gate, on any files. For a run whose configuration was accepted, the check gives a report, and
    the report passes if and only if the ballot table and the summary can be
    read to their end, the table has the declared columns and exactly one row
    per configured voter, numbered in order without a gap or a repeat, each row
    choosing one of the candidates for every position, and the summary has one
    row per contest whose count is the number of voters who made that choice. *)
Lemma report_exact runID ballots summary digests :
  RunStore.runIDPattern runID = true →
  1 ≤ Positions c → 1 ≤ Candidates c → Positions c * Candidates c < 2 ^ 63 →
  ∃ rep, RunCheck runID c ballots summary digests = Ok (rep, [CheckStart; CheckEnd (RPass rep) (RRows rep)]) ∧
    (RPass rep = true ↔
     ∃ first body data head rows, ballots = Some (Ballots.MkStream (first :: body) None) ∧ summary = Some (Ok data) ∧
       Csv.ReadAll data = Some (head :: rows) ∧ valid_tables first body rows).
Proof.
  intros Hid HP HC Hm. unfold RunCheck, RunStore.Dir. rewrite Hid. cbn [rbind].
  destruct (audit c ballots summary digests) as [rows checks] eqn:E.
  exists (MkReport (forallb CheckPass checks) checks rows digests.1 digests.2 (Voters c) (Positions c) (Candidates c) (Distribution c) runID).
  split; [done|]. cbn [RPass].
  assert (Hok : forallb CheckPass checks = true ↔ forallb CheckPass (audit c ballots summary digests).2 = true) by by rewrite E.
  rewrite Hok. clear Hok E. destruct ballots as [[[|first body] err]|].
  - split; [done|]. intros (?&?&?&?&?&[=]&_).
  - destruct (decide (Z.of_nat (length (Split first)) = 3 + Positions c)) as [Hw|Hw].
    + destruct err as [e|].
      * split; [|by intros (?&?&?&?&?&[=]&_)]. unfold audit, recountBallots. cbn [Ballots.lines Ballots.scan_err].
        change (Z.of_nat fixedCols) with 3. by rewrite (proj2 (Z.eqb_eq _ _) Hw).
      * rewrite audit_pass by done. split; [intros (d&h&r&?&?&?); by exists first, body, d, h, r|].
        intros (?&?&d&h&r&[= <- <-]&?&?&?). by exists d, h, r.
    + split; [|intros (?&?&d&h&r&[= <- <- _]&_&_&Hv); by destruct Hv].
      unfold audit, recountBallots. cbn [Ballots.lines]. change (Z.of_nat fixedCols) with 3.
      by rewrite (proj2 (Z.eqb_neq _ _) Hw).
  - split; [done|]. intros (?&?&?&?&?&[=]&_).
Qed.
End rows.

(** ** The generator's tables

    What [saksi-auditor/src/ground_truth.rs] writes, for any contents: a voter
    is a number with the choices made, each a candidate's index. *)
Definition ph_position_id (p : nat) : string :=
  match p with
  | 0%nat => "president" | 1%nat => "vice-president" | 2%nat => "senator"
  | n => "position-" +:+ Itoa (Z.of_nat n)
  end.

Definition position_column (p : nat) : string := replace_char "-"%char "_" (ToUpper (ph_position_id p)).

Definition candidate_prefix (p : nat) : string :=
  match p with 0%nat => "PRES" | 1%nat => "VICE" | 2%nat => "SEN" | n => "POS" +:+ Itoa (Z.of_nat n) end.

(** [{:0w}] of a number that is not negative. *)
Fixpoint zeros (n : nat) : string := match n with O => EmptyString | S n => String "0"%char (zeros n) end.

Definition padded (w : nat) (n : Z) : string := zeros (w - String.length (Itoa n)) +:+ Itoa n.

Definition candidate_label (p k : nat) : string :=
  "CAND_" +:+ candidate_prefix p +:+ "_" +:+ padded 2 (Z.of_nat k + 1).

Definition voter_row (scale : Z) (complexity : string) (v : Z * list nat) : list string :=
  ["V-" +:+ padded 6 v.1; Itoa scale; complexity] ++ imap candidate_label v.2.

Definition ballots_header (positions : nat) : list string :=
  ["voter_id"; "scale_group"; "ballot_complexity"] ++ (position_column <$> seq 0 positions).

Definition ballots_table (positions : nat) (scale : Z) (complexity : string) (pop : list (Z * list nat)) : Ballots.stream :=
  Ballots.MkStream (Csv.join_comma <$> ballots_header positions :: (voter_row scale complexity <$> pop)) None.

Definition summary_header : list string := ["position"; "candidate"; "ground_truth_count"].

(** The row of the [i]th contest: positions in order, candidates within them. *)
Definition contest_row (candidates i : nat) (n : Z) : list string :=
  [position_column (i / candidates); candidate_label (i / candidates) (i mod candidates); Itoa n].

Definition summary_table (candidates : nat) (counts : list Z) : string :=
  Csv.text_with id (summary_header :: imap (contest_row candidates) counts).

(** ** Reading them back *)

(** A character of a cell that needs no quotes. *)
Definition cell_char (c : ascii) : bool := negb (Csv.special c) && negb (Ascii.eqb c Jobs.CR).

Definition bare (s : string) : Prop := str_forallb cell_char s = true.

Lemma bare_app a b : bare (a +:+ b) ↔ bare a ∧ bare b.
Proof. unfold bare. by rewrite str_forallb_app, andb_true_iff. Qed.

Lemma digits_bare s : str_forallb is_digit s = true → bare s.
Proof. apply str_forallb_impl. intros c. by destruct c as [[] [] [] [] [] [] [] []]. Qed.

Lemma Itoa_digits' z : 0 ≤ z → str_forallb is_digit (Itoa z) = true.
Proof. intros Hz. destruct (Itoa_digits z Hz) as [Hd _]. by apply andb_true_iff in Hd as [_ ?]. Qed.

Lemma Split_join row : row ≠ [] → Forall bare row → Split (Csv.join_comma row) = row.
Proof.
  assert (Hcell : ∀ s, bare s → Split s = [s] ∧ ∀ t, Split (s +:+ String ","%char t) = s :: Split t).
  { intros s. unfold bare. induction s as [|c s IH]; [done|]. cbn [str_forallb]. intros [Hc Hs]%andb_true_iff.
    assert (Hcomma : Ascii.eqb c ","%char = false) by by destruct c as [[] [] [] [] [] [] [] []].
    destruct (IH Hs) as [E1 E2]. split; [cbn [Split]; by rewrite Hcomma, E1|]. intros t.
    change (Split (String c (s +:+ String ","%char t)) = String c s :: Split t). cbn [Split]. by rewrite Hcomma, E2. }
  intros Hne. induction 1 as [|s row Hs Hrow IH]; [done|]. destruct row as [|s' row]; [by apply Hcell|].
  cbn [Csv.join_comma]. change Csv.comma with ","%char. rewrite (proj2 (Hcell s Hs)). f_equal. by apply IH.
Qed.

Lemma padded_digits w n : 0 ≤ n → all_digits (padded w n) = true ∧ digits_value 0 (padded w n) = n.
Proof.
  intros Hn. unfold padded. destruct (Itoa_digits n Hn) as [Hd Hv]. unfold all_digits in *.
  induction (w - String.length (Itoa n))%nat as [|m [IH1 IH2]]; [done|]. cbn [zeros]. split; [|done].
  apply andb_true_iff in IH1 as [_ H]. exact H.
Qed.

Lemma Atoi_digits s : all_digits s = true → 0 ≤ digits_value 0 s < 2 ^ 63 → Atoi s = Some (digits_value 0 s).
Proof.
  intros Hd Hv.
  assert (E : Atoi s = if all_digits s then let v := 1 * digits_value 0 s in
                         if (- 2 ^ 63 <=? v) && (v <? 2 ^ 63) then Some v else None else None).
  { unfold Atoi. destruct s as [|c s]; [done|]. apply andb_true_iff in Hd as [_ Hd]. cbn [str_forallb] in Hd.
    apply andb_true_iff in Hd as [Hc _]. by destruct c as [[] [] [] [] [] [] [] []]. }
  rewrite E, Hd, Z.mul_1_l. cbn zeta. rewrite (proj2 (Z.leb_le _ _)), (proj2 (Z.ltb_lt _ _)) by lia. done.
Qed.

Lemma Atoi_padded w n : 0 ≤ n < 2 ^ 63 → Atoi (padded w n) = Some n.
Proof. intros Hn. destruct (padded_digits w n) as [Hd Hv]; [lia|]. rewrite Atoi_digits; by rewrite ?Hv. Qed.

Lemma Atoi_Itoa n : 0 ≤ n < 2 ^ 63 → Atoi (Itoa n) = Some n.
Proof. intros Hn. destruct (Itoa_digits n) as [Hd Hv]; [lia|]. rewrite Atoi_digits; by rewrite ?Hv. Qed.

Lemma after_last_digits a s : str_forallb is_digit s = true → after_last "_"%char (a +:+ String "_"%char s) = Some s.
Proof.
  intros Hs. assert (Hn : after_last "_"%char s = None).
  { induction s as [|c s IH]; [done|]. cbn [str_forallb] in Hs. apply andb_true_iff in Hs as [Hc Hs].
    change (match after_last "_"%char s with Some t => Some t | None => if Ascii.eqb c "_"%char then Some s else None end = None).
    rewrite (IH Hs). by destruct c as [[] [] [] [] [] [] [] []]. }
  induction a as [|c a IH].
  { change (match after_last "_"%char s with
            | Some t => Some t
            | None => if Ascii.eqb "_"%char "_"%char then Some s else None
            end = Some s). by rewrite Hn. }
  change (match after_last "_"%char (a +:+ String "_"%char s) with
          | Some t => Some t
          | None => if Ascii.eqb c "_"%char then Some (a +:+ String "_"%char s) else None
          end = Some s). by rewrite IH.
Qed.

Lemma candidate_label_read p k : Z.of_nat k < 2 ^ 62 → candidateOrdinal (candidate_label p k) = Some (Z.of_nat k + 1).
Proof.
  intros Hk. destruct (padded_digits 2 (Z.of_nat k + 1)) as [Hd _]; [lia|]. unfold candidateOrdinal, candidate_label.
  rewrite <-!string_app_assoc. change ("_" +:+ ?s) with (String "_"%char s). rewrite string_app_assoc.
  change ("_" +:+ padded 2 (Z.of_nat k + 1)) with (String "_"%char (padded 2 (Z.of_nat k + 1))).
  apply andb_true_iff in Hd as [Hne Hd]. rewrite after_last_digits by done.
  rewrite <-(Atoi_padded 2 (Z.of_nat k + 1)) by lia. by destruct (padded 2 _).
Qed.

Lemma label_bare p k : bare (candidate_label p k).
Proof.
  assert (Hp : ∀ w n, 0 ≤ n → bare (padded w n)).
  { intros w n Hn. destruct (padded_digits w n Hn) as [Hd _]. apply andb_true_iff in Hd as [_ Hd]. by apply digits_bare. }
  unfold candidate_label. rewrite !bare_app. split_and!; [done| |done|apply Hp; lia].
  unfold candidate_prefix. destruct p as [|[|[|p]]]; [done..|]. apply bare_app. split; [done|].
  apply digits_bare, Itoa_digits'. lia.
Qed.

Lemma column_bare p : bare (position_column p).
Proof.
  assert (Hb : ∀ s, str_forallb (λ c, is_digit c || Ascii.eqb c "-"%char || cell_char (upper_ascii c)) s = true →
                    bare (replace_char "-"%char "_" (ToUpper s))).
  { intros s. unfold bare, ToUpper. induction s as [|c s IH]; [done|]. cbn [str_forallb]. intros [Hc Hs]%andb_true_iff.
    cbn [str_map replace_char]. destruct (Ascii.eqb_spec (upper_ascii c) "-"%char) as [E|E].
    - apply bare_app. split; [done|]. by apply IH.
    - cbn [str_forallb]. rewrite andb_true_iff. split; [|by apply IH]. by destruct c as [[] [] [] [] [] [] [] []]. }
  apply Hb. unfold ph_position_id. destruct p as [|[|[|p]]]; [done..|]. rewrite str_forallb_app, andb_true_iff. split; [done|].
  apply (str_forallb_impl is_digit); [|apply Itoa_digits'; lia]. intros c Hc. by rewrite Hc.
Qed.
Import Csv.

Lemma bare_cell s : bare s → csvEscape_cell s = s ∧ no_CR s.
Proof.
  intros Hs. assert (H : str_existsb special s = false ∧ no_CR s).
  { unfold bare, no_CR in *. induction s as [|c s IH]; [done|]. cbn [str_forallb] in Hs.
    apply andb_true_iff in Hs as [Hc Hs]. destruct (IH Hs) as [E1 E2]. unfold cell_char in Hc.
    apply andb_true_iff in Hc as [H1%negb_true_iff H2%negb_true_iff]. cbn. by rewrite H1, H2, E1, E2. }
  destruct H as [H1 H2]. split; [|done]. unfold csvEscape_cell. by rewrite H1.
Qed.

Lemma text_bare rows : Forall (Forall bare) rows → text_with id rows = csv_text rows.
Proof.
  intros Hr. rewrite csv_text_with. induction Hr as [|r rows Hr _ IH]; [done|]. cbn [text_with]. rewrite IH.
  replace (csvEscape_cell <$> r) with (id <$> r); [done|]. induction Hr as [|x r Hx _ IHr]; [done|].
  cbn. by rewrite (proj1 (bare_cell x Hx)), IHr.
Qed.

(** ** The gate on the generator's tables *)
Section generated.
Context (c : ElectionConfig) (scale : Z) (complexity : string).
Let P := Z.to_nat (Positions c).
Let C := Z.to_nat (Candidates c).

(** The voters who chose candidate [k] for position [p]. *)
Definition chosen (pop : list (Z * list nat)) (p k : nat) : Z :=
  Z.of_nat (length (filter (λ v : Z * list nat, v.2 !! p = Some k) pop)).

(** Each configured voter once and in order, with a candidate for each
    position; and for every contest the number of voters who chose it. *)
Record valid_population (pop : list (Z * list nat)) (counts : list Z) : Prop := {
  vp_voters : pop.*1 = seqZ 1 (Voters c);
  vp_choices : Forall (λ v, length v.2 = P ∧ Forall (λ k, (k < C)%nat) v.2) pop;
  vp_counts : counts = (λ i, chosen pop (i / C) (i mod C)) <$> seq 0 (P * C)
}.

(** The numbers are machine integers. *)
Record machine_sized (pop : list (Z * list nat)) (counts : list Z) : Prop := {
  ms_voters : Forall (λ v : Z * list nat, 0 ≤ v.1 < 2 ^ 63 ∧ Forall (λ k, Z.of_nat k < 2 ^ 62) v.2) pop;
  ms_counts : Forall (λ n, 0 ≤ n < 2 ^ 63) counts;
  ms_scale : 0 ≤ scale;
  ms_complexity : bare complexity
}.

Context (pop : list (Z * list nat)) (counts : list Z) (M : machine_sized pop counts).
Let line (v : Z * list nat) : string := Csv.join_comma (voter_row scale complexity v).
Let first : string := Csv.join_comma (ballots_header P).
Let body : list string := line <$> pop.
Let rows : list (list string) := imap (contest_row C) counts.

Lemma line_split v : v ∈ pop → Split (line v) = voter_row scale complexity v ∧ line v ≠ EmptyString.
Proof.
  intros Hv. destruct M as [Hp _ Hs Hc]. rewrite Forall_forall in Hp. destruct (Hp v Hv) as [Hn _]. split; [|done].
  apply Split_join; [done|]. unfold voter_row. apply Forall_app. split.
  - destruct (padded_digits 6 v.1) as [Hd _]; [lia|]. apply andb_true_iff in Hd as [_ Hd].
    repeat constructor; [apply bare_app; split; [done|by apply digits_bare]|by apply digits_bare, Itoa_digits'|done].
  - apply Forall_lookup. intros i x (k&_&->)%list_lookup_imap_Some. apply label_bare.
Qed.

Lemma line_width v : v ∈ pop → length (Split (line v)) = (3 + length v.2)%nat.
Proof. intros Hv. rewrite (proj1 (line_split v Hv)). unfold voter_row. by rewrite length_app, length_imap. Qed.

Lemma line_voter v : v ∈ pop → voter_number (Split (line v)) = Some v.1.
Proof.
  intros Hv. rewrite (proj1 (line_split v Hv)). destruct M as [Hp _ _ _]. rewrite Forall_forall in Hp.
  destruct (Hp v Hv) as [Hn _]. unfold voter_number. change (Atoi (TrimPrefix ("V-" +:+ padded 6 v.1) "V-") = Some v.1).
  assert (E : TrimPrefix ("V-" +:+ padded 6 v.1) "V-" = padded 6 v.1).
  { unfold TrimPrefix. change ("V-" +:+ padded 6 v.1) with (String "V"%char (String "-"%char (padded 6 v.1))).
    cbn [has_prefix]. rewrite !bool_decide_true by done. by destruct (padded 6 v.1). }
  rewrite E. by apply Atoi_padded.
Qed.

Lemma line_selects v p :
  v ∈ pop → selects c (line v) p = (k ← v.2 !! p; if (k <? C)%nat then Some k else None).
Proof.
  intros Hv. unfold selects, cell. rewrite (proj1 (line_split v Hv)). unfold voter_row.
  rewrite lookup_app_r by (cbn; lia). change (fixedCols + p - _)%nat with (3 + p - 3)%nat.
  replace (3 + p - 3)%nat with p by lia. rewrite list_lookup_imap. destruct M as [Hp _ _ _]. rewrite Forall_forall in Hp.
  destruct (Hp v Hv) as [_ Hk]. destruct (v.2 !! p) as [k|] eqn:E; cbn [fmap option_fmap option_map from_option id mbind option_bind]; [|done].
  eapply Forall_lookup_1 in Hk; [|exact E]. unfold candidate. rewrite candidate_label_read by done. cbn [mbind option_bind].
  unfold C. destruct (Nat.ltb_spec k (Z.to_nat (Candidates c))).
  - destruct (Z.ltb_spec (Z.of_nat k + 1) 1), (Z.ltb_spec (Candidates c) (Z.of_nat k + 1)); cbn; try lia. f_equal. lia.
  - destruct (Z.ltb_spec (Z.of_nat k + 1) 1), (Z.ltb_spec (Candidates c) (Z.of_nat k + 1)); cbn; done || lia.
Qed.

Lemma body_voters : voters_of body = body.
Proof.
  assert (Hne : Forall (λ l, l ≠ EmptyString) body)
    by (apply Forall_forall; intros l (v&->&Hv)%list_elem_of_fmap; by apply line_split).
  unfold voters_of. induction Hne as [|l ls Hl _ IH]; [done|]. by rewrite filter_cons, decide_True, IH.
Qed.

Lemma first_width : length (Split first) = (3 + P)%nat.
Proof.
  unfold first. rewrite Split_join; [|done|].
  - unfold ballots_header. by rewrite length_app, length_fmap, length_seq.
  - unfold ballots_header. apply Forall_app. split; [by repeat constructor|].
    apply Forall_forall. intros x (p&->&_)%list_elem_of_fmap. apply column_bare.
Qed.

Lemma body_votes p k : (k < C)%nat → votes c body p k = chosen pop p k.
Proof.
  intros Hk. unfold votes, chosen, body. f_equal.
  assert (Hall : ∀ l, l ⊆ pop → length (filter (λ l, selects c l p = Some k) (line <$> l)) =
                                 length (filter (λ v : Z * list nat, v.2 !! p = Some k) l)); [|by apply Hall].
  induction l as [|v l IH]; [done|]. intros Hl. cbn [fmap list_fmap]. rewrite !filter_cons.
  assert (Hs : selects c (line v) p = Some k ↔ v.2 !! p = Some k).
  { rewrite line_selects by (apply Hl; by left). destruct (v.2 !! p) as [k'|]; cbn [mbind option_bind]; [|done].
    destruct (Nat.ltb_spec k' C); [done|]. split; [done|]. intros [= ->]. lia. }
  assert (Hr : l ⊆ pop) by (intros x Hx; apply Hl; by right).
  destruct (decide (selects c (line v) p = Some k)), (decide (v.2 !! p = Some k)); cbn [length]; rewrite ?IH by done; first [done|exfalso; tauto].
Qed.

Lemma summary_read : Csv.ReadAll (summary_table C counts) = Some (summary_header :: rows).
Proof.
  assert (Hb : Forall (Forall bare) (summary_header :: rows)).
  { constructor; [by repeat constructor|]. apply Forall_lookup. intros i r (n&Hn&->)%list_lookup_imap_Some.
    destruct M as [_ Hc _ _]. eapply Forall_lookup_1 in Hc; [|exact Hn].
    repeat constructor; [apply column_bare|apply label_bare|apply digits_bare, Itoa_digits'; lia]. }
  unfold summary_table. fold rows. rewrite text_bare by done. apply ReadAll_text. split.
  - eapply Forall_impl; [exact Hb|]. intros r Hr. eapply Forall_impl; [exact Hr|]. intros x Hx. by apply bare_cell.
  - split; [done|]. apply Forall_lookup. by intros i r (n&_&->)%list_lookup_imap_Some.
  - constructor; [done|]. apply Forall_lookup. by intros i r (n&_&->)%list_lookup_imap_Some.
Qed.

Lemma generated_valid :
  1 ≤ Positions c → 1 ≤ Candidates c → 0 ≤ Voters c →
  valid_tables c first body rows ↔ valid_population pop counts.
Proof.
  intros HP HC HV.
  assert (Hin : ∀ i v, pop !! i = Some v → v ∈ pop) by (intros i v; apply list_elem_of_lookup_2).
  assert (Hline : ∀ i l, body !! i = Some l ↔ ∃ v, pop !! i = Some v ∧ l = line v).
  { intros i l. unfold body. rewrite list_lookup_fmap, fmap_Some. naive_solver. }
  assert (Hch : (∀ i l, body !! i = Some l → length (Split l) = (3 + P)%nat ∧ ∀ p, (p < P)%nat → is_Some (selects c l p)) ↔
                Forall (λ v : Z * list nat, length v.2 = P ∧ Forall (λ k, (k < C)%nat) v.2) pop).
  { rewrite Forall_lookup. split.
    - intros H i v Hv. destruct (H i (line v)) as [Hw Hs]; [apply Hline; eauto|]. rewrite line_width in Hw by eauto.
      split; [lia|]. apply Forall_lookup. intros p k Hk. assert (Hp : (p < P)%nat) by (apply lookup_lt_Some in Hk; lia).
      specialize (Hs p Hp). rewrite line_selects, Hk in Hs by eauto. cbn [mbind option_bind] in Hs.
      destruct (Nat.ltb_spec k C); [done|by destruct Hs].
    - intros H i l (v&Hv&->)%Hline. destruct (H i v Hv) as [Hw Hk]. rewrite line_width by eauto. split; [lia|].
      intros p Hp. rewrite line_selects by eauto. rewrite <-Hw in Hp. apply lookup_lt_is_Some in Hp as [k Ek].
      rewrite Ek. cbn [mbind option_bind]. eapply Forall_lookup_1 in Hk; [|exact Ek]. rewrite (proj2 (Nat.ltb_lt _ _)) by done. done. }
  assert (Hnum : (length pop = Z.to_nat (Voters c) ∧ ∀ i v, pop !! i = Some v → v.1 = Z.of_nat i + 1) ↔ pop.*1 = seqZ 1 (Voters c)).
  { split.
    - intros [Hl Hn]. apply list_eq. intros i. rewrite list_lookup_fmap. destruct (pop !! i) as [v|] eqn:E.
      + cbn. pose proof (lookup_lt_Some _ _ _ E). rewrite lookup_seqZ_lt by lia. f_equal. rewrite (Hn i v E). lia.
      + apply lookup_ge_None in E. symmetry. cbn. apply lookup_seqZ_ge. lia.
    - intros E. pose proof (f_equal length E) as Hl. rewrite length_fmap, length_seqZ in Hl. split; [done|].
      intros i v Hv. pose proof (f_equal (.!! i) E) as Hi. cbv beta in Hi. rewrite list_lookup_fmap, Hv in Hi. symmetry in Hi.
      cbn in Hi. apply lookup_seqZ in Hi as [-> _]. lia. }
  assert (Hcnt : (Z.of_nat (length rows) = Positions c * Candidates c ∧
       ∀ i r, rows !! i = Some r → (3 ≤ length r)%nat ∧
         Atoi (TrimSpace (default EmptyString (r !! 2%nat))) = Some (votes c body (i / C) (i mod C))) ↔
     counts = (λ i, chosen pop (i / C) (i mod C)) <$> seq 0 (P * C)).
  { unfold rows. rewrite length_imap.
    assert (Hrow : ∀ i n, counts !! i = Some n →
      Atoi (TrimSpace (default EmptyString (contest_row C i n !! 2%nat))) = Some n).
    { intros i n Hn. destruct M as [_ Hc _ _]. eapply Forall_lookup_1 in Hc; [|exact Hn].
      change (Atoi (TrimSpace (Itoa n)) = Some n). rewrite LedgerDumpFacts.TrimSpace_plain; [by apply Atoi_Itoa|].
      apply (str_forallb_impl is_digit); [|apply Itoa_digits'; lia]. intros d. by destruct d as [[] [] [] [] [] [] [] []]. }
    assert (Hvo : ∀ i, votes c body (i / C) (i mod C) = chosen pop (i / C) (i mod C))
      by (intros i; apply body_votes, Nat.mod_upper_bound; lia).
    assert (HPC : Z.of_nat (P * C) = Positions c * Candidates c) by lia. split.
    - intros [Hl Hr]. apply list_eq. intros i. rewrite list_lookup_fmap. destruct (counts !! i) as [n|] eqn:E.
      + pose proof (lookup_lt_Some _ _ _ E). rewrite lookup_seq_lt by lia. cbn. destruct (Hr i (contest_row C i n)) as [_ Ha].
        { rewrite list_lookup_imap, E. done. }
        rewrite Hrow in Ha by done. injection Ha as ->. by rewrite Hvo.
      + apply lookup_ge_None in E. by rewrite lookup_seq_ge by lia.
    - intros E. split; [rewrite E, length_fmap, length_seq; lia|].
      intros i r (n&Hn&->)%list_lookup_imap_Some. split; [cbn; lia|]. rewrite Hrow by done. rewrite Hvo.
      rewrite E, list_lookup_fmap in Hn. apply fmap_Some in Hn as (j&Hj&->). apply lookup_seq in Hj as [-> _]. done. }
  split.
  - intros [_ Hv Hr Hs Hc]. rewrite body_voters in *. unfold body in Hv. rewrite length_fmap in Hv. split.
    + apply Hnum. split; [lia|]. intros i v E. destruct (Hr i (line v)) as [_ Hn _]; [apply Hline; eauto|].
      rewrite line_voter in Hn by eauto. by injection Hn.
    + apply Hch. intros i l Hl. destruct (Hr i l Hl) as [Hw _ Hc']. by rewrite first_width in Hw.
    + by apply Hcnt.
  - intros [Hv%Hnum Hc Hs]. destruct Hv as [Hl Hn]. apply Hcnt in Hs as [Hs1 Hs2]. split; rewrite ?body_voters; try done.
    + rewrite first_width. lia.
    + unfold body. rewrite length_fmap. lia.
    + intros i l Hi. destruct (proj2 Hch Hc i l Hi) as [Hw Hk]. split; [by rewrite first_width| |done].
      apply Hline in Hi as (v&E&->). rewrite line_voter by eauto. by rewrite (Hn i v E).
Qed.
End generated.

(** C28: the data-validation gate tells the valid populations from the others.
    Take tables in the generator's format with any contents: any voter numbers,
    any choices, as many as there are, and any counts. The check of a
    configuration that was accepted gives a report, and the report passes if and
    only if every configured voter is there once and in order, each with one of
    the candidates for every position and nothing more, and the summary has for
    every contest, in its order, exactly the number of voters who chose it. And
    whatever the files hold, no report passes unless both are read to the end. *)
Theorem data_gate_exact c scale complexity pop counts runID digests :
  RunStore.runIDPattern runID = true →
  1 ≤ Positions c → 1 ≤ Candidates c → Positions c * Candidates c < 2 ^ 63 → 0 ≤ Voters c →
  machine_sized scale complexity pop counts →
  (∃ rep, RunCheck runID c
            (Some (ballots_table (Z.to_nat (Positions c)) scale complexity pop))
            (Some (Ok (summary_table (Z.to_nat (Candidates c)) counts))) digests =
          Ok (rep, [CheckStart; CheckEnd (RPass rep) (RRows rep)]) ∧
     (RPass rep = true ↔ valid_population c pop counts)) ∧
  ∀ ballots summary rep stamps, RunCheck runID c ballots summary digests = Ok (rep, stamps) → RPass rep = true →
    ∃ lines data, ballots = Some (Ballots.MkStream lines None) ∧ summary = Some (Ok data).
Proof.
  intros Hid HP HC Hm HV M. split.
  - destruct (report_exact c runID (Some (ballots_table (Z.to_nat (Positions c)) scale complexity pop))
                (Some (Ok (summary_table (Z.to_nat (Candidates c)) counts))) digests Hid HP HC Hm) as (rep&Hrun&Hpass).
    exists rep. split; [done|]. rewrite Hpass. rewrite <-(generated_valid c scale complexity pop counts M HP HC HV).
    pose proof (summary_read c scale complexity pop counts M) as Hr.
    assert (Eb : Csv.join_comma <$> (voter_row scale complexity <$> pop) =
                 (λ v, Csv.join_comma (voter_row scale complexity v)) <$> pop) by (by rewrite <-list_fmap_compose).
    split.
    + intros (first&body&data&head&rows&[= <- <-]&[= <-]&Hr'&Hv). rewrite Hr in Hr'. injection Hr' as <- <-.
      change (valid_tables c (join_comma (ballots_header (Z.to_nat (Positions c))))
                (Csv.join_comma <$> (voter_row scale complexity <$> pop))
                (imap (contest_row (Z.to_nat (Candidates c))) counts)) in Hv. by rewrite Eb in Hv.
    + intros Hv. do 5 eexists. split; [reflexivity|]. split; [reflexivity|]. split; [exact Hr|].
      change (valid_tables c (join_comma (ballots_header (Z.to_nat (Positions c))))
                (Csv.join_comma <$> (voter_row scale complexity <$> pop))
                (imap (contest_row (Z.to_nat (Candidates c))) counts)). by rewrite Eb.
  - intros ballots summary rep stamps Hrun Hpass.
    destruct (report_exact c runID ballots summary digests Hid HP HC Hm) as (rep'&Hrun'&Hp). rewrite Hrun in Hrun'.
    injection Hrun' as <- _. apply Hp in Hpass as (first&body&data&_&_&->&->&_). eauto.
Qed.
End DataCheck.
