(* ===== verification/BoardPage.v ===== *)
(** * The public board page

    [saksi-campaign/board.go] but for the ranking of one race ([Board]): what
    the page of a run shows before and after its tally is published, the files
    it serves, and the lookup of a tracking code. What a run folder holds and
    what the ledger answers are arguments. *)
From S2P Require Import Prelude Hex Wire GoText Config Csv RunStore Receipts ReceiptFile Ballots.
From S2P Require Import LedgerDumpFacts Ceremony Scenarios Server Board DataCheck.
From Stdlib Require Import Ascii.
#[local] Open Scope Z_scope.
Import GoText Config.

Module BoardPage.
Import DataCheck(CheckName, Check, MkCheck, CheckPass, Detail, pass, fail).


(** ** Reading correctness.csv *)

(** The fields the board reads of a row. *)
Record ContestCorrectness := MkRow {
  Contest : string; GroundTruth : Z; Decoded : Z; E : Z; Pass : bool; Source : string
}.

(** The last column of a name. *)
Fixpoint columnIndex (i : nat) (header : list string) : gmap string nat :=
  match header with
  | [] => ∅
  | h :: header =>
      let m := columnIndex (S i) header in
      match m !! TrimSpace h with Some _ => m | None => <[TrimSpace h := i]> m end
  end.

Definition field (row : list string) (idx : gmap string nat) (name : string) : string :=
  default "" (i ← idx !! name; row !! i).

(** [strconv.ParseInt(s, 10, 64)] with the error dropped. *)
Definition ParseInt (s : string) : Z :=
  let '(sign, body) :=
    match s with
    | String "-"%char s' => (-1, s')
    | String "+"%char s' => (1, s')
    | _ => (1, s)
    end in
  if all_digits body then Z.max (- 2 ^ 63) (Z.min (sign * digits_value 0 body) (2 ^ 63 - 1)) else 0.

Definition correctness_row (idx : gmap string nat) (r : list string) : ContestCorrectness :=
  MkRow (field r idx "contest") (ParseUint (field r idx "ground_truth")) (ParseUint (field r idx "decoded"))
    (ParseInt (field r idx "E")) (String.eqb (field r idx "pass") "true") (field r idx "source").

(** [None]: the file is not there. *)
Definition readCorrectness (file : option (result string)) : result (list ContestCorrectness) :=
  match file with
  | None => Ok []
  | Some (Err e) => Err e
  | Some (Ok data) =>
      match Csv.ReadAll data with
      | None => Err (Foreign "csv")
      | Some (header :: row :: rows) => Ok (correctness_row (columnIndex 0 header) <$> row :: rows)
      | Some _ => Ok []
      end
  end.

(** ** The published tally *)
Definition position_totals := gmap string (gmap string Z).

Definition add_total (m : position_totals) (kv : string * Z) : position_totals :=
  let '(position, candidate) := Board.splitContestID kv.1 in
  <[position := <[candidate := kv.2]> (default ∅ (m !! position))]> m.

(** ** The digests of a run *)
Section digests.
Context `{Sha256}.

Definition sha256Hex (b : bytes) : string := EncodeToString (Sum256 b).

Definition hexDigest (hexStr : string) : string :=
  match DecodeString hexStr with Ok raw => sha256Hex raw | Err _ => EmptyString end.

Definition digest_step (i : nat) (line : string) (acc : bytes) : result bytes :=
  let? raw := wrap_err (λ e, Errorf "ballot %d not hex: %w" [AInt (Z.of_nat i); AErr e]) (DecodeString line) in
  Ok (acc ++ raw).

(** One SHA-256 over every ballot's bytes, in order. *)
Definition ballotsDigest (f : Ballots.stream) : result string :=
  let? all := Ballots.scanBallotLines f digest_step [] in Ok (sha256Hex all).

(** The digests of the DKG transcript, the tally and the ballots; [None]: no
    header that could be read for the first two. *)
Definition runDigests (h : option (string * string)) (f : Ballots.stream) : string * string * string :=
  (match h with Some (dkg, _) => hexDigest dkg | None => EmptyString end,
   match h with Some (_, tally) => hexDigest tally | None => EmptyString end,
   match ballotsDigest f with Ok d => d | Err _ => EmptyString end).
End digests.

Section tally.
Context `{Sha256, Proto}.

Definition decodeTally (tallyHex paramsHex : string) : result position_totals :=
  let? rawTally := wrap_err (λ e, Errorf "tally is not valid hex: %w" [AErr e]) (DecodeString tallyHex) in
  let? tally := wrap_err (λ e, Errorf "decode tally: %w" [AErr e]) (UnmarshalTallyResult rawTally) in
  let? rawParams := wrap_err (λ e, Errorf "election params are not valid hex: %w" [AErr e]) (DecodeString paramsHex) in
  let? params := wrap_err (λ e, Errorf "decode election params: %w" [AErr e]) (UnmarshalElectionParameters rawParams) in
  let totals := TallyResult.Totals tally in
  let ids := ElectionParameters.ContestIds params in
  if negb (length totals =? length ids)%nat then
    Err (Errorf "tally has %d totals, election has %d contests"
           [AInt (Z.of_nat (length totals)); AInt (Z.of_nat (length ids))])
  else Ok (foldl add_total ∅ (zip ids totals)).

(** ** The page *)
Record BoardIntegrity := MkIntegrity {
  IVoters : Z; IPositions : Z; ICandidates : Z; BallotRecords : Z; IVerified : Z; Rejected : Z;
  RejectedNote : goerr; TurnoutPct : Z; TurnoutNote : string
}.

Record BoardCrypto := MkCrypto {
  TallyProofVerified : bool; TrusteesSubmitted : Z; TrusteesTotal : Z; CThreshold : Z;
  TallySHA256 : string; DKGSHA256 : string; BallotsSHA256 : string; IssuerPublicKey : string;
  BindingContext : string; ChainHeight : Z; TipHash : string; CommittedNullifiers : Z
}.

Record BoardResponse := MkBoard {
  ElectionID : string; BName : string; BMode : string; BDistribution : string; BOnChain : bool; BStatus : string;
  OpenedAt : Z; BClosedAt : option Z; BPublishedAt : option Z; Sealed : bool; Verified : bool;
  BContests : list Board.BoardContest; Integrity : BoardIntegrity; Crypto : BoardCrypto; Checks : list Check;
  Artifacts : list string; Files : list string; Partial : bool; PartialReason : string
}.

Record boardHeader := MkBoardHeader {
  ElectionName : string; HN : Z; IssuerPk : string; HBindingContext : string; HDkg : string; HTally : string;
  HParams : string
}.

(** What the digests read of it: the same file, through the same fields. *)
Definition digested (h : option boardHeader) : option (string * string) := (λ h, (HDkg h, HTally h)) <$> h.

(** The ledger, where the console has one. *)
Record chain := MkChain {
  dialed : result unit; GetElection : result unit; GetElectionStatus : result string;
  CountCommittedBallots : result Z; ChainInfo : result (Z * string)
}.

(** What the page of a run is made of. [CeremonyStatus] leaves a state beside
    its error. *)
Record run_data := MkData {
  rec : RunStore.RunRecord; present : string → bool; header : option boardHeader; ballots : Ballots.stream;
  ceremony : Ceremony.CeremonyState * option goerr;
  correctness : result (list ContestCorrectness); scenarios : result (list Scenarios.ScenarioResult);
  check_report : option (list Check); ledger : option chain
}.

Definition exportOrder : list string :=
  ["election.csv"; "ballots.csv"; "correctness.csv"; "negative-tests.csv"; "ground-truth-ballots.csv";
   "ground-truth-summary.csv"; "perf.csv"; "latencies.csv"; "perf-schema.md"; "header.json"; "ballots.ndjson";
   "journal.ndjson"; "timings.json"; "gen-timings.json"; "submit-metrics.json"; "run.json"; "receipts.csv";
   "ground-truth-check.json"; "trail.ndjson"; "trail.json"; "ledger/header.json"; "ledger/ballots.ndjson"].

Definition publicFiles : list string :=
  ["header.json"; "ballots.ndjson"; "receipts.csv"; "trail.ndjson"; "trail.json"; "ledger/header.json";
   "ledger/ballots.ndjson"].

Definition artifactsIn (d : run_data) : list string := filter (λ n, present d n = true) exportOrder.

Definition publicFilesIn (d : run_data) : list string := filter (λ n, present d n = true) publicFiles.

(** [tamperedRefused]: refused and run, of the ballot-stage attacks. *)
Definition ballot_tests (results : list Scenarios.ScenarioResult) : Z * Z :=
  foldl (λ nr r,
    if negb (String.eqb (Scenarios.RStage r) StageBallots) then nr
    else if String.eqb (Scenarios.Verdict r) "PASS" then (nr.1 + 1, nr.2 + 1)
    else if String.eqb (Scenarios.Verdict r) "FAIL" then (nr.1, nr.2 + 1) else nr) (0, 0) results.

Definition tamperedRefused (results : list Scenarios.ScenarioResult) : Z * goerr :=
  let '(n, ran) := ballot_tests results in
  if ran =? 0 then (0, Errorf "no ballot-stage negative tests have been run for this election" [])
  else (n, Errorf "tampered ballots refused, out of %d ballot-stage negative tests" [AInt ran]).

(** [boardContests]: the races, and why they are not shown. *)
Definition local_totals (rows : list ContestCorrectness) : gmap string Z :=
  foldl (λ m r, if String.eqb (Source r) "ledger" then m else <[Contest r := Decoded r]> m) ∅ rows.

Definition flat_totals (m : position_totals) : gmap string Z :=
  map_fold (λ position cands acc, map_fold (λ c v acc, <[(position +:+ "/") +:+ c := v]> acc) acc cands) ∅ m.

Definition boardContests (c : ElectionConfig) (rows : list ContestCorrectness) (h : option boardHeader) :
    list Board.BoardContest * option string :=
  match rows with
  | _ :: _ => (Board.groupContests c (local_totals rows), None)
  | [] =>
      match h with
      | None => ([], None)
      | Some h =>
          if String.eqb (HTally h) "" || String.eqb (HParams h) "" then ([], None)
          else match decodeTally (HTally h) (HParams h) with
               | Err _ => ([], Some "tally decode failed")
               | Ok m => (Board.groupContests c (flat_totals m), None)
               end
      end
  end.

(** [boardChecks], check by check. *)
Definition first_bad (rows : list ContestCorrectness) : option ContestCorrectness := find (λ r, negb (Pass r)) rows.

Definition eName : string := "Every contest decodes to the seeded ground truth".

Definition audit_check (rows : list ContestCorrectness) : Check :=
  match rows with
  | [] => fail eName "this run has not been audited yet — run Verify" []
  | _ =>
      match first_bad rows with
      | None =>
          let contests := Z.of_nat (size (list_to_set (Contest <$> rows) : gset string)) in
          if existsb (λ r, String.eqb (Source r) "ledger") rows
          then pass eName "E = 0 on all %d contests, recovered by threshold decryption; the ledger's record audits to the same result"
                 [AInt contests]
          else pass eName "E = 0 on all %d contests, recovered by threshold decryption" [AInt contests]
      | Some r =>
          let args := [AStr (Contest r); AInt (GroundTruth r); AInt (Decoded r); AInt (E r)] in
          if String.eqb (Source r) "ledger"
          then fail eName "%s: ground truth %d, decoded %d (E = %d), in the ledger's record" args
          else fail eName "%s: ground truth %d, decoded %d (E = %d)" args
      end
  end.

Definition pubName : string := "The tally was published by the trustee ceremony".

Definition published_check (st : Ceremony.CeremonyState) : Check :=
  if Ceremony.Published st then pass pubName "the ceremony reached its threshold and published" []
  else fail pubName "no tally has been published for this election yet" [].

Definition thrName : string := "Enough trustees contributed".

Definition trustees_check (st : Ceremony.CeremonyState) : Check :=
  let args := [AInt (Ceremony.NSubmitted st); AInt (Z.of_nat (length (Ceremony.Trustees st))); AInt (Ceremony.Threshold st)] in
  MkCheck thrName ((Ceremony.Threshold st <=? Ceremony.NSubmitted st) && (0 <? Ceremony.Threshold st))
    (Errorf "%d of %d trustees contributed; %d required" args).

Definition negName : string := "Every tampered ballot was refused".

Definition tampered_check (results : list Scenarios.ScenarioResult) : Check :=
  let '(refused, ran) := ballot_tests results in
  if ran =? 0 then fail negName "no ballot-stage negative tests have been run" []
  else if refused =? ran then pass negName "all %d tampered ballots were rejected by the verifier" [AInt ran]
  else fail negName "%d of %d tampered ballots were NOT rejected" [AInt (ran - refused); AInt ran].

Definition fpName : string := "The ballot set is fingerprinted".

Definition digest_check (sha : string) : Check :=
  if String.eqb sha "" then fail fpName "no ballot set digest could be computed" []
  else pass fpName "sha256 %s" [AStr sha].

Definition boardChecks (rows : list ContestCorrectness) (st : Ceremony.CeremonyState)
    (results : list Scenarios.ScenarioResult) (sha : string) : list Check :=
  [audit_check rows; published_check st; trustees_check st; tampered_check results; digest_check sha].

Definition groundTruthChecks (report : option (list Check)) : list Check :=
  match report with
  | Some l => l
  | None => [fail "Ground-truth tables validated" "the data-validation gate has not been run for this election" []]
  end.

(** [enrichFromChain]. *)
Definition lName : string := "The election is committed to the ledger".
Definition nName : string := "The committed ballot count matches the generated set".

Definition with_checks (l : list Check) (b : BoardResponse) : BoardResponse :=
  MkBoard (ElectionID b) (BName b) (BMode b) (BDistribution b) (BOnChain b) (BStatus b) (OpenedAt b) (BClosedAt b)
    (BPublishedAt b) (Sealed b) (Verified b) (BContests b) (Integrity b) (Crypto b) (Checks b ++ l) (Artifacts b)
    (Files b) (Partial b) (PartialReason b).

Definition with_chain (status : string) (height : Z) (tip : string) (nullifiers : Z) (b : BoardResponse) : BoardResponse :=
  let c := Crypto b in
  MkBoard (ElectionID b) (BName b) (BMode b) (BDistribution b) true status (OpenedAt b) (BClosedAt b)
    (BPublishedAt b) (Sealed b) (Verified b) (BContests b) (Integrity b)
    (MkCrypto (TallyProofVerified c) (TrusteesSubmitted c) (TrusteesTotal c) (CThreshold c) (TallySHA256 c) (DKGSHA256 c)
       (BallotsSHA256 c) (IssuerPublicKey c) (BindingContext c) height tip nullifiers)
    (Checks b) (Artifacts b) (Files b) (Partial b) (PartialReason b).

(** The first thing that could not be read is the one named. *)
Definition with_partial (why : string) (b : BoardResponse) : BoardResponse :=
  if Partial b then b
  else MkBoard (ElectionID b) (BName b) (BMode b) (BDistribution b) (BOnChain b) (BStatus b) (OpenedAt b) (BClosedAt b)
    (BPublishedAt b) (Sealed b) (Verified b) (BContests b) (Integrity b) (Crypto b) (Checks b) (Artifacts b)
    (Files b) true why.

Definition count_check (nullifiers records : Z) : list Check :=
  let args := [AInt nullifiers; AInt records] in
  if nullifiers =? 0 then []
  else if nullifiers =? records then [pass nName "%d nullifiers on-chain, %d ballots generated" args]
  else [fail nName "%d nullifiers on-chain, %d ballots generated" args].

Definition enrichFromChain (l : option chain) (b : BoardResponse) : BoardResponse :=
  match l with
  | None => b
  | Some ch =>
      match dialed ch with
      | Err e => with_checks [fail lName "no Fabric network was reachable: %v" [AErr e]] b
      | Ok _ =>
          match GetElection ch with
          | Err _ => with_checks [fail lName "this election id is not on the ledger" []] b
          | Ok _ =>
              let status := match GetElectionStatus ch with Ok s => s | Err _ => BStatus b end in
              let '(nullifiers, b) := match CountCommittedBallots ch with
                                      | Ok n => (n, b)
                                      | Err _ => (0, with_partial "committed nullifier count unavailable" b)
                                      end in
              let '(height, tip, b) := match ChainInfo ch with
                                       | Ok (h, t) => (h, t, b)
                                       | Err _ => (0, "", with_partial "chain height/tip unavailable" b)
                                       end in
              let b := with_chain status height tip nullifiers b in
              with_checks (pass lName "status %q at block %d" [AStr status; AInt height] ::
                           count_check nullifiers (BallotRecords (Integrity b))) b
          end
      end
  end.

Definition turnout_note : string :=
  "synthetic population — every generated voter casts a full ballot, so turnout is 100% by construction".

Definition audited_rows (d : run_data) : list ContestCorrectness := match correctness d with Ok l => l | Err _ => [] end.

Definition all_pass (rows : list ContestCorrectness) : bool :=
  match rows with [] => false | _ => forallb Pass rows end.

Definition buildBoard (d : run_data) : BoardResponse :=
  let c := RunStore.RConfig (rec d) in
  let id := RunStore.RunID (rec d) in
  if Server.groundTruthOnly c then
    MkBoard id (Name c) (Mode c) (Distribution c) false "" (RunStore.RCreatedAt (rec d)) None None true false []
      (MkIntegrity (Voters c) (Positions c) (Candidates c) 0 0 0 (Errorf "" []) 0
         "ground-truth mode: plaintext tables only, no ballots were encrypted")
      (MkCrypto false 0 (Z.of_nat (length (Trustees c))) (Threshold c) "" "" "" "" "" 0 "" 0)
      (groundTruthChecks (check_report d)) (artifactsIn d) [] false ""
  else
    let h := header d in
    let records := match h with Some h => HN h | None => 0 end in
    let name := match h with
                | Some h => if String.eqb (TrimSpace (ElectionName h)) "" then Name c else ElectionName h
                | None => Name c
                end in
    let st := (ceremony d).1 in
    let sealed := negb (Ceremony.Published st) in
    let rows := audited_rows d in
    let allPass := all_pass rows in
    let '(contests, why) := if sealed then ([], None) else boardContests c rows h in
    let results := match scenarios d with Ok l => l | Err _ => [] end in
    let '(rejected, note) := tamperedRefused results in
    let '(dkgSHA, tallySHA, ballotsSHA) := runDigests (digested (header d)) (ballots d) in
    enrichFromChain (ledger d)
      (MkBoard id name (Mode c) (Distribution c) false "" (RunStore.RCreatedAt (rec d)) (Ceremony.ClosedAt st)
         (Ceremony.PublishedAt st) sealed allPass contests
         (MkIntegrity (Voters c) (Positions c) (Candidates c) records (if allPass then records else 0) rejected note
            (if (0 <? Voters c) && (0 <? records) then 100 else 0) turnout_note)
         (MkCrypto allPass (Ceremony.NSubmitted st)
            (match Ceremony.Trustees st with [] => Z.of_nat (length (Trustees c)) | l => Z.of_nat (length l) end)
            (if 0 <? Ceremony.Threshold st then Ceremony.Threshold st else Threshold c)
            tallySHA dkgSHA ballotsSHA (match h with Some h => IssuerPk h | None => "" end)
            (match h with Some h => HBindingContext h | None => "" end) 0 "" 0)
         (boardChecks rows st results ballotsSHA) (artifactsIn d) (if sealed then [] else publicFilesIn d)
         (match why with Some _ => true | None => false end) (default "" why)).
End tally.

(** ** The public files *)

(** A stream header as its JSON reads: the keys, each with its value's text, up
    to where reading failed, with the key whose value could not be read. [None]:
    not an object. *)
Record header_text := MkHeaderText { fields : list (string * string); broken : option (option string * goerr) }.

Definition privateHeaderFields : list string := ["ground_truth"; "voter_ids"].

Definition public_field (quote : string → string) (kv : string * string) : string :=
  (quote kv.1 +:+ ":") +:+ (if bool_decide (kv.1 ∈ privateHeaderFields) then "[]" else kv.2).

Fixpoint join_comma (l : list string) : string :=
  match l with [] => "" | [s] => s | s :: l => s +:+ "," +:+ join_comma l end.

(** [writePublicHeader]: what it has written, and its error; [quote] is
    [json.Marshal] of a key. *)
Definition writePublicHeader (quote : string → string) (h : option header_text) : string * option goerr :=
  match h with
  | None => ("", Some (Errorf "header is not a JSON object" []))
  | Some h =>
      let written := public_field quote <$> fields h in
      match broken h with
      | Some (Some key, e) => ("{" +:+ join_comma (written ++ [quote key +:+ ":"]), Some e)
      | Some (None, e) => ("{" +:+ join_comma written, Some e)
      | None => (("{" +:+ join_comma written) +:+ "}", None)
      end
  end.

(** What a file request is answered with: a refusal, the file as it is, or a
    header's public copy. *)
Inductive file_reply :=
| NoFile (code : Z) (why : string)
| AsIs (path : string)
| PublicCopy (body : string * option goerr).

(** [path.Base]. *)
Definition base_name (name : string) : string :=
  match Board.cut_last name with Some (_, b) => b | None => name end.

(** [opened] is what opening a header gives. *)
Definition serveBoardFile (quote : string → string) (st : Ceremony.CeremonyState * option goerr)
    (opened : string → option (option header_text)) (name : string) : file_reply :=
  if negb (bool_decide (name ∈ publicFiles)) then NoFile 404 "not a public file of this run"
  else if bool_decide (is_Some st.2) || negb (Ceremony.Published st.1) then
    NoFile 409 "sealed until the tally is published"
  else if negb (String.eqb (base_name name) "header.json") then AsIs name
  else match opened name with
       | None => NoFile 404 "not found"
       | Some h => PublicCopy (writePublicHeader quote h)
       end.

(** [strings.Cut(s, "/files/")]. *)
Fixpoint cut_files (s : string) : string * option string :=
  if has_prefix s "/files/" then ("", Some (str_drop 7 s))
  else match s with
       | EmptyString => ("", None)
       | String c s => let '(a, b) := cut_files s in (String c a, b)
       end.

Inductive board_reply :=
| BoardRefused (code : Z) (why : goerr)
| BoardFile (r : file_reply)
| BoardPage (b : BoardResponse).

Definition handleBoard `{Sha256, Proto} (quote : string → string) (data : RunStore.RunRecord → run_data)
    (opened : string → option (option header_text)) (path : string) (w : Server.world) : board_reply :=
  let '(id, file) := cut_files (TrimPrefix path "/api/board/") in
  match Server.validRun id with
  | Err e => BoardRefused 400 e
  | Ok id =>
      match Server.record id w with
      | Err e => BoardRefused 404 e
      | Ok rec =>
          match file with
          | Some name => BoardFile (serveBoardFile quote (ceremony (data rec)) opened name)
          | None => BoardPage (buildBoard (data rec))
          end
      end
  end.

(** ** Tracking codes *)
Definition is_lower_hex (c : ascii) : bool :=
  let n := nat_of_ascii c in ((48 <=? n) && (n <=? 57) || (97 <=? n) && (n <=? 102))%nat.

Definition hexRe (s : string) : bool := (String.length s =? 8)%nat && str_forallb is_lower_hex s.

Definition trackingPrefix (code : string) : result string :=
  let s := ToLower (TrimSpace code) in
  let s := TrimPrefix s "bc-" in
  let s := replace_char "-"%char "" s in
  if hexRe s then Ok s else Err (Errorf "tracking codes look like BC-XXXX-XXXX, with hex digits" []).

Definition formatTrackingCode (nullifier : string) : string :=
  if (String.length nullifier <? 8)%nat then ""
  else let up := ToUpper (str_take 8 nullifier) in
       (("BC-" +:+ str_take 4 up) +:+ "-") +:+ str_drop 4 up.

Record ballotRow := MkBallotRow { BIndex : Z; BPositionID : string; BNullifier : string; BSHA256 : string }.

(** ballots.csv as its reader gives it: rows, then the end or an error. *)
Record table := MkTable { head_row : option (list string); body : list (list string); torn : option goerr }.

Definition ballot_row (idx : gmap string nat) (row : list string) : ballotRow :=
  MkBallotRow (ParseInt (field row idx "index")) (field row idx "position_id")
    (ToLower (field row idx "nullifier")) (field row idx "ballot_sha256").

Definition row_matches (idx : gmap string nat) (prefix : string) (row : list string) : bool :=
  let n := ToLower (field row idx "nullifier") in negb (String.eqb n "") && has_prefix n prefix.

(** The loop: it stops at the second match. *)
Fixpoint scan_rows (idx : gmap string nat) (prefix : string) (rows : list (list string)) (torn : option goerr)
    (out : list ballotRow) : result (list ballotRow) :=
  match rows with
  | [] => match torn with None => Ok out | Some e => Err (Errorf "read %s: %w" [AStr "ballots.csv"; AErr e]) end
  | row :: rows =>
      if row_matches idx prefix row then
        let out := out ++ [ballot_row idx row] in
        if (1 <? length out)%nat then Ok out else scan_rows idx prefix rows torn out
      else scan_rows idx prefix rows torn out
  end.

(** [None]: the file is not there. *)
Definition scanBallotsForPrefix (f : option (result table)) (prefix : string) : result (list ballotRow) :=
  match f with
  | None => Err (Errorf "this election has no ballot table — it has not been generated yet" [])
  | Some (Err e) => Err e
  | Some (Ok t) =>
      match head_row t with
      | None => Err (Errorf "read %s: %w" [AStr "ballots.csv"; AErr (default (Foreign "EOF") (torn t))])
      | Some header => scan_rows (columnIndex 0 header) prefix (body t) (torn t) []
      end
  end.

Section code.
Context `{Rfc3339}.

(** [submitBallotReceipt]: the first of receipts.csv's readable rows that is
    the ballot's, or of the trail's events. *)
Definition receipt_row (ref : string) (row : list string) : option Receipts.Receipt :=
  if (length row <? ReceiptFile.receiptsCSVFields)%nat || negb (String.eqb (ReceiptFile.field row 0) "SubmitBallot") ||
     negb (String.eqb (ReceiptFile.field row 1) ref) then None
  else ReceiptFile.EReceipt <$> ReceiptFile.parseReceiptRow row.

Definition trail_receipt (ref : string) (ev : ReceiptFile.TrailEvent) : option Receipts.Receipt :=
  if String.eqb (ReceiptFile.Event ev) "SubmitBallot" && String.eqb (ReceiptFile.Ref ev) ref
  then Some (ReceiptFile.EReceipt ev) else None.

Definition submitBallotReceipt (receipts : list (list string)) (trail : result (list ReceiptFile.TrailEvent)) (index : Z) :
    option Receipts.Receipt :=
  let ref := Itoa index in
  match head (omap (receipt_row ref) receipts) with
  | Some r => Some r
  | None => match trail with Ok evs => head (omap (trail_receipt ref) evs) | Err _ => None end
  end.

Record VerifyCodeResponse := MkVerify {
  Found : bool; TrackingCode : string; BallotIndex : Z; PositionID : string; PositionLabel : string;
  Nullifier : string; BallotSHA256 : string; RecordedAt : option Z; BlockNumber : Z; TxID : string;
  CommittedOnChain : bool
}.

Definition not_found : VerifyCodeResponse := MkVerify false "" 0 "" "" "" "" None 0 "" false.

(** A record that was found, with its receipt or what the ledger says of it;
    [onChain] is [GetBallot]'s answer where a ledger was reached. *)
Definition found_response (m : ballotRow) (rc : option Receipts.Receipt) (onChain : bool) : VerifyCodeResponse :=
  MkVerify true (formatTrackingCode (BNullifier m)) (BIndex m) (BPositionID m) (Board.posLabel (BPositionID m))
    (BNullifier m) (BSHA256 m)
    (rc ← rc; Receipts.RTimestamp rc)
    (match rc with Some rc => Receipts.BlockNumber rc | None => 0 end)
    (match rc with Some rc => Receipts.TxID rc | None => "" end)
    (match rc with Some _ => true | None => onChain end).

Inductive code_reply :=
| CodeRefused (code : Z) (why : goerr)
| CodeAnswer (r : VerifyCodeResponse).

Definition handleVerifyCode (ballots : string → option (result table)) (receipts : string → list (list string))
    (trail : string → result (list ReceiptFile.TrailEvent)) (onChain : string → string → bool) (path : string) : code_reply :=
  let '(rawRun, rawCode, found) := Cut (TrimPrefix path "/api/verify-code/") "/"%char in
  if negb found then CodeRefused 400 (Errorf "usage: /api/verify-code/<run>/<code>" [])
  else match Server.validRun rawRun with
  | Err e => CodeRefused 400 e
  | Ok run =>
      match trackingPrefix rawCode with
      | Err e => CodeRefused 400 e
      | Ok prefix =>
          match scanBallotsForPrefix (ballots run) prefix with
          | Err e => CodeRefused 500 e
          | Ok [] => CodeAnswer not_found
          | Ok [m] =>
              CodeAnswer (found_response m (submitBallotReceipt (receipts run) (trail run) (BIndex m))
                            (onChain run (BNullifier m)))
          | Ok _ => CodeRefused 409 (Errorf "this tracking code matches more than one ballot record — ask for the full nullifier" [])
          end
      end
  end.
End code.

(** ** What a sealed board gives away *)
Section board.
Context `{Sha256, Proto}.

(** Two rows that differ in their numbers only, and not where the row fails. *)
Record same_row (r r' : ContestCorrectness) : Prop := {
  same_contest : Contest r = Contest r' ∧ Pass r = Pass r' ∧ Source r = Source r';
  same_failed : Pass r = false → r = r'
}.

(** Two headers that differ in the tally only. *)
Inductive same_header : boardHeader → boardHeader → Prop :=
| same_read name n pk bc dkg params tally tally' :
    same_header (MkBoardHeader name n pk bc dkg tally params) (MkBoardHeader name n pk bc dkg tally' params).

(** Two runs that differ in their votes only: the ballots, the tally of the
    header, and what the audit decoded. *)
Record same_but_results (d d' : run_data) : Prop := {
  same_rest : rec d = rec d' ∧ present d = present d' ∧ ceremony d = ceremony d' ∧
    scenarios d = scenarios d' ∧ check_report d = check_report d' ∧ ledger d = ledger d';
  same_head : option_Forall2 same_header (header d) (header d');
  same_rows : Forall2 same_row (audited_rows d) (audited_rows d')
}.

(** A page without the digests of the tally and of the ballots. *)
Definition but_digests (b : BoardResponse) : BoardResponse :=
  let c := Crypto b in
  MkBoard (ElectionID b) (BName b) (BMode b) (BDistribution b) (BOnChain b) (BStatus b) (OpenedAt b) (BClosedAt b)
    (BPublishedAt b) (Sealed b) (Verified b) (BContests b) (Integrity b)
    (MkCrypto (TallyProofVerified c) (TrusteesSubmitted c) (TrusteesTotal c) (CThreshold c) EmptyString (DKGSHA256 c)
       EmptyString (IssuerPublicKey c) (BindingContext c) (ChainHeight c) (TipHash c) (CommittedNullifiers c))
    (filter (λ c, CheckName c ≠ fpName) (Checks b)) (Artifacts b) (Files b) (Partial b) (PartialReason b).

Lemma first_bad_same rows rows' : Forall2 same_row rows rows' → first_bad rows = first_bad rows'.
Proof.
  unfold first_bad. induction 1 as [|r r' rows rows' [(_&Hp&_) Hf] _ IH]; [done|]. cbn [find]. rewrite <-Hp.
  destruct (Pass r) eqn:E; cbn [negb]; [done|]. by rewrite (Hf eq_refl).
Qed.

Lemma audit_check_same rows rows' : Forall2 same_row rows rows' → audit_check rows = audit_check rows'.
Proof.
  intros Hr. unfold audit_check. rewrite (first_bad_same _ _ Hr).
  assert (Hc : Contest <$> rows = Contest <$> rows') by (induction Hr as [|? ? ? ? [(?&_&_) _] _ IH]; [done|]; cbn; by f_equal).
  assert (Hl : existsb (λ r, String.eqb (Source r) "ledger") rows = existsb (λ r, String.eqb (Source r) "ledger") rows').
  { clear Hc. induction Hr as [|? ? ? ? [(_&_&Hs) _] _ IH]; [done|]. cbn. by rewrite Hs, IH. }
  by destruct Hr; [|rewrite Hc, Hl].
Qed.

Lemma all_pass_same rows rows' : Forall2 same_row rows rows' → all_pass rows = all_pass rows'.
Proof.
  intros Hr. assert (Hf : forallb Pass rows = forallb Pass rows').
  { induction Hr as [|? ? ? ? [(_&Hp&_) _] _ IH]; [done|]. cbn. by rewrite Hp, IH. }
  unfold all_pass. by destruct Hr.
Qed.

Lemma with_checks_but l b :
  Forall (λ c, CheckName c ≠ fpName) l → but_digests (with_checks l b) = with_checks l (but_digests b).
Proof.
  intros Hl. unfold but_digests, with_checks. cbn. rewrite filter_app. do 2 f_equal.
  induction Hl as [|x l Hx _ IH]; [done|]. by rewrite filter_cons, decide_True, IH.
Qed.

(** What the ledger adds to a page does not look at its digests. *)
Lemma enrich_but ch b : but_digests (enrichFromChain ch b) = enrichFromChain ch (but_digests b).
Proof.
  assert (Hp : ∀ why b, but_digests (with_partial why b) = with_partial why (but_digests b))
    by (intros why b0; unfold with_partial; cbn [Partial but_digests]; by destruct (Partial b0)).
  assert (Hc : ∀ s h t n b, but_digests (with_chain s h t n b) = with_chain s h t n (but_digests b)) by done.
  assert (Hi : ∀ b, BStatus (but_digests b) = BStatus b ∧ Integrity (but_digests b) = Integrity b) by done.
  assert (Hw : ∀ why b, Integrity (with_partial why b) = Integrity b) by (intros why b0; unfold with_partial; by destruct (Partial b0)).
  unfold enrichFromChain. destruct ch as [ch|]; [|done].
  destruct (dialed ch); [|apply with_checks_but; by repeat constructor].
  destruct (GetElection ch); [|apply with_checks_but; by repeat constructor].
  destruct (CountCommittedBallots ch), (ChainInfo ch) as [[? ?]|];
    (rewrite with_checks_but; [|constructor; [done|]; unfold count_check; by repeat case_match; repeat constructor]);
    rewrite Hc, ?Hp; unfold with_chain; cbn [Integrity BallotRecords]; by rewrite ?Hw.
Qed.

Lemma but_digests_same id name mode dist on st op cl pub sealed ver cs int tp ts tt th tally tally' dkg sha sha' pk bc h tip n
    a p t g arts files part why :
  but_digests (MkBoard id name mode dist on st op cl pub sealed ver cs int (MkCrypto tp ts tt th tally dkg sha pk bc h tip n)
    [a; p; t; g; digest_check sha] arts files part why) =
  but_digests (MkBoard id name mode dist on st op cl pub sealed ver cs int (MkCrypto tp ts tt th tally' dkg sha' pk bc h tip n)
    [a; p; t; g; digest_check sha'] arts files part why).
Proof.
  assert (Hd : ∀ s, CheckName (digest_check s) = fpName) by (intros s; unfold digest_check; by destruct (String.eqb s "")).
  unfold but_digests. cbn [Crypto Checks TallyProofVerified TrusteesSubmitted TrusteesTotal CThreshold DKGSHA256
    IssuerPublicKey BindingContext ChainHeight TipHash CommittedNullifiers ElectionID BName BMode BDistribution BOnChain
    BStatus OpenedAt BClosedAt BPublishedAt Sealed Verified BContests Integrity Artifacts Files Partial PartialReason].
  rewrite !filter_cons. by rewrite !(decide_False (P := CheckName (digest_check _) ≠ fpName)) by (rewrite Hd; tauto).
Qed.

Lemma sealed_same d d' :
  same_but_results d d' → Ceremony.Published (ceremony d).1 = false →
  but_digests (buildBoard d) = but_digests (buildBoard d').
Proof.
  intros [(Hrec&Hpre&Hcer&Hsc&Hrep&Hled) Hh Hr] Hs. unfold buildBoard, artifactsIn, publicFilesIn, boardChecks.
  rewrite <-Hrec, <-Hpre, <-Hcer, <-Hsc, <-Hrep, <-Hled, (audit_check_same _ _ Hr), (all_pass_same _ _ Hr), Hs.
  destruct (Server.groundTruthOnly _); [done|]. cbn [negb]. destruct (tamperedRefused _) as [rejected note].
  unfold runDigests. destruct Hh as [? ? []|]; cbn [digested fmap option_fmap option_map HDkg HTally HN ElectionName IssuerPk HBindingContext];
    rewrite !enrich_but; f_equal; by apply but_digests_same.
Qed.

Lemma sealed_kept ch b : Sealed (enrichFromChain ch b) = Sealed b ∧ BContests (enrichFromChain ch b) = BContests b ∧
  Files (enrichFromChain ch b) = Files b ∧ Verified (enrichFromChain ch b) = Verified b.
Proof.
  unfold enrichFromChain, with_partial. destruct ch as [ch|]; [|done]. destruct (dialed ch); [|done].
  destruct (GetElection ch); [|done]. destruct (CountCommittedBallots ch), (ChainInfo ch) as [[? ?]|];
    cbn [with_checks with_chain Sealed BContests Files Verified Partial]; repeat case_match; done.
Qed.

Lemma sealed_shows_nothing d :
  Ceremony.Published (ceremony d).1 = false →
  Sealed (buildBoard d) = true ∧ BContests (buildBoard d) = [] ∧ Files (buildBoard d) = [].
Proof.
  intros Hs. unfold buildBoard. rewrite Hs. destruct (Server.groundTruthOnly _); [done|]. cbn [negb].
  destruct (tamperedRefused _), (runDigests _ _) as [[? ?] ?].
  match goal with |- context [enrichFromChain ?c ?b] => destruct (sealed_kept c b) as (->&->&->&_) end. done.
Qed.

(** A board says verified exactly when the audit is there and every row passed. *)
Lemma verified_exact d :
  Server.groundTruthOnly (RunStore.RConfig (rec d)) = false →
  Verified (buildBoard d) = true ↔ audited_rows d ≠ [] ∧ Forall (λ r, Pass r = true) (audited_rows d).
Proof.
  intros Hg. unfold buildBoard. rewrite Hg. destruct (if negb _ then _ else _), (tamperedRefused _), (runDigests _ _) as [[? ?] ?].
  match goal with |- context [enrichFromChain ?c ?b] => destruct (sealed_kept c b) as (_&_&_&->) end.
  cbn [Verified]. unfold all_pass. destruct (audited_rows d) as [|r rows]; [naive_solver|].
  rewrite forallb_forall, Forall_forall. setoid_rewrite list_elem_of_In. naive_solver.
Qed.

Lemma checks_kept ch b c : c ∈ Checks b → c ∈ Checks (enrichFromChain ch b).
Proof.
  intros Hc. unfold enrichFromChain, with_partial. destruct ch as [ch|]; [|done].
  destruct (dialed ch); [|cbn; apply elem_of_app; by left]. destruct (GetElection ch); [|cbn; apply elem_of_app; by left].
  destruct (CountCommittedBallots ch), (ChainInfo ch) as [[? ?]|];
    cbn [with_checks with_chain Checks Partial]; repeat case_match; apply elem_of_app; by left.
Qed.

(** The page of a run whose audit failed names the ground truth, the decoded
    total and E of the first contest that failed, sealed or not, though
    publicFiles keeps the file they come from to the operators. *)
Lemma failed_audit_shows_ground_truth d r :
  Server.groundTruthOnly (RunStore.RConfig (rec d)) = false → first_bad (audited_rows d) = Some r →
  ∃ c f, c ∈ Checks (buildBoard d) ∧
    Detail c = Errorf f [AStr (Contest r); AInt (GroundTruth r); AInt (Decoded r); AInt (E r)].
Proof.
  intros Hg Hb. assert (Hc : ∃ f, Detail (audit_check (audited_rows d)) =
    Errorf f [AStr (Contest r); AInt (GroundTruth r); AInt (Decoded r); AInt (E r)]).
  { unfold audit_check. rewrite Hb. destruct (audited_rows d); [done|]. destruct (String.eqb _ _); by eexists. }
  destruct Hc as [f Hf]. exists (audit_check (audited_rows d)), f. split; [|done]. unfold buildBoard. rewrite Hg.
  destruct (if negb _ then _ else _), (tamperedRefused _), (runDigests _ _) as [[? ?] ?].
  apply checks_kept. cbn. by left.
Qed.

(** Two headers that differ in the values of private fields. *)
Definition same_public (h h' : header_text) : Prop :=
  Forall2 (λ kv kv', kv.1 = kv'.1 ∧ (kv.1 ∉ privateHeaderFields → kv.2 = kv'.2)) (fields h) (fields h') ∧ broken h = broken h'.

Lemma public_header_same quote h h' :
  option_Forall2 same_public h h' → writePublicHeader quote h = writePublicHeader quote h'.
Proof.
  intros [a b [Hf Hb]|]; [|done]. unfold writePublicHeader. rewrite <-Hb.
  replace (public_field quote <$> fields b) with (public_field quote <$> fields a); [done|].
  induction Hf as [|kv kv' l l' [Hk Hv] _ IH]; [done|]. cbn. f_equal; [|exact IH]. unfold public_field. rewrite <-Hk.
  case_bool_decide as Hp; [done|]. by rewrite (Hv Hp).
Qed.

(** C29: the board keeps a result sealed until the tally is published. Before,
    it shows no race and offers no file, whatever is asked for is refused, and
    but for two digests, of the tally and of the ballots, its page is the same
    for any two runs that differ only in the ballots, in the tally and in what
    the audit decoded on the contests that pass. (The figures of a contest that
    failed its audit are on the page: [failed_audit_shows_ground_truth].) After,
    it serves the files of a fixed list alone, and of a header a copy that is
    the same for any two headers that differ in the ground truth or in the
    voters' names alone. *)
Theorem board_seals_and_redacts quote d :
  (Ceremony.Published (ceremony d).1 = false →
    Sealed (buildBoard d) = true ∧ BContests (buildBoard d) = [] ∧ Files (buildBoard d) = [] ∧
    (∀ d', same_but_results d d' → but_digests (buildBoard d) = but_digests (buildBoard d')) ∧
    ∀ opened name, ∃ code why, serveBoardFile quote (ceremony d) opened name = NoFile code why) ∧
  (∀ opened name, match serveBoardFile quote (ceremony d) opened name with
                  | NoFile _ _ => True
                  | AsIs n => n = name ∧ name ∈ publicFiles ∧ base_name name ≠ "header.json"
                  | PublicCopy _ => name ∈ publicFiles ∧ base_name name = "header.json"
                  end) ∧
  ∀ h h', option_Forall2 same_public h h' → writePublicHeader quote h = writePublicHeader quote h'.
Proof.
  split; [|split; [|apply public_header_same]].
  - intros Hs. destruct (sealed_shows_nothing d Hs) as (?&?&?). split_and!; try done.
    + intros d' Hd. by apply sealed_same.
    + intros opened name. unfold serveBoardFile. destruct (negb _); [eauto|]. rewrite Hs, orb_true_r. eauto.
  - intros opened name. unfold serveBoardFile. case_bool_decide as Hn; [|done]. cbn [negb].
    destruct (_ || _); [done|]. destruct (String.eqb_spec (base_name name) "header.json") as [Hb|Hb]; cbn [negb]; [|done].
    by destruct (opened name).
Qed.
End board.

(** ** A tracking code and its ballot *)
#[local] Arguments String.append !_ _ / : simpl nomatch.

Lemma hex_char_facts c :
  is_lower_hex c = true → lower_ascii (upper_ascii c) = c ∧ LedgerDumpFacts.plain (upper_ascii c) = true ∧ Ascii.eqb c "-"%char = false.
Proof. by destruct c as [[] [] [] [] [] [] [] []]. Qed.

Lemma Cut_join a b :
  str_forallb (λ c, negb (Ascii.eqb c "/"%char)) a = true → Cut (a +:+ "/" +:+ b) "/"%char = (a, b, true).
Proof.
  induction a as [|c a IH]; [done|]. cbn [str_forallb]. intros [Hc Ha]%andb_true_iff. apply negb_true_iff in Hc.
  change (Cut (String c (a +:+ "/" +:+ b)) "/"%char = (String c a, b, true)). cbn [Cut]. by rewrite Hc, IH.
Qed.

Lemma runID_no_slash run : RunStore.runIDPattern run = true → str_forallb (λ c, negb (Ascii.eqb c "/"%char)) run = true.
Proof.
  destruct run as [|c run]; [done|]. cbn. intros [[Hc Hr]%andb_true_iff _]%andb_true_iff.
  assert (Hid : ∀ c, RunStore.id_char c = true → negb (Ascii.eqb c "/"%char) = true)
    by (intros d; by destruct d as [[] [] [] [] [] [] [] []]).
  rewrite (str_forallb_impl _ _ _ Hid Hr), andb_true_r. apply Hid. unfold RunStore.id_char. by rewrite Hc.
Qed.

Lemma has_prefix_take n k : has_prefix n (str_take k n) = true.
Proof. revert k. induction n as [|c n IH]; intros [|k]; try done. cbn [str_take has_prefix]. by rewrite bool_decide_true, IH. Qed.

Lemma has_prefix_app p s : has_prefix (p +:+ s) p = true.
Proof. induction p as [|c p IH]; [by destruct s|]. change (has_prefix (String c (p +:+ s)) (String c p) = true).
  cbn [has_prefix]. by rewrite bool_decide_true, IH.
Qed.

Lemma prefix_take s n k :
  (k ≤ String.length n)%nat → has_prefix s (str_take k n) = true → str_take k s = str_take k n ∧ (k ≤ String.length s)%nat.
Proof.
  revert s n. induction k as [|k IH]; intros s n; [intros; split; [by destruct s, n|lia]|].
  destruct n as [|c n]; cbn [String.length]; [lia|]. intros Hk. destruct s as [|d s]; [done|]. cbn.
  intros [->%bool_decide_eq_true Hp]%andb_true_iff. destruct (IH s n) as [-> ?]; [lia|done|]. split; [done|lia].
Qed.

Lemma code_of_prefix n n' :
  (8 ≤ String.length n)%nat → has_prefix n' (str_take 8 n) = true → formatTrackingCode n' = formatTrackingCode n.
Proof.
  intros Hn Hp. destruct (prefix_take n' n 8 Hn Hp) as [Ht Hl]. unfold formatTrackingCode. rewrite Ht.
  by rewrite (proj2 (Nat.ltb_ge _ _) Hn), (proj2 (Nat.ltb_ge _ _) Hl).
Qed.

(** The code of a nullifier reads back as the nullifier's first eight digits. *)
Lemma trackingPrefix_format n :
  str_forallb is_lower_hex n = true → (8 ≤ String.length n)%nat →
  trackingPrefix (formatTrackingCode n) = Ok (str_take 8 n).
Proof.
  intros Hn Hl. do 8 (destruct n as [|? n]; [cbn in Hl; lia|]). clear Hl. cbn in Hn. rewrite !andb_true_iff in Hn.
  destruct Hn as (H1&H2&H3&H4&H5&H6&H7&H8&_).
  assert (Hx : hexRe (str_take 8 (String a (String a0 (String a1 (String a2 (String a3 (String a4 (String a5
                 (String a6 n))))))))) = true) by (cbn; by rewrite H1, H2, H3, H4, H5, H6, H7, H8).
  repeat match goal with H : is_lower_hex ?c = true |- _ => destruct (hex_char_facts c H) as (?&?&?); clear H end.
  unfold trackingPrefix, formatTrackingCode. cbn [String.length Nat.ltb Nat.leb].
  unfold ToLower, ToUpper. cbn [str_take str_drop str_map String.append].
  rewrite LedgerDumpFacts.TrimSpace_plain by
    (cbn [str_forallb]; by repeat match goal with H : LedgerDumpFacts.plain _ = true |- _ => rewrite H; clear H end).
  cbn [str_map].
  repeat match goal with H : lower_ascii (upper_ascii ?c) = ?c |- _ => rewrite H; clear H end.
  change (lower_ascii "B"%char) with "b"%char. change (lower_ascii "C"%char) with "c"%char.
  change (lower_ascii "-"%char) with "-"%char. unfold TrimPrefix. cbn [has_prefix String.length str_drop andb].
  rewrite !bool_decide_true by done. cbn [andb replace_char].
  repeat match goal with H : Ascii.eqb ?c "-"%char = false |- _ => rewrite H; clear H end.
  cbn [str_take] in Hx |- *. cbn [Ascii.eqb Bool.eqb String.append]. by rewrite Hx.
Qed.

(** The scan, at most two of the rows that match. *)
Lemma scan_rows_spec idx prefix rows out :
  (length out ≤ 1)%nat →
  scan_rows idx prefix rows None out =
    Ok (take 2 (out ++ (ballot_row idx <$> filter (λ r, row_matches idx prefix r = true) rows))).
Proof.
  revert out. induction rows as [|row rows IH]; intros out Ho; cbn [scan_rows].
  - cbn. rewrite app_nil_r, take_ge by lia. done.
  - rewrite filter_cons. destruct (row_matches idx prefix row) eqn:E.
    + rewrite decide_True by done. cbn [fmap list_fmap]. destruct (Nat.ltb_spec 1 (length (out ++ [ballot_row idx row]))) as [Hl|Hl].
      * rewrite length_app in Hl. cbn in Hl. destruct out as [|b [|? ?]]; cbn in *; [lia|done|lia].
      * rewrite IH by done. by rewrite <-(assoc_L (++)).
    + rewrite decide_False by done. by apply IH.
Qed.

Section tracking.
Context `{Rfc3339}.

(** The code printed for a ballot finds that ballot's record and no other.
    Asked for the code of a nullifier of a run's ballot table, the console
    looks at the rows that start with the nullifier's eight digits: none and
    the answer is that there is no such ballot, one and the answer is that row,
    under the code asked for, with its receipt where there is one; two or more
    and no record is shown. The nullifier's own row is always among them. *)
Theorem tracking_code_finds_its_ballot run n header rows ballots receipts trail onChain :
  RunStore.runIDPattern run = true →
  str_forallb is_lower_hex n = true → (8 ≤ String.length n)%nat →
  ballots run = Some (Ok (MkTable (Some header) rows None)) →
  let idx := columnIndex 0 header in
  let hits := filter (λ r, row_matches idx (str_take 8 n) r = true) rows in
  let reply := handleVerifyCode ballots receipts trail onChain
                 ("/api/verify-code/" +:+ (run +:+ "/" +:+ formatTrackingCode n)) in
  (∀ row, row ∈ rows → ToLower (field row idx "nullifier") = n → row ∈ hits) ∧
  match hits with
  | [] => reply = CodeAnswer not_found
  | [row] =>
      ∃ r, reply = CodeAnswer r ∧ Found r = true ∧ TrackingCode r = formatTrackingCode n ∧
        Nullifier r = ToLower (field row idx "nullifier") ∧ BallotSHA256 r = field row idx "ballot_sha256" ∧
        PositionID r = field row idx "position_id" ∧ BallotIndex r = ParseInt (field row idx "index") ∧
        match submitBallotReceipt (receipts run) (trail run) (BallotIndex r) with
        | Some rc => CommittedOnChain r = true ∧ TxID r = Receipts.TxID rc ∧ BlockNumber r = Receipts.BlockNumber rc
        | None => CommittedOnChain r = onChain run (Nullifier r) ∧ TxID r = ""
        end
  | _ => ∃ why, reply = CodeRefused 409 why
  end.
Proof.
  intros Hrun Hn Hl Hb idx hits reply. split.
  { intros row Hrow Hnull. apply list_elem_of_filter. split; [|done]. unfold row_matches. rewrite Hnull.
    destruct n as [|c n]; [cbn in Hl; lia|]. apply has_prefix_take. }
  assert (Hr : reply = match hits with
    | [] => CodeAnswer not_found
    | [row] =>
        let m := ballot_row idx row in
        CodeAnswer (found_response m (submitBallotReceipt (receipts run) (trail run) (BIndex m)) (onChain run (BNullifier m)))
    | _ => CodeRefused 409 (Errorf "this tracking code matches more than one ballot record — ask for the full nullifier" [])
    end).
  { unfold reply, handleVerifyCode. unfold TrimPrefix at 1. rewrite has_prefix_app, str_drop_app.
    rewrite (Cut_join run) by (by apply runID_no_slash). cbn [negb]. unfold Server.validRun, RunStore.Dir.
    rewrite Hrun. cbn [rbind]. rewrite trackingPrefix_format by done. rewrite Hb.
    cbn [scanBallotsForPrefix head_row body torn]. rewrite scan_rows_spec by (cbn; lia). fold idx. fold hits.
    by destruct hits as [|row [|row' hits']]. }
  destruct hits as [|row [|row' hits']] eqn:Eh; [done| |by eexists].
  assert (Hm : row ∈ hits) by (rewrite Eh; by left).
  apply list_elem_of_filter in Hm as [Hm _]. unfold row_matches in Hm. apply andb_true_iff in Hm as [_ Hm].
  eexists. split; [exact Hr|]. cbn. rewrite (code_of_prefix n) by done. split_and!; try done.
  by destruct (submitBallotReceipt _ _ _).
Qed.
End tracking.
End BoardPage.
