(* ===== verification/Derived.v ===== *)
(** * The tables derived from a generated run

    [saksi-campaign/csvexport.go]: ballots.csv and election.csv, written from
    header.json and ballots.ndjson after generation, and the digests that bind a
    row to the artifacts it is about; then the tracking code of a ballot looked
    up ([BoardPage]) in the table the console itself wrote. *)
From S2P Require Import Prelude Hex Wire GoText Config Csv Receipts Ballots Scenarios RunStore ReceiptFile BoardPage.
From Stdlib Require Import Ascii.
#[local] Open Scope Z_scope.
Import GoText.

Module Derived.
Import BoardPage(sha256Hex, hexDigest, ballotsDigest).

(** header.json, as far as election.csv needs it. *)
Record electionHeader := MkHeader {
  HElectionID : string; HElectionName : string; HTrusteeNames : list string;
  HPartialDecryptions : list string; HGroundTruth : list Z; HN : Z;
  HDkg : string; HTally : string; HIssuerPk : string; HBindingContext : string
}.

Definition ballotsHeader : list string :=
  ["index"; "election_id"; "position_id"; "voter_credential_commitment"; "nullifier";
   "num_ciphertexts"; "num_wellformedness_proofs"; "ballot_sha256"; "ballot_json"].

Definition electionColumns : list string :=
  ["election_id"; "election_name"; "trustees"; "threshold"; "positions"; "candidates"; "voters"; "num_ballots";
   "num_partial_decryptions"; "ground_truth_total"; "distribution"; "mode"; "trustee_names";
   "issuer_public_key"; "binding_context"; "dkg_sha256"; "tally_sha256"; "ballots_sha256"].

Section derived.
Context `{Sha256, Proto}.
(** [protojson]'s rendering of a ballot. *)
Variable MarshalJSON : Ballot.t → result string.

(** [runDigests] of a header as election.csv's writer reads it. *)
Definition header_digests (h : option electionHeader) (f : Ballots.stream) : string * string * string :=
  BoardPage.runDigests ((λ h, (HDkg h, HTally h)) <$> h) f.

(** The row of ballot [i], whose bytes are [raw]. *)
Definition ballotRow (i : nat) (raw : bytes) (b : Ballot.t) (json : string) : list string :=
  [Itoa (Z.of_nat i); Ballot.ElectionId b; Ballot.PositionId b;
   EncodeToString (Ballot.VoterCredentialCommitment b);
   EncodeToString (NullifierValue (Ballot.CredentialPresentation b));
   Itoa (Z.of_nat (length (Ballot.Ciphertexts b))); Itoa (Z.of_nat (length (Ballot.WellFormednessProofs b)));
   sha256Hex raw; json].

Definition ballot_step (i : nat) (line : string) (rows : list (list string)) : result (list (list string)) :=
  let? raw := wrap_err (λ e, Errorf "ballot %d not hex: %w" [AInt (Z.of_nat i); AErr e]) (DecodeString line) in
  let? b := wrap_err (λ e, Errorf "decode ballot %d: %w" [AInt (Z.of_nat i); AErr e]) (UnmarshalBallot raw) in
  let? json := wrap_err (λ e, Errorf "json ballot %d: %w" [AInt (Z.of_nat i); AErr e]) (MarshalJSON b) in
  Ok (rows ++ [ballotRow i raw b json]).

(** ballots.csv, on a disk with room. *)
Definition writeBallotsCSV (f : Ballots.stream) : result string :=
  let? rows := wrap_err (λ e, Errorf "read ballots: %w" [AErr e]) (Ballots.scanBallotLines f ballot_step []) in
  Ok (Csv.written_text (ballotsHeader :: rows)).

(** An unsigned 64-bit total. *)
Definition total (l : list Z) : Z := foldl (λ a v, (a + v) mod 2 ^ 64) 0 l.

(** election.csv. *)
Definition writeElectionCSV (header : result electionHeader) (f : Ballots.stream) (c : Config.ElectionConfig) :
    result string :=
  let? h := wrap_err (λ e, Errorf "read header: %w" [AErr e]) header in
  let? root := ballotsDigest f in
  Ok (Csv.written_text
    [electionColumns;
     [HElectionID h; HElectionName h; Itoa (Z.of_nat (length (Config.Trustees c))); Itoa (Config.Threshold c);
      Itoa (Config.Positions c); Itoa (Config.Candidates c); Itoa (Config.Voters c); Itoa (HN h);
      Itoa (Z.of_nat (length (HPartialDecryptions h))); Itoa (total (HGroundTruth h));
      Config.Distribution c; Config.Mode c; Scenarios.Join "; " (HTrusteeNames h);
      HIssuerPk h; HBindingContext h; hexDigest (HDkg h); hexDigest (HTally h); root]]).

(** [writeDerivedCSVs]: the two tables, or why the generation fails. *)
Definition writeDerivedCSVs (header : result electionHeader) (f : Ballots.stream) (c : Config.ElectionConfig) :
    result (string * string) :=
  let? ballots := writeBallotsCSV f in
  let? election := writeElectionCSV header f c in
  Ok (ballots, election).

(** ** The rows of ballots.csv *)

(** Line [i] of the stream is the ballot [b] of bytes [raw]. *)
Definition ballot_at (f : Ballots.stream) (i : nat) (raw : bytes) (b : Ballot.t) : Prop :=
  ∃ line, Ballots.lines f !! i = Some line ∧ DecodeString (TrimSpace line) = Ok raw ∧ UnmarshalBallot raw = Ok b.

Lemma ballot_step_ok i line rows rows' :
  ballot_step i line rows = Ok rows' ↔
  ∃ raw b json, DecodeString line = Ok raw ∧ UnmarshalBallot raw = Ok b ∧ MarshalJSON b = Ok json ∧
    rows' = rows ++ [ballotRow i raw b json].
Proof.
  unfold ballot_step. rewrite rbind_ok. setoid_rewrite rbind_ok. setoid_rewrite rbind_ok.
  setoid_rewrite wrap_err_ok. naive_solver.
Qed.

Lemma rows_from ls : ∀ i err rows rows',
  Ballots.scan_from ballot_step i ls err rows = Ok rows' ↔
  err = None ∧ ∃ new, rows' = rows ++ new ∧ length new = length ls ∧
    ∀ k line row, ls !! k = Some line → new !! k = Some row →
      ∃ raw b json, DecodeString (TrimSpace line) = Ok raw ∧ UnmarshalBallot raw = Ok b ∧ MarshalJSON b = Ok json ∧
        row = ballotRow (i + k) raw b json.
Proof.
  induction ls as [|l ls IH]; intros i err rows rows'; cbn [Ballots.scan_from].
  { split.
    - destruct err; [done|]. intros [= <-]. split; [done|]. exists []. by rewrite app_nil_r.
    - intros (->&new&->&Hl&_). apply nil_length_inv in Hl as ->. by rewrite app_nil_r. }
  rewrite rbind_ok. setoid_rewrite ballot_step_ok. setoid_rewrite IH. split.
  - intros (s&(raw&b&j&Hd&Hu&Hj&->)&->&new&->&Hl&Hk). split; [done|].
    exists (ballotRow i raw b j :: new). split; [by rewrite <-app_assoc|]. split; [cbn; by rewrite Hl|].
    intros [|k] line row; cbn.
    + intros [= <-] [= <-]. rewrite Nat.add_0_r. eauto 7.
    + intros Hline Hrow. destruct (Hk k line row Hline Hrow) as (?&?&?&?&?&?&->).
      replace (i + S k)%nat with (i + 1 + k)%nat by lia. eauto 7.
  - intros (->&[|row new]&->&Hl&Hk); [done|]. injection Hl as Hl.
    destruct (Hk 0%nat l row eq_refl eq_refl) as (raw&b&j&Hd&Hu&Hj&->). rewrite Nat.add_0_r.
    eexists. split; [by eauto 7|]. split; [done|]. exists new. split; [by rewrite <-app_assoc|]. split; [done|].
    intros k line row Hline Hrow. destruct (Hk (S k) line row Hline Hrow) as (?&?&?&?&?&?&->).
    replace (i + S k)%nat with (i + 1 + k)%nat by lia. eauto 7.
Qed.

(** The table, with one row for each line. *)
Lemma ballots_rows f text :
  writeBallotsCSV f = Ok text →
  ∃ rows, text = Csv.written_text (ballotsHeader :: rows) ∧ length rows = length (Ballots.lines f) ∧
    (∀ i raw b, ballot_at f i raw b → ∃ json, MarshalJSON b = Ok json ∧ rows !! i = Some (ballotRow i raw b json)) ∧
    (∀ i row, rows !! i = Some row → ∃ raw b json, ballot_at f i raw b ∧ MarshalJSON b = Ok json ∧ row = ballotRow i raw b json).
Proof.
  unfold writeBallotsCSV, Ballots.scanBallotLines. rewrite rbind_ok. intros (rows&Hs&[= <-]). apply wrap_err_ok in Hs.
  apply rows_from in Hs as (_&new&->&Hl&Hk). exists new. cbn [app]. split; [done|]. split; [done|]. split.
  - intros i raw b (line&Hline&Hd&Hu). destruct (lookup_lt_is_Some_2 new i) as [row Hrow].
    { rewrite Hl. by eapply lookup_lt_Some. }
    destruct (Hk i line row Hline Hrow) as (raw'&b'&json&Hd'&Hu'&Hj&->). rewrite Hd in Hd'. injection Hd' as <-. rewrite Hu in Hu'. injection Hu' as <-. by exists json.
  - intros i row Hrow. destruct (lookup_lt_is_Some_2 (Ballots.lines f) i) as [line Hline].
    { rewrite <-Hl. by eapply lookup_lt_Some. }
    destruct (Hk i line row Hline Hrow) as (raw&b&json&Hd&Hu&Hj&->). exists raw, b, json. split_and!; [|done|done].
    by exists line.
Qed.

(** What a ballot may hold for its row to be read back as it was. *)
Definition one_line_end (f : Ballots.stream) : Prop :=
  ∀ i raw b json, ballot_at f i raw b → MarshalJSON b = Ok json →
    Csv.no_CR (Ballot.ElectionId b) ∧ Csv.no_CR (Ballot.PositionId b) ∧ Csv.no_CR json.


(** ballots.csv as its reader gives it, where every record is as wide as the
    first. *)
Definition open_table (text : string) : BoardPage.table :=
  match Csv.ReadAll text with
  | Some (h :: rows) => BoardPage.MkTable (Some h) rows None
  | Some [] => BoardPage.MkTable None [] None
  | None => BoardPage.MkTable None [] (Some (Foreign "csv"))
  end.

Lemma open_written f text :
  one_line_end f → writeBallotsCSV f = Ok text →
  ∃ rows, open_table text = BoardPage.MkTable (Some ballotsHeader) rows None ∧
    (∀ i raw b, ballot_at f i raw b → ∃ json, rows !! i = Some (ballotRow i raw b json)) ∧
    (∀ i row, rows !! i = Some row → ∃ raw b json, ballot_at f i raw b ∧ row = ballotRow i raw b json).
Proof.
  intros Hcr Hw. destruct (ballots_rows f text Hw) as (rows&->&Hl&Hat&Hrow). exists rows.
  unfold open_table. rewrite Csv.ReadAll_written.
  - split; [done|]. split.
    + intros i raw b Hb. destruct (Hat i raw b Hb) as (json&_&?). eauto.
    + intros i row Hr. destruct (Hrow i row Hr) as (raw&b&json&?&_&->). eauto.
  - assert (Hall : Forall (λ r, length r = length ballotsHeader ∧ Forall Csv.no_CR r ∧ r ≠ [EmptyString]) rows).
    { apply Forall_lookup. intros i row Hr. destruct (Hrow i row Hr) as (raw&b&json&Hb&Hj&->).
      destruct (Hcr i raw b json Hb Hj) as (?&?&?). split_and!; [done| |done].
      unfold ballotRow, sha256Hex. repeat (apply Forall_cons_2); try apply Forall_nil_2;
        auto using Csv.Itoa_no_CR, Csv.hex_no_CR. }
    split.
    + constructor; [repeat constructor|]. eapply Forall_impl; [exact Hall|]. by intros r (_&?&_).
    + split; [done|]. eapply Forall_impl; [exact Hall|]. by intros r (?&_&_).
    + constructor; [done|]. eapply Forall_impl; [exact Hall|]. by intros r (_&_&?).
Qed.

(** The nullifier of ballot [b] as the console prints it. *)
Definition nullifier (b : Ballot.t) : string := EncodeToString (NullifierValue (Ballot.CredentialPresentation b)).

Lemma hex_lower b : str_forallb BoardPage.is_lower_hex (EncodeToString b) = true.
Proof.
  apply (str_forallb_impl is_hex_digit); [|apply hex_digits].
  intros c. by destruct c as [[] [] [] [] [] [] [] []].
Qed.

Lemma lower_hex_ToLower s : str_forallb BoardPage.is_lower_hex s = true → ToLower s = s.
Proof.
  unfold ToLower. induction s as [|c s IH]; [done|]. cbn. intros [Hc Hs]%andb_true_iff. rewrite (IH Hs). f_equal.
  revert Hc. by destruct c as [[] [] [] [] [] [] [] []].
Qed.

(** What the lookup sees of a row. *)
Lemma row_fields i raw b json :
  let idx := BoardPage.columnIndex 0 ballotsHeader in
  let row := ballotRow i raw b json in
  BoardPage.field row idx "nullifier" = nullifier b ∧ BoardPage.field row idx "index" = Itoa (Z.of_nat i) ∧
  BoardPage.field row idx "ballot_sha256" = sha256Hex raw ∧ BoardPage.field row idx "position_id" = Ballot.PositionId b.
Proof.
  cbn zeta. unfold BoardPage.field.
  replace (BoardPage.columnIndex 0 ballotsHeader !! "nullifier") with (Some 4%nat) by (vm_compute; reflexivity).
  replace (BoardPage.columnIndex 0 ballotsHeader !! "index") with (Some 0%nat) by (vm_compute; reflexivity).
  replace (BoardPage.columnIndex 0 ballotsHeader !! "ballot_sha256") with (Some 7%nat) by (vm_compute; reflexivity).
  replace (BoardPage.columnIndex 0 ballotsHeader !! "position_id") with (Some 2%nat) by (vm_compute; reflexivity).
  done.
Qed.

(** A row matches when its nullifier starts with the same eight digits. *)
Lemma row_same i raw b json n :
  (8 ≤ String.length n)%nat →
  BoardPage.row_matches (BoardPage.columnIndex 0 ballotsHeader) (str_take 8 n) (ballotRow i raw b json) = true ↔
  str_take 8 (nullifier b) = str_take 8 n.
Proof.
  intros Hn. unfold BoardPage.row_matches. destruct (row_fields i raw b json) as (->&_).
  rewrite lower_hex_ToLower by apply hex_lower. rewrite andb_true_iff, negb_true_iff, String.eqb_neq. split.
  - intros [_ Hp]. by apply BoardPage.prefix_take.
  - intros E. rewrite <-E. split; [|apply BoardPage.has_prefix_take].
    intros Hz. rewrite Hz in E. by do 8 (destruct n as [|? n]; [cbn in Hn; lia|]).
Qed.

Lemma ParseInt_Itoa z : 0 ≤ z < 2 ^ 63 → BoardPage.ParseInt (Itoa z) = z.
Proof.
  intros Hz. destruct (Itoa_digits z) as [Hd Hv]; [lia|]. unfold BoardPage.ParseInt.
  assert (Hs : match Itoa z with
               | String "-"%char s' => (-1, s') | String "+"%char s' => (1, s') | _ => (1, Itoa z) end = (1, Itoa z)).
  { destruct (Itoa z) as [|c s]; [done|]. unfold all_digits in Hd. cbn in Hd. revert Hd. clear.
    by destruct c as [[] [] [] [] [] [] [] []]. }
  rewrite Hs, Hd, Hv. lia.
Qed.

Lemma rows_distinct rows :
  (∀ i row, rows !! i = Some row → ∃ raw b json, row = ballotRow i raw b json) → NoDup rows.
Proof.
  intros Hr. apply NoDup_alt. intros i j row Hi Hj.
  destruct (Hr i row Hi) as (raw&b&json&->). destruct (Hr j _ Hj) as (raw'&b'&json'&E).
  unfold ballotRow in E. injection E as E _. apply Itoa_inj in E. lia.
Qed.

Context `{ReceiptFile.Rfc3339}.

(** Ballot [j] has the tracking code of a ballot [b]. *)
Definition same_code (f : Ballots.stream) (b : Ballot.t) (j : nat) : Prop :=
  ∃ raw b', ballot_at f j raw b' ∧ str_take 8 (nullifier b') = str_take 8 (nullifier b).

(** The record shown for ballot [i]. *)
Record shows (i : nat) (raw : bytes) (b : Ballot.t) (receipts : list (list string))
    (trail : result (list ReceiptFile.TrailEvent)) (committed : bool) (r : BoardPage.VerifyCodeResponse) : Prop := {
  sh_found : BoardPage.Found r = true ∧ BoardPage.TrackingCode r = BoardPage.formatTrackingCode (nullifier b);
  sh_ballot : BoardPage.BallotIndex r = Z.of_nat i ∧ BoardPage.PositionID r = Ballot.PositionId b ∧
    BoardPage.Nullifier r = nullifier b ∧ BoardPage.BallotSHA256 r = sha256Hex raw;
  sh_chain : match BoardPage.submitBallotReceipt receipts trail (Z.of_nat i) with
             | Some rc => BoardPage.CommittedOnChain r = true ∧ BoardPage.TxID r = Receipts.TxID rc ∧
                          BoardPage.BlockNumber r = Receipts.BlockNumber rc
             | None => BoardPage.CommittedOnChain r = committed ∧ BoardPage.TxID r = EmptyString
             end
}.

(** C30: The tracking code of a ballot finds that ballot in the table the
    console wrote from it. For every ballot of a generated run whose stream was
    flattened into ballots.csv: asked for the code of its nullifier, the public
    lookup reads the table back, commas and quotes of the embedded JSON
    included, and answers with that ballot and no other (its index, position
    and nullifier, the SHA-256 of its own bytes, and its receipt where the run
    has one); it declines to answer exactly when a second ballot of the run has
    the same eight digits, and never says that there is no such ballot. *)
Theorem ballot_code_finds_ballot run f text i raw b receipts trail onChain :
  RunStore.runIDPattern run = true → one_line_end f → writeBallotsCSV f = Ok text →
  ballot_at f i raw b → Z.of_nat i < 2 ^ 63 → (8 ≤ String.length (nullifier b))%nat →
  let reply := BoardPage.handleVerifyCode
    (λ r, if String.eqb r run then Some (Ok (open_table text)) else None) receipts trail onChain
    ("/api/verify-code/" +:+ (run +:+ "/" +:+ BoardPage.formatTrackingCode (nullifier b))) in
  ((∃ why, reply = BoardPage.CodeRefused 409 why) ↔ ∃ j, j ≠ i ∧ same_code f b j) ∧
  ((∀ j, same_code f b j → j = i) → ∃ r, reply = BoardPage.CodeAnswer r ∧
     shows i raw b (receipts run) (trail run) (onChain run (nullifier b)) r).
Proof.
  intros Hrun Hcr Hw Hb Hi Hn reply. destruct (open_written f text Hcr Hw) as (rows&Ht&Hat&Hrow).
  destruct (Hat i raw b Hb) as (json&Hr).
  pose proof (BoardPage.tracking_code_finds_its_ballot run (nullifier b) ballotsHeader rows
    (λ r, if String.eqb r run then Some (Ok (open_table text)) else None) receipts trail onChain Hrun (hex_lower _) Hn) as Hcode.
  cbn beta in Hcode. rewrite String.eqb_refl, Ht in Hcode. specialize (Hcode eq_refl). cbn zeta in Hcode.
  assert (Hreply : reply = BoardPage.handleVerifyCode
    (λ r, if String.eqb r run then Some (Ok (BoardPage.MkTable (Some ballotsHeader) rows None)) else None) receipts trail onChain
    ("/api/verify-code/" +:+ (run +:+ "/" +:+ BoardPage.formatTrackingCode (nullifier b)))) by (unfold reply; by rewrite Ht).
  rewrite <-Hreply in Hcode. destruct Hcode as [_ Hcode]. revert Hcode.
  set (idx := BoardPage.columnIndex 0 ballotsHeader). set (hits := filter _ rows). intros Hcode.
  assert (Hhit : ∀ row, row ∈ hits ↔ ∃ j raw' b' json', rows !! j = Some row ∧ row = ballotRow j raw' b' json' ∧
            ballot_at f j raw' b' ∧ str_take 8 (nullifier b') = str_take 8 (nullifier b)).
  { intros row. unfold hits. rewrite list_elem_of_filter, list_elem_of_lookup. split.
    - intros [Hm [j Hj]]. destruct (Hrow j row Hj) as (raw'&b'&json'&Hb'&->).
      apply row_same in Hm; [|done]. eauto 8.
    - intros (j&raw'&b'&json'&Hj&->&Hb'&E). split; [by apply row_same|eauto]. }
  assert (Hself : ballotRow i raw b json ∈ hits) by (apply Hhit; eauto 8).
  assert (Hnd : NoDup hits).
  { apply NoDup_filter, rows_distinct. intros j row Hj. destruct (Hrow j row Hj) as (?&?&?&_&->). eauto. }
  destruct hits as [|row [|row' hits']]; [by apply not_elem_of_nil in Hself| |].
  - apply list_elem_of_singleton in Hself as <-. destruct Hcode as (r&Hreply'&Hfound&Hcode&Hnull&Hsha&Hpos&Hidx&Hrc).
    destruct (row_fields i raw b json) as (En&Ei&Es&Ep). fold idx in En, Ei, Es, Ep.
    rewrite En, lower_hex_ToLower in Hnull by apply hex_lower. rewrite Es in Hsha. rewrite Ep in Hpos.
    rewrite Ei, ParseInt_Itoa in Hidx by lia. split; [split|].
    + intros [why E]. by rewrite Hreply' in E.
    + intros (j&Hj&raw'&b'&Hb'&E). destruct (Hat j raw' b' Hb') as (json'&Hr').
      assert (Hin : ballotRow j raw' b' json' ∈ [ballotRow i raw b json]) by (apply Hhit; eauto 8).
      apply list_elem_of_singleton in Hin. unfold ballotRow in Hin. injection Hin as Hin _. apply Itoa_inj in Hin. lia.
    + intros _. exists r. split; [done|]. split; [exact (conj Hfound Hcode)|exact (conj Hidx (conj Hpos (conj Hnull Hsha)))|]. rewrite Hidx, Hnull in Hrc. exact Hrc.
  - split; [split|].
    + intros _. assert (Hne : row ≠ row') by (apply NoDup_cons in Hnd as [Hx _]; intros ->; by apply Hx; left).
      assert (Hother : ∃ x, x ∈ row :: row' :: hits' ∧ x ≠ ballotRow i raw b json).
      { destruct (decide (row = ballotRow i raw b json)) as [->|Hx]; [exists row'|exists row]; split; try done; [by right; left|by left]. }
      destruct Hother as (x&Hx&Hxi). apply Hhit in Hx as (j&raw'&b'&json'&Hj&->&Hb'&E). exists j. split; [|by exists raw', b'].
      intros ->. apply Hxi. rewrite Hr in Hj. by apply (inj Some) in Hj.
    + intros _. exact Hcode.
    + intros Huniq. exfalso. apply NoDup_cons in Hnd as [Hx _]. apply Hx.
      assert (Hall : ∀ x, x ∈ row :: row' :: hits' → x = ballotRow i raw b json).
      { intros x Hin. apply Hhit in Hin as (j&raw'&b'&json'&Hj&->&Hb'&E).
        assert (j = i) as -> by (apply Huniq; by exists raw', b'). rewrite Hr in Hj. by apply (inj Some) in Hj. }
      rewrite (Hall row) by by left. rewrite (Hall row') by (by right; left). by left.
Qed.
End derived.
End Derived.
