(* ===== verification/Repeat.v ===== *)
(** * Repeated measures and the validation ladder

    [saksi-campaign/repeat.go]: the driver that runs one election many times
    through the console's own HTTP interface, and the ladder that runs it at
    four sizes before a build may run large ones.

    The console, the clock and the disk are functions of a state [S]; what they
    are asked and answer is recorded. [encoding/json] on the driver's types, and
    [strconv]'s floats, are the class [RepeatCodec]. A computation is [None]
    where it does not return: it panics, or polls more than [polls] times. *)
From S2P Require Import Prelude GoText Config Jobs Csv Gates Resume Journal.
From stdpp Require Import sorting.
From Stdlib Require Import Ascii.
#[local] Open Scope Z_scope.
Import GoText Config.

Module Repeat.

Definition summaryColumns : list string :=
  ["metric"; "min"; "median"; "mean"; "p95"; "p99"; "stddev"; "n"; "failed_reasons"].

Definition SummaryCSV : string := "summary.csv".
Definition JournalFile : string := "journal.ndjson".
Definition LadderFile : string := "ladder.json".

Definition defaultSweepRate : float64 := float_of_Z 10.
Definition sweepHeadroom : Z := 4.
Definition DefaultWindow : Z := 120 * 10 ^ 9.

(** perf.csv's columns (perf.go). *)
Definition perfColumns : list string :=
  ["run_id"; "mode"; "voters"; "positions"; "candidates"; "profile";
   "gen_wall_ms"; "gen_cpu_ms"; "proof_gen_cpu_ms";
   "proof_verify_inproc_ms"; "aggregate_inproc_ms"; "combine_inproc_ms"; "decrypt_inproc_ms";
   "submit_window_ms"; "committed"; "dropped"; "committed_tps"; "driver_ceiling_tps";
   "latency_min_ms"; "latency_p50_ms"; "latency_mean_ms"; "latency_p95_ms"; "latency_p99_ms"; "latency_stddev_ms";
   "peak_cpu_pct_peer"; "peak_cpu_pct_orderer"; "peak_cpu_pct_client";
   "peak_mem_mb_peer"; "peak_mem_mb_orderer"; "peak_mem_mb_client";
   "ledger_bytes_delta"; "sustained"; "scaling_limit"; "failed"; "fail_reason";
   "verify_threads"; "security_run"].

Class RepeatCodec := {
  config_json : ElectionConfig → string;
  run_body : string → string;
  submit_body : string → string → string;
  ladder_json : Gates.ladderRecord → string;
  run_id_of : string → result string;
  busy_of : string → result bool;
  (** What decoding a check report leaves of its verdict, and its error. *)
  pass_of : string → bool * option goerr;
  trustees_of : string → result (list string);
  event_of : string → option Resume.event;
  ParseFloat : string → option float64;
  FormatFloat3 : float64 → string;
  (** [int(f)] where Go leaves the result to the implementation. *)
  wild_int : float64 → Z
}.

(** [Do]: a request's status and body. [wait]: the poll's timer, or the end of
    the context. *)
Class Client (S : Type) := {
  Do : string → string → string → S → S * result (Z * string);
  wait : S → S * option goerr;
  os_mkdir : string → S → S * option goerr;
  os_write : string → string → S → S * option goerr
}.

(** A request, as its method, path and body, and what came back. *)
Definition request : Type := string * string * string.
Definition exchange : Type := request * result (Z * string).

(** The exchanges, in order; files written; lines printed. *)
Record st (S : Type) := MkSt {
  host : S; heard : list exchange; written : list (string * string); printed : list goerr
}.
Arguments MkSt {S}.
Arguments host {S}.
Arguments heard {S}.
Arguments written {S}.
Arguments printed {S}.

Definition D (S A : Type) : Type := st S → option (st S * A).

Definition dret {S A} (a : A) : D S A := λ s, Some (s, a).

Definition dbind {S A B} (c : D S A) (k : A → D S B) : D S B := λ s,
  match c s with Some (s, a) => k a s | None => None end.

Notation "'go!' x ':=' c 'in' k" := (dbind c (fun x => k))
  (at level 10, x binder, c at level 100, k at level 200).

(** [if err != nil { return err }]. *)
Definition rdbind {S A B} (c : D S (result A)) (k : A → D S (result B)) : D S (result B) :=
  go! r := c in match r with Ok a => k a | Err e => dret (Err e) end.

Notation "'ok!' x ':=' c 'in' k" := (rdbind c (fun x => k))
  (at level 10, x binder, c at level 100, k at level 200).

Record repResult := MkRep {
  RunID : string; RepOf : RepTag; Perf : gmap string string; Failed : bool; Reason : string; GatePass : bool
}.

Definition no_result : repResult := MkRep "" (MkRepTag 0 "") ∅ false "" false.

Record RepeatOpts := MkRepeatOpts {
  BaseURL : string; OConfig : ElectionConfig; Warmups : Z; Reps : Z; Sweep : float64;
  OWindow : Z; Burst : Z; Out : string
}.

(** What the driver keeps of its options; the polling interval and the sinks
    are the host's. *)
Record repeatDriver := MkDriver { base : string; window : Z; factor : float64; out : string }.

Definition TrimSuffix (s suffix : string) : string :=
  if has_suffix s suffix then str_take (String.length s - String.length suffix) s else s.

Definition newRepeatDriver (o : RepeatOpts) : result repeatDriver :=
  if String.eqb (TrimSpace (BaseURL o)) "" then
    Err (Errorf "--base-url is required: --repeat drives a RUNNING console over its HTTP API" [])
  else Ok (MkDriver (TrimSuffix (BaseURL o) "/") (if OWindow o <=? 0 then DefaultWindow else OWindow o)
             (Sweep o) (if String.eqb (Out o) "" then SummaryCSV else Out o)).

Definition with_rep (rep : RepTag) (c : ElectionConfig) : ElectionConfig :=
  MkElectionConfig (Name c) (Trustees c) (Threshold c) (Positions c) (Candidates c) (Voters c)
    (Distribution c) (Mode c) (SenateSeats c) (Concurrency c) (SendRate c) (WindowS c) (Some rep)
    (SkipAttacks c) (AttackPlan c) (FaultPlan c).

Definition with_load (voters concurrency : Z) (rate window_s : float64) (c : ElectionConfig) : ElectionConfig :=
  MkElectionConfig (Name c) (Trustees c) (Threshold c) (Positions c) (Candidates c) voters
    (Distribution c) (Mode c) (SenateSeats c) concurrency rate window_s (Rep c)
    (SkipAttacks c) (AttackPlan c) (FaultPlan c).

(** [time.Duration.Seconds]. *)
Definition float_add (a b : float64) : float64 := SFadd 53 1024 a b.

Definition Seconds (d : Z) : float64 :=
  float_add (float_of_Z (Z.quot d (10 ^ 9))) (float_div (float_of_Z (Z.rem d (10 ^ 9))) (float_of_Z (10 ^ 9))).

(** [int(math.Ceil(f))]. *)
Definition ceil_int `{RepeatCodec} (f : float64) : Z :=
  match f with
  | S754_zero _ => 0
  | S754_finite s m e =>
      let v := if 0 <=? e then (if s then Zneg m else Zpos m) * 2 ^ e
               else - ((if s then Zpos m else Zneg m) / 2 ^ (- e)) in
      if (- 2 ^ 63 <=? v) && (v <? 2 ^ 63) then v else wild_int f
  | _ => wild_int f
  end.

(** ** Requests *)
Section driver.
Context {S : Type} `{Client S} `{RepeatCodec} (polls : nat) (d : repeatDriver).

Definition print (f : string) (args : list goarg) : D S unit := λ s,
  Some (MkSt (host s) (heard s) (written s) (printed s ++ [Errorf f args]), tt).

(** [do], before the body is decoded. *)
Definition do_request (method path body : string) : D S (result string) := λ s,
  let '(h, r) := Do method (base d +:+ path) body (host s) in
  Some (MkSt h (heard s ++ [((method, path, body), r)]) (written s) (printed s),
        match r with
        | Err e => Err e
        | Ok (code, body) =>
            if 300 <=? code then Err (Errorf "%s %s: %s: %s" [AStr method; AStr path; AInt code; AStr (TrimSpace body)])
            else Ok body
        end).

Definition postJSON (path body : string) : D S (result string) := do_request "POST" path body.

Definition getJSON {A} (path : string) (decode : string → result A) : D S (result A) :=
  ok! body := do_request "GET" path "" in dret (decode body).

(** [export]: no body in its error. *)
Definition export (runID artifact : string) : D S (result string) := λ s,
  let path := ("/export/" +:+ runID +:+ "/") +:+ artifact in
  let '(h, r) := Do "GET" (base d +:+ path) "" (host s) in
  Some (MkSt h (heard s ++ [(("GET", path, ""), r)]) (written s) (printed s),
        match r with
        | Err e => Err e
        | Ok (code, body) => if 300 <=? code then Err (Errorf "GET %s: %s" [AStr artifact; AInt code]) else Ok body
        end).

Definition wait_poll : D S (result unit) := λ s,
  let '(h, e) := wait (host s) in
  Some (MkSt h (heard s) (written s) (printed s), match e with Some e => Err e | None => Ok tt end).

(** [waitIdle], with [n] polls left. *)
Fixpoint waitIdle (n : nat) (runID : string) : D S (result unit) :=
  match n with
  | O => λ _, None
  | Datatypes.S n =>
      ok! busy := getJSON ("/api/runs/" +:+ runID +:+ "/status") busy_of in
      if busy : bool then ok! _ := wait_poll in waitIdle n runID else dret (Ok tt)
  end.

(** [create]: the run, and why its generation could not be awaited. *)
Definition create (config : string) : D S (result string) :=
  ok! body := postJSON "/generate" config in
  match run_id_of body with
  | Err e => dret (Err e)
  | Ok id =>
      if String.eqb id "" then dret (Err (Errorf "console accepted the run but returned no run_id" []))
      else ok! _ := waitIdle polls id in dret (Ok id)
  end.

Definition phase (runID path body : string) : D S (result unit) :=
  ok! _ := postJSON path body in waitIdle polls runID.

Fixpoint submit_all (runID : string) (ts : list string) : D S (result unit) :=
  match ts with
  | [] => dret (Ok tt)
  | t :: ts => ok! _ := phase runID "/ceremony/submit" (submit_body runID t) in submit_all runID ts
  end.

Definition ceremony (runID : string) : D S (result unit) :=
  ok! _ := phase runID "/ceremony/start" (run_body runID) in
  ok! trustees := getJSON ("/api/ceremony/" +:+ runID) trustees_of in
  ok! _ := submit_all runID trustees in
  phase runID "/ceremony/publish" (run_body runID).

(** ** Reading a repetition back *)

(** [repResult.num]. *)
Definition num (perf : gmap string string) (col : string) : option float64 :=
  ParseFloat (TrimSpace (default "" (perf !! col))).

(** [runEndEvent]: the last run.end of a journal; a line that is not an object
    is passed over. *)
Definition run_end_line (found : option Resume.event) (line : string) : option Resume.event :=
  let line := TrimSpace line in
  if String.eqb line "" then found
  else match event_of line with
       | Some ev => if String.eqb (Resume.kind ev) "run.end" then Some ev else found
       | None => found
       end.

Definition runEndEvent (data : string) : option Resume.event :=
  foldl run_end_line None (Jobs.Split1 Jobs.LF data).

Definition ev_bool (ev : Resume.event) (k : string) : bool :=
  match Resume.fields ev !! k with Some (Journal.JBool b) => b | _ => false end.

Definition ev_string (ev : Resume.event) (k : string) : string :=
  match Resume.fields ev !! k with Some (Journal.JStr s) => s | _ => "" end.

(** [collect]. [text] is an error's text. *)
Definition collect (text : goerr → string) (runID : string) (rep : RepTag) (gate : bool) : D S repResult :=
  go! csv := export runID Csv.PerfCSV in
  let perf := let? data := csv in Csv.perfRowCells data runID in
  let '(cells, failed, reason) :=
    match perf with
    | Ok cells => (cells, false, "")
    | Err e => (∅, true, "no perf.csv: " +:+ text e)
    end in
  let first (why : string) :=
    if String.eqb reason "" then MkRep runID rep cells true why gate
    else MkRep runID rep cells failed reason gate in
  go! journal := export runID JournalFile in
  dret match journal with
  | Err e => first ("no journal: " +:+ text e)
  | Ok data =>
      match runEndEvent data with
      | None => first "run never reached run.end"
      | Some ev =>
          if ev_bool ev "failed" then
            let why := ev_string ev "reason" in
            MkRep runID rep cells true (if String.eqb why "" then "failed" else why) gate
          else MkRep runID rep cells failed reason gate
      end
  end.

(** A phase whose failure is printed, not fatal. *)
Definition try_phase (what : string) (c : D S (result unit)) : D S unit :=
  go! r := c in match r with Ok _ => dret tt | Err e => print ("  " +:+ what +:+ ": %v") [AErr e] end.

(** [once]. *)
Definition once (text : goerr → string) (c : ElectionConfig) (rep : RepTag) : D S (result repResult) :=
  let c := with_rep rep c in
  ok! runID := create (config_json c) in
  go! _ := print "rep %d (%s): run %s" [AInt (RepIndex rep); AStr (RepKind rep); AStr runID] in
  go! gate := getJSON ("/api/check/" +:+ runID) (λ body, Ok (pass_of body)) in
  go! _ := match gate with
           | Err e | Ok (_, Some e) => print "  check unavailable: %v" [AErr e]
           | Ok (false, None) => print "  check gate FAILED" []
           | Ok (true, None) => dret tt
           end in
  let pass := match gate with Ok (b, _) => b | Err _ => false end in
  go! _ := try_phase "submit" (phase runID "/submit" (run_body runID)) in
  go! _ := (if String.eqb (Mode c) "onchain" then dret tt else try_phase "ceremony" (ceremony runID)) in
  go! _ := try_phase "verify" (phase runID "/verify" (run_body runID)) in
  go! r := collect text runID rep pass in dret (Ok r).

(** ** The sweep *)

(** [int(math.Ceil(rate*(p99Ms/1000.0))) + sweepHeadroom], at least one. *)
Definition step_concurrency (rate : float64) (p99 : option float64) (concurrency : Z) : Z :=
  let c := match p99 with
           | Some ms => wrap64 (ceil_int (float_mul rate (float_div ms (float_of_Z 1000))) + sweepHeadroom)
           | None => concurrency
           end in
  if c <? 1 then 1 else c.

Definition step_config (c : ElectionConfig) (rate : float64) (concurrency : Z) : ElectionConfig :=
  with_load (Voters c) concurrency rate (Seconds (window d)) c.

(** The steps from [step] on, at most [steps] of them. *)
Fixpoint sweep_from (text : goerr → string) (c : ElectionConfig) (steps : nat) (step : Z)
    (rate : float64) (concurrency : Z) (plateau : float64) : D S (result float64) :=
  match steps with
  | O => dret (Ok plateau)
  | Datatypes.S steps =>
      ok! r := once text (step_config c rate concurrency) (MkRepTag step "sweep") in
      let tps := num (Perf r) "committed_tps" in
      let dropped := default f_zero (num (Perf r) "dropped") in
      go! _ := print "  sweep step %d: offered %.3f/s, committed %.3f/s, dropped %.0f"
        [AInt step; AFloat rate; AFloat (default f_zero tps); AFloat dropped] in
      if SFltb f_zero dropped then dret (Ok plateau)
      else match tps with
      | None => dret (Ok plateau)
      | Some tps =>
          if (1 <? step) && SFltb tps plateau then dret (Ok plateau)
          else
            let rate := float_mul rate (factor d) in
            sweep_from text c steps (step + 1) rate
              (step_concurrency rate (num (Perf r) "latency_p99_ms") concurrency) tps
      end
  end.

Definition sweep (text : goerr → string) (c : ElectionConfig) : D S (result float64) :=
  let rate := if SFleb (SendRate c) f_zero then defaultSweepRate else SendRate c in
  sweep_from text c (Z.to_nat Gates.maxSweepSteps) 1 rate (submitConcurrency c) f_zero.

(** ** The summary *)
Definition float_sub (a b : float64) : float64 := SFsub 53 1024 a b.
Definition float_sqrt (a : float64) : float64 := SFsqrt 53 1024 a.

(** [sort.Float64s]: what is not a number comes first. *)
Definition is_nan (f : float64) : bool := match f with S754_nan => true | _ => false end.

Definition float_le (x y : float64) : Prop := is_nan x || negb (is_nan y) && SFleb x y = true.

#[local] Instance float_le_dec : RelDecision float_le.
Proof. intros x y. unfold float_le. apply _. Defined.

(** [pctl]; the sample is not empty. *)
Definition pctl (sorted : list float64) (p : Z) : float64 :=
  let n := Z.of_nat (length sorted) in
  let rank := Z.quot (p * n + 99) 100 in
  let rank := if rank <? 1 then 1 else rank in
  let rank := if n <? rank then n else rank in
  default f_zero (sorted !! Z.to_nat (rank - 1)).

(** [num], of a statistic. *)
Definition num_text (v : float64) : string :=
  let s := FormatFloat3 v in
  if str_contains s "." then TrimSuffix (Jobs.TrimRight1 "0"%char s) "." else s.

Definition summaryRow (name : string) (xs : list float64) (reasons : string) : list string :=
  match xs with
  | [] => [name; ""; ""; ""; ""; ""; ""; "0"; reasons]
  | _ =>
      let sorted := merge_sort float_le xs in
      let n := float_of_Z (Z.of_nat (length sorted)) in
      let mean := float_div (foldl float_add f_zero sorted) n in
      let sq := foldl (λ a x, float_add a (float_mul (float_sub x mean) (float_sub x mean))) f_zero sorted in
      [name; num_text (default f_zero (head sorted)); num_text (pctl sorted 50); num_text mean;
       num_text (pctl sorted 95); num_text (pctl sorted 99); num_text (float_sqrt (float_div sq n));
       Itoa (Z.of_nat (length sorted)); reasons]
  end.

Definition scalarRow (name : string) (v : float64) (reasons : string) : list string := summaryRow name [v] reasons.

(** The cells of a column until one is not a number: is one there, are all? *)
Fixpoint numeric_column (col : string) (rs : list repResult) (seen : bool) : bool :=
  match rs with
  | [] => seen
  | r :: rs =>
      let cell := TrimSpace (default "" (Perf r !! col)) in
      if String.eqb cell "" then numeric_column col rs seen
      else match ParseFloat cell with Some _ => numeric_column col rs true | None => false end
  end.

Definition numericPerfColumns (rs : list repResult) : list string :=
  filter (λ col, col ≠ "run_id" ∧ numeric_column col rs false = true) perfColumns.

Fixpoint join_reasons (l : list string) : string :=
  match l with [] => "" | [s] => s | s :: l => s +:+ "; " +:+ join_reasons l end.

(** The rows of summary.csv: failed runs count in [runs_failed] and
    [failed_reasons], and in nothing else. *)
Definition summary_rows (measured : list repResult) (plateau : option float64) : list (list string) :=
  let good := filter (λ r, Failed r = false) measured in
  let reasons := Reason <$> filter (λ r, Failed r = true ∧ Reason r ≠ "") measured in
  let failed := Z.of_nat (length measured - length good) in
  let rate := match measured with
              | [] => f_zero
              | _ => float_div (float_of_Z failed) (float_of_Z (Z.of_nat (length measured)))
              end in
  ((λ col, summaryRow col (omap (λ r, num (Perf r) col) good) "") <$> numericPerfColumns good) ++
  [scalarRow "runs_measured" (float_of_Z (Z.of_nat (length measured))) "";
   scalarRow "runs_failed" (float_of_Z failed) (join_reasons reasons);
   scalarRow "failure_rate" rate ""] ++
  match plateau with Some v => [scalarRow "plateau_tps" v ""] | None => [] end.

Definition summary_text (measured : list repResult) (plateau : option float64) : string :=
  Csv.join_comma summaryColumns +:+ String Jobs.LF (Csv.csv_text (summary_rows measured plateau)).

(** [filepath.Dir], of a clean path. *)
Fixpoint dir_of (s : string) : option string :=
  match s with
  | EmptyString => None
  | String c s' =>
      match dir_of s' with
      | Some p => Some (String c p)
      | None => if Ascii.eqb c "/"%char then Some EmptyString else None
      end
  end.

Definition mkdir_all (p : string) : D S (result unit) := λ s,
  let '(h, e) := os_mkdir p (host s) in
  Some (MkSt h (heard s) (written s) (printed s), match e with Some e => Err e | None => Ok tt end).

Definition write_file (p text : string) : D S (result unit) := λ s,
  let '(h, e) := os_write p text (host s) in
  Some (MkSt h (heard s) (written s ++ [(p, text)]) (printed s), match e with Some e => Err e | None => Ok tt end).

Definition writeSummaryCSV (path : string) (measured : list repResult) (plateau : option float64) : D S (result unit) :=
  ok! _ := (match dir_of path with
            | Some (String c p) => mkdir_all (String c p)
            | _ => dret (Ok tt)
            end) in
  write_file path (summary_text measured plateau).

(** ** The campaign *)

(** The repetitions of one kind, from [i] on. *)
Fixpoint repetitions (text : goerr → string) (c : ElectionConfig) (kind : string) (ns : list Z) :
    D S (result (list repResult)) :=
  match ns with
  | [] => dret (Ok [])
  | i :: ns =>
      ok! r := once text c (MkRepTag i kind) in
      ok! rs := repetitions text c kind ns in
      dret (Ok (r :: rs))
  end.

Definition burst_config (o : RepeatOpts) : ElectionConfig :=
  let c := OConfig o in with_load (Burst o) (Concurrency c) f_zero f_zero c.

(** [make(..., 0, o.Reps)] panics on a negative capacity. *)
Definition make_results (n : Z) : D S unit := if n <? 0 then λ _, None else dret tt.

(** [Repeat], once it has its driver. *)
Definition run_campaign (text : goerr → string) (o : RepeatOpts) : D S (result unit) :=
  ok! _ := repetitions text (OConfig o) "warmup" (seqZ 1 (Warmups o)) in
  go! _ := make_results (Reps o) in
  ok! measured := repetitions text (OConfig o) "measured" (seqZ 1 (Reps o)) in
  ok! plateau := (if SFltb f_one (Sweep o) then
                    ok! tps := sweep text (OConfig o) in dret (Ok (Some tps))
                  else dret (Ok None)) in
  ok! _ := (if 0 <? Burst o then
              ok! _ := once text (burst_config o) (MkRepTag 1 "burst") in dret (Ok tt)
            else dret (Ok tt)) in
  writeSummaryCSV (out d) measured plateau.

(** ** The ladder *)
Definition LadderTiers : list Z := [1; 10; 100; 1000].

Definition LadderConfig (voters : Z) : ElectionConfig :=
  MkElectionConfig "validation ladder" (MkTrustee <$> ["Trustee 1"; "Trustee 2"; "Trustee 3"]) 2 3 4 voters
    "realistic" "offline" 0 DefaultConcurrency f_zero f_zero None false None None.

(** The tiers from the [i]th on: the runs that passed them. *)
Fixpoint ladder_tiers (text : goerr → string) (i : Z) (tiers : list Z) : D S (result (list string)) :=
  match tiers with
  | [] => dret (Ok [])
  | voters :: tiers =>
      go! r := once text (LadderConfig voters) (MkRepTag i "ladder") in
      match r with
      | Err e => dret (Err (Errorf "ladder tier %d voters: %w" [AInt voters; AErr e]))
      | Ok r =>
          if negb (GatePass r) then
            dret (Err (Errorf "ladder tier %d voters: the data-validation gate did not pass (run %s)"
                         [AInt voters; AStr (RunID r)]))
          else if Failed r then
            dret (Err (Errorf "ladder tier %d voters FAILED: %s (run %s)" [AInt voters; AStr (Reason r); AStr (RunID r)]))
          else
            go! _ := print "  ladder tier %d voters: PASS (%s)" [AInt voters; AStr (RunID r)] in
            ok! runs := ladder_tiers text (i + 1) tiers in
            dret (Ok (RunID r :: runs))
      end
  end.

(** [RunLadder], once it has its driver. *)
Definition run_ladder (text : goerr → string) (dataDir : string) (head : option string) (now : Z) : D S (result unit) :=
  if String.eqb (TrimSpace dataDir) "" then
    dret (Err (Errorf "--runs is required: ladder.json must be written where the console reads it" []))
  else
    ok! runs := ladder_tiers text 1 LadderTiers in
    match head with
    | None => dret (Err (Errorf "the ladder passed but this build's commit could not be resolved, so the result cannot be pinned to it; run from a git checkout" []))
    | Some head =>
        ok! _ := write_file (dataDir +:+ "/" +:+ LadderFile) (ladder_json (Gates.MkLadder head now runs)) in
        go! _ := print "ladder PASSED on %s — recorded in %s" [AStr head; AStr (dataDir +:+ "/" +:+ LadderFile)] in
        dret (Ok tt)
    end.
End driver.

(** [Repeat] and [RunLadder]. *)
Section entry.
Context {S : Type} `{Client S} `{RepeatCodec} (polls : nat) (text : goerr → string).

Definition Repeat (o : RepeatOpts) : D S (result unit) :=
  match newRepeatDriver o with
  | Err e => dret (Err e)
  | Ok d => run_campaign polls d text o
  end.

Definition RunLadder (baseURL dataDir : string) (head : option string) (now : Z) : D S (result unit) :=
  match newRepeatDriver (MkRepeatOpts baseURL (LadderConfig 1) 0 0 f_zero 0 0 "") with
  | Err e => dret (Err e)
  | Ok d => run_ladder polls d text dataDir head now
  end.
End entry.
End Repeat.
