(* ===== verification/RepeatFacts.v ===== *)
(** * What a campaign measures, and what the ladder proves

    Where phases end, a campaign returns; it creates its runs in order, each
    tagged with its place, and drives each to the end; a result is what the
    console answered of its run; the summary is of the measured ones. The
    ladder records a build only when the console passed all four tiers on it. *)
From S2P Require Import Prelude GoText Config Jobs Csv Gates Resume Journal Repeat.
From stdpp Require Import sorting.
#[local] Open Scope Z_scope.
Import GoText Config Repeat.

Module RepeatFacts.

(** ** What is read in the exchanges *)

(** The configurations posted to /generate. *)
Definition posted (e : exchange) : option string :=
  if String.eqb e.1.1.1 "POST" && String.eqb e.1.1.2 "/generate" then Some e.1.2 else None.

Definition generated (l : list exchange) : list string := omap posted l.

(** The posts, each with its body. *)
Definition post_of (e : exchange) : option (string * string) :=
  if String.eqb e.1.1.1 "POST" then Some (e.1.1.2, e.1.2) else None.

Definition posts (l : list exchange) : list (string * string) := omap post_of l.

(** A body that came with a success. *)
Definition body_of (a : result (Z * string)) : option string :=
  match a with Ok (code, body) => if 300 <=? code then None else Some body | Err _ => None end.

Lemma generated_app l l' : generated (l ++ l') = generated l ++ generated l'.
Proof. apply omap_app. Qed.

Lemma posts_app l l' : posts (l ++ l') = posts l ++ posts l'.
Proof. apply omap_app. Qed.

Lemma generated_posts l : generated l = omap (λ p, if String.eqb p.1 "/generate" then Some p.2 else None) (posts l).
Proof.
  induction l as [|[[[m p] b] a] l IH]; [done|]. unfold generated, posts in *. cbn [omap list_omap].
  unfold posted at 1, post_of at 1. cbn. destruct (String.eqb m "POST"); cbn; [|exact IH].
  destruct (String.eqb p "/generate"); [by rewrite IH|exact IH].
Qed.

(** Posts elsewhere than to /generate. *)
Lemma generated_none l : Forall (λ p, p.1 ≠ "/generate") (posts l) → generated l = [].
Proof.
  rewrite generated_posts. induction 1 as [|p ps Hp _ IH]; [done|]. cbn. by destruct (String.eqb_spec p.1 "/generate").
Qed.

Section facts.
Context {S : Type} `{Client S} `{RepeatCodec} (polls : nat) (text : goerr → string).

(** ** A repetition, as its exchanges *)

(** A run's status asked for. *)
Definition status_asked (run : string) (e : exchange) : Prop :=
  e.1 = ("GET", "/api/runs/" +:+ run +:+ "/status", "").

(** The ceremony of an offline run, as far as it went: the trustees are those
    the console named. *)
Definition ceremony_posts (run : string) (ts : list string) : list (string * string) :=
  ("/ceremony/start", run_body run) :: ((λ t, ("/ceremony/submit", submit_body run t)) <$> ts) ++
  [("/ceremony/publish", run_body run)].

Definition ceremony_asked (run : string) (l : list exchange) : Prop :=
  posts l = [("/ceremony/start", run_body run)] ∨
  ∃ a body ts, (("GET", "/api/ceremony/" +:+ run, ""), a) ∈ l ∧ body_of a = Some body ∧ trustees_of body = Ok ts ∧
    posts l `prefix_of` ceremony_posts run ts.

(** The run succeeded: its row was served, and its journal's last run.end is
    not one of a failure. *)
Definition succeeded (run : string) (perf journal : result (Z * string)) : Prop :=
  (∃ csv row, body_of perf = Some csv ∧ Csv.perfRowCells csv run = Ok row) ∧
  ∃ data ev, body_of journal = Some data ∧ runEndEvent data = Some ev ∧ ev_bool ev "failed" = false.

(** The figures of a run: its row of the perf.csv that was served. *)
Definition served_row (run : string) (perf : result (Z * string)) : gmap string string :=
  match body_of perf with
  | Some csv => match Csv.perfRowCells csv run with Ok row => row | Err _ => ∅ end
  | None => ∅
  end.

(** A whole repetition. The console created the run of the configuration and the
    tag, and was asked for the gate's verdict, to submit, for the ceremony where
    the run is not on the ledger, to verify, and for the run's perf.csv and its
    journal; the result is what it answered. *)
Record driven (c : ElectionConfig) (rep : RepTag) (x : repResult) (l : list exchange) : Prop := {
  driven_tag : RepOf x = rep;
  driven_exchanges : ∃ created waits gate pre mid last perf journal created_body,
    l = (("POST", "/generate", config_json (with_rep rep c)), created) :: waits ++
        (("GET", "/api/check/" +:+ RunID x, ""), gate) :: pre ++ mid ++ last ++
        [(("GET", ("/export/" +:+ RunID x +:+ "/") +:+ Csv.PerfCSV, ""), perf);
         (("GET", ("/export/" +:+ RunID x +:+ "/") +:+ JournalFile, ""), journal)] ∧
    body_of created = Some created_body ∧ run_id_of created_body = Ok (RunID x) ∧ RunID x ≠ "" ∧
    Forall (status_asked (RunID x)) waits ∧
    GatePass x = match body_of gate with Some b => (pass_of b).1 | None => false end ∧
    posts pre = [("/submit", run_body (RunID x))] ∧
    (if String.eqb (Mode c) "onchain" then mid = [] else ceremony_asked (RunID x) mid) ∧
    posts last = [("/verify", run_body (RunID x))] ∧
    Perf x = served_row (RunID x) perf ∧ (Failed x = false ↔ succeeded (RunID x) perf journal)
}.

(** One that the console did not create, or whose generation could not be
    awaited. *)
Definition not_created (c : ElectionConfig) (rep : RepTag) (l : list exchange) : Prop :=
  ∃ a run waits, l = (("POST", "/generate", config_json (with_rep rep c)), a) :: waits ∧ Forall (status_asked run) waits.

(** Repetitions one after the other. *)
Inductive series : list (ElectionConfig * RepTag) → list repResult → list exchange → Prop :=
| series_nil : series [] [] []
| series_cons c rep cs x xs l l' : driven c rep x l → series cs xs l' → series ((c, rep) :: cs) (x :: xs) (l ++ l').

Definition configs (cs : list (ElectionConfig * RepTag)) : list string := (λ p, config_json (with_rep p.2 p.1)) <$> cs.

Lemma status_posts run l : Forall (status_asked run) l → posts l = [].
Proof.
  induction 1 as [|[q a] l Hq _ IH]; [done|]. unfold posts in *. cbn [omap list_omap]. unfold post_of at 1.
  unfold status_asked in Hq. cbn in *. by subst q.
Qed.

Lemma ceremony_generated run l : ceremony_asked run l → generated l = [].
Proof.
  intros Hc. apply generated_none. assert (Hp : ∃ ts, posts l `prefix_of` ceremony_posts run ts).
  { destruct Hc as [->|(?&?&ts&_&_&_&?)]; [|by exists ts]. exists []. by apply prefix_cons, prefix_nil. }
  destruct Hp as [ts [k Hk]]. assert (Hf : Forall (λ p, p.1 ≠ "/generate") (ceremony_posts run ts)).
  { constructor; [done|]. apply Forall_app. split; [|by repeat constructor]. apply Forall_fmap, Forall_true. done. }
  rewrite Hk in Hf. by apply Forall_app in Hf as [? _].
Qed.

Lemma not_created_generated c rep l : not_created c rep l → generated l = [config_json (with_rep rep c)].
Proof.
  intros (a&run&waits&->&Hw). unfold generated. cbn [omap list_omap]. unfold posted at 1. cbn. f_equal.
  apply (generated_none waits). by rewrite (status_posts _ _ Hw).
Qed.

Lemma driven_generated c rep x l : driven c rep x l → generated l = [config_json (with_rep rep c)].
Proof.
  intros [_ (created&waits&gate&pre&mid&last&perf&journal&b&->&_&_&_&Hw&_&Hpre&Hmid&Hlast&_)].
  change (config_json (with_rep rep c) :: generated (waits ++ (("GET", "/api/check/" +:+ RunID x, ""), gate) ::
    pre ++ mid ++ last ++ [(("GET", ("/export/" +:+ RunID x +:+ "/") +:+ Csv.PerfCSV, ""), perf);
         (("GET", ("/export/" +:+ RunID x +:+ "/") +:+ JournalFile, ""), journal)]) = [config_json (with_rep rep c)]).
  f_equal. rewrite (cons_middle _ waits), !generated_app.
  rewrite (generated_none waits) by by rewrite (status_posts _ _ Hw).
  rewrite (generated_none pre) by (rewrite Hpre; by repeat constructor).
  rewrite (generated_none last) by (rewrite Hlast; by repeat constructor).
  destruct (String.eqb _ _); [by rewrite Hmid|]. by rewrite (ceremony_generated _ _ Hmid).
Qed.

Lemma series_generated cs xs l : series cs xs l → generated l = configs cs ∧ RepOf <$> xs = cs.*2.
Proof.
  induction 1 as [|c rep cs x xs l l' Hd _ [IH1 IH2]]; [done|].
  rewrite generated_app, (driven_generated _ _ _ _ Hd), IH1. split; [done|]. cbn. rewrite IH2. f_equal. apply Hd.
Qed.

Lemma series_app cs xs l cs' xs' l' : series cs xs l → series cs' xs' l' → series (cs ++ cs') (xs ++ xs') (l ++ l').
Proof. induction 1; intros; [done|]. cbn. rewrite <-app_assoc. constructor; auto. Qed.

Lemma series_one c rep x l : driven c rep x l → series [(c, rep)] [x] l.
Proof. intros Hd. rewrite <-(app_nil_r l). constructor; [done|constructor]. Qed.

(** A phase that runs ends: within [left] polls of the run's status. *)
Record phases_end (left : string → S → nat) : Prop := {
  left_few : ∀ run h, (left run h < polls)%nat;
  left_status : ∀ b run h h' r, Do "GET" (b +:+ "/api/runs/" +:+ run +:+ "/status") "" h = (h', r) →
    (left run h' ≤ left run h)%nat ∧
    ∀ code body, r = Ok (code, body) → busy_of body = Ok true → (0 < left run h')%nat;
  left_wait : ∀ run h h', wait h = (h', None) → (0 < left run h)%nat → (left run h' < left run h)%nat
}.

(** ** Computations that return *)

(** [c] returns; what was exchanged and what it returned meet [R]; it wrote no
    file. *)
Definition emits {A} (R : A → list exchange → Prop) (c : D S A) : Prop :=
  ∀ s, ∃ s' a l, c s = Some (s', a) ∧ heard s' = heard s ++ l ∧ written s' = written s ∧ R a l.

Lemma emits_weaken {A} (R R' : A → list exchange → Prop) (c : D S A) :
  (∀ a l, R a l → R' a l) → emits R c → emits R' c.
Proof. intros HR Hc s. destruct (Hc s) as (s'&a&l&?&?&?&?). exists s', a, l. auto. Qed.

Lemma emits_ret {A} (a : A) (R : A → list exchange → Prop) : R a [] → emits R (dret a).
Proof. intros HR s. exists s, a, []. by rewrite app_nil_r. Qed.

Lemma emits_bind {A B} (c : D S A) (k : A → D S B) R R' :
  emits R c → (∀ a l, R a l → emits (λ b l', R' b (l ++ l')) (k a)) → emits R' (dbind c k).
Proof.
  intros Hc Hk s. destruct (Hc s) as (s1&a&l&E1&G1&W1&HR). destruct (Hk a l HR s1) as (s2&b&l'&E2&G2&W2&HR').
  exists s2, b, (l ++ l'). unfold dbind. rewrite E1, E2, G2, G1, W2, W1, app_assoc. done.
Qed.

Lemma emits_rbind {A B} (c : D S (result A)) (k : A → D S (result B)) R R' :
  emits R c → (∀ e l, R (Err e) l → R' (Err e) l) →
  (∀ a l, R (Ok a) l → emits (λ b l', R' b (l ++ l')) (k a)) → emits R' (rdbind c k).
Proof.
  intros Hc He Hk. unfold rdbind. eapply emits_bind; [exact Hc|]. intros [a|e] l HR; [by apply Hk|].
  apply emits_ret. rewrite app_nil_r. by apply He.
Qed.

Section with_driver.
Context (d : repeatDriver).

(** One that exchanges nothing. *)
Abbreviation silent c := (emits (λ _ l, l = []) c).

Lemma silent_print f args : silent (print (S := S) f args).
Proof. intros s. do 3 eexists. split; [done|]. by rewrite app_nil_r. Qed.

(** One exchange, and what is made of the answer. *)
Lemma request_emits method path body :
  emits (λ r l, ∃ a, l = [((method, path, body), a)] ∧ match r with Ok b => body_of a = Some b | Err _ => body_of a = None end)
    (do_request d method path body).
Proof.
  intros s. unfold do_request. destruct (Do _ _ _ _) as [h a]. do 3 eexists. split; [reflexivity|]. split; [done|].
  split; [done|]. exists a. split; [done|]. destruct a as [[code b]|e]; [|done]. cbn. by destruct (300 <=? code).
Qed.

Lemma export_emits run artifact :
  emits (λ r l, ∃ a, l = [(("GET", ("/export/" +:+ run +:+ "/") +:+ artifact, ""), a)] ∧
                match r with Ok b => body_of a = Some b | Err _ => body_of a = None end) (export d run artifact).
Proof.
  intros s. unfold export. destruct (Do _ _ _ _) as [h a]. do 3 eexists. split; [reflexivity|]. split; [done|].
  split; [done|]. exists a. split; [done|]. destruct a as [[code b]|e]; [|done]. cbn. by destruct (300 <=? code).
Qed.

Lemma get_emits {A} path (decode : string → result A) :
  emits (λ r l, ∃ a, l = [(("GET", path, ""), a)] ∧
                match r with
                | Ok v => ∃ b, body_of a = Some b ∧ decode b = Ok v
                | Err _ => body_of a = None ∨ ∃ b e, body_of a = Some b ∧ decode b = Err e
                end) (getJSON d path decode).
Proof.
  unfold getJSON. eapply emits_rbind; [apply request_emits| |].
  - intros e l (a&->&Ha). exists a. auto.
  - intros b l (a&->&Ha). apply emits_ret. exists a. split; [done|]. destruct (decode b) eqn:E; eauto.
Qed.

(** Waiting ends. *)
Lemma wait_emits left (E : phases_end left) run n :
  ∀ s, (left run (host s) < n)%nat →
  ∃ s' a l, waitIdle d n run s = Some (s', a) ∧ heard s' = heard s ++ l ∧ written s' = written s ∧
    Forall (status_asked run) l.
Proof.
  induction n as [|n IH]; intros s Hn; [lia|]. cbn [waitIdle].
  unfold getJSON, rdbind, dbind, do_request, dret.
  destruct (Do "GET" _ _ (host s)) as [h r] eqn:Ed. destruct (left_status _ E _ _ _ _ _ Ed) as [Hle Hb].
  set (x := (("GET", "/api/runs/" +:+ run +:+ "/status", ""), r) : exchange).
  assert (Hx : Forall (status_asked run) [x]) by by repeat constructor.
  destruct r as [[code body]|e]; [|by do 3 eexists]. destruct (300 <=? code); [by do 3 eexists|].
  destruct (busy_of body) as [[]|e] eqn:Eb; [|by do 3 eexists..].
  specialize (Hb _ _ eq_refl Eb). unfold wait_poll. cbn [host heard written printed].
  destruct (wait h) as [h' [e|]] eqn:Ew; [by do 3 eexists|]. pose proof (left_wait _ E _ _ _ Ew Hb).
  destruct (IH (MkSt h' (heard s ++ [x]) (written s) (printed s))) as (s'&a&l&E1&E2&E3&Hl); [cbn; lia|].
  exists s', a, (x :: l). split; [exact E1|]. split; [rewrite E2; cbn [heard]; by rewrite <-app_assoc|].
  split; [done|]. apply Forall_cons. split; [by apply Forall_singleton in Hx|done].
Qed.

Context {left : string → S → nat} (E : phases_end left).

Lemma idle_emits run : emits (λ _ l, Forall (status_asked run) l) (waitIdle d polls run).
Proof.
  intros s. destruct (wait_emits _ E run polls s (left_few _ E run (host s))) as (s'&a&l&?&?&?&?). by exists s', a, l.
Qed.

Lemma phase_emits run path body : emits (λ _ l, posts l = [(path, body)]) (phase polls d run path body).
Proof.
  unfold phase. eapply emits_rbind; [apply request_emits| |].
  - intros e l (a&->&_). done.
  - intros b l (a&->&_). eapply emits_weaken; [|apply idle_emits]. intros r l Hl.
    rewrite posts_app, (status_posts _ _ Hl). done.
Qed.

Lemma submit_all_emits run ts :
  emits (λ r l, let all := (λ t, ("/ceremony/submit", submit_body run t)) <$> ts in
                posts l `prefix_of` all ∧ (is_ok r = true → posts l = all)) (submit_all polls d run ts).
Proof.
  induction ts as [|t ts IH]; cbn [submit_all].
  - apply emits_ret. by split; [apply prefix_nil|].
  - eapply emits_rbind; [apply phase_emits| |].
    + intros e l Hl. cbn. rewrite Hl. split; [apply prefix_cons, prefix_nil|done].
    + intros u l Hl. eapply emits_weaken; [|exact IH]. cbn. intros r l' [Hp Hr]. rewrite posts_app, Hl.
      split; [by apply prefix_cons|]. intros Hk. by rewrite (Hr Hk).
Qed.

Lemma ceremony_emits run : emits (λ _ l, ceremony_asked run l) (ceremony polls d run).
Proof.
  unfold ceremony. eapply emits_rbind; [apply phase_emits|by intros e l Hl; left|].
  intros u0 l0 Hl0. eapply emits_rbind; [apply get_emits| |].
  - intros e l (a&->&_). left. by rewrite posts_app, Hl0.
  - intros ts l (a&->&b&Hb&Hts).
    assert (Hin : ∀ l, posts l `prefix_of` ((λ t, ("/ceremony/submit", submit_body run t)) <$> ts) ++
        [("/ceremony/publish", run_body run)] →
      ceremony_asked run (l0 ++ [(("GET", "/api/ceremony/" +:+ run, ""), a)] ++ l)).
    { intros l Hl. right. exists a, b, ts. split; [rewrite !elem_of_app; right; left; by apply list_elem_of_singleton|].
      split; [done|]. split; [done|]. rewrite !posts_app, Hl0. cbn. by apply prefix_cons. }
    eapply emits_rbind; [apply submit_all_emits| |].
    + intros e l [Hl _]. apply Hin. by apply prefix_app_r.
    + intros u l [_ Hl]. specialize (Hl eq_refl). eapply emits_weaken; [|apply phase_emits]. intros r l' Hl'.
      apply Hin. by rewrite posts_app, Hl, Hl'.
Qed.

Lemma try_emits what (c : D S (result unit)) (P : list exchange → Prop) :
  emits (λ _ l, P l) c → emits (λ _ l, P l) (try_phase what c).
Proof.
  intros Hc. eapply emits_bind; [exact Hc|]. intros [u|e] l Hl; [apply emits_ret; by rewrite app_nil_r|].
  eapply emits_weaken; [|apply silent_print]. intros _ l' ->. by rewrite app_nil_r.
Qed.

(** What is read back is what was served. *)
Lemma collect_emits run rep gate :
  emits (λ x l, ∃ perf journal,
      l = [(("GET", ("/export/" +:+ run +:+ "/") +:+ Csv.PerfCSV, ""), perf);
           (("GET", ("/export/" +:+ run +:+ "/") +:+ JournalFile, ""), journal)] ∧
      RepOf x = rep ∧ RunID x = run ∧ GatePass x = gate ∧ Perf x = served_row run perf ∧
      (Failed x = false ↔ succeeded run perf journal))
    (collect d text run rep gate).
Proof.
  unfold collect. eapply emits_bind; [apply export_emits|]. intros csv l (perf&->&Hcsv).
  assert (Hp : match (let? data := csv in Csv.perfRowCells data run) with
    | Ok m => served_row run perf = m ∧ ∃ csv row, body_of perf = Some csv ∧ Csv.perfRowCells csv run = Ok row
    | Err _ => served_row run perf = ∅ ∧ ¬ ∃ csv row, body_of perf = Some csv ∧ Csv.perfRowCells csv run = Ok row
    end).
  { unfold served_row. destruct csv as [b|e]; cbv beta iota in Hcsv; rewrite Hcsv.
    - cbn [rbind]. destruct (Csv.perfRowCells b run) eqn:Er; [by eauto|].
      split; [done|]. intros (?&?&[= <-]&?). congruence.
    - cbn. split; [done|]. by intros (?&?&?&_). }
  cbv beta zeta. destruct (let? data := csv in Csv.perfRowCells data run) as [m|e]; cbv iota beta zeta;
  destruct Hp as [Hf Hrow]; (eapply emits_bind; [apply export_emits|]); intros j l (journal&->&Hj);
  apply emits_ret; exists perf, journal; (split; [done|]); rewrite Hf; clear Hf Hcsv; unfold succeeded;
  (destruct j as [data|e']; cbv beta iota in Hj; rewrite Hj; [destruct (runEndEvent data) as [ev|] eqn:Ev;
    [destruct (ev_bool ev "failed") eqn:Eb|]|]); cbn [RepOf RunID GatePass Perf Failed String.eqb];
  repeat case_match; cbn [RepOf RunID GatePass Perf Failed]; (split_and!; [done..|]); naive_solver.
Qed.

Lemma create_emits config :
  emits (λ r l, ∃ a waits, l = (("POST", "/generate", config), a) :: waits ∧
           match r with
           | Ok run => (∃ b, body_of a = Some b ∧ run_id_of b = Ok run) ∧ run ≠ "" ∧ Forall (status_asked run) waits
           | Err _ => ∃ run, Forall (status_asked run) waits
           end) (create polls d config).
Proof.
  unfold create. eapply emits_rbind; [apply request_emits| |].
  { intros e l (a&->&_). exists a, []. split; [done|]. by exists "". }
  intros b l (a&->&Ha). destruct (run_id_of b) as [run|e] eqn:Er; [destruct (String.eqb_spec run "")|].
  1, 3: apply emits_ret; exists a, []; split; [done|]; by exists "".
  eapply emits_rbind; [apply idle_emits| |].
  - intros e l Hl. exists a, l. split; [done|]. by exists run.
  - intros u l Hl. apply emits_ret. exists a, l. rewrite app_nil_r. split; [done|]. eauto.
Qed.

(** A repetition that is created is driven to its end. *)
Lemma once_emits c rep :
  emits (λ r l, match r with Ok x => driven c rep x l | Err _ => not_created c rep l end) (once polls d text c rep).
Proof.
  unfold once. eapply emits_rbind; [apply create_emits| |].
  { intros e l (a&waits&->&run&Hw). by exists a, run, waits. }
  intros run l (a&waits&->&(b&Hb&Hrun)&Hne&Hw). eapply emits_bind; [apply silent_print|]. intros u l ->.
  eapply emits_bind; [apply get_emits|]. intros gate l (g&->&Hg).
  assert (Hpass : match gate with Ok (b, _) => b | Err _ => false end =
                  match body_of g with Some b => (pass_of b).1 | None => false end).
  { destruct gate as [[p e]|e]; cbv beta iota in Hg; [destruct Hg as (gb&->&[= Hgb]); by rewrite Hgb|].
    destruct Hg as [->|(?&?&?&?)]; [done|discriminate]. }
  eapply emits_bind.
  { destruct gate as [[[] [e|]]|e]; first [apply silent_print|by apply emits_ret]. }
  intros u' l ->. eapply emits_bind; [apply try_emits, phase_emits|]. intros u1 pre Hpre.
  eapply emits_bind with (R := λ _ mid, if String.eqb (Mode c) "onchain" then mid = [] else ceremony_asked run mid).
  { cbn [Mode with_rep]. destruct (String.eqb _ _); [by apply emits_ret|apply try_emits, ceremony_emits]. }
  intros u2 mid Hmid. eapply emits_bind; [apply try_emits, phase_emits|]. intros u3 last Hlast.
  eapply emits_bind; [apply collect_emits|]. intros x l (perf&journal&->&Hrep&<-&Hgate&Hperf&Hfailed).
  apply emits_ret. split; [done|]. exists a, waits, g, pre, mid, last, perf, journal, b.
  split; [|by rewrite Hgate]. cbn. done.
Qed.

(** ** Repetitions in order *)

Definition tags (kind : string) (ns : list Z) : list RepTag := (λ i, MkRepTag i kind) <$> ns.

Definition repeated (c : ElectionConfig) (kind : string) (ns : list Z) : list (ElectionConfig * RepTag) :=
  pair c <$> tags kind ns.

Lemma repetitions_emits c kind ns :
  emits (λ r l, generated l `prefix_of` configs (repeated c kind ns) ∧ ∀ rs, r = Ok rs → series (repeated c kind ns) rs l)
    (repetitions polls d text c kind ns).
Proof.
  induction ns as [|i ns IH]; cbn [repetitions].
  - apply emits_ret. split; [done|]. intros rs [= <-]. constructor.
  - eapply emits_rbind; [apply once_emits| |].
    + intros e l Hl. split; [|done]. rewrite (not_created_generated _ _ _ Hl). by apply prefix_cons, prefix_nil.
    + intros r l Hr. eapply emits_rbind; [exact IH| |].
      * intros e l' [Hl _]. split; [|done]. rewrite generated_app, (driven_generated _ _ _ _ Hr). by apply prefix_cons.
      * intros rs l' [Hl Hrs]. specialize (Hrs rs eq_refl). apply emits_ret. rewrite app_nil_r.
        assert (Hs : series (repeated c kind (i :: ns)) (r :: rs) (l ++ l')) by by constructor.
        split; [|by intros rs' [= <-]]. by rewrite (proj1 (series_generated _ _ _ Hs)).
Qed.

(** ** The sweep *)

Definition tps (r : repResult) : option float64 := num (Perf r) "committed_tps".
Definition dropped (r : repResult) : bool := SFltb f_zero (default f_zero (num (Perf r) "dropped")).

(** No throughput of the list is below the one before it. *)
Fixpoint rising (p : option float64) (l : list float64) : Prop :=
  match l with
  | [] => True
  | x :: l => (∀ p', p = Some p' → SFltb x p' = false) ∧ rising (Some x) l
  end.

Definition before (first : option float64) (ts : list float64) : list float64 :=
  match first with Some p => p :: ts | None => ts end.

(** A sweep that started at [plateau] ended at [v] with these steps: all but
    the last rose and shed nothing, and [v] is where the last of them stood. A
    last step shed a ballot, has no throughput or fell; without one, [n] steps
    were taken. *)
Definition climbed (n : nat) (first : option float64) (plateau : float64) (rs : list repResult) (v : float64) : Prop :=
  ∃ good rest ts,
    rs = good ++ rest ∧ tps <$> good = Some <$> ts ∧ Forall (λ r, dropped r = false) good ∧ rising first ts ∧
    v = List.last ts plateau ∧ (length rest ≤ 1)%nat ∧ (rest = [] → length good = n) ∧
    Forall (λ r, dropped r = true ∨ tps r = None ∨
                 ∃ t p, tps r = Some t ∧ last (before first ts) = Some p ∧ SFltb t p = true) rest.

(** The rate of the [i]th step, and what the step runs with [conc] workers. *)
Definition rate_at (rate : float64) (i : nat) : float64 := Nat.iter i (λ r, float_mul r (factor d)) rate.

Definition sweep_step (c : ElectionConfig) (step : Z) (rate : float64) (i : nat) (conc : Z) : ElectionConfig * RepTag :=
  (step_config d c (rate_at rate i) conc, MkRepTag (step + Z.of_nat i) "sweep").

Lemma last_from {A} (x d' : A) l : List.last (x :: l) d' = List.last l x.
Proof.
  revert x d'. induction l as [|y l IH]; intros x d'; [done|]. transitivity (List.last (y :: l) d'); [done|].
  by rewrite !(IH y).
Qed.

Lemma sweep_step_next c step rate i conc :
  sweep_step c (step + 1) (float_mul rate (factor d)) i conc = sweep_step c step rate (Datatypes.S i) conc.
Proof. unfold sweep_step, rate_at. rewrite Nat.iter_succ_r. do 2 f_equal. lia. Qed.

(** The workers of each step: those the step before it needs at its rate. *)
Fixpoint paced (rate : float64) (conc : Z) (concs : list Z) (rs : list repResult) : Prop :=
  match concs with
  | [] => True
  | x :: concs =>
      x = conc ∧
      match rs with
      | [] => concs = []
      | r :: rs =>
          let rate := float_mul rate (factor d) in
          paced rate (step_concurrency rate (num (Perf r) "latency_p99_ms") x) concs rs
      end
  end.

(** A sweep of at most [n] steps: those it took, each driven at its rate; where
    it ended, what it climbed to. *)
Definition swept (c : ElectionConfig) (step : Z) (rate : float64) (conc : Z) (n : nat) (plateau : float64)
    (r : result float64) (l : list exchange) : Prop :=
  ∃ (concs : list Z) (rs : list repResult), (length concs ≤ n)%nat ∧ paced rate conc concs rs ∧
    generated l = configs (imap (sweep_step c step rate) concs) ∧
    ∀ v, r = Ok v → series (imap (sweep_step c step rate) concs) rs l ∧
      climbed n (if 1 <? step then Some plateau else None) plateau rs v.

Lemma swept_stop c step rate n plateau conc r l :
  driven (sweep_step c step rate 0 conc).1 (MkRepTag step "sweep") r l →
  dropped r = true ∨ tps r = None ∨ (∃ t, tps r = Some t ∧ (1 <? step) && SFltb t plateau = true) →
  swept c step rate conc (Datatypes.S n) plateau (Ok plateau) l.
Proof.
  intros Hr Hwhy. exists [conc], [r]. split; [cbn; lia|]. split; [done|].
  assert (Hs : series (imap (sweep_step c step rate) [conc]) [r] l).
  { unfold sweep_step. cbn [imap]. rewrite Z.add_0_r. by apply series_one. }
  split; [apply (series_generated _ _ _ Hs)|]. intros v [= <-]. split; [done|]. exists [], [r], [].
  repeat split; try done. apply Forall_singleton. destruct Hwhy as [?|[?|(t&?&Hp)]]; [by left|by right; left|].
  right; right. apply andb_true_iff in Hp as [-> Hp]. by exists t, plateau.
Qed.

Lemma swept_go c step rate n plateau conc r t res l l' :
  0 < step → driven (sweep_step c step rate 0 conc).1 (MkRepTag step "sweep") r l → dropped r = false → tps r = Some t →
  (1 <? step) && SFltb t plateau = false →
  (let rate := float_mul rate (factor d) in
   swept c (step + 1) rate (step_concurrency rate (num (Perf r) "latency_p99_ms") conc) n t res l') →
  swept c step rate conc (Datatypes.S n) plateau res (l ++ l').
Proof.
  intros Hs Hr Hd Ht Hp (concs&rs&Hlen&Hpace&Hgen&Hrs). exists (conc :: concs), (r :: rs).
  assert (Hi : imap (sweep_step c step rate) (conc :: concs) =
    sweep_step c step rate 0 conc :: imap (sweep_step c (step + 1) (float_mul rate (factor d))) concs).
  { cbn [imap]. f_equal. symmetry. apply imap_ext. intros i x _. apply sweep_step_next. }
  assert (Hz : sweep_step c step rate 0 conc = ((sweep_step c step rate 0 conc).1, MkRepTag step "sweep"))
    by (unfold sweep_step; cbn; by rewrite Z.add_0_r).
  split; [cbn; lia|]. split; [done|]. rewrite Hi, Hz. split.
  { rewrite generated_app, (driven_generated _ _ _ _ Hr), Hgen. done. }
  intros v Hv. destruct (Hrs v Hv) as (Hser&(good&rest&ts&->&Hg&Hd'&Hrise&->&H1&H2&H3)). split; [by constructor|].
  destruct (Z.ltb_spec 1 (step + 1)) as [_|]; [|lia].
  exists (r :: good), rest, (t :: ts). cbn [fmap list_fmap]. fold (tps r). rewrite Ht, Hg. split_and!; auto.
  - split; [|done]. destruct (1 <? step); [|done]. by intros p' [= <-].
  - by rewrite <-(last_from t plateau ts).
  - intros Hrest. cbn. by rewrite (H2 Hrest).
  - eapply Forall_impl; [exact H3|]. intros x. cbn beta. destruct (1 <? step); [|done]. done.
Qed.

Lemma sweep_emits c n : ∀ step rate conc plateau, 0 < step →
  emits (swept c step rate conc n plateau) (sweep_from polls d text c n step rate conc plateau).
Proof.
  induction n as [|n IH]; intros step rate conc plateau Hs; cbn [sweep_from].
  - apply emits_ret. exists [], []. split; [done|]. split; [done|]. split; [done|]. intros v [= <-].
    split; [constructor|]. exists [], [], []. by repeat split; cbn; try lia.
  - eapply emits_rbind; [apply (once_emits (sweep_step c step rate 0 conc).1)| |].
    + intros e l Hl. exists [conc], []. split; [cbn; lia|]. split; [done|]. split; [|done].
      rewrite (not_created_generated _ _ _ Hl). unfold sweep_step. cbn. by rewrite Z.add_0_r.
    + intros r l Hr. eapply emits_bind; [apply silent_print|]. intros u l' ->.
      destruct (SFltb f_zero _) eqn:Ed; [apply emits_ret; rewrite app_nil_r; eapply swept_stop; [exact Hr|by left]|].
      destruct (num (Perf r) "committed_tps") as [t|] eqn:Et;
        [|apply emits_ret; rewrite app_nil_r; eapply swept_stop; [exact Hr|by right; left]].
      destruct (_ && _) eqn:Ep; [apply emits_ret; rewrite app_nil_r; eapply swept_stop; [exact Hr|right; right; by exists t]|].
      eapply emits_weaken; [|apply IH; lia]. intros res l' Hl. cbn [app]. eapply swept_go; [exact Hs|exact Hr|exact Ed|exact Et|exact Ep|exact Hl].
Qed.

(** ** What a campaign leaves *)

(** As [emits], with the files written. *)
Definition leaves {A} (R : A → list exchange → list (string * string) → Prop) (c : D S A) : Prop :=
  ∀ s, ∃ s' a l w, c s = Some (s', a) ∧ heard s' = heard s ++ l ∧ written s' = written s ++ w ∧ R a l w.

Lemma leaves_ret {A} (a : A) (R : A → list exchange → list (string * string) → Prop) : R a [] [] → leaves R (dret a).
Proof. intros HR s. exists s, a, [], []. by rewrite !app_nil_r. Qed.

Lemma leaves_bind {A B} (c : D S A) (k : A → D S B) R R' :
  emits R c → (∀ a l, R a l → leaves (λ b l' w, R' b (l ++ l') w) (k a)) → leaves R' (dbind c k).
Proof.
  intros Hc Hk s. destruct (Hc s) as (s1&a&l&E1&G1&W1&HR).
  destruct (Hk a l HR s1) as (s2&b&l'&w&E2&G2&W2&HR').
  exists s2, b, (l ++ l'), w. unfold dbind. rewrite E1, E2, G2, G1, W2, W1, app_assoc. done.
Qed.

Lemma leaves_rbind {A B} (c : D S (result A)) (k : A → D S (result B)) R R' :
  emits R c → (∀ e l, R (Err e) l → R' (Err e) l []) →
  (∀ a l, R (Ok a) l → leaves (λ b l' w, R' b (l ++ l') w) (k a)) → leaves R' (rdbind c k).
Proof.
  intros Hc He Hk. unfold rdbind. eapply leaves_bind; [exact Hc|]. intros [a|e] l HR; [by apply Hk|].
  intros s. exists s, (Err e), [], []. rewrite !app_nil_r. auto.
Qed.

Lemma silent_mkdir p : silent (mkdir_all p).
Proof. intros s. unfold mkdir_all. destruct (os_mkdir _ _) as [h e]. do 3 eexists. split; [done|]. by rewrite app_nil_r. Qed.

Lemma write_leaves p txt : leaves (λ _ l w, l = [] ∧ w = [(p, txt)]) (write_file p txt).
Proof.
  intros s. unfold write_file. destruct (os_write _ _ _) as [h e]. do 4 eexists. split; [done|].
  by rewrite app_nil_r.
Qed.

Lemma summary_leaves path measured plateau :
  leaves (λ r l w, l = [] ∧ (w = [] ∧ (∃ e, r = Err e) ∨ w = [(path, summary_text measured plateau)]))
    (writeSummaryCSV path measured plateau).
Proof.
  unfold writeSummaryCSV. eapply leaves_rbind with (R := λ _ l, l = []).
  - destruct (dir_of path) as [[|a q]|]; [by apply emits_ret|apply silent_mkdir|by apply emits_ret].
  - intros e l ->. split; [done|]. left. by eauto.
  - intros u l -> s. destruct (write_leaves path (summary_text measured plateau) s) as (s'&a&l&w&?&?&?&->&->).
    exists s', a, [], [(path, summary_text measured plateau)]. repeat split; auto.
Qed.

Definition first_rate (c : ElectionConfig) : float64 := if SFleb (SendRate c) f_zero then defaultSweepRate else SendRate c.

Definition burst_run (o : RepeatOpts) : list (ElectionConfig * RepTag) :=
  if 0 <? Burst o then [(burst_config o, MkRepTag 1 "burst")] else [].

(** The sweep's runs and the plateau it found, if the campaign has one. *)
Definition swept_plateau (o : RepeatOpts) (r : result (option float64)) (l : list exchange) : Prop :=
  if SFltb f_one (Sweep o)
  then swept (OConfig o) 1 (first_rate (OConfig o)) (submitConcurrency (OConfig o)) (Z.to_nat Gates.maxSweepSteps) f_zero
         (match r with Ok v => Ok (default f_zero v) | Err e => Err e end) l ∧ r ≠ Ok None
  else l = [] ∧ r = Ok None.

Lemma plateau_emits o :
  emits (swept_plateau o)
    (if SFltb f_one (Sweep o) then rdbind (sweep polls d text (OConfig o)) (λ tps, dret (Ok (Some tps))) else dret (Ok None)).
Proof.
  unfold swept_plateau. destruct (SFltb f_one (Sweep o)); [|by apply emits_ret].
  eapply emits_rbind; [apply sweep_emits; lia|by intros e l Hl|].
  intros v l Hl. apply emits_ret. by rewrite app_nil_r.
Qed.

Definition warmups (o : RepeatOpts) := repeated (OConfig o) "warmup" (seqZ 1 (Warmups o)).
Definition measures (o : RepeatOpts) := repeated (OConfig o) "measured" (seqZ 1 (Reps o)).

(** A campaign driven to its end: the warm-ups, then [measured], then the sweep
    to [plateau], then the burst. *)
Definition campaign_driven (o : RepeatOpts) (measured : list repResult) (plateau : option float64)
    (l : list exchange) : Prop :=
  ∃ ws bs lw lm ls lb, l = lw ++ lm ++ ls ++ lb ∧ series (warmups o) ws lw ∧ series (measures o) measured lm ∧
    swept_plateau o (Ok plateau) ls ∧ series (burst_run o) bs lb.

(** One that stopped: what it created is a beginning of the same runs. *)
Definition campaign_stopped (o : RepeatOpts) (l : list exchange) : Prop :=
  ∃ pr ls, swept_plateau o pr ls ∧
    generated l `prefix_of` configs (warmups o) ++ configs (measures o) ++ generated ls ++ configs (burst_run o).

(** What a campaign leaves: no file, or the summary of the runs it measured and
    of the plateau it found. *)
Definition campaign_done (o : RepeatOpts) (r : result unit) (l : list exchange) (w : list (string * string)) : Prop :=
  (w = [] ∧ (∃ e, r = Err e) ∧ campaign_stopped o l) ∨
  ∃ measured plateau, w = [(out d, summary_text measured plateau)] ∧ campaign_driven o measured plateau l.

Lemma swept_plateau_none o : ∃ pr, swept_plateau o pr [].
Proof.
  unfold swept_plateau. destruct (SFltb _ _); [|eauto]. exists (Err (Errorf "" [])). split; [|done].
  exists [], []. split; [cbn; lia|done].
Qed.

Lemma campaign_leaves o : 0 ≤ Reps o → leaves (campaign_done o) (run_campaign polls d text o).
Proof.
  intros Hr. unfold run_campaign. destruct (swept_plateau_none o) as [pr0 Hpr].
  eapply leaves_rbind; [apply repetitions_emits| |].
  { intros e lw [Hl _]. left. split; [done|]. split; [eauto|]. exists pr0, []. split; [done|]. by apply prefix_app_r. }
  intros ws lw [_ Hw]. specialize (Hw ws eq_refl). destruct (series_generated _ _ _ Hw) as [Gw _].
  unfold make_results. destruct (Z.ltb_spec (Reps o) 0); [lia|].
  eapply leaves_bind with (R := λ _ l, l = []); [by apply emits_ret|]. intros u l ->. cbn [app].
  eapply leaves_rbind; [apply repetitions_emits| |].
  { intros e lm [Hl _]. left. split; [done|]. split; [eauto|]. exists pr0, []. split; [done|].
    rewrite generated_app, Gw. by apply prefix_app, prefix_app_r. }
  intros ms lm [_ Hm]. specialize (Hm ms eq_refl). destruct (series_generated _ _ _ Hm) as [Gm _].
  eapply leaves_rbind; [apply plateau_emits| |].
  { intros e ls Hl. left. split; [done|]. split; [eauto|]. exists (Err e), ls. split; [done|].
    rewrite !generated_app, Gw, Gm, <-?app_assoc. by do 2 apply prefix_app; apply prefix_app_r. }
  intros plateau ls Hp.
  eapply leaves_rbind with (R := λ r l, generated l = configs (burst_run o) ∧ ∀ u, r = Ok u → ∃ bs, series (burst_run o) bs l).
  { unfold burst_run. destruct (0 <? Burst o); [|apply emits_ret; split; [done|]; intros u' _; exists []; constructor].
    eapply emits_rbind; [apply once_emits| |].
    - intros e l Hl. split; [|done]. apply (not_created_generated _ _ _ Hl).
    - intros x l Hx. apply emits_ret. rewrite app_nil_r. split; [apply (driven_generated _ _ _ _ Hx)|].
      intros u' _. exists [x]. by apply series_one. }
  { intros e lb [Hl _]. left. split; [done|]. split; [eauto|]. exists (Ok plateau), ls. split; [done|].
    by rewrite !generated_app, Gw, Gm, Hl, <-?app_assoc. }
  intros u' lb [Gb Hb]. destruct (Hb _ eq_refl) as [bs Hbs]. intros s.
  destruct (summary_leaves (out d) ms plateau s) as (s'&a&l&w&E1&E2&E3&->&Hsum).
  exists s', a, [], w. split; [done|]. split; [done|]. split; [done|].
  destruct Hsum as [[-> He]| ->]; [left; split; [done|]; split; [done|]|right].
  - exists (Ok plateau), ls. split; [done|]. by rewrite !generated_app, Gw, Gm, Gb, app_nil_r, <-?app_assoc.
  - exists ms, plateau. split; [done|]. exists ws, bs, lw, lm, ls, lb. by rewrite app_nil_r, <-?app_assoc.
Qed.

(** ** What the ladder leaves *)

(** The tiers from the [i]th on. *)
Definition tier_runs (i : Z) (tiers : list Z) : list (ElectionConfig * RepTag) :=
  imap (λ k v, (LadderConfig v, MkRepTag (i + Z.of_nat k) "ladder")) tiers.

Definition passed (x : repResult) : Prop := GatePass x = true ∧ Failed x = false.

(** Every tier was driven and passed. *)
Definition tiers_pass (i : Z) (tiers : list Z) (runs : list string) (l : list exchange) : Prop :=
  ∃ xs, series (tier_runs i tiers) xs l ∧ Forall passed xs ∧ runs = RunID <$> xs.

(** The first that did not: it could not be created, or did not pass. *)
Definition tiers_stop (i : Z) (tiers : list Z) (l : list exchange) : Prop :=
  ∃ k xs l1 l2 c rep, l = l1 ++ l2 ∧ series (take k (tier_runs i tiers)) xs l1 ∧ Forall passed xs ∧
    tier_runs i tiers !! k = Some (c, rep) ∧ (not_created c rep l2 ∨ ∃ x, driven c rep x l2 ∧ ¬ passed x).

Lemma tier_runs_cons i v tiers :
  tier_runs i (v :: tiers) = (LadderConfig v, MkRepTag i "ladder") :: tier_runs (i + 1) tiers.
Proof.
  unfold tier_runs. cbn [imap]. rewrite Z.add_0_r. f_equal. apply imap_ext. intros k x _. cbn. do 2 f_equal. lia.
Qed.

Lemma tiers_stop_here i v tiers l :
  not_created (LadderConfig v) (MkRepTag i "ladder") l ∨ (∃ x, driven (LadderConfig v) (MkRepTag i "ladder") x l ∧ ¬ passed x) →
  tiers_stop i (v :: tiers) l.
Proof.
  intros Hl. exists 0%nat, [], [], l, (LadderConfig v), (MkRepTag i "ladder"). rewrite tier_runs_cons.
  repeat split; try done. constructor.
Qed.

Lemma tiers_emits tiers : ∀ i,
  emits (λ r l, match r with Ok runs => tiers_pass i tiers runs l | Err _ => tiers_stop i tiers l end)
    (ladder_tiers polls d text i tiers).
Proof.
  induction tiers as [|v tiers IH]; intros i; cbn [ladder_tiers].
  - apply emits_ret. exists []. split; [constructor|done].
  - eapply emits_bind; [apply once_emits|]. intros [x|e] l Hx.
    2: { apply emits_ret. rewrite app_nil_r. apply tiers_stop_here. by left. }
    assert (Hstop : ¬ passed x → ∀ e, emits (λ (r : result (list string)) l', match r with
        | Ok runs => tiers_pass i (v :: tiers) runs (l ++ l') | Err _ => tiers_stop i (v :: tiers) (l ++ l') end) (dret (Err e))).
    { intros Hn e. apply emits_ret. rewrite app_nil_r. apply tiers_stop_here. right. by exists x. }
    destruct (GatePass x) eqn:Eg; cbn [negb]; [|apply Hstop; intros []; congruence].
    destruct (Failed x) eqn:Ef; [apply Hstop; intros []; congruence|].
    eapply emits_bind; [apply silent_print|]. intros u l' ->. cbn [app]. eapply emits_rbind; [apply IH| |].
    + intros e l' (k&xs&l1&l2&c&rep&->&Hs&Hp&Hk&Hw). exists (Datatypes.S k), (x :: xs), (l ++ l1), l2, c, rep.
      rewrite tier_runs_cons, app_assoc. split_and!; [done|by constructor|by constructor|done|done].
    + intros runs l' (xs&Hs&Hp&->). apply emits_ret. exists (x :: xs). rewrite app_nil_r, tier_runs_cons.
      split_and!; [by constructor|by constructor|done].
Qed.

(** What the ladder leaves: the record of the build's commit once every tier
    was driven and passed; else no file, and the call fails because there is no
    directory, a tier did not pass, or no commit is known. *)
Definition ladder_done (dataDir : string) (head : option string) (now : Z) (r : result unit)
    (l : list exchange) (w : list (string * string)) : Prop :=
  (w = [] ∧ (∃ e, r = Err e) ∧
   (TrimSpace dataDir = "" ∧ l = [] ∨ tiers_stop 1 LadderTiers l ∨
    head = None ∧ ∃ runs, tiers_pass 1 LadderTiers runs l)) ∨
  ∃ h runs, head = Some h ∧ tiers_pass 1 LadderTiers runs l ∧
    w = [(dataDir +:+ "/" +:+ LadderFile, ladder_json (Gates.MkLadder h now runs))].

Lemma ladder_leaves dataDir hd now :
  leaves (ladder_done dataDir hd now) (run_ladder polls d text dataDir hd now).
Proof.
  unfold run_ladder. destruct (String.eqb_spec (TrimSpace dataDir) "") as [Hd|_].
  { apply leaves_ret. left. split; [done|]. split; [by eexists|by left]. }
  eapply leaves_rbind; [apply tiers_emits| |].
  { intros e l Hl. left. split; [done|]. split; [by eexists|by right; left]. }
  intros runs l Hr. destruct hd as [h|].
  2: { apply leaves_ret. rewrite app_nil_r. left. split; [done|]. split; [by eexists|]. right; right. split; [done|by exists runs]. }
  intros s. unfold rdbind, dbind.
  destruct (write_leaves (dataDir +:+ "/" +:+ LadderFile) (ladder_json (Gates.MkLadder h now runs)) s)
    as (s1&a&l'&w&E1&E2&E3&->&->). rewrite E1.
  assert (Hd : ladder_done dataDir (Some h) now a (l ++ [])
                 [(dataDir +:+ "/" +:+ LadderFile, ladder_json (Gates.MkLadder h now runs))]).
  { rewrite app_nil_r. right. by exists h, runs. }
  destruct a as [[]|e]; unfold print, dret; do 4 eexists; (split; [reflexivity|]); by split.
Qed.
End with_driver.

(** C24: a campaign of no negative number of repetitions, against a console
    whose phases end, returns. It creates its runs in order and drives each
    ([driven]): the warm-ups, the measured repetitions, at most twelve sweep
    steps (the rate grows by the factor, the workers follow the tail latency; it
    stops where throughput falls or a ballot is dropped, and its plateau is the
    last step that did neither), the burst; each carries its kind and its index.
    Driven to the end, it writes one file, the summary of exactly the measured
    repetitions: the figures and the failures the console served of each of
    their runs, and no other. Stopped, it has created a beginning of these
    runs, and writes nothing. *)
Theorem campaign_runs_in_order left (E : phases_end left) (o : RepeatOpts) (Hr : 0 ≤ Reps o) s :
  ∃ s' r l w, Repeat polls text o s = Some (s', r) ∧ heard s' = heard s ++ l ∧ written s' = written s ++ w ∧
    match newRepeatDriver o with
    | Err e => r = Err e ∧ l = [] ∧ w = []
    | Ok d => campaign_done d o r l w
    end.
Proof.
  unfold Repeat. destruct (newRepeatDriver o) as [d|e]; [by apply (campaign_leaves d E o Hr s)|].
  exists s, (Err e), [], []. by rewrite !app_nil_r.
Qed.

(** C25: the ladder, against a console whose phases end, returns. Either it
    writes the record of the build's commit: then the console created all four
    tiers in order, and of each it answered that the gate passes, and served its
    row and a journal whose last run.end is no failure; the record names these
    four runs. Or it writes nothing and fails: it has no console's address, no
    directory or no commit, or the last tier it drove is the first that was not
    created or did not pass. With the record, the console's ladder gate lets any
    configuration of the same, named, commit through. *)
Theorem ladder_pins_passing_build left (E : phases_end left) baseURL dataDir hd now s :
  ∃ s' r l w, RunLadder polls text baseURL dataDir hd now s = Some (s', r) ∧
    heard s' = heard s ++ l ∧ written s' = written s ++ w ∧
    (if String.eqb (TrimSpace baseURL) "" then l = [] ∧ w = [] ∧ ∃ e, r = Err e else ladder_done dataDir hd now r l w) ∧
    ∀ h runs c, hd = Some h → h ≠ "" → Gates.ladderGate (Ok (Gates.MkLadder h now runs)) hd c = None.
Proof.
  assert (Hg : ∀ h runs c, hd = Some h → h ≠ "" → Gates.ladderGate (Ok (Gates.MkLadder h now runs)) hd c = None).
  { intros h runs c -> Hne. unfold Gates.ladderGate. destruct (_ || _); [done|]. cbn [Gates.Commit].
    destruct (String.eqb_spec h ""); [done|]. by rewrite String.eqb_refl. }
  unfold RunLadder, newRepeatDriver. cbn [BaseURL]. destruct (String.eqb (TrimSpace baseURL) "").
  - exists s. do 3 eexists. split; [done|]. rewrite !app_nil_r. eauto 10.
  - match goal with |- context [run_ladder polls ?d] => destruct (ladder_leaves d E dataDir hd now s) as (s'&r&l&w&?&?&?&?) end.
    exists s', r, l, w. auto.
Qed.

(** A negative count panics, once the warm-ups have run. *)
Lemma negative_reps_panic d o s : Reps o < 0 → Warmups o ≤ 0 → run_campaign polls d text o s = None.
Proof.
  intros Hr Hw. unfold run_campaign, rdbind, dbind, make_results. rewrite seqZ_nil by lia. cbn [repetitions].
  unfold dret at 1. destruct (Z.ltb_spec (Reps o) 0); [done|lia].
Qed.
End facts.
End RepeatFacts.
