(* ===== verification/Views.v ===== *)
(** * The console's read-only views

    [saksi-campaign/trail.go] but for the decoding of the tally ([BoardPage]):
    the trail page of an election with its gate; the runs list, its status
    scan and the exports of [server.go]. JSON decoding and what a folder holds
    are arguments. *)
From S2P Require Import Prelude Hex Wire GoText Config Auth Ballots Journal Resume RunStore.
From S2P Require Import Jobs Receipts ReceiptFile Repeat Exclusion Server BoardPage.
From stdpp Require Import sorting.
From Stdlib Require Import Ascii.
#[local] Open Scope Z_scope.
Import GoText.

Module Views.

(** ** The trail of an election *)

(** What the chain answers, each read on its own. *)
Record chain_view := MkChainView {
  status_read : result string; election_read : result string; tally_read : result string;
  ballots_read : result Z; info_read : result (Z * bytes)
}.

Record liveProof := MkLive {
  StatusNow : string; NullifierRows : Z; TallyHex : string; TallySignatures : Z; LChainHeight : Z;
  LTipHash : string; LPartial : bool; LPartialReason : string
}.

Record trailResponse := MkTrailResponse {
  TSealed : bool; TStatus : string; TElection : string; TEvents : list ReceiptFile.TrailEvent;
  TLive : option liveProof; TResults : option BoardPage.position_totals; LedgerMatchesLocal : option bool
}.

Section trail.
Context `{Proto}.

(** [json.Unmarshal] of one line of trail.ndjson, and of trail.json. *)
Context (UnmarshalTrail : string → result ReceiptFile.TrailEvent)
        (UnmarshalTrails : string → result (list ReceiptFile.TrailEvent)).

Fixpoint trail_lines (lines : list string) (err : option goerr) : result (list ReceiptFile.TrailEvent) :=
  match lines with
  | [] => match err with None => Ok [] | Some e => Err (Errorf "read trail.ndjson: %w" [AErr e]) end
  | line :: lines =>
      let line := TrimSpace line in
      if String.eqb line EmptyString then trail_lines lines err
      else
        let? ev := wrap_err (λ e, Errorf "decode trail.ndjson: %w" [AErr e]) (UnmarshalTrail line) in
        let? evs := trail_lines lines err in Ok (ev :: evs)
  end.

Definition readTrailJSONFallback (legacy : option (result string)) : result (list ReceiptFile.TrailEvent) :=
  match legacy with
  | None => Ok []
  | Some data =>
      let? data := wrap_err (λ e, Errorf "read trail.json: %w" [AErr e]) data in
      wrap_err (λ e, Errorf "decode trail.json: %w" [AErr e]) (UnmarshalTrails data)
  end.

(** [None]: the file is not there. *)
Definition readTrailEvents (ndjson : option (result Ballots.stream)) (legacy : option (result string)) :
    result (list ReceiptFile.TrailEvent) :=
  match ndjson with
  | None => readTrailJSONFallback legacy
  | Some f =>
      let? f := wrap_err (λ e, Errorf "read trail.ndjson: %w" [AErr e]) f in
      trail_lines (Ballots.lines f) (Ballots.scan_err f)
  end.

(** The last [run.end] that carries the cross-check. *)
Definition ledgerVerdict (journal : result (list Resume.event)) : option bool :=
  match journal with
  | Err _ => None
  | Ok events =>
      foldl (λ v ev,
        if String.eqb (Resume.kind ev) "run.end"
        then match Resume.fields ev !! "ledger_matches_local" with Some (Journal.JBool b) => Some b | _ => v end
        else v) None events
  end.

Definition tallySignatureCount (tallyHex : string) : Z :=
  match DecodeString tallyHex with
  | Err _ => 0
  | Ok raw =>
      match UnmarshalTallyResult raw with
      | Err _ => 0
      | Ok tally => Z.of_nat (length (TallyResult.Signatures tally))
      end
  end.

Definition tally_of (c : chain_view) : string := match tally_read c with Ok t => t | Err _ => EmptyString end.

Definition tallied (c : chain_view) : bool := negb (String.eqb (tally_of c) EmptyString).

Definition display_status (c : chain_view) : string := match status_read c with Ok s => s | Err _ => "unknown" end.

(** The first read that failed is the one named. *)
Definition partly (why : string) (p : option string) : option string := match p with Some w => Some w | None => Some why end.

Definition buildTrail (c : chain_view) (events : result (list ReceiptFile.TrailEvent)) (verdict : option bool)
    (electionID : string) (operator : bool) : result trailResponse :=
  if negb (tallied c) && negb operator then
    Ok (MkTrailResponse true (display_status c) electionID [] None None None)
  else
    let? evs := events in
    let '(count, p) := match ballots_read c with
                       | Ok n => (n, None)
                       | Err _ => (0, Some "nullifier count unavailable")
                       end in
    let '(height, tip, p) := match info_read c with
                             | Ok (h, t) => (h, t, p)
                             | Err _ => (0, [], partly "chain height/tip unavailable" p)
                             end in
    let '(results, p) :=
      if tallied c then
        match election_read c with
        | Err _ => (None, partly "tally decode failed" p)
        | Ok params =>
            match BoardPage.decodeTally (tally_of c) params with
            | Err _ => (None, partly "tally decode failed" p)
            | Ok m => (Some m, p)
            end
        end
      else (None, p) in
    Ok (MkTrailResponse false (display_status c) electionID evs
          (Some (MkLive (display_status c) count (tally_of c) (tallySignatureCount (tally_of c)) height
                   (EncodeToString tip) (match p with Some _ => true | None => false end) (default EmptyString p)))
          results verdict).

(** [handleTrailAPI]: [asked] is the query's operator=1, [auth] whether
    accounts are on. *)
Inductive trail_reply :=
| TrailRefused (code : Z) (why : goerr)
| TrailShown (r : trailResponse).

Definition operator_view (asked loopback auth : bool) (sess : option Auth.session) : bool :=
  let operator := asked && loopback in
  if auth then operator && match sess with Some s => String.eqb (Auth.SRole s) Auth.RoleAdmin | None => false end
  else operator.

Definition handleTrailAPI (asked loopback auth : bool) (sess : option Auth.session)
    (dialed : result chain_view) (events : result (list ReceiptFile.TrailEvent)) (verdict : option bool)
    (path : string) : trail_reply :=
  let electionID := TrimPrefix path "/api/trail/" in
  if String.eqb electionID EmptyString then TrailRefused 400 (Errorf "missing election id" [])
  else match RunStore.Dir electionID with
  | Err _ => TrailRefused 400 (Errorf "invalid election id" [])
  | Ok _ =>
      match dialed with
      | Err e => TrailRefused 502 (Errorf "chain unreachable: %v" [AErr e])
      | Ok c =>
          match buildTrail c events verdict electionID (operator_view asked loopback auth sess) with
          | Err e => TrailRefused 500 e
          | Ok r => TrailShown r
          end
      end
  end.

(** The index: every run of the store against the chain, where there is one. *)
Record trailIndexRow := MkIndexRow {
  IElectionID : string; ICreatedAt : Z; IMode : string; IVotersOf : Z; IOnChain : bool; IStatus : string;
  IBallots : Z; ITallied : bool; ISignatures : Z
}.

Definition index_row (chain : option (string → chain_view)) (rec : RunStore.RunRecord) : trailIndexRow :=
  let id := RunStore.RunID rec in
  let c := RunStore.RConfig rec in
  let off := MkIndexRow id (RunStore.RCreatedAt rec) (Config.Mode c) (Config.Voters c) false EmptyString 0 false 0 in
  match chain with
  | None => off
  | Some view =>
      let v := view id in
      match election_read v with
      | Err _ => off
      | Ok _ =>
          MkIndexRow id (RunStore.RCreatedAt rec) (Config.Mode c) (Config.Voters c) true
            (match status_read v with Ok s => s | Err _ => EmptyString end)
            (match ballots_read v with Ok n => n | Err _ => 0 end)
            (tallied v) (if tallied v then tallySignatureCount (tally_of v) else 0)
      end
  end.

Definition trailIndex (recs : result (list RunStore.RunRecord)) (chain : option (string → chain_view)) :
    list trailIndexRow * bool :=
  match recs with
  | Err _ => ([], false)
  | Ok l => (index_row chain <$> l, match chain with Some _ => true | None => false end)
  end.
End trail.

(** ** The runs list *)
Definition newer_run (a b : RunStore.RunRecord) : Prop := RunStore.RCreatedAt b ≤ RunStore.RCreatedAt a.

#[local] Instance newer_run_dec : RelDecision newer_run.
Proof. intros a b. unfold newer_run. apply _. Defined.

(** [RunStore.List]: the readable records, newest first. *)
Definition List (s : RunStore.store) : list RunStore.RunRecord :=
  merge_sort newer_run (omap (λ p, p.2) (map_to_list (RunStore.folders s))).

(** Where a run stands, as its journal tells it. *)
Record standing := MkStanding {
  SStatus : string; SReason : string; BallotsStarted : bool; WasInterrupted : bool; ResumePending : option Z;
  Reconciled : bool; AuditOverall : string; AuditFailedChecks : list string
}.

Definition standing0 : standing := MkStanding "open" EmptyString false false None false EmptyString [].

(** [ev["pending"].(float64)]. *)
Definition pending_of (ev : Resume.event) : option Z :=
  match Resume.fields ev !! "pending" with
  | Some (Journal.JNum z) => Some z
  | Some (Journal.JFloat f) => Some (default 0 (float_to_int f))
  | _ => None
  end.

Section runs.
(** The strings of an event's failed_checks. *)
Context (failed_checks : Resume.event → list string).

Definition standing_step (v : standing) (ev : Resume.event) : standing :=
  let 'MkStanding status reason started interrupted pending reconciled overall failed := v in
  if String.eqb (Resume.kind ev) "stage.ballots.start" then
    MkStanding status reason true interrupted pending reconciled overall failed
  else if String.eqb (Resume.kind ev) "stage.ballots.interrupted" then
    MkStanding status reason started true pending reconciled overall failed
  else if String.eqb (Resume.kind ev) "segment.start" then
    MkStanding status reason started interrupted
      (match pending_of ev with Some n => Some n | None => pending end) reconciled overall failed
  else if String.eqb (Resume.kind ev) "verify_only.reconcile" then
    MkStanding status reason started interrupted pending true overall failed
  else if String.eqb (Resume.kind ev) "stage.verify.end" then
    let o := Repeat.ev_string ev "overall" in
    if String.eqb o EmptyString then v
    else MkStanding status reason started interrupted pending reconciled o (failed_checks ev)
  else if String.eqb (Resume.kind ev) "run.end" then
    if Repeat.ev_bool ev "failed"
    then MkStanding "failed" (Repeat.ev_string ev "reason") started interrupted pending reconciled overall failed
    else MkStanding "ended" EmptyString started interrupted pending reconciled overall failed
  else v.

Record runView := MkView {
  VRecord : RunStore.RunRecord; VArtifacts : list string; Busy : bool; PausedStage : string;
  VStanding : standing; Resumable : bool
}.

Definition with_state (status reason : string) (v : standing) : standing :=
  let 'MkStanding _ _ started interrupted pending reconciled overall failed := v in
  MkStanding status reason started interrupted pending reconciled overall failed.

(** [fillState]: the run's lock, its pause, its journal, and what the resume
    route's check says of it. *)
Definition fillState (paused : string → option string) (closeRecorded : string → bool) (w : Server.world)
    (rec : RunStore.RunRecord) (artifacts : list string) : runView :=
  let id := RunStore.RunID rec in
  let busy := bool_decide (id ∈ Exclusion.busy (Server.net w)) in
  let at_stage := if busy then default EmptyString (paused id) else EmptyString in
  match Server.journal_of id w with
  | Err _ => MkView rec artifacts busy at_stage (with_state "new" EmptyString standing0) false
  | Ok events =>
      let v := foldl standing_step standing0 events in
      match Server.plan_of closeRecorded id (RunStore.RConfig rec) w with
      | Err _ => MkView rec artifacts busy at_stage v false
      | Ok plan =>
          MkView rec artifacts busy at_stage
            (with_state (if Resume.CloseOnly plan then "close-pending" else "interrupted") (SReason v) v) true
      end
  end.

Definition show_reason (auth : bool) (sess : option Auth.session) : bool :=
  negb auth || match sess with Some s => String.eqb (Auth.SRole s) Auth.RoleAdmin | None => false end.

Definition hide_reason (v : runView) : runView :=
  MkView (VRecord v) (VArtifacts v) (Busy v) (PausedStage v)
    (with_state (SStatus (VStanding v)) EmptyString (VStanding v)) (Resumable v).

(** [handleRuns]; [present run name]: whether a run's folder has a file. *)
Definition handleRuns (paused : string → option string) (closeRecorded : string → bool)
    (present : string → string → bool) (auth : bool) (sess : option Auth.session) (w : Server.world) : list runView :=
  omap (λ rec,
    match RunStore.Dir (RunStore.RunID rec) with
    | Err _ => None
    | Ok id =>
        let v := fillState paused closeRecorded w rec (filter (λ n, present id n = true) BoardPage.exportOrder) in
        Some (if show_reason auth sess then v else hide_reason v)
    end) (List (Server.runs w)).
End runs.

(** [handleExport]: what is served, or the refusal. *)
Inductive export_reply :=
| ExportRefused (code : Z) (why : string)
| ExportFile (run artifact : string).

Definition handleExport (path : string) : export_reply :=
  let '(id, artifact, found) := Cut (TrimPrefix path "/export/") "/"%char in
  if negb found || negb (bool_decide (artifact ∈ BoardPage.exportOrder)) then ExportRefused 400 "unknown artifact"
  else match RunStore.Dir id with
       | Err _ => ExportRefused 400 "invalid run id"
       | Ok id => ExportFile id artifact
       end.

(** ** What the trail gives away *)
Section trail_facts.
Context `{Proto}.

(** One line that does not decode, such as a last line cut short by a crash,
    and no event of the trail is read. *)
Lemma torn_line_hides_trail UnmarshalTrail UnmarshalTrails lines line rest err e legacy :
  TrimSpace line ≠ EmptyString → UnmarshalTrail (TrimSpace line) = Err e →
  ∃ why, readTrailEvents UnmarshalTrail UnmarshalTrails (Some (Ok (Ballots.MkStream (lines ++ line :: rest) err))) legacy = Err why.
Proof.
  intros Hne He. unfold readTrailEvents. cbn [wrap_err rbind Ballots.lines Ballots.scan_err].
  induction lines as [|l lines [why IH]]; cbn [app trail_lines].
  - rewrite (proj2 (String.eqb_neq _ _) Hne), He. by eexists.
  - destruct (String.eqb _ _); [by eexists|]. destruct (UnmarshalTrail (TrimSpace l)); cbn; [|by eexists].
    rewrite IH. by eexists.
Qed.

Lemma operator_view_exact asked loopback auth sess :
  operator_view asked loopback auth sess = true ↔
  asked = true ∧ loopback = true ∧ (auth = true → ∃ s, sess = Some s ∧ Auth.SRole s = Auth.RoleAdmin).
Proof.
  unfold operator_view. destruct auth; rewrite ?andb_true_iff; [|naive_solver].
  destruct sess as [s|]; [|naive_solver]. rewrite String.eqb_eq. naive_solver.
Qed.

(** A live proof that is not marked partial holds what the chain answered. *)
Definition proof_of (c : chain_view) (r : trailResponse) (l : liveProof) : Prop :=
  ballots_read c = Ok (NullifierRows l) ∧
  (∃ tip, info_read c = Ok (LChainHeight l, tip) ∧ LTipHash l = EncodeToString tip) ∧
  (tallied c = true → is_Some (TResults r)).

Lemma buildTrail_shown c events verdict id operator r l :
  buildTrail c events verdict id operator = Ok r → TLive r = Some l →
  (tallied c = true ∨ operator = true) ∧ TallyHex l = tally_of c ∧ Ok (TEvents r) = events ∧
  (LPartial l = false ↔ proof_of c r l) ∧
  ∀ m, TResults r = Some m → tallied c = true ∧ ∃ params, election_read c = Ok params ∧
    BoardPage.decodeTally (tally_of c) params = Ok m.
Proof.
  unfold buildTrail, proof_of. intros Hb Hl. destruct (negb (tallied c) && negb operator) eqn:Eg; [by injection Hb as <-|].
  assert (Hg : tallied c = true ∨ operator = true) by (destruct (tallied c), operator; auto).
  apply rbind_ok in Hb as (evs&->&Hb).
  destruct (ballots_read c), (info_read c) as [[? ?]|], (tallied c); cbn [partly] in Hb;
    try (destruct (election_read c) as [params|]; [destruct (BoardPage.decodeTally (tally_of c) params) eqn:Ed|]);
    injection Hb as <-; injection Hl as <-; cbn.
  all: split_and!; [exact Hg|done|done| |try done].
  all: try (split; [done|]; intros (?&(?&?&?)&?); done).
  all: try (split; [intros _; split_and!; eauto|done]).
  all: try (intros m [= <-]; eauto).
  all: try done.
  all: split; [done|]; intros (_&_&Hs); by destruct (Hs eq_refl).
Qed.

(** C31: the trail is sealed until a tally is on the ledger. The view that
    opens it earlier is given only to a caller on the machine itself who asks
    for it and, where accounts are on, is signed in as an administrator. For
    anyone else, before the tally, the answer depends on nothing but the
    election's status: not on its ballots, its events, its parameters or what
    the run concluded. Results are shown only of a tally that is on the ledger,
    decoded with the election's own parameters; and what the page says is live
    without marking it partial is what the chain answered. *)
Theorem trail_sealed_until_tally asked loopback auth sess path :
  (operator_view asked loopback auth sess = true ↔
     asked = true ∧ loopback = true ∧ (auth = true → ∃ s, sess = Some s ∧ Auth.SRole s = Auth.RoleAdmin)) ∧
  (∀ c c' events events' verdict verdict',
     operator_view asked loopback auth sess = false → tallied c = false → tallied c' = false →
     display_status c = display_status c' →
     handleTrailAPI asked loopback auth sess (Ok c) events verdict path =
     handleTrailAPI asked loopback auth sess (Ok c') events' verdict' path) ∧
  (∀ c events verdict r l,
     handleTrailAPI asked loopback auth sess (Ok c) events verdict path = TrailShown r → TLive r = Some l →
     (tallied c = true ∨ operator_view asked loopback auth sess = true) ∧ Ok (TEvents r) = events ∧
     (LPartial l = false ↔ proof_of c r l) ∧
     ∀ m, TResults r = Some m → tallied c = true ∧ ∃ params, election_read c = Ok params ∧
       BoardPage.decodeTally (tally_of c) params = Ok m).
Proof.
  split; [apply operator_view_exact|]. unfold handleTrailAPI.
  destruct (String.eqb _ _); [done|]. destruct (RunStore.Dir _) as [id|]; [|done]. split.
  - intros c c' events events' verdict verdict' -> Ht Ht' Hs. unfold buildTrail. by rewrite Ht, Ht', Hs.
  - intros c events verdict r l Hr Hl. destruct (buildTrail _ _ _ _ _) as [r'|] eqn:Hb; [|done]. injection Hr as <-.
    destruct (buildTrail_shown _ _ _ _ _ _ _ Hb Hl) as (?&_&?&?&?). done.
Qed.
End trail_facts.

(** ** What the runs list says *)
Section runs_facts.
Context (failed_checks : Resume.event → list string).

Definition is_run_end (ev : Resume.event) : bool := String.eqb (Resume.kind ev) "run.end".

(** The status and the reason are those of the last [run.end]. *)
Lemma standing_last evs v :
  let v' := foldl (standing_step failed_checks) v evs in
  (SStatus v', SReason v') =
    match last (filter (λ ev, is_run_end ev = true) evs) with
    | None => (SStatus v, SReason v)
    | Some ev => if Repeat.ev_bool ev "failed" then ("failed"%string, Repeat.ev_string ev "reason") else ("ended"%string, EmptyString)
    end.
Proof.
  cbv zeta. induction evs as [|ev evs IH] using rev_ind; [done|]. rewrite foldl_snoc, filter_app, filter_cons, filter_nil.
  destruct (foldl (standing_step failed_checks) v evs) as [status reason started interrupted pending reconciled overall failed].
  unfold is_run_end, standing_step. destruct (String.eqb_spec (Resume.kind ev) "run.end") as [Hk|Hk].
  - rewrite decide_True by done. rewrite last_snoc, Hk. cbn. by destruct (Repeat.ev_bool ev "failed").
  - rewrite decide_False by done. rewrite app_nil_r. unfold is_run_end in IH. rewrite <-IH. repeat case_match; done.
Qed.

Context (paused : string → option string) (closeRecorded : string → bool) (present : string → string → bool).

Definition view_of (w : Server.world) (rec : RunStore.RunRecord) : runView :=
  fillState failed_checks paused closeRecorded w rec
    (filter (λ n, present (RunStore.RunID rec) n = true) BoardPage.exportOrder).

(** A view says what its run's lock, files, journal and resume check say. *)
Record says (w : Server.world) (v : runView) : Prop := {
  says_busy : Busy v = true ↔ RunStore.RunID (VRecord v) ∈ Exclusion.busy (Server.net w);
  says_artifacts : VArtifacts v = filter (λ n, present (RunStore.RunID (VRecord v)) n = true) BoardPage.exportOrder;
  says_resumable : Resumable v = true ↔
    ∃ plan, Server.plan_of closeRecorded (RunStore.RunID (VRecord v)) (RunStore.RConfig (VRecord v)) w = Ok plan;
  says_status : Resumable v = false →
    SStatus (VStanding v) =
      match Server.journal_of (RunStore.RunID (VRecord v)) w with
      | Err _ => "new"
      | Ok evs =>
          match last (filter (λ ev, is_run_end ev = true) evs) with
          | None => "open"
          | Some ev => if Repeat.ev_bool ev "failed" then "failed" else "ended"
          end
      end;
  says_reason : SReason (VStanding v) ≠ EmptyString →
    ∃ evs ev, Server.journal_of (RunStore.RunID (VRecord v)) w = Ok evs ∧
      last (filter (λ ev, is_run_end ev = true) evs) = Some ev ∧
      Repeat.ev_bool ev "failed" = true ∧ SReason (VStanding v) = Repeat.ev_string ev "reason"
}.

Lemma plan_needs_journal id c w plan :
  Server.plan_of closeRecorded id c w = Ok plan → ∃ evs, Server.journal_of id w = Ok evs.
Proof.
  unfold Server.plan_of, Resume.planResume. intros [_ Hp]%guard_ok. apply rbind_ok in Hp as (evs&He&_).
  apply wrap_err_ok in He. by exists evs.
Qed.

Lemma view_says w rec : VRecord (view_of w rec) = rec ∧ says w (view_of w rec).
Proof.
  unfold view_of, fillState. set (id := RunStore.RunID rec). set (arts := filter _ _).
  destruct (Server.journal_of id w) as [evs|e] eqn:Ej.
  - pose proof (standing_last evs standing0) as Hs. cbv zeta in Hs. set (v := foldl _ _ _) in *.
    pose proof (f_equal fst Hs) as Hst. pose proof (f_equal snd Hs) as Hre. cbn [fst snd] in Hst, Hre. clear Hs. destruct (Server.plan_of closeRecorded id _ w) as [plan|e] eqn:Ep; (split; [done|split]); cbn [VRecord Busy VArtifacts Resumable VStanding].
    all: rewrite ?bool_decide_eq_true; try done.
    + split; [eauto|done].
    + intros Hne. exists evs. fold id. assert (Hr : SReason (with_state (if Resume.CloseOnly plan then "close-pending" else "interrupted") (SReason v) v) = SReason v)
        by by destruct v. rewrite Hr in *. rewrite Hre in *.
      destruct (last _) as [ev|]; [|done]. exists ev. destruct (Repeat.ev_bool ev "failed"); done.
    + fold id. split; [done|]. intros [? Hp]. by rewrite Ep in Hp.
    + intros _. fold id. rewrite Ej, Hst. destruct (last _) as [ev|]; [|done]. by destruct (Repeat.ev_bool ev "failed").
    + intros Hne. exists evs. fold id. rewrite Hre in *. destruct (last _) as [ev|]; [|done]. exists ev.
      destruct (Repeat.ev_bool ev "failed"); done.
  - split; [done|split]; cbn [VRecord Busy VArtifacts Resumable VStanding]; fold id.
    + by rewrite bool_decide_eq_true.
    + done.
    + split; [done|]. intros [plan Hp]. apply plan_needs_journal in Hp as [evs Hj]. by rewrite Ej in Hj.
    + intros _. by rewrite Ej.
    + done.
Qed.

Lemma hidden_says w v : says w v → says w (hide_reason v) ∧ SReason (VStanding (hide_reason v)) = EmptyString.
Proof.
  assert (Hs : SStatus (VStanding (hide_reason v)) = SStatus (VStanding v) ∧ SReason (VStanding (hide_reason v)) = EmptyString)
    by (unfold hide_reason; cbn [VStanding]; by destruct (VStanding v)).
  destruct Hs as [Hst Hre]. intros [? ? ? Hstatus ?]. split; [split; try done|done].
  intros Hr. rewrite Hst. by apply Hstatus.
Qed.

Lemma elem_of_List s rec : rec ∈ List s ↔ ∃ id, RunStore.folders s !! id = Some (Some rec).
Proof.
  unfold List. rewrite merge_sort_Permutation, list_elem_of_omap. split.
  - intros ([id r]&Hp&Hr). cbn in Hr. subst r. exists id. by apply elem_of_map_to_list in Hp.
  - intros [id Hid]. exists (id, Some rec). split; [|done]. by apply elem_of_map_to_list.
Qed.

(** Records stored under their own ids. *)
Definition stored_ok (s : RunStore.store) : Prop :=
  ∀ id rec, RunStore.folders s !! id = Some (Some rec) → RunStore.RunID rec = id ∧ RunStore.runIDPattern id = true.

Lemma List_ids s : stored_ok s → NoDup (RunStore.RunID <$> List s).
Proof.
  intros Hok. unfold List. rewrite merge_sort_Permutation.
  assert (Hl : ∀ l : list (string * option RunStore.RunRecord),
    (∀ id rec, (id, Some rec) ∈ l → RunStore.RunID rec = id) → NoDup l.*1 → NoDup (RunStore.RunID <$> omap (λ p, p.2) l)).
  { induction l as [|[id [rec|]] l IH]; intros Hid Hn; cbn in *; [constructor| |].
    - apply NoDup_cons in Hn as [Hni Hn]. constructor; [|apply IH; [intros; apply Hid; by right|done]].
      rewrite (Hid id rec) by by left. intros (r&Hr&Hin)%list_elem_of_fmap. apply list_elem_of_omap in Hin as ([i' r']&Hin&Hr').
      cbn in Hr'. subst r'. apply Hni, list_elem_of_fmap. exists (i', Some r). split; [|done]. cbn.
      rewrite Hr. apply Hid. by right.
    - apply NoDup_cons in Hn as [_ Hn]. apply IH; [intros; apply Hid; by right|done]. }
  apply Hl; [|apply NoDup_fst_map_to_list]. intros id rec Hin%elem_of_map_to_list. by destruct (Hok id rec Hin).
Qed.

Lemma handleRuns_views auth sess w :
  stored_ok (Server.runs w) →
  handleRuns failed_checks paused closeRecorded present auth sess w =
    (λ rec, if show_reason auth sess then view_of w rec else hide_reason (view_of w rec)) <$> List (Server.runs w).
Proof.
  intros Hok. unfold handleRuns.
  assert (Hall : Forall (λ rec, RunStore.runIDPattern (RunStore.RunID rec) = true) (List (Server.runs w))).
  { apply Forall_forall. intros rec [id Hid]%elem_of_List. destruct (Hok id rec Hid) as [-> ?]. done. }
  induction Hall as [|rec l Hrec _ IH]; [done|]. cbn [omap list_omap fmap list_fmap]. unfold RunStore.Dir at 1.
  rewrite Hrec. f_equal. exact IH.
Qed.

(** A resume that was accepted is of a stored run whose check passed. *)
Lemma resume_accepted fabric loadBundle pick method id w w' code i plan x :
  Server.handleResume fabric loadBundle closeRecorded pick method id w = (w', Server.Accepted code i plan, x) →
  ∃ rec, RunStore.folders (Server.runs w) !! id = Some (Some rec) ∧
    ∃ p, Server.plan_of closeRecorded id (RunStore.RConfig rec) w = Ok p.
Proof.
  unfold Server.handleResume, Server.finish_with.
  destruct (String.eqb method "POST"); [|done]. cbn [Server.need Server.cbind].
  unfold Server.validRun, RunStore.Dir. destruct (RunStore.runIDPattern id) eqn:Ep; [|done].
  cbn [rbind Server.answer_of Server.cbind]. unfold Server.record, Server.validRun, RunStore.Dir. rewrite Ep. cbn [rbind].
  destruct (RunStore.folders (Server.runs w) !! id) as [[rec|]|] eqn:Ef; [|done..].
  cbn [Server.answer_of Server.cbind]. destruct (Server.plan_of closeRecorded id _ w) as [p|] eqn:Epl; [|done].
  intros _. exists rec. split; [done|]. by exists p.
Qed.

(** The runs list tells of every run once, and tells the truth of it. Each
    run folder with a readable record has one entry, newest first. An entry is
    busy exactly while a phase holds the run, offers exactly the exports that
    exist, and is resumable exactly when the check of the resume route passes,
    so a run the route would resume is always offered; otherwise its status is
    that of the last run.end of its journal. A reason is the recorded reason of
    a failed end, and it is shown to nobody but an administrator where accounts
    are on. *)
Theorem runs_page_exact auth sess w :
  stored_ok (Server.runs w) →
  let views := handleRuns failed_checks paused closeRecorded present auth sess w in
  NoDup ((λ v, RunStore.RunID (VRecord v)) <$> views) ∧
  (∀ rec, rec ∈ VRecord <$> views ↔ ∃ id, RunStore.folders (Server.runs w) !! id = Some (Some rec)) ∧
  Sorted newer_run (VRecord <$> views) ∧ Forall (says w) views ∧
  (∀ fabric loadBundle pick method id w' code i plan x,
     Server.handleResume fabric loadBundle closeRecorded pick method id w = (w', Server.Accepted code i plan, x) →
     ∃ v, v ∈ views ∧ RunStore.RunID (VRecord v) = id ∧ Resumable v = true) ∧
  (Exists (λ v, SReason (VStanding v) ≠ EmptyString) views →
     auth = false ∨ ∃ s, sess = Some s ∧ Auth.SRole s = Auth.RoleAdmin).
Proof.
  intros Hok views. unfold views. rewrite (handleRuns_views auth sess w Hok). clear views.
  set (g := λ rec, if show_reason auth sess then view_of w rec else hide_reason (view_of w rec)).
  assert (Hg : ∀ rec, VRecord (g rec) = rec ∧ says w (g rec) ∧
                      (SReason (VStanding (g rec)) ≠ EmptyString → show_reason auth sess = true)).
  { intros rec. destruct (view_says w rec) as [Hv Hs]. unfold g. destruct (show_reason auth sess); [done|].
    destruct (hidden_says w _ Hs). split_and!; done. }
  assert (Hrecs : VRecord <$> (g <$> List (Server.runs w)) = List (Server.runs w)).
  { rewrite <-list_fmap_compose. rewrite <-(list_fmap_id (List (Server.runs w))) at 2. apply list_fmap_ext.
    intros i rec _. apply (Hg rec). }
  split_and!.
  - rewrite (list_fmap_compose VRecord RunStore.RunID (g <$> _)), Hrecs. by apply List_ids.
  - intros rec. rewrite Hrecs. apply elem_of_List.
  - rewrite Hrecs. assert (Ht : Total newer_run) by (intros a b; unfold newer_run; lia). by apply (Sorted_merge_sort newer_run).
  - apply Forall_fmap, Forall_forall. intros rec _. apply (Hg rec).
  - intros fabric loadBundle pick method id w' code i plan x Ha. apply resume_accepted in Ha as (rec&Hrec&Hplan).
    destruct (Hok id rec Hrec) as [Hid _]. destruct (Hg rec) as (Hv&Hs&_). exists (g rec). rewrite Hv. split_and!; [|done|].
    + apply list_elem_of_fmap. exists rec. split; [done|]. apply elem_of_List. by exists id.
    + apply (says_resumable _ _ Hs). by rewrite Hv, Hid.
  - intros (v&Hv&Hne)%Exists_exists. apply list_elem_of_fmap in Hv as (rec&->&_).
    destruct (Hg rec) as (_&_&Hshow). specialize (Hshow Hne). unfold show_reason in Hshow.
    apply orb_true_iff in Hshow as [Ha|Ha]; [left; by apply negb_true_iff in Ha|right].
    destruct sess as [se|]; [|done]. exists se. split; [done|]. by apply String.eqb_eq.
Qed.
End runs_facts.
End Views.
