(* ===== verification/Preflight.v ===== *)
(** * Preflight

    [saksi-campaign/preflight.go]: what is checked of the console and its host
    before a measurement, and the load samples taken around one. What the
    checks read (the gates' host, the peer's answer, the environment) is
    [probes]; the report is a function of it. *)
From S2P Require Import Prelude GoText Config Jobs Gates Canvass Repeat.
From Stdlib Require Import Ascii.
#[local] Open Scope Z_scope.
Import GoText Config.

Module Preflight.

Definition hostLoadWarnFraction : float64 := float_div (float_of_Z 1) (float_of_Z 4).
Definition resourceWarnFraction : float64 := float_div (float_of_Z 8) (float_of_Z 10).
Definition phaseTimeoutWarnFraction : float64 := float_div (float_of_Z 3) (float_of_Z 4).
Definition singleVerifyThread : Z := 1.
Definition auditThreadsEnv : string := "SAKSI_AUDIT_THREADS".
Definition severityBlock : string := "block".
Definition severityWarn : string := "warn".

Definition forceableBlocks : list string := ["fabric_unreachable"].

(** A decimal constant: the nearest float64. *)
Definition hundredths (n : Z) : float64 := float_div (float_of_Z n) (float_of_Z 100).

Definition genMsPerRecord : float64 := hundredths 18.
Definition submitMsPerRecord : float64 := hundredths 124.
Definition auditMsPerRecord : float64 := hundredths 16.
(** [auditMsPerRecord + ledgerDumpMsPerRecord], a constant. *)
Definition auditAndDumpMsPerRecord : float64 := hundredths 83.

(** A figure that could not be read is [None]. *)
Record HostSample := MkSample {
  SampledAt : Z; GuestLoad1 : option float64; GuestLoad5 : option float64; HostCPUPct : option float64
}.

Record PreflightInput := MkInput {
  IMode : string; IVoters : Z; IPositions : Z; ICandidates : Z; IConcurrency : Z
}.

Record PreflightWarning := MkWarning { Severity : string; Code : string; Message : goerr; Forceable : bool }.

Record PreflightReport := MkReport {
  At : Z; Run : PreflightInput;
  FabricEnabled : bool; FabricReachable : option bool; FabricPeer : string; FabricChannel : string;
  FabricError : option goerr;
  OrdererBatch : option (gmap string string);
  LadderOK : bool; LadderCommit : string; ConsoleCommit : string;
  DiskPath : string; FreeBytes : option Z; ProjectedLedgerBytes : option Z; ProjectedRunBytes : option Z;
  AvailableBytes : option Z; ProjectedAuditBytes : option Z;
  Host : HostSample; CPUs : Z;
  TimeoutSeconds : float64; LongestPhase : string; EstimatedS : option float64;
  VerifyThreadsDefault : Z; ConcurrencyMinAdvised : option Z;
  Warnings : list PreflightWarning
}.

(** [add]. *)
Definition finding (severity code f : string) (args : list goarg) : PreflightWarning :=
  MkWarning severity code (Errorf f args)
    (String.eqb severity severityBlock && bool_decide (code ∈ forceableBlocks)).

Definition is_block (w : PreflightWarning) : bool := String.eqb (Severity w) severityBlock.

Definition Blocked (p : PreflightReport) : bool := existsb is_block (Warnings p).

Definition unforceable (p : PreflightReport) : list string :=
  Code <$> filter (λ w, is_block w && negb (Forceable w) = true) (Warnings p).

(** ** Reading the host *)

(** [memAvailable], of /proc/meminfo. *)
Definition parse_uint64 (s : string) : option Z :=
  if all_digits s && (digits_value 0 s <? 2 ^ 64) then Some (digits_value 0 s) else None.

Fixpoint mem_line (lines : list string) : option Z :=
  match lines with
  | [] => None
  | l :: lines =>
      match Canvass.Fields l with
      | "MemAvailable:" :: kb :: _ => (λ kb, Gates.u64 (kb * 1024)) <$> parse_uint64 kb
      | _ => mem_line lines
      end
  end.

Definition memAvailable (meminfo : result string) : option Z :=
  match meminfo with Err _ => None | Ok data => mem_line (Jobs.Split1 Jobs.LF data) end.

(** [auditThreadsDefault]. *)
Definition auditThreadsDefault (env : string → option string) (cpus : Z) : result Z :=
  match env auditThreadsEnv with
  | Some raw =>
      match parse_uint64 (TrimPrefix (TrimSpace raw) "+") with
      | Some n =>
          if n <? 1 then Err (Errorf "%s=%q is not a positive integer thread count" [AStr auditThreadsEnv; AStr raw])
          else Ok (wrap64 n)
      | None => Err (Errorf "%s=%q is not a positive integer thread count" [AStr auditThreadsEnv; AStr raw])
      end
  | None =>
      match Atoi (TrimSpace (default "" (env "RAYON_NUM_THREADS"))) with
      | Some n => if 1 <=? n then Ok n else Ok cpus
      | None => Ok cpus
      end
  end.

Section floats.
Context `{Repeat.RepeatCodec}.

(** [sampleHost]: of /proc/loadavg, the kernel's release and, under WSL, the
    Windows host's CPU. *)
Definition in_percent (v : float64) : bool := SFleb f_zero v && SFleb v (float_of_Z 100).

Definition sampleHost (now : Z) (loadavg osrelease cpu : result string) : HostSample :=
  let '(l1, l5) :=
    match loadavg with
    | Ok data =>
        match Canvass.Fields data with
        | a :: b :: _ => (Repeat.ParseFloat a, Repeat.ParseFloat b)
        | _ => (None, None)
        end
    | Err _ => (None, None)
    end in
  let wsl := match osrelease with Ok rel => str_contains (ToLower rel) "microsoft" | Err _ => false end in
  let pct :=
    match cpu with
    | Ok out =>
        if wsl then
          match Repeat.ParseFloat (replace_char ","%char "." (TrimSpace out)) with
          | Some v => if in_percent v then Some v else None
          | None => None
          end
        else None
    | Err _ => None
    end in
  MkSample now l1 l5 pct.

(** [time.Duration(f)]. *)
Definition duration_of (f : float64) : Z := default (Repeat.wild_int f) (float_to_int f).

Definition Hour : Z := 3600 * 10 ^ 9.

(** [time.Duration.Hours]. *)
Definition Hours (d : Z) : float64 :=
  Repeat.float_add (float_of_Z (Z.quot d Hour)) (float_div (float_of_Z (Z.rem d Hour)) (float_of_Z Hour)).

(** [d.Round(time.Second)], of a positive duration. *)
Definition round_second (d : Z) : Z :=
  let r := Z.rem d (10 ^ 9) in if r + r <? 10 ^ 9 then d - r else d + 10 ^ 9 - r.

(** [longestPhase]. *)
Definition phases_of (mode : string) : list (string * float64) :=
  if String.eqb mode "onchain" then
    [("generate", genMsPerRecord); ("ballot submission", submitMsPerRecord); ("verify", auditAndDumpMsPerRecord)]
  else if String.eqb mode "offline" then [("generate", genMsPerRecord); ("verify", auditMsPerRecord)]
  else [].

Definition longestPhase (c : ElectionConfig) : string * Z :=
  let records := float_mul (float_of_Z (Voters c)) (float_of_Z (Positions c)) in
  foldl (λ best p,
    let d := duration_of (float_mul (float_mul records p.2) (float_of_Z (10 ^ 6))) in
    if best.2 <? d then (p.1, d) else best) ("", 0) (phases_of (Mode c)).

(** ** The report *)
Record probes := MkProbes {
  gates : Gates.host; fabricEnabled : bool; PeerEndpoint : string; Channel : string;
  dialFabric : option goerr; orderer_batch : option (gmap string string);
  busy : list string; sample : HostSample; cpus : Z; timeout : Z; env : string → option string; now : Z
}.

(** The configuration the checks are given: the fields the gates read. *)
Definition input_config (i : PreflightInput) : ElectionConfig :=
  MkElectionConfig "" [] 0 (IPositions i) (ICandidates i) (IVoters i) "" (IMode i) 0 0 f_zero f_zero
    None false None None.

Definition advised (p : probes) : option Z :=
  ob ← orderer_batch p;
  v ← ob !! "MaxMessageCount";
  n ← Atoi v;
  if (0 <? n) : bool then Some n else None.

Section report.
Context (p : probes) (i : PreflightInput).

Definition onchain : bool := String.eqb (IMode i) "onchain".

Definition fabric_findings : list PreflightWarning :=
  (if onchain && negb (fabricEnabled p) then
     [finding severityBlock "fabric_not_configured"
        "an on-chain run needs a Fabric network, and this console was started without one (--fabric-* flags)" []]
   else []) ++
  (if fabricEnabled p then
     match dialFabric p with
     | Some e =>
         if onchain then
           [finding severityBlock "fabric_unreachable"
              "the Fabric peer %s is not reachable (%v): an on-chain run would fail at its first ledger call"
              [AStr (PeerEndpoint p); AErr e]]
         else []
     | None => []
     end
   else []).

Definition busy_findings : list PreflightWarning :=
  match busy p with
  | [] => []
  | l => [finding severityBlock "run_busy"
            "a phase is running on %s: a campaign would share the network and the machine with it; let it finish or cancel it first"
            [AStrs l]]
  end.

Definition ladder_findings : list PreflightWarning :=
  match Gates.ladderGate (Gates.ladder (gates p)) (Gates.gitHead (gates p)) (input_config i) with
  | Some e => [finding severityBlock "ladder_missing" "%d voters is above the %d-voter ceiling: %v"
                 [AInt (IVoters i); AInt Gates.LadderVoterCeiling; AErr e]]
  | None => []
  end.

Definition disk_path : string := Gates.diskPath (Gates.PeerVolume (gates p)) (Gates.Root (gates p)) (IMode i).

(** [float64(need) > resourceWarnFraction*float64(have)]. *)
Definition tight (need have : Z) : bool :=
  SFltb (float_mul resourceWarnFraction (float_of_Z have)) (float_of_Z need).

Definition disk_findings : list PreflightWarning :=
  let '(need, what) := Gates.diskProjection (input_config i) in
  if 0 <? need then
    match Gates.diskGate (Gates.freeSpace (gates p)) (Gates.PeerVolume (gates p)) (Gates.Root (gates p))
            (input_config i) with
    | Some e => [finding severityBlock "disk_short" "%v" [AErr e]]
    | None =>
        match Gates.freeSpace (gates p) disk_path with
        | Ok free =>
            if tight need free then
              [finding severityWarn "disk_tight" "this run projects %d bytes of %s, over %.0f%% of the %d bytes free on %s"
                 [AInt need; match what with Some w => AErr w | None => AStr "" end; AFloat (float_of_Z 80);
                  AInt free; AStr disk_path]]
            else []
        | Err _ => []
        end
    end
  else [].

Definition memory_findings : list PreflightWarning :=
  let need := Gates.auditMemory (input_config i) in
  if 0 <? need then
    match Gates.memoryGate (Gates.memAvailable (gates p)) (input_config i) with
    | Some e => [finding severityBlock "memory_short" "%v" [AErr e]]
    | None =>
        match Gates.memAvailable (gates p) with
        | Some avail =>
            if tight need avail then
              [finding severityWarn "memory_tight"
                 "this run's audit projects %d bytes of memory, over %.0f%% of the %d bytes available"
                 [AInt need; AFloat (float_of_Z 80); AInt avail]]
            else []
        | None => []
        end
    end
  else [].

Definition load_findings : list PreflightWarning :=
  match GuestLoad1 (sample p) with
  | Some l =>
      if SFltb (float_mul hostLoadWarnFraction (float_of_Z (cpus p))) l then
        [finding severityWarn "host_load"
           "the 1-minute load average is %.2f, above %.0f%% of %d CPUs: something else is using this machine and will slow the run"
           [AFloat l; AFloat (float_of_Z 25); AInt (cpus p)]]
      else []
  | None => []
  end ++
  match HostCPUPct (sample p) with
  | Some v =>
      if SFltb (float_of_Z 25) v then
        [finding severityWarn "host_cpu"
           "the Windows host's CPU is at %.0f%%, above %.0f%%: a program outside WSL is using cores the run needs"
           [AFloat v; AFloat (float_of_Z 25)]]
      else []
  | None => []
  end.

Definition concurrency_findings : list PreflightWarning :=
  match advised p with
  | Some adv =>
      if onchain && (0 <? IConcurrency i) && (IConcurrency i <? adv) then
        [finding severityWarn "concurrency_low"
           "%d ballots in flight is below the orderer's MaxMessageCount %d: every block waits the batch timeout, so the run measures the timeout rather than the network"
           [AInt (IConcurrency i); AInt adv]]
      else []
  | None => []
  end.

(** Durations are in nanoseconds. *)
Definition timeout_findings : list PreflightWarning :=
  let '(name, est) := longestPhase (input_config i) in
  if (0 <? est) && (0 <? timeout p) then
    let records := wrap64 (IVoters i * IPositions i) in
    let suggest := wrap64 (Repeat.ceil_int (float_div (Hours est) phaseTimeoutWarnFraction) * Hour) in
    if timeout p <? est then
      [finding severityBlock "phase_timeout_short"
         "the %s phase is estimated at %s for %d ballot records, over this console's %s phase timeout, so it would be cancelled part-way: restart the console with --phase-timeout %s (env SAKSI_PHASE_TIMEOUT)"
         [AStr name; AInt (round_second est); AInt records; AInt (timeout p); AInt suggest]]
    else if SFltb (float_mul phaseTimeoutWarnFraction (float_of_Z (timeout p))) (float_of_Z est) then
      [finding severityWarn "phase_timeout_tight"
         "the %s phase is estimated at %s for %d ballot records, over %.0f%% of this console's %s phase timeout: a slower run is cancelled part-way, so consider --phase-timeout %s (env SAKSI_PHASE_TIMEOUT)"
         [AStr name; AInt (round_second est); AInt records; AFloat (float_of_Z 75); AInt (timeout p); AInt suggest]]
    else []
  else [].

Definition thread_findings : list PreflightWarning :=
  match auditThreadsDefault (env p) (cpus p) with
  | Err e => [finding severityBlock "verify_threads_invalid"
                "%v: the auditor refuses to start, so every run's verify would fail" [AErr e]]
  | Ok n =>
      if n =? singleVerifyThread then
        [finding severityWarn "verify_threads"
           "the auditor will verify ballots on 1 thread (%s, RAYON_NUM_THREADS or a 1-CPU host): verify timings will not compare with runs on every core"
           [AStr auditThreadsEnv]]
      else []
  end.

Definition positive (z : Z) : option Z := if 0 <? z then Some z else None.

(** [preflight]. *)
Definition preflight : PreflightReport :=
  let ladderCommit := match Gates.ladder (gates p) with Ok r => Gates.Commit r | Err _ => "" end in
  let need := (Gates.diskProjection (input_config i)).1 in
  let '(name, est) := longestPhase (input_config i) in
  let timed := (0 <? est) && (0 <? timeout p) in
  MkReport (now p) i
    (fabricEnabled p)
    (if fabricEnabled p then Some (match dialFabric p with None => true | Some _ => false end) else None)
    (PeerEndpoint p) (Channel p) (if fabricEnabled p then dialFabric p else None)
    (orderer_batch p)
    match Gates.gitHead (gates p) with
    | Some head => negb (String.eqb ladderCommit "") && String.eqb ladderCommit head
    | None => false
    end
    ladderCommit (default "" (Gates.gitHead (gates p)))
    disk_path (match Gates.freeSpace (gates p) disk_path with Ok f => Some f | Err _ => None end)
    (if onchain then positive need else None) (if onchain then None else positive need)
    (Gates.memAvailable (gates p)) (positive (Gates.auditMemory (input_config i)))
    (sample p) (cpus p)
    (Repeat.Seconds (timeout p)) (if timed then name else "") (if timed then Some (Repeat.Seconds est) else None)
    (match auditThreadsDefault (env p) (cpus p) with Ok n => n | Err _ => 0 end) (advised p)
    (fabric_findings ++ busy_findings ++ ladder_findings ++ disk_findings ++ memory_findings ++ load_findings ++
     concurrency_findings ++ timeout_findings ++ thread_findings).
End report.

(** [handlePreflight]: the query's numbers. Go reads them in any order: which
    name a refusal gives is of one that is wrong. *)
Definition query_int (name raw : string) (k : Z → (Z * goerr) + PreflightInput) : (Z * goerr) + PreflightInput :=
  if String.eqb raw "" then k 0
  else match Atoi raw with
       | Some n => if n <? 0 then inl (400, Errorf "%s must be a non-negative integer" [AStr name]) else k n
       | None => inl (400, Errorf "%s must be a non-negative integer" [AStr name])
       end.

Definition handlePreflight (p : probes) (method : string) (q : string → string) : (Z * goerr) + PreflightReport :=
  if negb (String.eqb method "GET") then inl (405, Errorf "GET required" [])
  else
    let mode := if String.eqb (q "mode") "" then "onchain" else q "mode" in
    match
      query_int "voters" (q "voters") (λ v,
      query_int "positions" (q "positions") (λ ps,
      query_int "candidates" (q "candidates") (λ cs,
      query_int "concurrency" (q "concurrency") (λ k, inr (MkInput mode v ps cs k)))))
    with
    | inl e => inl e
    | inr i => inr (preflight p i)
    end.

(** ** What blocks *)
Definition hard (l : list PreflightWarning) : list string :=
  Code <$> filter (λ w, is_block w && negb (Forceable w) = true) l.

Lemma hard_app l k : hard (l ++ k) = hard l ++ hard k.
Proof. unfold hard. by rewrite filter_app, fmap_app. Qed.

Definition gate_codes : list string := ["ladder_missing"; "disk_short"; "memory_short"].

(** The gates' refusals, as codes. *)
Definition refused (h : Gates.host) (c : ElectionConfig) : list string :=
  (if Gates.ladderGate (Gates.ladder h) (Gates.gitHead h) c then ["ladder_missing"] else []) ++
  (if Gates.diskGate (Gates.freeSpace h) (Gates.PeerVolume h) (Gates.Root h) c then ["disk_short"] else []) ++
  (if Gates.memoryGate (Gates.memAvailable h) c then ["memory_short"] else []).

Lemma refused_none h c : refused h c = [] ↔ Gates.admit_gates h c = None.
Proof. unfold refused, Gates.admit_gates. by repeat case_match. Qed.

(** The gates read nothing but these fields. *)
Record runs_as (i : PreflightInput) (c : ElectionConfig) : Prop := {
  as_mode : IMode i = Mode c; as_voters : IVoters i = Voters c; as_positions : IPositions i = Positions c;
  as_candidates : ICandidates i = Candidates c
}.

Lemma refused_as h i c : runs_as i c → refused h (input_config i) = refused h c.
Proof. destruct i, c. intros [? ? ? ?]. cbn in *. by subst. Qed.

Lemma longestPhase_as i c : runs_as i c → longestPhase (input_config i) = longestPhase c.
Proof. destruct i, c. intros [? ? ? ?]. cbn in *. by subst. Qed.

Lemma projection_nonneg c : 0 ≤ (Gates.diskProjection c).1.
Proof.
  unfold Gates.diskProjection, Gates.u64. repeat case_match; cbn; try lia; apply Z_mod_lt; done.
Qed.

Lemma auditMemory_nonneg c : 0 ≤ Gates.auditMemory c.
Proof. unfold Gates.auditMemory, Gates.u64. repeat case_match; try lia; apply Z_mod_lt; done. Qed.

Lemma hard_fabric p i :
  hard (fabric_findings p i) = if onchain i && negb (fabricEnabled p) then ["fabric_not_configured"] else [].
Proof. unfold fabric_findings. destruct (fabricEnabled p), (onchain i), (dialFabric p); reflexivity. Qed.

Lemma hard_disk p i :
  hard (disk_findings p i) =
  if Gates.diskGate (Gates.freeSpace (gates p)) (Gates.PeerVolume (gates p)) (Gates.Root (gates p)) (input_config i)
  then ["disk_short"] else [].
Proof.
  unfold disk_findings, Gates.diskGate. pose proof (projection_nonneg (input_config i)) as Hn.
  destruct (Gates.diskProjection (input_config i)) as [need what]. cbn [fst] in Hn.
  destruct (Z.ltb_spec 0 need) as [Hp|Hp], (Z.eqb_spec need 0) as [He|He]; try lia; [|done].
  destruct (Gates.freeSpace _ _) as [f|e] eqn:Ef; [destruct (need <=? f); [|reflexivity]|];
    destruct (Gates.freeSpace (gates p) (disk_path p i)); try destruct (tight _ _); reflexivity.
Qed.

Lemma hard_memory p i :
  hard (memory_findings p i) = if Gates.memoryGate (Gates.memAvailable (gates p)) (input_config i) then ["memory_short"] else [].
Proof.
  unfold memory_findings, Gates.memoryGate. pose proof (auditMemory_nonneg (input_config i)).
  destruct (Z.ltb_spec 0 (Gates.auditMemory (input_config i))) as [Hp|Hp],
    (Z.eqb_spec (Gates.auditMemory (input_config i)) 0) as [He|He]; try lia; cbn [orb].
  - destruct (Gates.memAvailable _) as [a|]; [|reflexivity]. destruct (_ <=? a); [|reflexivity].
    destruct (tight _ _); reflexivity.
  - by destruct (Gates.memAvailable _).
Qed.

Lemma hard_load p : hard (load_findings p) = [].
Proof. unfold load_findings. repeat case_match; reflexivity. Qed.

Lemma hard_concurrency p i : hard (concurrency_findings p i) = [].
Proof. unfold concurrency_findings. repeat case_match; reflexivity. Qed.

Lemma hard_timeout p i :
  hard (timeout_findings p i) =
  if (0 <? timeout p) && (timeout p <? (longestPhase (input_config i)).2) then ["phase_timeout_short"] else [].
Proof.
  unfold timeout_findings. destruct (longestPhase (input_config i)) as [name est]. cbn [snd].
  destruct (Z.ltb_spec 0 est), (Z.ltb_spec 0 (timeout p)), (Z.ltb_spec (timeout p) est); cbn [andb];
    try lia; try reflexivity; destruct (SFltb _ _); reflexivity.
Qed.

Lemma hard_threads p :
  hard (thread_findings p) = if auditThreadsDefault (env p) (cpus p) then [] else ["verify_threads_invalid"].
Proof. unfold thread_findings. destruct (auditThreadsDefault _ _) as [n|e]; [destruct (n =? _)|]; reflexivity. Qed.

(** The blocks force cannot override, of a run of [c]. *)
Definition blocks (p : probes) (c : ElectionConfig) : list string :=
  (if String.eqb (Mode c) "onchain" && negb (fabricEnabled p) then ["fabric_not_configured"] else []) ++
  (if busy p then [] else ["run_busy"]) ++
  refused (gates p) c ++
  (if (0 <? timeout p) && (timeout p <? (longestPhase c).2) then ["phase_timeout_short"] else []) ++
  (if auditThreadsDefault (env p) (cpus p) then [] else ["verify_threads_invalid"]).

Lemma unforceable_blocks p i c : runs_as i c → unforceable (preflight p i) = blocks p c.
Proof.
  intros Hi. unfold blocks. rewrite <-(refused_as _ _ _ Hi), <-(longestPhase_as _ _ Hi), <-(as_mode _ _ Hi).
  assert (Hp : Warnings (preflight p i) =
    fabric_findings p i ++ busy_findings p ++ ladder_findings p i ++ disk_findings p i ++ memory_findings p i ++
    load_findings p ++ concurrency_findings p i ++ timeout_findings p i ++ thread_findings p).
  { unfold preflight. by destruct (longestPhase (input_config i)). }
  change (unforceable (preflight p i)) with (hard (Warnings (preflight p i))).
  rewrite Hp, !hard_app, hard_fabric, hard_disk, hard_memory, hard_load, hard_concurrency, hard_timeout, hard_threads.
  unfold refused. rewrite <-!app_assoc. cbn [app]. do 2 f_equal; [by unfold busy_findings; destruct (busy p)|].
  f_equal.
  unfold ladder_findings. by destruct (Gates.ladderGate _ _ _).
Qed.

(** What a run needs of the console and its host. *)
Record ready (p : probes) (c : ElectionConfig) : Prop := {
  has_network : Mode c = "onchain" → fabricEnabled p = true;
  nothing_runs : busy p = [];
  is_admitted : Gates.admit_gates (gates p) c = None;
  in_time : 0 < timeout p → (longestPhase c).2 ≤ timeout p;
  threads_set : is_ok (auditThreadsDefault (env p) (cpus p)) = true
}.

Lemma blocks_none p c : blocks p c = [] ↔ ready p c.
Proof.
  unfold blocks. rewrite !app_nil, refused_none. split.
  - intros (H1&H2&H3&H4&H5). split.
    + intros Hm. rewrite Hm, String.eqb_refl in H1. by destruct (fabricEnabled p).
    + by destruct (busy p).
    + done.
    + intros Ht. destruct (Z.ltb_spec 0 (timeout p)); [|lia].
      by destruct (Z.ltb_spec (timeout p) (longestPhase c).2).
    + by destruct (auditThreadsDefault _ _).
  - intros [H1 -> H3 H4 H5]. split_and!; [|done|done| |].
    + destruct (String.eqb_spec (Mode c) "onchain") as [Hm|]; [by rewrite (H1 Hm)|done].
    + destruct (Z.ltb_spec 0 (timeout p)) as [Ht|]; [|done]. specialize (H4 Ht).
      destruct (Z.ltb_spec (timeout p) (longestPhase c).2); [lia|done].
    + by destruct (auditThreadsDefault _ _).
Qed.

(** The report agrees with what the console then does. It has the code of
    an admission gate, as a block that force cannot override, exactly when that
    gate refuses the run at /generate; and no such block at all exactly when
    the run is [ready]: an on-chain run has its network, nothing else runs, the
    gates admit it, its longest phase is estimated within the console's
    timeout, and the auditor's thread count is one. *)
Theorem preflight_agrees_with_gates p i c (Hi : runs_as i c) :
  filter (λ k, k ∈ gate_codes) (unforceable (preflight p i)) = refused (gates p) c ∧
  (refused (gates p) c = [] ↔ Gates.admit_gates (gates p) c = None) ∧
  (unforceable (preflight p i) = [] ↔ ready p c).
Proof.
  rewrite (unforceable_blocks _ _ _ Hi). split; [|split; [apply refused_none|apply blocks_none]].
  unfold blocks, refused. repeat case_match; reflexivity.
Qed.

End floats.

(** A thread count over the largest [int] is reported as a negative one. *)
Example threads_wrap :
  auditThreadsDefault (λ k, if String.eqb k auditThreadsEnv then Some "18446744073709551615" else None) 8 = Ok (-1).
Proof. reflexivity. Qed.
End Preflight.
