(* ===== verification/Campaign.v ===== *)
(** * Campaigns from the console

    [saksi-campaign/campaign.go]: the request that starts a campaign, the
    record of its repetitions in memory and in campaign.json, and what is read
    back of it, a console that stopped included. The driver is [Repeat], which
    reaches these operations through the transport of internal.go.

    Every operation is one critical section of the job board's lock, except
    that [endRep] finds its row in one and fills it in another. A record is
    shared by pointer between the job and its driver: [attached]. *)
From S2P Require Import Prelude GoText Config Jobs Csv Gates RunStore Exclusion Server Resume Repeat Preflight.
From stdpp Require Import sorting.
From Stdlib Require Import Ascii.
#[local] Open Scope Z_scope.
Import GoText Config.

Module Campaign.

Definition campaignFile : string := "campaign.json".

Record campaignRep := MkRow {
  Index : Z; RowKind : string; RowRun : string; RowStatus : string;
  CommittedTPS : option float64; LatencyP99Ms : option float64; RowFailed : bool; FailReason : string;
  HostStart : option Preflight.HostSample; HostEnd : option Preflight.HostSample
}.

Record campaignRecord := MkCampaign {
  CID : string; CStatus : string; CError : string; SaveError : string; CreatedAt : Z; CFinishedAt : option Z;
  CConfig : ElectionConfig; COptions : Gates.CampaignOptions; CPreflight : Preflight.PreflightReport;
  CReps : list campaignRep
}.

Definition with_status (status error : string) (r : campaignRecord) : campaignRecord :=
  MkCampaign (CID r) status error (SaveError r) (CreatedAt r) (CFinishedAt r) (CConfig r) (COptions r)
    (CPreflight r) (CReps r).

Definition with_finished (now : Z) (r : campaignRecord) : campaignRecord :=
  MkCampaign (CID r) (CStatus r) (CError r) (SaveError r) (CreatedAt r) (Some now) (CConfig r) (COptions r)
    (CPreflight r) (CReps r).

Definition with_save_error (s : string) (r : campaignRecord) : campaignRecord :=
  MkCampaign (CID r) (CStatus r) (CError r) s (CreatedAt r) (CFinishedAt r) (CConfig r) (COptions r)
    (CPreflight r) (CReps r).

Definition with_reps (l : list campaignRep) (r : campaignRecord) : campaignRecord :=
  MkCampaign (CID r) (CStatus r) (CError r) (SaveError r) (CreatedAt r) (CFinishedAt r) (CConfig r) (COptions r)
    (CPreflight r) l.

Definition with_end (s : Preflight.HostSample) (r : campaignRep) : campaignRep :=
  MkRow (Index r) (RowKind r) (RowRun r) (RowStatus r) (CommittedTPS r) (LatencyP99Ms r) (RowFailed r)
    (FailReason r) (HostStart r) (Some s).

(** [campaignDir]: the folder's name. *)
Definition campaignDir (id : string) : result string :=
  if RunStore.runIDPattern id then Ok id else Err (Errorf "invalid campaign id %q" [AStr id]).

(** ** Rows *)

(** What is read of a run's folder: perf.csv where it is there, the journal's
    text. *)
Record run_folder := MkFolder { perf_csv : option string; journal : string }.

Definition no_folder : run_folder := MkFolder None "".

Definition final (r : campaignRep) : bool :=
  String.eqb (RowStatus r) Jobs.jobDone || String.eqb (RowStatus r) Jobs.jobFailed.

Section campaign.
Context `{JobStamp} `{Repeat.RepeatCodec} (paused : string → option string) (text : goerr → string).

Definition perf_of (f : run_folder) (run : string) : option (gmap string string) :=
  data ← perf_csv f;
  match Csv.perfRowCells data run with Ok m => Some m | Err _ => None end.

(** The verdict, from perf.csv's row and the run.end event. *)
Definition row_verdict (perf : option (gmap string string)) (ended : option Resume.event) : bool * string :=
  match ended with
  | Some ev =>
      if Repeat.ev_bool ev "failed" then
        let why := Repeat.ev_string ev "reason" in (true, if String.eqb why "" then "failed" else why)
      else match perf with None => (true, "no perf.csv") | Some _ => (false, "") end
  | None => match perf with None => (true, "no perf.csv") | Some _ => (true, "run never reached run.end") end
  end.

Definition settle (f : run_folder) (r : campaignRep) : campaignRep :=
  let perf := perf_of f (RowRun r) in
  let cell := Repeat.num (default ∅ perf) in
  let '(failed, reason) := row_verdict perf (Repeat.runEndEvent (journal f)) in
  MkRow (Index r) (RowKind r) (RowRun r) (if failed then Jobs.jobFailed else Jobs.jobDone)
    (cell "committed_tps") (cell "latency_p99_ms") failed reason (HostStart r) (HostEnd r).

Definition bad_folder (e : goerr) (r : campaignRep) : campaignRep :=
  MkRow (Index r) (RowKind r) (RowRun r) Jobs.jobFailed (CommittedTPS r) (LatencyP99Ms r) true (text e)
    (HostStart r) (HostEnd r).

Definition still_running (r : campaignRep) : campaignRep :=
  MkRow (Index r) (RowKind r) (RowRun r) Jobs.jobRunning (CommittedTPS r) (LatencyP99Ms r) (RowFailed r)
    (FailReason r) (HostStart r) (HostEnd r).

(** One row of [refreshReps]; [newest]: it may still be running. *)
Definition refresh_row (folders : gmap string run_folder) (newest : bool) (r : campaignRep) : campaignRep :=
  if final r then r
  else match RunStore.Dir (RowRun r) with
  | Err e => bad_folder e r
  | Ok dir =>
      let f := default no_folder (folders !! dir) in
      if newest && (bool_decide (Repeat.runEndEvent (journal f) = None) || bool_decide (perf_of f (RowRun r) = None))
      then still_running r
      else settle f r
  end.

Definition refreshReps (folders : gmap string run_folder) (active : bool) (rec : campaignRecord) : campaignRecord :=
  with_reps (imap (λ i r, refresh_row folders (active && (Datatypes.S i =? length (CReps rec))%nat) r) (CReps rec)) rec.

(** [pendingRepIndex]. *)
Fixpoint pendingRepIndex (reps : list campaignRep) (run : string) : option nat :=
  match reps with
  | [] => None
  | r :: reps =>
      if String.eqb (RowRun r) run && negb (bool_decide (is_Some (HostEnd r))) then Some O
      else Datatypes.S <$> pendingRepIndex reps run
  end.

(** ** The request *)

(** Measured repetitions never run attacks. *)
Definition without_attacks (c : ElectionConfig) : ElectionConfig :=
  MkElectionConfig (Name c) (Trustees c) (Threshold c) (Positions c) (Candidates c) (Voters c)
    (Distribution c) (Mode c) (SenateSeats c) (Concurrency c) (SendRate c) (WindowS c) (Rep c)
    true None (FaultPlan c).

Definition options_ok (o : Gates.CampaignOptions) : result unit :=
  if (Gates.Warmups o <? 0) || (Gates.Reps o <? 0) || (Gates.Burst o <? 0) || SFltb (Gates.OWindowS o) f_zero then
    Err (Errorf "warmups, reps, burst and window_s must be >= 0" [])
  else if negb (SFeqb (Gates.Sweep o) f_zero) && SFleb (Gates.Sweep o) f_one then
    Err (Errorf "sweep must be > 1 (the per-step rate multiplier) or 0" [])
  else if (Gates.Reps o <? 1) && SFeqb (Gates.Sweep o) f_zero && (Gates.Burst o =? 0) then
    Err (Errorf "reps must be >= 1 unless sweep or burst is set" [])
  else Ok tt.

Definition burst_of (c : ElectionConfig) (o : Gates.CampaignOptions) : ElectionConfig :=
  Repeat.with_load (Gates.Burst o) (Concurrency c) f_zero f_zero c.

Definition burst_ok (c : ElectionConfig) (o : Gates.CampaignOptions) : result unit :=
  if 0 <? Gates.Burst o then
    match Validate (burst_of c o) with
    | Ok _ => Ok tt
    | Err e => Err (Errorf "burst of %d voters: %v" [AInt (Gates.Burst o); AErr e])
    end
  else Ok tt.

Definition add (w : Preflight.PreflightWarning) (p : Preflight.PreflightReport) : Preflight.PreflightReport :=
  Preflight.MkReport (Preflight.At p) (Preflight.Run p) (Preflight.FabricEnabled p) (Preflight.FabricReachable p)
    (Preflight.FabricPeer p) (Preflight.FabricChannel p) (Preflight.FabricError p) (Preflight.OrdererBatch p)
    (Preflight.LadderOK p) (Preflight.LadderCommit p) (Preflight.ConsoleCommit p) (Preflight.DiskPath p)
    (Preflight.FreeBytes p) (Preflight.ProjectedLedgerBytes p) (Preflight.ProjectedRunBytes p)
    (Preflight.AvailableBytes p) (Preflight.ProjectedAuditBytes p) (Preflight.Host p) (Preflight.CPUs p)
    (Preflight.TimeoutSeconds p) (Preflight.LongestPhase p) (Preflight.EstimatedS p)
    (Preflight.VerifyThreadsDefault p) (Preflight.ConcurrencyMinAdvised p) (Preflight.Warnings p ++ [w]).

Definition input_of (c : ElectionConfig) : Preflight.PreflightInput :=
  Preflight.MkInput (Mode c) (Voters c) (Positions c) (Candidates c) (Concurrency c).

Definition burst_findings (p : Preflight.probes) (c : ElectionConfig) (o : Gates.CampaignOptions) :
    list Preflight.PreflightWarning :=
  if 0 <? Gates.Burst o then
    match Gates.ladderGate (Gates.ladder (Preflight.gates p)) (Gates.gitHead (Preflight.gates p)) (burst_of c o) with
    | Some e => [Preflight.finding Preflight.severityBlock "ladder_missing"
                   "the burst of %d voters is above the %d-voter ceiling: %v"
                   [AInt (Gates.Burst o); AInt Gates.LadderVoterCeiling; AErr e]]
    | None => []
    end
  else [].

Definition campaign_disk_findings (free : option Z) (path : string) (c : ElectionConfig) (o : Gates.CampaignOptions) :
    list Preflight.PreflightWarning :=
  match free with
  | Some free =>
      let '(need, parts) := Gates.campaignDiskBytes c o in
      if free <? need then
        let '(what, why) :=
          if String.eqb (Mode c) "offline" then ("run folders", "every repetition keeps its run folder")
          else ("ledger", "no network reset runs between repetitions") in
        [Preflight.finding Preflight.severityBlock "disk_short"
           "this campaign projects %d bytes of %s but only %d bytes are free on %s: %s, so free space or run fewer repetitions (%s)"
           ([AInt need; AStr what; AInt free; AStr path; AStr why] ++ (AErr <$> parts))]
      else []
  | None => []
  end.

(** The preflight of a whole campaign. *)
Definition campaign_preflight (p : Preflight.probes) (c : ElectionConfig) (o : Gates.CampaignOptions) :
    Preflight.PreflightReport :=
  let pre := Preflight.preflight p (input_of c) in
  foldl (λ pre w, add w pre) pre
    (burst_findings p c o ++ campaign_disk_findings (Preflight.FreeBytes pre) (Preflight.DiskPath pre) c o).

(** The console's own part of the probes: the runs that are busy. *)
Definition console_probes (net : Exclusion.server) (p : Preflight.probes) : Preflight.probes :=
  Preflight.MkProbes (Preflight.gates p) (Preflight.fabricEnabled p) (Preflight.PeerEndpoint p) (Preflight.Channel p)
    (Preflight.dialFabric p) (Preflight.orderer_batch p) (Exclusion.busyRunsLocked paused "" net)
    (Preflight.sample p) (Preflight.cpus p) (Preflight.timeout p) (Preflight.env p) (Preflight.now p).

(** [handleCampaigns], POST, up to the claim of the job's slot. *)
Definition campaign_request (method : string) (body : result (ElectionConfig * Gates.CampaignOptions))
    (p : Preflight.probes) (net : Exclusion.server) :
    Server.chk (ElectionConfig * Gates.CampaignOptions * Preflight.PreflightReport) :=
  Server.cbind (Server.need (String.eqb method "POST") 405 (Server.say "GET or POST required")) (λ _,
  Server.cbind (Server.answer_of 400 (wrap_err (λ e, Errorf "invalid campaign body: %v" [AErr e]) body)) (λ b,
  let c := without_attacks (applyDefaults b.1) in
  let o := b.2 in
  Server.cbind (Server.answer_of 400 (Validate c)) (λ _,
  Server.cbind (Server.answer_of 400 (options_ok o)) (λ _,
  Server.cbind (Server.answer_of 400 (burst_ok c o)) (λ _,
  Server.cbind (match Jobs.running (Exclusion.board net) with
                | Some j => inl (409, (Jobs.busyResponse j).1.2)
                | None => inr tt
                end) (λ _,
  let pre := campaign_preflight (console_probes net p) c o in
  Server.cbind (match Preflight.unforceable pre with
                | [] => inr tt
                | codes => inl (409, Errorf "preflight blocks this campaign, and force cannot override %s: each fails the first /generate or every run" [AStrs codes])
                end) (λ _,
  Server.cbind (Server.need (negb (Preflight.Blocked pre) || Gates.Force o) 409
     (Server.say "preflight blocks this campaign; fix the blocking findings or pass force: true (only fabric_unreachable can be forced)")) (λ _,
  inr (c, o, pre))))))))).

(** ** The campaigns of a console *)

(** Where a campaign's goroutine is: its slot is claimed; its folder could not
    be made (with campaign.json written, or not); it is made; [Repeat] runs;
    a repetition's closing sample is being taken. *)
Inductive stage :=
| Claimed (rec : campaignRecord)
| CreateFailed (written : bool) (why : goerr)
| Created
| Driving
| Sampling (i : nat).

(** [attached]: the record each job points to. [files]: campaign.json, by
    campaign. [dirs]: the campaign folders. *)
Record world := MkWorld {
  net : Exclusion.server; attached : gmap nat campaignRecord; files : gmap string campaignRecord;
  dirs : gset string; drivers : gmap nat stage
}.

Definition new_world : world := MkWorld Exclusion.newServer ∅ ∅ ∅ ∅.

Definition board (w : world) : Jobs.jobBoard := Exclusion.board (net w).

Definition set_net (n : Exclusion.server) (w : world) : world :=
  MkWorld n (attached w) (files w) (dirs w) (drivers w).

Definition set_driver (p : nat) (s : option stage) (w : world) : world :=
  MkWorld (net w) (attached w) (files w) (dirs w) (partial_alter (λ _, s) p (drivers w)).

(** [saveCampaign]: the whole file is there, or the old one is. *)
Definition saveCampaign (err : option goerr) (rec : campaignRecord) (fs : gmap string campaignRecord) :
    gmap string campaignRecord :=
  match err with None => <[CID rec := rec]> fs | Some _ => fs end.

(** [persistCampaign]. *)
Definition save_error (now : Z) (e : goerr) : string := text (Errorf "%s: %v" [AInt now; AErr e]).

Definition persistCampaign (err : option goerr) (now : Z) (rec : campaignRecord)
    (fs : gmap string campaignRecord) : campaignRecord * gmap string campaignRecord :=
  (match err with Some e => with_save_error (save_error now e) rec | None => rec end, saveCampaign err rec fs).

(** Storing a job's record, through its pointer and on disk. *)
Definition store (err : option goerr) (now : Z) (p : nat) (rec : campaignRecord) (w : world) : world :=
  let '(rec, fs) := persistCampaign err now rec (files w) in
  MkWorld (net w) (<[p := rec]> (attached w)) fs (dirs w) (drivers w).

Definition new_record (id : string) (now : Z) (c : ElectionConfig) (o : Gates.CampaignOptions)
    (pre : Preflight.PreflightReport) : campaignRecord :=
  MkCampaign id Jobs.jobRunning "" "" now None c o pre [].

(** [handleCampaigns], POST, up to the claim: the job's number, or a refusal.
    The answer comes once the folder is made. *)
Definition handleCampaigns (now : Z) (method : string) (body : result (ElectionConfig * Gates.CampaignOptions))
    (p : Preflight.probes) (w : world) : world * ((Z * goerr) + nat) :=
  match campaign_request method body p (net w) with
  | inl refusal => (w, inl refusal)
  | inr (c, o, pre) =>
      match Exclusion.startExclusiveJob paused "campaign" now (net w) with
      | (_, inr why) => (w, inl (409, why))
      | (n, inl q) =>
          let id := match Jobs.cells (Exclusion.board n) !! q with Some j => Jobs.ID j | None => "" end in
          (set_driver q (Some (Claimed (new_record id now c o pre))) (set_net n w), inr q)
      end
  end.

(** [createCampaign] and the answer; the errors are the operating system's. *)
Definition createCampaign (mkdirErr saveErr logErr : option goerr) (p : nat) (rec : campaignRecord) (w : world) :
    world * Server.reply :=
  let failed (written : bool) (e : goerr) (w : world) :=
    (set_driver p (Some (CreateFailed written e)) w,
     Server.Refused 500 (Errorf "cannot create the campaign folder: %v" [AErr e])) in
  match campaignDir (CID rec) with
  | Err e => failed false e w
  | Ok dir =>
      match mkdirErr with
      | Some e => failed false e w
      | None =>
          let w := MkWorld (net w) (<[p := rec]> (attached w)) (saveCampaign saveErr rec (files w)) ({[dir]} ∪ dirs w)
                     (drivers w) in
          match saveErr, logErr with
          | Some e, _ => failed false e w
          | None, Some e => failed true e w
          | None, None => (set_driver p (Some Created) w, Server.Accepted 202 (CID rec) None)
          end
      end
  end.

(** [jobs.run]'s last section: the job ends, [persist] runs, the slot is free. *)
Definition end_job (p : nat) (now : Z) (err : option goerr) (saveErr : option goerr)
    (persist : option (string → string → campaignRecord → campaignRecord)) (w : world) : world :=
  let final := match persist with
               | Some f => Some (λ status error w,
                   match attached w !! p with
                   | Some rec => store saveErr now p (f status error rec) w
                   | None => w
                   end)
               | None => None
               end in
  let '(b, w) := Jobs.run_end text final p now None err (board w, w) in
  set_net (Exclusion.set_board b (net w)) (set_driver p None w).

Definition recordRep (folders : gmap string run_folder) (tag : option RepTag) (run : string)
    (start : Preflight.HostSample) (rec : campaignRecord) : campaignRecord :=
  let '(i, k) := match tag with Some t => (RepIndex t, RepKind t) | None => (0, "") end in
  let rec := refreshReps folders false rec in
  with_reps (CReps rec ++ [MkRow i k run Jobs.jobRunning None None false "" (Some start) None]) rec.

(** [endRep]'s second section. *)
Definition fill_end (folders : gmap string run_folder) (i : nat) (s : Preflight.HostSample) (rec : campaignRecord) :
    campaignRecord :=
  refreshReps folders false (with_reps (alter (with_end s) i (CReps rec)) rec).

(** The record of the job that runs under this id. *)
Definition live_record (id : string) (w : world) : option campaignRecord :=
  p ← Jobs.active (board w);
  j ← Jobs.cells (board w) !! p;
  rec ← attached w !! p;
  if String.eqb (Jobs.ID j) id then Some rec else None.

(** [loadCampaign]: the record, and whether it is the running job's. *)
Definition interrupted : string := "the console stopped while this campaign was running".

Definition loadCampaign (folders : gmap string run_folder) (now : Z) (saveErr : option goerr) (id : string) (w : world) :
    world * result (campaignRecord * bool) :=
  match campaignDir id with
  | Err e => (w, Err e)
  | Ok _ =>
      match live_record id w with
      | Some rec => (w, Ok (rec, true))
      | None =>
          match files w !! id with
          | None => (w, Err (Errorf "unknown campaign %q" [AStr id]))
          | Some rec =>
              if String.eqb (CStatus rec) Jobs.jobRunning then
                let rec := with_status Jobs.jobInterrupted interrupted (refreshReps folders false rec) in
                let '(rec, fs) := persistCampaign saveErr now rec (files w) in
                (MkWorld (net w) (attached w) fs (dirs w) (drivers w), Ok (rec, false))
              else (w, Ok (rec, false))
          end
      end
  end.

(** [listCampaigns]: the folders' campaigns, newest first. *)
Definition newer (a b : campaignRecord) : Prop := CreatedAt b ≤ CreatedAt a.

#[local] Instance newer_dec : RelDecision newer.
Proof. intros a b. unfold newer. apply _. Defined.

Fixpoint load_all (folders : gmap string run_folder) (now : Z) (saveErr : option goerr) (ids : list string) (w : world) :
    world * list campaignRecord :=
  match ids with
  | [] => (w, [])
  | id :: ids =>
      let '(w, r) := loadCampaign folders now saveErr id w in
      let '(w, l) := load_all folders now saveErr ids w in
      (w, match r with Ok (rec, active) => refreshReps folders active rec :: l | Err _ => l end)
  end.

Definition listCampaigns (folders : gmap string run_folder) (now : Z) (saveErr : option goerr) (w : world) :
    world * list campaignRecord :=
  let '(w', l) := load_all folders now saveErr (merge_sort str_le (elements (dirs w))) w in (w', merge_sort newer l).

(** [handleCampaign]: what it answers with. *)
Inductive campaign_reply :=
| Refuse (code : Z) (why : goerr)
| Show (rec : campaignRecord) (summary : list (gmap string string))
| Cancelling (id : string)
| Bundle (rec : campaignRecord).

(** [/api/campaigns/<id>/<action>]; [summary] is summary.csv, where it can be
    read. *)
Definition handleCampaign (folders : gmap string run_folder) (now : Z) (saveErr : option goerr)
    (summary : option string) (method path : string) (w : world) : world * campaign_reply :=
  let '(id, act, _) := Cut (TrimPrefix path "/api/campaigns/") "/"%char in
  let want := if String.eqb act "cancel" then "POST" else "GET" in
  if negb (String.eqb method want) then (w, Refuse 405 (Errorf "%s required" [AStr want]))
  else
    let '(w, r) := loadCampaign folders now saveErr id w in
    match r with
    | Err e => (w, Refuse 404 e)
    | Ok (rec, active) =>
        if String.eqb act "" then
          (w, Show (refreshReps folders active rec) (match summary with Some s => Csv.parseCSVRows s | None => [] end))
        else if String.eqb act "cancel" then
          let '(b, done) := Jobs.requestCancel id (board w) in
          if done : bool then (set_net (Exclusion.set_board b (net w)) w, Cancelling id)
          else (w, Refuse 409 (Errorf "campaign %s is not running" [AStr id]))
        else if String.eqb act "export" then (w, Bundle (refreshReps folders active rec))
        else (w, Refuse 404 (Errorf "404 page not found" []))
    end.

(** ** Interleavings *)

(** What happens next. [Other]: another kind of job takes or frees the slot;
    [Phases]: phases start and end; [Restart]: the console stops, and starts. *)
Inductive action :=
| Post (now : Z) (method : string) (body : result (ElectionConfig * Gates.CampaignOptions)) (p : Preflight.probes)
| Create (p : nat) (mkdirErr saveErr logErr : option goerr)
| Fail (p : nat) (now : Z) (saveErr : option goerr)
| Begin (p : nat)
| RecordRep (p : nat) (now : Z) (folders : gmap string run_folder) (tag : option RepTag) (run : string)
    (start : Preflight.HostSample) (saveErr : option goerr)
| EndRepFind (p : nat) (run : string)
| EndRepFill (p : nat) (now : Z) (folders : gmap string run_folder) (s : Preflight.HostSample) (saveErr : option goerr)
| Finish (p : nat) (now : Z) (folders : gmap string run_folder) (err saveErr : option goerr)
| Load (now : Z) (folders : gmap string run_folder) (id : string) (saveErr : option goerr)
| Cancel (id : string)
| OtherStart (kind : string) (now : Z)
| OtherEnd (p : nat) (now : Z) (err : option goerr)
| Phases (busy : gset string)
| Restart.

(** One step; [None] where the actor is not there. *)
Definition step (a : action) (w : world) : option world :=
  match a with
  | Post now method body p => Some (handleCampaigns now method body p w).1
  | Create p mkdirErr saveErr logErr =>
      match drivers w !! p with
      | Some (Claimed rec) => Some (createCampaign mkdirErr saveErr logErr p rec w).1
      | _ => None
      end
  | Fail p now saveErr =>
      match drivers w !! p with
      | Some (CreateFailed written why) =>
          Some (end_job p now (Some why) saveErr (if written then Some with_status else None)
                  (set_net (Exclusion.set_board (Jobs.run_begin p (board w)) (net w)) w))
      | _ => None
      end
  | Begin p =>
      match drivers w !! p with
      | Some Created =>
          Some (set_driver p (Some Driving) (set_net (Exclusion.set_board (Jobs.run_begin p (board w)) (net w)) w))
      | _ => None
      end
  | RecordRep p now folders tag run start saveErr =>
      match drivers w !! p, attached w !! p with
      | Some Driving, Some rec => Some (store saveErr now p (recordRep folders tag run start rec) w)
      | _, _ => None
      end
  | EndRepFind p run =>
      match drivers w !! p, attached w !! p with
      | Some Driving, Some rec =>
          match pendingRepIndex (CReps rec) run with
          | Some i => Some (set_driver p (Some (Sampling i)) w)
          | None => Some w
          end
      | _, _ => None
      end
  | EndRepFill p now folders s saveErr =>
      match drivers w !! p, attached w !! p with
      | Some (Sampling i), Some rec =>
          Some (set_driver p (Some Driving) (store saveErr now p (fill_end folders i s rec) w))
      | _, _ => None
      end
  | Finish p now folders err saveErr =>
      match drivers w !! p with
      | Some Driving =>
          Some (end_job p now err saveErr
                  (Some (λ status error rec, refreshReps folders false (with_finished now (with_status status error rec)))) w)
      | _ => None
      end
  | Load now folders id saveErr => Some (loadCampaign folders now saveErr id w).1
  | Cancel id => Some (set_net (Exclusion.set_board (Jobs.requestCancel id (board w)).1 (net w)) w)
  | OtherStart kind now => Some (set_net (Exclusion.startExclusiveJob paused kind now (net w)).1 w)
  | OtherEnd p now err =>
      match drivers w !! p with None => Some (end_job p now err None None w) | Some _ => None end
  | Phases busy => Some (set_net (Exclusion.set_busy busy (net w)) w)
  | Restart => Some (MkWorld Exclusion.newServer ∅ (files w) (dirs w) ∅)
  end.

Fixpoint run_steps (l : list action) (w : world) : option world :=
  match l with [] => Some w | a :: l => w ← step a w; run_steps l w end.
End campaign.
End Campaign.
