(* ===== verification/CampaignFacts.v ===== *)
(** * What campaigns keep

    A row that is settled stays as it is, with the verdict the driver itself
    reads; a record on disk only grows, and an ended one is never touched
    again, whatever requests, saves that fail and restarts come between. *)
From S2P Require Import Prelude GoText Config Jobs Csv Gates RunStore Exclusion Server Resume Repeat.
From S2P Require Import Preflight Campaign.
#[local] Open Scope Z_scope.
Import GoText Config Campaign.

Module CampaignFacts.

(** ** Well-formed records *)
Inductive row_ok : campaignRep → Prop :=
| row_running i k run s e : row_ok (MkRow i k run Jobs.jobRunning None None false "" s e)
| row_done i k run tps p99 s e : row_ok (MkRow i k run Jobs.jobDone tps p99 false "" s e)
| row_failed i k run tps p99 why s e :
    (∀ d, RunStore.Dir run = Ok d → why ≠ "") → row_ok (MkRow i k run Jobs.jobFailed tps p99 true why s e).

Definition statuses : list string :=
  [Jobs.jobRunning; Jobs.jobDone; Jobs.jobFailed; Jobs.jobCancelled; Jobs.jobInterrupted].

Definition all_final (l : list campaignRep) : Prop := Forall (λ r, final r = true) l.

Record rec_ok (r : campaignRecord) : Prop := {
  ok_status : CStatus r ∈ statuses;
  ok_rows : Forall row_ok (CReps r);
  ok_settled : ∀ i x, CReps r !! i = Some x → (Datatypes.S i < length (CReps r))%nat → final x = true;
  ok_ended : CStatus r ≠ Jobs.jobRunning → all_final (CReps r)
}.

(** ** Growth *)
Record same_row (x y : campaignRep) : Prop := {
  same_run : RowRun y = RowRun x ∧ Index y = Index x ∧ RowKind y = RowKind x ∧ HostStart y = HostStart x;
  same_end : ∀ s, HostEnd x = Some s → HostEnd y = Some s;
  same_final : final x = true →
    RowStatus y = RowStatus x ∧ CommittedTPS y = CommittedTPS x ∧ LatencyP99Ms y = LatencyP99Ms x ∧
    RowFailed y = RowFailed x ∧ FailReason y = FailReason x
}.

#[export] Instance same_row_preorder : PreOrder same_row.
Proof.
  split.
  - intros x. by split.
  - intros x y z [(?&?&?&?) He Hf] [(?&?&?&?) He' Hf']. split; [split_and!; congruence|auto|].
    intros Hx. destruct (Hf Hx) as (Hs&?&?&?&?).
    destruct Hf' as (?&?&?&?&?); [unfold final in *; by rewrite Hs|]. split_and!; congruence.
Qed.

Definition rows_grow (l k : list campaignRep) : Prop := ∀ i x, l !! i = Some x → ∃ y, k !! i = Some y ∧ same_row x y.

#[export] Instance rows_grow_preorder : PreOrder rows_grow.
Proof.
  split.
  - intros l i x Hx. by exists x.
  - intros l k m Hlk Hkm i x Hx. destruct (Hlk _ _ Hx) as (y&Hy&?). destruct (Hkm _ _ Hy) as (z&Hz&?).
    exists z. split; [done|]. by etrans.
Qed.

Record grows (f r : campaignRecord) : Prop := {
  grow_id : CID r = CID f ∧ CreatedAt r = CreatedAt f ∧ CConfig r = CConfig f ∧ COptions r = COptions f ∧
            CPreflight r = CPreflight f;
  grow_rows : rows_grow (CReps f) (CReps r)
}.

#[export] Instance grows_preorder : PreOrder grows.
Proof.
  split.
  - intros r. by split.
  - intros x y z [(?&?&?&?&?) ?] [(?&?&?&?&?) ?]. split; [split_and!; congruence|by etrans].
Qed.

Section facts.
Context `{JobStamp} `{Repeat.RepeatCodec} (paused : string → option string) (text : goerr → string).

(** ** Rows *)
Lemma verdict_reason perf ended : ∀ failed why,
  row_verdict perf ended = (failed, why) → (failed = true ∧ why ≠ "") ∨ (failed = false ∧ why = "").
Proof.
  unfold row_verdict. intros failed why. destruct ended as [ev|]; [|destruct perf; intros [= <- <-]; by left].
  destruct (Repeat.ev_bool ev "failed"); [|destruct perf; intros [= <- <-]; naive_solver].
  destruct (String.eqb_spec (Repeat.ev_string ev "reason") ""); intros [= <- <-]; by left.
Qed.

Lemma settled_row_ok f r : row_ok (settle f r) ∧ final (settle f r) = true.
Proof.
  unfold settle. destruct (row_verdict _ _) as [failed why] eqn:E.
  apply verdict_reason in E as [[-> Hw]|[-> ->]]; split; by constructor.
Qed.

Lemma refresh_row_ok folders newest r :
  row_ok r → row_ok (refresh_row text folders newest r) ∧ (newest = false → final (refresh_row text folders newest r) = true).
Proof.
  intros Hr. unfold refresh_row. destruct (final r) eqn:Ef; [done|].
  destruct (RunStore.Dir (RowRun r)) as [d|e] eqn:Ed.
  - destruct (newest && _) eqn:En; [|split; [apply settled_row_ok|intros; apply settled_row_ok]].
    destruct newest; [|done]. split; [|done]. destruct Hr; [constructor|done|done].
  - split; [|done]. constructor. intros d Hd. congruence.
Qed.

Lemma refresh_row_same folders newest r : same_row r (refresh_row text folders newest r).
Proof.
  unfold refresh_row. destruct (final r) eqn:Ef; [done|].
  destruct (RunStore.Dir (RowRun r)) as [d|e]; [destruct (newest && _)|].
  - by split; [|cbn|rewrite Ef].
  - unfold settle. destruct (row_verdict _ _). by split; [|cbn|rewrite Ef].
  - by split; [|cbn|rewrite Ef].
Qed.

(** ** Records *)
Lemma refresh_lookup folders active rec i :
  CReps (refreshReps text folders active rec) !! i =
  (λ r, refresh_row text folders (active && (Datatypes.S i =? length (CReps rec))%nat) r) <$> CReps rec !! i.
Proof. unfold refreshReps. cbn [CReps with_reps]. by rewrite list_lookup_imap. Qed.

Lemma refresh_grows folders active rec : grows rec (refreshReps text folders active rec).
Proof.
  split; [done|]. intros i x Hx. rewrite refresh_lookup, Hx. eexists. split; [done|]. apply refresh_row_same.
Qed.

Lemma refresh_rows_ok folders active rec :
  Forall row_ok (CReps rec) → Forall row_ok (CReps (refreshReps text folders active rec)).
Proof.
  rewrite !Forall_lookup. intros Hr i x. rewrite refresh_lookup. intros (r&Hi&->)%fmap_Some.
  apply refresh_row_ok. by eapply Hr.
Qed.

Lemma refresh_final folders rec :
  Forall row_ok (CReps rec) → all_final (CReps (refreshReps text folders false rec)).
Proof.
  unfold all_final. rewrite !Forall_lookup. intros Hr i x. rewrite refresh_lookup. intros (r&Hi&->)%fmap_Some.
  apply refresh_row_ok; [by eapply Hr|done].
Qed.

Lemma refresh_length folders active rec : length (CReps (refreshReps text folders active rec)) = length (CReps rec).
Proof. unfold refreshReps. cbn. apply length_imap. Qed.

Lemma all_final_settled l i (x : campaignRep) : all_final l → l !! i = Some x → final x = true.
Proof. unfold all_final. rewrite Forall_lookup. eauto. Qed.

Lemma record_rep_spec folders tag run start rec :
  rec_ok rec → CStatus rec = Jobs.jobRunning →
  rec_ok (recordRep text folders tag run start rec) ∧ grows rec (recordRep text folders tag run start rec).
Proof.
  intros [Hs Hr _ _] Hrun. unfold recordRep. destruct (match tag with Some _ => _ | None => _ end) as [i k].
  pose proof (refresh_final folders rec Hr) as Hf. pose proof (refresh_grows folders false rec) as [_ Hg].
  split; [split|split]; cbn [with_reps CStatus CReps CID CreatedAt CConfig COptions CPreflight]; try done.
  - apply Forall_app. split; [by apply refresh_rows_ok|]. apply Forall_singleton. constructor.
  - rewrite length_app. cbn [length]. intros j x Hx Hl. rewrite lookup_app_l in Hx by lia.
    by eapply all_final_settled.
  - intros j x Hx. destruct (Hg j x Hx) as (y&Hy&Hxy). exists y. split; [|done]. by apply lookup_app_l_Some.
Qed.

Lemma alter_end_ok i s l : Forall row_ok l → Forall row_ok (alter (with_end s) i l).
Proof.
  rewrite !Forall_lookup. intros Hl j x. destruct (decide (i = j)) as [->|Hne].
  - rewrite list_lookup_alter_eq. intros (r&Hr&->)%fmap_Some. destruct (Hl _ _ Hr); by constructor.
  - rewrite list_lookup_alter_ne by done. apply Hl.
Qed.

Lemma fill_end_spec folders i s rec r :
  rec_ok rec → CStatus rec = Jobs.jobRunning → CReps rec !! i = Some r → HostEnd r = None →
  rec_ok (fill_end text folders i s rec) ∧ grows rec (fill_end text folders i s rec).
Proof.
  intros [Hs Hr _ _] Hrun Hi He. unfold fill_end.
  set (rec' := with_reps (alter (with_end s) i (CReps rec)) rec).
  assert (Hr' : Forall row_ok (CReps rec')) by by apply alter_end_ok.
  split; [split|].
  - done.
  - by apply refresh_rows_ok.
  - intros j x Hx _. eapply all_final_settled; [|done]. by apply refresh_final.
  - done.
  - etrans; [|apply refresh_grows]. split; [done|]. intros j x Hx. cbn. destruct (decide (i = j)) as [->|Hne].
    + rewrite list_lookup_alter_eq, Hx. eexists. split; [done|]. split; [done| |done].
      intros s'. rewrite Hi in Hx. injection Hx as ->. by rewrite He.
    + rewrite list_lookup_alter_ne by done. by exists x.
Qed.

Lemma pending_spec l run i : pendingRepIndex l run = Some i → ∃ r, l !! i = Some r ∧ RowRun r = run ∧ HostEnd r = None.
Proof.
  revert i. induction l as [|r l IH]; intros i; cbn [pendingRepIndex]; [done|].
  destruct (String.eqb_spec (RowRun r) run) as [Hr|Hr]; cbn [andb].
  - case_bool_decide as He; cbn [negb].
    + intros (j&Hj&->)%fmap_Some. by apply IH.
    + intros [= <-]. exists r. split; [done|]. split; [done|]. by apply eq_None_not_Some.
  - intros (j&Hj&->)%fmap_Some. by apply IH.
Qed.

(** A record that ends: all its rows are settled. *)
Lemma ended_spec folders status rec :
  status ∈ statuses → Forall row_ok (CReps rec) → CStatus rec = status →
  rec_ok (refreshReps text folders false rec).
Proof.
  intros Hs Hr <-. split; cbn [CStatus refreshReps with_reps].
  - done.
  - by apply refresh_rows_ok.
  - intros i x Hx _. eapply all_final_settled; [|exact Hx]. by apply refresh_final.
  - intros _. by apply refresh_final.
Qed.

(** ** The console's campaigns *)
Definition named (b : Jobs.jobBoard) (p : nat) (id : string) : Prop :=
  ∃ j, Jobs.cells b !! p = Some j ∧ Jobs.ID j = id.

Record wf (w : world) : Prop := {
  wf_slot : ∀ p st, drivers w !! p = Some st → Jobs.active (board w) = Some p;
  wf_old : ∀ p, is_Some (attached w !! p) → (p ≤ Jobs.count (board w))%nat;
  wf_claimed : ∀ p rec, drivers w !! p = Some (Claimed rec) →
    attached w !! p = None ∧ named (board w) p (CID rec) ∧ CReps rec = [] ∧ CStatus rec = Jobs.jobRunning ∧
    files w !! CID rec = None ∧ (p ≤ Jobs.count (board w))%nat;
  wf_live : ∀ p st rec, drivers w !! p = Some st → attached w !! p = Some rec →
    CStatus rec = Jobs.jobRunning ∧ named (board w) p (CID rec) ∧
    ∀ f, files w !! CID rec = Some f → grows f rec ∧ CStatus f = Jobs.jobRunning;
  wf_attached : ∀ p rec, attached w !! p = Some rec → rec_ok rec;
  wf_files : ∀ id f, files w !! id = Some f → rec_ok f ∧ CID f = id;
  wf_orphan : ∀ p, Jobs.active (board w) = Some p → is_Some (attached w !! p) → is_Some (drivers w !! p);
  wf_sampling : ∀ p i, drivers w !! p = Some (Sampling i) →
    ∃ rec r, attached w !! p = Some rec ∧ CReps rec !! i = Some r ∧ HostEnd r = None;
  wf_unmade : ∀ p b e rec, drivers w !! p = Some (CreateFailed b e) → attached w !! p = Some rec → CReps rec = []
}.

(** Nothing on disk shrinks, and an ended record stays. *)
Definition files_grow (w w' : world) : Prop :=
  ∀ id f, files w !! id = Some f →
  ∃ f', files w' !! id = Some f' ∧ grows f f' ∧ (CStatus f ≠ Jobs.jobRunning → f' = f).

Lemma files_grow_same w w' : files w' = files w → files_grow w w'.
Proof. intros E id f Hf. exists f. by rewrite E. Qed.

(** The board's other operations: the slot and the ids stay. *)
Definition board_kept (b b' : Jobs.jobBoard) : Prop :=
  Jobs.active b' = Jobs.active b ∧ Jobs.count b' = Jobs.count b ∧ ∀ p id, named b p id → named b' p id.

Lemma update_named p f b q id : (∀ j, Jobs.ID (f j) = Jobs.ID j) → named b q id → named (Jobs.update p f b) q id.
Proof.
  intros Hf (j&Hj&<-). unfold named, Jobs.update. cbn [Jobs.cells]. destruct (decide (p = q)) as [->|Hne].
  - exists (f j). by rewrite lookup_alter_eq, Hj.
  - exists j. by rewrite lookup_alter_ne.
Qed.

Lemma update_kept p f b : (∀ j, Jobs.ID (f j) = Jobs.ID j) → board_kept b (Jobs.update p f b).
Proof. intros Hf. split_and!; [done..|]. intros q id. by apply update_named. Qed.

Lemma cancel_kept id b : board_kept b (Jobs.requestCancel id b).1.
Proof.
  unfold Jobs.requestCancel. destruct (Jobs.active b) as [p|]; [|by split_and!].
  destruct (Jobs.cells b !! p) as [j|]; [|by split_and!].
  destruct (String.eqb _ _); [by apply update_kept|by split_and!].
Qed.

Lemma wf_board w n : wf w → board_kept (board w) (Exclusion.board n) → wf (set_net n w).
Proof.
  intros [H1 H2 H3 H4 H5 H6 H7 H8 H9] (Ha&Hc&Hn). unfold board in *.
  split; unfold board; cbn [net attached files dirs drivers set_net]; rewrite ?Ha, ?Hc; auto.
  - intros p rec Hp. destruct (H3 p rec Hp) as (?&?&?&?&?&?). split_and!; auto.
  - intros p st rec Hp Hr. destruct (H4 p st rec Hp Hr) as (?&?&?). split_and!; auto.
Qed.

Lemma new_world_wf : wf new_world.
Proof. split; cbn; intros *; rewrite ?lookup_empty; try done; by first [intros []|intros _ []]. Qed.

(** *** The live record *)
Lemma one_driver w p q st st' : wf w → drivers w !! p = Some st → drivers w !! q = Some st' → p = q.
Proof. intros Hw Hp%(wf_slot w Hw) Hq%(wf_slot w Hw). congruence. Qed.

Lemma save_error_ok s r : rec_ok r → rec_ok (with_save_error s r).
Proof. by intros [? ? ? ?]; split. Qed.

Lemma save_error_grows s r f : grows f r → grows f (with_save_error s r).
Proof. by intros [? ?]; split. Qed.

Lemma store_wf w p st rec rec' err now :
  wf w → drivers w !! p = Some st → attached w !! p = Some rec →
  rec_ok rec' → grows rec rec' → CStatus rec' = Jobs.jobRunning →
  wf (set_driver p (Some Driving) (store text err now p rec' w)) ∧
  files_grow w (set_driver p (Some Driving) (store text err now p rec' w)).
Proof.
  intros Hw Hp Hr Hok Hg Hs. pose proof (wf_live w Hw _ _ _ Hp Hr) as (Hrun&Hn&Hf).
  set (rec2 := match err with Some e => with_save_error (save_error text now e) rec' | None => rec' end).
  assert (H2 : rec_ok rec2 ∧ grows rec rec2 ∧ CStatus rec2 = Jobs.jobRunning).
  { subst rec2. destruct err; [|done]. split_and!; [by apply save_error_ok|by apply save_error_grows|done]. }
  destruct H2 as (Hok2&Hg2&Hs2).
  assert (Hid : CID rec2 = CID rec ∧ CID rec' = CID rec) by (split; [apply Hg2|apply Hg]). destruct Hid as [Hid2 Hid'].
  assert (Hd : ∀ q st', partial_alter (λ _, Some Driving) p (drivers w) !! q = Some st' → q = p ∧ st' = Driving).
  { intros q st'. destruct (decide (p = q)) as [->|Hne].
    - rewrite lookup_partial_alter_eq. by intros [= <-].
    - rewrite lookup_partial_alter_ne by done. intros Hq. by rewrite (one_driver w _ _ _ _ Hw Hp Hq) in Hne. }
  assert (Hfile : ∀ id f, saveCampaign err rec' (files w) !! id = Some f →
    (id = CID rec ∧ f = rec' ∧ rec2 = rec') ∨ files w !! id = Some f).
  { intros id f. subst rec2. destruct err; cbn; [by right|]. rewrite Hid', lookup_insert_Some. naive_solver. }
  assert (Hst : set_driver p (Some Driving) (store text err now p rec' w) =
    MkWorld (net w) (<[p := rec2]> (attached w)) (saveCampaign err rec' (files w)) (dirs w)
      (partial_alter (λ _, Some Driving) p (drivers w))) by done.
  rewrite Hst. clear Hst. clearbody rec2. split.
  - split; cbn [net attached files dirs drivers board].
    + intros q st' [-> _]%Hd. by apply (wf_slot w Hw) in Hp.
    + intros q. destruct (decide (p = q)) as [->|Hne]; [|rewrite lookup_insert_ne by done; apply (wf_old w Hw)].
      intros _. apply (wf_old w Hw). by rewrite Hr.
    + intros q r [_ Hq]%Hd. done.
    + intros q st' r [-> ->]%Hd. rewrite lookup_insert_eq. intros [= <-]. split; [done|]. rewrite Hid2. split; [done|].
      intros f [(_&->&<-)|Hf']%Hfile; [by split|]. destruct (Hf f Hf') as [Hgf Hsf]. split; [by etrans|done].
    + intros q r. rewrite lookup_insert_Some. intros [[_ <-]|[_ Hq]]; [done|]. by eapply (wf_attached w Hw).
    + intros id f [(->&->&_)|Hf']%Hfile; [done|]. by apply (wf_files w Hw).
    + intros q Hq _. apply (wf_slot w Hw) in Hp. unfold board in *. cbn in *.
      assert (q = p) as -> by congruence. by rewrite lookup_partial_alter_eq.
    + intros q i [_ Hq]%Hd. done.
    + intros q b e r [_ Hq]%Hd. done.
  - intros id f Hif. cbn [files]. destruct (wf_files w Hw _ _ Hif) as [_ Hidf].
    destruct (decide (id = CID rec)) as [E|Hne].
    + rewrite E in Hif. destruct (Hf f Hif) as [Hgf Hsf]. destruct err; cbn.
      * exists f. rewrite E. by repeat split.
      * exists rec'. rewrite Hid', E, lookup_insert_eq. split; [done|]. split; [by etrans|]. done.
    + exists f. destruct err; cbn; [done|]. rewrite Hid', lookup_insert_ne by done. done.
Qed.

(** *** A job that ends *)
Lemma run_end_board {P} (f : option (string → string → P → P)) p now r e b (x : P) :
  let b' := (Jobs.run_end text f p now r e (b, x)).1 in
  Jobs.active b' = (if decide (Jobs.active b = Some p) then None else Jobs.active b) ∧ Jobs.count b' = Jobs.count b ∧
  ∀ q id, named b q id → named b' q id.
Proof.
  cbn. split; [done|]. split; [done|]. intros q id Hq.
  destruct (update_named p (Jobs.set_finished text now r e) b q id (Jobs.set_finished_id text now r e) Hq) as (j&?&?).
  by exists j.
Qed.

Lemma driver_gone w p q st : partial_alter (λ _, None) p (drivers w) !! q = Some st → q ≠ p ∧ drivers w !! q = Some st.
Proof.
  destruct (decide (p = q)) as [->|Hne]; [by rewrite lookup_partial_alter_eq|].
  rewrite lookup_partial_alter_ne by done. auto.
Qed.

(** Its goroutine is gone and its record stays as it is. *)
Lemma drop_wf w p b' :
  wf w → Jobs.active b' = (if decide (Jobs.active (board w) = Some p) then None else Jobs.active (board w)) →
  Jobs.count b' = Jobs.count (board w) → (∀ q id, named (board w) q id → named b' q id) →
  wf (set_net (Exclusion.set_board b' (net w)) (set_driver p None w)).
Proof.
  intros Hw Ha Hc Hn.
  assert (Hd : ∀ q st, partial_alter (λ _, None) p (drivers w) !! q = Some st →
    drivers w !! q = Some st ∧ Jobs.active b' = Some q).
  { intros q st [Hne Hq]%driver_gone. split; [done|]. rewrite Ha. pose proof (wf_slot w Hw _ _ Hq) as Hs.
    rewrite Hs. rewrite decide_False; [done|]. congruence. }
  destruct Hw as [H1 H2 H3 H4 H5 H6 H7 H8 H9].
  split; unfold board; cbn [net attached files dirs drivers set_net set_driver Exclusion.board Exclusion.set_board]; auto.
  - intros q st [_ Hq]%Hd. done.
  - intros q Hq. rewrite Hc. by apply H2.
  - intros q rec [Hq _]%Hd. destruct (H3 q rec Hq) as (?&?&?&?&?&?). split_and!; rewrite ?Hc; auto.
  - intros q st rec [Hq _]%Hd Hr. destruct (H4 q st rec Hq Hr) as (?&?&?). split_and!; auto.
  - intros q Hq Hat. rewrite Ha in Hq. case_decide as Hp; [done|]. destruct (H7 q Hq Hat) as [st Hst].
    exists st. rewrite lookup_partial_alter_ne; [done|]. congruence.
  - intros q i [Hq _]%Hd. by apply H8.
  - intros q b e rec [Hq _]%Hd. by apply (H9 q b e).
Qed.

(** Its record is the last it will be. *)
Lemma finish_wf w p st rec rec' err now b' :
  wf w → drivers w !! p = Some st → attached w !! p = Some rec → rec_ok rec' → grows rec rec' →
  Jobs.active b' = (if decide (Jobs.active (board w) = Some p) then None else Jobs.active (board w)) →
  Jobs.count b' = Jobs.count (board w) →
  wf (set_net (Exclusion.set_board b' (net w)) (set_driver p None (store text err now p rec' w))) ∧
  files_grow w (set_net (Exclusion.set_board b' (net w)) (set_driver p None (store text err now p rec' w))).
Proof.
  intros Hw Hp Hr Hok Hg Ha Hc. pose proof (wf_live w Hw _ _ _ Hp Hr) as (Hrun&Hn&Hf).
  rewrite decide_True in Ha by by apply (wf_slot w Hw) in Hp.
  assert (Hid' : CID rec' = CID rec) by apply Hg.
  assert (Hd : ∀ q st', partial_alter (λ _, None) p (drivers w) !! q = Some st' → False).
  { intros q st' [Hne Hq]%driver_gone. apply Hne. by eapply one_driver. }
  set (rec2 := match err with Some e => with_save_error (save_error text now e) rec' | None => rec' end).
  assert (Hok2 : rec_ok rec2) by (subst rec2; destruct err; [by apply save_error_ok|done]).
  assert (Hst : set_net (Exclusion.set_board b' (net w)) (set_driver p None (store text err now p rec' w)) =
    MkWorld (Exclusion.set_board b' (net w)) (<[p := rec2]> (attached w)) (saveCampaign err rec' (files w)) (dirs w)
      (partial_alter (λ _, None) p (drivers w))) by done.
  rewrite Hst. clear Hst. clearbody rec2. split.
  - split; unfold board; cbn [net attached files dirs drivers Exclusion.board Exclusion.set_board]; rewrite ?Ha, ?Hc; try done.
    + intros q st' []%Hd.
    + intros q. destruct (decide (p = q)) as [->|Hne]; [|rewrite lookup_insert_ne by done; apply (wf_old w Hw)].
      intros _. apply (wf_old w Hw). by rewrite Hr.
    + intros q r []%Hd.
    + intros q st' r []%Hd.
    + intros q r. rewrite lookup_insert_Some. intros [[_ <-]|[_ Hq]]; [done|]. by eapply (wf_attached w Hw).
    + intros id f. destruct err; cbn; [by apply (wf_files w Hw)|]. rewrite lookup_insert_Some.
      intros [[<- <-]|[_ Hf']]; [done|]. by apply (wf_files w Hw).
    + intros q i []%Hd.
    + intros q b e r []%Hd.
  - intros id f Hif. cbn [files]. destruct (decide (id = CID rec)) as [->|Hne].
    + destruct (Hf f Hif) as [Hgf Hsf]. destruct err; cbn; [by exists f|].
      exists rec'. rewrite Hid', lookup_insert_eq. split; [done|]. split; [by etrans|]. done.
    + exists f. destruct err; cbn; [done|]. rewrite Hid', lookup_insert_ne by done. done.
Qed.

(** *** Reading a campaign *)
Lemma live_record_driver w p st rec id :
  wf w → drivers w !! p = Some st → attached w !! p = Some rec → CID rec = id → live_record id w = Some rec.
Proof.
  intros Hw Hp Hr <-. pose proof (wf_live w Hw _ _ _ Hp Hr) as (_&(j&Hj&Hid)&_). apply (wf_slot w Hw) in Hp.
  unfold live_record, board in *. rewrite Hp. cbn. rewrite Hj. cbn. rewrite Hr. cbn. by rewrite Hid, String.eqb_refl.
Qed.

Lemma interrupted_ok folders f :
  rec_ok f → rec_ok (with_status Jobs.jobInterrupted interrupted (refreshReps text folders false f)) ∧
  grows f (with_status Jobs.jobInterrupted interrupted (refreshReps text folders false f)).
Proof.
  intros Hf. split.
  - apply (ended_spec folders Jobs.jobInterrupted (with_status Jobs.jobInterrupted interrupted f)); [|apply Hf|done].
    unfold statuses. set_solver.
  - destruct (refresh_grows folders false f). by split.
Qed.

Lemma load_wf folders now err id w :
  wf w → wf (loadCampaign text folders now err id w).1 ∧ files_grow w (loadCampaign text folders now err id w).1.
Proof.
  intros Hw. unfold loadCampaign. destruct (campaignDir id); [|by split; [|apply files_grow_same]].
  destruct (live_record id w) eqn:El; [by split; [|apply files_grow_same]|].
  destruct (files w !! id) as [f|] eqn:Ef; [|by split; [|apply files_grow_same]].
  destruct (String.eqb_spec (CStatus f) Jobs.jobRunning) as [Es|Es]; [|by split; [|apply files_grow_same]].
  destruct (wf_files w Hw _ _ Ef) as [Hok <-]. destruct (interrupted_ok folders f Hok) as [Hok' Hg'].
  set (f' := with_status Jobs.jobInterrupted interrupted (refreshReps text folders false f)) in *.
  cbn [fst persistCampaign]. destruct err as [e|]; cbn [saveCampaign fst]; [by destruct w; split; [|apply files_grow_same]|].
  change (CID f') with (CID f).
  assert (Hlive : ∀ p st rec, drivers w !! p = Some st → attached w !! p = Some rec → CID rec ≠ CID f).
  { intros p st rec Hp Hr Hid. rewrite (live_record_driver w p st rec _ Hw Hp Hr Hid) in El. done. }
  split.
  - destruct Hw as [H1 H2 H3 H4 H5 H6 H7 H8 H9]. split; unfold board in *; cbn [net attached files dirs drivers]; auto.
    + intros p rec Hp. destruct (H3 p rec Hp) as (?&?&?&?&Hn&?). split_and!; auto. rewrite lookup_insert_ne; [done|].
      intros Hid. rewrite Hid in Ef. congruence.
    + intros p st rec Hp Hr. destruct (H4 p st rec Hp Hr) as (?&?&Hf). split_and!; auto.
      rewrite lookup_insert_ne; [done|]. intros Hid. by apply (Hlive p st rec Hp Hr).
    + intros id g. rewrite lookup_insert_Some. intros [[<- <-]|[_ Hg]]; [done|by apply H6].
  - intros id g Hg. cbn [files]. destruct (decide (id = CID f)) as [->|Hne].
    + exists f'. rewrite lookup_insert_eq. assert (g = f) as -> by congruence. done.
    + exists g. by rewrite lookup_insert_ne.
Qed.

(** *** A job that starts *)
Lemma fresh_ok rec : CReps rec = [] → CStatus rec = Jobs.jobRunning → rec_ok rec.
Proof.
  intros Hr Hs. split; rewrite ?Hr, ?Hs; [unfold statuses; set_solver|constructor|intros i x; by rewrite lookup_nil|done].
Qed.

Lemma exclusive_start kind now n n' p :
  Exclusion.startExclusiveJob paused kind now n = (n', inl p) →
  Jobs.active (Exclusion.board n) = None ∧ p = Datatypes.S (Jobs.count (Exclusion.board n)) ∧
  Jobs.active (Exclusion.board n') = Some p ∧ Jobs.count (Exclusion.board n') = p ∧
  Jobs.cells (Exclusion.board n') =
    <[p := Jobs.new_job (Jobs.job_id kind now p) kind now]> (Jobs.cells (Exclusion.board n)).
Proof.
  unfold Exclusion.startExclusiveJob, Jobs.start. destruct (Jobs.running _); [done|].
  destruct (Exclusion.busyRunsLocked _ _ _); [|done].
  destruct (Jobs.active (Exclusion.board n)) as [q|]; intros [= <- <-]. done.
Qed.

Lemma exclusive_refused kind now n n' why : Exclusion.startExclusiveJob paused kind now n = (n', inr why) → n' = n.
Proof.
  unfold Exclusion.startExclusiveJob. destruct (Jobs.running _); [by intros [= <- _]|].
  destruct (Exclusion.busyRunsLocked _ _ _); [|by intros [= <- _]].
  destruct (Jobs.start _ _ _) as [b [q|q]]; by intros [= <- _].
Qed.

(** A new job's number is no record's, and no goroutine's. *)
Lemma start_wf w kind now n' p (st : option campaignRecord) :
  wf w → Exclusion.startExclusiveJob paused kind now (net w) = (n', inl p) →
  (∀ rec, st = Some rec → CID rec = Jobs.job_id kind now p ∧ CReps rec = [] ∧ CStatus rec = Jobs.jobRunning ∧
     files w !! CID rec = None) →
  wf (set_net n' (match st with Some rec => set_driver p (Some (Claimed rec)) w | None => w end)).
Proof.
  intros Hw (Ha&->&Ha'&Hc'&Hcells)%exclusive_start Hst. set (p := Datatypes.S _) in *.
  assert (Hno : ∀ q s, drivers w !! q = Some s → False).
  { intros q s Hq%(wf_slot w Hw). unfold board in Hq. congruence. }
  assert (Hat : attached w !! p = None).
  { destruct (attached w !! p) eqn:E; [|done]. pose proof (wf_old w Hw p ltac:(by rewrite E)) as Hl. unfold board in Hl. lia. }
  destruct Hw as [H1 H2 H3 H4 H5 H6 H7 H8 H9].
  assert (Hd : ∀ q s, drivers (match st with Some rec => set_driver p (Some (Claimed rec)) w | None => w end) !! q = Some s →
    q = p ∧ ∃ rec, st = Some rec ∧ s = Claimed rec).
  { intros q s. destruct st as [rec|]; [|by intros []%Hno]. cbn. destruct (decide (p = q)) as [<-|Hne].
    - rewrite lookup_partial_alter_eq. intros [= <-]. eauto.
    - rewrite lookup_partial_alter_ne by done. by intros []%Hno. }
  assert (Hsame : ∀ (w' : world), w' = match st with Some rec => set_driver p (Some (Claimed rec)) w | None => w end →
    attached w' = attached w ∧ files w' = files w) by (intros w' ->; by destruct st).
  destruct (Hsame _ eq_refl) as [Hatt Hfil].
  split; unfold board; cbn [net attached files dirs drivers set_net]; rewrite ?Hatt, ?Hfil; auto.
  - by intros q s [-> _]%Hd.
  - intros q Hq. rewrite Hc'. apply H2 in Hq. unfold board in Hq. lia.
  - intros q rec [-> (r&Hr&[= <-])]%Hd. destruct (Hst _ Hr) as (Hid&?&?&?). split_and!; try done; [|by rewrite Hc'].
    exists (Jobs.new_job (Jobs.job_id kind now p) kind now). by rewrite Hcells, lookup_insert_eq, Hid.
  - intros q s rec [-> _]%Hd Hr. congruence.
  - intros q. rewrite Ha'. intros [= <-]. rewrite Hat. by intros [].
  - intros q i [_ (?&_&?)]%Hd. done.
  - intros q b e rec [_ (?&_&?)]%Hd. done.
Qed.

(** The folder is made, or not. *)
Lemma create_wf mkdirErr saveErr logErr p rec w :
  wf w → drivers w !! p = Some (Claimed rec) →
  wf (createCampaign mkdirErr saveErr logErr p rec w).1 ∧ files_grow w (createCampaign mkdirErr saveErr logErr p rec w).1.
Proof.
  intros Hw Hp. destruct (wf_claimed w Hw _ _ Hp) as (Hat&Hn&Hreps&Hrun&Hnf&Hl).
  pose proof (fresh_ok rec Hreps Hrun) as Hok.
  assert (Hd : ∀ s q st, partial_alter (λ _, Some s) p (drivers w) !! q = Some st → q = p ∧ st = s).
  { intros s q st. destruct (decide (p = q)) as [->|Hne].
    - rewrite lookup_partial_alter_eq. by intros [= <-].
    - rewrite lookup_partial_alter_ne by done. intros Hq. by rewrite (one_driver w _ _ _ _ Hw Hp Hq) in Hne. }
  assert (Hgen : ∀ s att' fs' ds, (∀ r, s ≠ Claimed r) → (∀ i, s ≠ Sampling i) →
    (att' = attached w ∧ fs' = files w ∨ att' = <[p := rec]> (attached w) ∧ (fs' = files w ∨ fs' = <[CID rec := rec]> (files w))) →
    wf (MkWorld (net w) att' fs' ds (partial_alter (λ _, Some s) p (drivers w))) ∧
    files_grow w (MkWorld (net w) att' fs' ds (partial_alter (λ _, Some s) p (drivers w)))).
  { intros s att' fs' ds Hs1 Hs2 Hcase.
    assert (Hatt : ∀ q r, att' !! q = Some r → q = p ∧ r = rec ∨ attached w !! q = Some r).
    { intros q r. destruct Hcase as [[-> _]|[-> _]]; [by right|]. rewrite lookup_insert_Some. naive_solver. }
    assert (Hfs : ∀ id f, fs' !! id = Some f → id = CID rec ∧ f = rec ∨ files w !! id = Some f).
    { intros id f. destruct Hcase as [[_ ->]|[_ [->| ->]]]; [by right..|]. rewrite lookup_insert_Some. naive_solver. }
    split.
    - split; unfold board; cbn [net attached files dirs drivers].
      + intros q st [-> _]%Hd. by eapply (wf_slot w Hw).
      + intros q [r [[-> _]|Hq]%Hatt]; [done|apply (wf_old w Hw); by rewrite Hq].
      + intros q r [_ Hq]%Hd. by destruct (Hs1 r).
      + intros q st r [-> _]%Hd [[_ ->]|Hq]%Hatt; [|congruence]. split; [done|]. split; [done|].
        intros f [[_ ->]|Hf]%Hfs; [done|congruence].
      + intros q r [[_ ->]|Hq]%Hatt; [done|by eapply (wf_attached w Hw)].
      + intros id f [[-> ->]|Hf]%Hfs; [done|by apply (wf_files w Hw)].
      + intros q Hq _. apply (wf_slot w Hw) in Hp. assert (q = p) as -> by (unfold board in *; congruence).
        by rewrite lookup_partial_alter_eq.
      + intros q i [_ Hq]%Hd. by destruct (Hs2 i).
      + intros q b e r [-> _]%Hd [[_ ->]|Hq]%Hatt; [done|congruence].
    - intros id f Hf. cbn [files]. exists f. split; [|done]. destruct Hcase as [[_ ->]|[_ [->| ->]]]; [done..|].
      rewrite lookup_insert_ne; [done|]. intros Hid. rewrite Hid in Hnf. congruence. }
  unfold createCampaign. destruct (campaignDir (CID rec)) as [dir|e].
  2: { apply Hgen; [done|done|by left]. }
  destruct mkdirErr as [e|]; [apply Hgen; [done|done|by left]|].
  destruct saveErr as [e|]; [apply Hgen; [done|done|right; by auto]|].
  destruct logErr as [e|]; apply Hgen; (done || (right; by auto)).
Qed.

(** *** Any step *)
Lemma run_end_persist {P} (f : string → string → P → P) p now r e b (x : P) j :
  Jobs.cells b !! p = Some j →
  (Jobs.run_end text (Some f) p now r e (b, x)).2 =
  f (Jobs.Status (Jobs.set_finished text now r e j)) (Jobs.JError (Jobs.set_finished text now r e j)) x.
Proof. intros Hj. cbn. by rewrite lookup_alter_eq, Hj. Qed.

Lemma finished_status now r e j : Jobs.Status (Jobs.set_finished text now r e j) ∈ statuses.
Proof.
  unfold Jobs.set_finished, statuses. destruct e as [e|]; [destruct (Jobs.errors_is _ _)|]; cbn; set_solver.
Qed.

Lemma end_job_none w p now err se : wf w → wf (end_job text p now err se None w) ∧ files_grow w (end_job text p now err se None w).
Proof.
  intros Hw. unfold end_job. pose proof (run_end_board (P := world) None p now None err (board w) w) as (Ha&Hc&Hn).
  cbn -[board] in Ha, Hc, Hn. cbn -[board]. split; [|by apply files_grow_same]. by apply drop_wf.
Qed.

Lemma end_job_record w p st rec now err se (f : string → string → campaignRecord → campaignRecord) :
  wf w → drivers w !! p = Some st → attached w !! p = Some rec →
  (∀ status error, status ∈ statuses → rec_ok (f status error rec) ∧ grows rec (f status error rec)) →
  wf (end_job text p now err se (Some f) w) ∧ files_grow w (end_job text p now err se (Some f) w).
Proof.
  intros Hw Hp Hr Hf. destruct (wf_live w Hw _ _ _ Hp Hr) as (_&(j&Hj&_)&_). unfold end_job.
  set (F := λ (status error : string) (w : world), match attached w !! p with
                                 | Some rec => store text se now p (f status error rec) w | None => w end).
  pose proof (run_end_board (Some F) p now None err (board w) w) as (Ha&Hc&_).
  pose proof (run_end_persist F p now None err (board w) w j Hj) as Hx.
  destruct (Jobs.run_end text (Some F) p now None err (board w, w)) as [b' w'] eqn:E. cbn [fst snd] in *.
  unfold F in Hx. rewrite Hr in Hx. subst w'.
  destruct (Hf _ (Jobs.JError (Jobs.set_finished text now None err j)) (finished_status now None err j)) as [Hok Hg].
  pose proof (finish_wf w p st rec _ se now b' Hw Hp Hr Hok Hg Ha Hc) as Hfin. exact Hfin.
Qed.

Lemma end_job_unattached w p now err se f :
  attached w !! p = None → end_job text p now err se (Some f) w = end_job text p now err se None w.
Proof.
  intros Hr. unfold end_job, Jobs.run_end. cbn [fst snd]. rewrite Hr. by destruct (Jobs.cells _ !! p).
Qed.

Lemma set_driver_same p st w : drivers w !! p = Some st → set_driver p (Some st) w = w.
Proof.
  intros Hp. unfold set_driver. replace (partial_alter _ p (drivers w)) with (drivers w); [by destruct w|].
  symmetry. rewrite <-Hp. apply partial_alter_self.
Qed.

(** Ids are not reused: they carry the second of the start, and the job's
    number in its process. *)
Definition fresh (a : action) (w : world) : Prop :=
  ∀ now m b p, a = Post now m b p →
  files w !! Jobs.job_id "campaign" now (Datatypes.S (Jobs.count (board w))) = None.

Lemma post_wf now m b p w :
  wf w → fresh (Post now m b p) w →
  wf (handleCampaigns paused now m b p w).1 ∧ files (handleCampaigns paused now m b p w).1 = files w.
Proof.
  intros Hw Hfr. unfold handleCampaigns. destruct (campaign_request _ _ _ _ _) as [r|[[c o] pre]]; [done|].
  destruct (Exclusion.startExclusiveJob paused "campaign" now (net w)) as [n' [q|why]] eqn:E; [|done].
  split; [|done]. cbn [fst]. pose proof (exclusive_start _ _ _ _ _ E) as (_&Hq&_&_&Hcells).
  rewrite Hcells, lookup_insert_eq. cbn [Jobs.ID Jobs.new_job].
  change (set_driver q ?s (set_net n' w)) with (set_net n' (set_driver q s w)).
  apply (start_wf w "campaign" now n' q (Some _) Hw E). intros rec [= <-]. split_and!; [done..|].
  cbn [CID new_record]. rewrite Hq. by apply (Hfr now m b p).
Qed.

Lemma created_wf w p s : wf w → (∃ st, drivers w !! p = Some st) → s ≠ None →
  (∀ st, s = Some st → (∀ r, st ≠ Claimed r) ∧ (∀ b e, st ≠ CreateFailed b e) ∧
     ∀ i, st = Sampling i → ∃ rec r, attached w !! p = Some rec ∧ CReps rec !! i = Some r ∧ HostEnd r = None) →
  wf (set_driver p s w).
Proof.
  intros Hw [st0 Hp] Hs Hst. destruct s as [st|]; [|done]. destruct (Hst st eq_refl) as (Hc&Hf&Hi).
  assert (Hd : ∀ q st', partial_alter (λ _, Some st) p (drivers w) !! q = Some st' → q = p ∧ st' = st).
  { intros q st'. destruct (decide (p = q)) as [->|Hne].
    - rewrite lookup_partial_alter_eq. by intros [= <-].
    - rewrite lookup_partial_alter_ne by done. intros Hq. by rewrite (one_driver w _ _ _ _ Hw Hp Hq) in Hne. }
  destruct Hw as [H1 H2 H3 H4 H5 H6 H7 H8 H9].
  split; unfold board; cbn [net attached files dirs drivers set_driver]; auto.
  - intros q st' [-> _]%Hd. by eapply H1.
  - intros q r [_ Hq]%Hd. by destruct (Hc r).
  - intros q st' r [-> _]%Hd Hr. by eapply H4.
  - intros q Hq _. apply H1 in Hp. assert (q = p) as -> by (unfold board in *; congruence).
    by rewrite lookup_partial_alter_eq.
  - intros q i [-> Hq]%Hd. by apply Hi.
  - intros q b e r [_ Hq]%Hd. by destruct (Hf b e).
Qed.

Lemma campaign_step_wf a w w' : wf w → fresh a w → step paused text a w = Some w' → wf w' ∧ files_grow w w'.
Proof.
  intros Hw Hfr. destruct a; cbn [step].
  - intros [= <-]. destruct (post_wf _ _ _ _ _ Hw Hfr) as [? ?]. split; [done|by apply files_grow_same].
  - destruct (drivers w !! p) as [[| | | |]|] eqn:Hp; try done. intros [= <-]. by apply create_wf.
  - destruct (drivers w !! p) as [[|written why| | |]|] eqn:Hp; try done. intros [= <-].
    set (w0 := set_net _ w). assert (Hw0 : wf w0) by (apply wf_board; [done|by apply update_kept]).
    change (files_grow w) with (files_grow w0).
    destruct written; [|by apply end_job_none]. destruct (attached w !! p) as [rec|] eqn:Hr.
    + eapply end_job_record; [done|exact Hp|exact Hr|]. intros status error Hs.
      pose proof (wf_unmade w Hw _ _ _ _ Hp Hr) as He. split; [|by split].
      split; cbn; rewrite ?He; [done|constructor|intros i x; by rewrite lookup_nil|constructor].
    + rewrite end_job_unattached by done. by apply end_job_none.
  - destruct (drivers w !! p) as [[| | | |]|] eqn:Hp; try done. intros [= <-]. split; [|by apply files_grow_same].
    set (w0 := set_net _ w). assert (Hw0 : wf w0) by (apply wf_board; [done|by apply update_kept]).
    apply (created_wf w0 p (Some Driving)); [done|by exists Created|done|]. by intros st [= <-].
  - destruct (drivers w !! p) as [[| | | |]|] eqn:Hp; try done. destruct (attached w !! p) as [rec|] eqn:Hr; [|done].
    intros [= <-]. destruct (wf_live w Hw _ _ _ Hp Hr) as (Hs&_&_).
    destruct (record_rep_spec folders tag run start rec (wf_attached w Hw _ _ Hr) Hs) as [Hok Hg].
    assert (Hs' : CStatus (recordRep text folders tag run start rec) = Jobs.jobRunning).
    { unfold recordRep. by destruct tag. }
    pose proof (store_wf w p _ rec _ saveErr now Hw Hp Hr Hok Hg Hs') as Hst.
    rewrite set_driver_same in Hst; [exact Hst|]. exact Hp.
  - destruct (drivers w !! p) as [[| | | |]|] eqn:Hp; try done. destruct (attached w !! p) as [rec|] eqn:Hr; [|done].
    destruct (pendingRepIndex (CReps rec) run) as [i|] eqn:Ei; intros [= <-]; [|by split; [|apply files_grow_same]].
    apply pending_spec in Ei as (r&Hi&_&He). split; [|by apply files_grow_same].
    apply created_wf; [done|by exists Driving|done|]. intros st [= <-]. split; [done|]. split; [done|].
    intros k [= <-]. by exists rec, r.
  - destruct (drivers w !! p) as [[| | | |i]|] eqn:Hp; try done. destruct (attached w !! p) as [rec|] eqn:Hr; [|done].
    intros [= <-]. destruct (wf_live w Hw _ _ _ Hp Hr) as (Hs'&_&_).
    destruct (wf_sampling w Hw _ _ Hp) as (rec'&r&Hr'&Hi&He). assert (rec' = rec) as -> by congruence.
    destruct (fill_end_spec folders i s rec r (wf_attached w Hw _ _ Hr) Hs' Hi He) as [Hok Hg].
    by eapply store_wf.
  - destruct (drivers w !! p) as [[| | | |]|] eqn:Hp; try done. intros [= <-].
    destruct (attached w !! p) as [rec|] eqn:Hr.
    + eapply end_job_record; [done|exact Hp|exact Hr|]. intros status error Hs. split.
      * eapply ended_spec; [exact Hs|apply (wf_attached w Hw _ _ Hr)|done].
      * etrans; [|apply refresh_grows]. by split.
    + rewrite end_job_unattached by done. by apply end_job_none.
  - intros [= <-]. by apply load_wf.
  - intros [= <-]. split; [|by apply files_grow_same]. apply wf_board; [done|]. apply cancel_kept.
  - intros [= <-]. destruct (Exclusion.startExclusiveJob paused kind now (net w)) as [n' [q|why]] eqn:E.
    + split; [|by apply files_grow_same]. by apply (start_wf w kind now n' q None Hw E).
    + apply exclusive_refused in E as ->. split; [|by apply files_grow_same]. by apply wf_board.
  - destruct (drivers w !! p) as [st|] eqn:Hp; [done|]. intros [= <-]. by apply end_job_none.
  - intros [= <-]. split; [|by apply files_grow_same]. by apply wf_board.
  - intros [= <-]. split; [|by apply files_grow_same]. destruct Hw as [_ _ _ _ _ H6 _ _ _].
    split; cbn; intros *; rewrite ?lookup_empty; try done; first [apply H6|by intros []|by intros _ []].
Qed.

Inductive reachable : world → Prop :=
| reachable_new : reachable new_world
| reachable_step w a w' : reachable w → fresh a w → step paused text a w = Some w' → reachable w'.

Lemma reachable_wf w : reachable w → wf w.
Proof. induction 1; [apply new_world_wf|]. by eapply campaign_step_wf. Qed.

(** What a reader is given. *)
Lemma load_spec w folders now err id rec active :
  wf w → (loadCampaign text folders now err id w).2 = Ok (rec, active) →
  rec_ok rec ∧ CID rec = id ∧ (active = false → CStatus rec ≠ Jobs.jobRunning) ∧
  ∀ f, files w !! id = Some f → grows f rec.
Proof.
  intros Hw. unfold loadCampaign. destruct (campaignDir id); [|done].
  destruct (live_record id w) as [r|] eqn:El.
  - intros [= -> <-]. unfold live_record in El.
    destruct (Jobs.active (board w)) as [p|] eqn:Ea; [cbn in El|done].
    destruct (Jobs.cells (board w) !! p) as [j|] eqn:Ej; [cbn in El|done].
    destruct (attached w !! p) as [r'|] eqn:Er; [cbn in El|done].
    destruct (String.eqb_spec (Jobs.ID j) id) as [Hid|]; [|done]. injection El as ->.
    destruct (wf_orphan w Hw p Ea) as [st Hst]; [by rewrite Er|].
    destruct (wf_live w Hw _ _ _ Hst Er) as (Hs&(j'&Hj'&Hid')&Hf).
    assert (Hcid : CID rec = id) by congruence. split; [by apply (wf_attached w Hw _ _ Er)|]. split; [done|]. split; [done|].
    intros f Hif. apply Hf. by rewrite Hcid.
  - destruct (files w !! id) as [f|] eqn:Ef; [|done]. destruct (wf_files w Hw _ _ Ef) as [Hok Hid].
    destruct (String.eqb_spec (CStatus f) Jobs.jobRunning) as [Es|Es].
    + destruct (interrupted_ok folders f Hok) as [Hok' Hg']. unfold persistCampaign. cbn [snd].
      destruct err as [e|]; cbn [saveCampaign]; intros [= <- <-].
      * split; [by apply save_error_ok|]. split; [done|]. split; [done|]. intros g [= <-]. by apply save_error_grows.
      * split; [done|]. split; [done|]. split; [done|]. by intros g [= <-].
    + cbn. intros [= <- <-]. split; [done|]. split; [done|]. split; [done|]. by intros g [= <-].
Qed.

(** C26: campaign records are well formed whatever comes between the sections
    of the lock: requests, repetitions, saves that fail, other jobs, readers,
    restarts of the console. A row is running, done or failed, with its verdict
    and a reason exactly when it failed; all rows but the newest are settled,
    and all of them once the campaign has ended. A settled row never changes,
    but for its closing sample; what is on disk only grows, and an ended
    campaign's file is never written again. A reader gets such a record, no
    older than the file, and a campaign that no job runs is not shown running. *)
Theorem campaign_records_kept w (Hr : reachable w) :
  (∀ id f, files w !! id = Some f → rec_ok f ∧ CID f = id) ∧
  (∀ p rec, attached w !! p = Some rec → rec_ok rec) ∧
  (∀ a w', fresh a w → step paused text a w = Some w' → files_grow w w') ∧
  ∀ folders now err id rec active, (loadCampaign text folders now err id w).2 = Ok (rec, active) →
    rec_ok rec ∧ CID rec = id ∧ (active = false → CStatus rec ≠ Jobs.jobRunning) ∧
    ∀ f, files w !! id = Some f → grows f rec.
Proof.
  apply reachable_wf in Hr. split; [apply (wf_files w Hr)|]. split; [apply (wf_attached w Hr)|]. split.
  - intros a w' Hf Hs. by eapply campaign_step_wf.
  - intros *. by apply load_spec.
Qed.

(** ** The driver's verdict *)

(** the console settles a row as the driver does. Where the exports the
    driver downloads are the files of the run's folder, [collect] and [settle]
    agree on whether the repetition failed, on its throughput and its tail
    latency, and on the reason too where both files are there. *)
Theorem rows_agree_with_driver {S} `{Repeat.Client S} d run rep gate f row (s s1 s2 : Repeat.st S) csv jrn
    (Hrun : RowRun row = run)
    (Hcsv : Repeat.export d run Csv.PerfCSV s = Some (s1, csv))
    (Hjrn : Repeat.export d run Repeat.JournalFile s1 = Some (s2, jrn))
    (Hperf : perf_csv f = match csv with Ok t => Some t | Err _ => None end)
    (Hj : journal f = match jrn with Ok t => t | Err _ => "" end) :
  ∃ r, Repeat.collect d text run rep gate s = Some (s2, r) ∧
    Repeat.Failed r = RowFailed (settle f row) ∧
    Repeat.num (Repeat.Perf r) "committed_tps" = CommittedTPS (settle f row) ∧
    Repeat.num (Repeat.Perf r) "latency_p99_ms" = LatencyP99Ms (settle f row) ∧
    (is_Some (perf_of f run) → is_ok jrn = true → Repeat.Reason r = FailReason (settle f row)).
Proof.
  unfold Repeat.collect, Repeat.dbind, Repeat.dret. rewrite Hcsv.
  assert (Hp : perf_of f run = match (let? data := csv in Csv.perfRowCells data run) with Ok m => Some m | Err _ => None end).
  { unfold perf_of. rewrite Hperf. by destruct csv as [t|e]. }
  unfold settle. rewrite Hrun, Hp. destruct (let? data := csv in Csv.perfRowCells data run) as [m|e].
  - cbv zeta iota. rewrite Hjrn. unfold row_verdict. rewrite Hj. destruct jrn as [t|e].
    + destruct (Repeat.runEndEvent t) as [ev|]; [destruct (Repeat.ev_bool ev "failed")|]; by eexists; repeat split.
    + assert (Repeat.runEndEvent "" = None) as -> by done. eexists. by repeat split.
  - cbv zeta iota. rewrite Hjrn. unfold row_verdict. rewrite Hj. destruct jrn as [t|e'].
    + destruct (Repeat.runEndEvent t) as [ev|]; [destruct (Repeat.ev_bool ev "failed")|]; eexists; repeat split; by intros [].
    + assert (Repeat.runEndEvent "" = None) as -> by done. eexists; repeat split; by intros [].
Qed.

(** ** What a campaign is started with *)
Lemma add_all_warnings l p :
  Preflight.Warnings (foldl (λ pre w, add w pre) p l) = Preflight.Warnings p ++ l.
Proof.
  revert p. induction l as [|w l IH]; intros p; cbn [foldl]; [by rewrite app_nil_r|]. rewrite IH. cbn.
  by rewrite <-app_assoc.
Qed.

Lemma campaign_unforceable p c o :
  Preflight.unforceable (campaign_preflight p c o) =
  Preflight.unforceable (Preflight.preflight p (input_of c)) ++
  Preflight.hard (burst_findings p c o) ++
  Preflight.hard (campaign_disk_findings (Preflight.FreeBytes (Preflight.preflight p (input_of c)))
                    (Preflight.DiskPath (Preflight.preflight p (input_of c))) c o).
Proof.
  unfold campaign_preflight. rewrite <-!Preflight.hard_app. unfold Preflight.unforceable at 1.
  by rewrite add_all_warnings, filter_app, fmap_app.
Qed.

Lemma hard_burst p c o :
  Preflight.hard (burst_findings p c o) = [] → 0 < Gates.Burst o →
  Gates.ladderGate (Gates.ladder (Preflight.gates p)) (Gates.gitHead (Preflight.gates p)) (burst_of c o) = None.
Proof.
  unfold burst_findings. intros Hh Hb. destruct (Z.ltb_spec 0 (Gates.Burst o)); [|lia]. by destruct (Gates.ladderGate _ _ _).
Qed.

Lemma hard_campaign_disk free path c o :
  Preflight.hard (campaign_disk_findings free path c o) = [] → ∀ f, free = Some f → (Gates.campaignDiskBytes c o).1 ≤ f.
Proof.
  intros Hh f ->. unfold campaign_disk_findings in Hh. destruct (Gates.campaignDiskBytes c o) as [need parts].
  cbn [fst]. destruct (Z.ltb_spec f need); [|lia]. by destruct (String.eqb _ _).
Qed.

Lemma without_attacks_plan c : AttackPlan (without_attacks c) = None ∧ SkipAttacks (without_attacks c) = true.
Proof. done. Qed.

(** The tag decides nothing where there is no attack plan. *)
Lemma validate_with_rep rep c : AttackPlan c = None → Validate (Repeat.with_rep rep c) = Validate c.
Proof. intros Hp. unfold Validate, validateAttackPlan, Repeat.with_rep. cbn. by rewrite Hp. Qed.

Lemma validate_concurrency c : Validate c = Ok tt → Concurrency c ≠ 0.
Proof.
  unfold Validate. intros Hv Hc. rewrite Hc in Hv. change (0 <? 1) with true in Hv.
  repeat match type of Hv with
         | (if ?b then Err _ else _) = _ => destruct b; [discriminate Hv|]
         | (let? _ := ?r in _) = _ => destruct r; [cbn [rbind] in Hv|discriminate Hv]
         end.
  discriminate Hv.
Qed.

(** What a started campaign can count on; [p] is what the host answered. *)
Record startable (p : Preflight.probes) (c : ElectionConfig) (o : Gates.CampaignOptions) : Prop := {
  start_valid : Validate c = Ok tt;
  start_unattacked : AttackPlan c = None ∧ SkipAttacks c = true;
  start_counts : 0 ≤ Gates.Warmups o ∧ 0 ≤ Gates.Reps o ∧ 0 ≤ Gates.Burst o;
  start_something : 1 ≤ Gates.Reps o ∨ SFleb (Gates.Sweep o) f_one = false ∨ 0 < Gates.Burst o;
  start_ready : Preflight.ready p c;
  start_burst : 0 < Gates.Burst o → Validate (burst_of c o) = Ok tt ∧
    Gates.ladderGate (Gates.ladder (Preflight.gates p)) (Gates.gitHead (Preflight.gates p)) (burst_of c o) = None;
  start_disk : ∀ free, Preflight.FreeBytes (Preflight.preflight p (input_of c)) = Some free →
    (Gates.campaignDiskBytes c o).1 ≤ free;
  start_forced : Gates.Force o = false → Preflight.Blocked (campaign_preflight p c o) = false
}.

Lemma request_startable method body p net c o pre :
  campaign_request paused method body p net = inr (c, o, pre) →
  startable (console_probes paused net p) c o ∧ pre = campaign_preflight (console_probes paused net p) c o ∧
  Jobs.running (Exclusion.board net) = None.
Proof.
  unfold campaign_request, Server.cbind, Server.need, Server.answer_of.
  destruct (String.eqb method "POST"); [|done]. destruct (wrap_err _ body) as [[c0 o0]|e]; [|done]. cbn [fst snd].
  set (c1 := without_attacks (applyDefaults c0)).
  destruct (Validate c1) as [[]|e] eqn:Ev; [|done]. destruct (options_ok o0) as [u|e] eqn:Eo; [|done].
  destruct (burst_ok c1 o0) as [u'|e] eqn:Eb; [|done]. destruct (Jobs.running (Exclusion.board net)) eqn:Er; [done|].
  set (p' := console_probes paused net p).
  destruct (Preflight.unforceable (campaign_preflight p' c1 o0)) as [|k ks] eqn:Eu; [|done].
  destruct (negb _ || Gates.Force o0) eqn:Ef; [|done]. intros [= <- <- <-]. split; [|done].
  rewrite campaign_unforceable in Eu. apply app_nil in Eu as [Hready [Hburst Hdisk]%app_nil].
  unfold options_ok in Eo. destruct (_ || _) eqn:E1 in Eo; [done|]. destruct (_ && _) eqn:E2 in Eo; [done|].
  destruct (_ && _) eqn:E3 in Eo; [done|]. clear Eo.
  rewrite !orb_false_iff, !Z.ltb_ge in E1. rewrite andb_false_iff, negb_false_iff in E2.
  rewrite !andb_false_iff, Z.ltb_ge, Z.eqb_neq in E3.
  split.
  - done.
  - done.
  - naive_solver.
  - destruct E3 as [[?|E3]|?]; [by left| |right; right; lia]. destruct E2 as [E2|E2]; [congruence|auto].
  - assert (Has : Preflight.runs_as (input_of c1) c1) by done.
    apply Preflight.blocks_none. by rewrite <-(Preflight.unforceable_blocks _ _ _ Has).
  - intros Hb. split; [|by apply hard_burst]. unfold burst_ok in Eb. destruct (Z.ltb_spec 0 (Gates.Burst o0)); [|lia].
    by destruct (Validate (burst_of c1 o0)) as [[]|].
  - intros free Hfree. by eapply hard_campaign_disk.
  - intros Hnf. rewrite Hnf, orb_false_r in Ef. by destruct (Preflight.Blocked _).
Qed.

(** C27: a campaign that claims the job's slot has been checked as its runs
    will be. Its configuration is valid and mounts no attack, its counts are
    not negative and something is to be run; nothing else ran on the console;
    without force no block of the preflight stands at all; with it, none but
    those force may override, such as a network that does not answer. On a host that answers as it answered the preflight, the console's own
    /generate refuses none of its warm-ups and repetitions, whatever their tag:
    it goes on to create the run. The projected bytes of the whole campaign fit
    the disk, and a burst is valid and under the ladder's gate; nothing is said
    of its memory, which the console does not check before it runs
    ([ToyCampaigns.ToyCampaign.burst_memory_unchecked]). *)
Theorem campaign_runs_are_admitted method body p net c o pre
    (Hreq : campaign_request paused method body p net = inr (c, o, pre)) :
  startable (console_probes paused net p) c o ∧ Exclusion.busyRunsLocked paused "" net = [] ∧
  Jobs.running (Exclusion.board net) = None ∧
  ∀ rep pick ts mkdirErr writeErr w,
    Server.handleGenerate (Preflight.gates p) (Preflight.fabricEnabled p) pick ts mkdirErr writeErr "POST"
      (Some (Repeat.with_rep rep c)) w =
    Server.create_and pick ts mkdirErr writeErr (Repeat.with_rep rep c) (Server.WGenerate (Repeat.with_rep rep c)) w.
Proof.
  destruct (request_startable _ _ _ _ _ _ _ Hreq) as (Hs&_&Hrun). split; [done|].
  destruct Hs as [Hv [Hp _] _ _ [Hnet Hbusy Hadm _ _] _ _ _]. split; [exact Hbusy|]. split; [done|].
  intros rep *. assert (Hd : applyDefaults (Repeat.with_rep rep c) = Repeat.with_rep rep c).
  { unfold applyDefaults. cbn [Concurrency Repeat.with_rep]. pose proof (validate_concurrency c Hv).
    by destruct (Z.eqb_spec (Concurrency c) 0). }
  unfold Server.handleGenerate, Server.decodeConfig, Server.decodeJSON, Server.cbind, Server.need, Server.answer_of.
  cbn [String.eqb Ascii.eqb Bool.eqb]. rewrite Hd, (validate_with_rep rep c Hp), Hv. cbn [Server.finish_with].
  assert (Hf : negb (String.eqb (Mode (Repeat.with_rep rep c)) "onchain") || Preflight.fabricEnabled p = true).
  { cbn [Mode Repeat.with_rep]. destruct (String.eqb_spec (Mode c) "onchain") as [Hm|]; [|done]. by apply Hnet. }
  unfold Server.need_fabric, Server.need. rewrite Hf. unfold Server.admitted.
  change (Gates.admit_gates (Preflight.gates p) (Repeat.with_rep rep c)) with (Gates.admit_gates (Preflight.gates p) c).
  cbn [Preflight.gates console_probes] in Hadm. by rewrite Hadm.
Qed.
End facts.
End CampaignFacts.
