(* ===== verification/AuditPhase.v ===== *)
(** * Generating and verifying a run

    [saksi-campaign/executor.go]: [Generate] (the generator's command line, the
    derived tables, the run's journal from its first line) and [Verify] (the
    chain's own record dumped and audited first, the console's own record
    audited, the two compared, correctness.csv, run.end and the run's row of
    perf.csv). The generator and the auditor are processes: what they print is
    an input. So is what the operating system refuses. *)
From S2P Require Import Prelude Hex Wire GoText Config Csv RunStore Ballots Receipts Contract Client.
From S2P Require Import Journal Resume Verdict LedgerDump Perf BoardPage Derived.
From S2P Require Bench Scenarios Ceremony Phases.
#[local] Open Scope Z_scope.
Import GoText.

Module AuditPhase.

(** The audit-stream document. *)
Record StreamAudit := MkAudit {
  Overall : string; Contests : list Verdict.ContestCorrectness; Timings : Perf.TimingsMs;
  FailedChecks : list Scenarios.Scenarios.FailedCheck
}.

Definition no_audit : StreamAudit := MkAudit EmptyString [] (Perf.MkTimings 0 0 0 0 0) [].

(** What the page is told. *)
Record message := MkMessage { Phase : string; Level : string; Msg : string }.

(** The journal of the phase: its readable events, and how many more stamps it
    takes before it breaks; [None]: it does not. A journal that could not be
    opened takes none. *)
Record journal := MkJournal { events : result (list Resume.event); room : option nat }.

Definition Stamp (ev : Resume.event) (j : journal) : journal :=
  match room j with
  | Some O => j
  | r => MkJournal (let? evs := events j in Ok (evs ++ [ev])) (Nat.pred <$> r)
  end.

Definition event_of (kind : string) (fields : list (string * Journal.jval)) : Resume.event :=
  Resume.MkEvent kind (list_to_map fields).

(** What a run's phase changes. *)
Record world (Σ : Type) := MkWorld {
  chain : Σ; log : journal; said : list message;
  timings : option Perf.TimingsMs; correctness : option string; perf : option (result string);
  ledger : option (LedgerDump.header * list string)
}.
Arguments MkWorld {Σ} _ _ _ _ _ _ _.
Arguments chain {Σ} _.
Arguments log {Σ} _.
Arguments said {Σ} _.
Arguments timings {Σ} _.
Arguments correctness {Σ} _.
Arguments perf {Σ} _.
Arguments ledger {Σ} _.

Section world.
Context {Σ : Type}.
Implicit Types w : world Σ.

Definition stamp (kind : string) (fields : list (string * Journal.jval)) (w : world Σ) : world Σ :=
  MkWorld (chain w) (Stamp (event_of kind fields) (log w)) (said w) (timings w) (correctness w) (perf w) (ledger w).

Definition publish (phase level msg : string) (w : world Σ) : world Σ :=
  MkWorld (chain w) (log w) (said w ++ [MkMessage phase level msg]) (timings w) (correctness w) (perf w) (ledger w).

Definition set_timings (t : Perf.TimingsMs) (w : world Σ) : world Σ :=
  MkWorld (chain w) (log w) (said w) (Some t) (correctness w) (perf w) (ledger w).

Definition set_correctness (c : string) (w : world Σ) : world Σ :=
  MkWorld (chain w) (log w) (said w) (timings w) (Some c) (perf w) (ledger w).

Definition set_perf (p : option (result string)) (w : world Σ) : world Σ :=
  MkWorld (chain w) (log w) (said w) (timings w) (correctness w) p (ledger w).

Definition set_dump (s : Σ) (l : option (LedgerDump.header * list string)) (w : world Σ) : world Σ :=
  MkWorld s (log w) (said w) (timings w) (correctness w) (perf w) l.
End world.

(** [truncate(out, n)]. *)
Definition truncate (out : string) (n : Z) : string :=
  let s := TrimSpace out in if n <? slen s then str_take (Z.to_nat n) s +:+ "…" else s.

Definition printed (e : option goerr) : goarg := match e with Some e => AErr e | None => AStr "<nil>" end.

(** ** Verify *)

(** The ledger's check while the phase runs. *)
Record check := MkCheck { status : string; audit : StreamAudit; matches : string }.

Definition not_run : check := MkCheck "not run" no_audit EmptyString.

Definition as_ledgerCheck (lc : check) : Verdict.ledgerCheck :=
  Verdict.MkCheck (status lc) (Contests (audit lc)) (matches lc).

(** The run folder's files the phase reads and does not write. *)
Record folder := MkFolder {
  header : option Derived.electionHeader; voter_ids : result (list string); ballots : Ballots.stream;
  metrics : option Perf.submitMetrics; gen_timings : option Perf.genTimings
}.

(** What the processes print, and what the operating system refuses. *)
Record outside := MkOutside {
  audit_local : string * option goerr;
  audit_ledger : LedgerDump.header * list string → string * option goerr;
  UnmarshalAudit : string → StreamAudit * option goerr;
  timings_written : bool; csvErr : option goerr; perfFaults : Perf.faults
}.

(** The ledger directory's header.json, as its digests read it. *)
Definition dumped_header (h : LedgerDump.header) : Derived.electionHeader :=
  Derived.MkHeader (LedgerDump.election_id h) EmptyString [] (LedgerDump.partial_decryptions h) []
    (Z.of_nat (LedgerDump.hn h)) (LedgerDump.dkg h) (LedgerDump.tally h) EmptyString EmptyString.

Section verify.
Context {Σ : Type} `{Gateway Σ, Json, Proto, Sha256} (text : goerr → string).
Context (runID election : string) (c : Config.ElectionConfig) (f : folder) (x : outside).

(** [auditLedger] on a chain that was reached. *)
Definition auditLedger (fuel : nat) (w : world Σ) : option (check * world Σ) :=
  let w := publish "verify" "info" "dumping the chain's own record of this election…" w in
  let stamped (n : nat) (path : string) (ok : bool) :=
    stamp (Σ := Σ) "ledger.dump"
      [("ballots", Journal.JNum (Z.of_nat n)); ("read_path", Journal.JStr path); ("ok", Journal.JBool ok)] in
  match LedgerDump.dumpLedger text fuel (voter_ids f) election (chain w) with
  | (None, _) => None
  | (Some (Err e), s) =>
      let w := stamped 0%nat EmptyString false (set_dump s None w) in
      Some (not_run, publish "verify" "error" ("ledger audit not run: " +:+ text e) w)
  | (Some (Ok (h, lines, path)), s) =>
      let w := stamped (length lines) path true (set_dump s (Some (h, lines)) w) in
      let '(out, runErr) := audit_ledger x (h, lines) in
      match UnmarshalAudit x out with
      | (_, Some _) =>
          Some (not_run, publish "verify" "error"
            (text (Errorf "ledger audit not run: audit-stream produced no valid result for the ledger dump: %v (output: %s)"
                     [printed runErr; AStr (truncate out 200)])) w)
      | (sa, None) =>
          Some (MkCheck "ok" sa EmptyString, publish "verify" "info"
            (text (Errorf "audited %d ballots read back from the chain: %s" [AInt (Z.of_nat (length lines)); AStr (Overall sa)])) w)
      end
  end.

(** [recordLedgerVerdict]: the two records compared. *)
Definition recordLedgerVerdict (sa : StreamAudit) (lc : option check) (w : world Σ) : option check * world Σ :=
  match lc with
  | None => (None, w)
  | Some k =>
      if negb (String.eqb (status k) "ok") then (lc, w)
      else
        match LedgerDump.compareLedger (ballots f) (Ballots.MkStream (match ledger w with Some (_, l) => l | None => [] end) None)
                (Contests sa) (Contests (audit k)) with
        | Err e => (Some (MkCheck "not run" (audit k) EmptyString),
                    publish "verify" "error" ("ledger audit not run: " +:+ text e) w)
        | Ok same =>
            (Some (MkCheck (status k) (audit k) (Perf.FormatBool same)),
             if same then publish "verify" "info" "ledger audit: the chain's record matches this console's" w
             else publish "verify" "error"
                    "ledger audit MISMATCH: the chain's ballots or tally differ from this console's (see correctness.csv)" w)
        end
  end.

(** [finalise]: run.end, then the row of perf.csv. *)
Definition finalise (sa : StreamAudit) (stageErr : option goerr) (lc : option check) (w : world Σ) : world Σ :=
  let input := Verdict.finaliseInput c (Contests sa) stageErr (as_ledgerCheck <$> lc) (events (log w))
                 (Perf.core <$> metrics f) in
  let fin := Journal.Finalise input in
  let w := stamp "run.end" (Journal.run_end input fin) w in
  let row := Perf.perfRow text runID c (gen_timings f) (timings w) (metrics f) fin in
  let '(p, r) := Perf.writePerfRow (perfFaults x) (perf w) runID row in
  let w := set_perf p w in
  match r with
  | Ok _ => w
  | Err e => publish "verify" "info" ("perf.csv not written: " +:+ text e) w
  end.

Definition correctness_text (sa : StreamAudit) (lc : option check) (w : world Σ) : string :=
  Csv.written_text (Verdict.writeCorrectnessCSV (Contests sa) (Derived.header_digests (header f) (ballots f))
    (match ledger w with
     | Some (h, lines) => Derived.header_digests (Some (dumped_header h)) (Ballots.MkStream lines None)
     | None => (EmptyString, EmptyString, EmptyString)
     end) (as_ledgerCheck <$> lc)).

(** The audit of the console's own record, and what is made of both. *)
Definition audit_and_record (lc : option check) (w : world Σ) : StreamAudit * option goerr * world Σ :=
  let w := publish "verify" "info" "auditing run…" w in
  let '(out, runErr) := audit_local x in
  match UnmarshalAudit x out with
  | (sa, Some _) =>
      let crash := Errorf "audit-stream crashed: %v (output: %s)" [printed runErr; AStr (truncate out 200)] in
      let w := publish "verify" "error" "audit-stream produced no valid result" w in
      let w := stamp "stage.verify.end" (Phases.Phases.stageEnd (Err crash) text) w in
      (no_audit, Some crash, finalise sa (Some crash) lc w)
  | (sa, None) =>
      let w := if timings_written x then set_timings (Timings sa) w else w in
      let '(lc, w) := recordLedgerVerdict sa lc w in
      match csvErr x with
      | Some e =>
          let w := stamp "stage.verify.end" (Phases.Phases.stageEnd (Err e) text) w in
          (sa, Some e, finalise sa (Some e) lc w)
      | None =>
          let w := set_correctness (correctness_text sa lc w) w in
          let w := if String.eqb (Overall sa) "pass" then publish "verify" "done" "audit PASS (E=0 on every contest)" w
                   else publish "verify" "error" "audit FAIL (see correctness.csv)" w in
          let w := stamp "stage.verify.end"
                     [("ok", Journal.JBool true); ("overall", Journal.JStr (Overall sa));
                      ("failed_checks", Journal.JStrs (Scenarios.Scenarios.Check <$> FailedChecks sa))] w in
          (sa, None, finalise sa None lc w)
      end
  end.

(** [verify]; [reached]: there is a chain to audit. [None]: the dump has not
    ended within [fuel]. *)
Definition verify (fuel : nat) (reached : bool) (w : world Σ) : option (StreamAudit * option goerr * world Σ) :=
  match RunStore.Dir runID with
  | Err e => Some (no_audit, Some e, w)
  | Ok _ =>
      let w := stamp "stage.verify.start" [] w in
      if reached then
        match auditLedger fuel w with
        | None => None
        | Some (lc, w) => Some (audit_and_record (Some lc) w)
        end
      else Some (audit_and_record None w)
  end.

(** [Verify]: a chain that cannot be reached costs the cross-check. *)
Definition Verify (fuel : nat) (net : Ceremony.Ceremony.network) (w : world Σ) : option (StreamAudit * option goerr * world Σ) :=
  if negb (Ceremony.Ceremony.onChainRun net c) then verify fuel false w
  else
    match Ceremony.Ceremony.dial net with
    | Err e => verify fuel false (publish "verify" "info" ("ledger audit skipped: " +:+ text e) w)
    | Ok _ => verify fuel true w
    end.
End verify.

(** ** Generate *)

(** What a generation changes, and what it ran. *)
Record generation := MkGeneration {
  glog : journal; gsaid : list message; command : list string; tables : option (string * string);
  record : option RunStore.RunRecord
}.

(** What is outside: the environment snapshot, whether the journal could be
    opened and, if so, its first line written, how the generator ended and what
    it left, and whether run.json could be written back. *)
Record generator := MkGenerator {
  environment : gmap string Journal.jval; openErr : option goerr; exitErr : option goerr;
  left_header : result Derived.electionHeader; left_ballots : Ballots.stream; record_written : bool
}.

Definition gstamp (kind : string) (fields : list (string * Journal.jval)) (g : generation) : generation :=
  MkGeneration (Stamp (event_of kind fields) (glog g)) (gsaid g) (command g) (tables g) (record g).

Definition gsay (level msg : string) (g : generation) : generation :=
  MkGeneration (glog g) (gsaid g ++ [MkMessage "generate" level msg]) (command g) (tables g) (record g).

Definition gran (args : list string) (g : generation) : generation :=
  MkGeneration (glog g) (gsaid g) args (tables g) (record g).

Definition gtables (t : string * string) (g : generation) : generation :=
  MkGeneration (glog g) (gsaid g) (command g) (Some t) (record g).

(** [recordCommit]: the commits of the snapshot that are there. *)
Definition commit_of (env : gmap string Journal.jval) : gmap string string :=
  foldr (λ k m, match env !! k with
                | Some (Journal.JStr v) => if String.eqb v EmptyString then m else <[k := v]> m
                | _ => m
                end) ∅ ["git_head_saksi"; "git_head_console"].

Definition recordCommit (written : bool) (env : gmap string Journal.jval) (rec : option RunStore.RunRecord) :
    option RunStore.RunRecord :=
  if written then
    (λ r, RunStore.MkRunRecord (RunStore.RunID r) (RunStore.RConfig r) (RunStore.RCreatedAt r) (commit_of env)) <$> rec
  else rec.

Definition truth_args (dir runID : string) (c : Config.ElectionConfig) : list string :=
  ["gen-ground-truth"; "--out-dir"; dir; "--voters"; Itoa (Config.Voters c); "--positions"; Itoa (Config.Positions c);
   "--candidates"; Itoa (Config.Candidates c); "--election-id"; runID; "--distribution"; Config.Distribution c].

Definition gen_args (dir runID : string) (c : Config.ElectionConfig) : list string :=
  ["gen"; "--stream"; dir; "--voters"; Itoa (Config.Voters c); "--positions"; Itoa (Config.Positions c);
   "--candidates"; Itoa (Config.Candidates c); "--trustees"; Itoa (Z.of_nat (length (Config.Trustees c)));
   "--threshold"; Itoa (Config.Threshold c); "--election-id"; runID; "--election-name"; Config.Name c;
   "--trustee-names"; Scenarios.Scenarios.Join "," (Config.TrusteeNames c); "--distribution"; Config.Distribution c].

Definition groundTruthOnly (c : Config.ElectionConfig) : bool := String.eqb (Config.Mode c) Config.ModeGroundTruth.

Section generate.
Context `{Sha256, Proto} (text : goerr → string) (MarshalJSON : Ballot.t → result string).

(** The end of the phase, its outcome in the journal. *)
Definition gend (r : result unit) (g : generation) : result unit * generation :=
  (r, gstamp "stage.generate.end" (Phases.Phases.stageEnd r text) g).

Definition generateGroundTruth (dir runID : string) (c : Config.ElectionConfig) (x : generator) (g : generation) :
    result unit * generation :=
  let g := gsay "info" (text (Errorf "generating ground truth for %d voters × %d positions × %d candidates (no encryption)…"
             [AInt (Config.Voters c); AInt (Config.Positions c); AInt (Config.Candidates c)])) g in
  let g := gran (truth_args dir runID c) g in
  match exitErr x with
  | Some e => gend (Err e) (gsay "error" (text e) g)
  | None => gend (Ok tt) (gsay "done" "ground truth generated (ground-truth-ballots.csv, ground-truth-summary.csv)" g)
  end.

Definition run_start (runID : string) (c : Config.ElectionConfig) : list (string * Journal.jval) :=
  [("run_id", Journal.JStr runID); ("mode", Journal.JStr (Config.Mode c)); ("voters", Journal.JNum (Config.Voters c));
   ("positions", Journal.JNum (Config.Positions c)); ("candidates", Journal.JNum (Config.Candidates c));
   ("distribution", Journal.JStr (Config.Distribution c))].

(** Up to the start of the stage; [before]: the journal file's events. *)
Definition begin_generate (runID : string) (c : Config.ElectionConfig) (x : generator)
    (before : result (list Resume.event)) (rec : option RunStore.RunRecord) : generation :=
  let g := match openErr x with
           | None => MkGeneration (MkJournal (Ok (match before with Ok l => l | Err _ => [] end ++ [Resume.MkEvent "env" (environment x)])) None)
                       [] [] None rec
           | Some e => gsay "info" ("run journal unavailable: " +:+ text e)
                         (MkGeneration (MkJournal before (Some O)) [] [] None rec)
           end in
  let g := gstamp "run.start" (run_start runID c) g in
  let g := match Config.Rep c with
           | Some t => gstamp "rep.start" [("index", Journal.JNum (Config.RepIndex t)); ("kind", Journal.JStr (Config.RepKind t))] g
           | None => g
           end in
  let g := MkGeneration (glog g) (gsaid g) (command g) (tables g) (recordCommit (record_written x) (environment x) (record g)) in
  gstamp "stage.generate.start" [] g.

Definition Generate (dir runID : string) (c : Config.ElectionConfig) (x : generator)
    (before : result (list Resume.event)) (rec : option RunStore.RunRecord) : result unit * generation :=
  match RunStore.Dir runID with
  | Err e => (Err e, MkGeneration (MkJournal before (Some O)) [] [] None rec)
  | Ok _ =>
      let g := begin_generate runID c x before rec in
      if groundTruthOnly c then generateGroundTruth dir runID c x g
      else
        let g := gsay "info" (text (Errorf "generating %d voters × %d positions × %d candidates (%d-of-%d)…"
                   [AInt (Config.Voters c); AInt (Config.Positions c); AInt (Config.Candidates c); AInt (Config.Threshold c);
                    AInt (Z.of_nat (length (Config.Trustees c)))])) g in
        let g := gran (gen_args dir runID c) g in
        match exitErr x with
        | Some e => gend (Err e) (gsay "error" (text e) g)
        | None =>
            match Derived.writeDerivedCSVs MarshalJSON (left_header x) (left_ballots x) c with
            | Err e => gend (Err e) (gsay "error" ("csv export failed: " +:+ text e) g)
            | Ok t => gend (Ok tt) (gsay "done" "ballots generated (+ ballots.csv, election.csv)" (gtables t g))
            end
        end
  end.

(** What a generation leaves: an outcome, the tables, the journal. *)
Definition generates (c : Config.ElectionConfig) (x : generator) : result (option (string * string)) :=
  match exitErr x with
  | Some e => Err e
  | None => if groundTruthOnly c then Ok None
            else let? t := Derived.writeDerivedCSVs MarshalJSON (left_header x) (left_ballots x) c in Ok (Some t)
  end.

(** The generation fails exactly when the generator does or the tables cannot
    be derived; the journal, where it opened, runs from the environment to the
    stage's end, which says so; ground truth has no tables; run.json is pinned
    to the commits of the environment; and the generator is run once, on the
    run's own configuration. *)
Theorem generate_exact dir runID c x before rec :
  RunStore.runIDPattern runID = true →
  let '(r, g) := Generate dir runID c x before rec in
  r = (let? _ := generates c x in Ok tt) ∧
  tables g = (match generates c x with Ok t => t | Err _ => None end) ∧
  command g = (if groundTruthOnly c then truth_args dir runID c else gen_args dir runID c) ∧
  record g = recordCommit (record_written x) (environment x) rec ∧
  match openErr x with
  | None => ∃ old reps, events (glog g) = Ok (old ++ [Resume.MkEvent "env" (environment x); event_of "run.start" (run_start runID c)] ++ reps ++
               [event_of "stage.generate.start" []; event_of "stage.generate.end" (Phases.Phases.stageEnd r text)]) ∧
             old = (match before with Ok l => l | Err _ => [] end) ∧
             length reps = (match Config.Rep c with Some _ => 1%nat | None => 0%nat end)
  | Some _ => events (glog g) = before
  end.
Proof.
  intros Hid. unfold Generate, RunStore.Dir. rewrite Hid. unfold generates, begin_generate, generateGroundTruth.
  destruct (groundTruthOnly c), (exitErr x) as [e|], (openErr x) as [oe|], (Config.Rep c) as [t|]; cbn;
    try (destruct (Derived.writeDerivedCSVs _ _ _ _) as [tb|te]; cbn);
    (split; [done|]; split; [done|]; split; [done|]; split; [done|]); try done;
    rewrite <-!app_assoc; first [eexists _, [_]; split; [cbn; reflexivity|done] | eexists _, []; split; [cbn; reflexivity|done]].
Qed.
End generate.

(** ** What a verification leaves *)

(** The events that decide nothing of the verdict. *)
Definition quiet (ev : Resume.event) : Prop :=
  Resume.kind ev ∉ ["segment.end"; "segment.start"; "stage.submit.end"; "stage.ceremony.end"; "resume.close"].

Lemma quiet_segments evs q : Forall quiet q → Resume.segmentsFromJournal (Ok (evs ++ q)) = Resume.segmentsFromJournal (Ok evs).
Proof.
  intros Hq. unfold Resume.segmentsFromJournal. rewrite foldl_app. generalize (foldl (λ acc ev, if String.eqb (Resume.kind ev) "segment.end" then (acc.1 ++ [Resume.segmentFromEvent ev], acc.2) else if String.eqb (Resume.kind ev) "segment.start" && (1 <=? Resume.jint ev "index") then (acc.1, true) else acc) ([], false) evs).
  induction Hq as [|ev q Hev _ IH]; intros acc; [done|]. cbn [foldl]. unfold quiet in Hev.
  destruct (String.eqb_spec (Resume.kind ev) "segment.end") as [E|_]; [by rewrite E in Hev; destruct Hev; left|].
  destruct (String.eqb_spec (Resume.kind ev) "segment.start") as [E|_]; [by rewrite E in Hev; destruct Hev; right; left|].
  apply IH.
Qed.

Lemma quiet_stage_err evs q : Forall quiet q → Resume.ballotStageErr (Ok (evs ++ q)) = Resume.ballotStageErr (Ok evs).
Proof.
  intros Hq. unfold Resume.ballotStageErr. rewrite foldl_app. generalize (foldl Resume.stage_failure None evs).
  induction Hq as [|ev q Hev _ IH]; intros acc; [done|]. cbn [foldl]. rewrite IH. unfold quiet in Hev. clear IH.
  unfold Resume.stage_failure.
  destruct (String.eqb_spec (Resume.kind ev) "stage.submit.end") as [E|_]; [rewrite E in Hev; destruct Hev; set_solver|].
  destruct (String.eqb_spec (Resume.kind ev) "stage.ceremony.end") as [E|_]; [rewrite E in Hev; destruct Hev; set_solver|].
  destruct (String.eqb_spec (Resume.kind ev) "resume.close") as [E|_]; [rewrite E in Hev; destruct Hev; set_solver|done].
Qed.

(** Stamping one event after another. *)
Definition Stamps (new : list Resume.event) (j : journal) : journal := foldl (λ j ev, Stamp ev j) j new.

Lemma Stamps_app a b j : Stamps (a ++ b) j = Stamps b (Stamps a j).
Proof. apply foldl_app. Qed.

Lemma Stamps_kept new : ∀ j, ∃ kept, kept `prefix_of` new ∧ (room j = None → kept = new) ∧
  events (Stamps new j) = (let? evs := events j in Ok (evs ++ kept)).
Proof.
  induction new as [|ev new IH]; intros j.
  { exists []. split_and!; [done|done|]. cbn. destruct (events j); [|done]. cbn. by rewrite app_nil_r. }
  cbn [Stamps foldl]. destruct (room j) as [[|n]|] eqn:Hr.
  - assert (Hj : Stamp ev j = j) by (unfold Stamp; by rewrite Hr). rewrite Hj.
    assert (Hs : ∀ l, Stamps l j = j).
    { induction l as [|a l IHl]; [done|]. cbn. unfold Stamp at 2. rewrite Hr. exact IHl. }
    fold (Stamps new j). rewrite Hs. exists []. split_and!; [apply prefix_nil|by intros [=]|].
    destruct (events j); [|done]. cbn. by rewrite app_nil_r.
  - destruct (IH (Stamp ev j)) as (kept&Hk&_&He). fold (Stamps new (Stamp ev j)). exists (ev :: kept). split_and!.
    + by apply prefix_cons.
    + by intros [=].
    + rewrite He. unfold Stamp. rewrite Hr. cbn. destruct (events j); [|done]. cbn. by rewrite <-app_assoc.
  - destruct (IH (Stamp ev j)) as (kept&Hk&Hall&He). fold (Stamps new (Stamp ev j)). exists (ev :: kept). split_and!.
    + by apply prefix_cons.
    + intros _. rewrite Hall; [done|]. unfold Stamp. by rewrite Hr.
    + rewrite He. unfold Stamp. rewrite Hr. cbn. destruct (events j); [|done]. cbn. by rewrite <-app_assoc.
Qed.

Lemma verdict_journal_quiet c cs e lc (j : result (list Resume.event)) q sm :
  Forall quiet q →
  Verdict.finaliseInput c cs e lc (let? evs := j in Ok (evs ++ q)) sm = Verdict.finaliseInput c cs e lc j sm.
Proof.
  intros Hq. destruct j as [evs|]; [|done]. unfold Verdict.finaliseInput. cbn [rbind].
  by rewrite (quiet_segments evs q Hq), (quiet_stage_err evs q Hq).
Qed.

Lemma verdict_Stamps c cs e lc j new sm :
  Forall quiet new →
  Verdict.finaliseInput c cs e lc (events (Stamps new j)) sm = Verdict.finaliseInput c cs e lc (events j) sm.
Proof.
  intros Hq. destruct (Stamps_kept new j) as (kept&[rest ->]&_&->). apply Forall_app in Hq as [Hq _].
  by apply verdict_journal_quiet.
Qed.

(** The verdict does not look at the ledger's check. *)
Lemma verdict_without_ledger c cs e lc j sm :
  Journal.Finalise (Verdict.finaliseInput c cs e lc j sm) = Verdict.verdict c cs e None j sm.
Proof.
  unfold Verdict.verdict, Verdict.finaliseInput. destruct (Resume.segmentsFromJournal j) as [sg rs].
  by destruct sm.
Qed.

Lemma run_end_failed f r : (list_to_map (Journal.run_end f r) : gmap string Journal.jval) !! "failed" = Some (Journal.JBool (Journal.Failed r)).
Proof. unfold Journal.run_end. cbn [app list_to_map foldr]. apply lookup_insert_eq. Qed.

Lemma run_end_reason f r : (list_to_map (Journal.run_end f r) : gmap string Journal.jval) !! "reason" = Some (Journal.JText (Journal.Reason r)).
Proof. unfold Journal.run_end. cbn [app list_to_map foldr]. rewrite lookup_insert_ne by done. apply lookup_insert_eq. Qed.

Lemma run_end_matches f r :
  (list_to_map (Journal.run_end f r) : gmap string Journal.jval) !! "ledger_matches_local" =
    Journal.JBool <$> Journal.LedgerMatchesLocal f.
Proof.
  unfold Journal.run_end.
  destruct (Journal.Bounded f), (Journal.Resumed f), (String.eqb (Journal.LedgerAudit f) EmptyString),
    (Journal.LedgerMatchesLocal f), (Journal.SecurityRun f); reflexivity.
Qed.

Section verified.
Context {Σ : Type} `{Gateway Σ, Json, Proto, Sha256} (text : goerr → string).
Context (runID election : string) (c : Config.ElectionConfig) (f : folder) (x : outside).

(** The auditor's document on the console's own record. *)
Definition document : StreamAudit := (UnmarshalAudit x (audit_local x).1).1.

Definition readable : bool := match UnmarshalAudit x (audit_local x).1 with (_, None) => true | _ => false end.

(** The verdict of a verification that returns [err], the run's journal being
    [j]: neither the chain nor this phase's own events are in it. *)
Definition verdict_of (err : option goerr) (j : result (list Resume.event)) : Journal.FinaliseResult :=
  Verdict.verdict c (Contests document) err None j (Perf.core <$> metrics f).

(** The comparison of the two records, where both were audited. *)
Definition compared (l : option (LedgerDump.header * list string)) : option bool :=
  hl ← l;
  match UnmarshalAudit x (audit_ledger x hl).1 with
  | (sa, None) =>
      match LedgerDump.compareLedger (ballots f) (Ballots.MkStream hl.2 None) (Contests document) (Contests sa) with
      | Ok same => Some same
      | Err _ => None
      end
  | _ => None
  end.

(** What [verify] leaves: [reached] is whether there was a chain to audit. *)
Record verified (reached : bool) (w : world Σ) (sa : StreamAudit) (err : option goerr) (w' : world Σ) : Prop := {
  vf_returned : if readable then sa = document ∧ err = csvErr x else sa = no_audit ∧ is_Some err;
  vf_journal : ∃ dump over input,
    log w' = Stamps ([event_of "stage.verify.start" []] ++ dump ++
      [event_of "stage.verify.end" over; event_of "run.end" (Journal.run_end input (verdict_of err (events (log w))))]) (log w) ∧
    Resume.kind <$> dump = (if reached then ["ledger.dump"] else []) ∧
    (list_to_map over : gmap string Journal.jval) !! "ok" = Some (Journal.JBool (bool_decide (err = None))) ∧
    Journal.Finalise input = verdict_of err (events (log w)) ∧
    Journal.LedgerMatchesLocal input = (if reached && readable then compared (ledger w') else None);
  vf_perf : ∃ tm, perf w' =
    (Perf.writePerfRow (perfFaults x) (perf w) runID
       (Perf.perfRow text runID c (gen_timings f) tm (metrics f) (verdict_of err (events (log w))))).1 ∧
    tm = (if readable && timings_written x then Some (Timings document) else timings w);
  vf_correctness : err ≠ None → correctness w' = correctness w
}.

Lemma stamp_log kind fs (w : world Σ) : log (stamp kind fs w) = Stamps [event_of kind fs] (log w).
Proof. done. Qed.

Lemma finalise_spec sa stageErr lc (w : world Σ) :
  let input := Verdict.finaliseInput c (Contests sa) stageErr (as_ledgerCheck <$> lc) (events (log w)) (Perf.core <$> metrics f) in
  let fin := Verdict.verdict c (Contests sa) stageErr None (events (log w)) (Perf.core <$> metrics f) in
  let w' := finalise text runID c f x sa stageErr lc w in
  Journal.Finalise input = fin ∧ log w' = Stamps [event_of "run.end" (Journal.run_end input fin)] (log w) ∧
  perf w' = (Perf.writePerfRow (perfFaults x) (perf w) runID
               (Perf.perfRow text runID c (gen_timings f) (timings w) (metrics f) fin)).1 ∧
  correctness w' = correctness w ∧ ledger w' = ledger w.
Proof.
  cbn zeta. unfold finalise. rewrite verdict_without_ledger. cbn [timings perf stamp].
  destruct (Perf.writePerfRow _ _ _ _) as [p [u|e]]; done.
Qed.

Lemma stageEnd_ok r : (list_to_map (Phases.Phases.stageEnd r text) : gmap string Journal.jval) !! "ok" = Some (Journal.JBool (is_ok r)).
Proof. destruct r; cbn [Phases.Phases.stageEnd list_to_map foldr]; apply lookup_insert_eq. Qed.

(** [lc] is what [auditLedger] answered of the ledger [l]. *)
Definition answered (l : option (LedgerDump.header * list string)) (lc : option check) : Prop :=
  match lc with
  | None => True
  | Some k =>
      matches k = EmptyString ∧
      if String.eqb (status k) "ok"
      then ∃ hl, l = Some hl ∧ UnmarshalAudit x (audit_ledger x hl).1 = (audit k, None)
      else ∀ hl, l = Some hl → ∃ sa e, UnmarshalAudit x (audit_ledger x hl).1 = (sa, Some e)
  end.

Lemma record_spec lc (w : world Σ) :
  answered (ledger w) lc →
  let r := recordLedgerVerdict text f document lc w in
  log r.2 = log w ∧ perf r.2 = perf w ∧ timings r.2 = timings w ∧ correctness r.2 = correctness w ∧ ledger r.2 = ledger w ∧
  (match r.1 with
   | Some k => if String.eqb (matches k) EmptyString then None else Some (String.eqb (matches k) "true")
   | None => None
   end = match lc with Some _ => compared (ledger w) | None => None end).
Proof.
  intros Hl. cbn zeta. unfold recordLedgerVerdict. destruct lc as [k|]; [|done]. cbn in Hl. destruct Hl as [Hm Hl].
  destruct (String.eqb_spec (status k) "ok") as [Hs|Hs]; cbn [negb].
  - destruct Hl as ([h lines]&El&Hu). rewrite El. unfold compared. cbn [mbind option_bind snd]. rewrite Hu.
    destruct (LedgerDump.compareLedger _ _ _ _) as [[]|e]; split_and!; cbn; try done; by rewrite El.
  - cbn. rewrite Hm. split_and!; try done. unfold compared. destruct (ledger w) as [hl|]; [|done]. cbn.
    by destruct (Hl hl eq_refl) as (sa&e&->).
Qed.

Lemma input_matches cs e lc j sm :
  Journal.LedgerMatchesLocal (Verdict.finaliseInput c cs e (as_ledgerCheck <$> lc) j sm) =
    match lc with
    | Some k => if String.eqb (matches k) EmptyString then None else Some (String.eqb (matches k) "true")
    | None => None
    end.
Proof. unfold Verdict.finaliseInput. destruct (Resume.segmentsFromJournal j) as [sg rs]. by destruct sm, lc. Qed.

(** The local audit and what follows, after the events [pre]. *)
Lemma audit_spec lc (w : world Σ) (pre : list Resume.event) (j0 : journal) :
  log w = Stamps pre j0 → Forall quiet pre → answered (ledger w) lc →
  let '(sa, err, w') := audit_and_record text runID c f x lc w in
  (if readable then sa = document ∧ err = csvErr x else sa = no_audit ∧ is_Some err) ∧
  (∃ over input, log w' = Stamps (pre ++ [event_of "stage.verify.end" over;
       event_of "run.end" (Journal.run_end input (verdict_of err (events j0)))]) j0 ∧
     (list_to_map over : gmap string Journal.jval) !! "ok" = Some (Journal.JBool (bool_decide (err = None))) ∧
     Journal.Finalise input = verdict_of err (events j0) ∧
     Journal.LedgerMatchesLocal input = (match lc with Some _ => if readable then compared (ledger w') else None | None => None end)) ∧
  (perf w' = (Perf.writePerfRow (perfFaults x) (perf w) runID
     (Perf.perfRow text runID c (gen_timings f) (if readable && timings_written x then Some (Timings document) else timings w)
        (metrics f) (verdict_of err (events j0)))).1) ∧
  (err ≠ None → correctness w' = correctness w) ∧ ledger w' = ledger w.
Proof.
  intros Hlog Hpre Hl. unfold audit_and_record.
  assert (Hv : ∀ e over ev, Verdict.verdict c (Contests document) e None
            (events (Stamps (pre ++ [event_of "stage.verify.end" over]) j0)) ev =
            Verdict.verdict c (Contests document) e None (events j0) ev).
  { intros e over ev. unfold Verdict.verdict. rewrite verdict_Stamps; [done|]. apply Forall_app. split; [done|].
    repeat constructor. unfold quiet. cbn. set_solver. }
  destruct (audit_local x) as [out runErr] eqn:Ea. destruct (UnmarshalAudit x out) as [sa bad] eqn:Hu.
  assert (Hdoc : sa = document) by (unfold document; rewrite Ea; cbn; by rewrite Hu). subst sa.
  assert (Hread : readable = match bad with None => true | Some _ => false end)
    by (unfold readable; rewrite Ea; cbn; rewrite Hu; by destruct bad).
  rewrite Hread. clear Hread Hu Ea. destruct bad as [bad|].
  - set (crash := Errorf _ _). set (w1 := stamp _ _ _).
    destruct (finalise_spec document (Some crash) lc w1) as (Hfin&Hlg&Hp&Hc&Hd).
    assert (Hw1 : log w1 = Stamps (pre ++ [event_of "stage.verify.end" (Phases.Phases.stageEnd (Err crash) text)]) j0).
    { unfold w1. rewrite stamp_log. cbn [publish log]. by rewrite Hlog, <-Stamps_app. }
    rewrite Hw1 in Hfin, Hlg, Hp. rewrite Hv in Hfin, Hlg, Hp. split_and!.
    + done.
    + by eexists.
    + eexists _, _. split_and!; [rewrite Hlg, <-Stamps_app, <-app_assoc; reflexivity|apply stageEnd_ok|exact Hfin|].
      rewrite input_matches. destruct lc as [k|]; [|done]. destruct Hl as [-> _]. done.
    + exact Hp.
    + intros _. exact Hc.
    + exact Hd.
  - set (w1 := if timings_written x then _ else _).
    assert (Hw1 : log w1 = Stamps pre j0 ∧ perf w1 = perf w ∧ correctness w1 = correctness w ∧ ledger w1 = ledger w ∧
              timings w1 = (if timings_written x then Some (Timings document) else timings w))
      by (unfold w1; by destruct (timings_written x)).
    destruct Hw1 as (Hl1&Hp1&Hc1&Hd1&Ht1). clearbody w1. rewrite <-Hd1 in Hl.
    pose proof (record_spec lc w1 Hl) as (Rl&Rp&Rt&Rc&Rd&Rm). cbn zeta in *. revert Rl Rp Rt Rc Rd Rm.
    destruct (recordLedgerVerdict text f document lc w1) as [lc' w2]. cbn [fst snd]. intros Rl Rp Rt Rc Rd Rm.
    destruct (csvErr x) as [e|].
    + set (w3 := stamp _ _ _). destruct (finalise_spec document (Some e) lc' w3) as (Hfin&Hlg&Hp&Hc&Hd).
      assert (Hw3 : log w3 = Stamps (pre ++ [event_of "stage.verify.end" (Phases.Phases.stageEnd (Err e) text)]) j0).
      { unfold w3. by rewrite stamp_log, Rl, Hl1, <-Stamps_app. }
      rewrite Hw3 in Hfin, Hlg, Hp. rewrite Hv in Hfin, Hlg, Hp. split_and!; try done.
      * eexists _, _. split_and!; [rewrite Hlg, <-Stamps_app, <-app_assoc; reflexivity|apply stageEnd_ok|exact Hfin|].
        rewrite input_matches, Rm, Hd. change (ledger w3) with (ledger w2). by rewrite Rd.
      * rewrite Hp. cbn [perf timings stamp w3]. by rewrite Rp, Hp1, Rt, Ht1.
      * intros _. rewrite Hc. cbn. by rewrite Rc, Hc1.
      * rewrite Hd. cbn. by rewrite Rd, Hd1.
    + set (w3 := stamp _ _ _). destruct (finalise_spec document None lc' w3) as (Hfin&Hlg&Hp&Hc&Hd).
      set (over := [_; _; _]) in w3.
      assert (Hw3 : log w3 = Stamps (pre ++ [event_of "stage.verify.end" over]) j0 ∧ perf w3 = perf w ∧ ledger w3 = ledger w ∧
                timings w3 = (if timings_written x then Some (Timings document) else timings w)).
      { unfold w3. rewrite stamp_log, Stamps_app. cbn [perf ledger timings stamp].
        destruct (String.eqb (Overall document) "pass"); cbn [publish set_correctness log perf ledger timings];
          by rewrite Rl, Hl1, Rp, Hp1, Rd, Hd1, Rt, Ht1. }
      destruct Hw3 as (Hw3&Hp3&Hd3&Ht3). clearbody w3.
      rewrite Hw3 in Hfin, Hlg, Hp. rewrite Hv in Hfin, Hlg, Hp. split_and!; try done.
      * exists over. eexists. split_and!; [rewrite Hlg, <-Stamps_app, <-app_assoc; reflexivity|apply lookup_insert_eq|exact Hfin|].
        by rewrite input_matches, Rm, Hd, Hd3, Hd1.
      * by rewrite Hp, Hp3, Ht3.
      * by rewrite Hd, Hd3.
Qed.

Lemma ledger_spec fuel (w : world Σ) :
  match auditLedger text election f x fuel w with
  | None => (LedgerDump.dumpLedger text fuel (voter_ids f) election (chain w)).1 = None
  | Some (k, w') =>
      (∃ fs, log w' = Stamps [event_of "ledger.dump" fs] (log w)) ∧ perf w' = perf w ∧ timings w' = timings w ∧
      correctness w' = correctness w ∧ answered (ledger w') (Some k)
  end.
Proof.
  unfold auditLedger. cbn [publish chain].
  destruct (LedgerDump.dumpLedger _ _ _ _ _) as [[[[[h lines] path]|e]|] s] eqn:Ed; [| |done].
  - destruct (audit_ledger x (h, lines)) as [out runErr] eqn:Eo. destruct (UnmarshalAudit x out) as [sa [bad|]] eqn:Eu.
    + split_and!; try done; [by eexists|]. cbn. split; [done|]. intros hl [= <-]. rewrite Eo. cbn. eauto.
    + split_and!; try done; [by eexists|]. cbn. split; [done|]. exists (h, lines). by rewrite Eo.
  - split_and!; try done. by eexists.
Qed.

Lemma verify_spec fuel reached (w : world Σ) :
  RunStore.runIDPattern runID = true →
  match verify text runID election c f x fuel reached w with
  | None => reached = true ∧ (LedgerDump.dumpLedger text fuel (voter_ids f) election (chain w)).1 = None
  | Some (sa, err, w') => verified reached w sa err w'
  end.
Proof.
  intros Hid. unfold verify, RunStore.Dir. rewrite Hid. cbn zeta. set (w0 := stamp "stage.verify.start" [] w).
  assert (Hq : quiet (event_of "stage.verify.start" [])) by (unfold quiet; cbn; set_solver).
  destruct reached.
  - pose proof (ledger_spec fuel w0) as Hl. destruct (auditLedger _ _ _ _ _ w0) as [[k w1]|]; [|by split].
    destruct Hl as ([fs Hlog]&Hp&Ht&Hc&Ha).
    assert (Hlog' : log w1 = Stamps [event_of "stage.verify.start" []; event_of "ledger.dump" fs] (log w))
      by (rewrite Hlog; done).
    pose proof (audit_spec (Some k) w1 _ (log w) Hlog') as Hs.
    destruct (audit_and_record _ _ _ _ _ _ w1) as [[sa err] w'].
    destruct Hs as (Hret&(over&input&Hj&Hok&Hfin&Hm)&Hpf&Hcr&Hld);
      [by repeat constructor; (done || unfold quiet; cbn; set_solver)|done|].
    rewrite Hp, Ht in Hpf. split; [done| | |].
    + exists [event_of "ledger.dump" fs], over, input. split_and!; done.
    + eexists. split; [exact Hpf|done].
    + intros He. by rewrite Hcr, Hc.
  - pose proof (audit_spec None w0 [event_of "stage.verify.start" []] (log w) eq_refl) as Hs.
    destruct (audit_and_record _ _ _ _ _ _ w0) as [[sa err] w'].
    destruct Hs as (Hret&(over&input&Hj&Hok&Hfin&Hm)&Hpf&Hcr&Hld); [by repeat constructor|done|].
    split; [done| | |done].
    + exists [], over, input. split_and!; done.
    + eexists. split; [exact Hpf|done].
Qed.

(** What a verification decides does not depend on the chain. *)
Lemma verified_decides reached reached' w sa sa' err err' w1 w2 :
  verified reached w sa err w1 → verified reached' w sa' err' w2 →
  sa = sa' ∧ (readable = true → err = err' ∧ perf w1 = perf w2).
Proof.
  intros [Hr _ (tm&Hp&->) _] [Hr' _ (tm'&Hp'&->) _]. destruct readable.
  - destruct Hr as [-> ->], Hr' as [-> ->]. split; [done|]. intros _. by rewrite Hp, Hp'.
  - by destruct Hr as [-> _], Hr' as [-> _].
Qed.

Lemma Verify_spec fuel net (w : world Σ) :
  RunStore.runIDPattern runID = true →
  let reached := Ceremony.Ceremony.onChainRun net c && is_ok (Ceremony.Ceremony.dial net) in
  match Verify text runID election c f x fuel net w with
  | None => reached = true ∧ (LedgerDump.dumpLedger text fuel (voter_ids f) election (chain w)).1 = None
  | Some (sa, err, w') => verified reached w sa err w'
  end.
Proof.
  intros Hid. cbn zeta. unfold Verify. destruct (Ceremony.Ceremony.onChainRun net c); cbn [negb andb].
  - destruct (Ceremony.Ceremony.dial net) as [u|e]; cbn [is_ok]; [apply (verify_spec fuel true w Hid)|].
    set (w1 := publish _ _ _ w). pose proof (verify_spec fuel false w1 Hid) as Hs.
    destruct (verify _ _ _ _ _ _ fuel false w1) as [[[sa err] w']|]; [|by destruct Hs].
    destruct Hs as [V1 V2 V3 V4]. by split.
  - apply (verify_spec fuel false w Hid).
Qed.

(** C36: Verifying a run audits both records, and the chain can cost no audit.
    Whatever the network, the auditor and the operating system do, [Verify]
    ends as soon as the dump of the chain's own record does, and then: it
    returns the audit of the console's own record, and an error exactly when
    the auditor printed no document or correctness.csv could not be created;
    the journal gets the phase's start, a dump event exactly when a chain was
    reached, the phase's end, [ok] exactly without an error, and one run.end;
    that verdict and the row of perf.csv are those of the console's own audit
    and of the journal as it was before the phase; and run.end says whether the
    chain's record matches exactly when both records were audited and could be
    compared, and then what the comparison says. With any other network the
    same audit is returned, with the same error and the same row where the
    auditor printed a document. *)
Theorem verify_audits_both fuel net (w : world Σ) :
  RunStore.runIDPattern runID = true →
  let run fuel net := Verify text runID election c f x fuel net w in
  let reached := Ceremony.Ceremony.onChainRun net c && is_ok (Ceremony.Ceremony.dial net) in
  match run fuel net with
  | None => reached = true ∧ (LedgerDump.dumpLedger text fuel (voter_ids f) election (chain w)).1 = None
  | Some (sa, err, w') =>
      verified reached w sa err w' ∧
      ∀ fuel' net' sa' err' w'', run fuel' net' = Some (sa', err', w'') →
        sa = sa' ∧ (readable = true → err = err' ∧ perf w' = perf w'')
  end.
Proof.
  intros Hid run reached.
  pose proof (Verify_spec fuel net w Hid) as Hf. cbn zeta in Hf. fold reached in Hf. fold (run fuel net) in Hf.
  destruct (run fuel net) as [[[sa err] w']|]; [|exact Hf].
  split; [exact Hf|]. intros fuel' net' sa' err' w'' Hr. pose proof (Verify_spec fuel' net' w Hid) as Hf'.
  cbn zeta in Hf'. fold (run fuel' net') in Hf'. rewrite Hr in Hf'.
  exact (verified_decides _ _ _ _ _ _ _ _ _ Hf Hf').
Qed.

End verified.
End AuditPhase.
