(* ===== verification/ResumePhase.v ===== *)
(** * The phases around an interruption

    [saksi-campaign/executor.go]: [Submit]; from [Resume] to the end of
    [resumeBallots], the ballots the chain lacks are submitted in one more
    window, its failures are judged by reading the chain again, and the election
    is closed; and [VerifyOnly], which asks the chain what it holds and submits
    nothing. Like the phases of [Phases], these are relations between worlds:
    the network moves on its own. [details] is what the gateway's status
    attaches to an error. *)
From S2P Require Import Prelude Fabric Hex Wire Ristretto Contract BoardSpec HandlerFacts Ledger Client ClientFacts.
From S2P Require Import GoText Receipts ReceiptFile Config RunStore Ballots Bench Journal Resume ResumeFacts Verdict.
From S2P Require Import Ceremony Partials Timeline Phases PhasesFacts.
From S2P Require Perf.
From stdpp Require Import pretty.
#[local] Open Scope Z_scope.
Import GoText Phases.

(** What the operating system makes of the run folder: the journal as it is read
    back from the events stamped into it, and whether receipts.csv opens. *)
Class RunFolder (S : Type) := {
  JournalFile : S → list Resume.event → result (list Resume.event);
  receipts_open : S → option goerr
}.

Module ResumePhase.

(** [clientsdk.ErrorText] of an error. *)
Fixpoint join_semi (l : list string) : string :=
  match l with [] => EmptyString | [s] => s | s :: l => s +:+ "; " +:+ join_semi l end.

Definition ErrorText (text : goerr → string) (details : goerr → list string) (e : goerr) : string :=
  join_semi (text e :: filter (λ d, d ≠ EmptyString) (details e)).

(** The chaincode's refusal to close an election twice. *)
Definition already_closed (electionID : string) : string := "election " +:+ Quote electionID +:+ " is already closed".

(** The files of the run folder only a resume writes. *)
Record files := MkFiles { ceremony : Ceremony.run; latencies : option string }.

Section phase.
Context {S : Type} `{Console S, Gateway S, RunFolder S, Rfc3339, ReceiptFile.TrailJson, Json, Proto}.
Context (text : goerr → string) (details : goerr → list string).
Context (c : Config.ElectionConfig) (bundle : result Ceremony.onChainBundle) (ballots : Ballots.stream).
#[local] Abbreviation world := (@world S files).
#[local] Abbreviation N := (@N S files).
#[local] Abbreviation window := (@window S files).

Notation "'let!' x ':=' m 'in' k" := (nbind m (fun x => k))
  (at level 10, x binder, m at level 100, k at level 200).

(** A call whose error the caller looks at. *)
Definition ntry {A} (m : N A) : N (result A) := λ w r w', ∃ r1, m w r1 w' ∧ r = Ok r1.

Definition nget {A} (f : world → result A) : N A := nlift (λ w, (w, f w)).

(** ** What the run folder says *)
Definition receipts_of (w : world) : Resume.receipts_file :=
  match receipts_open (env w) with
  | Some e => Resume.UnreadableReceipts e
  | None =>
      let '(evs, err) := ReceiptFile.readReceipts (Some (ReceiptFile.csv (folder w))) in
      let rows := (λ ev, Resume.MkTrail (ReceiptFile.Event ev) (ReceiptFile.Ref ev)) <$> evs in
      match err with
      | None => Resume.Receipts rows
      | Some (Errorf f args) =>
          if String.eqb f "receipts.csv: truncated last row" then Resume.TruncatedReceipts rows
          else Resume.UnreadableReceipts (Errorf f args)
      | Some e => Resume.UnreadableReceipts e
      end
  end.

Definition close_recorded (w : world) : bool :=
  Resume.closeRecorded (Ceremony.ceremonyRecorded (ceremony (cell w))) (receipts_of w).

Definition read_plan : N Resume.resumePlan :=
  nget (λ w, Resume.planResume (Config.Mode c) (JournalFile (env w) (stamps w)) (close_recorded w)).

(** ** The resumed window *)

(** The committed set, read from the chain; a read that never ends is no phase. *)
Definition committed_set (byNullifier : gmap bytes nat) (b : Ceremony.onChainBundle) : N (list bool) := λ w r w',
  ∃ fuel s, Resume.chainCommitted fuel byNullifier (Ceremony.ElectionID b) (Z.to_nat (Ceremony.BallotCount b)) (env w) =
    (Some r, s) ∧ w' = set_env s w.

(** The window over the pending indices; it ends early only with its context. *)
Definition resume_window (plan : Resume.resumePlan) (committed : list bool) : N (Bench.RunResult * window) := λ w r w',
  let pending := Resume.pending committed in
  let d := MkDriver (Some (Resume.wanted committed)) (λ k, default 0%nat (pending !! k))
             [("segment"%string, Journal.JNum (Resume.Segment plan))] in
  ∃ time res asked x,
    dispatched ballots d (Config.submitConcurrency c) time (length pending) [] (open_window ballots w) res asked x ∧
    (Bench.Stopped res = true → is_Some (ctx_err (env (ww x)))) ∧
    r = Ok (res, x) ∧ others (ww x) w'.

(** [replayedIndices]: the chain is read again when anything failed. *)
Definition replayed (byNullifier : gmap bytes nat) (b : Ceremony.onChainBundle) (pending : list nat)
    (res : Bench.RunResult) : N (list nat) :=
  match Resume.failed_slots res with
  | [] => nret (Ok [])
  | failed =>
      let! after := ntry (committed_set byNullifier b) in
      let! _ := nmodify (stamp match after with
        | Ok _ => []
        | Err e => [Resume.MkEvent "replay_check_failed" (list_to_map
            [("failed", Journal.JNum (Z.of_nat (length failed))); ("error", Journal.JText (Some e))]%string)]
        end) in
      nret (Ok (Resume.replayedIndices pending res after))
  end.

Definition set_latencies (t : string) (w : world) : world :=
  MkWorld (env w) (folder w) (refs w) (stamps w) (metrics w) (MkFiles (ceremony (cell w)) (Some t)).

(** What is made of the window; [m] are its measurements and the failures of
    the journal and of the files written. *)
Definition after_resume (plan : Resume.resumePlan) (committed : list bool) (m : measured) (res : Bench.RunResult)
    (x : window) (replays : list nat) : N unit :=
  let pending := Resume.pending committed in
  let o := Resume.window_outcome res replays in
  let seg := Verdict.segmentOf (Resume.Segment plan) (figs m) (Resume.on_chain o) in
  let! _ := nmodify (stamp (Resume.closing_events plan res o (Verdict.ms (figs m)) seg)) in
  match readErr x with
  | Some e => nret (Err e)
  | None =>
      let! _ := nmodify (collectReceipts (landed x)) in
      match latenciesErr m with
      | Some e => nret (Err e)
      | None =>
          let! _ := nmodify (λ w, set_latencies (Perf.Perf.appendLatenciesCSV (latencies (cell w)) res (Resume.Segment plan)
                       (λ k, Z.of_nat (default 0%nat (pending !! k))) (λ k, bool_decide (k ∈ replays))) w) in
          let input := Resume.resume_input c plan (length pending) res o seg (winErr m) in
          let! _ := nmodify (stamp [Resume.MkEvent "run.end"
                       (list_to_map (Journal.run_end input (Journal.Finalise input)))]) in
          let! _ := nmodify (λ w, set_metrics (Resume.recordJournalError (text <$> winErr m)
                       match metrics w, metricsErr m with
                       | Some sm, None => Some (Resume.rollUpSubmitMetrics sm
                           (Z.of_nat (length committed - length pending)) res (Resume.on_chain o) (Resume.dropped o))
                       | sm, _ => sm
                       end) w) in
          if 0 <? Resume.dropped o then
            nret (Err (Errorf "%d of %d resubmitted ballots did not commit"
              [AInt (Resume.dropped o); AInt (Bench.Submitted res)]))
          else nret (match winErr m with Some e => Err e | None => Ok tt end)
      end
  end.

(** The window and what follows it. *)
Definition drive (byNullifier : gmap bytes nat) (b : Ceremony.onChainBundle) (plan : Resume.resumePlan)
    (committed : list bool) (m : measured) : N unit :=
  let pending := Resume.pending committed in
  let! _ := nmodify (stamp [Resume.window_start plan (length pending) (Config.submitConcurrency c) (Config.SendRate c)]) in
  let! rx := resume_window plan committed in
  let! replays := replayed byNullifier b pending rx.1 in
  after_resume plan committed m rx.1 rx.2 replays.

Definition resumeBallots : N unit :=
  let! b := nret bundle in
  let! plan := read_plan in
  let! _ := nguard (negb (Resume.CloseOnly plan)) Resume.not_interrupted in
  let! _ := nguard (0 <=? Ceremony.BallotCount b)
    (Errorf "bundle ballot_count is %d but %s holds %d ballots"
       [AInt (Ceremony.BallotCount b); AStr Ballots.BallotsFile; AInt (Z.of_nat (length (Ballots.lines ballots)))]) in
  let! byNullifier := nret (Resume.nullifierIndex ballots (Z.to_nat (Ceremony.BallotCount b))) in
  let! committed := committed_set byNullifier b in
  let! _ := nmodify (λ w, stamp (Resume.crossCheckReceipts (receipts_of w) committed) w) in
  let! _ := nmodify (stamp (Resume.segment_events plan (length (Resume.pending committed)))) in
  λ w r w', ∃ openErr m,
    (let! _ := nret (match openErr with Some e => Err e | None => Ok tt end) in
     let! _ := nlift openReceiptsFor in
     nfinally (drive byNullifier b plan committed m) closeReceipts) w r w'.

(** ** The close *)
Definition resume_close (r : result bool) (close_only : bool) : Resume.event :=
  Resume.MkEvent "resume.close" (list_to_map (match r with
    | Ok already => [("ok", Journal.JBool true); ("close_only", Journal.JBool close_only);
                     ("already_closed", Journal.JBool already)]
    | Err e => [("ok", Journal.JBool false); ("close_only", Journal.JBool close_only); ("error", Journal.JStr (text e))]
    end)%string).

(** [e.closeElection], a refusal because it is closed counting as done. *)
Definition close_result (b : Ceremony.onChainBundle) (r : result unit) : result bool :=
  match r with
  | Ok _ => Ok false
  | Err e =>
      if str_contains (ErrorText text details e) (already_closed (Ceremony.ElectionID b)) then Ok true
      else Err (Errorf "every ballot is on the chain but CloseElection failed: resume again to retry the close: %w" [AErr e])
  end.

Definition cause (r : result unit) (x : result bool) : result bool :=
  match r, x with Err e, Err _ => Err e | _, _ => x end.

(** [writeCeremony(runID, c, nil)] on a disk that may refuse it. *)
Definition write_ceremony : N unit := λ w r w',
  (∃ now, r = Ok tt ∧ w' = MkWorld (env w) (folder w) (refs w) (stamps w) (metrics w)
             (MkFiles (Ceremony.writeCeremonyLocked now c None (ceremony (cell w))) (latencies (cell w)))) ∨
  (∃ e, r = Err e ∧ w' = w).

Definition finish (b : Ceremony.onChainBundle) (close_only : bool) : N unit :=
  let! r := ntry (closeElection b c) in
  let! _ := nmodify (stamp [resume_close (cause r (close_result b r)) close_only]) in
  let! _ := nret (close_result b r) in
  write_ceremony.

Definition check_sent : N unit :=
  nwrap (λ e, Errorf "the resume was stopped before every pending ballot was sent, so the election stays open: resume again (%w)"
                [AErr e]) check_ctx.

Definition resumeAndClose : N unit :=
  let! plan := read_plan in
  let! _ := (if Resume.CloseOnly plan then nret (Ok tt) else let! _ := resumeBallots in check_sent) in
  let! b := nret bundle in
  let! _ := lifecycle in
  nfinally (finish b (Resume.CloseOnly plan)) closeReceipts.

(** [Resume]: the network is dialled first. *)
Definition Resume (runID : string) (net : Ceremony.network) : N unit :=
  let! _ := nret (RunStore.Dir runID) in
  let! _ := nguard (Ceremony.Enabled net) Ceremony.errNoFabric in
  let! _ := nret (Ceremony.dial net) in
  resumeAndClose.

(** ** Submit *)

(** [e.submit]: over the network, or by the console driver [consBin] where there
    is none; [driver] is how that process ends. *)
Definition submit_phase (runID : string) (net : Ceremony.network) (consBin : string) (driver : result unit) : N unit :=
  let! _ := nret (RunStore.Dir runID) in
  if Ceremony.Enabled net then
    let! b := nwrap (errw "bundle: %w") (nret bundle) in
    let! _ := nwrap (errw "connect to Fabric: %w") (nret (Ceremony.dial net)) in
    submitOnChain b ballots c text
  else
    let! _ := nguard (negb (String.eqb consBin EmptyString))
      (Errorf "on-chain submit requires a reachable Fabric network (no driver configured)" []) in
    nret driver.

Definition Submit (runID : string) (net : Ceremony.network) (consBin : string) (driver : result unit) : N unit :=
  if String.eqb (Config.Mode c) Config.ModeGroundTruth || String.eqb (Config.Mode c) "offline" then nret (Ok tt)
  else
    let! _ := nmodify (stamp [Resume.MkEvent "stage.submit.start" ∅]) in
    let! r := ntry (submit_phase runID net consBin driver) in
    let! _ := nmodify (stamp [Resume.MkEvent "stage.submit.end" (list_to_map (stageEnd r text))]) in
    nret r.

(** ** VerifyOnly *)

(** The two reads of the chain; a read that never ends is no phase. *)
Definition count_committed (b : Ceremony.onChainBundle) : N Z := λ w r w',
  ∃ fuel s, Client.CountCommittedBallots fuel (Ceremony.ElectionID b) (env w) = (Some r, s) ∧ w' = set_env s w.

Definition committed_index (b : Ceremony.onChainBundle) : N (list bool) := λ w r w',
  ∃ fuel s, Resume.committedByIndex fuel ballots (Ceremony.ElectionID b) (Z.to_nat (Ceremony.BallotCount b)) (env w) =
    (Some r, s) ∧ w' = set_env s w.

Definition local_count (committed : result (list bool)) : Z :=
  match committed with Ok l => Z.of_nat (length (filter (λ ok : bool, ok = true) l)) | Err _ => 0 end.

Definition reconcile (b : Ceremony.onChainBundle) (count : result Z) (committed : result (list bool)) : Resume.event :=
  Resume.MkEvent "verify_only.reconcile" (list_to_map
    (app [("election_id", Journal.JStr (Ceremony.ElectionID b)); ("expected", Journal.JNum (Ceremony.BallotCount b))]
     match count, committed with
     | Err e, _ => [("chain_count_error", Journal.JStr (text e))]
     | _, Err e => [("committed_set_error", Journal.JStr (text e))]
     | Ok n, Ok _ =>
         let local := local_count committed in
         [("chain_count", Journal.JNum n); ("committed_local", Journal.JNum local);
          ("reconciled", Journal.JBool (n =? local)%Z); ("missing", Journal.JNum (Ceremony.BallotCount b - local)%Z)]
     end)%string).

(** The range of blocks the receipts name. *)
Definition block_range (sample : list Receipts.Receipt) : Z * Z :=
  let ns := Receipts.BlockNumber <$> sample in (foldl Z.min (default 0 (head ns)) ns, foldl Z.max 0 ns).

Definition not_walked (why : string) : Resume.event :=
  Resume.MkEvent "verify_only.chain" (list_to_map [("status", Journal.JStr "not run"); ("error", Journal.JStr why)]%string).

(** [verifyOnlyChain], over the blocks the peer serves. *)
Definition verifyOnlyChain `{Receipts.Sha256, Receipts.FabricProto} (fuel : nat) (blocks : Z → result Receipts.Block) (w : world) :
    option Resume.event :=
  let '(events, err) := ReceiptFile.readReceipts (Some (ReceiptFile.csv (folder w))) in
  let unreadable := match err with
                    | Some (Errorf f args) =>
                        if String.eqb f "receipts.csv: truncated last row" then None else Some (Errorf f args)
                    | e => e
                    end in
  match receipts_open (env w), unreadable with
  | Some e, _ | None, Some e => Some (not_walked (text e))
  | None, None =>
      let sample := ReceiptFile.EReceipt <$> events in
      if (length sample =? 0)%nat then Some (not_walked "no receipts to sample")
      else
        let '(from, to) := block_range sample in
        match Receipts.verifyChain fuel from to sample blocks with
        | None => None
        | Some (_, Some e) => Some (not_walked (text e))
        | Some (report, None) => Some (Resume.MkEvent "verify_only.chain" (list_to_map
            [("status", Journal.JStr (Receipts.Status report)); ("from", Journal.JNum from); ("to", Journal.JNum to);
             ("blocks", Journal.JNum (Receipts.Blocks report)); ("linked", Journal.JBool (Receipts.Linked report));
             ("sampled", Journal.JNum (Z.of_nat (length sample)))]%string))
        end
  end.

Definition verifyOnly `{Receipts.Sha256, Receipts.FabricProto} (runID : string) (blocks : S → Z → result Receipts.Block) : N unit :=
  let! _ := nret (RunStore.Dir runID) in
  let! _ := nmodify (stamp [Resume.MkEvent "interrupted_at" {["phase"%string := Journal.JStr "verify-only"]}]) in
  let! b := nret bundle in
  let! count := ntry (count_committed b) in
  let! committed := ntry (committed_index b) in
  let! _ := nmodify (stamp [reconcile b count committed]) in
  let! _ := nmodify (λ w, match committed with Ok l => stamp (Resume.crossCheckReceipts (receipts_of w) l) w | Err _ => w end) in
  let! _ := (λ w r w', ∃ fuel ev, verifyOnlyChain fuel (blocks (env w)) w = Some ev ∧ r = Ok tt ∧ w' = stamp [ev] w) in
  nret (match count, committed with
        | Err e, _ => Err e
        | _, Err e => Err e
        | _, _ => Ok tt
        end).

Definition VerifyOnly `{Receipts.Sha256, Receipts.FabricProto} (runID : string) (net : Ceremony.network)
    (blocks : S → Z → result Receipts.Block) : N unit :=
  let! _ := nret (Ceremony.dial net) in verifyOnly runID blocks.
End phase.
End ResumePhase.
