(* ===== verification/ResumePhaseFacts.v ===== *)
(** * What a resume leaves

    A resume put in front of a chain that runs the chaincode ([LiveChain]): the
    committed set it reads while the chain moves is on the ledger, and it either
    finishes the run (every ballot recorded, the election closed, nothing left
    to resume) or leaves a journal the next resume is planned from. *)
From S2P Require Import Prelude Fabric Hex Wire Ristretto Contract BoardSpec HandlerFacts Ledger Client ClientFacts.
From S2P Require Import GoText Receipts ReceiptFile Config RunStore Ballots Bench Journal Resume ResumeFacts Verdict.
From S2P Require Import Ceremony Partials Timeline Phases PhasesFacts ResumePhase.
From stdpp Require Import pretty sorting.
#[local] Open Scope Z_scope.
Import GoText Phases PhasesFacts ResumePhase.

(** The gateway in front of a moving chain: a page of nullifiers is the
    chaincode's answer on some committed state between the call and its return,
    and the text that an election is already closed is the chaincode's refusal
    on such a state, never the text of a context that ended. *)
Class LiveChain (S : Type) `{ChainConsole S, !Gateway S} (text : goerr → string) (details : goerr → list string) := {
  between (s : S) (w : worldstate) (s' : S) : Prop :=
    (∃ h, commits (chain s) h w) ∧ ∃ h, commits w h (chain s');
  query_grows name args s r s' : EvaluateTransaction name args s = (r, s') → grows s s';
  query_nullifiers e n bm s out s' :
    0 < n ≤ Contract.maxNullifierPageSize →
    EvaluateTransaction "ListNullifiers" [e; pretty n; bm] s = (Ok out, s') →
    ∃ w, between s w s' ∧ evaluate (Contract.ListNullifiers e n bm) (healthy w) = Ok out;
  close_refused e s s' err :
    SubmitWithReceipt "CloseElection" [e] s = (s', Err err) →
    str_contains (ErrorText text details (Errorf "%s: %w" [AStr "CloseElection"; AErr err])) (already_closed e) = true →
    ∃ w, between s w s' ∧
      (submit (handler (ICloseElection e)) (healthy w)).2 = Err (Errorf "election %q is already closed" [AStr e]);
  stop_text s e err : ctx_err s = Some err → str_contains (ErrorText text details err) (already_closed e) = false
}.

Module ResumePhaseFacts.

Section reading.
Context {S : Type} `{ChainConsole S, !Gateway S} {text details} `{!LiveChain S text details}.
Context `{!FabricShimLaws, !CommitterLaws, !JsonLaws}.
Hypothesis keys_utf8 : ∀ rk k, composite_key rk = Ok k → utf8 k.

Record holds (s : S) (B : board) : Prop := { h_board : represents (chain s) B; h_wf : board_wf B }.

Lemma commits_holds w B h w' :
  represents w B → board_wf B → commits w h w' → ∃ B', represents w' B' ∧ board_wf B' ∧ board_extends B B'.
Proof.
  intros HB Hwf Hc. destruct (commits_steps _ _ _ _ HB Hc) as (B'&Hs&HB').
  destruct (steps_wf _ _ _ Hwf Hs). by exists B'.
Qed.

(** A bookmark in use: the start, or the key of a nullifier on the ledger. *)
Definition bookmark_ok (B : board) (e bm : string) : Prop :=
  bm = EmptyString ∨ ∃ n, composite_key (KNullifier e n) = Ok bm ∧ is_Some (B !! KNullifier e n).

Lemma bookmark_later B B' e bm : board_extends B B' → bookmark_ok B e bm → bookmark_ok B' e bm.
Proof. intros HB [?|(n&?&?)]; [by left|right]. exists n. split; [done|]. by eapply extends_is_Some. Qed.

(** A page of the chain's nullifiers. *)
Lemma page_of w B e bm out page :
  represents w B → board_wf B → bookmark_ok B e bm →
  evaluate (Contract.ListNullifiers e Client.nullifierPageSize bm) (healthy w) = Ok out →
  UnmarshalNullifierPage out = Ok page →
  (∀ x, x ∈ Nullifiers page → is_Some (B !! KNullifier e x)) ∧ bookmark_ok B e (NextBookmark page).
Proof.
  intros HB Hwf Hbm Hev Hout. destruct (query_page w Contract.nullifierIndex [e]) as (ks&Hnd&Hr&Hq).
  assert (Hkeys : ∀ k, k ∈ ks → ∃ n, composite_key (KNullifier e n) = Ok k ∧ is_Some (B !! KNullifier e n)).
  { intros k Hk. by apply Hr, (nullifier_range _ _ _ _ HB) in Hk. }
  assert (∃ i : nat, i = 0%nat ∧ bm = "" ∨ ks !! i = Some bm) as [i Hi].
  { destruct Hbm as [->|(n&Hk&Hs)]; [exists 0%nat; by left|].
    assert (Hin : bm ∈ ks) by (apply Hr, (nullifier_range _ _ _ _ HB); eauto).
    apply list_elem_of_lookup in Hin as [i Hi]. eauto. }
  unfold Client.nullifierPageSize in Hev. change 10000 with (Z.of_nat (Z.to_nat 10000)) in Hev.
  rewrite (ListNullifiers_page w e (Z.to_nat 10000) bm ks i) in Hev.
  2: { unfold Contract.maxNullifierPageSize. lia. }
  2: { intros k (n&Hk&_)%Hkeys. eauto. }
  2: { apply Hq; [lia|done]. }
  set (p := MkNullifierPage _ _) in Hev. destruct (MarshalNullifierPage p) as [j|] eqn:Ej; [|done].
  cbn in Hev. injection Hev as ->.
  assert (Hnext : ∀ k, ks !! (i + Z.to_nat 10000)%nat = Some k → k ∈ ks) by (intros k; apply list_elem_of_lookup_2).
  rewrite (page_round_trip p out) in Hout; [|..|done].
  - injection Hout as <-. unfold p. cbn [Nullifiers NextBookmark]. split.
    + intros x (k&->&Hk)%list_elem_of_fmap. apply elem_of_take in Hk as (j&Hj&_). rewrite lookup_drop in Hj.
      apply list_elem_of_lookup_2 in Hj. destruct (Hkeys k Hj) as (n&Hn&Hs). unfold key_nullifier.
      by rewrite (split_create _ _ _ Hn).
    + destruct (ks !! _) as [k|] eqn:Ek; [|by left]. right. by apply Hkeys, Hnext.
  - unfold p. cbn. apply Forall_fmap, Forall_forall. intros k Hk. apply elem_of_take in Hk as (j&Hj&_).
    rewrite lookup_drop in Hj. apply list_elem_of_lookup_2 in Hj. destruct (Hkeys k Hj) as (n&Hn&Hs).
    cbn. unfold key_nullifier. rewrite (split_create _ _ _ Hn).
    destruct (wf_nullifier_hex _ _ _ Hwf Hs) as [b ->]. apply utf8_hex.
  - unfold p. cbn. destruct (ks !! _) as [k|] eqn:Ek; [|apply utf8_empty].
    destruct (Hkeys k) as (n&Hn&_); [by apply Hnext|]. by eapply keys_utf8.
Qed.

(** What a read of the chain leaves: the board as it is by then. *)
Definition read_to (s : S) (B : board) (s' : S) (B' : board) : Prop :=
  holds s' B' ∧ board_extends B B' ∧ grows s s'.

Lemma grows_refl s : grows s s.
Proof. split; [exists []; constructor|done]. Qed.

Lemma commits_trans w1 h1 w2 h2 w3 : commits w1 h1 w2 → commits w2 h2 w3 → commits w1 (h1 ++ h2) w3.
Proof.
  intros H1' H2'. induction H2' as [|h w' i st t _ IH Hr Hv]; [by rewrite app_nil_r|].
  rewrite (assoc_L (++)). by econstructor.
Qed.

Lemma grows_trans s1 s2 s3 : grows s1 s2 → grows s2 s3 → grows s1 s3.
Proof.
  intros [[h1 H1'] C1] [[h2 H2'] C2]. split; [|auto]. exists (h1 ++ h2). by eapply commits_trans.
Qed.

Lemma list_sound s B e bm r s' :
  holds s B → bookmark_ok B e bm → Client.ListNullifiers e Client.nullifierPageSize bm s = (r, s') →
  ∃ B', read_to s B s' B' ∧ ∀ page, r = Ok page →
    (∀ x, x ∈ Nullifiers page → is_Some (B' !! KNullifier e x)) ∧ bookmark_ok B' e (NextBookmark page).
Proof.
  intros [HB Hwf] Hbm. unfold Client.ListNullifiers, gbind, gwrap.
  destruct (EvaluateTransaction _ _ s) as [r1 s1] eqn:Ev. pose proof (query_grows _ _ _ _ _ Ev) as Hgr.
  destruct r1 as [out|err]; cbn [wrap_err]; [|intros [= <- <-]].
  - unfold gret. intros [= <- <-].
    destruct (query_nullifiers _ _ _ _ _ _ (conj eq_refl (Z.le_refl _) : 0 < Client.nullifierPageSize ≤ _) Ev)
      as (w&[[h Hc] [h' Hc']]&Hq).
    destruct (commits_holds _ _ _ _ HB Hwf Hc) as (B1&HB1&Hwf1&E1).
    destruct (commits_holds _ _ _ _ HB1 Hwf1 Hc') as (B2&HB2&Hwf2&E2).
    exists B2. split; [split_and!; [by split|by transitivity B1|done]|]. intros page Hp%wrap_err_ok.
    destruct (page_of _ _ _ _ _ _ HB1 Hwf1 (bookmark_later _ _ _ _ E1 Hbm) Hq Hp) as [Hx Hb].
    split; [|by eapply bookmark_later]. intros x Hin. eapply extends_is_Some; [done|by apply Hx].
  - destruct Hgr as [[h Hc] Hctx]. destruct (commits_holds _ _ _ _ HB Hwf Hc) as (B1&HB1&Hwf1&E1).
    exists B1. split; [|done]. split_and!; [by split|done|]. split; [by exists h|done].
Qed.

(** The walk marks only ballots whose nullifier is on the ledger. *)
Lemma walk_sound fuel m e bm committed s B r s' :
  holds s B → bookmark_ok B e bm → Resume.walk fuel m e bm committed s = (Some r, s') →
  ∃ B', read_to s B s' B' ∧ ∀ c, r = Ok c → length c = length committed ∧
    ∀ i, c !! i = Some true → committed !! i = Some true ∨
      ∃ key, m !! key = Some i ∧ is_Some (B' !! KNullifier e (EncodeToString key)).
Proof.
  revert bm committed s B. induction fuel as [|fuel IH]; intros bm committed s B Hh Hbm; [done|].
  cbn [Resume.walk]. destruct (Client.ListNullifiers _ _ _ _) as [[page|err] s1] eqn:El.
  2: { intros [= <- <-]. destruct (list_sound _ _ _ _ _ _ Hh Hbm El) as (B'&?&_). by exists B'. }
  destruct (list_sound _ _ _ _ _ _ Hh Hbm El) as (B1&[Hh1 [E1 G1]]&Hpage).
  destruct (Hpage page eq_refl) as [Hx Hnext].
  assert (Hmarks : ∀ i, Resume.mark_page m (Nullifiers page) committed !! i = Some true →
            committed !! i = Some true ∨ ∃ key, m !! key = Some i ∧ is_Some (B1 !! KNullifier e (EncodeToString key))).
  { intros i [?|(_&x&key&Hin&Hk&Hmi)]%ResumeFacts.mark_page_lookup; [by left|right]. exists key. split; [done|].
    specialize (Hx x Hin). destruct (wf_nullifier_hex _ _ _ (h_wf _ _ Hh1) Hx) as [raw ->].
    by apply ResumeFacts.nullifierKey_encode in Hk as [-> _]. }
  destruct (_ || _).
  - intros [= <- <-]. exists B1. split; [done|]. intros c [= <-]. by rewrite ResumeFacts.mark_page_length.
  - intros Hw. destruct (IH _ _ _ _ Hh1 Hnext Hw) as (B'&[Hh' [E' G']]&Hc). exists B'.
    split; [split_and!; [done|by transitivity B1|by eapply grows_trans]|].
    intros c ->. destruct (Hc c eq_refl) as [Hlen Hmark]. rewrite ResumeFacts.mark_page_length in Hlen. split; [done|].
    intros i [[?|(key&Hm&Hs)]%Hmarks|?]%Hmark; [by left|right|by right]. exists key. split; [done|].
    by eapply extends_is_Some.
Qed.

(** Counting the committed ballots only reads. *)
Lemma count_sound fuel e total bm s B r s' :
  holds s B → bookmark_ok B e bm → Client.count_pages fuel e total bm s = (Some r, s') → ∃ B', read_to s B s' B'.
Proof.
  revert total bm s B. induction fuel as [|fuel IH]; intros total bm s B Hh Hbm; [done|]. cbn [Client.count_pages].
  destruct (Client.ListNullifiers _ _ _ _) as [[page|err] s1] eqn:El; destruct (list_sound _ _ _ _ _ _ Hh Hbm El) as (B1&R1&Hpage).
  2: { intros [= <- <-]. by exists B1. }
  destruct (bool_decide _); [intros [= <- <-]; by exists B1|]. destruct R1 as [Hh1 [E1 G1]].
  intros Hc. destruct (IH _ _ _ _ Hh1 (proj2 (Hpage page eq_refl)) Hc) as (B2&Hh2&E2&G2). exists B2.
  split_and!; [done|by transitivity B1|by eapply grows_trans].
Qed.
End reading.

(** ** The window *)
Section window.
Context {S : Type} `{ChainConsole S, !Gateway S, !RunFolder S} {text details} `{!LiveChain S text details}.
Context `{!FabricShimLaws, !CommitterLaws, !JsonLaws, !Rfc3339, !ReceiptFile.TrailJson}.
Hypothesis keys_utf8 : ∀ rk k, composite_key rk = Ok k → utf8 k.
#[local] Abbreviation world := (@world S files).

Context (c : Config.ElectionConfig) (b : Ceremony.onChainBundle) (ballots : Ballots.stream) (count : nat).
Context (byNullifier : gmap bytes nat).
Hypothesis Hvalid : Ballots.validateBallots ballots = Ok count.
Hypothesis Hindex : Resume.nullifierIndex ballots count = Ok byNullifier.
Hypothesis Hcount : Ceremony.BallotCount b = Z.of_nat count.
Hypothesis Helection : ResumeFacts.of_election ballots (Ceremony.ElectionID b).

(** The ledger holds a ballot with this line's nullifier. *)
Definition line_counted (line : string) (B : board) : Prop :=
  ∃ raw m, DecodeString (TrimSpace line) = Ok raw ∧ UnmarshalBallot raw = Ok m ∧
    is_Some (B !! KBallot (Ceremony.ElectionID b) (EncodeToString (ballot_nullifier m))).

Definition all_counted (B : board) : Prop := ∀ line, line ∈ Ballots.lines ballots → line_counted line B.

(** Every ballot marked is on the ledger. *)
Definition marks_counted (committed : list bool) (B : board) : Prop :=
  length committed = count ∧
  ∀ i line, committed !! i = Some true → Ballots.lines ballots !! i = Some line → line_counted line B.

Lemma counted_later B B' line : board_extends B B' → line_counted line B → line_counted line B'.
Proof. intros HB (raw&m&?&?&?). exists raw, m. split_and!; [done|done|]. by eapply extends_is_Some. Qed.

Lemma marks_later B B' committed : board_extends B B' → marks_counted committed B → marks_counted committed B'.
Proof. intros HB [Hl Hm]. split; [done|]. intros i line Hi Hline. eapply counted_later; eauto. Qed.

Lemma nullifier_counted B i key line :
  board_wf B → byNullifier !! key = Some i → is_Some (B !! KNullifier (Ceremony.ElectionID b) (EncodeToString key)) →
  Ballots.lines ballots !! i = Some line → line_counted line B.
Proof.
  intros Hwf Hk [v Hs] Hline. destruct (ResumeFacts.nullifierIndex_ok _ _ _ Hindex) as (_&_&Hm).
  apply Hm in Hk as [(line'&Hl'&(_&raw&m&Hraw&Hun&<-)%ResumeFacts.line_nullifier_ok) _].
  assert (line' = line) as -> by congruence. exists raw, m. split_and!; [done|done|].
  by destruct (Hwf _ _ Hs) as [_ ?].
Qed.

Lemma landed_counted B i line :
  Ballots.line_at ballots i = Ok line → done_on B (ISubmitBallot line) →
  ∀ l, Ballots.lines ballots !! i = Some l → line_counted l B.
Proof.
  unfold Ballots.line_at. intros Hl (raw&m&Hraw&Hun&Hb) l Hi. rewrite Hi in Hl. injection Hl as <-.
  exists raw, m. split_and!; [done|done|]. unfold ballot_slot in Hb. cbn in Hb.
  rewrite (Helection i l raw m Hi Hraw Hun) in Hb. by eexists.
Qed.

(** Reading the committed set. *)
Lemma triple_committed_set :
  triple (committed_set (S := S) byNullifier b) (λ cm w B, marks_counted cm B).
Proof.
  intros w r w' B (fuel&s&Hw&->) [HB Hwf]. unfold Resume.chainCommitted in Hw.
  destruct (walk_sound keys_utf8 _ _ _ _ _ _ B _ _ {| h_board := HB; h_wf := Hwf |} (or_introl eq_refl) Hw)
    as (B'&[[HB' Hwf'] [E [_ G]]]&Hc).
  exists B'. split_and!; [by split|by split|]. intros cm ->. destruct (Hc cm eq_refl) as [Hlen Hmark].
  rewrite length_replicate, Hcount, Nat2Z.id in Hlen. split; [done|]. intros i line Hi Hline.
  destruct (Hmark i Hi) as [Hf|(key&Hk&Hs)].
  - by apply lookup_replicate in Hf as [? _].
  - by eapply nullifier_counted.
Qed.

(** ** What the journal says meanwhile *)
Definition scanned (w : world) : Resume.scan := foldl Resume.scan_event Resume.scan0 (stamps w).

(** Events a plan is not read from. *)
Definition idle (evs : list Resume.event) : Prop := ∀ s, foldl Resume.scan_event s evs = s.

Lemma idle_nil : idle [].
Proof. done. Qed.

Lemma idle_app evs evs' : idle evs → idle evs' → idle (evs ++ evs').
Proof. intros H1' H2' s. by rewrite foldl_app, H1', H2'. Qed.

Lemma idle_kind k fs : (∀ s, Resume.scan_event s (Resume.MkEvent k fs) = s) → idle [Resume.MkEvent k fs].
Proof. intros Hk s. apply Hk. Qed.

Lemma scanned_stamp evs (w : world) : scanned (stamp evs w) = foldl Resume.scan_event (scanned w) evs.
Proof. unfold scanned. cbn. by rewrite foldl_app. Qed.

Lemma scanned_others (w w' : world) : others w w' → scanned w' = scanned w.
Proof. by intros [_ ->]. Qed.

(** A phase that leaves the plan as it is. *)
Definition still {A} (m : @N S files A) : Prop := ∀ w r w', m w r w' → scanned w' = scanned w.

Lemma still_ret {A} (r : result A) : still (nret r).
Proof. by intros w r' w' [_ ->]. Qed.

Lemma still_lift {A} (f : world → world * result A) : (∀ w, scanned (f w).1 = scanned w) → still (nlift f).
Proof. intros Hf w r w' Hr. unfold nlift in Hr. specialize (Hf w). by rewrite Hr in Hf. Qed.

Lemma still_bind {A B'} (m : N A) (k : A → N B') : still m → (∀ a, still (k a)) → still (nbind m k).
Proof.
  intros Hm Hk w r w' [(a&w1&H1'&H2')|(e&H1'&_)]; [|by eapply Hm].
  rewrite (Hk a _ _ _ H2'). by eapply Hm.
Qed.

Lemma still_finally {A} (m : N A) f : still m → (∀ w, scanned (f w) = scanned w) → still (nfinally m f).
Proof. intros Hm Hf w r w' (w1&Hr&->). rewrite Hf. by eapply Hm. Qed.

Lemma still_try {A} (m : N A) : still m → still (ntry m).
Proof. intros Hm w r w' (r1&Hr&_). by eapply Hm. Qed.

Lemma still_step event ref fn args : still (step (S := S) (T := files) event ref fn args).
Proof.
  apply still_bind; [by apply still_lift|]. intros _. apply still_lift. intros w. unfold commit.
  destruct (SubmitWithReceipt fn args (env w)) as [s [rc|e]]; [|done].
  by destruct (if String.eqb event "SubmitBallot" then _ else _) as [fs r1].
Qed.

Lemma still_open : still (nlift (openReceiptsFor (S := S) (T := files))).
Proof.
  apply still_lift. intros w. unfold openReceiptsFor. destruct (0 <? refs w)%nat; [done|].
  destruct (os_open (env w)) as [[? ?] ?]. by destruct (ReceiptFile.openReceipts _ _ _ _ _) as [fs [|]].
Qed.

Lemma still_close : still (closeElection (S := S) (T := files) b c).
Proof.
  apply still_bind; [apply still_step|]. intros _. destruct (negb _); [apply still_ret|].
  apply still_bind; [by intros w r w' [_ ?%scanned_others]|]. intros _. by apply still_lift.
Qed.

Lemma still_committed_set : still (committed_set byNullifier b).
Proof. by intros w r w' (fuel&s&_&->). Qed.

Lemma scanned_collect l (w : world) : scanned (collectReceipts l w) = scanned w.
Proof.
  unfold collectReceipts. set (items := merge_sort by_index l). generalize (blocks_of items).
  intros ns. revert w. induction ns as [|n ns IH]; intros w; [done|]. cbn [foldl]. rewrite IH.
  unfold collect_block. destruct (ReceiptsForBlock n _ (env w)) as [s [rs|e]].
  - assert (Hf : ∀ evs w1, scanned (foldl append_receipt w1 evs : world) = scanned w1).
    { induction evs as [|ev evs IHe]; intros w1; [done|]. cbn. by rewrite IHe. }
    by rewrite Hf.
  - rewrite scanned_stamp. by apply idle_kind.
Qed.

Lemma window_stamps d asked x asked' x' :
  window_steps (S := S) (T := files) ballots d asked x asked' x' →
  ∃ ps, stamps (ww x') = stamps (ww x) ++ ps ∧ Forall (λ ev, Resume.kind ev = "ballots.progress"%string) ps.
Proof.
  induction 1 as [|asked1 x1 asked2 x2 _ (ps&IH&Hps) Hs]; [exists []; by rewrite app_nil_r|].
  destruct Hs as [i _ _|i line _|k|w' [_ ->]].
  - exists ps. unfold read_line. by destruct (Ballots.At (wanted d) ballots i (reader x1)) as [rd [l|e]].
  - exists ps. unfold submit_line. by destruct (SubmitTx "SubmitBallot" [line] (env (ww x1))) as [s [[tx blk]|e]].
  - exists (ps ++ [progress d k]). cbn [ww stamp stamps]. rewrite IH, (assoc_L (++)). split; [done|].
    apply Forall_app. split; [done|]. by constructor.
  - by exists ps.
Qed.

Lemma closing_scan s plan res o ms sg :
  let s' := foldl Resume.scan_event s (Resume.closing_events plan res o ms sg) in
  Resume.open s' = Resume.interrupted o ∧ Resume.resumed s' = Resume.resumed s ∧
  (Resume.interrupted o = false → Resume.endDropped s' = Resume.dropped o).
Proof. unfold Resume.closing_events. cbn [foldl]. by destruct (Resume.interrupted o). Qed.

Lemma modify_inv {A} f (k : @N S files A) (w w' : world) r : nbind (nmodify f) (λ _, k) w r w' → k (f w) r w'.
Proof. intros [([]&w1&Hf&Hk)|(e&Hf&_)]; [|done]. unfold nmodify, nlift in Hf. by injection Hf as <-. Qed.

(** What follows the window: receipts, files, the verdict. *)
Lemma after_spec plan committed m res x replays (w w' : world) r B :
  after_resume text c plan committed m res x replays w r w' → good w B →
  let o := Resume.window_outcome res replays in
  ∃ B', good w' B' ∧ later w B w' B' ∧
    (∃ ms sg, scanned w' = foldl Resume.scan_event (scanned w) (Resume.closing_events plan res o ms sg)) ∧
    (r = Ok tt → Resume.dropped o ≤ 0).
Proof.
  unfold after_resume. set (o := Resume.window_outcome res replays). set (sg := Verdict.segmentOf _ _ _).
  intros Hr%modify_inv Hg. set (w0 := stamp _ w) in Hr.
  assert (Hs0 : scanned w0 = foldl Resume.scan_event (scanned w) (Resume.closing_events plan res o (Verdict.ms (figs m)) sg))
    by apply scanned_stamp.
  assert (Hg0 : good w0 B) by (by destruct Hg).
  destruct (readErr x) as [e|].
  { destruct Hr as [-> ->]. exists B. split_and!; [done|by split|eauto|done]. }
  apply modify_inv in Hr. set (w1 := collectReceipts _ _) in Hr.
  destruct (collectReceipts_good (landed x) w0 B Hg0) as (B1&Hg1&L1). fold w1 in Hg1, L1.
  assert (Hs1 : scanned w1 = scanned w0) by apply scanned_collect.
  assert (L1' : later w B w1 B1) by exact L1.
  destruct (latenciesErr m) as [e|].
  { destruct Hr as [-> ->]. exists B1. split_and!; [done|done|rewrite Hs1; eauto|done]. }
  apply modify_inv, modify_inv in Hr. set (w2 := stamp _ _) in Hr. apply modify_inv in Hr.
  assert (Hs2 : scanned w2 = scanned w1).
  { unfold w2. rewrite scanned_stamp. by apply idle_kind. }
  exists B1. destruct (0 <? Resume.dropped o) eqn:Ed; destruct Hr as [-> ->].
  - split_and!; [by destruct Hg1|by destruct L1'| |done]. exists (Verdict.ms (figs m)), sg.
    rewrite <-Hs0, <-Hs1, <-Hs2. done.
  - split_and!; [by destruct Hg1|by destruct L1'| |intros _; by apply Z.ltb_ge in Ed]. exists (Verdict.ms (figs m)), sg.
    rewrite <-Hs0, <-Hs1, <-Hs2. done.
Qed.

(** Reading the chain again; [after] is what it answers, if it is asked. *)
Lemma replayed_spec pending res (w w' : world) r B :
  replayed byNullifier b pending res w r w' → good w B →
  ∃ B' after, good w' B' ∧ later w B w' B' ∧ scanned w' = scanned w ∧
    r = Ok (Resume.replayedIndices pending res after) ∧ ∀ cm, after = Ok cm → marks_counted cm B'.
Proof.
  unfold replayed. intros Hr Hg. destruct (Resume.failed_slots res) as [|k ks] eqn:Ef.
  - destruct Hr as [-> ->]. exists B, (Err (Foreign "")). split_and!; [done|apply later_refl|done|done|done].
  - destruct Hr as [(after&w1&(r1&Hset&[= <-])&Hr)|(e&(r1&_&?)&_)]; [|done]. apply modify_inv in Hr.
    destruct Hr as [-> ->]. destruct (triple_committed_set _ _ _ _ Hset Hg) as (B1&Hg1&L1&Hm).
    exists B1, after. split_and!; [by destruct Hg1|by destruct L1| |done|exact Hm].
    rewrite scanned_stamp. rewrite (still_committed_set _ _ _ Hset).
    destruct after; [apply idle_nil|by apply idle_kind].
Qed.

(** A window without dropped ballots has no failure the chain does not make good. *)
Lemma outcome_covers n evs res todo after k t :
  Bench.accounted n evs res → Resume.dropped (Resume.window_outcome res (Resume.replayedIndices todo res after)) ≤ 0 →
  (k, (t, false)) ∈ evs → ∃ cm, after = Ok cm ∧ Resume.is_replay todo cm k = true.
Proof.
  intros Ha Hd Hin. destruct after as [cm|e].
  - destruct (ResumeFacts.window_outcome_ok n evs res todo cm Ha) as (Hpos&_&Hzero). exists cm. split; [done|].
    eapply (proj1 Hzero); [|exact Hin]. lia.
  - exfalso. cbn in Hd. rewrite (Bench.acc_dropped _ _ _ Ha) in Hd.
    assert (Hf : (k, (t, false)) ∈ filter (λ ev : nat * (Z * bool), ev.2.2 = false) evs)
      by (apply list_elem_of_filter; done).
    apply list_elem_of_lookup_1 in Hf as [j Hj]. apply lookup_lt_Some in Hj. lia.
Qed.

(** The window and what is known when it has been judged. *)
Lemma drive_window plan committed m (w w' : world) r B :
  good w B → Resume.resumed (scanned w) = true →
  drive text c ballots byNullifier b plan committed m w r w' →
  ∃ res after evs B',
    let o := Resume.window_outcome res (Resume.replayedIndices (Resume.pending committed) res after) in
    good w' B' ∧ later w B w' B' ∧ Bench.accounted (length (Resume.pending committed)) evs res ∧
    (Bench.Stopped res = true → is_Some (ctx_err (env w'))) ∧
    (∀ k t i line, (k, (t, true)) ∈ evs → Resume.pending committed !! k = Some i →
       Ballots.lines ballots !! i = Some line → line_counted line B') ∧
    (∀ cm, after = Ok cm → marks_counted cm B') ∧
    Resume.open (scanned w') = Resume.interrupted o ∧ Resume.resumed (scanned w') = true ∧
    (Resume.interrupted o = false → Resume.endDropped (scanned w') = Resume.dropped o) ∧
    (r = Ok tt → Resume.dropped o ≤ 0).
Proof.
  intros Hg Hres Hr%modify_inv. set (w0 := stamp _ w) in Hr.
  assert (Hs0 : Resume.open (scanned w0) = true ∧ Resume.resumed (scanned w0) = true)
    by (unfold w0; by rewrite scanned_stamp).
  assert (Hg0 : good w0 B) by (by destruct Hg).
  destruct Hr as [([res x]&w1&(time&res'&asked&x'&Hd&Hstop&[= <- <-]&Hoth)&Hr)|(e&(?&?&?&?&_&_&?&_)&_)]; [|done].
  pose proof Hd as (_&_&_&_&_&Hsteps&_).
  destruct (window_steps_good _ _ Hvalid _ _ _ _ _ _ Hsteps (open_window_inv _ _ w0 B) Hg0) as (B1&Hg1&L1&HI).
  destruct (dispatched_landed _ _ _ _ _ _ _ _ _ _ Hd HI) as (evs&Ha&Hland).
  destruct (window_stamps _ _ _ _ _ Hsteps) as (ps&Hst&Hps).
  assert (Hs1 : scanned w1 = foldl Resume.scan_event (scanned w0) ps).
  { rewrite (scanned_others _ _ Hoth). unfold scanned. by rewrite Hst, foldl_app. }
  rewrite ResumePlan.scan_progress in Hs1 by tauto.
  destruct (grows_good (ww x) w1 B1) as (B2&Hg2&L2); [by apply evolves_grows; destruct Hoth|done|].
  assert (Hrep : ∃ after w2 B3, good w2 B3 ∧ later w1 B2 w2 B3 ∧ scanned w2 = scanned w1 ∧ (∀ cm, after = Ok cm → marks_counted cm B3) ∧
            after_resume text c plan committed m res x (Resume.replayedIndices (Resume.pending committed) res after) w2 r w').
  { destruct Hr as [(replays&w2&Hrep&Haft)|(e&Hrep&_)];
      destruct (replayed_spec _ _ _ _ _ _ Hrep Hg2) as (B3&after&Hg3&L3&Hs3&Er&Hm); [|done].
    injection Er as ->. by exists after, w2, B3. }
  destruct Hrep as (after&w2&B3&Hg3&L3&Hs3&Hm&Haft).
  destruct (after_spec _ _ _ _ _ _ _ _ _ _ Haft Hg3) as (B4&Hg4&L4&(ms&sg&Hs4)&Hok).
  exists res, after, evs, B4. cbn zeta. set (o := Resume.window_outcome _ _) in *.
  destruct (closing_scan (scanned w2) plan res o ms sg) as (C1&C2&C3). rewrite <-Hs4 in C1, C2, C3.
  assert (L : later (ww x) B1 w' B4) by (eapply later_trans; [exact L2|]; by eapply later_trans).
  split_and!; [done|by eapply later_trans|done|..].
  - intros Hs. by apply L, Hstop.
  - intros k t i line Hin Hk Hl. destruct (Hland k t Hin) as (line'&Hl'&Hdone). cbn [slot] in Hl'. rewrite Hk in Hl'.
    cbn in Hl'. eapply counted_later; [apply L|]. by eapply landed_counted.
  - intros cm E. eapply marks_later; [apply L4|by apply Hm].
  - exact C1.
  - rewrite C2, Hs3, Hs1. exact (proj2 Hs0).
  - exact C3.
  - exact Hok.
Qed.

(** What is left of a resumed window: the plan that can be read from it. *)
Definition resumable (s : Resume.scan) : Prop :=
  Resume.open s = true ∨ Resume.resumed s = true ∧ Resume.endDropped s = 0.

Lemma drive_good plan committed m (w w' : world) r B :
  marks_counted committed B → good w B → Resume.resumed (scanned w) = true →
  drive text c ballots byNullifier b plan committed m w r w' →
  ∃ B', good w' B' ∧ later w B w' B' ∧ resumable (scanned w') ∧
    (r = Ok tt → is_Some (ctx_err (env w')) ∨ all_counted B' ∧ Resume.open (scanned w') = false).
Proof.
  intros [Hlen Hmarks] Hg Hres Hr.
  destruct (drive_window _ _ _ _ _ _ _ Hg Hres Hr) as (res&after&evs&B'&Hg'&HL&Ha&Hstop&Hland&Hafter&Ho&Hrs&Hed&Hok).
  set (o := Resume.window_outcome _ _) in *.
  assert (Hint : Resume.interrupted o = false ↔ Bench.Stopped res = false ∧ Resume.dropped o = 0)
    by apply ResumeFacts.not_interrupted_iff.
  exists B'. split_and!; [done|done| |].
  - destruct (Resume.interrupted o) eqn:Ei; [by left|right]. split; [done|]. rewrite Hed by done. by apply Hint.
  - intros ->. specialize (Hok eq_refl). destruct (Bench.Stopped res) eqn:Es; [left; by apply Hstop|right].
    assert (Hd0 : Resume.dropped o = 0) by (unfold o in *; cbn in *; lia). split; [|rewrite Ho; by apply Hint].
    intros line (i&Hi)%list_elem_of_lookup. pose proof (lookup_lt_Some _ _ _ Hi) as Hlt.
    destruct (ResumeFacts.nullifierIndex_ok _ _ _ Hindex) as (Hn&_). rewrite <-Hn, <-Hlen in Hlt.
    destruct (lookup_lt_is_Some_2 committed i Hlt) as [[] Hc].
    + eapply counted_later; [apply HL|]. by eapply Hmarks.
    + apply ResumeFacts.elem_of_pending, list_elem_of_lookup in Hc as [k Hk].
      destruct (Bench.acc_covered _ _ _ k Ha Es) as (t&ok&Hin); [by apply lookup_lt_Some in Hk|]. destruct ok.
      * by eapply Hland.
      * destruct (outcome_covers _ _ _ _ _ _ _ Ha Hok Hin) as (cm&->&Hrep). unfold Resume.is_replay in Hrep. rewrite Hk in Hrep.
        destruct (cm !! i) as [[]|] eqn:Ei; [|done|done]. by apply (proj2 (Hafter cm eq_refl) i line).
Qed.
End window.

(** ** The phase *)
Section phase.
Context {S : Type} `{ChainConsole S, !Gateway S, !RunFolder S} {text details} `{!LiveChain S text details}.
Context `{!FabricShimLaws, !CommitterLaws, !JsonLaws, !Rfc3339, !ReceiptFile.TrailJson}.
Hypothesis keys_utf8 : ∀ rk k, composite_key rk = Ok k → utf8 k.
#[local] Abbreviation world := (@world S files).
#[local] Abbreviation N := (@N S files).

Lemma idle_cross r cm : idle (Resume.crossCheckReceipts r cm).
Proof.
  unfold Resume.crossCheckReceipts. apply idle_app; [by destruct r; try apply idle_kind|].
  induction (Resume.rows_of r) as [|ev evs IH]; [apply idle_nil|]. cbn.
  destruct (String.eqb (Resume.Event ev) "SubmitBallot"); [|exact IH].
  destruct (Atoi (Resume.Ref ev)) as [i|]; [|exact IH]. destruct (_ || _); [|exact IH].
  apply (idle_app [_]); [by apply idle_kind|exact IH].
Qed.

(** *** The receipts writer is released *)
Lemma keeps_modify {A} f (k : N A) :
  (∀ w : world, refs (f w) = refs w) → keeps k → keeps (nbind (nmodify f) (λ _, k)).
Proof. intros Hf Hk. apply keeps_bind; [by apply keeps_lift|done]. Qed.

Lemma keeps_committed_set m b : keeps (committed_set (S := S) m b).
Proof. by intros w r w' (fuel&s&_&->). Qed.

Lemma keeps_try {A} (m : N A) : keeps m → keeps (ntry m).
Proof. intros Hm w r w' (r1&Hr&_). by eapply Hm. Qed.

Lemma keeps_replayed m b pending res : keeps (replayed m b pending res).
Proof.
  unfold replayed. destruct (Resume.failed_slots res); [apply keeps_ret|].
  apply keeps_bind; [apply keeps_try, keeps_committed_set|]. intros after. by apply keeps_modify; [|apply keeps_ret].
Qed.

Lemma keeps_after_resume c plan cm m res x replays : keeps (after_resume text c plan cm m res x replays).
Proof.
  unfold after_resume. apply keeps_modify; [done|]. destruct (readErr x); [apply keeps_ret|].
  apply keeps_modify; [intros w; apply keeps_collect|]. destruct (latenciesErr m); [apply keeps_ret|].
  do 3 (apply keeps_modify; [done|]). destruct (0 <? _); apply keeps_ret.
Qed.

Lemma keeps_drive c ballots bn b plan cm m : keeps (drive text c ballots bn b plan cm m).
Proof.
  apply keeps_modify; [done|]. apply keeps_bind.
  - intros w r w' (time&res&asked&x&(_&_&_&_&_&Hs&_)&_&_&[_ ->]). by apply keeps_window_steps in Hs.
  - intros rx. apply keeps_bind; [apply keeps_replayed|]. intros replays. apply keeps_after_resume.
Qed.

Lemma keeps_resumeBallots c bundle ballots : keeps (resumeBallots text c bundle ballots).
Proof.
  unfold resumeBallots. repeat (apply keeps_bind; [first [apply keeps_ret | by apply keeps_lift | apply keeps_committed_set]|intros ?]).
  intros w r w' (openErr&m&Hr). revert Hr. apply keeps_bind; [apply keeps_ret|]. intros _.
  apply keeps_open_close, keeps_drive.
Qed.

Lemma keeps_finish c b co : keeps (finish text details c b co).
Proof.
  unfold finish. apply keeps_bind; [apply keeps_try, keeps_close|]. intros r. apply keeps_modify; [done|].
  apply keeps_bind; [apply keeps_ret|]. intros _ w r' w' [(now&_&->)|(e&_&->)]; done.
Qed.

Lemma keeps_wrap {A} f (m : N A) : keeps m → keeps (nwrap f m).
Proof. intros Hm w r w' (r1&Hr&_). by eapply Hm. Qed.

Lemma keeps_resume c bundle ballots : keeps (resumeAndClose text details c bundle ballots).
Proof.
  unfold resumeAndClose. apply keeps_bind; [by apply keeps_lift|]. intros plan. apply keeps_bind.
  - destruct (Resume.CloseOnly plan); [apply keeps_ret|]. apply keeps_bind; [apply keeps_resumeBallots|].
    intros _. by apply keeps_wrap, keeps_lift.
  - intros _. apply keeps_bind; [apply keeps_ret|]. intros b'. apply keeps_open_close, keeps_finish.
Qed.

Context (c : Config.ElectionConfig) (b : Ceremony.onChainBundle) (ballots : Ballots.stream) (count : nat).
Hypothesis Hvalid : Ballots.validateBallots ballots = Ok count.
Hypothesis Helection : ResumeFacts.of_election ballots (Ceremony.ElectionID b).

(** *** Forward reasoning: what a phase leaves, from the world it starts in *)
Definition spec {A} (m : N A) (w : world) (B : board) (Q : result A → world → board → Prop) : Prop :=
  ∀ r w', m w r w' → ∃ B', good w' B' ∧ later w B w' B' ∧ Q r w' B'.

Lemma spec_bind {A B'} (m : N A) (k : A → N B') w B (F : A → world → board → Prop) (Q : result B' → world → board → Prop) :
  spec m w B (λ r w1 B1, match r with Ok a => F a w1 B1 | Err e => Q (Err e) w1 B1 end) →
  (∀ a w1 B1, good w1 B1 → later w B w1 B1 → F a w1 B1 → spec (k a) w1 B1 Q) →
  spec (nbind m k) w B Q.
Proof.
  intros Hm Hk r w' [(a&w1&H1'&H2')|(e&H1'&->)]; destruct (Hm _ _ H1') as (B1&Hg&HL&HF); [|by exists B1].
  destruct (Hk a w1 B1 Hg HL HF _ _ H2') as (B2&?&L2&?). exists B2. split_and!; [done|by eapply later_trans|done].
Qed.

(** A step of the run's own. *)
Lemma spec_own {A} (f : world → world * result A) w B (Q : result A → world → board → Prop) :
  good w B → env (f w).1 = env w → Q (f w).2 (f w).1 B → spec (nlift f) w B Q.
Proof.
  intros [HB Hwf] He HQ r w' Hr. unfold nlift in Hr. rewrite Hr in He, HQ. cbn in He, HQ. exists B. split_and!; [split; [by rewrite He|done]| |done].
  unfold later. by rewrite He.
Qed.

Lemma spec_ret {A} (r : result A) w B (Q : result A → world → board → Prop) : good w B → Q r w B → spec (nret r) w B Q.
Proof. intros Hg HQ r' w' [-> ->]. exists B. split_and!; [done|apply later_refl|done]. Qed.

Lemma spec_modify {A} f (k : N A) w B Q :
  good w B → env (f w) = env w → (good (f w) B → later w B (f w) B → spec k (f w) B Q) →
  spec (nbind (nmodify f) (λ _, k)) w B Q.
Proof.
  intros [HB Hwf] He Hk. assert (Hg : good (f w) B) by (split; [by rewrite He|done]).
  assert (HL : later w B (f w) B) by (unfold later; by rewrite He).
  eapply (spec_bind _ _ w B (λ _ w1 B1, w1 = f w ∧ B1 = B)).
  - apply spec_own; [by split|done|by split].
  - intros [] w1 B1 _ _ [-> ->]. by apply Hk.
Qed.

Definition whole (w : world) : Prop := JournalFile (env w) (stamps w) = Ok (stamps w).

(** What a resume of the ballots leaves. *)
Definition ballots_over (w0 : world) (r : result unit) (w : world) (B : board) : Prop :=
  (resumable (scanned w0) → resumable (scanned w)) ∧
  (r = Ok tt → is_Some (ctx_err (env w)) ∨ all_counted b ballots B ∧ Resume.open (scanned w) = false).

Lemma resumeBallots_good w B : good w B → whole w → spec (resumeBallots text c (Ok b) ballots) w B (ballots_over w).
Proof.
  intros Hg Hwhole. unfold resumeBallots.
  assert (Hstay : ∀ e w1 B1, scanned w1 = scanned w → ballots_over w (Err e) w1 B1) by (by intros e w1 B1 E; split; [rewrite E|]).
  apply (spec_bind _ _ w B (λ b' w1 B1, b' = b ∧ w1 = w)); [by apply spec_ret|]. intros b' w1 B1 Hg1 _ [-> ->].
  apply (spec_bind _ _ w B1 (λ plan w2 _, w2 = w ∧
    Resume.planResume (Config.Mode c) (Ok (stamps w)) (close_recorded w) = Ok plan)).
  { apply spec_own; [done|done|]. cbn. rewrite Hwhole. destruct (Resume.planResume _ _ _); [done|by apply Hstay]. }
  intros plan w2 B2 Hg2 _ [-> Hplan].
  apply (spec_bind _ _ w B2 (λ _ w3 _, w3 = w ∧ Resume.CloseOnly plan = false)).
  { apply spec_ret; [done|]. destruct (Resume.CloseOnly plan); [by apply Hstay|done]. }
  intros _ w3 B3 Hg3 _ [-> Hco]. destruct (ResumePlan.planResume_open _ _ _ _ Hplan Hco) as (_&Hseg&Hopen&Hst&_).
  apply (spec_bind _ _ w B3 (λ _ w4 _, w4 = w ∧ 0 ≤ Ceremony.BallotCount b)).
  { apply spec_ret; [done|]. destruct (Z.leb_spec 0 (Ceremony.BallotCount b)); [done|by apply Hstay]. }
  intros _ w4 B4 Hg4 _ [-> Hpos].
  apply (spec_bind _ _ w B4 (λ bn w5 _, w5 = w ∧ Resume.nullifierIndex ballots (Z.to_nat (Ceremony.BallotCount b)) = Ok bn)).
  { apply spec_ret; [done|]. destruct (Resume.nullifierIndex _ _); [done|by apply Hstay]. }
  intros bn w5 B5 Hg5 _ [-> Hindex].
  assert (Hcount : Z.to_nat (Ceremony.BallotCount b) = count).
  { destruct (ResumeFacts.nullifierIndex_ok _ _ _ Hindex) as [-> _]. by apply Ballots.validateBallots_ok in Hvalid as (_&_&->). }
  rewrite Hcount in Hindex. assert (Hcount' : Ceremony.BallotCount b = Z.of_nat count) by lia.
  apply (spec_bind _ _ w B5 (λ cm w6 B6, scanned w6 = scanned w ∧ marks_counted b ballots count cm B6)).
  { intros r w6 Hset.
    destruct (triple_committed_set keys_utf8 b ballots count bn Hindex Hcount' _ _ _ _ Hset Hg5) as (B6&Hg6&L6&Hm).
    pose proof (still_committed_set b bn _ _ _ Hset) as Hs. exists B6. split_and!; [done|done|].
    destruct r as [cm|e]; [by split; [|apply Hm]|by apply Hstay]. }
  intros cm w6 B6 Hg6 _ [Hs6 Hm6].
  apply spec_modify; [done|done|]. intros Hg7 _. set (w7 := stamp _ w6) in *.
  assert (Hs7 : scanned w7 = scanned w) by (unfold w7; rewrite scanned_stamp, <-Hs6; apply idle_cross).
  apply spec_modify; [done|done|]. intros Hg8 _. set (w8 := stamp _ w7) in *.
  assert (Hs8 : Resume.open (scanned w8) = true ∧ Resume.resumed (scanned w8) = true).
  { unfold w8. rewrite scanned_stamp, Hs7, ResumePlan.scan_segment_events by done. done. }
  intros r w' (openErr&m&Hr). revert r w' Hr.
  match goal with |- ∀ r w', ?m _ r w' → _ => change (spec m w8 B6 (ballots_over w)) end.
  assert (Hres : ∀ e x Bx, scanned x = scanned w8 → ballots_over w (Err e) x Bx)
    by (intros e x Bx E; split; [intros _; left; rewrite E; tauto|done]).
  apply (spec_bind _ _ w8 B6 (λ _ w9 _, w9 = w8)).
  { apply spec_ret; [done|]. destruct openErr; [by apply Hres|done]. }
  intros _ w9 B9 Hg9 L9 ->.
  apply (spec_bind _ _ w8 B9 (λ _ w10 _, scanned w10 = scanned w8)).
  { intros r w10 Ho. destruct (triple_open _ _ _ _ Ho Hg9) as (B10&Hg10&L10&_). pose proof (still_open _ _ _ Ho) as Hs.
    exists B10. split_and!; [done|done|]. destruct r; [done|by apply Hres]. }
  intros _ w10 B10 Hg10 L10 Hs10 r w' (w11&Hd&->).
  destruct (drive_good keys_utf8 c b ballots count bn Hvalid Hindex Hcount' Helection plan cm m w10 w11 r B10)
    as (B11&[? ?]&L11&Hr&Hok); [|done|rewrite Hs10; tauto|done|].
  { eapply marks_later; [|exact Hm6]. transitivity B9; [apply L9|apply L10]. }
  exists B11. split_and!; [by split|exact L11|]. split; [intros _; exact Hr|exact Hok].
Qed.
(** *** The close *)

(** The chaincode says an election is already closed only when it is. *)
Lemma refused_is_closed w B e :
  represents w B →
  (submit (handler (ICloseElection e)) (healthy w)).2 = Err (Errorf "election %q is already closed" [AStr e]) →
  B !! KStatus e = Some closed_value.
Proof.
  intros HB. unfold submit. cbn [handler]. unfold Contract.CloseElection.
  destruct (composite_key (KStatus e)) as [k|err] eqn:Ek.
  - rewrite <-(rep_lookup _ _ HB _ _ Ek).
    erewrite mbind_run; [|apply build_key_ok; split; [exact Ek|reflexivity]].
    erewrite mbind_run; [|apply read_key_ok; done]. cbn [healthy Fabric.world].
    destruct (w !! k) as [v|] eqn:Ev; [|discriminate].
    destruct (decide (string_of_bytes v = Contract.electionStatusClosed)) as [E|E].
    + intros _. unfold closed_value. by rewrite <-E, bytes_of_string_of_bytes.
    + rewrite bool_decide_false by done. unfold Contract.write_key, mwrap, PutState. discriminate.
  - intros Hr. exfalso. revert Hr. unfold mbind, Contract.build_key, mwrap, mlift.
    unfold composite_key in Ek. cbn in Ek. rewrite Ek. discriminate.
Qed.

Lemma close_good (w w' : world) r B :
  closeElection b c w r w' → good w B →
  ∃ B', good w' B' ∧ later w B w' B' ∧
    ∀ x, close_result text details b r = Ok x → B' !! KStatus (Ceremony.ElectionID b) = Some closed_value.
Proof.
  intros Hr Hg. destruct r as [[]|e].
  { destruct (triple_close b c _ _ _ _ Hr Hg) as (B'&Hg'&HL&HF). exists B'. split_and!; [done|done|]. intros _ _. by apply (HF tt). }
  destruct Hr as [([]&w1&Hs&Hr)|(e'&Hs&[= <-])].
  - destruct (triple_step "CloseElection" "" "CloseElection" [Ceremony.ElectionID b] _ eq_refl _ _ _ _ Hs Hg) as (B1&Hg1&L1&Hc).
    assert (∃ B', good w' B' ∧ later w1 B1 w' B') as (B'&Hg'&L').
    { revert Hr. destruct (negb _); [by intros [? _]|]. intros Hr.
      destruct (triple_seq _ _ _ _ (triple_pause (S := S) (T := files)) stable_true triple_check_ctx _ _ _ _ Hr Hg1) as (B'&?&?&_).
      by exists B'. }
    exists B'. split_and!; [done|by eapply later_trans|]. intros _ _. eapply extends_closed; [apply L'|by apply (Hc tt)].
  - destruct Hs as [([]&w1&Hc&Hs)|(e'&Hc&[= <-])].
    + unfold check_ctx, nlift in Hc. injection Hc as <- _.
      destruct (commit_good "CloseElection" "" "CloseElection" [Ceremony.ElectionID b] (ICloseElection (Ceremony.ElectionID b))
                w w' _ B eq_refl Hs Hg) as (B'&Hg'&L'&_).
      unfold nlift, commit in Hs. destruct (SubmitWithReceipt "CloseElection" [Ceremony.ElectionID b] (env w)) as [s [rc|err]] eqn:Es.
      * destruct (receipt_acked _ _ _ _ _ _ Es eq_refl) as (h1&h2&Hh).
        assert (He : env w' = s).
        { cbn [String.eqb] in Hs. by destruct (ReceiptFile.Lifecycle _ _ _ _) as [fs r1]; injection Hs as <- _. }
        destruct (acked_good w w' B h1 (ICloseElection (Ceremony.ElectionID b)) h2) as (B2&Hg2&L2&Hd); [by rewrite He|by apply L'|done|].
        exists B2. split_and!; [done|done|]. by intros _ _.
      * injection Hs as <- <-. exists B'. split_and!; [done|done|]. intros x. unfold close_result.
        destruct (str_contains _ _) eqn:Ec; [intros _|done].
        destruct (close_refused _ _ _ _ Es Ec) as (W&[[h1 H1'] [h2 H2']]&Hsub). destruct Hg as [HB Hwf].
        destruct (commits_holds _ _ _ _ HB Hwf H1') as (B1&HB1&Hwf1&E1).
        destruct (commits_holds _ _ _ _ HB1 Hwf1 H2') as (B2&HB2&Hwf2&E2).
        rewrite (good_unique (set_env s w) B' B2) by (done || by split).
        eapply extends_closed; [exact E2|]. by eapply refused_is_closed.
    + unfold check_ctx, nlift in Hc. injection Hc as <- Hc.
      destruct (ctx_err (env w)) as [err|] eqn:Ectx; [|done]. injection Hc as <-.
      exists B. split_and!; [done|apply later_refl|]. intros x. unfold close_result. by rewrite (stop_text _ _ _ Ectx).
Qed.

(** *** The whole phase *)

Lemma plan_resumable mode evs :
  is_ok (Resume.planResume mode (Ok evs) false) = true ↔
  mode = "onchain"%string ∧ resumable (foldl Resume.scan_event Resume.scan0 evs).
Proof.
  unfold Resume.planResume, resumable. destruct (String.eqb_spec mode "onchain") as [->|Hne]; cbn; [|naive_solver].
  destruct (Resume.open _) eqn:Eo; cbn; [naive_solver|].
  destruct (Resume.resumed _); cbn; [|naive_solver].
  destruct (Z.eqb_spec (Resume.endDropped (foldl Resume.scan_event Resume.scan0 evs)) 0); cbn; naive_solver.
Qed.

(** The plan of [w0] was acted on, and this is what is left. *)
Definition outcome (w0 : world) (r : result unit) (w : world) (B : board) : Prop :=
  ∀ plan, Resume.planResume (Config.Mode c) (Ok (stamps w0)) (close_recorded w0) = Ok plan →
  match r with
  | Ok _ => B !! KStatus (Ceremony.ElectionID b) = Some closed_value ∧
      (Resume.CloseOnly plan = false → all_counted b ballots B) ∧
      Ceremony.ceremonyRecorded (ceremony (cell w)) = true ∧
      Resume.planResume (Config.Mode c) (Ok (stamps w)) (close_recorded w) = Err Resume.not_interrupted
  | Err _ => close_recorded w = false → is_ok (Resume.planResume (Config.Mode c) (Ok (stamps w)) (close_recorded w)) = true
  end.
Lemma outcome_stays w0 e w B :
  (∀ plan, Resume.planResume (Config.Mode c) (Ok (stamps w0)) (close_recorded w0) = Ok plan → resumable (scanned w)) →
  outcome w0 (Err e) w B.
Proof.
  intros Hr plan Hplan Hcr. rewrite Hcr. apply plan_resumable. split; [|by eapply Hr].
  unfold Resume.planResume in Hplan. apply guard_ok in Hplan as [Hm _]. by apply String.eqb_eq.
Qed.

(** What a plan is made from. *)
Lemma planned w plan :
  Resume.planResume (Config.Mode c) (Ok (stamps w)) (close_recorded w) = Ok plan →
  resumable (scanned w) ∧ (Resume.CloseOnly plan = true → Resume.open (scanned w) = false).
Proof.
  unfold Resume.planResume. intros [_ Hp]%guard_ok. cbn in Hp. fold (scanned w) in Hp. unfold resumable.
  destruct (Resume.open (scanned w)); cbn in Hp; [injection Hp as <-; split; [by left|done]|].
  destruct (Resume.resumed (scanned w)); cbn in Hp; [|done].
  destruct (Z.eqb_spec (Resume.endDropped (scanned w)) 0); cbn in Hp; [|done]. split; [by right|done].
Qed.

Lemma finish_good w0 co w B :
  good w B → resumable (scanned w) → Resume.open (scanned w) = false →
  (∀ plan, Resume.planResume (Config.Mode c) (Ok (stamps w0)) (close_recorded w0) = Ok plan →
     Resume.CloseOnly plan = false → all_counted b ballots B) →
  spec (finish text details c b co) w B (outcome w0).
Proof.
  intros Hg Hr Ho Hall. unfold finish.
  apply (spec_bind _ _ w B (λ r w1 B1, scanned w1 = scanned w ∧ board_extends B B1 ∧
    ∀ x, close_result text details b r = Ok x → B1 !! KStatus (Ceremony.ElectionID b) = Some closed_value)).
  { intros r w1 (r1&Hc&->). destruct (close_good _ _ _ _ Hc Hg) as (B1&Hg1&L1&Hx). exists B1.
    split_and!; [done|done|by apply (still_close c b) in Hc|apply L1|exact Hx]. }
  intros r w1 B1 Hg1 _ (Hs1&E1&Hclosed). apply spec_modify; [done|done|]. intros Hg2 _. set (w2 := stamp _ w1) in *.
  assert (Hs2 : scanned w2 = scanned w) by (unfold w2; rewrite scanned_stamp, <-Hs1; by apply idle_kind).
  apply (spec_bind _ _ w2 B1 (λ x w3 B3, w3 = w2 ∧ B3 = B1 ∧ close_result text details b r = Ok x)).
  { apply spec_ret; [done|]. destruct (close_result text details b r) as [x|e]; [done|].
    apply outcome_stays. intros _ _. by rewrite Hs2. }
  intros x w3 B3 _ _ (->&->&Hx). specialize (Hclosed x Hx).
  intros r' w' [(now&->&->)|(e&->&->)]; exists B1.
  - split_and!; [by destruct Hg2|by split|]. intros plan Hplan. split_and!; [done| |done|].
    + intros Hco line Hl. eapply counted_later; [exact E1|]. by eapply Hall.
    + unfold Resume.planResume in Hplan |- *. apply guard_ok in Hplan as [-> _]. cbn [String.eqb wrap_err rbind stamps].
      fold (scanned w2). rewrite Hs2, Ho. cbn. by rewrite andb_false_r.
  - split_and!; [done|apply later_refl|]. apply outcome_stays. intros _ _. by rewrite Hs2.
Qed.

Lemma resumeAndClose_good w B :
  good w B → whole w → spec (resumeAndClose text details c (Ok b) ballots) w B (outcome w).
Proof.
  intros Hg Hwhole. unfold resumeAndClose.
  apply (spec_bind _ _ w B (λ plan w1 _, w1 = w ∧
    Resume.planResume (Config.Mode c) (Ok (stamps w)) (close_recorded w) = Ok plan)).
  { apply spec_own; [done|done|]. cbn. rewrite Hwhole. destruct (Resume.planResume _ _ _) eqn:E; [done|].
    intros plan Hplan. congruence. }
  intros plan w1 B1 Hg1 _ [-> Hplan]. destruct (planned _ _ Hplan) as [Hr Hco].
  apply (spec_bind _ _ w B1 (λ _ w2 B2, resumable (scanned w2) ∧ Resume.open (scanned w2) = false ∧
    (Resume.CloseOnly plan = false → all_counted b ballots B2))).
  { destruct (Resume.CloseOnly plan); [by apply spec_ret; [|split_and!; [|apply Hco|]]|].
    apply (spec_bind _ _ w B1 (λ _ w2 B2, ballots_over w (Ok tt) w2 B2)).
    - intros r w2 Hrb. destruct (resumeBallots_good w B1 Hg1 Hwhole _ _ Hrb) as (B2&Hg2&L2&Hres&Hok).
      exists B2. split_and!; [done|done|]. destruct r as [[]|e]; [by split|]. apply outcome_stays. auto.
    - intros [] w2 B2 Hg2 _ [Hres Hok] r w3 (r1&Hc&->). unfold check_ctx, nlift in Hc. injection Hc as <- <-.
      exists B2. split_and!; [done|apply later_refl|]. destruct (ctx_err (env w2)) as [e|] eqn:Ec; cbn.
      + apply outcome_stays. auto.
      + destruct (Hok eq_refl) as [[? ?]|[Hall Hop]]; [congruence|]. by split_and!; [apply Hres|..]. }
  intros _ w2 B2 Hg2 _ (Hr2&Ho2&Hall).
  apply (spec_bind _ _ w2 B2 (λ b' w3 B3, b' = b ∧ w3 = w2 ∧ B3 = B2)); [by apply spec_ret|]. intros b' w3 B3 _ _ (->&->&->).
  apply (spec_bind _ _ w2 B2 (λ _ w4 B4, scanned w4 = scanned w2 ∧ board_extends B2 B4)).
  { intros r w4 Hop. destruct (triple_open _ _ _ _ Hop Hg2) as (B4&Hg4&L4&_). pose proof (still_open _ _ _ Hop) as Hs.
    exists B4. split_and!; [done|done|]. destruct r; [by split; [|apply L4]|]. apply outcome_stays. intros _ _. by rewrite Hs. }
  intros _ w4 B4 Hg4 _ [Hs4 E4] r w' (w5&Hf&->).
  destruct (finish_good w (Resume.CloseOnly plan) w4 B4) with (r := r) (w' := w5) as (B5&[? ?]&L5&Hout);
    [done|by rewrite Hs4|by rewrite Hs4| |done|].
  { intros plan' Hplan' Hco' line Hl. assert (plan' = plan) as -> by congruence. eapply counted_later; [exact E4|]. by apply Hall. }
  exists B5. split_and!; [by split|exact L5|]. intros plan' Hplan'. specialize (Hout plan' Hplan'). by destruct r.
Qed.

(** C9: A resume finishes the run or leaves it resumable. From a journal that
    reads back whole, whatever the network and the rest of the console do and
    whatever fails on the way: no record leaves the ledger and the receipts
    writer is released; a resume that succeeds leaves the election closed on the
    ledger, a ballot on the ledger for every line of the run's file (unless only
    the close was missing), the close on record, and nothing more to resume; and
    after one that fails, as long as no close is on record, the next resume is
    accepted and planned from the journal it left. *)
Theorem resume_finishes_or_stays runID net w r w' B :
  good w B → whole w → ResumePhase.Resume text details c (Ok b) ballots runID net w r w' →
  ∃ B', good w' B' ∧ board_extends B B' ∧ refs w' = refs w ∧ outcome w r w' B'.
Proof.
  intros Hg Hwhole Hr. unfold ResumePhase.Resume in Hr.
  assert (Hrefs : refs w' = refs w).
  { revert Hr. repeat (apply keeps_bind; [apply keeps_ret|intros _]). apply keeps_resume. }
  assert (Hs : spec (ResumePhase.Resume text details c (Ok b) ballots runID net) w B (outcome w)).
  { unfold ResumePhase.Resume. assert (Hstay : ∀ e B1, outcome w (Err e) w B1)
      by (intros e B1; apply outcome_stays; intros plan Hplan; by apply (planned _ _ Hplan)).
    do 3 (eapply (spec_bind _ _ w _ (λ _ w1 _, w1 = w)); [apply spec_ret; [done|by case_match]|intros ? ? ? ? _ ->]).
    by apply resumeAndClose_good. }
  destruct (Hs _ _ Hr) as (B'&Hg'&[HE _]&Ho). by exists B'.
Qed.

(** Asking the chain what it holds submits nothing; whatever the network does
    meanwhile, each ballot the report counts is on the ledger. *)
Lemma verifyOnly_counts_recorded `{!Receipts.Sha256, !Receipts.FabricProto} runID blocks w B :
  good w B → Ceremony.BallotCount b = Z.of_nat count →
  spec (verifyOnly text (Ok b) ballots runID blocks) w B (λ r w' B', r = Ok tt →
    ∃ n marks, reconcile text b (Ok n) (Ok marks) ∈ stamps w' ∧ marks_counted b ballots count marks B').
Proof.
  intros Hg Hcount. unfold verifyOnly.
  apply (spec_bind _ _ w B (λ _ w1 _, w1 = w)); [by apply spec_ret; [|destruct (RunStore.Dir runID)]|].
  intros _ w1 B1 Hg1 _ ->. apply spec_modify; [done|done|]. intros Hg2 _. set (w2 := stamp _ w).
  apply (spec_bind _ _ w2 B1 (λ b' w3 _, b' = b ∧ w3 = w2)); [by apply spec_ret|]. intros b' w3 B3 Hg3 _ (->&->).
  apply (spec_bind _ _ w2 B3 (λ _ _ _, True)).
  { intros r w3 (r1&(fuel&s&Hc&->)&->). destruct Hg3 as [HB Hwf].
    destruct (count_sound keys_utf8 _ _ _ _ _ B3 _ _ {| h_board := HB; h_wf := Hwf |} (or_introl eq_refl) Hc)
      as (B'&[[HB' Hwf'] [E [_ G]]]). exists B'. by split_and!; [split|split|]. }
  intros n w3 B3' Hg3' _ _.
  apply (spec_bind _ _ w3 B3' (λ cm w4 B4, ∀ marks, cm = Ok marks → marks_counted b ballots count marks B4)).
  { intros r w4 (r1&(fuel&s&Hc&->)&->). unfold Resume.committedByIndex in Hc. rewrite Hcount, Nat2Z.id in Hc.
    destruct (Resume.nullifierIndex ballots count) as [bn|e] eqn:Hindex.
    - destruct (triple_committed_set keys_utf8 b ballots count bn Hindex Hcount w3 r1 (set_env s w3) B3') as (B'&Hg'&L'&Hm); [|done|].
      { exists fuel, s. by rewrite Hcount, Nat2Z.id. }
      exists B'. split_and!; [done|done|]. by intros marks ->; apply Hm.
    - injection Hc as <- <-. exists B3'. split_and!; [by destruct w3, Hg3'|by destruct w3|done]. }
  intros cm w4 B4 Hg4 _ Hm. apply spec_modify; [done|done|]. intros Hg5 _. set (w5 := stamp _ w4).
  assert (Hin : reconcile text b n cm ∈ stamps w5) by (cbn; apply elem_of_app; right; apply list_elem_of_here).
  set (w6 := match cm with Ok l => stamp (Resume.crossCheckReceipts (receipts_of w5) l) w5 | Err _ => w5 end).
  assert (Hin6 : reconcile text b n cm ∈ stamps w6).
  { unfold w6. destruct cm; [|done]. cbn [stamps stamp]. apply elem_of_app. by left. }
  apply spec_modify; [done|by destruct cm|]. intros Hg6 _.
  change (match cm with Ok l => stamp (Resume.crossCheckReceipts (receipts_of w5) l) w5 | Err _ => w5 end) with w6 in Hg6 |- *.
  apply (spec_bind _ _ w6 B4 (λ _ w7 B7, B7 = B4 ∧ reconcile text b n cm ∈ stamps w7)).
  { intros r w7 (fuel&ev&_&->&->). exists B4. split; [by destruct Hg6|]. split; [by split|]. split; [done|]. cbn. apply elem_of_app. by left. }
  intros _ w7 B7 Hg7 _ [-> Hin7]. apply spec_ret; [done|]. destruct n as [n|]; [|done]. destruct cm as [marks|]; [|done].
  intros _. exists n, marks. split; [done|by apply Hm].
Qed.
End phase.
End ResumePhaseFacts.
