(* ===== verification/Mount.v ===== *)
(** * Mounting the attacks

    [saksi-campaign/scenarios.go] and [timeline.go] from a registered attack to
    its row of negative-tests.csv: the copy of the run it is mounted on, the
    mutation, the positive control, the audit or the live submission, the
    verdict, and where it is kept. The disk, the saksi-demo helpers and the
    audit are processes outside ([Outside]); a mounting is a computation on the
    [world], of the form of the client's calls. *)
From S2P Require Import Prelude Fabric Hex Wire Ristretto SigVerify Contract BoardSpec HandlerFacts Ledger Client.
From S2P Require Import GoText Config Csv Ballots Bench Resume Ceremony Scenarios Attacks Timeline Phases PhasesFacts AuditPhase ResumePhase.
From S2P Require Import Journal Perf RunStore.
#[local] Open Scope Z_scope.
Import GoText Config Scenarios.

(** header.json: what [encoding/json] makes of it in a [map[string]any]. *)
Inductive hval := HStr (s : string) | HList (l : list hval) | HAny (raw : string).

Class HeaderJson := {
  UnmarshalHeader : string → result (gmap string hval);
  MarshalHeader : gmap string hval → result string
}.

(** [proto.Marshal] on the ceremony's messages. *)
Class CeremonyEncode := {
  MarshalPartialDecryption : PartialDecryption.t → result bytes;
  MarshalDKGTranscript : DKGTranscript.t → result bytes
}.

(** The stream a run folder holds: header.json and ballots.ndjson. *)
Record run_dir := MkDir { header_json : result string; ballots_ndjson : result Ballots.stream }.

Definition no_dir : run_dir := MkDir (Err (Foreign "no such file")) (Err (Foreign "no such file")).

(** A write the operating system refuses, before or after it emptied the file. *)
Inductive write_failure := Refused (e : goerr) | Torn (e : goerr).

(** What a mounting asks of the world outside: directories, reads and writes of
    files by their path, the saksi-demo helpers and the audit on a run folder,
    the ledger's height. *)
Class Outside (Σ : Type) := {
  os_mkdir : string → Σ → option goerr;
  os_read : string → Σ → option goerr;
  os_write : string → Σ → option write_failure;
  demo : list string → run_dir → Σ → result string * Σ;
  audit : run_dir → Σ → option StreamAudit * Σ;
  ChainInfo : Σ → result Z
}.

Module Mount.

(** ** The run's record *)
Record world (Σ : Type) := MkWorld {
  net : Σ; dirs : gmap string run_dir;
  results : option (result (list ScenarioResult)); negative : option (result string);
  log : AuditPhase.journal; said : list AuditPhase.message
}.
Arguments MkWorld {Σ} _ _ _ _ _ _.
Arguments net {Σ} _.
Arguments dirs {Σ} _.
Arguments results {Σ} _.
Arguments negative {Σ} _.
Arguments log {Σ} _.
Arguments said {Σ} _.

Section world.
Context {Σ : Type} `{Outside Σ}.
Implicit Types w : world Σ.

Definition set_net (s : Σ) w : world Σ := MkWorld s (dirs w) (results w) (negative w) (log w) (said w).

Definition set_dir (dir : string) (d : run_dir) w : world Σ :=
  MkWorld (net w) (<[dir := d]> (dirs w)) (results w) (negative w) (log w) (said w).

Definition set_results r w : world Σ := MkWorld (net w) (dirs w) (Some r) (negative w) (log w) (said w).

Definition set_negative r w : world Σ := MkWorld (net w) (dirs w) (results w) (Some r) (log w) (said w).

Definition publish (phase level msg : string) : G (world Σ) unit := λ w,
  (Ok tt, MkWorld (net w) (dirs w) (results w) (negative w) (log w) (said w ++ [AuditPhase.MkMessage phase level msg])).

Definition stamp (kind : string) (fields : list (string * Journal.jval)) : G (world Σ) unit := λ w,
  (Ok tt, MkWorld (net w) (dirs w) (results w) (negative w) (AuditPhase.Stamp (AuditPhase.event_of kind fields) (log w)) (said w)).

(** A call to what is outside. *)
Definition outside {A} (f : G Σ A) : G (world Σ) A := λ w, let '(r, s) := f (net w) in (r, set_net s w).

Definition dir_of (dir : string) w : run_dir := default no_dir (dirs w !! dir).

Definition look {A} (f : world Σ → result A) : G (world Σ) A := λ w, (f w, w).

(** A call whose error the caller looks at. *)
Definition gtry {A} (m : G (world Σ) A) : G (world Σ) (result A) := λ w, let '(r, w') := m w in (Ok r, w').

Definition path (dir name : string) : string := dir +:+ "/" +:+ name.

(** [os.WriteFile] of one of the folder's two files; a torn one is left unreadable. *)
Definition write_file {A} (name : string) (put : result A → run_dir → run_dir) (dir : string) (content : A) :
    G (world Σ) unit := λ w,
  match os_write (path dir name) (net w) with
  | None => (Ok tt, set_dir dir (put (Ok content) (dir_of dir w)) w)
  | Some (Refused e) => (Err e, w)
  | Some (Torn e) => (Err e, set_dir dir (put (Err e) (dir_of dir w)) w)
  end.

Definition write_header : string → string → G (world Σ) unit :=
  write_file "header.json" (λ h d, MkDir h (ballots_ndjson d)).

Definition write_stream : string → Ballots.stream → G (world Σ) unit :=
  write_file Ballots.BallotsFile (λ b d, MkDir (header_json d) b).

(** [os.ReadFile]. *)
Definition read_file {A} (name : string) (get : run_dir → result A) (dir : string) : G (world Σ) A :=
  look (λ w, match os_read (path dir name) (net w) with Some e => Err e | None => get (dir_of dir w) end).

Definition copyStream (srcDir dstDir : string) : G (world Σ) unit :=
  let* _ := look (λ w, match os_mkdir dstDir (net w) with Some e => Err e | None => Ok tt end) in
  let* h := gwrap (λ e, Errorf "copy %s: %w" [AStr "header.json"; AErr e]) (read_file "header.json" header_json srcDir) in
  let* _ := write_header dstDir h in
  let* b := gwrap (λ e, Errorf "copy %s: %w" [AStr Ballots.BallotsFile; AErr e])
              (read_file Ballots.BallotsFile ballots_ndjson srcDir) in
  write_stream dstDir b.

(** ** The ballots of a folder *)
Definition readBallotLines (dir : string) : G (world Σ) (list string) :=
  look (λ w, let? f := ballots_ndjson (dir_of dir w) in
             Ballots.scanBallotLines f (λ _ line acc, Ok (if String.eqb line "" then acc else acc ++ [line])) []).

Definition writeBallotLines (dir : string) (lines : list string) : G (world Σ) unit :=
  write_stream dir (Ballots.MkStream lines None).

Definition editBallotLines (dir : string) (fn : list string → result (list string)) : G (world Σ) unit :=
  let* lines := readBallotLines dir in
  let* _ := gret (if (length lines =? 0)%nat then Err (Errorf "no ballots" []) else Ok tt) in
  let* lines := gret (fn lines) in
  writeBallotLines dir lines.

(** [ballotLinesAt] on the file: the scan stops once it has what it wants. *)
Definition ballotLinesAt (dir : string) (want : list Z) : G (world Σ) (gmap Z string) :=
  look (λ w, let? f := ballots_ndjson (dir_of dir w) in
    match Timeline.ballotLinesAt (TrimSpace <$> Ballots.lines f) want, Ballots.scan_err f with
    | Err _, Some e => Err (Ballots.errLine (length (Ballots.lines f) + 1) e)
    | r, _ => r
    end).

(** ** header.json *)
Context `{HeaderJson}.

Definition headerMap (dir : string) : G (world Σ) (gmap string hval) :=
  let* raw := gwrap (errw "read header.json: %w") (read_file "header.json" header_json dir) in
  gret (wrap_err (errw "parse header.json: %w") (UnmarshalHeader raw)).

Definition hstr (v : hval) : string := match v with HStr s => s | _ => EmptyString end.

Definition headerList (dir field : string) : G (world Σ) (list string) :=
  let* h := headerMap dir in
  gret (match h !! field with
        | Some (HList l) => Ok (hstr <$> l)
        | _ => Err (Errorf "header.json has no %s list" [AStr field])
        end).

Definition headerField (dir field : string) : G (world Σ) string :=
  let* h := headerMap dir in
  gret (match h !! field with
        | Some (HStr s) => Ok s
        | _ => Err (Errorf "header.json has no %s field" [AStr field])
        end).

Definition mutateHeader (dir : string) (fn : gmap string hval → result (gmap string hval)) : G (world Σ) unit :=
  let* raw := read_file "header.json" header_json dir in
  let* h := gret (UnmarshalHeader raw) in
  let* h := gret (fn h) in
  let* out := gret (MarshalHeader h) in
  write_header dir out.
End world.

(** ** The mutations *)
Section mutate.
Context {Σ : Type} `{Outside Σ, HeaderJson, Proto, !ProtoEncode, CeremonyEncode}.
#[local] Abbreviation P := (G (world Σ)).

Definition decodeHexProto {A} (unmarshal : bytes → result A) (hexStr : string) : result A :=
  let? raw := wrap_err (λ e, Errorf "not hex: %w" [AErr e]) (DecodeString hexStr) in unmarshal raw.

Definition encodeHexProto (enc : result bytes) : result string := let? raw := enc in Ok (EncodeToString raw).

Definition tamperPartialProof (hexStr : string) : result string :=
  let? pd := wrap_err (errw "partial decryption: %w") (decodeHexProto UnmarshalPartialDecryption hexStr) in
  let missing := Err (Errorf "partial decryption has no Chaum-Pedersen response to tamper" []) in
  match PartialDecryption.Proof pd with
  | None => missing
  | Some p =>
      if (length (ChaumPedersenProof.Response p) =? 0)%nat then missing
      else encodeHexProto (MarshalPartialDecryption
             (PartialDecryption.Make (PartialDecryption.Version pd) (PartialDecryption.TrusteeId pd)
                (PartialDecryption.Share pd)
                (Some (ChaumPedersenProof.Make (ChaumPedersenProof.Version p) (ChaumPedersenProof.CommitmentA p)
                   (ChaumPedersenProof.CommitmentB p) (ChaumPedersenProof.Challenge p)
                   (flip_first (ChaumPedersenProof.Response p))))
                (PartialDecryption.ContestId pd)))
  end.

Definition tamperDKGCommitment (hexStr : string) : result string :=
  let? t := wrap_err (errw "DKG transcript: %w") (decodeHexProto UnmarshalDKGTranscript hexStr) in
  match DKGTranscript.TrusteeCommitments t with
  | TrusteeCommitment.Make id ((x :: cs) :: rest) :: others =>
      encodeHexProto (MarshalDKGTranscript
        (DKGTranscript.Make (DKGTranscript.Version t) (DKGTranscript.ElectionId t) (DKGTranscript.Threshold t)
           (TrusteeCommitment.Make id (flip_first (x :: cs) :: rest) :: others) (DKGTranscript.Complaints t)))
  | _ => Err (Errorf "DKG transcript has no coefficient commitment to tamper" [])
  end.

(** [lines[i], err = fn(...)]. *)
Definition edit_line (i : nat) (fn : list string → result string) (lines : list string) : result (list string) :=
  let? l := fn lines in Ok (<[i := l]> lines).

Definition first_line (lines : list string) : string := default EmptyString (head lines).

Definition tamper_partial_entry (h : gmap string hval) : result (gmap string hval) :=
  match h !! "partial_decryptions"%string with
  | Some (HList (x :: l)) =>
      let? t := tamperPartialProof (hstr x) in
      Ok (<["partial_decryptions"%string := HList (HStr t :: l)]> h)
  | _ => Err (Errorf "no partial_decryptions in header" [])
  end.

Definition tamper_dkg_entry (h : gmap string hval) : result (gmap string hval) :=
  match h !! "dkg"%string with
  | Some (HStr s) =>
      if String.eqb s EmptyString then Err (Errorf "no dkg in header" [])
      else let? t := tamperDKGCommitment s in Ok (<["dkg"%string := HStr t]> h)
  | _ => Err (Errorf "no dkg in header" [])
  end.

(** The [Mutate] field of the catalogue's entries. *)
Definition Mutate (sc : Scenario) (dir : string) : P unit :=
  let names (id : string) := String.eqb (ID sc) id in
  if names "tamper-ballot-proof" then
    editBallotLines dir (edit_line 0 (λ l, tamperBallotProof MarshalBallot (first_line l)))
  else if names "reused-nullifier" then
    editBallotLines dir (λ lines,
      match lines with
      | cast :: target :: _ => edit_line 1 (λ _, reuseNullifier MarshalBallot target cast) lines
      | _ => Err (Errorf "need >=2 ballots to reuse a nullifier" [])
      end)
  else if names "dropped-ballot" then
    let* lines := readBallotLines dir in
    match lines with
    | _ :: (_ :: _) as rest => writeBallotLines dir rest
    | _ => gret (Err (Errorf "need >=2 ballots to drop one" []))
    end
  else if names "reordered-ballots" then
    let* lines := readBallotLines dir in
    match lines with
    | x :: y :: rest => writeBallotLines dir (y :: x :: rest)
    | _ => gret (Err (Errorf "need >=2 ballots to reorder" []))
    end
  else if names "corrupted-ballot-bytes" then
    editBallotLines dir (edit_line 0 (λ l, corruptBallotWire (first_line l)))
  else if names "tamper-partial-decryption" then mutateHeader dir tamper_partial_entry
  else if names "tamper-dkg-transcript" then mutateHeader dir tamper_dkg_entry
  else gret (Err (Foreign "no mutation is registered")).

(** *** The forged ballots *)

(** A saksi-demo helper on a run folder. *)
Definition run_demo (args : list string) (dir : string) : P string := λ w,
  outside (demo args (dir_of dir w)) w.

Definition demoBallot (out : P string) : P string :=
  let* out := out in
  let h := TrimSpace out in
  let* _ := gret (wrap_err (errw "saksi-demo printed no ballot: %w") (decode_ballot h)) in
  gret (Ok h).

Definition forgeSelfIssued (dir : string) (line : Z) : P string :=
  let* lines := ballotLinesAt dir [line] in
  let* target := gret (wrap_err (λ e, Errorf "ballot %d: %w" [AInt line; AErr e])
                         (decode_ballot (default EmptyString (lines !! line)))) in
  let* _ := gret (if String.eqb (Ballot.PositionId target) EmptyString
                  then Err (Errorf "ballot %d names no position to forge a ballot for" [AInt line]) else Ok tt) in
  demoBallot (run_demo ["forge-ballot"; dir; "--position"; Ballot.PositionId target; "--candidate"; "0"] dir).

Definition overvoteBallot (dir : string) (line : Z) : P string :=
  demoBallot (run_demo ["overvote-ballot"; dir; Itoa line] dir).

(** [ForgeBallot], for the two attacks that set it. *)
Definition ForgeBallot (sc : Scenario) : option (string → Z → P string) :=
  match BallotMutation sc with
  | Some ForgeSelfIssued => Some forgeSelfIssued
  | Some ForgeOvervote => Some overvoteBallot
  | _ => None
  end.

(** [MutateBallot]: the target, then the committed ballot. *)
Definition MutateBallot (sc : Scenario) : option (string → string → result string) :=
  match BallotMutation sc with
  | Some MutTamperProof => Some (λ target _, tamperBallotProof MarshalBallot target)
  | Some MutReuseNullifier => Some (reuseNullifier MarshalBallot)
  | Some MutCorruptWire => Some (λ target _, corruptBallotWire target)
  | _ => None
  end.

Definition mutateCopy (sc : Scenario) (dir : string) : P unit :=
  match ForgeBallot sc with
  | None => Mutate sc dir
  | Some forge =>
      let* forged := forge dir 0 in
      editBallotLines dir (λ lines, Ok (<[0%nat := forged]> lines))
  end.

(** ** Legacy elections *)
Definition legacyElection (dir : string) (w : world Σ) : bool :=
  match (headerField dir "params" w).1 with
  | Err _ => false
  | Ok h =>
      match decodeHexProto UnmarshalElectionParameters h with
      | Ok p => (length (ElectionParameters.IssuerPublicKey p) =? 0)%nat
      | Err _ => false
      end
  end.

Definition legacyChainSkips (sc : Scenario) (dir : string) (w : world Σ) : bool :=
  (String.eqb (ChainGate sc) "issuer" || String.eqb (ChainGate sc) "selection") && legacyElection dir w.

(** ** The simulated mount *)
Definition with_verdict (verdict actual : string) (r : ScenarioResult) : ScenarioResult :=
  with_outcome (GateExpected r) (GateObserved r) verdict actual r.

Definition newAuditResult (sc : Scenario) : ScenarioResult :=
  MkResult (ID sc) (Layer_String (SLayer sc)) (Action sc) (Expected sc) EmptyString EmptyString (Property sc)
    false (Stage sc) no_mount (AuditGate sc) EmptyString.

Definition auditStream (dir : string) (w : world Σ) : option StreamAudit * world Σ :=
  let '(sa, s) := audit (dir_of dir w) (net w) in
  let w := set_net s w in
  ((if legacyElection dir w then withoutLegacyFinding <$> sa else sa), w).

Definition level_of (r : ScenarioResult) : string := if String.eqb (Verdict r) "FAIL" then "error" else "info".

Definition report (phase level : string) (r : ScenarioResult) : P ScenarioResult :=
  let* _ := publish phase level (RScenario r +:+ ": " +:+ Verdict r +:+ " — " +:+ Actual r) in gret (Ok r).

Context (text : goerr → string).

Definition not_mounted (what : string) (e : goerr) (r : ScenarioResult) : ScenarioResult :=
  with_verdict "INCONCLUSIVE" ("not mounted: " +:+ what +:+ text e) r.

Definition scenario_dir (srcDir name : string) : string := path (path srcDir "scenarios") name.

Definition runOneScenario (srcDir : string) (sc : Scenario) : P ScenarioResult :=
  let res := newAuditResult sc in
  match SLayer sc with
  | LayerChaincode =>
      let* _ := publish "scenarios" "info" (ID sc +:+ ": skipped (no gate exists to test)") in
      gret (Ok (with_verdict "SKIPPED" "no gate exists to test" res))
  | LayerOffline => λ w,
      if String.eqb (AuditGate sc) "ballot.selection_sum" && legacyElection srcDir w then
        (let* _ := publish "scenarios" "info" (ID sc +:+ ": skipped (legacy election, no selection gate)") in
         gret (Ok (with_verdict "SKIPPED"
           "legacy election (params carry no issuer key): neither the chaincode nor the auditor checks the selection proof, so there is no gate to test" res))) w
      else
        let dir := scenario_dir srcDir (ID sc) in
        (let* copied := gtry (copyStream srcDir dir) in
         match copied with
         | Err e => gret (Ok (not_mounted "could not copy run: " e res))
         | Ok _ => λ w,
             let '(control, w) := auditStream dir w in
             if negb match control with Some sa => String.eqb (Overall sa) "pass" | None => false end then
               (Ok (with_verdict "INCONCLUSIVE" "not mounted: positive control did not pass on the unmutated copy" res), w)
             else
               (let* mutated := gtry (mutateCopy sc dir) in
                match mutated with
                | Err e => gret (Ok (not_mounted "mutation error: " e res))
                | Ok _ => λ w,
                    let '(sa, w) := auditStream dir w in
                    let res := classifyAudit res sc sa in report "scenarios" (level_of res) res w
                end) w
         end) w
  end.

Definition with_actual (actual : string) (r : ScenarioResult) : ScenarioResult := with_verdict (Verdict r) actual r.

Definition simulateStaged (srcDir : string) (sc : Scenario) (onChain : bool) : P ScenarioResult :=
  let* res := runOneScenario srcDir sc in
  λ w,
    let mounted := negb (String.eqb (Verdict res) "SKIPPED") in
    let res := if onChain && legacyChainSkips sc srcDir w && mounted
               then with_actual ("on-chain: not mounted (legacy election, params carry no issuer key: the chaincode skips gate "
                                  +:+ ChainGate sc +:+ ") — " +:+ Actual res) res
               else res in
    let res := if onChain && negb (String.eqb (OnChainNote sc) EmptyString) && mounted
               then with_actual (OnChainNote sc +:+ (if String.eqb (Verdict res) "PASS" then "; caught by the auditor" else "")
                                  +:+ " — " +:+ Actual res) res
               else res in
    (Ok res, w).
End mutate.

(** ** Where the verdicts are kept *)
Section saved.
Context {Σ : Type} `{Outside Σ} (text : goerr → string).
#[local] Abbreviation P := (G (world Σ)).

Definition NegativeTestsFile : string := "negative-tests.csv".

Definition ScenarioStateFile : string := "scenarios.json".

Definition readScenarioResults : P (list ScenarioResult) :=
  look (λ w, match results w with None => Ok [] | Some r => r end).

(** One attack as the wizard lists it: its briefing, and this run's verdict. *)
Record ScenarioListing := MkListing {
  briefing : Scenario; LVerdict : string; LActual : string; can_live : bool; WasLive : bool;
  LGateExpected : string; LGateObserved : string; MountedStage : string
}.

Definition listing (done : gmap string ScenarioResult) (sc : Scenario) : ScenarioListing :=
  match done !! ID sc with
  | Some r => MkListing sc (Verdict r) (Actual r) (LiveCapable sc) (OnChain r) (GateExpected r) (GateObserved r) (MountStage (Mount r))
  | None => MkListing sc EmptyString EmptyString (LiveCapable sc) false EmptyString EmptyString EmptyString
  end.

Definition ScenarioListings : P (list ScenarioListing) :=
  let* done := readScenarioResults in gret (Ok (listing (by_id done) <$> Registry)).

(** A write that replaces a whole file of the run folder. *)
Definition put_file {A} (name : string) (put : result A → world Σ → world Σ) (dir : string) (content : A) : P unit := λ w,
  match os_write (path dir name) (net w) with
  | None => (Ok tt, put (Ok content) w)
  | Some (Refused e) => (Err e, w)
  | Some (Torn e) => (Err e, put (Err e) w)
  end.

(** [mergeScenarioResults], the state file read and rewritten. *)
Definition merge_results (dir : string) (fresh : list ScenarioResult) : P (list ScenarioResult * list ScenarioResult) :=
  let* prior := readScenarioResults in
  let '(merged, held) := mergeScenarioResults prior fresh in
  let* _ := put_file ScenarioStateFile set_results dir merged in
  gret (Ok (merged, held)).

Definition kept_stage (merged : list ScenarioResult) (id : string) : string :=
  match by_id merged !! id with Some r => MountStage (Mount r) | None => EmptyString end.

Fixpoint journalHeldBack (merged held : list ScenarioResult) : P unit :=
  match held with
  | [] => gret (Ok tt)
  | r :: held =>
      let kept := kept_stage merged (RScenario r) in
      let* _ := stamp "attack.rerun.unstaged"
        [("scenario", Journal.JStr (RScenario r)); ("verdict", Journal.JStr (Verdict r)); ("actual", Journal.JStr (Actual r));
         ("live", Journal.JBool (OnChain r)); ("gate_expected", Journal.JStr (GateExpected r));
         ("gate_observed", Journal.JStr (GateObserved r)); ("kept_mounted_stage", Journal.JStr kept)]%string in
      let* _ := publish "attack" "info" (RScenario r +:+ ": unstaged re-run (" +:+ Verdict r
        +:+ ") recorded in the journal; negative-tests.csv keeps the verdict mounted at " +:+ kept) in
      journalHeldBack merged held
  end.

Definition optInt (v : option Z) : string := match v with None => EmptyString | Some v => Itoa v end.

Definition rejectionRate (attempted rejected : Z) : string :=
  if attempted =? 0 then EmptyString
  else Perf.FormatFloat 2 (float_div (float_of_Z rejected) (float_of_Z attempted)).

Definition negative_columns : list string :=
  ["scenario"; "stage"; "layer"; "action"; "expected"; "actual"; "verdict"; "property"; "on_chain";
   "attempted"; "rejected"; "rate"; "mounted_stage"; "election_status"; "ballots_committed"; "block_height"; "live";
   "gate_expected"; "gate_observed"].

Definition negative_row (r : ScenarioResult) : list string :=
  let '(attempted, rejected) := rejection r in
  [RScenario r; RStage r; RLayer r; RAction r; RExpected r; Actual r; Verdict r; RProperty r; Perf.FormatBool (OnChain r);
   Itoa attempted; Itoa rejected; rejectionRate attempted rejected;
   MountStage (Mount r); ElectionStatus (Mount r); optInt (BallotsCommitted (Mount r)); optInt (BlockHeight (Mount r));
   Perf.FormatBool (OnChain r); GateExpected r; GateObserved r].

Definition summary_row (rs : list ScenarioResult) : list string :=
  let '(attempted, rejected) := rejection_totals rs in
  "summary"%string :: replicate 8 EmptyString ++ [Itoa attempted; Itoa rejected; rejectionRate attempted rejected]
    ++ replicate 7 EmptyString.

Definition negative_text (rs : list ScenarioResult) : string :=
  Csv.written_text (negative_columns :: (negative_row <$> rs) ++ [summary_row rs]).

Definition writeNegativeTestsCSV (dir : string) (rs : list ScenarioResult) : P unit :=
  put_file NegativeTestsFile set_negative dir (negative_text rs).

(** The merge and its export. *)
Definition save_results (dir : string) (fresh : list ScenarioResult) : P unit :=
  let* mh := merge_results dir fresh in
  let* _ := journalHeldBack mh.1 mh.2 in
  writeNegativeTestsCSV dir mh.1.

Definition saveScenarioResult (dir : string) (res : ScenarioResult) : P unit :=
  let* _ := save_results dir [res] in
  if String.eqb (Verdict res) "FAIL"
  then publish "attack" "error" (RScenario res +:+ " FAILED — a gate that should have rejected did not")
  else publish "attack" "done" (RScenario res +:+ ": " +:+ Verdict res).
End saved.

(** ** The catalogue after the count *)
Section catalogue.
Context {Σ : Type} `{Outside Σ, HeaderJson, Proto, !ProtoEncode, CeremonyEncode} (text : goerr → string).
#[local] Abbreviation P := (G (world Σ)).

Definition unstaged : MountContext := MkMount StageUnstaged EmptyString None None.

Fixpoint run_all (srcDir : string) (scs : list Scenario) : P (list ScenarioResult) :=
  match scs with
  | [] => gret (Ok [])
  | sc :: scs =>
      let* res := runOneScenario text srcDir sc in
      let* rest := run_all srcDir scs in
      gret (Ok (Timeline.with_mount unstaged res :: rest))
  end.

Definition counted (verdict : string) (rs : list ScenarioResult) : Z :=
  Z.of_nat (length (filter (λ r, Verdict r = verdict) rs)).

Definition announce (rs : list ScenarioResult) : P unit :=
  let fails := counted "FAIL" rs in
  let passes := counted "PASS" rs in
  let mounted := Z.of_nat (length (filter (λ r, Verdict r ≠ "SKIPPED"%string) rs)) in
  if 0 <? fails then publish "scenarios" "error" (Itoa fails +:+ " scenario(s) FAILED — a gate that should have rejected did not")
  else if mounted =? 0 then publish "scenarios" "done" "no scenario was mounted, so no security property was tested"
  else if passes =? mounted then publish "scenarios" "done" "all scenarios upheld their security property"
  else publish "scenarios" "done" (Itoa passes +:+ " of " +:+ Itoa mounted
         +:+ " mounted scenario(s) rejected by their declared gate; the rest are INCONCLUSIVE, not passes").

Definition RunScenarios (runID : string) (l : list string) : P unit :=
  let* srcDir := gret (RunStore.Dir runID) in
  let* _ := publish "scenarios" "info" ("running " +:+ Itoa (Z.of_nat (length (selectScenarios l))) +:+ " scenario(s)…") in
  let* rs := run_all srcDir (selectScenarios l) in
  let* _ := save_results srcDir rs in
  announce rs.
End catalogue.

(** ** The live mount *)
Section live.
Context {Σ : Type} `{Outside Σ, HeaderJson, Proto, !ProtoEncode, CeremonyEncode, Console Σ, Gateway Σ, Json}.
Context (text : goerr → string) (details : goerr → list string).
#[local] Abbreviation P := (G (world Σ)).

(** The error of a submission as [classifyLive] reads it. *)
Definition submit_text {A} (r : result A) : option string :=
  match r with Ok _ => None | Err e => Some (ResumePhase.ErrorText text details e) end.

(** The first entry of [after] that is not the one of [before] at its index. *)
Fixpoint first_changed (i : Z) (before after : list string) : option (Z * string) :=
  match after, before with
  | [], _ => None
  | a :: _, [] => Some (i, a)
  | a :: after, b :: before => if String.eqb b a then first_changed (i + 1) before after else Some (i, a)
  end.

Definition firstChangedBallot (srcDir scenDir : string) : P (Z * string) :=
  let* before := gwrap (errw "read original ballots: %w") (readBallotLines srcDir) in
  let* after := gwrap (errw "read mutated ballots: %w") (readBallotLines scenDir) in
  gret (match first_changed 0 before after with
        | Some c => Ok c
        | None => Err (Errorf "mutation changed no ballot line, so there is nothing to submit" [])
        end).

Definition firstChangedHeaderList (srcDir scenDir field : string) : P string :=
  let* before := headerList srcDir field in
  let* after := headerList scenDir field in
  gret (match first_changed 0 before after with
        | Some (_, v) => Ok v
        | None => Err (Errorf "mutation changed no %s entry" [AStr field])
        end).

Definition changedHeaderField (srcDir scenDir field : string) : P string :=
  let* after := headerField scenDir field in
  let* before := headerField srcDir field in
  gret (if String.eqb before after then Err (Errorf "mutation changed no %s field" [AStr field]) else Ok after).

(** What is submitted for an attack of the stage, once its artifact is read;
    [None]: the stage has no single submission. *)
Definition live_submission (srcDir scenDir electionID : string) (sc : Scenario) : option (P (option string)) :=
  let submitted (m : P unit) : P (option string) := let* r := gtry m in gret (Ok (submit_text r)) in
  if String.eqb (Stage sc) StageBallots then Some
    (let* changed := firstChangedBallot srcDir scenDir in
     let* _ := publish "attack" "info" (ID sc +:+ ": submitting tampered ballot " +:+ Itoa changed.1 +:+ " to the peer…") in
     submitted (outside (Client.SubmitBallot changed.2)))
  else if String.eqb (Stage sc) StageCeremony then Some
    (let* hexVal := firstChangedHeaderList srcDir scenDir "partial_decryptions" in
     let* _ := publish "attack" "info" (ID sc +:+ ": submitting tampered partial decryption…") in
     submitted (outside (Client.SubmitPartialDecryption electionID hexVal)))
  else if String.eqb (Stage sc) StageDKG then Some
    (let* hexVal := changedHeaderField srcDir scenDir "dkg" in
     let* _ := publish "attack" "info" (ID sc +:+ ": submitting tampered DKG transcript…") in
     submitted (outside (Client.PublishDKGTranscript hexVal)))
  else None.

Definition mountLiveAttack (srcDir : string) (sc : Scenario) (electionID : string) : P ScenarioResult :=
  let res := newLiveResult sc in
  let dir := scenario_dir srcDir ("live-" +:+ ID sc) in
  let* copied := gtry (copyStream srcDir dir) in
  match copied with
  | Err e => gret (Ok (not_mounted text "could not copy run: " e res))
  | Ok _ =>
      let* mutated := gtry (mutateCopy sc dir) in
      match mutated with
      | Err e => gret (Ok (not_mounted text "mutation error: " e res))
      | Ok _ =>
          match live_submission srcDir dir electionID sc with
          | None => gret (Ok (with_verdict "SKIPPED" ("stage " +:+ Stage sc +:+ " is not mountable as a single submission") res))
          | Some submission =>
              let* answer := gtry submission in
              match answer with
              | Err e => gret (Ok (not_mounted text EmptyString e res))
              | Ok err => let res := classifyLive res sc err in report "attack" (level_of res) res
              end
          end
      end
  end.

(** *** On the election as it is now *)

(** The network, the bundle of the run and its submit-metrics.json. *)
Context (network : Ceremony.network) (bundle : result Ceremony.onChainBundle) (committed : option Z).

Definition chainHeight (s : Σ) : option Z := match ChainInfo s with Ok h => Some h | Err _ => None end.

Definition live_context (electionID : string) : P MountContext := λ w,
  let height := chainHeight (net w) in
  (let* st := gtry (outside (Client.GetElectionStatus electionID)) in
   match st with
   | Err _ => gret (Ok (MkMount StageUnstaged EmptyString committed height))
   | Ok st =>
       let* tally := gtry (outside (Client.GetTally electionID)) in
       gret (Ok (MkMount StageUnstaged (match tally with Ok _ => "published"%string | Err _ => st end) committed height))
   end) w.

Definition runLiveScenario (srcDir : string) (sc : Scenario) : P ScenarioResult :=
  let res := newLiveResult sc in
  if negb (LiveCapable sc)
  then gret (Ok (with_verdict "SKIPPED" "no on-chain gate refuses this attack — it runs as a simulation instead" res))
  else match Ceremony.dial network with
       | Err e => gret (Ok (with_verdict "SKIPPED" ("connect to Fabric: " +:+ text e) res))
       | Ok _ =>
           match bundle with
           | Err e => gret (Ok (not_mounted text "read bundle: " e res))
           | Ok b =>
               let* mc := live_context (Ceremony.ElectionID b) in
               let* res := mountLiveAttack srcDir sc (Ceremony.ElectionID b) in
               gret (Ok (Timeline.with_mount mc res))
           end
       end.

(** An attack is mounted live only where its gate is. *)
Definition mounts_live (c : Config.ElectionConfig) (srcDir : string) (sc : Scenario) (w : world Σ) : bool :=
  Ceremony.onChainRun network c && LiveCapable sc && negb (legacyChainSkips sc srcDir w).

Definition mount_staged (c : Config.ElectionConfig) (srcDir : string) (sc : Scenario) : P ScenarioResult := λ w,
  (if mounts_live c srcDir sc w then runLiveScenario srcDir sc
   else let* res := simulateStaged text srcDir sc (Ceremony.onChainRun network c) in
        gret (Ok (Timeline.with_mount unstaged res))) w.

Definition RunStagedAttack (runID : string) (c : Config.ElectionConfig) (id : string) : P unit :=
  let* srcDir := gret (RunStore.Dir runID) in
  match find (λ sc, String.eqb (ID sc) id) Registry with
  | None => gret (Err (Errorf "unknown scenario %q" [AStr id]))
  | Some sc =>
      let* res := mount_staged c srcDir sc in
      saveScenarioResult srcDir res
  end.

(** *** At the ballots pause *)

(** [led.Submit("SubmitBallot", h)]. *)
Definition submit_ballot (h : string) : G Σ (string * Z) := λ s,
  let '(s, r) := SubmitTx "SubmitBallot" [h] s in (r, s).

(** The tampered ballot, from the window's next ballot and a committed one. *)
Definition paused_artifact (dir : string) (sc : Scenario) (target donor : Z) (lines : gmap Z string) : P string :=
  match ForgeBallot sc, MutateBallot sc with
  | Some forge, _ => forge dir target
  | None, Some f => gret (f (default EmptyString (lines !! target)) (default EmptyString (lines !! donor)))
  | None, None => gret (Err (Foreign "no mutation is registered"))
  end.

Definition mountBallotLive (runID : string) (sc : Scenario) (target donor : Z) : P ScenarioResult :=
  let res := newLiveResult sc in
  match RunStore.Dir runID with
  | Err e => gret (Ok (not_mounted text EmptyString e res))
  | Ok dir =>
      let* tampered := gtry (let* lines := ballotLinesAt dir [target; donor] in paused_artifact dir sc target donor lines) in
      match tampered with
      | Err e => gret (Ok (not_mounted text EmptyString e res))
      | Ok tampered =>
          let* _ := publish "attack" "info" (ID sc +:+ ": submitting a tampered copy of ballot " +:+ Itoa target
                                               +:+ " to the open election…") in
          let* answer := gtry (outside (submit_ballot tampered)) in
          report "attack" "info" (classifyLive res sc (submit_text answer))
      end
  end.

(** [simulatedMount]. *)
Definition simulatedMount (runID : string) (onChain : bool) (sc : Scenario) : P ScenarioResult :=
  match RunStore.Dir runID with
  | Err e =>
      gret (Ok (MkResult (ID sc) EmptyString EmptyString EmptyString ("not mounted: " +:+ text e) "INCONCLUSIVE" EmptyString
                  false (Stage sc) no_mount EmptyString EmptyString))
  | Ok dir => simulateStaged text dir sc onChain
  end.

(** How the ballots pause mounts an attack of its stage. *)
Definition paused_mount (runID runDir : string) (target donor : Z) (sc : Scenario) : P ScenarioResult := λ w,
  (if negb (LiveCapable sc) || negb (bool_decide (is_Some (BallotMutation sc))) || legacyChainSkips sc runDir w
   then simulatedMount runID true sc else mountBallotLive runID sc target donor) w.
End live.
End Mount.

(** ** What a mounted attack can do

    A refusal that reaches the console is the chaincode's on some state between
    the call and its return, and its text names the gate it refused at; a text
    that names no gate says nothing. *)
Class RefusingLedger (Σ : Type) `{ChainConsole Σ} (text : goerr → string) (details : goerr → list string) := {
  refusal_named hex s s' err :
    SubmitTx "SubmitBallot" [hex] s = (s', Err err) →
    FindAllGates (ResumePhase.ErrorText text details err) = [] ∨
    ∃ w e, (∃ h, commits (chain s) h w) ∧ (∃ h, commits w h (chain s')) ∧
      Contract.SubmitBallot hex (healthy w) tx_start = Err e ∧
      ∀ sc format args, sc ∈ Registry → ChainGate sc ≠ EmptyString → e = Contract.rejectAt (ChainGate sc) format args →
        names_only (ChainGate sc) (ResumePhase.ErrorText text details err)
}.

Module MountFacts.
Import Mount.

(** *** Boards *)
Lemma extends_antisym (B B' : board) : board_extends B B' → board_extends B' B → B = B'.
Proof.
  intros E1 E2. apply map_eq. intros k. destruct (B !! k) as [v|] eqn:Ev.
  - destruct (E1 _ _ Ev) as [?|(e&->&Ec)]; [done|].
    destruct (E2 _ _ Ec) as [?|(_&_&?)]; congruence.
  - destruct (B' !! k) as [v|] eqn:Ev'; [|done]. destruct (E2 _ _ Ev') as [?|(e&->&?)]; congruence.
Qed.

Section paused.
Context {Σ : Type} {text : goerr → string} {details : goerr → list string}.
Context `{RefusingLedger Σ text details, !FabricShimLaws, !CommitterLaws, !RistrettoLaws, !ProtoEncode}.
Context `{!Outside Σ, !HeaderJson, !CeremonyEncode, !Gateway Σ}.

(** The ballot an attack is mounted on, and the cast ballot it may borrow from. *)
Record mountable (B : board) (target donor : string) (b : Ballot.t) : Prop := {
  m_target : decode_ballot target = Ok b;
  m_accepted : ballot_accepted B b;
  m_keys : keys_valid (ballot_records b);
  m_donor : ∃ d, decode_ballot donor = Ok d ∧ is_Some (B !! KNullifier (Ballot.ElectionId b) (ballot_slot d).2)
}.

Lemma tampered_not_proved b b' params tr epk B' :
  record_proved b params epk → tamper_first_branch b = Ok b' →
  has_election B' (Ballot.ElectionId b) params → has_transcript B' (Ballot.ElectionId b) tr →
  SigVerify.deriveElectionPublicKey tr = Ok epk → ¬ ballot_accepted B' b'.
Proof.
  intros (Hne&_&_&Hc&_) Htam (r1&E1&U1) (r2&E2&U2) Hk (p'&params'&tr'&epk'&_&(r1'&E1'&U1')&_&_&_&(r2'&E2'&U2')&Hk'&(_&_&_&Hc'&_)).
  unfold tamper_first_branch in Htam. destruct (Ballot.WellFormednessProofs b) as [|pr rest] eqn:Epr; [done|].
  destruct (CDSProof.Branches pr) as [|br brs] eqn:Ebr; [done|].
  destruct (decide (CDSProofBranch.Response br = [])) as [Er|Er]; [by rewrite Er in Htam|].
  replace (length (CDSProofBranch.Response br) =? 0)%nat with false in Htam by (symmetry; by destruct (CDSProofBranch.Response br)).
  injection Htam as <-. cbn [Ballot.ElectionId Ballot.PositionId] in *.
  assert (params' = params) as -> by congruence. assert (tr' = tr) as -> by congruence. assert (epk' = epk) as -> by congruence.
  destruct (Contract.contestIndicesForPosition _ _) as [|g idxs]; [done|].
  specialize (Hc 0%nat g eq_refl). specialize (Hc' 0%nat g eq_refl).
  destruct (verify_contest_cds b params epk g pr rest br brs _ Epr Ebr eq_refl Er Hc) as (b2&fm&args&Hb2&Hfail).
  apply verify_contest_ok in Hc'. unfold tamper_first_branch in Hb2. rewrite Epr, Ebr in Hb2.
  apply nguard_ok in Hb2 as [_ [= <-]]. congruence.
Qed.

(** An attack built in Go is refused at its gate now, and accepted never. *)
Lemma attack_refused sc f B target donor b h :
  sc ∈ Registry → MutateBallot sc = Some f → mountable B target donor b → f target donor = Ok h →
  ChainGate sc ≠ EmptyString ∧ (∀ w, represents w B → refused_at (ChainGate sc) w h) ∧
  ∀ B' raw m, board_extends B B' → DecodeString h = Ok raw → UnmarshalBallot raw = Ok m → ¬ ballot_accepted B' m.
Proof.
  intros Hin Hf [Ht Hacc Hk (d&Hd&Hs)] Hh. assert (Hcase : 
    (ChainGate sc = "cds" ∧ tamperBallotProof MarshalBallot target = Ok h) ∨
    (ChainGate sc = "nullifier" ∧ reuseNullifier MarshalBallot target donor = Ok h) ∨
    (ChainGate sc = "decode" ∧ corruptBallotWire target = Ok h)).
  { unfold Registry in Hin. repeat (apply elem_of_cons in Hin as [->|Hin]; [cbn in Hf; try discriminate Hf; injection Hf as <-; tauto|]).
    by apply not_elem_of_nil in Hin. }
  destruct Hcase as [[-> Hm]|[[-> Hm]|[-> Hm]]]; (split; [done|split; [intros w Hw|]]).
  - apply (proof_refused w B target b h Hw Ht Hacc Hk Hm).
  - apply editBallot_ok in Hm as (b1&b'&raw&Hb1&Htam&Hhex&Hraw). rewrite Ht in Hb1. injection Hb1 as <-.
    intros B' raw' m HE Hr Hm'. rewrite Hhex in Hr. injection Hr as <-. rewrite Hraw in Hm'. injection Hm' as <-.
    destruct Hacc as (p&params&tr&epk&_&Hel&_&_&_&Htr&Hkey&Hproved).
    eapply tampered_not_proved; eauto using extends_has_election, extends_has_transcript.
  - by eapply (nullifier_refused w B target donor b d).
  - unfold reuseNullifier in Hm. apply rbind_ok in Hm as (d'&Hd'%wrap_err_ok&Hm). rewrite Hd in Hd'. injection Hd' as <-.
    apply nguard_ok in Hm as [_ Hm]. apply editBallot_ok in Hm as (b1&b'&raw&Hb1&Hset&Hhex&Hraw).
    rewrite Ht in Hb1. injection Hb1 as <-.
    intros B' raw' m HE Hr Hm'. rewrite Hhex in Hr. injection Hr as <-. rewrite Hraw in Hm'. injection Hm' as <-.
    intros (p'&_&_&_&_&_&_&_&Hnone&_). unfold set_nullifier in Hset.
    destruct (Ballot.CredentialPresentation b) as [p|] eqn:Ep; [|done].
    destruct (CredentialPresentation.Nullifier p) as [n|]; [|done]. apply nguard_ok in Hset as [_ [= <-]].
    destruct Hs as [v Hs]. apply (extends_nullifier _ _ _ _ _ HE) in Hs. change (B' !! KNullifier (Ballot.ElectionId b) (ballot_slot d).2 = None) in Hnone. congruence.
  - by eapply corrupt_refused.
  - intros B' raw m _ Hr Hm'. unfold corruptBallotWire in Hm. destruct (DecodeString target) as [[|x rw]|]; try done.
    apply nguard_ok in Hm as [_ [= <-]]. rewrite DecodeString_EncodeToString in Hr. injection Hr as <-.
    destruct (UnmarshalBallot_reserved _ rw (land_reserved x)) as [e He]. congruence.
Qed.
(** The ledger's answer to a submitted artifact. *)
Lemma answer_verdict res sc f B target donor b h s s' r :
  sc ∈ Registry → MutateBallot sc = Some f → mountable B target donor b → f target donor = Ok h →
  represents (chain s) B → board_wf B → SubmitTx "SubmitBallot" [h] s = (s', r) →
  let res' := classifyLive res sc (submit_text text details r) in
  Verdict res' ≠ "FAIL" ∧ (∃ B', represents (chain s') B' ∧ board_extends B B') ∧
  (chain s' = chain s → FindAllGates (default EmptyString (submit_text text details r)) ≠ [] → Verdict res' = "PASS").
Proof.
  intros Hin Hf Hm Hh HB Hwf Hs res'. destruct (attack_refused _ _ _ _ _ _ _ Hin Hf Hm Hh) as (Hgate&Hnow&Hnever).
  assert (Hext : ∀ w h', commits (chain s) h' w → ∃ Bw, represents w Bw ∧ board_wf Bw ∧ board_extends B Bw).
  { intros w h' Hc. destruct (commits_steps _ _ _ _ HB Hc) as (Bw&Hst&HBw). destruct (steps_wf _ _ _ Hwf Hst). eauto. }
  destruct r as [rc|err].
  { exfalso. destruct (submit_acked _ _ _ _ _ (ISubmitBallot h) Hs eq_refl) as (h1&h2&Hc).
    destruct (commits_steps _ _ _ _ HB Hc) as (B'&Hst&_). apply PhasesFacts.steps_at in Hst as (B1&B2&Hst1&Hst2&_).
    destruct (steps_wf _ _ _ Hwf Hst1) as [_ E1]. inversion Hst2; subst. by eapply Hnever. }
  destruct (submit_grows _ _ _ _ _ Hs) as [[h' Hc'] _]. destruct (Hext _ _ Hc') as (B'&HB'&_&E').
  pose proof (classifyLive_cases res sc (Some (ResumePhase.ErrorText text details err))) as [Hp Hi].
  split_and!; [|by exists B'|].
  - intros Hfail. destruct (decide (FindAllGates (ResumePhase.ErrorText text details err) = [] ∨
      ¬ Forall (λ loc, loc.1.2 = ChainGate sc) (FindAllGates (ResumePhase.ErrorText text details err)))) as [Hn|Hn].
    + assert (Verdict res' = "INCONCLUSIVE") by (apply Hi; intros [_ [? ?]]; tauto). congruence.
    + assert (Verdict res' = "PASS"); [|congruence]. apply Hp. split; [done|]. split; [tauto|]. apply dec_stable. tauto.
  - cbn [submit_text default]. intros Hsame Hgates.
    destruct (refusal_named _ _ _ _ Hs) as [?|(w&e&[h1 H1']&[h2 H2']&Hrun&Hnames)]; [done|].
    destruct (Hext _ _ H1') as (Bw&HBw&Hwfw&Ew). destruct (commits_steps _ _ _ _ HBw H2') as (B2&Hst2&HB2).
    destruct (steps_wf _ _ _ Hwfw Hst2) as [_ E2]. rewrite Hsame in HB2. rewrite (PhasesFacts.represents_unique _ _ _ HB2 HB) in E2.
    rewrite <-(extends_antisym _ _ Ew E2) in HBw. destruct (Hnow _ HBw) as (fm&args&Hrej). rewrite Hrej in Hrun. injection Hrun as <-.
    apply Hp. split; [done|]. by eapply Hnames.
Qed.

(** What a live attack at the pause comes to. *)
Lemma mountBallotLive_spec runID dir sc f target donor lines t d w :
  RunStore.Dir runID = Ok dir → MutateBallot sc = Some f →
  (ballotLinesAt dir [target; donor] w).1 = Ok lines → lines !! target = Some t → lines !! donor = Some d →
  ∃ res w', mountBallotLive text details runID sc target donor w = (Ok res, w') ∧ dirs w' = dirs w ∧
    match f t d with
    | Err e => res = not_mounted text EmptyString e (newLiveResult sc) ∧ net w' = net w
    | Ok h => ∃ s r, SubmitTx "SubmitBallot" [h] (net w) = (s, r) ∧ net w' = s ∧
        res = classifyLive (newLiveResult sc) sc (submit_text text details r)
    end.
Proof.
  intros Hdir Hf Hl Ht Hd. unfold mountBallotLive. rewrite Hdir. unfold gbind at 1, gtry at 1, gbind at 1.
  assert (Hw : ballotLinesAt dir [target; donor] w = (Ok lines, w)) by (revert Hl; unfold ballotLinesAt, look; cbn; by intros ->).
  rewrite Hw. unfold paused_artifact. assert (ForgeBallot sc = None) as ->.
  { revert Hf. unfold MutateBallot, ForgeBallot. by destruct (BallotMutation sc) as [[]|]. }
  rewrite Hf, Ht, Hd. cbn [default from_option id gret fst snd]. destruct (f t d) as [h|e]; cbn.
  - unfold gbind, gtry, publish, outside, submit_ballot, report, set_net. cbn.
    destruct (SubmitTx "SubmitBallot" [h] (net w)) as [s r] eqn:Es. eexists _, _. split; [reflexivity|]. cbn.
    split; [done|]. by exists s, r.
  - eexists _, _. split; [reflexivity|]. done.
Qed.
(** C10: The attacks of the ballots pause cannot poison the election they
    test. Take a ballot the open election would take and one it has taken; an
    attack built in Go is mounted on them at the pause, while the network moves
    as it likes. The run's files stay as they are, no record leaves the ledger,
    the verdict is never FAIL, since no state the ledger can reach accepts the
    tampered ballot, and when nothing else was committed meanwhile a refusal
    that names its gate is a PASS. *)
Theorem paused_attacks_pass runID dir sc target donor lines t d b B w :
  sc ∈ Registry → is_Some (MutateBallot sc) → RunStore.Dir runID = Ok dir →
  (ballotLinesAt dir [target; donor] w).1 = Ok lines → lines !! target = Some t → lines !! donor = Some d →
  represents (chain (net w)) B → board_wf B → mountable B t d b →
  ∃ res w', paused_mount text details runID dir target donor sc w = (Ok res, w') ∧
    dirs w' = dirs w ∧ Verdict res ≠ "FAIL" ∧ (∃ B', represents (chain (net w')) B' ∧ board_extends B B') ∧
    (GateObserved res ≠ "" → chain (net w') = chain (net w) → Verdict res = "PASS").
Proof.
  intros Hin [f Hf] Hdir Hl Ht Hd HB Hwf Hm.
  assert (paused_mount text details runID dir target donor sc w = mountBallotLive text details runID sc target donor w) as ->.
  { unfold paused_mount. replace (_ || _) with false; [done|]. unfold Registry in Hin.
    repeat (apply elem_of_cons in Hin as [->|Hin]; [by cbn in Hf|]). by apply not_elem_of_nil in Hin. }
  destruct (mountBallotLive_spec _ _ _ _ _ _ _ _ _ _ Hdir Hf Hl Ht Hd) as (res&w'&Hrun&Hdirs&Hcase).
  exists res, w'. split; [exact Hrun|]. split; [exact Hdirs|]. destruct (f t d) as [h|e] eqn:Eh.
  - destruct Hcase as (s&r&Hs&<-&->).
    destruct (answer_verdict (newLiveResult sc) _ _ _ _ _ _ _ _ _ _ Hin Hf Hm Eh HB Hwf Hs) as (Hnf&HB'&Hp).
    split; [exact Hnf|]. split; [exact HB'|]. intros Hobs Hsame. apply Hp; [done|]. intros Hnil. apply Hobs.
    destruct (submit_text text details r) as [tx|]; [|done]. change (FindAllGates tx = []) in Hnil. unfold classifyLive. by rewrite Hnil.
  - destruct Hcase as [-> ->]. split; [done|]. split; [by exists B|]. done.
Qed.
End paused.

(** *** What a mounting writes *)
Section frame.
Context {Σ : Type} `{Outside Σ, HeaderJson, Proto, !ProtoEncode, CeremonyEncode}.
Context (srcDir : string).
#[local] Abbreviation P := (G (world Σ)).

(** Only the copies under the run's folder are written. *)
Definition only_copies (w w' : world Σ) : Prop :=
  results w' = results w ∧ ∀ dir, (∀ name, dir ≠ scenario_dir srcDir name) → dirs w' !! dir = dirs w !! dir.

#[export] Instance only_copies_preorder : PreOrder only_copies.
Proof.
  split; [by split|]. intros w1 w2 w3 [R1 D1] [R2 D2]. split; [congruence|]. intros dir Hd. by rewrite D2, D1.
Qed.

Definition frame {A} (m : P A) : Prop := ∀ w r w', m w = (r, w') → only_copies w w'.

Lemma frame_same {A} (m : P A) : (∀ w, dirs (m w).2 = dirs w ∧ results (m w).2 = results w) → frame m.
Proof. intros Hm w r w' E. specialize (Hm w). rewrite E in Hm. cbn in Hm. destruct Hm as [Hd Hr]. split; [done|]. intros dir _. by rewrite Hd. Qed.

Lemma frame_bind {A B} (m : P A) (k : A → P B) : frame m → (∀ a, frame (k a)) → frame (gbind m k).
Proof.
  intros Hm Hk w r w' E. unfold gbind in E. destruct (m w) as [[a|e] w1] eqn:E1.
  - etransitivity; [by eapply Hm|by eapply Hk].
  - injection E as _ <-. by eapply Hm.
Qed.

Lemma frame_wrap {A} f (m : P A) : frame m → frame (gwrap f m).
Proof. intros Hm w r w' E. unfold gwrap in E. destruct (m w) as [r1 w1] eqn:E1. injection E as _ <-. by eapply Hm. Qed.

Lemma frame_try {A} (m : P A) : frame m → frame (gtry m).
Proof. intros Hm w r w' E. unfold gtry in E. destruct (m w) as [r1 w1] eqn:E1. injection E as _ <-. by eapply Hm. Qed.

Lemma frame_ret {A} (r : result A) : frame (gret r).
Proof. by apply frame_same. Qed.

Lemma frame_look {A} (f : world Σ → result A) : frame (look f).
Proof. by apply frame_same. Qed.

Lemma frame_publish phase level msg : frame (publish phase level msg).
Proof. by apply frame_same. Qed.

Lemma frame_outside {A} (f : G Σ A) : frame (outside f).
Proof. apply frame_same. intros w. unfold outside. by destruct (f (net w)). Qed.

Lemma frame_write {A} name put n (content : A) : frame (write_file name put (scenario_dir srcDir n) content).
Proof.
  intros w r w' E. unfold write_file in E.
  destruct (os_write _ _) as [[?|?]|]; injection E as _ <-; [done|..]; (split; [done|]); intros dir Hd; cbn;
    by rewrite lookup_insert_ne by (intros Heq; by apply (Hd n)).
Qed.

Ltac framed := repeat first
  [ apply frame_ret | apply frame_look | apply frame_publish | apply frame_outside | apply frame_write
  | apply frame_wrap | apply frame_try | (apply frame_bind; [|intros ?]) | case_match | progress cbv beta zeta ].

Lemma frame_copy n : frame (copyStream srcDir (scenario_dir srcDir n)).
Proof. unfold copyStream, read_file. framed. Qed.

Lemma frame_edit n fn : frame (editBallotLines (scenario_dir srcDir n) fn).
Proof. unfold editBallotLines, readBallotLines, writeBallotLines. framed. Qed.

Lemma frame_header n fn : frame (mutateHeader (scenario_dir srcDir n) fn).
Proof. unfold mutateHeader, read_file. framed. Qed.

Lemma frame_mutateCopy sc n : frame (mutateCopy sc (scenario_dir srcDir n)).
Proof.
  unfold mutateCopy, Mutate. destruct (ForgeBallot sc) as [forge|] eqn:Hf.
  - apply frame_bind; [|intros ?; apply frame_edit]. revert Hf. unfold ForgeBallot, forgeSelfIssued, overvoteBallot, demoBallot.
    intros Hf. repeat case_match; simplify_eq; framed; apply frame_same; intros w; unfold run_demo, outside; by destruct (demo _ _ _).
  - repeat case_match; try apply frame_edit; try apply frame_header; unfold readBallotLines, writeBallotLines; framed.
Qed.

(** What is done with an audit, whatever it says. *)
Lemma frame_audit {A} dir (k : option StreamAudit → P A) :
  (∀ sa, frame (k sa)) → frame (λ w, let '(sa, w) := auditStream dir w in k sa w).
Proof.
  intros Hk w r w'. unfold auditStream. destruct (audit _ _) as [sa s]. intros E.
  by apply (Hk _ (set_net s w)) in E as [? ?].
Qed.

Lemma frame_if {A} (c : world Σ → bool) (m1 m2 : P A) : frame m1 → frame m2 → frame (λ w, if c w then m1 w else m2 w).
Proof. intros F1 F2 w r w'. destruct (c w); [apply F1|apply F2]. Qed.

Lemma frame_report phase level r : frame (report phase level r).
Proof. unfold report. framed. Qed.

Lemma frame_run text sc : frame (runOneScenario text srcDir sc).
Proof.
  unfold runOneScenario. destruct (SLayer sc); [|framed].
  apply frame_if; [framed|]. apply frame_bind; [apply frame_try, frame_copy|]. intros [|e]; [|framed].
  apply frame_audit. intros control. apply frame_if; [framed|].
  apply frame_bind; [apply frame_try, frame_mutateCopy|]. intros [|e]; [|framed].
  apply frame_audit. intros sa. apply frame_report.
Qed.

Lemma frame_run_all text scs : frame (run_all text srcDir scs).
Proof.
  induction scs as [|sc scs IH]; cbn [run_all]; [framed|]. apply frame_bind; [apply frame_run|]. intros res.
  apply frame_bind; [exact IH|]. intros rs. framed.
Qed.

(** *** The evidence behind a simulated verdict *)
Lemma source_is_no_copy name : srcDir ≠ scenario_dir srcDir name.
Proof.
  intros E. apply (f_equal String.length) in E. unfold scenario_dir, path in E. rewrite !string_length_app in E. cbn in E. lia.
Qed.

Lemma only_copies_source (w w' : world Σ) : only_copies w w' → dir_of srcDir w' = dir_of srcDir w.
Proof. intros [_ Hd]. unfold dir_of. rewrite Hd; [done|]. apply source_is_no_copy. Qed.

Lemma bind_inv {A B} (m : P A) (k : A → P B) w r w' :
  gbind m k w = (r, w') → (∃ a w1, m w = (Ok a, w1) ∧ k a w1 = (r, w')) ∨ (∃ e, m w = (Err e, w') ∧ r = Err e).
Proof. unfold gbind. destruct (m w) as [[a|e] w1]; [eauto|]. intros [= <- <-]. eauto. Qed.

Lemma write_file_ok {A} name (put : result A → run_dir → run_dir) dir content (w w' : world Σ) :
  write_file name put dir content w = (Ok tt, w') → w' = set_dir dir (put (Ok content) (dir_of dir w)) w.
Proof. unfold write_file. destruct (os_write _ _) as [[?|?]|]; by intros [= <-]. Qed.

Lemma read_file_ok {A} name (get : run_dir → result A) dir (w w' : world Σ) a :
  read_file name get dir w = (Ok a, w') → get (dir_of dir w) = Ok a ∧ w' = w.
Proof. unfold read_file, look. destruct (os_read _ _); [done|]. by intros [= -> ->]. Qed.

Lemma wrap_inv {A} f (m : P A) w a w' : gwrap f m w = (Ok a, w') → m w = (Ok a, w').
Proof. unfold gwrap. destruct (m w) as [r w1]. intros [= Hr ->]. by apply wrap_err_ok in Hr as ->. Qed.

Lemma dir_of_set dir d (w : world Σ) : dir_of dir (set_dir dir d w) = d.
Proof. unfold dir_of. cbn. by rewrite lookup_insert_eq. Qed.

Lemma dir_of_other dir dir' d (w : world Σ) : dir ≠ dir' → dir_of dir (set_dir dir' d w) = dir_of dir w.
Proof. intros Hd. unfold dir_of. cbn. by rewrite lookup_insert_ne. Qed.

(** A copy is the source's stream. *)
Lemma copyStream_ok n (w w' : world Σ) :
  copyStream srcDir (scenario_dir srcDir n) w = (Ok tt, w') → dir_of (scenario_dir srcDir n) w' = dir_of srcDir w.
Proof.
  pose proof (source_is_no_copy n) as Hne. unfold copyStream.
  intros [(u&w1&[= _ <-]&E)|(e&_&?)]%bind_inv; [|done].
  apply bind_inv in E as [(h&w1&[Hh ->]%wrap_inv%read_file_ok&E)|(e&_&?)]; [|done].
  apply bind_inv in E as [([]&w2&->%write_file_ok&E)|(e&_&?)]; [|done].
  apply bind_inv in E as [(b&w3&[Hb ->]%wrap_inv%read_file_ok&E)|(e&_&?)]; [|done].
  apply write_file_ok in E as ->. rewrite dir_of_other in Hb by done. rewrite !dir_of_set. cbn.
  destruct (dir_of srcDir w) as [hj bj]. cbn in *. by rewrite <-Hh, <-Hb.
Qed.

(** What a verdict rests on: the untouched copy of [src] audited clean, the
    mutation went through, and [sa] is the audit of the mutated copy. *)
Definition trial (sc : Scenario) (src : run_dir) (sa : StreamAudit) : Prop :=
  let dir := scenario_dir srcDir (ID sc) in
  ∃ w1 control w2 w3 w4, dir_of dir w1 = src ∧
    auditStream dir w1 = (Some control, w2) ∧ Overall control = "pass" ∧
    mutateCopy sc dir w2 = (Ok tt, w3) ∧ auditStream dir w3 = (Some sa, w4).

Record judged (sc : Scenario) (src : run_dir) (res : ScenarioResult) : Prop := {
  j_row : RScenario res = ID sc ∧ OnChain res = false ∧ Mount res = no_mount;
  j_verdict : Verdict res ∈ ["PASS"; "FAIL"; "INCONCLUSIVE"; "SKIPPED"]%string;
  j_fail : Verdict res = "FAIL" → ∃ sa, trial sc src sa ∧ Overall sa = "pass";
  j_pass : Verdict res = "PASS" → ∃ sa, trial sc src sa ∧ Overall sa = "fail" ∧ AuditGate sc ∈ Check <$> FailedChecks sa
}.

Lemma classifyAudit_row res sc sa :
  let res' := classifyAudit res sc sa in
  RScenario res' = RScenario res ∧ OnChain res' = OnChain res ∧ Mount res' = Mount res ∧
  Verdict res' ∈ ["PASS"; "FAIL"; "INCONCLUSIVE"; "SKIPPED"]%string ∧
  (Verdict res' = "FAIL" → ∃ a, sa = Some a ∧ Overall a = "pass").
Proof.
  cbn zeta. unfold classifyAudit. destruct sa as [a|]; [|split_and!; [done..|set_solver|done]].
  case_bool_decide; [split_and!; [done..|set_solver|by eauto]|].
  case_bool_decide; cbn [negb]; [|split_and!; [done..|set_solver|done]].
  destruct (find _ _); [split_and!; [done..|set_solver|done]|].
  destruct (FailedChecks a); split_and!; first [done|set_solver].
Qed.

(** One scenario: a row whatever happens, and a verdict that has its evidence. *)
Lemma runOneScenario_judged text sc (w w' : world Σ) r :
  runOneScenario text srcDir sc w = (r, w') → ∃ res, r = Ok res ∧ judged sc (dir_of srcDir w) res.
Proof.
  assert (Hother : ∀ v a, v ∈ ["INCONCLUSIVE"; "SKIPPED"]%string → judged sc (dir_of srcDir w) (with_verdict v a (newAuditResult sc))).
  { intros v a Hv. split; [done|cbn; set_solver|..]; cbn; intros ->; set_solver. }
  unfold runOneScenario. destruct (SLayer sc).
  2: { intros [= <- _]. eexists. split; [done|]. apply Hother. set_solver. }
  destruct (_ && _); [intros [= <- _]; eexists; split; [done|]; apply Hother; set_solver|].
  unfold gbind at 1, gtry at 1. destruct (copyStream _ _ w) as [[[]|e] w1] eqn:Ecopy.
  2: { intros [= <- _]. eexists. split; [done|]. apply Hother. set_solver. }
  apply copyStream_ok in Ecopy. destruct (auditStream _ w1) as [control w2] eqn:Econtrol.
  destruct (match control with Some sa => String.eqb (Overall sa) "pass" | None => false end) eqn:Epass; cbn [negb].
  2: { intros [= <- _]. eexists. split; [done|]. apply Hother. set_solver. }
  destruct control as [c|]; [|done]. apply String.eqb_eq in Epass.
  unfold gbind at 1, gtry at 1. destruct (mutateCopy _ _ w2) as [[[]|e] w3] eqn:Emut.
  2: { intros [= <- _]. eexists. split; [done|]. apply Hother. set_solver. }
  destruct (auditStream _ w3) as [sa w4] eqn:Eaudit. intros [= <- _]. eexists. split; [done|].
  destruct (classifyAudit_row (newAuditResult sc) sc sa) as (Hrow&Hchain&Hmount&Hv&Hfail).
  assert (Htrial : ∀ a, sa = Some a → trial sc (dir_of srcDir w) a).
  { intros a ->. exists w1, c, w2, w3, w4. by split_and!. }
  split; [by rewrite Hrow, Hchain, Hmount|done|..].
  - intros (a&Ha&Hp)%Hfail. exists a. auto.
  - intros (a&Ha&Hf&_&Hin)%classifyAudit_pass. exists a. auto.
Qed.

Lemma run_all_judged text scs (w w' : world Σ) r :
  run_all text srcDir scs w = (r, w') →
  ∃ rs, r = Ok (Timeline.with_mount unstaged <$> rs) ∧ Forall2 (λ sc, judged sc (dir_of srcDir w)) scs rs.
Proof.
  revert w w' r. induction scs as [|sc scs IH]; intros w w' r; cbn [run_all].
  { intros [= <- _]. exists []. by split; [|constructor]. }
  intros [(res&w1&E1&E)|(e&E1&_)]%bind_inv.
  2: { apply runOneScenario_judged in E1 as (res&?&_). done. }
  pose proof (frame_run _ _ _ _ _ E1) as F1. apply runOneScenario_judged in E1 as (res'&[= <-]&Hj).
  apply bind_inv in E as [(rest&w2&E2&E)|(e&E2&->)]; destruct (IH _ _ _ E2) as (rs&Hrs&Hall); [|done].
  injection Hrs as ->. injection E as <- _. exists (res :: rs). split; [done|]. constructor; [done|].
  by rewrite <-(only_copies_source _ _ F1).
Qed.

(** *** The results file *)
Lemma put_file_ok {A} name (put : result A → world Σ → world Σ) dir content w w' :
  put_file name put dir content w = (Ok tt, w') → w' = put (Ok content) w.
Proof. unfold put_file. destruct (os_write _ _) as [[?|?]|]; by intros [= <-]. Qed.

Lemma keep_staged id p rs :
  Forall (λ r, staged r = false) rs → staged p = true → foldl (keep id) (Some p) rs = Some p.
Proof.
  intros Hrs Hp. induction Hrs as [|r rs Hr _ IH]; [done|]. cbn [foldl]. unfold keep at 2.
  rewrite Hp, Hr. by destruct (bool_decide _).
Qed.

Lemma merge_keeps_staged prior fresh sc p :
  Forall (λ r, staged r = false) fresh → sc ∈ Registry → by_id prior !! ID sc = Some p → staged p = true →
  p ∈ (mergeScenarioResults prior fresh).1.
Proof.
  intros Hf Hin Hp Hs. unfold mergeScenarioResults. rewrite (surjective_pairing (foldl upsert _ _)). cbn [fst].
  apply list_elem_of_omap. exists sc. split; [done|]. by rewrite foldl_upsert_lookup, Hp, keep_staged.
Qed.

Lemma held_back_files merged held (w w' : world Σ) r :
  journalHeldBack merged held w = (r, w') → r = Ok tt ∧ dirs w' = dirs w ∧ results w' = results w.
Proof.
  revert w. induction held as [|x held IH]; intros w; cbn [journalHeldBack]; [by intros [= <- <-]|].
  cbn. intros E. by apply IH in E as (->&->&->).
Qed.

Lemma publish_ok {A} phase level msg (k : P A) w : gbind (publish phase level msg) (λ _, k) w = k (publish phase level msg w).2.
Proof. done. Qed.

Lemma announce_files rs (w w' : world Σ) r :
  announce rs w = (r, w') → r = Ok tt ∧ dirs w' = dirs w ∧ results w' = results w ∧ negative w' = negative w.
Proof. unfold announce. repeat case_match; by intros [= <- <-]. Qed.

(** The merge and its export: the files they leave, wherever they stop. *)
Lemma save_results_spec dir fresh (w w' : world Σ) r :
  save_results dir fresh w = (r, w') →
  dirs w' = dirs w ∧ (r = Ok tt → ∃ prior, default (Ok []) (results w) = Ok prior ∧
    let merged := (mergeScenarioResults prior fresh).1 in
    results w' = Some (Ok merged) ∧ negative w' = Some (Ok (negative_text merged))).
Proof.
  unfold save_results, merge_results, readScenarioResults. intros E.
  apply bind_inv in E as [(mh&w1&E1&E)|(e&E1&->)].
  - apply bind_inv in E1 as [(prior&w2&[= Hp <-]&E1)|(e&_&?)]; [|done].
    destruct (mergeScenarioResults prior fresh) as [merged held] eqn:Em.
    apply bind_inv in E1 as [([]&w3&->%put_file_ok&E1)|(e&_&?)]; [|done]. injection E1 as <- <-. cbn [fst snd] in E.
    apply bind_inv in E as [(u&w4&(_&Hd&Hr)%held_back_files&E)|(e&(?&_)%held_back_files&_)]; [|done].
    split.
    + revert E. unfold writeNegativeTestsCSV, put_file. destruct (os_write _ _) as [[?|?]|]; intros [= _ <-]; exact Hd.
    + intros ->. exists prior. split; [by destruct (results w)|]. apply put_file_ok in E as ->. by rewrite Em.
  - split; [|done]. apply bind_inv in E1 as [(prior&w2&[= Hp <-]&E1)|(e'&[= _ <-]&_)]; [|done].
    destruct (mergeScenarioResults prior fresh) as [merged held].
    apply bind_inv in E1 as [([]&w3&_&E1)|(e'&E1&_)]; [done|].
    revert E1. unfold put_file. by destruct (os_write _ _) as [[?|?]|]; intros [= _ <-].
Qed.

(** C12: A catalogue verdict has its evidence. Whatever the helpers, the auditor
    and the disk do, running the catalogue leaves the run's own stream alone and
    gives each selected attack one row: FAIL only when the untouched copy audited
    clean and its mutated copy audited clean too, PASS only when the untouched
    copy audited clean and the audit of the mutated one failed the check the
    attack declares. When it succeeds, scenarios.json is the merge of what it
    held with these rows, negative-tests.csv is written from exactly that list,
    and every verdict mounted at a lifecycle pause is still in it. *)
Theorem catalogue_verdicts_have_evidence text runID l (w w' : world Σ) r :
  RunStore.Dir runID = Ok srcDir → RunScenarios text runID l w = (r, w') →
  dir_of srcDir w' = dir_of srcDir w ∧
  ∃ rs, Forall2 (λ sc, judged sc (dir_of srcDir w)) (selectScenarios l) rs ∧
    (r = Ok tt → ∃ prior, default (Ok []) (results w) = Ok prior ∧
       let merged := (mergeScenarioResults prior (Timeline.with_mount unstaged <$> rs)).1 in
       results w' = Some (Ok merged) ∧ negative w' = Some (Ok (negative_text merged)) ∧
       ∀ sc p, sc ∈ Registry → by_id prior !! ID sc = Some p → staged p = true → p ∈ merged).
Proof.
  intros Hdir. unfold RunScenarios. rewrite Hdir. intros E. apply bind_inv in E as [(d&w0&[= <- <-]&E)|(e&[=]&_)].
  rewrite publish_ok in E. set (w0 := (publish _ _ _ w).2) in E.
  change (dir_of srcDir w) with (dir_of srcDir w0). change (results w) with (results w0).
  apply bind_inv in E as [(rows&w1&E1&E)|(e&E1&_)]; destruct (run_all_judged _ _ _ _ _ E1) as (rs&Hrs&Hall); [|done].
  injection Hrs as ->. pose proof (frame_run_all _ _ _ _ _ E1) as F1. rewrite <-(only_copies_source _ _ F1) at 1.
  assert (Hun : Forall (λ x, staged x = false) (Timeline.with_mount unstaged <$> rs)) by (by apply Forall_fmap, Forall_true).
  destruct F1 as [Hres _]. apply bind_inv in E as [(u&w2&E2&E)|(e&E2&->)].
  - destruct (save_results_spec _ _ _ _ _ E2) as [Hd Hok]. apply announce_files in E as (->&Hd'&Hr'&Hn').
    split; [unfold dir_of; by rewrite Hd', Hd|]. exists rs. split; [done|]. intros _. destruct u.
    destruct (Hok eq_refl) as (prior&Hp&Hm&Hcsv). rewrite Hres in Hp. exists prior. split; [done|]. cbn zeta in Hm, Hcsv.
    rewrite Hr', Hn'. split; [done|]. split; [done|]. intros sc p. by apply merge_keeps_staged.
  - destruct (save_results_spec _ _ _ _ _ E2) as [Hd _]. split; [unfold dir_of; by rewrite Hd|]. by exists rs.
Qed.
End frame.

End MountFacts.
