(* ===== verification/Bundle.v ===== *)
(** * The campaign's bundle

    [saksi-campaign/export_bundle.go]: the zip of a campaign's files with its
    manifest, as the list of its entries. What the folders hold and what
    [json.MarshalIndent] gives are arguments. *)
From S2P Require Import Prelude GoText Receipts Csv Jobs RunStore ReceiptFile ReceiptFileFacts.
From S2P Require Import Server BoardPage Repeat Campaign.
From Stdlib Require Import Ascii.
#[local] Open Scope Z_scope.
Import GoText.

Module Bundle.
Import ReceiptFile(join_fields, newline, csv_read, split_lines, receiptsCSVFields).

Definition bundleRunFiles : list string :=
  ["run.json"; "perf.csv"; "perf-schema.md"; "correctness.csv"; "negative-tests.csv"; "ground-truth-check.json";
   "timings.json"; "journal.ndjson"; "gen-timings.json"].

Definition journalLine1File : string := "journal-line1.json".
Definition preflightBundleFile : string := "preflight.json".
Definition manifestFile : string := "MANIFEST.txt".
Definition receiptsLifecycleFile : string := "receipts-lifecycle.csv".

(** A file as opening and reading it goes: not there, unreadable, or its text. *)
Definition file : Type := option (result string).

(** An entry of the zip: its name and what it holds. *)
Definition entry : Type := string * string.

(** [zipFile] and [zipBytes]; [None]: the response is aborted. *)
Definition zipFile (name : string) (f : file) : option (list entry) :=
  match f with
  | None => Some []
  | Some (Err _) => None
  | Some (Ok data) => Some [(name, data)]
  end.

Fixpoint zip_files (dir : string) (f : string → file) (names : list string) : option (list entry) :=
  match names with
  | [] => Some []
  | n :: names =>
      es ← zipFile (dir +:+ n) (f n);
      rest ← zip_files dir f names; Some (es ++ rest)
  end.

(** [csv.Writer.Write] of a row. *)
Definition write_row (row : list string) : string := join_fields (Csv.write_field <$> row) +:+ newline.

(** [zipLifecycleReceipts] on a receipts.csv that is there: what it writes, and
    whether the file ended in a row cut short. Every read consumes a line. *)
Fixpoint copy_rows (fuel : nat) (header : bool) (lines : list string) : string * bool :=
  match csv_read lines with
  | None => (EmptyString, false)
  | Some (None, _) => (EmptyString, true)
  | Some (Some row, rest) =>
      if negb header && (length row <? receiptsCSVFields)%nat then (EmptyString, true)
      else
        let out := if header || negb (String.eqb (ReceiptFile.field row 0) "SubmitBallot") then write_row row else EmptyString in
        match fuel with
        | O => (out, false)
        | S fuel => let '(text, truncated) := copy_rows fuel false rest in (out +:+ text, truncated)
        end
  end.

Definition copy_receipts (data : string) : string * bool :=
  let lines := split_lines EmptyString data in copy_rows (length lines) true lines.

(** [journalLine1]: the first line without its end; nothing where it is empty. *)
Definition journalLine1 (data : string) : option string :=
  let line := Jobs.TrimRight1 Jobs.CR (Cut data Jobs.LF).1.1 in
  if String.eqb line EmptyString then None else Some line.

(** A section of the manifest. *)
Record section := MkSection { title : string; have : list string; missing : list string }.

Definition here (f : file) : bool := match f with Some (Ok _) => true | _ => false end.

Definition run_title (rep : Campaign.campaignRep) : string :=
  Campaign.RowRun rep +:+ " (" +:+ Campaign.RowKind rep +:+ " " +:+ Itoa (Campaign.Index rep) +:+ ", " +:+ Campaign.RowStatus rep +:+ ")".

Definition truncated_note : string := " (receipts.csv ends in a partial row, dropped)".

(** [tally]: a name among those included or those missing. *)
Definition put (ok : bool) (name : string) (s : section) : section :=
  if ok then MkSection (title s) (have s ++ [name]) (missing s) else MkSection (title s) (have s) (missing s ++ [name]).

(** One run's folder. *)
Definition zip_run (f : string → file) (rep : Campaign.campaignRep) : option (list entry * section) :=
  let dir := Campaign.RowRun rep +:+ "/" in
  copied ← zip_files dir f bundleRunFiles;
  line ← match f "journal.ndjson" with None => Some None | Some (Err _) => None | Some (Ok data) => Some (journalLine1 data) end;
  receipts ← match f "receipts.csv" with None => Some None | Some (Err _) => None | Some (Ok data) => Some (Some (copy_receipts data)) end;
  let s := foldl (λ s n, put (here (f n)) n s) (MkSection (run_title rep) [] []) bundleRunFiles in
  let s := put (match line with Some _ => true | None => false end) journalLine1File s in
  let s := put (match receipts with Some _ => true | None => false end)
             (match receipts with Some (_, true) => receiptsLifecycleFile +:+ truncated_note | _ => receiptsLifecycleFile end) s in
  Some (copied ++ match line with Some l => [(dir +:+ journalLine1File, l)] | None => [] end ++
          match receipts with Some (text, _) => [(dir +:+ receiptsLifecycleFile, text)] | None => [] end, s).

(** The runs of a campaign, each once. *)
Fixpoint zip_runs (files : string → string → file) (seen : list string) (reps : list Campaign.campaignRep) :
    option (list entry * list section) :=
  match reps with
  | [] => Some ([], [])
  | rep :: reps =>
      let run := Campaign.RowRun rep in
      if negb (RunStore.runIDPattern run) || bool_decide (run ∈ seen) then zip_runs files seen reps
      else
        p ← zip_run (files run) rep;
        q ← zip_runs files (run :: seen) reps;
        Some (p.1 ++ q.1, p.2 :: q.2)
  end.

Fixpoint join_with (sep : string) (l : list string) : string :=
  match l with [] => EmptyString | [s] => s | s :: l => s +:+ sep +:+ join_with sep l end.

Definition section_text (s : section) : string :=
  newline +:+ title s +:+ newline +:+ "  included: " +:+ join_with ", " (have s) +:+ newline +:+
  "  missing:  " +:+ join_with ", " (missing s) +:+ newline.

Definition manifest_text (rec : Campaign.campaignRecord) (sections : list section) : string :=
  "campaign " +:+ Campaign.CID rec +:+ " (status " +:+ Campaign.CStatus rec +:+ ")" +:+ newline +:+
  foldr (λ s t, section_text s +:+ t) EmptyString sections.

(** [streamCampaignBundle]: the zip's entries in order. [record_json] and
    [preflight_json] are what [json.MarshalIndent] makes of the record and of
    its preflight. Writing to the client is taken to succeed; where it does
    not the response is aborted too. *)
Definition streamCampaignBundle (files : string → string → file) (summary : file)
    (record_json preflight_json : result string) (rec : Campaign.campaignRecord) : option (list entry) :=
  runs ← zip_runs files [] (Campaign.CReps rec);
  let dir_ok := match Campaign.campaignDir (Campaign.CID rec) with Ok _ => true | Err _ => false end in
  sum ← (if dir_ok then zipFile Repeat.SummaryCSV summary else Some []);
  r ← zipFile Campaign.campaignFile (Some record_json);
  p ← zipFile preflightBundleFile (Some preflight_json);
  let s := MkSection "campaign"
             ((if dir_ok && here summary then [Repeat.SummaryCSV] else []) ++ [Campaign.campaignFile; preflightBundleFile])
             (if dir_ok && negb (here summary) then [Repeat.SummaryCSV] else []) in
  Some (runs.1 ++ sum ++ r ++ p ++ [(manifestFile, manifest_text rec (runs.2 ++ [s]))]).

(** ** What a bundle holds *)
Definition unreadable (f : file) : Prop := ∃ e, f = Some (Err e).

Definition content (f : file) : option string := match f with Some (Ok data) => Some data | _ => None end.

Definition run_names : list string := bundleRunFiles ++ [journalLine1File; receiptsLifecycleFile].

(** The files of a run folder a bundle reads. *)
Definition consulted : list string := bundleRunFiles ++ ["receipts.csv"].

(** What the bundle's file of a name is made from, in a run's folder. *)
Definition run_entry (f : string → file) (n : string) : option string :=
  if String.eqb n journalLine1File then content (f "journal.ndjson") ≫= journalLine1
  else if String.eqb n receiptsLifecycleFile then (λ data, (copy_receipts data).1) <$> content (f "receipts.csv")
  else content (f n).

(** The name a file goes by in the manifest. *)
Definition shown (f : string → file) (n : string) : string :=
  if String.eqb n receiptsLifecycleFile &&
     match content (f "receipts.csv") with Some data => (copy_receipts data).2 | None => false end
  then n +:+ truncated_note else n.

Definition entries_of (run : string) (f : string → file) : list entry :=
  omap (λ n, (λ data, ((run +:+ "/") +:+ n, data)) <$> run_entry f n) run_names.

Definition section_of (f : string → file) (rep : Campaign.campaignRep) : section :=
  MkSection (run_title rep) (shown f <$> filter (λ n, is_Some (run_entry f n)) run_names)
    (shown f <$> filter (λ n, ¬ is_Some (run_entry f n)) run_names).

Lemma zipFile_spec name f :
  (zipFile name f = None ↔ unreadable f) ∧
  ∀ es, zipFile name f = Some es → es = match content f with Some data => [(name, data)] | None => [] end.
Proof. unfold unreadable. destruct f as [[data|e]|]; cbn; naive_solver. Qed.

Lemma zip_files_spec dir f names :
  (zip_files dir f names = None ↔ Exists (λ n, unreadable (f n)) names) ∧
  ∀ es, zip_files dir f names = Some es → es = omap (λ n, (λ data, (dir +:+ n, data)) <$> content (f n)) names.
Proof.
  induction names as [|n names [IHn IHs]]; cbn [zip_files].
  - split; [by rewrite Exists_nil|]. by intros es [= <-].
  - destruct (zipFile_spec (dir +:+ n) (f n)) as [Hn Hs]. rewrite Exists_cons, <-IHn, <-Hn.
    destruct (zipFile (dir +:+ n) (f n)) as [es|]; cbn; [|naive_solver].
    destruct (zip_files dir f names) as [rest|]; cbn; [|naive_solver]. split; [naive_solver|].
    intros es' [= <-]. rewrite (Hs es eq_refl), (IHs rest eq_refl). by destruct (content (f n)).
Qed.

Lemma put_spec (b : string → bool) names s :
  foldl (λ s n, put (b n) n s) s names =
  MkSection (title s) (have s ++ filter (λ n, b n = true) names) (missing s ++ filter (λ n, ¬ b n = true) names).
Proof.
  revert s. induction names as [|n names IH]; intros s; cbn [foldl]; [rewrite !app_nil_r; by destruct s|].
  rewrite IH, !filter_cons. unfold put. destruct (b n) eqn:E; cbn [title have missing].
  - rewrite decide_True, decide_False by (by auto). by rewrite <-(assoc_L (++)).
  - rewrite decide_False, decide_True by (by auto). by rewrite <-(assoc_L (++)).
Qed.

Lemma run_entry_file f n : n ∈ bundleRunFiles → run_entry f n = content (f n) ∧ shown f n = n.
Proof. unfold bundleRunFiles. rewrite !elem_of_cons, elem_of_nil. intros H. by repeat (destruct H as [->|H]; [done|]). Qed.

Lemma here_content f : here f = true ↔ is_Some (content f).
Proof. destruct f as [[?|?]|]; cbn; [split; [by eexists|done]|split; [done|by intros [? ?]]..]. Qed.

Lemma omap_ext' {A B} (g h : A → option B) (l : list A) : (∀ x, x ∈ l → g x = h x) → omap g l = omap h l.
Proof.
  induction l as [|x l IH]; intros Hg; [done|]. cbn. rewrite (Hg x) by by left.
  rewrite IH; [done|]. intros y Hy. apply Hg. by right.
Qed.

Lemma list_filter_iff' {A} (Q R : A → Prop) `{∀ x, Decision (Q x), ∀ x, Decision (R x)} (l : list A) :
  (∀ x, x ∈ l → Q x ↔ R x) → filter Q l = filter R l.
Proof.
  induction l as [|x l IH]; intros Hq; [done|]. rewrite !filter_cons, IH by (intros y Hy; apply Hq; by right).
  assert (Hx : Q x ↔ R x) by (apply Hq; by left).
  destruct (decide (Q x)), (decide (R x)); [done|exfalso; tauto..|done].
Qed.

Lemma shown_files f (l : list string) : (∀ n, n ∈ l → n ∈ bundleRunFiles) → shown f <$> l = l.
Proof.
  induction l as [|n l IH]; intros Hl; [done|]. cbn. rewrite (proj2 (run_entry_file f n (Hl n ltac:(by left)))).
  f_equal. apply IH. intros y Hy. apply Hl. by right.
Qed.

Lemma zip_run_spec f rep :
  (zip_run f rep = None ↔ Exists (λ n, unreadable (f n)) consulted) ∧
  ∀ p, zip_run f rep = Some p → p = (entries_of (Campaign.RowRun rep) f, section_of f rep).
Proof.
  unfold zip_run. cbv zeta. set (dir := Campaign.RowRun rep +:+ "/").
  destruct (zip_files_spec dir f bundleRunFiles) as [Hn Hs]. unfold consulted. rewrite Exists_app, <-Hn.
  destruct (zip_files dir f bundleRunFiles) as [copied|]; cbn [mbind option_bind]; [|split; [split; [by left|done]|done]].
  specialize (Hs copied eq_refl).
  assert (Hj : ¬ unreadable (f "journal.ndjson")).
  { intros Hu. destruct Hn as [_ Hn]. discriminate Hn. apply Exists_exists. exists "journal.ndjson"%string. split; [|done].
    do 7 right. by left. }
  split.
  - rewrite Exists_cons, Exists_nil. split.
    + intros Hx. right. left. destruct (f "journal.ndjson") as [[j|e]|]; [|exfalso; apply Hj; by eexists|];
        (destruct (f "receipts.csv") as [[r|e']|]; [discriminate Hx|by eexists|discriminate Hx]).
    + intros [Hx|[[e Hx]|[]]]; [discriminate Hx|]. rewrite Hx. by destruct (f "journal.ndjson") as [[j|?]|].
  - intros p Hp.
    assert (Hp' : p = (copied ++ match content (f "journal.ndjson") ≫= journalLine1 with Some l => [(dir +:+ journalLine1File, l)] | None => [] end ++
              match content (f "receipts.csv") with Some data => [(dir +:+ receiptsLifecycleFile, (copy_receipts data).1)] | None => [] end,
            put (bool_decide (is_Some (content (f "receipts.csv")))) (shown f receiptsLifecycleFile)
              (put (bool_decide (is_Some (content (f "journal.ndjson") ≫= journalLine1))) journalLine1File
                 (foldl (λ s n, put (here (f n)) n s) (MkSection (run_title rep) [] []) bundleRunFiles)))).
    { revert Hp. unfold shown. rewrite String.eqb_refl. cbn [andb]. generalize (foldl (λ s n, put (here (f n)) n s) (MkSection (run_title rep) [] []) bundleRunFiles).
      intros s0. destruct (f "journal.ndjson") as [[j|e]|]; cbn [content mbind option_bind]; [|discriminate|];
        (destruct (f "receipts.csv") as [[r|e']|]; cbn [content mbind option_bind]; [|discriminate|]);
        try (destruct (copy_receipts r) as [text []]); try (destruct (journalLine1 j)); intros Hp; by injection Hp as <-. }
    rewrite Hp'. clear Hp Hp'. f_equal.
    + unfold entries_of, run_names. rewrite omap_app, Hs.
      rewrite (omap_ext' (λ n, (λ data, ((Campaign.RowRun rep +:+ "/") +:+ n, data)) <$> run_entry f n)
                 (λ n, (λ data, (dir +:+ n, data)) <$> content (f n)) bundleRunFiles)
        by (intros n Hn'; by rewrite (proj1 (run_entry_file f n Hn'))).
      apply (f_equal (app _)). unfold run_entry. cbn. destruct (content (f "journal.ndjson") ≫= journalLine1), (content (f "receipts.csv")); done.
    + rewrite put_spec. cbn [title have missing app]. unfold section_of, run_names. rewrite !filter_app, !fmap_app.
      assert (Hl : run_entry f journalLine1File = content (f "journal.ndjson") ≫= journalLine1 ∧
                   shown f journalLine1File = journalLine1File ∧
                   run_entry f receiptsLifecycleFile = (λ data, (copy_receipts data).1) <$> content (f "receipts.csv")) by done.
      destruct Hl as (Hl&Hsl&Hr).
      assert (Hh : shown f <$> filter (λ n, is_Some (run_entry f n)) bundleRunFiles = filter (λ n, here (f n) = true) bundleRunFiles ∧
                   shown f <$> filter (λ n, ¬ is_Some (run_entry f n)) bundleRunFiles = filter (λ n, ¬ here (f n) = true) bundleRunFiles).
      { split; (rewrite shown_files by (by intros n [_ Hn']%list_elem_of_filter)); apply list_filter_iff';
          intros n Hn'; rewrite (proj1 (run_entry_file f n Hn')), here_content; done. }
      destruct Hh as [-> ->]. generalize (filter (λ n, here (f n) = true) bundleRunFiles) (filter (λ n, ¬ here (f n) = true) bundleRunFiles).
      intros l1 l2. rewrite !filter_cons, !filter_nil, Hl, Hr.
      destruct (content (f "journal.ndjson") ≫= journalLine1), (content (f "receipts.csv")); cbn;
        rewrite ?Hsl, ?app_nil_r, <-?(assoc_L (++)); done.
Qed.

Lemma run_names_nodup : NoDup run_names.
Proof. apply (bool_decide_unpack _). vm_compute. exact I. Qed.

Lemma shown_inj f n n' : n ∈ run_names → n' ∈ run_names → shown f n = shown f n' → n = n'.
Proof.
  assert (Hother : ∀ m, m ≠ receiptsLifecycleFile → shown f m = m)
    by (intros m Hm; unfold shown; by rewrite (proj2 (String.eqb_neq _ _) Hm)).
  assert (Hnote : ∀ m, m ∈ run_names → m ≠ receiptsLifecycleFile → shown f receiptsLifecycleFile ≠ m).
  { intros m Hm Hne. unfold shown. rewrite String.eqb_refl. cbn [andb].
    destruct (match content _ with Some data => _ | None => false end); [|done].
    unfold run_names, bundleRunFiles in Hm. rewrite elem_of_app, !elem_of_cons, elem_of_nil in Hm.
    intros <-. by repeat destruct Hm as [Hm|Hm]. }
  intros Hn Hn'. destruct (decide (n = receiptsLifecycleFile)) as [->|H1], (decide (n' = receiptsLifecycleFile)) as [->|H2].
  - done.
  - rewrite (Hother n' H2). intros E. by destruct (Hnote n' Hn' H2).
  - rewrite (Hother n H1). intros E. by destruct (Hnote n Hn H1).
  - by rewrite (Hother n H1), (Hother n' H2).
Qed.

#[local] Opaque bundleRunFiles run_names copy_receipts.

(** The runs a bundle has, each where it first comes up. *)
Fixpoint runs_once (seen : list string) (reps : list Campaign.campaignRep) : list Campaign.campaignRep :=
  match reps with
  | [] => []
  | rep :: reps =>
      let run := Campaign.RowRun rep in
      if negb (RunStore.runIDPattern run) || bool_decide (run ∈ seen) then runs_once seen reps
      else rep :: runs_once (run :: seen) reps
  end.

Lemma zip_runs_spec files seen reps :
  (zip_runs files seen reps = None ↔
     Exists (λ rep, Exists (λ n, unreadable (files (Campaign.RowRun rep) n)) consulted) (runs_once seen reps)) ∧
  ∀ p, zip_runs files seen reps = Some p →
    p = (concat ((λ rep, entries_of (Campaign.RowRun rep) (files (Campaign.RowRun rep))) <$> runs_once seen reps),
         (λ rep, section_of (files (Campaign.RowRun rep)) rep) <$> runs_once seen reps).
Proof.
  revert seen. induction reps as [|rep reps IH]; intros seen; cbn [zip_runs runs_once].
  - split; [by rewrite Exists_nil|]. by intros p [= <-].
  - destruct (negb _ || _); [apply IH|]. destruct (IH (Campaign.RowRun rep :: seen)) as [IHn IHs].
    destruct (zip_run_spec (files (Campaign.RowRun rep)) rep) as [Hn Hs]. rewrite Exists_cons, <-IHn, <-Hn.
    destruct (zip_run _ rep) as [q|]; cbn [mbind option_bind]; [|naive_solver].
    destruct (zip_runs files _ reps) as [r|]; cbn [mbind option_bind]; [|naive_solver]. split; [naive_solver|].
    intros p [= <-]. rewrite (Hs q eq_refl), (IHs r eq_refl). done.
Qed.

Lemma runs_once_spec seen reps :
  NoDup (Campaign.RowRun <$> runs_once seen reps) ∧
  (∀ rep, rep ∈ runs_once seen reps → rep ∈ reps ∧ RunStore.runIDPattern (Campaign.RowRun rep) = true ∧ Campaign.RowRun rep ∉ seen) ∧
  (∀ rep, rep ∈ reps → RunStore.runIDPattern (Campaign.RowRun rep) = true → Campaign.RowRun rep ∉ seen →
     ∃ rep', rep' ∈ runs_once seen reps ∧ Campaign.RowRun rep' = Campaign.RowRun rep).
Proof.
  revert seen. induction reps as [|x reps IH]; intros seen; cbn [runs_once].
  { split_and!; [constructor|by intros ? ?%elem_of_nil..]. }
  destruct (RunStore.runIDPattern (Campaign.RowRun x)) eqn:Ep; cbn [negb orb].
  2: { destruct (IH seen) as (?&Hin&Hex). split_and!; [done| |].
       - intros rep Hr. destruct (Hin rep Hr) as (?&?&?). split_and!; [by right|done..].
       - intros rep [->|Hr]%elem_of_cons Hp; [congruence|by apply Hex]. }
  case_bool_decide as Hs.
  - destruct (IH seen) as (?&Hin&Hex). split_and!; [done| |].
    + intros rep Hr. destruct (Hin rep Hr) as (?&?&?). split_and!; [by right|done..].
    + intros rep [->|Hr]%elem_of_cons Hp Hns; [done|by apply Hex].
  - destruct (IH (Campaign.RowRun x :: seen)) as (Hnd&Hin&Hex). split_and!.
    + cbn. constructor; [|done]. intros (r&He&Hr)%list_elem_of_fmap. destruct (Hin r Hr) as (_&_&Hn). apply Hn. rewrite <-He. by left.
    + intros rep [->|Hr]%elem_of_cons; [split_and!; [by left|done..]|]. destruct (Hin rep Hr) as (?&?&Hn).
      split_and!; [by right|done|]. intros Hi. apply Hn. by right.
    + intros rep Hr Hp Hns. destruct (decide (Campaign.RowRun rep = Campaign.RowRun x)) as [E|E].
      * exists x. split; [by left|done].
      * apply elem_of_cons in Hr as [->|Hr]; [done|]. destruct (Hex rep Hr Hp) as (r&Hr'&He).
        { rewrite elem_of_cons. tauto. }
        exists r. split; [by right|done].
Qed.

(** ** The names of a bundle *)
Lemma run_name_inj run n run' n' :
  RunStore.runIDPattern run = true → RunStore.runIDPattern run' = true →
  (run +:+ "/") +:+ n = (run' +:+ "/") +:+ n' → run = run' ∧ n = n'.
Proof.
  intros Hr Hr' E. rewrite !string_app_assoc in E. pose proof (f_equal (λ s, Cut s "/"%char) E) as Hc. cbv beta in Hc.
  rewrite !BoardPage.Cut_join in Hc by by apply BoardPage.runID_no_slash. by injection Hc.
Qed.

Lemma run_name_cut run n : RunStore.runIDPattern run = true → (Cut ((run +:+ "/") +:+ n) "/"%char).2 = true.
Proof. intros Hr. rewrite string_app_assoc, BoardPage.Cut_join; [done|by apply BoardPage.runID_no_slash]. Qed.

Lemma elem_entries_of run f name data :
  (name, data) ∈ entries_of run f ↔ ∃ n, n ∈ run_names ∧ name = (run +:+ "/") +:+ n ∧ run_entry f n = Some data.
Proof.
  unfold entries_of. rewrite list_elem_of_omap. split.
  - intros (n&Hn&He). destruct (run_entry f n) as [d|] eqn:E; [|done]. injection He as <- <-. by exists n.
  - intros (n&Hn&->&He). exists n. split; [done|]. by rewrite He.
Qed.

Lemma entries_of_nodup run f : RunStore.runIDPattern run = true → NoDup (entries_of run f).*1.
Proof.
  intros Hr. unfold entries_of. pose proof run_names_nodup as Hn.
  induction Hn as [|n l Hni Hn IH]; [constructor|]. cbn. destruct (run_entry f n) as [d|]; cbn; [|done].
  constructor; [|done]. intros ([name data]&He&Hin)%list_elem_of_fmap. cbn in He. subst name.
  apply list_elem_of_omap in Hin as (n'&Hn'&He). destruct (run_entry f n') as [d'|]; [|done]. cbn in He.
  injection He as He _. apply run_name_inj in He as [_ ->]; done.
Qed.

#[local] Opaque entries_of.

Definition all_entries (files : string → string → file) (reps : list Campaign.campaignRep) : list entry :=
  concat ((λ rep, entries_of (Campaign.RowRun rep) (files (Campaign.RowRun rep))) <$> reps).

Lemma elem_all_entries files reps name data :
  (name, data) ∈ all_entries files reps ↔
  ∃ rep, rep ∈ reps ∧ (name, data) ∈ entries_of (Campaign.RowRun rep) (files (Campaign.RowRun rep)).
Proof.
  unfold all_entries. rewrite list_elem_of_In, in_concat. setoid_rewrite <-list_elem_of_In. split.
  - intros (l&Hl&Hin). apply list_elem_of_fmap in Hl as (rep&->&Hr). by exists rep.
  - intros (rep&Hr&Hin). eexists. split; [|done]. apply list_elem_of_fmap. by exists rep.
Qed.

Lemma all_entries_nodup files reps :
  NoDup (Campaign.RowRun <$> reps) → Forall (λ rep, RunStore.runIDPattern (Campaign.RowRun rep) = true) reps →
  NoDup (all_entries files reps).*1.
Proof.
  intros Hn Hp. induction Hp as [|rep reps Hr Hp IH]; [constructor|]. apply NoDup_cons in Hn as [Hni Hn].
  unfold all_entries in *. cbn. rewrite fmap_app. apply NoDup_app. split_and!; [by apply entries_of_nodup| |by apply IH].
  intros name ([? d]&->&Hin)%list_elem_of_fmap ([name' d']&He&Hin')%list_elem_of_fmap. cbn in He. subst name'.
  apply elem_entries_of in Hin as (n&_&->&_). apply elem_all_entries in Hin' as (rep'&Hr'&Hin').
  apply elem_entries_of in Hin' as (n'&_&He&_). rewrite Forall_forall in Hp.
  apply run_name_inj in He as [He _]; [|done|by apply Hp]. apply Hni, list_elem_of_fmap. exists rep'. by split.
Qed.

Lemma elem_shown f n (Q : string → Prop) `{∀ x, Decision (Q x)} :
  n ∈ run_names → shown f n ∈ shown f <$> filter Q run_names ↔ Q n.
Proof.
  intros Hn. rewrite list_elem_of_fmap. split.
  - intros (m&He&[Hq Hm]%list_elem_of_filter). apply shown_inj in He; [by subst|done..].
  - intros Hq. exists n. split; [done|]. by apply list_elem_of_filter.
Qed.

(** The files of the campaign's own folder. *)
Definition campaign_names (rec : Campaign.campaignRecord) : list string :=
  (if RunStore.runIDPattern (Campaign.CID rec) then [Repeat.SummaryCSV] else []) ++
  [Campaign.campaignFile; preflightBundleFile].

Definition campaign_section (summary : file) (rec : Campaign.campaignRecord) : section :=
  let ok := RunStore.runIDPattern (Campaign.CID rec) in
  MkSection "campaign" ((if ok && here summary then [Repeat.SummaryCSV] else []) ++ [Campaign.campaignFile; preflightBundleFile])
    (if ok && negb (here summary) then [Repeat.SummaryCSV] else []).

(** The entries after the runs' own. *)
Lemma stream_spec files summary record_json preflight_json rec :
  let stream := streamCampaignBundle files summary record_json preflight_json rec in
  let runs := runs_once [] (Campaign.CReps rec) in
  let dir_ok := RunStore.runIDPattern (Campaign.CID rec) in
  (stream = None ↔
     Exists (λ rep, Exists (λ n, unreadable (files (Campaign.RowRun rep) n)) consulted) runs ∨
     (dir_ok = true ∧ unreadable summary) ∨ unreadable (Some record_json) ∨ unreadable (Some preflight_json)) ∧
  ∀ es, stream = Some es →
    ∃ r p, record_json = Ok r ∧ preflight_json = Ok p ∧
      es = all_entries files runs ++
           (if dir_ok then match content summary with Some d => [(Repeat.SummaryCSV, d)] | None => [] end else []) ++
           [(Campaign.campaignFile, r); (preflightBundleFile, p);
            (manifestFile, manifest_text rec (((λ rep, section_of (files (Campaign.RowRun rep)) rep) <$> runs) ++ [campaign_section summary rec]))].
Proof.
  cbv zeta. unfold streamCampaignBundle, Campaign.campaignDir.
  destruct (zip_runs_spec files [] (Campaign.CReps rec)) as [Hn Hs]. rewrite <-Hn.
  destruct (zip_runs files [] (Campaign.CReps rec)) as [q|]; cbn [mbind option_bind]; [|naive_solver].
  rewrite (Hs q eq_refl). clear Hn Hs q. cbn [fst snd]. unfold unreadable, campaign_section.
  destruct (RunStore.runIDPattern (Campaign.CID rec)).
  - destruct summary as [[d|e]|], record_json as [r|e1], preflight_json as [p|e2]; cbn [zipFile mbind option_bind content here andb negb app];
      (split; [split; [intros Hx; first [discriminate Hx|eauto 6]|intros Hx; first [reflexivity|exfalso; naive_solver]]|]);
      intros es He; first [discriminate He|injection He as <-; by do 2 eexists].
  - destruct record_json as [r|e1], preflight_json as [p|e2]; cbn [zipFile mbind option_bind content here andb negb app];
      (split; [split; [intros Hx; first [discriminate Hx|eauto 6]|intros Hx; first [reflexivity|exfalso; naive_solver]]|]);
      intros es He; first [discriminate He|injection He as <-; by do 2 eexists].
Qed.

(** The runs of a campaign that a bundle has. *)
Lemma in_runs rec run :
  RunStore.runIDPattern run = true ∧ run ∈ Campaign.RowRun <$> Campaign.CReps rec ↔
  ∃ rep, rep ∈ runs_once [] (Campaign.CReps rec) ∧ Campaign.RowRun rep = run.
Proof.
  destruct (runs_once_spec [] (Campaign.CReps rec)) as (_&Hin&Hex). split.
  - intros [Hp (rep&->&Hr)%list_elem_of_fmap]. apply Hex; [done..|apply not_elem_of_nil].
  - intros (rep&Hr&<-). destruct (Hin rep Hr) as (?&?&_). split; [done|]. apply list_elem_of_fmap. by exists rep.
Qed.

Lemma run_member files rec run n data :
  RunStore.runIDPattern run = true ∧ run ∈ Campaign.RowRun <$> Campaign.CReps rec → n ∈ run_names →
  ((run +:+ "/") +:+ n, data) ∈ all_entries files (runs_once [] (Campaign.CReps rec)) ↔ run_entry (files run) n = Some data.
Proof.
  intros Hin Hn. rewrite elem_all_entries. setoid_rewrite elem_entries_of. split.
  - intros (rep&Hr&n'&_&He&Hd). assert (Hp : RunStore.runIDPattern (Campaign.RowRun rep) = true) by (apply (in_runs rec); by exists rep).
    apply run_name_inj in He as [-> ->]; [done|apply Hin|done].
  - intros Hd. apply in_runs in Hin as (rep&Hr&<-). exists rep. split; [done|]. by exists n.
Qed.

Lemma runs_entries_nodup files rec : NoDup (all_entries files (runs_once [] (Campaign.CReps rec))).*1.
Proof.
  destruct (runs_once_spec [] (Campaign.CReps rec)) as (Hn&Hin&_). apply all_entries_nodup; [done|].
  apply Forall_forall. intros rep Hr. by destruct (Hin rep Hr) as (_&?&_).
Qed.

Lemma runs_entries_cut files rec name :
  name ∈ (all_entries files (runs_once [] (Campaign.CReps rec))).*1 → (Cut name "/"%char).2 = true.
Proof.
  intros ([? data]&->&Hin)%list_elem_of_fmap. apply elem_all_entries in Hin as (rep&Hr&Hin).
  apply elem_entries_of in Hin as (n&_&->&_). cbn [fst]. apply run_name_cut, (in_runs rec). by exists rep.
Qed.

(** The names of a campaign's own entries. *)
Lemma tail_names (ok : bool) (d : option string) (r p m : string) :
  let tail := (if ok then match d with Some d => [(Repeat.SummaryCSV, d)] | None => [] end else []) ++
              [(Campaign.campaignFile, r); (preflightBundleFile, p); (manifestFile, m)] in
  NoDup tail.*1 ∧ ∀ name, name ∈ tail.*1 → (Cut name "/"%char).2 = false.
Proof.
  cbv zeta. destruct ok, d; cbn; (split; [apply (bool_decide_unpack _); vm_compute; exact I|]); intros name;
    rewrite !elem_of_cons, elem_of_nil; intros H; by repeat destruct H as [->|H].
Qed.

Lemma tail_summary files rec (summary : file) (r p m data : string) :
  (Repeat.SummaryCSV, data) ∈ all_entries files (runs_once [] (Campaign.CReps rec)) ∨
  (Repeat.SummaryCSV, data) ∈ (if RunStore.runIDPattern (Campaign.CID rec) then match content summary with Some d => [(Repeat.SummaryCSV, d)] | None => [] end else []) ++
    [(Campaign.campaignFile, r); (preflightBundleFile, p); (manifestFile, m)] ↔
  RunStore.runIDPattern (Campaign.CID rec) = true ∧ summary = Some (Ok data).
Proof.
  rewrite elem_of_app, !elem_of_cons, elem_of_nil. split.
  - intros [Hx|[Hx|[Hx|[Hx|[Hx|[]]]]]]; try done.
    + assert (Hc : (Cut Repeat.SummaryCSV "/"%char).2 = true) by (apply (runs_entries_cut files rec), list_elem_of_fmap; by eexists (_, data)).
      by vm_compute in Hc.
    + destruct (RunStore.runIDPattern _); [|by apply elem_of_nil in Hx]. split; [done|].
      destruct summary as [[d|e]|]; cbn in Hx; apply elem_of_cons in Hx as [Hx|Hx] || apply elem_of_nil in Hx; try done.
      * by injection Hx as ->.
      * by apply elem_of_nil in Hx.
  - intros [-> ->]. right. left. by left.
Qed.

(** What the names of a bundle stand for. *)
Lemma bundle_names files summary rec (r p m : string) :
  let es := all_entries files (runs_once [] (Campaign.CReps rec)) ++
    (if RunStore.runIDPattern (Campaign.CID rec) then match content summary with Some d => [(Repeat.SummaryCSV, d)] | None => [] end else []) ++
    [(Campaign.campaignFile, r); (preflightBundleFile, p); (manifestFile, m)] in
  let in_campaign run := RunStore.runIDPattern run = true ∧ run ∈ Campaign.RowRun <$> Campaign.CReps rec in
  NoDup es.*1 ∧
  (∀ run n data, in_campaign run → n ∈ run_names →
     ((run +:+ "/") +:+ n, data) ∈ es ↔ run_entry (files run) n = Some data) ∧
  (∀ data, (Repeat.SummaryCSV, data) ∈ es ↔ RunStore.runIDPattern (Campaign.CID rec) = true ∧ summary = Some (Ok data)) ∧
  ∀ name, name ∈ es.*1 →
    (∃ run n, in_campaign run ∧ n ∈ run_names ∧ name = (run +:+ "/") +:+ n) ∨ name ∈ campaign_names rec ∨ name = manifestFile.
Proof.
  cbv zeta. destruct (tail_names (RunStore.runIDPattern (Campaign.CID rec)) (content summary) r p m) as [Htn Ht].
  cbv zeta in Htn, Ht. set (tail := _ ++ [_; _; _]) in *. split_and!.
  - rewrite fmap_app. apply NoDup_app. split_and!; [by apply runs_entries_nodup| |done].
    intros name Hname Htail. apply Ht in Htail. apply runs_entries_cut in Hname. congruence.
  - intros run n data Hin Hn. rewrite elem_of_app, run_member by done. split; [|by left].
    intros [?|Hx]; [done|]. exfalso. assert (Hf : (Cut ((run +:+ "/") +:+ n) "/"%char).2 = false)
      by (apply Ht, list_elem_of_fmap; by eexists (_, data)). rewrite run_name_cut in Hf; [done|apply Hin].
  - intros data. rewrite elem_of_app. apply tail_summary.
  - intros name ([? data]&->&[Hin|Hin]%elem_of_app)%list_elem_of_fmap; cbn [fst].
    + left. apply elem_all_entries in Hin as (rep&Hr&Hin). apply elem_entries_of in Hin as (n&Hn&->&_).
      exists (Campaign.RowRun rep), n. split; [apply in_runs; by exists rep|done].
    + right. unfold tail in Hin. apply elem_of_app in Hin as [Hin|Hin].
      * left. unfold campaign_names. destruct (RunStore.runIDPattern _); [|by apply elem_of_nil in Hin].
        destruct (content summary); [|by apply elem_of_nil in Hin]. apply list_elem_of_singleton in Hin as [= -> _]. by left.
      * rewrite !elem_of_cons, elem_of_nil in Hin. unfold campaign_names. rewrite !elem_of_app, !elem_of_cons.
        destruct Hin as [[= -> _]|[[= -> _]|[[= -> _]|[]]]]; tauto.
Qed.

(** A section that lists, of [names], exactly those in the zip as included and
    the others as missing. *)
Definition lists (es : list entry) (dir : string) (show : string → string) (names : list string) (sec : section) : Prop :=
  have sec = show <$> filter (λ n, dir +:+ n ∈ es.*1) names ∧
  missing sec = show <$> filter (λ n, dir +:+ n ∉ es.*1) names.

Lemma section_lists es files rep :
  (∀ n data, n ∈ run_names → ((Campaign.RowRun rep +:+ "/") +:+ n, data) ∈ es ↔ run_entry (files (Campaign.RowRun rep)) n = Some data) →
  lists es (Campaign.RowRun rep +:+ "/") (shown (files (Campaign.RowRun rep))) run_names (section_of (files (Campaign.RowRun rep)) rep).
Proof.
  intros Hmem. assert (Hk : ∀ n, n ∈ run_names →
    is_Some (run_entry (files (Campaign.RowRun rep)) n) ↔ (Campaign.RowRun rep +:+ "/") +:+ n ∈ es.*1).
  { intros n Hn. rewrite list_elem_of_fmap. split.
    - intros [data Hd]. exists ((Campaign.RowRun rep +:+ "/") +:+ n, data). split; [done|]. by apply Hmem.
    - intros ([name data]&He&Hd). cbn in He. subst name. exists data. by apply Hmem in Hd. }
  split; cbn [have missing section_of]; f_equal; apply list_filter_iff'; intros n Hn; by rewrite Hk.
Qed.

Lemma campaign_lists es summary rec :
  (Campaign.campaignFile ∈ es.*1) → (preflightBundleFile ∈ es.*1) →
  (Repeat.SummaryCSV ∈ es.*1 ↔ RunStore.runIDPattern (Campaign.CID rec) = true ∧ here summary = true) →
  lists es EmptyString id (campaign_names rec) (campaign_section summary rec).
Proof.
  intros Hc Hp Hs. unfold lists, campaign_section, campaign_names. rewrite !list_fmap_id. cbn [have missing].
  rewrite !filter_app.
  assert (Hin : filter (λ n, EmptyString +:+ n ∈ es.*1) [Campaign.campaignFile; preflightBundleFile] =
                  [Campaign.campaignFile; preflightBundleFile] ∧
                filter (λ n, EmptyString +:+ n ∉ es.*1) [Campaign.campaignFile; preflightBundleFile] = []).
  { rewrite !filter_cons, !filter_nil. cbn [String.append].
    rewrite !decide_True by done. by rewrite !decide_False by tauto. }
  destruct Hin as [-> ->]. rewrite app_nil_r. destruct (RunStore.runIDPattern _); [|done].
  rewrite !filter_cons, !filter_nil. cbn [String.append andb].
  destruct (here summary); cbn [negb].
  - rewrite decide_True by by apply Hs. rewrite decide_False; [done|]. intros Hn. apply Hn. by apply Hs.
  - rewrite decide_False by (intros Hn; by apply Hs in Hn as []). rewrite decide_True; [done|].
    intros Hn. by apply Hs in Hn as [].
Qed.

(** C32: a bundle is complete, or there is none. The response is aborted
    exactly when a file it needs is there but cannot be read. Otherwise it
    holds no name twice and no file but these: for each run of the campaign, of
    the listed files, those its folder has, byte for byte, the journal's first
    line and its receipts without the ballots' (a last row cut inside its time
    among them: [torn_time_copied]); the summary where the campaign has one, the
    record and the preflight; and last the manifest. The manifest has a section
    for each run, under the run's name, in the campaign's order, and one for the
    campaign, under its; each lists as included exactly its names in the zip and
    as missing exactly its others. *)
Theorem bundle_exact files summary record_json preflight_json rec :
  let stream := streamCampaignBundle files summary record_json preflight_json rec in
  let in_campaign run := RunStore.runIDPattern run = true ∧ run ∈ Campaign.RowRun <$> Campaign.CReps rec in
  (stream = None ↔
     (∃ run n, in_campaign run ∧ n ∈ consulted ∧ unreadable (files run n)) ∨
     (RunStore.runIDPattern (Campaign.CID rec) = true ∧ unreadable summary) ∨
     unreadable (Some record_json) ∨ unreadable (Some preflight_json)) ∧
  ∀ es, stream = Some es →
    NoDup es.*1 ∧
    (∀ run n data, in_campaign run → n ∈ run_names →
       ((run +:+ "/") +:+ n, data) ∈ es ↔ run_entry (files run) n = Some data) ∧
    (∀ data, (Repeat.SummaryCSV, data) ∈ es ↔ RunStore.runIDPattern (Campaign.CID rec) = true ∧ summary = Some (Ok data)) ∧
    (∃ r p, record_json = Ok r ∧ preflight_json = Ok p ∧ (Campaign.campaignFile, r) ∈ es ∧ (preflightBundleFile, p) ∈ es) ∧
    (∀ name, name ∈ es.*1 →
       (∃ run n, in_campaign run ∧ n ∈ run_names ∧ name = (run +:+ "/") +:+ n) ∨
       name ∈ campaign_names rec ∨ name = manifestFile) ∧
    ∃ sections own, last es = Some (manifestFile, manifest_text rec (sections ++ [own])) ∧
      Forall2 (λ rep sec, title sec = run_title rep ∧
                 lists es (Campaign.RowRun rep +:+ "/") (shown (files (Campaign.RowRun rep))) run_names sec)
        (runs_once [] (Campaign.CReps rec)) sections ∧
      title own = "campaign" ∧ lists es EmptyString id (campaign_names rec) own.
Proof.
  cbv zeta. destruct (stream_spec files summary record_json preflight_json rec) as [Hn Hs]. cbv zeta in Hn, Hs.
  set (runs := runs_once [] (Campaign.CReps rec)) in *. split.
  - rewrite Hn. apply or_iff_compat_r. rewrite Exists_exists. split.
    + intros (rep&Hr&(n&Hc&Hu)%Exists_exists). exists (Campaign.RowRun rep), n.
      split; [apply in_runs; by exists rep|done].
    + intros (run&n&Hin&Hc&Hu). apply in_runs in Hin as (rep&Hr&<-). exists rep. split; [done|]. apply Exists_exists. by exists n.
  - intros es He. destruct (Hs es He) as (r&p&Hr&Hp&Hes). set (secs := _ ++ [_]) in Hes. clear Hs Hn He.
    destruct (bundle_names files summary rec r p (manifest_text rec secs)) as (Hnd&Hmem&Hsum&Hnames).
    cbv zeta in Hnd, Hmem, Hsum, Hnames. fold runs in Hnd, Hmem, Hsum, Hnames. rewrite <-Hes in Hnd, Hmem, Hsum, Hnames.
    assert (Hc : (Campaign.campaignFile, r) ∈ es ∧ (preflightBundleFile, p) ∈ es).
    { rewrite Hes, !elem_of_app. split; [right; right; by left|right; right; right; by left]. }
    split_and!; [done..|by exists r, p|done|].
    exists ((λ rep, section_of (files (Campaign.RowRun rep)) rep) <$> runs), (campaign_section summary rec).
    split_and!; [by rewrite Hes, !last_app| |done|].
    + apply Forall2_fmap_r, Forall_Forall2_diag, Forall_forall. intros rep Hrep. split; [done|].
      apply section_lists. intros n data Hrn. apply Hmem; [|done]. apply in_runs. by exists rep.
    + apply campaign_lists; [apply list_elem_of_fmap; exists (Campaign.campaignFile, r); by destruct Hc|apply list_elem_of_fmap; exists (preflightBundleFile, p); by destruct Hc|].
      rewrite list_elem_of_fmap. split.
      * intros ([name data]&He&Hd). cbn in He. subst name. by apply Hsum in Hd as [? ->].
      * intros [Hok Hh]. destruct summary as [[data|]|]; [|done..]. exists (Repeat.SummaryCSV, data). split; [done|].
        by apply Hsum.
Qed.

#[local] Transparent copy_receipts.

(** ** The receipts of a bundle *)
Section receipts.
Context `{Rfc3339Laws, ReceiptFile.TrailJson}.
Import ReceiptFile ReceiptFileFacts.

Definition is_ballot (ev : TrailEvent) : bool := String.eqb (Event ev) "SubmitBallot".

Definition lifecycle (evs : list TrailEvent) : list TrailEvent := filter (λ ev, is_ballot ev = false) evs.

(** A receipt none of whose fields [csv.Writer] would quote. *)
Definition unquoted (ev : TrailEvent) : Prop := Forall (λ f, Csv.needs_quotes f = false) (row_fields ev).

Lemma write_row_unquoted row : Forall (λ f, Csv.needs_quotes f = false) row → write_row row = join_fields row +:+ newline.
Proof.
  intros Hr. unfold write_row. replace (Csv.write_field <$> row) with row; [done|].
  induction Hr as [|f row Hf _ IH]; [done|]. cbn. rewrite <-IH. unfold Csv.write_field. by rewrite Hf.
Qed.

Lemma copy_rows_whole evs rest fuel :
  Forall clean_event evs → Forall unquoted evs → (length evs + length rest ≤ fuel)%nat →
  copy_rows fuel false ((row_text <$> evs) ++ rest) =
  (rows_text (lifecycle evs) +:+ (copy_rows (fuel - length evs) false rest).1, (copy_rows (fuel - length evs) false rest).2).
Proof.
  intros Hc. revert fuel. induction Hc as [|ev evs Hev Hc IH]; intros fuel Hu Hf.
  { cbn [length fmap list_fmap app]. rewrite Nat.sub_0_r. cbn. by destruct (copy_rows fuel false rest). }
  destruct fuel as [|fuel]; [cbn in Hf; lia|]. apply Forall_cons in Hu as [Hu Hus].
  cbn [fmap list_fmap app copy_rows length] in *.
  destruct (read_whole ev ((row_text <$> evs) ++ rest) Hev) as [-> _].
  change (length (row_fields ev) <? receiptsCSVFields)%nat with false. cbn [negb andb orb].
  rewrite IH by (done || lia). rewrite Nat.sub_succ.
  unfold lifecycle. rewrite filter_cons. unfold is_ballot at 1. change (field (row_fields ev) 0) with (Event ev).
  destruct (String.eqb (Event ev) "SubmitBallot") eqn:E; cbn [negb].
  - by rewrite decide_False by (unfold is_ballot; by rewrite E).
  - rewrite decide_True by (unfold is_ballot; by rewrite E). cbn [rows_text]. unfold csv_row.
    rewrite (write_row_unquoted _ Hu), !string_app_assoc. done.
Qed.

(** The copy of a whole log, followed by what [copy_rows] makes of a tail. *)
Lemma copy_log evs tail :
  Forall clean_event evs → Forall unquoted evs → is_line tail →
  let lines := if String.eqb tail EmptyString then [] else [tail] in
  copy_receipts (log evs +:+ tail) =
  (log (lifecycle evs) +:+ (copy_rows (length lines) false lines).1, (copy_rows (length lines) false lines).2).
Proof.
  intros Hc Hu Ht lines. unfold copy_receipts, log. rewrite !string_app_assoc.
  rewrite split_lines_nl by done. rewrite split_rows by done. fold lines.
  change (EmptyString +:+ receiptsCSVHeader) with receiptsCSVHeader. cbn [length copy_rows].
  assert (Hh : ∃ fields, (∀ l, csv_read (receiptsCSVHeader :: l) = Some (Some fields, l)) ∧ write_row fields = receiptsCSVHeader +:+ newline)
    by (eexists; split; [intros l; reflexivity|by vm_compute]).
  destruct Hh as (fields&->&Hw). cbn [negb andb orb]. rewrite Hw.
  rewrite copy_rows_whole; [|done..|rewrite length_app, length_fmap; lia].
  rewrite length_app, length_fmap. replace (length evs + length lines - length evs)%nat with (length lines) by lia.
  cbn [fst snd]. by rewrite !string_app_assoc.
Qed.

(** A row cut short that lacks a field is left out and reported. *)
Lemma copy_torn_row ev k q p :
  clean_event ev → (k < 7)%nat → plain q → p = join_fields (take k (row_fields ev) ++ [q]) → p ≠ EmptyString →
  copy_rows 1 false [p] = (EmptyString, true).
Proof.
  intros Hev Hk Hq -> Hne. cbn [copy_rows csv_read]. rewrite (proj2 (String.eqb_neq _ _) Hne).
  rewrite scan_join; [|by destruct (take k _)|].
  - cbn [app negb andb]. rewrite (proj2 (Nat.ltb_lt _ _)); [done|].
    rewrite length_app, length_take. unfold receiptsCSVFields. cbn. lia.
  - apply Forall_app. split; [by apply Forall_take, row_plain|by constructor].
Qed.

(** One cut inside its last field is not: the torn time is copied. *)
Lemma torn_time_copied evs ev q :
  Forall clean_event evs → Forall unquoted evs → clean_event ev → unquoted ev → is_ballot ev = false →
  plain q → Csv.needs_quotes q = false →
  copy_receipts (log evs +:+ join_fields (take 7 (row_fields ev) ++ [q])) =
  (log (lifecycle evs) +:+ join_fields (take 7 (row_fields ev) ++ [q]) +:+ newline, false).
Proof.
  intros Hc Hu Hev Huev Hb Hq Hnq.
  assert (Hpl : Forall plain (take 7 (row_fields ev) ++ [q])).
  { apply Forall_app. split; [by apply Forall_take, row_plain|by constructor]. }
  pose proof (row_text_nonempty ev 6 q) as Hne. set (p := join_fields _) in *.
  assert (Hl : is_line p) by by apply join_line.
  rewrite copy_log by done. cbv zeta. rewrite (proj2 (String.eqb_neq _ _) Hne). cbn [length copy_rows csv_read].
  rewrite (proj2 (String.eqb_neq _ _) Hne). unfold p at 1 2.
  rewrite scan_join by done. cbn [app negb andb orb].
  change (length (take 7 (row_fields ev) ++ [q]) <? receiptsCSVFields)%nat with false.
  change (field (take 7 (row_fields ev) ++ [q]) 0) with (Event ev). unfold is_ballot in Hb. rewrite Hb. cbn [negb fst snd].
  change (csv_read []) with (@None (option (list string) * list string)). cbn [fst snd].
  rewrite write_row_unquoted, string_app_nil; [done|].
  apply Forall_app. split; [by apply Forall_take|by constructor].
Qed.

(** A bundle's receipts are the run's without its ballots. Of a receipts
    file as the console writes it, the copy is the file of the lifecycle
    receipts alone, and reading it back gives exactly those, in order. Where
    the file ends in a row that lacks a field the copy is the same, and the
    manifest says that a row was dropped. *)
Theorem bundle_receipts_read_back evs :
  Forall clean_event evs → Forall unquoted evs →
  copy_receipts (log evs) = (log (lifecycle evs), false) ∧
  readReceipts (Some (copy_receipts (log evs)).1) = (lifecycle (kept <$> evs), None) ∧
  ∀ ev k q, clean_event ev → (k < 7)%nat → str_prefix q (default EmptyString (row_fields ev !! k)) →
    let p := join_fields (take k (row_fields ev) ++ [q]) in
    p ≠ EmptyString → copy_receipts (log evs +:+ p) = (log (lifecycle evs), true).
Proof.
  intros Hc Hu. assert (Hw : copy_receipts (log evs) = (log (lifecycle evs), false)).
  { rewrite <-(string_app_nil (log evs)), copy_log by done. cbn. by rewrite string_app_nil. }
  split_and!; [done| |].
  - rewrite Hw. cbn [fst]. rewrite read_log_whole.
    + f_equal. unfold lifecycle. clear. induction evs as [|ev evs IH]; [done|].
      cbn [fmap list_fmap]. rewrite !filter_cons. change (is_ballot (kept ev)) with (is_ballot ev).
      destruct (decide (is_ballot ev = false)); cbn; by rewrite IH.
    + apply Forall_forall. intros ev [_ Hev]%list_elem_of_filter. rewrite Forall_forall in Hc. by apply Hc.
  - intros ev k q Hev Hk Hq p Hp.
    assert (Hpq : plain q).
    { destruct (row_fields ev !! k) as [f|] eqn:Ef.
      - eapply plain_prefix; [done|]. eapply Forall_lookup_1; [by apply row_plain|done].
      - apply lookup_ge_None in Ef. cbn in Ef. lia. }
    assert (Hl : is_line p).
    { apply join_line, Forall_app. split; [by apply Forall_take, row_plain|by constructor]. }
    rewrite copy_log by done. cbv zeta. rewrite (proj2 (String.eqb_neq _ _) Hp). cbn [length].
    rewrite (copy_torn_row ev k q p) by done. cbn. by rewrite string_app_nil.
Qed.
End receipts.
End Bundle.
