(* ===== verification/ToyRuns.v ===== *)
(** * Concrete pauses, receipts, tracking codes, populations and views *)
From S2P Require Import Prelude Hex Receipts GoText Config Scenarios Bench ReceiptFile.
From S2P Require Import ReceiptFileFacts Timeline TimelineFacts.
From S2P Require Wire Derived Board BoardPage Ballots DataCheck RunStore Exclusion Server Journal Resume Views Bundle.
From Stdlib Require Import Ascii.
#[local] Open Scope Z_scope.

(** ** Concrete pauses and split windows

    A ballots pause at which the operator runs one attack and the wait then
    runs out, a cancelled pause, and a window of three ballots split after the
    first. *)
Module ToyTimeline.
Import Config Scenarios Timeline TimelineFacts WindowFacts.

Definition verdict_of (sc : Scenario) : ScenarioResult := newLiveResult sc.

(** The turns of a loop that mounts every attack of [todo] not already in [ran]. *)
Definition mount_all (ran : list string) (todo : list Scenario) : list event :=
  (sc ← todo;
   Turn (NextAttack false 0) ::
   if bool_decide (ID sc ∈ ran) then [] else [Turn (Mounted (verdict_of sc))]) ++
  [Turn (NextAttack false 0)].

Definition one_then_timeout : list event :=
  [Decide (MkDecision "run" "reused-nullifier"); Turn Decided] ++
  mount_all [] (filter (λ sc, ID sc = "reused-nullifier") Registry) ++
  [Turn TimedOut] ++ mount_all ["reused-nullifier"] (ScenariosForStage StageBallots).

Definition start_pause : history := paused_at 0 (30 * 10 ^ 9) StageBallots no_mount true.

Definition finished : history :=
  default start_pause
    (run_pause (30 * 10 ^ 9) StageBallots no_mount one_then_timeout start_pause).

Lemma accepted_decisions_applied_witness :
  at_ (life finished) = Resumed "timeout" ∧
  applied finished = accepted finished ∧
  accepted finished = [MkDecision "run" "reused-nullifier"] ∧
  covered StageBallots (ran (life finished)) [] (cut finished).
Proof.
  destruct (accepted_decisions_applied 0 (30 * 10 ^ 9) StageBallots no_mount true
    one_then_timeout finished) as (_ & _ & _ & _ & Hend); [vm_compute; reflexivity|].
  destruct (Hend "timeout") as (_ & _ & Hgo); [vm_compute; reflexivity|].
  destruct Hgo as (Happ & _ & Hcov & _); [discriminate|].
  split; [vm_compute; reflexivity|]. split; [exact Happ|].
  split; [vm_compute; reflexivity|]. apply Hcov. discriminate.
Defined.

(** A decision accepted before a cancellation is never carried out. *)
Lemma cancel_drops_accepted_decision :
  match run_pause (30 * 10 ^ 9) StageBallots no_mount
          [Decide (MkDecision "run-all" ""); Turn Cancelled] start_pause with
  | Some h => accepted h = [MkDecision "run-all" ""] ∧ applied h = [] ∧ ran (life h) = []
  | None => False
  end.
Proof. vm_compute. done. Qed.

(** ** A split window *)
Import Bench.

Definition wit_half1 : run := close_jobs false (finish 0 30 true (dispatch (start 1))).

Definition wit_half2 : run := close_jobs true (finish 0 20 false (dispatch (start 2))).

Lemma wit_half1_reached : reached 1 (clamp 1) wit_half1 [(0%nat, (30, true))].
Proof.
  apply reached_done; [|done..]. apply (reached_finish _ _ _ []); [|cbn; set_solver].
  apply reached_dispatch; [apply reached_start | vm_compute; (reflexivity || lia)..].
Qed.

Lemma wit_half2_reached : reached 2 (clamp 1) wit_half2 [(0%nat, (20, false))].
Proof.
  apply reached_cancel; [|vm_compute; (reflexivity || lia)..].
  apply (reached_finish _ _ _ []); [|cbn; set_solver].
  apply reached_dispatch; [apply reached_start | vm_compute; (reflexivity || lia)..].
Qed.

Lemma paused_window_accounts_witness :
  accounted 3 [(0%nat, (30, true)); (1%nat, (20, false))]
    (pausedWindow 3 1 false 0 (run_result 1 40 wit_half1) (run_result 1 50 wit_half2)) ∧
  donor_index 1 (run_result 1 40 wit_half1) = 0.
Proof.
  split; [|reflexivity].
  apply (paused_window_accounts 3 1 1 40 50 false 0 wit_half1 wit_half2
    [(0%nat, (30, true))] [(0%nat, (20, false))]).
  - lia.
  - exact wit_half1_reached.
  - split; reflexivity.
  - exact wit_half2_reached.
  - split; reflexivity.
Defined.

(** The pause point is inside the window. *)
Lemma pauseIndex_inside p n :
  pauseIndex p n = 0 ∨ 1 ≤ pauseIndex p n ≤ n - 1.
Proof.
  unfold pauseIndex. destruct p as [plan|]; [|by left].
  destruct (negb _ || (n <? 2)) eqn:E; [by left|]. right.
  apply orb_false_iff in E as [_ E%Z.ltb_ge]. lia.
Qed.
End ToyTimeline.

(** ** A concrete receipts file

    Two receipts, the second cut short; and what becomes of a receipt appended
    after the console reopens a file that ends in a torn row. *)
Module ToyReceiptFile.
Import GoText Receipts ReceiptFile ReceiptFileFacts.
#[local] Arguments String.append !_ _ / : simpl nomatch.

(** Seconds between a "T" and a "Z". *)
Definition seconds_text (t : Z) : string := Itoa (Z.max 0 (t / 10 ^ 9)).

#[export] Instance toy_time : Rfc3339 := {
  FormatTime t := String "T" (seconds_text t +:+ String "Z" EmptyString);
  ParseTime s :=
    match s with
    | String "T" s =>
        let d := str_take (String.length s - 1) s in
        if has_suffix s (String "Z" EmptyString) && all_digits d
        then Some (digits_value 0 d * 10 ^ 9) else None
    | _ => None
    end
}.

Lemma seconds_digits t : str_forallb is_digit (seconds_text t) = true.
Proof.
  unfold seconds_text. destruct (Itoa_digits (Z.max 0 (t / 10 ^ 9))) as [H _]; [lia|].
  by apply andb_true_iff in H as [_ ?].
Qed.

Lemma take_all (a : string) z : str_take (String.length (a +:+ String z EmptyString) - 1) (a +:+ String z EmptyString) = a.
Proof.
  rewrite string_length_app. cbn [String.length].
  replace (String.length a + 1 - 1)%nat with (String.length a) by lia.
  induction a as [|c a IH]; [done|]. cbn. by rewrite IH.
Qed.

Lemma drop_all (a : string) z : str_drop (String.length (a +:+ String z EmptyString) - 1) (a +:+ String z EmptyString) = String z EmptyString.
Proof.
  rewrite string_length_app. cbn [String.length].
  replace (String.length a + 1 - 1)%nat with (String.length a) by lia.
  induction a as [|c a IH]; [done|]. cbn. by rewrite IH.
Qed.

Lemma digits_drop n s : str_forallb is_digit s = true → str_forallb is_digit (str_drop n s) = true.
Proof.
  revert s. induction n as [|n IH]; intros [|c s]; cbn; try done.
  intros [_ H]%andb_true_iff. by apply IH.
Qed.

#[local] Instance toy_time_laws : Rfc3339Laws.
Proof.
  split.
  - intros t. change (plain (String "T" EmptyString +:+ (seconds_text t +:+ String "Z" EmptyString))).
    rewrite !plain_app. split_and!; [done|apply digits_plain, seconds_digits|done].
  - done.
  - intros t Ht. cbn [ParseTime FormatTime toy_time]. rewrite take_all.
    unfold has_suffix. rewrite drop_all. rewrite string_length_app.
    rewrite (proj2 (Nat.leb_le _ _)) by (cbn; lia). cbn [andb String.eqb Ascii.eqb Bool.eqb].
    unfold seconds_text. assert (0 ≤ t / 10 ^ 9) by (apply Z.div_pos; lia).
    destruct (Itoa_digits (Z.max 0 (t / 10 ^ 9))) as [-> ->]; [lia|].
    f_equal. unfold second. pose proof (Z.div_mod t (10 ^ 9)). lia.
  - intros t p [q Hq] Hne. destruct p as [|c p]; [done|].
    injection Hq as <- Hq. cbn [ParseTime toy_time].
    assert (Hp : str_forallb is_digit p = true).
    { destruct (str_prefix_app p (seconds_text t) (String "Z" EmptyString)) as [(c&r&Hr)|(p'&->&[r Hr])].
      - by exists q.
      - pose proof (seconds_digits t) as Hd. rewrite <-Hr, str_forallb_app in Hd.
        by apply andb_true_iff in Hd as [? _].
      - destruct p' as [|z p']; [by rewrite string_app_nil; apply seconds_digits|].
        exfalso. apply Hne. injection Hr as <- Hr. by destruct p'. }
    unfold has_suffix. change (String.length (String "Z" EmptyString)) with 1%nat.
    destruct (String.eqb_spec (str_drop (String.length p - 1) p) (String "Z" EmptyString)) as [E|_];
      [|by rewrite andb_false_r].
    apply (digits_drop (String.length p - 1)) in Hp. by rewrite E in Hp.
Qed.

#[export] Instance toy_trail : TrailJson := { MarshalTrail ev := Ok (Event ev) }.

Definition receipt (block : Z) (tx : string) : Receipt :=
  MkReceipt tx block [x01] [x02] [x03] (Some (7 * 10 ^ 9 + 5)).

Definition created : TrailEvent := MkTrail "CreateElection" "" (receipt 4 "0a").

Definition closed : TrailEvent := MkTrail "CloseElection" "" (receipt 9 "0b").

(** One receipt written, the next cut after twenty bytes. *)
Definition opened : files := (openReceipts None None Written None (MkFiles "" "")).1.

Definition one : files := (Append Written created opened).1.

Definition torn : files := (Append (Short 20 (Foreign "crash")) closed one).1.

Lemma torn_kept : kept_in torn [created; closed] Torn.
Proof.
  eapply (kept_torn 20 (Foreign "crash") one torn [created]); [|reflexivity].
  eapply (kept_append opened one []); [|reflexivity].
  eapply (kept_open (MkFiles "" "")); [apply kept_fresh|reflexivity].
Qed.

Lemma events_clean : Forall clean_event [created; closed].
Proof. by repeat (constructor; [constructor; [done|done|done|cbn [EReceipt BlockNumber created closed receipt]; lia|intros ? [= <-]; lia]|]). Qed.

(** The console reopens the torn file and appends the receipt of a close. *)
Definition reopened : files :=
  (Append Written closed (openReceipts None None Written None torn).1).1.

Lemma reopened_kept : kept_in reopened [created; closed] Reopened.
Proof.
  eapply (kept_later Written _ _ _ _ closed); [|reflexivity].
  eapply (kept_reopen Written torn _ _ _ Torn); [apply torn_kept|by left|reflexivity].
Qed.

Lemma receipts_survive_crash_witness :
  readReceipts (Some (csv torn)) = ([kept created], Some ErrTruncatedReceipts) ∧
  (∃ whole ev, [created; closed] = whole ++ [ev] ∧
    read_cut whole ev (csv torn) (readReceipts (Some (csv torn)))) ∧
  ∃ more e, readReceipts (Some (csv reopened)) = (kept created :: more, e).
Proof.
  split; [vm_compute; reflexivity|]. split.
  - destruct (receipts_survive_crash torn [created; closed] Torn torn_kept events_clean)
      as [[E _]|H]; [discriminate E|exact H].
  - destruct (receipts_survive_crash reopened [created; closed] Reopened reopened_kept events_clean)
      as [E|(whole&ev&more&e&E&Hr)]; [discriminate E|]. exists more, e.
    apply (app_inj_tail [created] whole closed ev) in E as [<- _]. exact Hr.
Defined.

(** The reader never sees it: the new row starts inside the torn one. *)
Example torn_row_hides_later_receipts :
  readReceipts (Some (csv reopened)) = ([kept created], Some ErrTruncatedReceipts).
Proof. vm_compute. reflexivity. Qed.

(** A torn header swallows the first receipt, without an error. *)
Definition torn_header : files :=
  (openReceipts None None (Short 9 (Foreign "crash")) None (MkFiles "" "")).1.

Example torn_header_swallows_receipt :
  readReceipts (Some (csv (Append Written created
    (openReceipts None None Written None torn_header).1).1)) = ([], None).
Proof. vm_compute. reflexivity. Qed.
End ToyReceiptFile.

(** ** A concrete tracking code

    A table of two ballots, of which the ledger holds a receipt for one. *)
Module ToyBoardPage.
Import GoText Receipts ReceiptFile BoardPage.BoardPage ToyReceiptFile.

Definition toy_nullifier : string := "0a1b2c3d4e5f6071".

Definition toy_header : list string := ["index"; "position_id"; "nullifier"; "ballot_sha256"].

Definition toy_rows : list (list string) :=
  [["0"; "president"; "0A1B2C3D4E5F6071"; "aa"]; ["1"; "president"; "0a1b2cff4e5f6071"; "bb"]].

Definition toy_ballots (run : string) : option (result table) := Some (Ok (MkTable (Some toy_header) toy_rows None)).

Definition toy_receipts (run : string) : list (list string) :=
  [["SubmitBallot"; "0"; "tx7"; "x"; "3"]].

Definition toy_trail (run : string) : result (list TrailEvent) :=
  Ok [MkTrail "SubmitBallot" "1" (MkReceipt "tx6" 4 [] [] [] None); MkTrail "SubmitBallot" "0" (MkReceipt "tx7" 5 [] [] [] None)].

Definition toy_lookup (code : string) : code_reply :=
  handleVerifyCode toy_ballots toy_receipts toy_trail (λ _ _, false) ("/api/verify-code/run-1/" +:+ code).

Example toy_found : toy_lookup "bc-0a1b-2c3d" =
  CodeAnswer (MkVerify true "BC-0A1B-2C3D" 0 "president" (Board.Board.posLabel "president") toy_nullifier "aa" None 5 "tx7" true).
Proof. vm_compute. reflexivity. Qed.

Example toy_absent : toy_lookup "BC-FFFF-FFFF" = CodeAnswer not_found.
Proof. vm_compute. reflexivity. Qed.

Example toy_not_hex : ∃ e, toy_lookup "BC-XYZ1-0000" = CodeRefused 400 e.
Proof. by eexists. Qed.

(** The code printed for the first ballot finds it, whatever the table's case. *)
Lemma tracking_code_witness :
  let hits := filter (λ r, row_matches (columnIndex 0 toy_header) (str_take 8 toy_nullifier) r = true) toy_rows in
  hits = take 1 toy_rows ∧
  match hits with
  | [_] => ∃ r, toy_lookup (formatTrackingCode toy_nullifier) = CodeAnswer r ∧ Nullifier r = toy_nullifier
  | _ => False
  end.
Proof.
  split; [vm_compute; reflexivity|].
  destruct (tracking_code_finds_its_ballot "run-1" toy_nullifier toy_header toy_rows toy_ballots toy_receipts toy_trail
              (λ _ _, false)) as [_ Hr]; [vm_compute; reflexivity|vm_compute; reflexivity|vm_compute; lia|reflexivity|].
  revert Hr. vm_compute. intros (r&Hr&_&_&Hn&_). by exists r.
Defined.
End ToyBoardPage.

(** ** A concrete population

    Two voters, two positions of two candidates; and populations that the gate
    lets through or describes wrongly. *)
Module ToyDataCheck.
Import GoText Config DataCheck.DataCheck.

Definition toy_config : ElectionConfig :=
  MkElectionConfig "Toy" [MkTrustee "A"] 1 2 2 2 "uniform" "ground-truth" 0 8 f_zero f_zero None false None None.

Definition head_line : string := "voter_id,scale_group,ballot_complexity,president,senator".

Definition newline : string := String "010"%char EmptyString.

Definition toy_summary (rows : list string) : option (result string) :=
  Some (Ok (String.concat newline ("position,candidate,votes" :: rows))).

Definition gate (body rows : list string) : CheckReport :=
  match RunCheck "run-1" toy_config (Some (Ballots.Ballots.MkStream (head_line :: body) None)) (toy_summary rows) ("aa", "bb") with
  | Ok (rep, _) => rep
  | Err _ => MkReport false [] 0 "" "" 0 0 0 "" ""
  end.

Definition good_body : list string := ["V-000001,S,2,P_01,S_02"; "V-000002,S,2,P_02,S_02"].

Definition good_rows : list string := ["president,P_01,1"; "president,P_02,1"; "senator,S_01,0"; "senator,S_02,2"].

Example toy_passes : RPass (gate good_body good_rows) = true.
Proof. vm_compute. reflexivity. Qed.

Example toy_miscount : RPass (gate good_body (take 3 good_rows ++ ["senator,S_02,1"])) = false.
Proof. vm_compute. reflexivity. Qed.

(** The numbers are read, the labels are not. *)
Example labels_unread : RPass (gate ["1,S,2,X_01,_2"; "+2,S,2,_2,S_02"] ["a,x,1"; "a,x,1"; "b,y,0"; "b,y,2"]) = true.
Proof. vm_compute. reflexivity. Qed.

(** A row with a field too few leaves the shape check passed. *)
Example torn_row_keeps_shape :
  (CheckPass <$> RChecks (gate ["V-000001,S,2,P_01,S_02"; "V-000002,S,2,P_02"] good_rows)) !! 0%nat = Some true ∧
  RPass (gate ["V-000001,S,2,P_01,S_02"; "V-000002,S,2,P_02"] good_rows) = false.
Proof. vm_compute. done. Qed.

(** The check of the voter ids says why with the fault of a selection. *)
Example complaint_of_another_check :
  RChecks (gate ["V-000001,S,2,P_09,S_02"; "V-000007,S,2,P_02,S_02"] good_rows) !! 1%nat =
  Some (MkCheck "Voter ids unique and sequential" false
          (Errorf "row %d, position %d: %q is not one of %d candidates" [AInt 1; AInt 1; AStr "P_09"; AInt 2])).
Proof. vm_compute. reflexivity. Qed.

(** The two voters again, as numbers, in the generator's own format. *)
Definition toy_pop : list (Z * list nat) := [(1, [0%nat; 1%nat]); (2, [1%nat; 1%nat])].

Definition toy_counts : list Z := [1; 1; 0; 2].

Lemma toy_sized : machine_sized 2 "multi" toy_pop toy_counts.
Proof. split; [repeat constructor; cbn; lia|repeat constructor; lia|lia|reflexivity]. Qed.

Lemma data_gate_witness :
  ∃ rep, RunCheck "run-1" toy_config (Some (ballots_table 2 2 "multi" toy_pop)) (Some (Ok (summary_table 2 toy_counts)))
           ("aa", "bb") = Ok (rep, [CheckStart; CheckEnd (RPass rep) (RRows rep)]) ∧ RPass rep = true.
Proof.
  destruct (data_gate_exact toy_config 2 "multi" toy_pop toy_counts "run-1" ("aa", "bb")) as [(rep&Hrun&Hpass) _];
    [vm_compute; reflexivity|vm_compute; discriminate..|vm_compute; reflexivity|vm_compute; discriminate|exact toy_sized|].
  exists rep. split; [exact Hrun|]. apply Hpass.
  split; [vm_compute; reflexivity|repeat constructor; cbn; lia|vm_compute; reflexivity].
Defined.

(** One voter twice, and a vote moved in the summary, are told. *)
Example toy_gate_refuses :
  RPass (match RunCheck "run-1" toy_config (Some (ballots_table 2 2 "multi" [(1, [0%nat; 1%nat]); (1, [1%nat; 1%nat])]))
                 (Some (Ok (summary_table 2 toy_counts))) ("aa", "bb") with Ok (rep, _) => rep | Err _ => gate good_body good_rows end) = false ∧
  RPass (match RunCheck "run-1" toy_config (Some (ballots_table 2 2 "multi" toy_pop))
                 (Some (Ok (summary_table 2 [0; 2; 0; 2]))) ("aa", "bb") with Ok (rep, _) => rep | Err _ => gate good_body good_rows end) = false.
Proof. vm_compute. done. Qed.
End ToyDataCheck.

(** ** A concrete runs list

    A run that failed and one whose ballot window is running. *)
Module ToyViews.
Import GoText Config Views.Views.

Definition toy_onchain : ElectionConfig :=
  MkElectionConfig "Toy" [MkTrustee "A"] 1 2 2 2 "uniform" "onchain" 0 8 f_zero f_zero None false None None.

Definition toy_store : RunStore.RunStore.store :=
  RunStore.RunStore.MkStore 2 {["run-1" := Some (RunStore.RunStore.MkRunRecord "run-1" toy_onchain 10 ∅);
                       "run-2" := Some (RunStore.RunStore.MkRunRecord "run-2" toy_onchain 20 ∅); "junk" := None]}.

Definition failed_end : Resume.Resume.event :=
  Resume.Resume.MkEvent "run.end" {["failed" := Journal.Journal.JBool true; "reason" := Journal.Journal.JStr "peer lost"]}.

Definition window_start : Resume.Resume.event := Resume.Resume.MkEvent "stage.ballots.start" {["n" := Journal.Journal.JNum 4]}.

Definition toy_world : Server.Server.world :=
  Server.Server.MkWorld (Exclusion.Exclusion.set_busy {["run-2"]} Exclusion.Exclusion.newServer) toy_store
    {["run-1" := [failed_end]; "run-2" := [window_start]]}.

Definition toy_list (auth : bool) : list runView :=
  handleRuns (λ _, []) (λ _, None) (λ _, false) (λ _ _, false) auth None toy_world.

Example listed_for_all : (λ v, (RunStore.RunStore.RunID (VRecord v), SStatus (VStanding v), SReason (VStanding v))) <$> toy_list true =
  [("run-2", "interrupted", ""); ("run-1", "failed", "")].
Proof. vm_compute. reflexivity. Qed.

Example listed_without_accounts : (λ v, SReason (VStanding v)) <$> toy_list false = [""; "peer lost"].
Proof. vm_compute. reflexivity. Qed.

(** The running window is offered for a resume that the route refuses. *)
Example running_window_is_offered :
  (λ v, (Busy v, Resumable v)) <$> toy_list true = [(true, true); (false, false)] ∧
  ∃ w why, Server.Server.handleResume true (λ _, Ok tt) (λ _, false) "" "POST" "run-2" toy_world = (w, Server.Server.Refused 409 why, None).
Proof. split; [vm_compute; reflexivity|]. do 2 eexists. vm_compute. reflexivity. Qed.

Lemma toy_stored_ok : stored_ok toy_store.
Proof.
  intros id rec Hid. unfold toy_store in Hid. cbn [RunStore.RunStore.folders] in Hid.
  apply lookup_insert_Some in Hid as [[<- [= <-]]|[_ Hid]]; [done|].
  apply lookup_insert_Some in Hid as [[<- [= <-]]|[_ Hid]]; [done|].
  by apply lookup_singleton_Some in Hid as [_ [=]].
Qed.

Lemma runs_page_witness :
  NoDup ((λ v, RunStore.RunStore.RunID (VRecord v)) <$> toy_list true) ∧
  Forall (says (λ _, false) (λ _ _, false) toy_world) (toy_list true) ∧ length (toy_list true) = 2%nat.
Proof.
  destruct (runs_page_exact (λ _, []) (λ _, None) (λ _, false) (λ _ _, false) true None toy_world toy_stored_ok)
    as (Hn&_&_&Hs&_). split; [exact Hn|split; [exact Hs|vm_compute; reflexivity]].
Defined.
End ToyViews.

(** ** A concrete bundle's receipts *)
Module ToyBundle.
Import GoText Receipts ReceiptFile ReceiptFileFacts ToyReceiptFile Bundle.Bundle.

Definition ballot_receipt : TrailEvent := MkTrail "SubmitBallot" "0" (MkReceipt "tx7" 5 [] [] [] (Some (3 * 10 ^ 9))).
Definition close_receipt : TrailEvent := MkTrail "CloseElection" "" (MkReceipt "tx8" 6 [] [] [] (Some (4 * 10 ^ 9))).

(** A row cut inside its time is copied as it is, and nothing says so. *)
Example torn_time_in_bundle :
  copy_receipts (log [ballot_receipt] +:+ "CloseElection,,tx8,6,,,,T") =
  (receiptsCSVHeader +:+ ReceiptFile.newline +:+ "CloseElection,,tx8,6,,,,T" +:+ ReceiptFile.newline, false).
Proof. vm_compute. reflexivity. Qed.

Lemma toy_clean : Forall clean_event [ballot_receipt; close_receipt] ∧ Forall unquoted [ballot_receipt; close_receipt].
Proof.
  assert (Hc : ∀ n r tx b t, plain n → plain r → plain tx → 0 ≤ b < 2 ^ 64 → 0 ≤ t < 253402300800 * 10 ^ 9 →
    clean_event (MkTrail n r (MkReceipt tx b [] [] [] (Some t)))).
  { intros n r tx b t ? ? ? ? ?. split; try done. by intros ? [= <-]. }
  split; [|repeat constructor].
  apply Forall_cons. split; [apply Hc; done || lia|]. apply Forall_cons. split; [apply Hc; done || lia|]. by apply Forall_nil.
Qed.

Lemma bundle_receipts_witness :
  (copy_receipts (log [ballot_receipt; close_receipt])).1 = log [close_receipt] ∧
  readReceipts (Some (log [close_receipt])) = ([kept close_receipt], None).
Proof.
  destruct (@bundle_receipts_read_back toy_time toy_time_laws [ballot_receipt; close_receipt]) as (Hw&Hr&_); [apply toy_clean..|].
  rewrite Hw in Hr |- *. split; [reflexivity|exact Hr].
Defined.
End ToyBundle.

(** ** A concrete table of ballots

    Three ballots, two of which have the same first eight digits. *)
Module ToyDerived.
Import GoText Receipts ReceiptFile ToyReceiptFile Derived.Derived.

#[local] Instance toy_sha : Sha256 := {| Sum256 b := rev b |}.

Definition ballot_of (raw : bytes) : Wire.Ballot.t :=
  Wire.Ballot.Make 1 "run-1" [] [] [] (Some (Wire.CredentialPresentation.Make 1 [] [] [] (Some (Wire.Nullifier.Make 1 raw))))
    "president" None.

#[local] Instance toy_ballots : Wire.Proto := {|
  Wire.UnmarshalBallot raw := Ok (ballot_of raw);
  Wire.UnmarshalElectionParameters _ := Err (Foreign "params");
  Wire.UnmarshalDKGTranscript _ := Err (Foreign "dkg");
  Wire.UnmarshalPartialDecryption _ := Err (Foreign "partial");
  Wire.UnmarshalTallyResult _ := Err (Foreign "tally");
  Wire.MarshalTallyResult _ := Err (Foreign "tally")
|}.

(** A rendering with a quote and a comma. *)
Definition toy_render (b : Wire.Ballot.t) : result string :=
  Ok ("{" +:+ Quote "position_id" +:+ ":" +:+ Quote (Wire.Ballot.PositionId b) +:+ "," +:+ Quote "n" +:+ ":0}").

Definition toy_stream : Ballots.Ballots.stream :=
  Ballots.Ballots.MkStream ["0a1b2c3d01"; "0a1b2c3d02"; "ff1b2c3d03"] None.

Definition toy_table : string :=
  match writeBallotsCSV toy_render toy_stream with Ok t => t | Err _ => EmptyString end.

Definition toy_ask (raw : bytes) : BoardPage.BoardPage.code_reply :=
  BoardPage.BoardPage.handleVerifyCode
    (λ r, if String.eqb r "run-1" then Some (Ok (open_table toy_table)) else None) (λ _, []) (λ _, Ok []) (λ _ _, true)
    ("/api/verify-code/" +:+ ("run-1" +:+ "/" +:+ BoardPage.BoardPage.formatTrackingCode (nullifier (ballot_of raw)))).

Example toy_twins : ∃ why, toy_ask [x0a; x1b; x2c; x3d; x01] = BoardPage.BoardPage.CodeRefused 409 why.
Proof. eexists. vm_compute. reflexivity. Qed.

Lemma toy_one_line : one_line_end toy_render toy_stream.
Proof. intros i raw b json (line&_&_&Hb) Hj. injection Hb as <-. injection Hj as <-. by split_and!. Qed.

Lemma ballot_code_finds_ballot_witness :
  ∃ r, toy_ask [xff; x1b; x2c; x3d; x03] = BoardPage.BoardPage.CodeAnswer r ∧
    shows 2 [xff; x1b; x2c; x3d; x03] (ballot_of [xff; x1b; x2c; x3d; x03]) [] (Ok []) true r.
Proof.
  destruct (ballot_code_finds_ballot toy_render "run-1" toy_stream toy_table 2 [xff; x1b; x2c; x3d; x03]
    (ballot_of [xff; x1b; x2c; x3d; x03]) (λ _, []) (λ _, Ok []) (λ _ _, true)) as [_ Hr].
  - vm_compute. reflexivity.
  - exact toy_one_line.
  - vm_compute. reflexivity.
  - exists "ff1b2c3d03". split; [reflexivity|]. split; [vm_compute; reflexivity|reflexivity].
  - vm_compute. reflexivity.
  - vm_compute. lia.
  - apply Hr. intros j (raw&b&(line&Hl&Hd&Hb)&Hs).
    destruct j as [|[|[|j]]]; cbn in Hl; [| |reflexivity|discriminate Hl];
      injection Hl as <-; vm_compute in Hd; injection Hd as <-; injection Hb as <-; vm_compute in Hs; discriminate Hs.
Defined.
End ToyDerived.

(** ** Two sealed boards

    Two audited, unpublished runs of one election whose voters chose
    differently: other ballots, another tally, other totals. The pages differ in
    two digests alone. *)
Module ToySealed.
Import GoText BoardPage.BoardPage.
#[local] Existing Instance ToyDerived.toy_sha.
#[local] Existing Instance ToyDerived.toy_ballots.

Definition toy_config : Config.ElectionConfig :=
  Config.MkElectionConfig "Mayor" [] 1 1 2 2 "uniform" "offline" 0 1 Config.f_zero Config.f_zero None false None None.

(** A run in which [a] and [b] of the voters chose each candidate. *)
Definition toy_run (a b : Z) (tally ballot1 ballot2 : string) : run_data :=
  MkData (RunStore.RunStore.MkRunRecord "run-1" toy_config 0 ∅) (λ _, true)
    (Some (MkBoardHeader "Mayor" 2 "aa" "bb" "cc" tally "dd"))
    (Ballots.Ballots.MkStream [ballot1; ballot2] None)
    (Ceremony.Ceremony.MkState 1 [] 0 false false false true EmptyString None None None, None)
    (Ok [MkRow "mayor/1" a a 0 true "local"; MkRow "mayor/2" b b 0 true "local"])
    (Err (Foreign "scenarios")) None None.

Definition run_a : run_data := toy_run 2 0 "01" "0a0b" "0c0d".
Definition run_b : run_data := toy_run 1 1 "02" "0a0e" "0c0f".

Lemma toy_same : same_but_results run_a run_b.
Proof. split; [by repeat split|by repeat constructor|]. by repeat constructor. Qed.

Example toy_sealed : but_digests (buildBoard run_a) = but_digests (buildBoard run_b).
Proof. exact (sealed_same run_a run_b toy_same eq_refl). Qed.

Example toy_digests : (λ d, (TallySHA256 (Crypto (buildBoard d)), BallotsSHA256 (Crypto (buildBoard d)))) <$> [run_a; run_b] =
  [("01", "0d0c0b0a"); ("02", "0f0c0e0a")].
Proof. vm_compute. reflexivity. Qed.
End ToySealed.
