(* ===== verification/ToyPhases.v ===== *)
(** * A precinct's lifecycle on the concrete chain

    The console in front of the concrete ledger: a gateway that commits a
    transaction at once, a disk that never fails, nobody else on the network.
    The precinct of [ToyElection] is run from creation to publication. *)
From S2P Require Import Prelude Fabric Hex Wire Ristretto ToyGroup Contract BoardSpec.
From S2P Require Import HandlerFacts Ledger GoText Receipts ReceiptFile Config Ballots Bench.
From S2P Require Import Resume Verdict Ceremony Partials Timeline Phases PhasesFacts.
From S2P Require Import ToyLedger ToyElection ToyClient ToyRuns.
From S2P Require Import Journal.
From S2P Require Perf AuditPhase.
From stdpp Require Import relations.
#[local] Open Scope Z_scope.
Import GoText Phases PhasesFacts.

Module ToyPhases.
Import ToyReceiptFile.

Definition commit_now (fn : string) (args : list string) (s : worldstate) : worldstate * result unit :=
  match invocation_of fn args with
  | Some i => submit (handler i) (healthy s)
  | None => (s, Err (Foreign "Function not found in contract"))
  end.

#[export] Instance toy_console : Console worldstate := {
  ctx_err _ := None;
  evolves := eq;
  SubmitWithReceipt fn args s :=
    let '(s, r) := commit_now fn args s in
    (s, match r with Ok _ => Ok (Receipts.MkReceipt "0a" 1 [] [] [] None) | Err e => Err e end);
  SubmitTx fn args s :=
    let '(s, r) := commit_now fn args s in
    (s, match r with Ok _ => Ok ("0a"%string, 1) | Err e => Err e end);
  ReceiptsForBlock _ _ s := (s, Ok []);
  os_write _ _ := ReceiptFile.Written;
  os_open _ := (None, None, None)
}.

(** A transaction executed at once is a committed history of one. *)
Lemma commits_one i s s' : submit (handler i) (healthy s) = (s', Ok tt) → commits s [i] s'.
Proof.
  intros E. apply (replay_commits [] [i] s s s'); [constructor|]. cbn. by rewrite E.
Qed.

Lemma commit_now_commits fn args s s' r :
  commit_now fn args s = (s', r) →
  (∃ h, commits s h s') ∧
  ∀ i, r = Ok tt → invocation_of fn args = Some i → commits s ([] ++ [i] ++ []) s'.
Proof.
  unfold commit_now. destruct (invocation_of fn args) as [i|]; intros E.
  - destruct r as [[]|e].
    + apply commits_one in E. split; [by exists [i]|]. by intros i' _ [= ->].
    + assert (s' = s) as ->.
      { unfold submit in E. destruct (handler i (healthy s) tx_start) as [[[] t]|]; [done|].
        by injection E as <-. }
      split; [exists []; constructor|]. by intros i'.
  - injection E as <- <-. split; [exists []; constructor|]. by intros i'.
Qed.

#[export] Instance toy_chain_console : ChainConsole worldstate.
Proof.
  unshelve econstructor; [exact (λ s, s)|..].
  - intros s s' E. change (s = s') in E. subst s'. split; [exists []; constructor|done].
  - intros fn args s s' r E. split; [|done]. cbn in E. destruct (commit_now fn args s) as [s1 r1] eqn:Ec.
    injection E as <- _. by apply commit_now_commits in Ec as [? _].
  - intros fn args s s' r E. split; [|done]. cbn in E. destruct (commit_now fn args s) as [s1 r1] eqn:Ec.
    injection E as <- _. by apply commit_now_commits in Ec as [? _].
  - intros n txs s s' r E. injection E as <- _. split; [exists []; constructor|done].
  - intros fn args s s' rc i E Hi. cbn in E. destruct (commit_now fn args s) as [s1 [[]|e]] eqn:Ec; [|done].
    injection E as <- _. apply commit_now_commits in Ec as [_ Hc]. exists [], []. by apply Hc.
  - intros fn args s s' rc i E Hi. cbn in E. destruct (commit_now fn args s) as [s1 [[]|e]] eqn:Ec; [|done].
    injection E as <- _. apply commit_now_commits in Ec as [_ Hc]. exists [], []. by apply Hc.
Defined.

(** ** Running phases forward *)
#[local] Abbreviation world := (@world worldstate unit).

Lemma seq_run {A} (m : N unit) (k : N A) (w w1 w' : world) r :
  m w (Ok tt) w1 → k w1 r w' → nbind m (λ _, k) w r w'.
Proof. intros. left. by exists tt, w1. Qed.

Lemma step_run event ref fn args (w w' : world) r :
  commit event ref fn args w = (w', r) → step event ref fn args w r w'.
Proof. intros E. by apply (seq_run _ _ w w). Qed.

Lemma others_refl (w : world) : others w w.
Proof. split; [done|]. by destruct w. Qed.

Lemma one_partial b pd (w w' : world) :
  Ceremony.PartialDecryptions b = [pd] → send b 0 w = (w', Ok tt) → submitPartials b w (Ok tt) w'.
Proof.
  intros Hb Hs. exists None, [(0%nat, Ok tt)]. split; [|done].
  exists (Partials.MkConf w' (Partials.MReturned None) [Partials.WDone] 0 None false [(0%nat, Ok tt)]).
  split; [|done].
  apply (Partials.run_schedule_steps _ _ _ _ [None; None; None; Some 0; Some 0; Some 0; None]%nat).
  rewrite Hb. cbn [Partials.run_schedule Partials.own Partials.main_step Partials.start].
  cbn. rewrite Hs. done.
Qed.

(** Two ballots submitted one after the other. *)
Definition two_run : Bench.run :=
  Bench.close_jobs false (Bench.finish 1 5 true (Bench.dispatch
    (Bench.finish 0 5 true (Bench.dispatch (Bench.start 2))))).


Lemma two_ballots c ballots l1 l2 (w w1 w2 : world) tx1 b1 tx2 b2 :
  Ballots.lines ballots = [l1; l2] → Ballots.scan_err ballots = None →
  Ballots.isHexLine (TrimSpace l1) = true → Ballots.isHexLine (TrimSpace l2) = true →
  Config.AttackPlan c = None →
  SubmitTx "SubmitBallot" [TrimSpace l1] (env w) = (env w1, Ok (tx1, b1)) → w1 = set_env (env w1) w →
  SubmitTx "SubmitBallot" [TrimSpace l2] (env w1) = (env w2, Ok (tx2, b2)) → w2 = set_env (env w2) w1 →
  ∃ x, ballot_window ballots c 2 w (Bench.run_result (Config.submitConcurrency c) 9 two_run) x ∧
       ww x = w2 ∧ readErr x = None ∧ landed x = [MkLanded 0 tx1 b1; MkLanded 1 tx2 b2].
Proof.
  intros Hl Herr H1 H2 Hplan S1 E1 S2 E2.
  set (hand1 := <[0%nat := TrimSpace l1]> (∅ : gmap nat string)).
  set (hand2 := <[1%nat := TrimSpace l2]> (delete 0%nat hand1)).
  set (y1 := MkWindow w (Ballots.MkReader [l2] 1 ∅) hand1 [] [] None).
  set (y2 := MkWindow w1 (Ballots.MkReader [l2] 1 ∅) (delete 0%nat hand1) [MkLanded 0 tx1 b1] [] None).
  set (y3 := MkWindow w1 (Ballots.MkReader [] 2 ∅) hand2 [MkLanded 0 tx1 b1] [] None).
  set (y4 := MkWindow w2 (Ballots.MkReader [] 2 ∅) (delete 1%nat hand2)
               [MkLanded 0 tx1 b1; MkLanded 1 tx2 b2] [] None).
  exists y4. split; [|done].
  assert (Hw : 0 < Bench.clamp (Config.submitConcurrency c)).
  { unfold Bench.clamp. destruct (Z.ltb_spec (Config.submitConcurrency c) 1); lia. }
  apply (whole_window _ c 2 w 9 _ [1; 0]%nat y4); [by rewrite Hplan| |intros E; discriminate E].
  exists two_run, [(0%nat, (5, true)); (1%nat, (5, true))]. split_and!; [|done|done| |].
  - unfold two_run. apply Bench.reached_done; [|done|done].
    apply (Bench.reached_finish _ _ _ [(0%nat, (5, true))]); [|cbn; set_solver].
    apply Bench.reached_dispatch; [|done|cbn; lia|exact Hw].
    apply (Bench.reached_finish _ _ _ []); [|cbn; set_solver].
    apply Bench.reached_dispatch; [|done|cbn; lia|exact Hw]. apply Bench.reached_start.
  - apply (window_snoc _ _ _ _ [1; 0]%nat y3); [apply (window_snoc _ _ _ _ [0]%nat y2);
      [apply (window_snoc _ _ _ _ [0]%nat y1); [apply (window_snoc _ _ _ _ [] (open_window ballots w));
        [constructor|]|]|]|].
    + replace y1 with (read_line ballots (from 0) 0 (open_window ballots w)); [constructor; [apply not_elem_of_nil|done]|].
      unfold read_line, open_window, Ballots.openBallotReader, Ballots.At. cbn.
      rewrite Hl. cbn. by rewrite H1.
    + replace y2 with (submit_line 0 (TrimSpace l1) y1); [constructor; apply lookup_insert_eq|].
      unfold submit_line, y1. cbn [ww]. rewrite S1. unfold y2. cbn. by rewrite <-E1.
    + replace y3 with (read_line ballots (from 0) 1 y2); [constructor; [set_solver|done]|].
      unfold read_line, y2, Ballots.At. cbn. by rewrite H2.
    + replace y4 with (submit_line 1 (TrimSpace l2) y3); [constructor; apply lookup_insert_eq|].
      unfold submit_line, y3. cbn [ww]. rewrite S2. unfold y4. cbn. by rewrite <-E2.
  - intros i t ok [E|[E|[]%not_elem_of_nil]%elem_of_cons]%elem_of_cons; injection E as -> -> ->.
    + exists (MkLanded 0 tx1 b1). split; [by left|done].
    + exists (MkLanded 1 tx2 b2). split; [by right; left|done].
Qed.

(** ** The election of [ToyElection], as a precinct folder *)
Definition bundle : Ceremony.onChainBundle :=
  Ceremony.MkBundle "e" "03" "04" "ballots.ndjson" 2 ["05"] "06".

Definition ballots_file : Ballots.stream := Ballots.MkStream ["01"; "02"] None.

Definition header : result precinctHeader := Ok (MkPrecinctHeader "e" "Election" 1 2 2).

Definition hooks : @PrecinctHooks worldstate unit := MkHooks None None false.

Definition text (_ : goerr) : string := "refused".

Definition precinct_config : Config.ElectionConfig :=
  match precinctRun "uniform" "precinct-01" header ∅ with (Ok c, _) => c
  | _ => Config.MkElectionConfig "" [] 0 0 0 0 "" "" 0 0 zero_float zero_float None false None None end.

Definition before : world := MkWorld ∅ (ReceiptFile.MkFiles "" "") 0 [] None tt.

Definition started : world :=
  stamp [run_start "precinct-01" {["precinct-01" := "e"]} precinct_config;
         Resume.MkEvent "stage.submit.start" ∅] before.

Definition opened : world := (openReceiptsFor started).1.

Definition created : world := (commit "CreateElection" "" "CreateElection" ["03"] opened).1.

Definition keyed : world := (commit "PublishDKGTranscript" "" "PublishDKGTranscript" ["04"] created).1.

Definition polling : world :=
  stamp (Verdict.window_opening 2 (Config.submitConcurrency precinct_config) zero_float None None)
    (openReceiptsFor keyed).1.

Definition vote (line : string) (w : world) : world := set_env (SubmitTx "SubmitBallot" [line] (env w)).1 w.

Definition voted : world := vote "02" (vote "01" polling).

Definition result2 : Bench.RunResult :=
  Bench.run_result (Config.submitConcurrency precinct_config) 9 two_run.

Definition figures0 : Verdict.figures := Verdict.MkFigures 9 zero_float zero_float zero_float.

Definition counted : world :=
  let w := stamp (Verdict.window_closing result2 figures0 false false None) voted in
  let w := collectReceipts [MkLanded 0 "0a" 1; MkLanded 1 "0a" 1] w in
  closeReceipts (set_metrics (Some (Verdict.writeSubmitMetrics figures0 result2 2 false)) w).

Definition shut : world := (commit "CloseElection" "" "CloseElection" ["e"] counted).1.

Definition decrypted : world := (send bundle 0 shut).1.

Definition published : world := (commit "PublishTally" "" "PublishTally" ["06"] decrypted).1.

Definition after : world := stamp [submit_end (Ok "published") text] (closeReceipts published).

Lemma commits_ok :
  (commit "CreateElection" "" "CreateElection" ["03"] opened).2 = Ok tt ∧
  (commit "PublishDKGTranscript" "" "PublishDKGTranscript" ["04"] created).2 = Ok tt ∧
  (commit "CloseElection" "" "CloseElection" ["e"] counted).2 = Ok tt ∧
  (send bundle 0 shut).2 = Ok tt ∧
  (commit "PublishTally" "" "PublishTally" ["06"] decrypted).2 = Ok tt.
Proof. vm_compute. repeat split. Qed.

Lemma votes_ok :
  (SubmitTx "SubmitBallot" ["01"] (env polling)).2 = Ok ("0a"%string, 1) ∧
  (SubmitTx "SubmitBallot" ["02"] (env (vote "01" polling))).2 = Ok ("0a"%string, 1).
Proof. vm_compute. repeat split. Qed.

Definition measures : measured := MkMeasured figures0 None None None None None.

(** The ballots phase from any world: the writer opens, both lines are accepted. *)
Lemma ballots_forward (w wo w1 w2 : world) :
  openReceiptsFor w = (wo, Ok tt) →
  let wp := stamp (Verdict.window_opening 2 (Config.submitConcurrency precinct_config)
                     zero_float None None) wo in
  SubmitTx "SubmitBallot" [TrimSpace "01"] (env wp) = (env w1, Ok ("0a"%string, 1)) →
  w1 = set_env (env w1) wp →
  SubmitTx "SubmitBallot" [TrimSpace "02"] (env w1) = (env w2, Ok ("0a"%string, 1)) →
  w2 = set_env (env w2) w1 →
  submitBallots bundle ballots_file precinct_config text w (Ok tt)
    (closeReceipts (set_metrics (Some (Verdict.writeSubmitMetrics figures0 result2 2 false))
       (collectReceipts [MkLanded 0 "0a" 1; MkLanded 1 "0a" 1]
          (stamp (Verdict.window_closing result2 figures0 false false None) w2)))).
Proof.
  intros Ho wp S1 E1 S2 E2.
  destruct (two_ballots precinct_config ballots_file "01" "02" wp w1 w2
    "0a" 1 "0a" 1 eq_refl eq_refl eq_refl eq_refl eq_refl S1 E1 S2 E2) as (x&Hx&Hww&Herr&Hland).
  apply (seq_run _ _ w w); [by split|].
  apply (seq_run _ _ w wo); [exact Ho|].
  exists measures.
  exists (set_metrics (Some (Verdict.writeSubmitMetrics figures0 result2 2 false))
    (collectReceipts (landed x) (stamp (Verdict.window_closing result2 figures0 false false None) w2))).
  split; [|by rewrite Hland].
  left. exists (result2, x, false), (stamp (Verdict.window_closing result2 figures0 false false None) w2).
  split.
  - exists result2, x, false. split; [exact Hx|]. split; [done|]. split; [reflexivity|].
    rewrite Hww. apply others_refl.
  - unfold after_window. cbn [fst snd]. rewrite Herr.
    eapply seq_run; [reflexivity|]. cbn [measures latenciesErr metricsErr].
    eapply seq_run; [reflexivity|]. by split.
Qed.

Lemma opens_ok :
  openReceiptsFor started = (opened, Ok tt) ∧
  (openReceiptsFor keyed).2 = Ok tt.
Proof. vm_compute. repeat split. Qed.

Lemma ballots_run : submitBallots bundle ballots_file precinct_config text keyed (Ok tt) counted.
Proof.
  destruct votes_ok as [V1 V2]. destruct opens_ok as [_ O].
  apply (ballots_forward keyed (openReceiptsFor keyed).1 (vote "01" polling) voted).
  - rewrite <-O. apply surjective_pairing.
  - rewrite <-V1. apply surjective_pairing.
  - reflexivity.
  - rewrite <-V2. apply surjective_pairing.
  - reflexivity.
Qed.

(** The whole lifecycle from any world, its transactions accepted one by one. *)
Lemma precinct_forward (w wo w1 w2 w3 w4 w5 w6 : world) :
  openReceiptsFor (stamp [run_start "precinct-01" {["precinct-01" := "e"]} precinct_config;
                          Resume.MkEvent "stage.submit.start" ∅] w) = (wo, Ok tt) →
  commit "CreateElection" "" "CreateElection" ["03"] wo = (w1, Ok tt) →
  commit "PublishDKGTranscript" "" "PublishDKGTranscript" ["04"] w1 = (w2, Ok tt) →
  submitBallots bundle ballots_file precinct_config text w2 (Ok tt) w3 →
  commit "CloseElection" "" "CloseElection" ["e"] w3 = (w4, Ok tt) →
  send bundle 0 w4 = (w5, Ok tt) →
  commit "PublishTally" "" "PublishTally" ["06"] w5 = (w6, Ok tt) →
  PrecinctLifecycle bundle ballots_file "uniform" "precinct-01" header ∅ hooks text w
    (Ok "published"%string) (stamp [submit_end (Ok "published"%string) text] (closeReceipts w6)).
Proof.
  intros O C1 C2 B C3 C4 C5.
  exists (closeReceipts w6). split; [|reflexivity].
  apply (seq_run _ _ _ wo); [exact O|].
  exists w6. split; [|reflexivity].
  apply (seq_run _ _ _ w1); [by apply step_run|].
  apply (seq_run _ _ _ w2); [by apply step_run|].
  apply (seq_run _ _ _ w3); [exact B|].
  apply (seq_run _ _ _ w3); [by split|].
  apply (seq_run _ _ _ w4).
  { apply (seq_run _ _ _ w4); [by apply step_run|by split]. }
  apply (seq_run _ _ _ w5); [by apply (one_partial _ "05")|].
  apply (seq_run _ _ _ w5); [by split|].
  exists (Ok tt). split; [|done]. by apply step_run.
Qed.

Lemma precinct_run :
  PrecinctLifecycle bundle ballots_file "uniform" "precinct-01" header ∅ hooks text before
    (Ok "published"%string) after.
Proof.
  destruct commits_ok as (C1&C2&C3&C4&C5).
  apply (precinct_forward before opened created keyed counted shut decrypted published).
  - exact (proj1 opens_ok).
  - rewrite <-C1. apply surjective_pairing.
  - rewrite <-C2. apply surjective_pairing.
  - exact ballots_run.
  - rewrite <-C3. apply surjective_pairing.
  - rewrite <-C4. apply surjective_pairing.
  - rewrite <-C5. apply surjective_pairing.
Qed.

Lemma before_good : good before ∅.
Proof. split; [apply represents_empty|apply board_wf_empty]. Qed.

Lemma no_hook : hook_ok (None : option (@N worldstate unit unit)).
Proof. by intros m w r w'. Qed.

Lemma lifecycles_on_ledger_witness :
  ∃ B, good after B ∧ recorded bundle ballots_file B ∧ outcome bundle text hooks "published" B.
Proof.
  destruct (lifecycles_on_ledger bundle ballots_file before ∅ text before_good) as [_ Hp].
  destruct (Hp "uniform" "precinct-01" header ∅ hooks (Ok "published"%string) after no_hook no_hook
    precinct_run) as (B&Hg&_&_&Hrec).
  destruct (Hrec "published" eq_refl) as [Hr Ho].
  exact (ex_intro _ B (conj Hg (conj Hr Ho))).
Defined.
End ToyPhases.

(** ** A verified run on the concrete chain

    The election of [ToyElection] after its close and its tally, audited from
    the console's own two ballots and from the chain's. *)
Module ToyAudit.
Import Contract AuditPhase.AuditPhase.

#[local] Instance toy_sha : Receipts.Sha256 := {| Receipts.Sum256 b := b |}.

Definition toy_contest (e : Z) : Verdict.ContestCorrectness := Verdict.MkContest "p/a" 1 (1 + e) e (Z.eqb e 0) 1 "aa" "bb".

Definition toy_doc : StreamAudit := MkAudit "pass" [toy_contest 0] (Perf.Perf.MkTimings 5 1 1 1 2) [].

(** The auditor prints one document for either directory. *)
Definition toy_outside (out : string) : outside :=
  MkOutside (out, None) (λ _, ("doc", None)) (λ s, if String.eqb s "doc" then (toy_doc, None) else (no_audit, Some (Foreign "json")))
    true None Perf.Perf.no_faults.

Definition toy_metrics : Perf.Perf.submitMetrics :=
  Perf.Perf.MkMetrics (Resume.MkMetrics 20 2 2 0 2 (float_of_Z 100) (float_of_Z 900) false false (float_of_Z 5) "")
    Config.f_zero Config.f_zero Config.f_zero Config.f_zero Config.f_zero ∅ ∅ None.

Definition toy_folder : folder := MkFolder None (Ok []) (Ballots.MkStream ["02"; "01"] None) (Some toy_metrics) None.

Definition toy_config : Config.ElectionConfig :=
  Config.MkElectionConfig "E" [Config.MkTrustee "A"] 1 1 2 2 "uniform" "onchain" 1 8 Config.f_zero
    Config.f_zero None false None None.

Definition toy_before : world worldstate :=
  MkWorld (world_after (toy_setup ++ toy_voting ++ toy_closing)) (MkJournal (Ok [Resume.MkEvent "run.start" ∅]) None) [] None None None None.

Definition toy_text (e : goerr) : string := match e with Errorf f _ => f | Foreign s => s end.

Definition toy_verify (out : string) (net : Ceremony.network) : option (StreamAudit * option goerr * world worldstate) :=
  Verify toy_text "e" "e" toy_config toy_folder (toy_outside out) 2 net toy_before.

Definition run_end_of (w : world worldstate) : gmap string Journal.jval :=
  match events (log w) with Ok evs => match last evs with Some ev => Resume.fields ev | None => ∅ end | Err _ => ∅ end.

Definition on_network : Ceremony.network := Ceremony.MkNetwork true (Ok tt).

Definition off_network : Ceremony.network := Ceremony.MkNetwork true (Err (Foreign "peer down")).

(** The same verdict with the chain, without it, and a crash of the auditor. *)
Example toy_outcomes :
  match toy_verify "doc" on_network, toy_verify "doc" off_network, toy_verify "panic" on_network with
  | Some (a1, e1, w1), Some (a2, e2, w2), Some (a3, e3, w3) =>
      a1 = toy_doc ∧ a2 = toy_doc ∧ a3 = no_audit ∧ e1 = None ∧ e2 = None ∧ is_Some e3 ∧
      run_end_of w1 !! "failed" = Some (Journal.JBool false) ∧
      run_end_of w1 !! "ledger_matches_local" = Some (Journal.JBool true) ∧
      run_end_of w2 !! "failed" = Some (Journal.JBool false) ∧ run_end_of w2 !! "ledger_audit" = None ∧
      run_end_of w3 !! "failed" = Some (Journal.JBool true)
  | _, _, _ => False
  end.
Proof. vm_compute. split_and!; by try eexists. Qed.

Lemma verify_audits_both_witness :
  match toy_verify "doc" on_network with
  | None => False
  | Some (sa, err, w') => verified toy_text "e" toy_config toy_folder (toy_outside "doc") true toy_before sa err w' ∧ sa = toy_doc
  end.
Proof.
  pose proof (verify_audits_both toy_text "e" "e" toy_config toy_folder (toy_outside "doc") 2 on_network toy_before eq_refl) as Hv.
  cbn zeta in Hv. assert (Hsome : match toy_verify "doc" on_network with Some (a, _, _) => a = toy_doc | None => False end)
    by (vm_compute; reflexivity).
  unfold toy_verify in *. destruct (Verify _ _ _ _ _ _ _ _ _) as [[[sa err] w']|]; [|exact Hsome].
  split; [exact (proj1 Hv)|exact Hsome].
Defined.






End ToyAudit.
