(* ===== verification/ToyResumed.v ===== *)
(** * Interruptions and attacks on the concrete chain

    A run resumed after its console stopped, and the attacks mounted on the
    election of [ToyElection]. *)
From S2P Require Import Prelude Fabric Hex Wire Ristretto ToyGroup Contract BoardSpec.
From S2P Require Import HandlerFacts Ledger Client GoText Receipts ReceiptFile Config RunStore Ballots Bench.
From S2P Require Import Journal Resume ResumeFacts Verdict Ceremony Partials Timeline Phases PhasesFacts ResumePhase ResumePhaseFacts.
From S2P Require Import Scenarios Attacks Mount.
From S2P Require AuditPhase.
From S2P Require Import ToyLedger ToyElection ToyClient ToyRuns ToyPhases.
From stdpp Require Import relations pretty.
From Stdlib Require Ascii.
#[local] Open Scope Z_scope.
Import GoText Phases PhasesFacts ResumeFacts.

(** ** A resumed run on the concrete chain

    Two ballots, the first committed before the console stopped; the resume
    submits the second and closes the election. *)
Module ToyResumed.
Import Contract ResumePhase.ResumePhase ResumePhaseFacts.ResumePhaseFacts ToyResume ToyReceiptFile ToyPhases.

#[local] Instance toy_folder : RunFolder worldstate := { JournalFile _ evs := Ok evs; receipts_open _ := None }.

(** The gateway attaches the chaincode's own text to its error. *)
Definition toy_text (_ : goerr) : string := "aborted".

Definition toy_details (e : goerr) : list string :=
  match e with
  | Errorf _ [_; AErr (Errorf f [AStr id])] =>
      if String.eqb f "election %q is already closed" then [already_closed id] else []
  | _ => []
  end.

Lemma aborted_alone e : str_contains "aborted" (already_closed e) = false.
Proof. reflexivity. Qed.

Lemma toy_query_state name args (s s' : worldstate) r : toy_evaluate name args s = (r, s') → s' = s.
Proof.
  unfold toy_evaluate. intros E. repeat case_match; by injection E as _ <-.
Qed.

Lemma between_here (s : worldstate) : (∃ h, commits s h s) ∧ ∃ h, commits s h s.
Proof. split; exists []; constructor. Qed.

(** Whose election the chaincode's refusal names. *)
Lemma closed_names e id s s' :
  submit (handler (ICloseElection e)) (healthy s) = (s', Err (Errorf "election %q is already closed" [AStr id])) → id = e.
Proof.
  unfold submit. cbn [handler]. unfold Contract.CloseElection, mbind, build_key, read_key, mwrap, mlift, GetState, mfail.
  destruct (CreateCompositeKey _ _) as [k|]; cbn; [|discriminate].
  destruct (s !! k) as [v|]; [|discriminate].
  destruct (bool_decide _); [intros E; by injection E|]. unfold write_key, mwrap, PutState. discriminate.
Qed.

#[local] Instance toy_live : LiveChain worldstate toy_text toy_details.
Proof.
  split.
  - intros name args s r s' E. apply toy_query_state in E as ->. split; [exists []; constructor|done].
  - intros e n bm s out s' Hn E. pose proof E as Es%toy_query_state. subst s'. exists s. split; [apply between_here|].
    cbn [EvaluateTransaction toy_gateway toy_evaluate] in E. rewrite bool_decide_true in E by done.
    rewrite toy_page_size_pretty in E by done. by injection E.
  - intros e s s' err E Hc. cbn [SubmitWithReceipt toy_console] in E. unfold commit_now in E.
    change (invocation_of "CloseElection" [e]) with (Some (ICloseElection e)) in E. cbv iota in E.
    destruct (submit (handler (ICloseElection e)) (healthy s)) as [s1 [[]|err1]] eqn:Es; [done|]. injection E as <- <-.
    exists s. assert (s1 = s) as ->.
    { unfold submit in Es. destruct (handler (ICloseElection e) (healthy s) tx_start) as [[[] t]|]; [done|]. by injection Es as <- _. }
    split; [apply between_here|]. rewrite Es. cbn [snd]. f_equal. revert Hc Es. unfold ErrorText, toy_details.
    destruct err1 as [f [|[id| | | | ] [|? ?]]|?]; try discriminate.
    destruct (String.eqb_spec f "election %q is already closed") as [->|]; [|discriminate].
    intros _ Es. by rewrite (closed_names _ _ _ _ Es).
  - discriminate.
Qed.

#[local] Abbreviation world := (@world worldstate files).

Lemma bind_run {A A'} (m : @N worldstate files A) (k : A → @N worldstate files A') (w w1 w' : world) r a :
  m w (Ok a) w1 → k a w1 r w' → nbind m k w r w'.
Proof. intros. left. by exists a, w1. Qed.

Lemma lift_run {A} (f : world → world * result A) (w w' : world) r : f w = (w', r) → nlift f w r w'.
Proof. done. Qed.

Lemma try_run {A} (m : @N worldstate files A) (w w' : world) r : m w r w' → ntry m w (Ok r) w'.
Proof. intros Hm. by exists r. Qed.

Lemma others_here (w : world) : others w w.
Proof. split; [done|]. by destruct w. Qed.

Definition config : Config.ElectionConfig := precinct_config.

Definition two_ballots_file : Ballots.stream := Ballots.MkStream ["21"; "22"] None.

Definition bundle2 : Ceremony.onChainBundle := Ceremony.MkBundle "e" "03" "04" "ballots.ndjson" 2 [] "06".

(** The journal of a run cut after its first ballot. *)
Definition cut_journal : list Resume.event :=
  [Resume.MkEvent "segment.start" {["index" := Journal.JNum 0]};
   Resume.MkEvent "stage.ballots.start" {["n" := Journal.JNum 2]};
   Resume.MkEvent "ballots.progress" {["done" := Journal.JNum 1]}].

Definition cut_world : world :=
  MkWorld (world_after resume_before) (ReceiptFile.MkFiles "" "") 0 cut_journal None
    (MkFiles (Ceremony.MkRun None (Some bundle2) None "" ∅) None).

(** One ballot dispatched, answered, and the jobs closed. *)
Definition one_run : Bench.run := Bench.close_jobs false (Bench.finish 0 5 true (Bench.dispatch (Bench.start 1))).

Definition one_result : Bench.RunResult := Bench.run_result (Config.submitConcurrency config) 9 one_run.

Definition plan2 : Resume.resumePlan := Resume.MkPlan 1 1 false 1 false [Resume.zero_segment].

Definition index2 : gmap bytes nat :=
  match Resume.nullifierIndex two_ballots_file 2 with Ok m => m | Err _ => ∅ end.

Lemma index2_ok : Resume.nullifierIndex two_ballots_file 2 = Ok index2.
Proof.
  assert (Hok : is_ok (Resume.nullifierIndex two_ballots_file 2) = true) by (vm_compute; reflexivity).
  unfold index2. by destruct (Resume.nullifierIndex two_ballots_file 2).
Qed.

Lemma lift_ok {A} (f : world → world * result A) (w : world) a : (f w).2 = Ok a → nlift f w (Ok a) (f w).1.
Proof. intros E. unfold nlift. rewrite <-E. apply surjective_pairing. Qed.

Lemma modify_run {A} f (k : unit → @N worldstate files A) (w w' : world) r :
  k tt (f w) r w' → nbind (nmodify f) k w r w'.
Proof. by apply bind_run. Qed.

(** The committed set of a concrete chain. *)
Lemma committed_run m b (w : world) cm :
  (Resume.chainCommitted 1 m (Ceremony.ElectionID b) (Z.to_nat (Ceremony.BallotCount b)) (env w)).1 = Some (Ok cm) →
  ∃ s, committed_set m b w (Ok cm) (set_env s w) ∧
    (Resume.chainCommitted 1 m (Ceremony.ElectionID b) (Z.to_nat (Ceremony.BallotCount b)) (env w)).2 = s.
Proof.
  intros E. eexists. split; [|reflexivity]. exists 1%nat. eexists. split; [|reflexivity].
  rewrite <-E. apply surjective_pairing.
Qed.

Definition win (w : world) : window :=
  MkWindow w (Ballots.MkReader [] 2 ∅) ∅ [MkLanded 1 "0a" 1] [] None.

(** A window of one pending ballot, accepted. *)
Lemma one_ballot plan (w w1 : world) :
  SubmitTx "SubmitBallot" ["22"] (env w) = (env w1, Ok ("0a"%string, 1)) → w1 = set_env (env w1) w →
  resume_window config two_ballots_file plan [true; false] w (Ok (one_result, win w1)) w1.
Proof.
  intros S1 E1. set (d := MkDriver (Some (Resume.wanted [true; false])) (λ k, default 0%nat ([1%nat] !! k))
             [("segment"%string, Journal.JNum (Resume.Segment plan))]).
  set (y1 := MkWindow w (Ballots.MkReader [] 2 ∅) (<[1%nat := "22"]> (∅ : gmap nat string)) [] [] None).
  exists 9, one_result, [1%nat], (win w1).
  split_and!; [|intros E; discriminate E|done|apply others_here].
  exists one_run, [(0%nat, (5, true))]. split_and!; [|done|done| |].
  - unfold one_run. apply Bench.reached_done; [|done|done]. apply (Bench.reached_finish _ _ _ []); [|cbn; set_solver].
    apply Bench.reached_dispatch; [apply Bench.reached_start|done|vm_compute; lia|done].
  - apply (window_snoc _ _ _ _ [1%nat] y1); [apply (window_snoc _ _ _ _ [] (open_window two_ballots_file w)); [constructor|]|].
    + replace y1 with (read_line two_ballots_file d 1 (open_window two_ballots_file w)); [|vm_compute; reflexivity].
      constructor; [apply not_elem_of_nil|done].
    + replace (win w1) with (submit_line 1 "22" y1); [constructor; apply lookup_insert_eq|].
      unfold submit_line, y1. cbn [ww]. rewrite S1. unfold win. by rewrite E1.
  - intros i t ok [E|[]%not_elem_of_nil]%elem_of_cons. injection E as -> -> ->.
    exists (MkLanded 1 "0a" 1). split; [by left|done].
Qed.

(** ** The worlds of the run, one after the other *)
Definition marks : list bool := [true; false].

Definition chk : world := stamp (Resume.crossCheckReceipts (receipts_of cut_world) marks) cut_world.

Definition segment_open : world := stamp (Resume.segment_events plan2 1) chk.

Definition receipts_open_world : world := (openReceiptsFor segment_open).1.

Definition window_open : world :=
  stamp [Resume.window_start plan2 1 (Config.submitConcurrency config) (Config.SendRate config)] receipts_open_world.

Definition voted : world := set_env (SubmitTx "SubmitBallot" ["22"] (env window_open)).1 window_open.

Definition measures : measured := MkMeasured figures0 None None None None None.

Lemma set_env_here (w : world) : set_env (env w) w = w.
Proof. by destruct w. Qed.

Lemma walk_state fuel m e bm cm (s : worldstate) : (Resume.walk fuel m e bm cm s).2 = s.
Proof.
  revert bm cm s. induction fuel as [|fuel IH]; intros bm cm s; [done|]. cbn [Resume.walk].
  destruct (Client.ListNullifiers _ _ _ s) as [r s1] eqn:E.
  assert (s1 = s) as ->.
  { revert E. unfold Client.ListNullifiers, gbind, gwrap. destruct (EvaluateTransaction _ _ s) as [r1 s2] eqn:Ev.
    apply toy_query_state in Ev as ->. destruct r1; by intros [= _ <-]. }
  destruct r; [|done]. destruct (_ || _); [done|apply IH].
Qed.

Lemma committed_here (w : world) :
  env w = world_after resume_before → committed_set index2 bundle2 w (Ok marks) w.
Proof.
  intros E. exists 1%nat, (env w). split; [|by rewrite set_env_here]. rewrite E.
  apply injective_projections; [vm_compute; reflexivity|apply walk_state].
Qed.

Lemma collect_env l (w : world) : env (collectReceipts l w) = env w.
Proof.
  unfold collectReceipts. generalize (blocks_of (sorting.merge_sort by_index l)). intros bs.
  generalize (sorting.merge_sort by_index l). intros l'. revert w. induction bs as [|n bs IH]; intros w; [done|].
  cbn [foldl]. rewrite IH. unfold collect_block. cbn [ReceiptsForBlock toy_console].
  generalize ((λ it, ReceiptFile.MkTrail "SubmitBallot" (Itoa (Z.of_nat (index it))) (receipt_for [] it)) <$>
    filter (λ it, block it = n) l'). intros evs. rewrite set_env_here. clear IH. revert w.
  induction evs as [|ev evs IH]; intros w; [done|]. cbn [foldl]. rewrite IH. done.
Qed.

(** What follows a window of one ballot accepted. *)
Lemma resumed_forward : ∃ w', resumeBallots toy_text config (Ok bundle2) two_ballots_file cut_world (Ok tt) w' ∧
  (openReceiptsFor w').2 = Ok tt ∧ (commit "CloseElection" "" "CloseElection" ["e"] (openReceiptsFor w').1).2 = Ok tt.
Proof.
  eexists. split.
  - unfold resumeBallots. eapply bind_run; [split; reflexivity|].
    eapply bind_run; [apply (lift_ok _ _ plan2); vm_compute; reflexivity|]. cbn [fst].
    eapply bind_run; [split; reflexivity|].
    eapply bind_run; [split; reflexivity|].
    eapply bind_run; [split; [symmetry; exact index2_ok|reflexivity]|].
    eapply bind_run; [apply committed_here; reflexivity|].
    do 2 apply modify_run. exists None, measures.
    eapply bind_run; [split; reflexivity|].
    eapply bind_run; [apply (lift_ok _ _ tt); vm_compute; reflexivity|].
    eexists. split; [|reflexivity]. unfold drive. apply modify_run.
    eapply bind_run; [apply (one_ballot plan2 _ voted)|].
    3: { eapply bind_run; [by split|]. unfold after_resume. apply modify_run. apply modify_run. cbn [latenciesErr measures].
      do 3 apply modify_run. split; reflexivity. }
    + apply injective_projections; [reflexivity|vm_compute; reflexivity].
    + reflexivity.
  - split; vm_compute; reflexivity.
Qed.

Definition on_network : Ceremony.network := Ceremony.MkNetwork true (Ok tt).

Lemma resume_forward : ∃ w', Resume toy_text toy_details config (Ok bundle2) two_ballots_file "run-1" on_network
    cut_world (Ok tt) w'.
Proof.
  destruct resumed_forward as (w1&Hr&Ho&Hc). set (w2 := (openReceiptsFor w1).1) in *.
  set (w3 := (commit "CloseElection" "" "CloseElection" ["e"] w2).1).
  eexists. unfold Resume.
  eapply bind_run; [split; reflexivity|]. eapply bind_run; [split; reflexivity|]. eapply bind_run; [split; reflexivity|].
  unfold resumeAndClose. eapply bind_run; [apply (lift_ok _ _ plan2); vm_compute; reflexivity|]. cbn [fst Resume.CloseOnly plan2].
  eapply (bind_run _ _ _ w1).
  { eapply bind_run; [exact Hr|]. exists (Ok tt). split; reflexivity. }
  eapply bind_run; [split; reflexivity|].
  eapply bind_run; [by apply lift_ok|].
  eexists. split; [|reflexivity]. unfold finish. eapply (bind_run _ _ _ w3).
  { apply try_run. unfold closeElection. apply (bind_run _ _ _ w3 _ _ tt).
    - unfold step. eapply bind_run; [split; reflexivity|]. by apply lift_ok.
    - split; reflexivity. }
  apply modify_run. eapply bind_run; [split; reflexivity|]. left. exists 0. split; reflexivity.
Qed.

Lemma cut_good : ∃ B, good cut_world B.
Proof.
  destruct (commits_steps ∅ resume_before (world_after resume_before) ∅ represents_empty) as (B&Hs&HB);
    [apply toy_commits, resume_before_runs|]. exists B. split; [exact HB|]. by apply (steps_wf ∅ resume_before); [apply board_wf_empty|].
Qed.

Lemma two_ballots_election : of_election two_ballots_file "e".
Proof.
  intros i line raw b Hl Hraw Hb.
  destruct i as [|[|i]]; cbn in Hl; injection Hl as <- || discriminate Hl;
    vm_compute in Hraw; injection Hraw as <-; vm_compute in Hb; injection Hb as <-; reflexivity.
Qed.

Lemma resume_finishes_or_stays_witness :
  ∃ w' B', Resume toy_text toy_details config (Ok bundle2) two_ballots_file "run-1" on_network cut_world (Ok tt) w' ∧
    good w' B' ∧ refs w' = 0%nat ∧
    B' !! KStatus "e" = Some closed_value ∧ all_counted bundle2 two_ballots_file B' ∧
    Resume.planResume "onchain" (Ok (stamps w')) (close_recorded w') = Err Resume.not_interrupted.
Proof.
  destruct resume_forward as [w' Hr]. destruct cut_good as [B Hg].
  assert (Hwhole : whole cut_world) by reflexivity.
  destruct (resume_finishes_or_stays (text := toy_text) (details := toy_details) (H9 := toy_json_laws) (λ rk k _, I) config bundle2
    two_ballots_file 2 eq_refl two_ballots_election "run-1" on_network cut_world (Ok tt) w' B Hg Hwhole Hr)
    as (B'&Hg'&_&Hrefs&Hout).
  destruct (Hout plan2) as (Hclosed&Hall&_&Hplan); [vm_compute; reflexivity|].
  exists w', B'. split; [exact Hr|]. split; [exact Hg'|]. split; [exact Hrefs|]. split; [exact Hclosed|].
  split; [exact (Hall eq_refl)|exact Hplan].
Defined.
End ToyResumed.

(** ** The attacks mounted *)
Module ToyMount.
Import Contract Scenarios Mount MountFacts ToyAttacks ToyPhases.

(** An error's text: its gate, and that it is a refusal. *)
Definition toy_text (e : goerr) : string :=
  match e with
  | Errorf f _ => take_while (λ c, negb (Ascii.eqb c (Ascii.ascii_of_nat 58))) f +:+ ": refused"
  | Foreign s => s
  end.

Definition toy_details (_ : goerr) : list string := [].

#[local] Instance toy_refusing : RefusingLedger worldstate toy_text toy_details.
Proof.
  split. intros hex s s' err E. right. cbn [SubmitTx toy_console] in E. unfold commit_now in E.
  change (invocation_of "SubmitBallot" [hex]) with (Some (ISubmitBallot hex)) in E. cbv iota in E.
  unfold submit in E. cbn [handler] in E. destruct (SubmitBallot hex (healthy s) tx_start) as [[[] t]|e] eqn:Er; [done|].
  injection E as <- <-. exists s, e. split; [exists []; constructor|]. split; [exists []; constructor|]. split; [done|].
  intros sc fm args Hin Hne ->. unfold Registry in Hin.
  repeat (apply elem_of_cons in Hin as [->|Hin]; [try (by destruct Hne); by apply (bool_decide_unpack _); vm_compute|]).
  by apply not_elem_of_nil in Hin.
Qed.

#[local] Instance toy_header : HeaderJson := {
  UnmarshalHeader s := Ok {["params"%string := HStr s]};
  MarshalHeader h := Ok (match h !! "params"%string with Some (HStr s) => s | _ => "" end)
}.

#[local] Instance toy_ceremony_encode : CeremonyEncode := {
  MarshalPartialDecryption _ := Err (Foreign "proto: cannot encode");
  MarshalDKGTranscript _ := Err (Foreign "proto: cannot encode")
}.

Definition toy_stream : run_dir := MkDir (Ok "03") (Ok (Ballots.MkStream ["02"; "01"] None)).

(** An auditor that knows the run: anything else fails the proof check. *)
#[local] Instance toy_outside : Outside worldstate := {
  os_mkdir _ _ := None; os_read _ _ := None; os_write _ _ := None;
  demo _ _ s := (Err (Foreign "no helper"), s);
  audit d s :=
    (Some match ballots_ndjson d with
          | Ok (Ballots.MkStream ["02"; "01"]%string None) => MkAudit "pass" []
          | _ => MkAudit "fail" [MkFailed "ballot.cds_proof" "the proof does not verify"]
          end, s);
  ChainInfo _ := Ok 1
}.

Definition staged_row : ScenarioResult :=
  MkResult "reused-nullifier" "offline" "" "" "rejected" "PASS" "" true "ballots" (MkMount "ballots" "open" (Some 1) (Some 3))
    "nullifier" "nullifier".

(** The election with its first ballot cast and its second to come. *)
Definition half_voted : worldstate := world_after (toy_setup ++ [ISubmitBallot "01"]).

Lemma half_voted_board : ∃ B, represents half_voted B ∧ board_wf B ∧ mountable B "02" "01" (toy_ballot [x0b] false).
Proof.
  destruct (commits_steps ∅ (toy_setup ++ [ISubmitBallot "01"]) half_voted ∅ represents_empty) as (B&Hs&HB).
  { apply toy_commits, (bool_decide_unpack _). vm_compute. reflexivity. }
  exists B. split; [exact HB|]. split; [by apply (steps_wf _ _ _ board_wf_empty Hs)|]. split.
  - reflexivity.
  - assert (is_ok (SubmitBallot "02" (healthy half_voted) tx_start) = true) as Hok by (vm_compute; reflexivity).
    destruct (SubmitBallot "02" (healthy half_voted) tx_start) as [[[] t]|e] eqn:E; [|done].
    destruct (SubmitBallot_inv (healthy half_voted) "02" t B HB E) as (raw & b & kb & kn & Hraw & Hb & Hacc & _).
    assert (raw = [x02]) as -> by (vm_compute in Hraw; congruence).
    cbn in Hb. rewrite bool_decide_false in Hb by done. by injection Hb as <-.
  - repeat constructor.
  - exists (toy_ballot [x0a] true). split; [reflexivity|].
    assert (Hk : composite_key (KNullifier "e" "0a") = Ok (String ToyLedger.NUL (join_nul [nullifierIndex; "e"; "0a"])))
      by (vm_compute; reflexivity).
    change (is_Some (B !! KNullifier "e" "0a")). rewrite <-(rep_lookup _ _ HB _ _ Hk).
    apply (bool_decide_unpack _). vm_compute. reflexivity.
Qed.

Definition toy_run : Mount.world worldstate :=
  MkWorld half_voted {["run-1" := toy_stream]} (Some (Ok [staged_row])) None (AuditPhase.AuditPhase.MkJournal (Ok []) None) [].

Definition tamper : Scenario := default (MkScenario "" "" LayerOffline "" "" "" "" "" "" None) (head Registry).

Definition paused : result ScenarioResult * Mount.world worldstate :=
  paused_mount toy_text toy_details "run-1" "run-1" 0 1 tamper toy_run.

Lemma paused_attacks_pass_witness :
  ∃ res w', paused = (Ok res, w') ∧ dirs w' = dirs toy_run ∧ Verdict res = "PASS".
Proof.
  destruct half_voted_board as (B&HB&Hwf&Hm).
  destruct (paused_attacks_pass (text := toy_text) (details := toy_details) "run-1" "run-1" tamper 0 1
    {[0 := "02"; 1 := "01"]} "02" "01" (toy_ballot [x0b] false) B toy_run)
    as (res&w'&Hrun&Hdirs&_&_&Hpass).
  - apply list_elem_of_here.
  - by eexists.
  - reflexivity.
  - vm_compute. reflexivity.
  - reflexivity.
  - reflexivity.
  - exact HB.
  - exact Hwf.
  - exact Hm.
  - exists res, w'. split; [exact Hrun|]. split; [exact Hdirs|]. apply Hpass.
    + assert (GateObserved <$> (match paused.1 with Ok x => Some x | Err _ => None end) = Some "cds"%string) as Hg
        by (vm_compute; reflexivity).
      unfold paused in Hg. rewrite Hrun in Hg. cbn in Hg. injection Hg as ->. discriminate.
    + assert (bool_decide (net paused.2 = half_voted) = true) as Hn by (vm_compute; reflexivity).
      apply bool_decide_eq_true in Hn. unfold paused in Hn. rewrite Hrun in Hn. exact Hn.
Defined.

Definition catalogue : result unit * Mount.world worldstate :=
  RunScenarios toy_text "run-1" ["tamper-ballot-proof"; "overvote"; "reordered-ballots"] toy_run.

Lemma catalogue_verdicts_have_evidence_witness :
  ∃ w' rows, RunScenarios toy_text "run-1" ["tamper-ballot-proof"; "overvote"; "reordered-ballots"] toy_run = (Ok tt, w') ∧
    dir_of "run-1" w' = toy_stream ∧ results w' = Some (Ok rows) ∧ staged_row ∈ rows ∧
    ((λ r, (RScenario r, Verdict r)) <$> rows) =
      [("tamper-ballot-proof", "PASS"); ("reused-nullifier", "PASS"); ("reordered-ballots", "SKIPPED"); ("overvote", "INCONCLUSIVE")]%string.
Proof.
  assert (Hok : catalogue.1 = Ok tt) by (vm_compute; reflexivity).
  assert (Hrows : (λ o : option (result (list ScenarioResult)), match o with Some (Ok l) => (λ r, (RScenario r, Verdict r)) <$> l | _ => [] end)
                    (results catalogue.2) =
      [("tamper-ballot-proof", "PASS"); ("reused-nullifier", "PASS"); ("reordered-ballots", "SKIPPED"); ("overvote", "INCONCLUSIVE")]%string)
    by (vm_compute; reflexivity).
  unfold catalogue in Hok, Hrows. destruct (RunScenarios _ _ _ _) as [r w'] eqn:E. cbn in Hok. subst r.
  destruct (catalogue_verdicts_have_evidence "run-1" toy_text "run-1" _ _ _ _ eq_refl E) as (Hdir&rs&_&Hsave).
  destruct (Hsave eq_refl) as (prior&Hprior&Hres&_&Hkept). injection Hprior as <-.
  eexists w', _. split; [reflexivity|]. split; [exact Hdir|]. split; [exact Hres|]. cbn [snd] in Hrows. rewrite Hres in Hrows.
  split; [|exact Hrows].
  apply (Hkept (default tamper (Registry !! 1%nat))); [|vm_compute; reflexivity|reflexivity].
  apply list_elem_of_further, list_elem_of_here.
Defined.
End ToyMount.
