(* ===== verification/ToyConsole.v ===== *)
(** * A concrete console: sessions, locks and requests *)
From S2P Require Import Prelude GoText Config Journal Ceremony Auth AuthFacts AuthServer Resume Jobs RunStore.
From S2P Require Import Gates Exclusion ExclusionFacts Server ServerFacts.
#[local] Open Scope Z_scope.

(** ** Concrete console sessions

    One administrator, a transparent password hash, and two schedules: six
    guesses of which five are checked, and a login followed by a request. *)
Module ToyAuth.
Import Auth AuthServer.

#[global] Instance toy_bcrypt : Bcrypt := {|
  CompareHashAndPassword h p := String.eqb h ("hash:" +:+ p);
  Cost _ := Ok 12
|}.

Definition alice : User := MkUser "alice" RoleAdmin "" "hash:secret".

Definition toy_users : gmap string User := {["alice" := alice]}.

(** Attempt [i] of a guesser: the request arrives, its attempt and its check run. *)
Definition guess (i : nat) (password : string) : list (Z * event) :=
  let t := Z.of_nat i * Second in
  [(t, Begin i "loopback" "alice" password); (t, Advance i (Ok "unused"));
   (t, Advance i (Ok "unused"))].

Definition guesses : list (Z * event) :=
  guess 0 "a" ++ guess 1 "b" ++ guess 2 "c" ++ guess 3 "d" ++ guess 4 "e" ++ guess 5 "f".

Definition at_start : list entry * Z * server := ([], 0, start_server toy_users).

Definition after (evs : list (Z * event)) : list entry * Z * server :=
  default at_start (run_schedule evs at_start).

Lemma after_history evs :
  is_Some (run_schedule evs at_start) →
  history toy_users 0 (after evs).1.1 (after evs).1.2 (after evs).2.
Proof.
  unfold after. intros [[[log tl] s] E]. rewrite E. cbn.
  eapply run_schedule_history; [|exact E]. apply history_start.
Qed.

(** Five of the six guesses are checked; the sixth is refused. *)
Lemma login_guesses_bounded_witness :
  tally (granted_for "loopback" "alice") (after guesses).1.1 = 5 ∧
  5 * loginLockout ≤ maxLoginFailures * (loginLockout + 5 * Second).
Proof.
  assert (history toy_users 0 (after guesses).1.1 (after guesses).1.2 (after guesses).2) as Hh
    by (apply after_history; vm_compute; eauto).
  pose proof (login_guesses_bounded toy_users 0 _ _ _ Hh) as [Hb _].
  specialize (Hb "loopback" "alice" ltac:(vm_compute; discriminate) ltac:(vm_compute; reflexivity)).
  split; [vm_compute; reflexivity|]. vm_compute in Hb. vm_compute. exact Hb.
Defined.

Definition signed_in : list (Z * event) :=
  [(0, Begin 1 "loopback" "alice" "secret"); (0, Advance 1 (Ok "t"));
   (1, Advance 1 (Ok "t")); (2, Advance 1 (Ok "t"))].

Definition ask : request := MkRequest "POST" "/generate" (Some "t") false.

(** A completed login's token is served on an admin route. *)
Lemma served_requests_are_authorised_witness :
  ∃ c u tc, cookie ask = Some c ∧ live_token toy_users (after signed_in).1.1 c u tc ∧
    Hour < tc + sessionTTL ∧ admits (route_access (pattern ask)) u ∧
    Some (session_of alice 2) = Some (session_of u tc).
Proof.
  assert (history toy_users 0 (after signed_in).1.1 (after signed_in).1.2 (after signed_in).2) as Hh
    by (apply after_history; vm_compute; eauto).
  eapply (served_requests_are_authorised toy_users 0 _ _ _ Hour ask _ _ Hh).
  - vm_compute. discriminate.
  - vm_compute. reflexivity.
  - vm_compute. discriminate.
  - vm_compute. reflexivity.
Defined.

Lemma alice_accepted : parseUsers [alice] = Ok toy_users.
Proof. vm_compute. reflexivity. Qed.

Lemma duplicate_refused : is_ok (parseUsers [alice; alice]) = false.
Proof. vm_compute. reflexivity. Qed.
End ToyAuth.

(** ** The network's locks on a concrete schedule

    A fault fires on one run while another run's phase starts: the gate is
    checked, the second run claims, and only then is the fault recorded. *)
Module ToyExclusion.
Import Jobs Exclusion ExclusionFacts.

#[export] Instance toy_stamp : JobStamp := λ _, "20260101-000000"%string.

Definition nobody_paused (_ : string) : option string := None.

Definition text (_ : goerr) : string := "failed".

Definition go : choice := MkChoice true true "" 0 None None.

Definition runs (n t : nat) : list schedule := replicate n (Run t go).

Lemma run_reachable l s s' :
  reachable nobody_paused text s → run_server nobody_paused text l s = Some s' →
  reachable nobody_paused text s'.
Proof.
  revert s. induction l as [|a l IH]; intros s Hs; cbn; [by intros [= <-]|].
  destruct (server_step nobody_paused text a s) as [s1|] eqn:E; [|done]. cbn. intros Hr.
  eapply IH; [|done]. by eapply reachable_step.
Qed.

(** Run "a" is claimed, its fault passes the gate; run "b" is claimed; then
    "a"'s fault is recorded and stops the peer. *)
Definition race : list schedule :=
  [Arrive 0 (RPhase "a")] ++ runs 5 0 ++ runs 3 0 ++
  [Arrive 1 (RPhase "b")] ++ runs 5 1 ++ runs 4 0.

Definition raced : server :=
  default newServer (run_server nobody_paused text race newServer).

Lemma race_runs : run_server nobody_paused text race newServer = Some raced.
Proof. vm_compute. reflexivity. Qed.

(** The peer is down and another run's phase is running. *)
Lemma fault_races_claim :
  peer_up raced = false ∧ faulting raced = {["a"]} ∧
  threads raced !! 1%nat = Some (Phase "b" FNone).
Proof. split_and!; [vm_compute; reflexivity..]. Qed.

(** Had the claim come after the record, it would have been refused. *)
Definition in_order : list schedule :=
  [Arrive 0 (RPhase "a")] ++ runs 5 0 ++ runs 4 0 ++ [Arrive 1 (RPhase "b")] ++ runs 4 1.

Lemma claim_after_fault_refused :
  ∃ s, run_server nobody_paused text in_order newServer = Some s ∧
       last (answers s) = Some (1%nat, Some (why_fault "a")).
Proof. eexists. split; [vm_compute; reflexivity|vm_compute; reflexivity]. Qed.

Lemma network_exclusion_witness :
  faulting raced = {["a"]} ∧ active (board raced) = None ∧
  (peer_up raced = false → lost raced = true ∨ (peersDown raced = 1%nat ∧ faulting raced ≠ ∅)).
Proof.
  pose proof (run_reachable race newServer raced (reachable_new _ _) race_runs) as Hr.
  destruct (network_exclusion nobody_paused text raced Hr) as (_&_&_&_&_&_&Hf&Hp&_).
  assert (Ha : "a" ∈ faulting raced) by (rewrite (proj1 (proj2 fault_races_claim)); set_solver).
  destruct (Hf "a" Ha) as (E1&E2&_). exact (conj E1 (conj E2 Hp)).
Defined.
End ToyExclusion.

(** ** Requests on a concrete console

    One on-chain run: a fault armed on it, then its ceremony started, then what
    the console refuses while that phase runs. *)
Module ToyServer.
Import GoText Server ServerFacts.

#[local] Existing Instance ToyExclusion.toy_stamp.

Definition onchain_config : Config.ElectionConfig :=
  Config.MkElectionConfig "Demo" (map Config.MkTrustee ["A"; "B"]) 2 3 4 20 "uniform" "onchain" 2 8
    Config.f_zero Config.f_zero None false None None.

Definition stored_run : RunStore.RunRecord := RunStore.MkRunRecord "a" onchain_config 0 ∅.

Definition console : world :=
  MkWorld Exclusion.newServer (RunStore.MkStore 1 {["a" := Some stored_run]}) {["a" := []]}.

(** Authentication off, from the console's own machine. *)
Definition operator : answers := MkAnswers None true "127.0.0.1:4000" "" 0 None None (Ok "/opt/tier.sh").

Definition no_state (_ : string) (_ : Config.ElectionConfig) : result Ceremony.CeremonyState :=
  Err (Foreign "no bundle").

Definition ask (q : request) (w : world) : option (world * reply * option (string * work)) :=
  handle ToyExclusion.nobody_paused Gates.plain_host true no_state (λ _, "") (λ _, Ok tt) (λ _, false)
    operator "POST" q w.

(** The fault stops the peer at the middle of the window, for ten seconds. *)
Definition mid_fault : Config.FaultPlanT :=
  Config.MkFaultPlan "peer-restart" (float_div Config.f_one (float_of_Z 2)) (float_of_Z 10).

Definition after (q : request) (w : world) : world :=
  match ask q w with Some (w', _, _) => w' | None => w end.

Definition with_fault_armed : world := after (ReqRunAction "/api/runs/a/fault" (Ok (mid_fault, "RESTART"))) console.

Definition replied (q : request) (w : world) : option reply :=
  match ask q w with Some (_, r, _) => Some r | None => None end.

Lemma a_day_at_the_console :
  replied (ReqRunAction "/api/runs/a/fault" (Ok (mid_fault, "RESTART"))) console = Some (Accepted 200 "a" None) ∧
  replied (ReqRunAction "/api/runs/a/fault" (Ok (mid_fault, "restart"))) console =
    Some (Refused 400 (Errorf "confirm must be exactly %q: the fault stops the Fabric peer mid-election" [AStr "RESTART"])) ∧
  replied (ReqCeremonyStart (Some "a")) with_fault_armed = Some (Accepted 202 "a" None) ∧
  replied (ReqVerify (Some "a")) (after (ReqCeremonyStart (Some "a")) with_fault_armed) =
    Some (Refused 409 Exclusion.why_busy) ∧
  replied (ReqReset (Ok (100, 2, "RESET"))) (after (ReqCeremonyStart (Some "a")) with_fault_armed) =
    Some (Refused 409 (Exclusion.why_exclusive ["a"] Jobs.jobKindReset)) ∧
  replied (ReqCeremonyStart (Some "a")) (after ReqLadder console) = Some (Accepted 202 "a" None) ∧
  replied (ReqCeremonyStart (Some "../a")) console ≠ Some (Accepted 202 "../a" None).
Proof. split_and!; vm_compute; congruence. Qed.

(** The ceremony starts on the armed run: it was free, is busy now, and its
    stored configuration is the one with the fault. *)
Lemma started_work_is_allowed_witness :
  "a" ∉ Exclusion.busy (net with_fault_armed) ∧
  ∃ rec, RunStore.folders (runs (after (ReqCeremonyStart (Some "a")) with_fault_armed)) !! "a" = Some (Some rec) ∧
    RunStore.RConfig rec = RunStore.RConfig (with_fault mid_fault stored_run) ∧
    Config.Mode (RunStore.RConfig rec) ≠ Config.ModeGroundTruth.
Proof.
  destruct (started_work_is_allowed ToyExclusion.nobody_paused Gates.plain_host true no_state (λ _, "")
              (λ _, Ok tt) (λ _, false) operator "POST" (ReqCeremonyStart (Some "a")) with_fault_armed
              (after (ReqCeremonyStart (Some "a")) with_fault_armed) (Accepted 202 "a" None)
              (Some ("a"%string, WCeremonyStart (RunStore.RConfig (with_fault mid_fault stored_run)))))
    as [[[Hfree _ _ _] [(rec&Hr&Hc) Hb] _ _ _] _].
  - assert (E : RunStore.folders (runs with_fault_armed) = {["a" := Some (with_fault mid_fault stored_run)]})
      by (vm_compute; reflexivity).
    intros i rec. rewrite E, lookup_singleton_Some. intros [<- [= <-]]. reflexivity.
  - vm_compute. reflexivity.
  - split; [exact Hfree|]. exists rec. split; [exact Hr|]. split; [exact Hc|]. rewrite Hc. exact Hb.
Defined.
End ToyServer.
