(* ===== verification/ToyCampaigns.v ===== *)
(** * Concrete campaigns, ladders and canvasses *)
From S2P Require Import Prelude GoText Config Resume Jobs Csv RunStore Gates Exclusion Server Repeat.
From S2P Require Import RepeatFacts Preflight Campaign CampaignFacts.
From S2P Require Import Hex Canvass CanvassFacts.
From stdpp Require Import sorting.
#[local] Open Scope Z_scope.

(** ** A concrete campaign and a concrete ladder

    A console that is busy for two polls after each phase, whose runs commit
    more per second until the fifth. *)
Module ToyRepeat.
Import GoText Config Repeat RepeatFacts.

Inductive countdown := two | one | idle.

(** Runs created, and how long the last phase still takes. *)
Definition console : Type := nat * countdown.

Definition count (c : countdown) : nat := match c with two => 2 | one => 1 | idle => 0 end.

Definition tick (c : countdown) : countdown := match c with two => one | _ => idle end.

(** ["r"] repeated: a run's name is as long as its number. *)
Fixpoint name (n : nat) : string := match n with O => "" | Datatypes.S n => "r" +:+ name n end.

Definition throughput (run : string) : string :=
  match String.length run with
  | 1%nat => "10" | 2%nat => "10" | 3%nat => "20" | 4%nat => "40" | 5%nat => "80" | _ => "70"
  end.

Definition perf (run : string) : string :=
  Csv.csv_text [["run_id"; "committed_tps"; "dropped"; "latency_p99_ms"]; [run; throughput run; "0"; "250"]].

Definition answer (method path : string) (h : console) : string :=
  if has_suffix path "/status" then match h.2 with idle => "idle" | _ => "busy" end
  else if has_suffix path "/perf.csv" then perf (name h.1)
  else if has_suffix path "/journal.ndjson" then "run.end"
  else if String.eqb method "POST" then name h.1
  else "pass".

#[local] Instance toy_client : Client console := {
  Do := λ method path body h,
    let h' := if String.eqb method "POST" then (if has_suffix path "/generate" then Datatypes.S h.1 else h.1, two) else h in
    (h', Ok (200, answer method path h'));
  wait := λ h, ((h.1, tick h.2), None);
  os_mkdir := λ _ h, (h, None);
  os_write := λ _ _ h, (h, None)
}.

Definition digit (f : string) : option float64 :=
  match f with
  | "0" => Some f_zero | "10" => Some (float_of_Z 10) | "20" => Some (float_of_Z 20) | "40" => Some (float_of_Z 40)
  | "70" => Some (float_of_Z 70) | "80" => Some (float_of_Z 80) | "250" => Some (float_of_Z 250) | _ => None
  end.

Definition whole (f : float64) : Z :=
  match f with
  | S754_finite s m e => (if s then -1 else 1) * (if 0 <=? e then Z.pos m * 2 ^ e else Z.shiftr (Z.pos m) (- e))
  | _ => 0
  end.

#[local] Instance toy_codec : RepeatCodec := {
  config_json := λ c,
    match Rep c with
    | Some r => RepKind r +:+ " " +:+ Itoa (RepIndex r) +:+ " of " +:+ Itoa (Voters c) +:+ " by " +:+ Itoa (Concurrency c)
    | None => ""
    end;
  run_body := λ s, s;
  submit_body := λ s t, s +:+ t;
  ladder_json := λ r, Gates.Commit r +:+ ": " +:+ foldr (λ s t, s +:+ " " +:+ t) "" (Gates.Runs r);
  run_id_of := λ s, Ok s;
  busy_of := λ s, Ok (String.eqb s "busy");
  pass_of := λ s, (String.eqb s "pass", None);
  trustees_of := λ _, Ok ["t1"; "t2"];
  event_of := λ s, Some (Resume.MkEvent s ∅);
  ParseFloat := digit;
  FormatFloat3 := λ f, Itoa (whole f) +:+ ".000";
  wild_int := λ _, 0
}.
Definition left (run : string) (h : console) : nat := count h.2.

Lemma phases_end_toy : phases_end 4 left.
Proof.
  split.
  - intros run [n []]; cbn; lia.
  - intros b run h h' r Hd. unfold Do, toy_client in Hd. cbn [String.eqb Ascii.eqb Bool.eqb] in Hd.
    injection Hd as <- <-. split; [done|]. intros code body [= <- <-] Hb. unfold left.
    destruct h as [n []]; [cbn; lia..|]. unfold answer in Hb. by rewrite <-!string_app_assoc, has_suffix_app in Hb.
  - intros run [n []] h'; cbn; intros [= <-]; cbn; lia.
Qed.

Definition toy_config : ElectionConfig := LadderConfig 30.

Definition toy_opts : RepeatOpts := MkRepeatOpts "http://console/" toy_config 1 2 (float_of_Z 2) 0 7 "out/summary.csv".

Definition st0 : st console := MkSt (0%nat, idle) [] [] [].

(** The whole campaign, and the ladder. *)
Example toy_campaign :
  match Repeat 4 (λ _, "") toy_opts st0 with
  | Some (s, Ok _) => (generated (heard s), fst <$> written s)
  | _ => ([], [])
  end =
  (["warmup 1 of 30 by 8"; "measured 1 of 30 by 8"; "measured 2 of 30 by 8"; "sweep 1 of 30 by 8";
    "sweep 2 of 30 by 9"; "sweep 3 of 30 by 14"; "burst 1 of 7 by 8"], ["out/summary.csv"]).
Proof. vm_compute. reflexivity. Qed.

Example toy_ladder :
  match RunLadder 4 (λ _, "") "http://c" "runs" (Some "abc") 0 st0 with
  | Some (s, Ok _) => written s
  | _ => []
  end = [("runs/ladder.json", "abc: r rr rrr rrrr ")].
Proof. vm_compute. reflexivity. Qed.

Lemma campaign_runs_in_order_witness :
  ∃ s' r l w, Repeat 4 (λ _, "") toy_opts st0 = Some (s', r) ∧ heard s' = heard st0 ++ l ∧
    written s' = written st0 ++ w ∧
    match newRepeatDriver toy_opts with
    | Err e => r = Err e ∧ l = [] ∧ w = []
    | Ok d => campaign_done d toy_opts r l w
    end.
Proof. apply (campaign_runs_in_order 4 (λ _, "") left phases_end_toy toy_opts); cbn; lia. Defined.

Lemma ladder_pins_passing_build_witness :
  ∃ s' r l w, RunLadder 4 (λ _, "") "http://c" "runs" (Some "abc") 0 st0 = Some (s', r) ∧
    heard s' = heard st0 ++ l ∧ written s' = written st0 ++ w ∧
    (if String.eqb (TrimSpace "http://c") "" then l = [] ∧ w = [] ∧ ∃ e, r = Err e
     else ladder_done "runs" (Some "abc") 0 r l w) ∧
    ∀ h runs c, Some "abc" = Some h → h ≠ "" →
      Gates.ladderGate (Ok (Gates.MkLadder h 0 runs)) (Some "abc") c = None.
Proof. apply (ladder_pins_passing_build 4 (λ _, "") left phases_end_toy "http://c" "runs" (Some "abc") 0 st0). Defined.
End ToyRepeat.

(** ** Concrete campaigns

    A campaign of one repetition and a burst, on a host that has memory for the
    one and not for the other; one whose last save fails; one whose console
    stops while it runs. *)
Module ToyCampaign.
Import GoText Config Campaign CampaignFacts.

#[local] Existing Instance ToyRepeat.toy_codec.
#[local] Existing Instance ToyRepeat.toy_client.
#[local] Instance toy_stamp : JobStamp := λ _, "20260101-000000".

Definition nobody (run : string) : option string := None.
Definition silent (e : goerr) : string := "error".

Definition toy_host : Gates.host :=
  Gates.MkHost (Ok (Gates.MkLadder "abc" 0 [])) (Some "abc") (λ _, Ok (10 ^ 12)) "" "runs" (Some (200 * 2 ^ 20)).

Definition toy_probes : Preflight.probes :=
  Preflight.MkProbes toy_host false "" "" None None [] (Preflight.MkSample 0 None None None) 8 (3600 * 10 ^ 9)
    (λ _, None) 0.

Definition toy_config : ElectionConfig := Repeat.LadderConfig 30.

Definition toy_options : Gates.CampaignOptions := Gates.MkOptions 0 1 f_zero f_zero 1000000 false.

Definition toy_body : result (ElectionConfig * Gates.CampaignOptions) := Ok (toy_config, toy_options).

Definition toy_request := campaign_request nobody "POST" toy_body toy_probes Exclusion.newServer.

Lemma toy_accepted : (match toy_request with inr _ => true | inl _ => false end) = true.
Proof. vm_compute. reflexivity. Qed.

(** The burst is checked against the ladder and the disk, not against memory:
    the campaign is started, and the burst refused at its own /generate. *)
Lemma burst_memory_unchecked :
  match toy_request with
  | inr (c, o, _) => is_Some (Gates.admit_gates toy_host (burst_of c o))
  | inl _ => False
  end.
Proof. vm_compute. eauto. Qed.

Lemma campaign_runs_are_admitted_witness :
  match toy_request with
  | inr (c, o, pre) =>
      startable (console_probes nobody Exclusion.newServer toy_probes) c o ∧
      Exclusion.busyRunsLocked nobody "" Exclusion.newServer = [] ∧
      Jobs.running (Exclusion.board Exclusion.newServer) = None ∧
      ∀ rep pick ts mkdirErr writeErr w,
        Server.handleGenerate (Preflight.gates toy_probes) (Preflight.fabricEnabled toy_probes) pick ts mkdirErr writeErr
          "POST" (Some (Repeat.with_rep rep c)) w =
        Server.create_and pick ts mkdirErr writeErr (Repeat.with_rep rep c) (Server.WGenerate (Repeat.with_rep rep c)) w
  | inl _ => False
  end.
Proof.
  pose proof toy_accepted as Ha. destruct toy_request as [|[[c o] pre]] eqn:E; [discriminate Ha|]. unfold toy_request in E.
  exact (campaign_runs_are_admitted nobody "POST" toy_body toy_probes Exclusion.newServer c o pre E).
Defined.

Lemma toy_runs_as : Preflight.runs_as (input_of toy_config) toy_config.
Proof. by split. Qed.

Lemma preflight_agrees_with_gates_witness :
  filter (λ k, k ∈ Preflight.gate_codes) (Preflight.unforceable (Preflight.preflight toy_probes (input_of toy_config))) =
    Preflight.refused (Preflight.gates toy_probes) toy_config ∧
  (Preflight.refused (Preflight.gates toy_probes) toy_config = [] ↔
    Gates.admit_gates (Preflight.gates toy_probes) toy_config = None) ∧
  (Preflight.unforceable (Preflight.preflight toy_probes (input_of toy_config)) = [] ↔
    Preflight.ready toy_probes toy_config).
Proof. exact (Preflight.preflight_agrees_with_gates toy_probes (input_of toy_config) toy_config toy_runs_as). Defined.

(** ** Records *)
Definition sample0 : Preflight.HostSample := Preflight.MkSample 0 None None None.

Definition toy_folders : gmap string run_folder :=
  {[ "r" := MkFolder (Some (ToyRepeat.perf "r")) "run.end" ]}.

Definition body : result (ElectionConfig * Gates.CampaignOptions) :=
  Ok (toy_config, Gates.MkOptions 0 1 f_zero f_zero 0 false).

(** One repetition, up to its closing sample. *)
Definition driving : list action :=
  [Post 1 "POST" body toy_probes; Create 1 None None None; Begin 1;
   RecordRep 1 2 ∅ (Some (MkRepTag 1 "measured")) "r" sample0 None; EndRepFind 1 "r";
   EndRepFill 1 3 toy_folders sample0 None].

Definition the_id : string := "campaign-20260101-000000-1".

Definition status_on_disk (l : list action) : option (string * list string) :=
  w ← run_steps nobody silent l new_world;
  f ← files w !! the_id;
  Some (CStatus f, RowStatus <$> CReps f).

Example driven : status_on_disk driving = Some ("running", ["done"]).
Proof. vm_compute. reflexivity. Qed.

Example completed : status_on_disk (driving ++ [Finish 1 4 toy_folders None None]) = Some ("done", ["done"]).
Proof. vm_compute. reflexivity. Qed.

Example restarted : status_on_disk (driving ++ [Restart; Load 5 toy_folders the_id None]) = Some ("interrupted", ["done"]).
Proof. vm_compute. reflexivity. Qed.

(** A campaign that completed, but whose last save failed, is later read as
    one the console stopped under: the console never stopped. *)
Example unsaved_reads_as_interrupted :
  status_on_disk (driving ++ [Finish 1 4 toy_folders None (Some (Foreign "no space left on device"));
                              Load 5 toy_folders the_id None]) = Some ("interrupted", ["done"]).
Proof. vm_compute. reflexivity. Qed.

Definition first_step : option world := step nobody silent (Post 1 "POST" body toy_probes) new_world.

Lemma first_step_some : is_Some first_step.
Proof. unfold first_step. cbn [step]. eauto. Qed.

Lemma campaign_records_kept_witness :
  match first_step with
  | Some w =>
    (∀ id f, files w !! id = Some f → rec_ok f ∧ CID f = id) ∧
    (∀ p rec, attached w !! p = Some rec → rec_ok rec) ∧
    (∀ a w', fresh a w → step nobody silent a w = Some w' → files_grow w w') ∧
    ∀ folders now err id rec active, (loadCampaign silent folders now err id w).2 = Ok (rec, active) →
      rec_ok rec ∧ CID rec = id ∧ (active = false → CStatus rec ≠ Jobs.jobRunning) ∧
      ∀ f, files w !! id = Some f → grows f rec
  | None => False
  end.
Proof.
  destruct first_step as [w|] eqn:E; [|by destruct first_step_some as [? ?]; congruence].
  apply (campaign_records_kept nobody silent w).
  eapply reachable_step; [apply reachable_new| |exact E]. intros now m b p _. apply lookup_empty.
Defined.

Definition toy_row : campaignRep :=
  MkRow 1 "measured" "r" Jobs.jobRunning None None false "" (Some sample0) None.

Definition toy_driver : Repeat.repeatDriver := Repeat.MkDriver "http://c" 0 f_zero "summary.csv".

Definition toy_state : Repeat.st ToyRepeat.console := Repeat.MkSt (1%nat, ToyRepeat.idle) [] [] [].

Definition toy_folder : run_folder := MkFolder (Some (ToyRepeat.perf "r")) "run.end".

Lemma rows_agree_with_driver_witness :
  ∃ s2 r, Repeat.collect toy_driver silent "r" (MkRepTag 1 "measured") true toy_state = Some (s2, r) ∧
    Repeat.Failed r = RowFailed (settle toy_folder toy_row) ∧
    Repeat.num (Repeat.Perf r) "committed_tps" = CommittedTPS (settle toy_folder toy_row) ∧
    Repeat.num (Repeat.Perf r) "latency_p99_ms" = LatencyP99Ms (settle toy_folder toy_row) ∧
    (is_Some (perf_of toy_folder "r") → true = true → Repeat.Reason r = FailReason (settle toy_folder toy_row)).
Proof.
  eexists. exact (rows_agree_with_driver silent toy_driver "r" (MkRepTag 1 "measured") true toy_folder toy_row
                    toy_state _ _ _ (Ok "run.end") eq_refl eq_refl eq_refl eq_refl eq_refl).
Defined.
End ToyCampaign.

(** ** Concrete canvass runs

    Two precincts driven to the national audit; the same generation driven
    again; an attack that drops a return; a hook of spaces. *)
Module ToyCanvass.
Import GoText Canvass CanvassFacts.

Definition root : path := ["gen"].

Definition put (p : path) (s : string) : M unit unit :=
  λ m, (MkMach (host m) (<[p := Text s]> (files m)) (folders m) (log m), Some tt).

Definition remove (p : path) : M unit unit :=
  λ m, (MkMach (host m) (delete p (files m)) (folders m) (log m), Some tt).

(** The lifecycle calls its hooks and publishes; [rm] is the attack script. *)
#[local] Instance toy_host : Host unit := {
  Lifecycle := λ f h,
    do! r := BeforeClose h in
    mret (match r with Ok _ => ("published"%string, None) | Err e => (""%string, Some e) end);
  Verify := λ f, do! _ := put (root ++ [f; "ledger"; "ballots.ndjson"]) ("ballots of " +:+ f) in mret ("pass"%string, None);
  ChainInfo := mret (Ok (7, "tip"%string));
  Runner := λ env name args,
    match args with
    | verb :: f :: rest =>
        if String.eqb verb "sign-return" then
          do! _ := put (root ++ [f; "return.json"]) ("return of " +:+ f) in
          mret ("signed: 12 records (11 verified)"%string, None)
        else if String.eqb verb "audit-canvass" then mret ("pass"%string, None)
        else if String.eqb name "rm" then
          do! _ := remove (root ++ [verb; "return.json"]) in mret (""%string, None)
        else mret (""%string, None)
    | _ => mret (""%string, None)
    end;
  os_write := λ _ _ _, None;
  os_mkdir := λ _ _, None;
  os_readdir := λ _ _, None
}.

#[local] Instance toy_codec : Codec := {
  header_election_id := λ s, Ok s;
  audit_doc := λ s, Ok (Some (String.eqb s "pass"), []);
  json_valid := λ _, true;
  close_json := λ h t, t;
  path_text := λ p, default ""%string (last p)
}.

#[local] Instance toy_record : RunCodec := λ rec, "record"%string.

Definition clean : Options := MkOptions root None "saksi-demo" "" "" "" "" false "uniform".

Definition generated : mach unit :=
  MkMach tt
    (list_to_map [(root ++ ["national"; "registry.json"], Text "registry");
                  (root ++ ["precinct-01"; "header.json"], Text "e1");
                  (root ++ ["precinct-02"; "header.json"], Text "e2")])
    {[root; root ++ ["national"]; root ++ ["precinct-02"]; root ++ ["precinct-01"]]} [].

Definition first_run : mach unit * option (Z * option goerr) := Run clean generated.

(** A second run of the generation is refused. *)
Lemma driven_once :
  first_run.2 = Some (ExitPass, None) ∧
  (Run clean first_run.1).2 =
    Some (ExitError, Some (Errorf "%s already holds returns: this generation was already driven; regenerate it" [AStr "returns"])).
Proof. split; vm_compute; reflexivity. Qed.

Lemma first_run_passes : Run clean generated = (first_run.1, Some (ExitPass, None)).
Proof. rewrite <-(proj1 driven_once). apply surjective_pairing. Qed.

(** A return the attack removed is not transmitted, and the run goes on. *)
Definition dropping : Options := MkOptions root None "saksi-demo" "T13" " rm " "" "" false "uniform".

Lemma dropped_return :
  (Run dropping generated).2 = Some (ExitPass, None) ∧
  files (Run dropping generated).1 !! (root ++ ["national"; "returns"; "p01.json"]) = None.
Proof. split; vm_compute; reflexivity. Qed.

(** A command line of spaces passes the test for an empty one and panics. *)
Lemma blank_hook_panics :
  (Run (MkOptions root None "saksi-demo" "T13" " " "" "" false "uniform") generated).2 = None.
Proof. vm_compute. reflexivity. Qed.

Lemma counts_of_a_summary : signedCounts "note: wrote x: 120 records (118 verified), ok" = (120, 118).
Proof. reflexivity. Qed.

Lemma canvass_exit_codes_witness :
  ∃ rec, files first_run.1 !! run_file clean = Some (Text (run_json rec)) ∧ ExitCode rec = ExitPass.
Proof.
  destruct (canvass_exit_codes clean generated first_run.1 ExitPass None first_run_passes) as (_&Hok&_).
  destruct (Hok eq_refl) as (rec&_&Hf&_&Hc&_). exists rec. exact (conj Hf Hc).
Defined.

Lemma only_put (P : path → Prop) p s : P p → only P (put p s).
Proof. intros Hp m m' r [= <- <-]. split; [|done]. intros q Hq. cbn. rewrite lookup_insert_ne; [done|]. by intros ->. Qed.

Lemma toy_tidy : tidy clean.
Proof.
  split; cbn.
  - intros f. apply (does_bind _ _ _ (λ _, True)); [by apply does_ret|]. intros [] _; by apply does_ret.
  - intros f. apply (does_bind _ _ _ (λ _, True)); [apply only_put; by exists "ledger", ["ballots.ndjson"]|].
    intros; by apply does_ret.
  - by apply does_ret.
  - intros f args. apply (does_bind _ _ _ (λ _, True)); [apply only_put|intros; by apply does_ret].
    by exists "return.json", [].
  - intros [|f args]; by apply does_ret.
Qed.

Lemma canvass_audits_signed_returns_witness :
  files first_run.1 !! (root ++ ["national"; "returns"; "p01.json"]) = Some (Text "return of precinct-01") ∧
  ∃ rec, Forall2 (transmitted clean first_run.1) ["precinct-01"; "precinct-02"] (Precincts_ rec).
Proof.
  destruct (canvass_audits_signed_returns clean generated first_run.1 ExitPass toy_tidy) as (_&(rec&_&Hrows)&_).
  - by split_and!.
  - vm_compute. congruence.
  - exact first_run_passes.
  - split; [vm_compute; reflexivity|]. exists rec.
    assert (E : precinct_names clean (prepared clean generated) = ["precinct-01"; "precinct-02"]) by (vm_compute; reflexivity).
    rewrite E in Hrows. exact Hrows.
Defined.
End ToyCanvass.
